(* ===== verification/_CoqProject ===== *)
-Q . S2P
Prelude.v
Lists.v
Sh.v
ShProofs.v
ShGrammar.v
ShSound.v
ShRun.v
ShProps.v
FsDefs.v
Strings.v
Format.v
Mem.v
LockFree.v
Spinlock.v
Heap.v
HeapProofs.v
HeapProps.v
PageTable.v
Paging.v
PagingProofs.v
PagingDemo.v
KernelPt.v
FreePt.v
Fork.v
ForkProofs.v
UserMem.v
Ring.v
Pipe.v
Console.v
BlockCache.v
Inode.v
InodeProofs.v
Cache.v
CacheProofs.v
CacheCrash.v
CacheClient.v
CacheBitmap.v
CacheInst.v
InodeDemo.v
Exec.v
ExecProofs.v
ExecProps.v
ExecLoad.v
ExecImage.v
ExecKeep.v
ExecCall.v
Mkfs.v
MkfsProofs.v
MkfsInv.v
MkfsProps.v
Virtio.v
VirtioProofs.v
VirtioSteps.v
VirtioProps.v
VirtioInit.v
RbTree.v
RbTreeSpec.v
RbTreeProofs.v
RbTreeProps.v
File.v
FileProofs.v
FileProps.v
Timer.v
Sched.v
SchedProofs.v
SemProofs.v
ProcProofs.v
ProcLife.v
ProcExit.v
ProcNew.v
ProcKill.v
Kernel.v
KernelProps.v
ForkCall.v
ForkProps.v
Switch.v
Trap.v
