(* ===== verification/Prelude.v ===== *)
(** * Verification of the Fudan-OS-2024 teaching kernel

    The program is a kernel for AArch64 in C.  Its parts, from the bottom: lists,
    strings, formatted output and red-black trees ([src/common]); pages of
    memory and page tables ([src/kernel/mem.c], [pt.c], [src/aarch64/kernel_pt.c]),
    small objects ([mem.c]) and demand paging ([paging.c]); timers, scheduler,
    semaphores and processes ([cpu.c], [sched.c], [sem.c], [proc.c]); the disk
    driver ([src/driver/virtio_blk.c]); the block cache with its write-ahead log
    ([src/fs/cache.c]); inodes, directories and paths ([inode.c]); the console
    ([console.c]); pipes, open files and the file system calls ([pipe.c],
    [file.c], [sysfile.c]); loading of programs ([exec.c]).  Above the kernel, the
    shell and the builder of disk images ([src/user/sh], [src/user/mkfs]).

    ** How C is modelled

    A function is a computation of the monad [M S] of this file: it takes a
    state and returns a value and a new state, or panics, or waits, or has
    undefined behaviour.  Integers are [Z]; where arithmetic can leave the width
    of the type its wrap-around is written out ([u8], [u16], [u32], [u64], [i64]).
    Counters that go up and down by one are unbounded: the [int] value of a
    semaphore, process numbers, the references of files and inodes.  A structure
    is a record, an enumeration an inductive type, a pointer an address in a map
    or a position in a table with 0 for NULL, and a loop a [Fixpoint] with a bound
    on its turns.  A bound is never reached: where the loop is over a counter it
    is the number of turns left, where it follows pointers the theorems show that
    it ends first, and where it waits it is one more than the number of times it
    can be woken.
    A spin lock is a flag, and taking one that is held is [Block]; [Spinlock] has
    the reason.

    ** Files

    - [Prelude]: outcomes, the monad and its rules ([wp]), arithmetic.
    - [Lists]: [list.h], [list.c]: circular lists through pointers and the
      counted queue, proved against sequences.
    - [FsDefs]: [fs/defines.h]: constants and the bytes of the structures on
      disk.
    - [Strings], [Format]: [string.c] on a memory of bytes, [format.c].
    - [Sh], [ShProofs], [ShGrammar], [ShSound], [ShRun], [ShProps]: the parser of
      the shell on a buffer with pointers into it, a grammar of command lines, and
      the system calls of [runcmd].
    - [Mem], [LockFree]: the page allocator of [mem.c] without interference, and
      the same code with the compare-and-swap loops of [list.c], one memory access
      at a time on many CPUs.
    - [Spinlock]: [spinlock.c], one memory access at a time on many CPUs.
    - [Heap], [HeapProofs], [HeapProps]: [kalloc] and [kfree].
    - [PageTable], [FreePt]: [pt.c] with the four levels of tables; what
      [free_pgdir] gives back.  [KernelPt]: the tables of the kernel.
    - [Paging], [PagingProofs], [PagingDemo]: [paging.c] and a process with a page.
    - [Fork], [ForkProofs], [ForkCall], [ForkProps]: [fork], its copy of the
      address space, and the whole call over processes, memory and files.
    - [UserMem]: the bytes a process sees; [copyout] and accesses of the kernel to
      user addresses.
    - [Exec], [ExecProofs], [ExecProps], [ExecLoad], [ExecImage]: [execve], its
      stack and the loading of segments from a file.  [ExecKeep], [ExecCall]: what
      its steps leave alone, and the whole call.
    - [Ring], [Pipe], [Console]: rings with counters that wrap around, [pipe.c],
      [console.c].
    - [BlockCache]: the interface of [cache.h], a record of operations, and the
      class of its laws ([BlockCacheSpec]) that the inode layer is proved
      against.
    - [Inode], [InodeProofs], [InodeDemo]: [inode.c] over any block cache; reading
      and writing of files proved from the laws; a disk with one file.
    - [Cache], [CacheProofs], [CacheCrash], [CacheClient], [CacheBitmap],
      [CacheInst]: [cache.c]; its invariant; crashes and recovery; clients whose
      calls interleave; the bitmap of blocks; and the instance of
      [BlockCacheSpec].
    - [Mkfs], [MkfsProofs], [MkfsInv], [MkfsProps]: the builder of disk images.
    - [Virtio], [VirtioProofs], [VirtioSteps], [VirtioProps], [VirtioInit]:
      [virtio_blk.c] and a device beside it, as steps of callers, interrupt handler
      and device.
    - [RbTree], [RbTreeSpec], [RbTreeProofs], [RbTreeProps]: [rbtree.c] on a heap
      of nodes, functional red-black trees, and the proof that the first
      implements the second.
    - [File], [FileProofs], [FileProps]: [file.c], the rest of [pipe.c] and
      [sysfile.c]; the counts of open files.
    - [Timer], [Sched]: [cpu.c], [sched.c], [sem.c] and [proc.c] on one state.
      The timers of a CPU are the ordered list that [RbTreeProps] gives.
    - [SchedProofs], [SemProofs], [ProcProofs], [ProcLife], [ProcExit], [ProcNew],
      [ProcKill]: the invariant of that state ([kinv]) and that each operation
      keeps it.
    - [Kernel], [KernelProps]: any interleaving of kernel calls on four CPUs.
    - [Switch]: [trap.S] and [swtch.S] as instructions on registers and memory.
      [Trap]: [trap.c], [syscall.c], [sysproc.c] and [interrupt.c] on the whole
      state of the kernel.

    ** What is proved

    - Log and cache: a crash at any point of a commit, and of the recovery after
      it, shows all or none of the committed blocks; interleaved clients keep
      the invariant and never overrun the log; blocks read as they were last
      written; allocation and freeing change one bit.
    - Files: writing and reading of an inode are splicing and slicing of its
      bytes, through direct and indirect blocks; the count of an open file is
      the number of its descriptors after any sequence of system calls; bytes go
      through a pipe in order.
    - Processes: from the booted kernel no interleaving of calls takes a lock
      twice or uses an object that is gone, and the only panic is the assertion of
      [unalertable_wait_sem], in the case the theorem names; no wake-up is lost;
      [wait] finds the zombie it was told of; [exit] leaves one; [kill] returns;
      yielding is round robin.
    - Memory: on many CPUs the stack of free pages behaves as a stack while frees
      and allocations do not overlap in two named ways; blocks of [kalloc], up to
      a page less a header, never overlap; mapping a page changes the translation
      of no other; [free_pgdir] gives back the tables and nothing else; the tables
      of the kernel are the linear map; a write to a shared page copies it.
    - Programs: the trap of [clone] returns twice, and the child has a copy of
      memory, of the trap frame and of the table of files; [execve] replaces the
      program, with every segment, the strings and the two vectors where the new
      one looks for them.
    - Traps and switches: [trap_entry] and [trap_return] save and restore the
      interrupted program; [swtch] returns from the call that saved the context it
      is given; a new process starts in its user context; a killed process exits
      instead of going back.
    - Locks: critical sections under a spin lock are atomic.
    - Disk: over a device that reports success the driver with its queues is an
      atomic disk and each caller is woken, and a failure it reports stops the
      kernel; an image of [mkfs] reads back as the files it was made from, unless
      the entries of the root directory fill its blocks exactly.
    - Shell: [parsecmd] accepts the command lines of a grammar and returns their
      trees; [runcmd] connects the processes of a pipeline.
    - Data structures and text: lists, queues and red-black trees implement
      sequences and sorted sequences; [memmove], [strncmp], formats and the
      numerals they print; the line discipline of the console; the rings of pipes with
      counters at the edge of their width.
    - Errors: freeing a free block damages the bitmap; a killed process that must
      sleep in [unalertable_wait_sem] stops the kernel; so do three disk requests
      at once and an argument of a certain length; two CPUs in [kalloc_page] and
      [kfree_page] can give one page to two owners.

    ** Granularity and bounds

    A call of the block cache, of a pipe or of the file layer runs to its end,
    and one that would wait has the outcome [Block].  In the process model a
    call is cut where [sched] switches to another process, and pieces of
    different CPUs alternate; [exit] is one piece up to its [sched].  The number
    of CPUs is [NCPU], 4; in [LockFree] it is any.  The disk driver and the page
    stack run one access, or one locked piece, at a time, and so do spin locks.

    Bounds of loops: [parse_depth], four times the length of the line and four
    more, is above the nesting of any command; [iappend] of [mkfs] takes at most a
    turn per byte; the interrupt handler and the search for a descriptor take
    [NQUEUE] turns; [copyout] a turn per byte, [allocuvm] one per page and one
    more; [skip_string] ends at the latest at [USERTOP].

    ** Not modelled

    Inline assembly, the interrupt controller, the UART, the timer and start-up,
    whose meaning is that of the hardware; the argument passing of system calls
    through user memory, where the values read are arguments; [sbrk] and page
    faults as parts of a trap, which are modelled on the memory of one process;
    user programs other than the shell and [mkfs], which are a few calls of the C
    library; tests. *)

From Stdlib Require Import ZArith Lia.
From stdpp Require Import base tactics numbers gmap list.

Local Open Scope Z_scope.

(** ** Outcomes of C code

    [Ret] is a normal return.  [Panic] is [PANIC()] or a failed [ASSERT].
    [Block] is a call that waits (a semaphore that is not available, a spin lock
    that is held) while nothing else runs.  [UB] is an access the C program
    must not make: a NULL or dangling pointer, an index outside an array. *)
Inductive result (A : Type) : Type :=
| Ret (a : A)
| Panic
| Block
| UB.
Arguments Ret {A} a.
Arguments Panic {A}.
Arguments Block {A}.
Arguments UB {A}.

(** Stateful C code over a store of type [S]. *)
Definition M (S A : Type) : Type := S -> result (A * S).

#[global] Instance M_ret {S} : MRet (M S) := fun A a s => Ret (a, s).

#[global] Instance M_bind {S} : MBind (M S) := fun A B f m s =>
  match m s with
  | Ret (a, s') => f a s'
  | Panic => Panic
  | Block => Block
  | UB => UB
  end.

Definition panic {S A} : M S A := fun _ => Panic.
Definition block {S A} : M S A := fun _ => Block.
Definition ub {S A} : M S A := fun _ => UB.
Definition gets {S A} (f : S -> A) : M S A := fun s => Ret (f s, s).
Definition modify {S} (f : S -> S) : M S unit := fun s => Ret (tt, f s).

(** [ASSERT(expr)]: panics when [expr] is zero. *)
Definition ASSERT {S} (b : bool) : M S unit := if b then mret tt else panic.

(** An access that must be there. *)
Definition some_or_ub {S A} (o : option A) : M S A :=
  match o with Some a => mret a | None => ub end.

(** Runs [f] on the elements of a list, in order: a C [for] loop over an index
    range whose body has no [break]. *)
Fixpoint for_each {S A} (l : list A) (f : A -> M S unit) : M S unit :=
  match l with
  | [] => mret tt
  | x :: l' => f x ;; for_each l' f
  end.

(** Code on a part of a larger store, which [get] selects and [set] replaces. *)
Definition zoom {S T A} (get : T -> S) (set : S -> T -> T) (m : M S A) : M T A := fun t =>
  match m (get t) with
  | Ret (a, s) => Ret (a, set s t)
  | Panic => Panic
  | Block => Block
  | UB => UB
  end.

(** [wp m Q s]: started in [s], [m] returns normally, and its value and final
    state satisfy [Q].  It excludes panics, blocking and undefined behaviour. *)
Definition wp {S A} (m : M S A) (Q : A -> S -> Prop) (s : S) : Prop :=
  match m s with
  | Ret (a, s') => Q a s'
  | _ => False
  end.

(** [m] returns with [Q], or panics and then [P]. *)
Definition wp_or_panic {S A} (m : M S A) (Q : A -> S -> Prop) (P : Prop) (s : S) : Prop :=
  match m s with
  | Ret (a, s') => Q a s'
  | Panic => P
  | _ => False
  end.

(** ** Machine integers: the typedefs of [common/defines.h] *)

Definition u8 (z : Z) : Z := z mod 2 ^ 8.
Definition u16 (z : Z) : Z := z mod 2 ^ 16.
Definition u32 (z : Z) : Z := z mod 2 ^ 32.
Definition u64 (z : Z) : Z := z mod 2 ^ 64.
Definition i32 (z : Z) : Z := (z + 2 ^ 31) mod 2 ^ 32 - 2 ^ 31.
Definition i64 (z : Z) : Z := (z + 2 ^ 63) mod 2 ^ 64 - 2 ^ 63.

(** [round_down(a, b)] and [round_up(a, b)], on [u64]. *)
Definition round_down (a b : Z) : Z := u64 (a - a mod b).
Definition round_up (a b : Z) : Z := round_down (u64 (a + b - 1)) b.

(** Little-endian bytes of an [n]-byte integer, as AArch64 stores it. *)
Fixpoint le_bytes (n : nat) (z : Z) : list Z :=
  match n with
  | O => []
  | S n' => (z mod 256) :: le_bytes n' (z / 256)
  end.

Fixpoint le_val (bs : list Z) : Z :=
  match bs with
  | [] => 0
  | b :: bs' => b + 256 * le_val bs'
  end.

(** The C object at byte offset [off] of a buffer, [n] bytes wide. *)
Definition read_le (n : nat) (off : nat) (buf : list Z) : Z :=
  le_val (take n (drop off buf)).

(** Overwrites the bytes from offset [off] with [bs] ([memcpy] into a buffer). *)
Definition splice {A} (off : nat) (bs buf : list A) : list A :=
  take off buf ++ bs ++ drop (off + length bs) buf.

(** A byte. *)
Definition is_byte (b : Z) : Prop := 0 <= b < 256.

(** ** Laws of the outcome monad *)

Section wp_laws.
Context {S : Type}.

Lemma wp_ret {A} (a : A) (Q : A -> S -> Prop) s : wp (mret a) Q s <-> Q a s.
Proof. done. Qed.

Lemma wp_bind {A B} (m : M S A) (f : A -> M S B) (Q : B -> S -> Prop) s :
  wp (m ≫= f) Q s <-> wp m (fun a s' => wp (f a) Q s') s.
Proof. unfold wp, mbind, M_bind. by destruct (m s) as [[a s']| | |]. Qed.

Lemma wp_mono {A} (m : M S A) (Q R : A -> S -> Prop) s :
  wp m Q s -> (forall a s', Q a s' -> R a s') -> wp m R s.
Proof. unfold wp. destruct (m s) as [[a s']| | |]; naive_solver. Qed.

Lemma wp_bind_mono {A B C} (m : M S A) (f : A -> M S B) (g : A -> M S C) (Q : B -> S -> Prop) (R : C -> S -> Prop) s :
  wp (m ≫= f) Q s -> (forall a s', wp (f a) Q s' -> wp (g a) R s') -> wp (m ≫= g) R s.
Proof. unfold wp, mbind, M_bind. destruct (m s) as [[a s']| | |]; naive_solver. Qed.

Lemma wp_gets {A} (f : S -> A) (Q : A -> S -> Prop) s : wp (gets f) Q s <-> Q (f s) s.
Proof. done. Qed.

Lemma wp_modify (f : S -> S) (Q : unit -> S -> Prop) s : wp (modify f) Q s <-> Q tt (f s).
Proof. done. Qed.

Lemma wp_ASSERT (b : bool) (Q : unit -> S -> Prop) s : wp (ASSERT b) Q s <-> b = true /\ Q tt s.
Proof. unfold wp, ASSERT. destruct b; naive_solver. Qed.

Lemma wp_some_or_ub {A} (o : option A) (Q : A -> S -> Prop) s :
  wp (some_or_ub o) Q s <-> exists a, o = Some a /\ Q a s.
Proof. unfold wp, some_or_ub. destruct o; naive_solver. Qed.

Lemma wp_run {A} (m : M S A) (Q : A -> S -> Prop) s :
  wp m Q s -> exists a s', m s = Ret (a, s') /\ Q a s'.
Proof. unfold wp. destruct (m s) as [[a s']| | |]; naive_solver. Qed.

Lemma wp_intro {A} (m : M S A) (Q : A -> S -> Prop) s a s' :
  m s = Ret (a, s') -> Q a s' -> wp m Q s.
Proof. unfold wp. by intros ->. Qed.

Lemma wpp_bind {A B} (m : M S A) (f : A -> M S B) (Q : B -> S -> Prop) P s :
  wp m (fun a s' => wp_or_panic (f a) Q P s') s -> wp_or_panic (m ≫= f) Q P s.
Proof. unfold wp, wp_or_panic, mbind, M_bind. by destruct (m s) as [[a s']| | |]. Qed.

Lemma wpp_wp {A} (m : M S A) (Q : A -> S -> Prop) P s : wp m Q s -> wp_or_panic m Q P s.
Proof. unfold wp, wp_or_panic. by destruct (m s) as [[a s']| | |]. Qed.

Lemma wpp_mono {A} (m : M S A) (Q R : A -> S -> Prop) (P P' : Prop) s :
  wp_or_panic m Q P s -> (forall a s', Q a s' -> R a s') -> (P -> P') -> wp_or_panic m R P' s.
Proof. unfold wp_or_panic. destruct (m s) as [[a s']| | |]; naive_solver. Qed.

Lemma wpp_seq {A B} (m : M S A) (f : A -> M S B) (Q : B -> S -> Prop) P s :
  wp_or_panic m (fun a s' => wp_or_panic (f a) Q P s') P s -> wp_or_panic (m ≫= f) Q P s.
Proof. unfold wp_or_panic, mbind, M_bind. by destruct (m s) as [[a s']| | |]. Qed.
Lemma wpp_ret {A} (a : A) (Q : A -> S -> Prop) P s : Q a s -> wp_or_panic (mret a) Q P s.
Proof. done. Qed.
Lemma wpp_run {A} (m : M S A) (Q : A -> S -> Prop) P s a s' : m s = Ret (a, s') -> Q a s' -> wp_or_panic m Q P s.
Proof. unfold wp_or_panic. by intros ->. Qed.
Lemma wpp_post {A} (m : M S A) (Q R : A -> S -> Prop) P s : wp_or_panic m Q P s -> (forall a s', Q a s' -> R a s') -> wp_or_panic m R P s.
Proof. intros H HQ. eapply wpp_mono; [exact H|exact HQ|done]. Qed.

Lemma bind_ret {A B} (m : M S A) (f : A -> M S B) s a s' : m s = Ret (a, s') -> (m ≫= f) s = f a s'.
Proof. unfold mbind, M_bind. by intros ->. Qed.

Lemma wp_zoom {T A} (get : T -> S) (set : S -> T -> T) (m : M S A) (Q : A -> T -> Prop) t :
  wp (zoom get set m) Q t <-> wp m (fun a s => Q a (set s t)) (get t).
Proof. unfold wp, zoom. by destruct (m (get t)) as [[a s]| | |]. Qed.

(** The loop rule: an invariant indexed by the elements already processed. *)
Lemma wp_for_each {A} (I : list A -> S -> Prop) (f : A -> M S unit) l s :
  I [] s ->
  (forall done x rest s', l = done ++ x :: rest -> I done s' ->
     wp (f x) (fun _ s'' => I (done ++ [x]) s'') s') ->
  wp (for_each l f) (fun _ s' => I l s') s.
Proof.
  intros H0 Hstep.
  enough (forall rest d s', l = d ++ rest -> I d s' ->
            wp (for_each rest f) (fun _ s'' => I l s'') s') as H by by apply (H l []).
  intros rest. induction rest as [|x rest IH]; intros d s' Hl Hd; cbn.
  { by rewrite app_nil_r in Hl; subst. }
  apply wp_bind. eapply wp_mono; [by eapply Hstep|].
  intros [] s'' Hs''. apply (IH (d ++ [x])); [|done]. by rewrite Hl, <-app_assoc.
Qed.
End wp_laws.

(** Steps through the primitives at the head of a [wp] goal. *)
Ltac wp_prim :=
  lazymatch goal with
  | |- wp (_ ≫= _) _ _ => apply wp_bind
  | |- wp (mret _) _ _ => apply wp_ret
  | |- wp (gets _) _ _ => apply wp_gets
  | |- wp (modify _) _ _ => apply wp_modify
  | |- wp (ASSERT _) _ _ => apply wp_ASSERT
  end; cbn beta.
Ltac wp_prims := repeat wp_prim.

(** ** Integers *)

Lemma u8_range z : 0 <= u8 z < 2 ^ 8.
Proof. apply Z.mod_pos_bound. lia. Qed.
Lemma u16_range z : 0 <= u16 z < 2 ^ 16.
Proof. apply Z.mod_pos_bound. lia. Qed.
Lemma u32_range z : 0 <= u32 z < 2 ^ 32.
Proof. apply Z.mod_pos_bound. lia. Qed.
Lemma u64_range z : 0 <= u64 z < 2 ^ 64.
Proof. apply Z.mod_pos_bound. lia. Qed.
Lemma i32_range z : - 2 ^ 31 <= i32 z < 2 ^ 31.
Proof. unfold i32. pose proof (Z.mod_pos_bound (z + 2 ^ 31) (2 ^ 32) eq_refl). lia. Qed.
Lemma i64_range z : - 2 ^ 63 <= i64 z < 2 ^ 63.
Proof. unfold i64. pose proof (Z.mod_pos_bound (z + 2 ^ 63) (2 ^ 64) eq_refl). lia. Qed.

Lemma u8_small z : 0 <= z < 2 ^ 8 -> u8 z = z.
Proof. apply Z.mod_small. Qed.
Lemma u16_small z : 0 <= z < 2 ^ 16 -> u16 z = z.
Proof. apply Z.mod_small. Qed.
Lemma u32_small z : 0 <= z < 2 ^ 32 -> u32 z = z.
Proof. apply Z.mod_small. Qed.
Lemma u64_small z : 0 <= z < 2 ^ 64 -> u64 z = z.
Proof. apply Z.mod_small. Qed.
Lemma i32_small z : - 2 ^ 31 <= z < 2 ^ 31 -> i32 z = z.
Proof. intros H. unfold i32. rewrite Z.mod_small; lia. Qed.

Create HintDb words.
Create Rewrite HintDb words.
#[export] Hint Resolve u8_range u16_range u32_range u64_range i32_range : words.
#[export] Hint Rewrite u8_small u16_small u32_small u64_small i32_small using lia : words.

(** Drops the wrap-around of every machine operation that provably fits. *)
Ltac fits := autorewrite with words.

Lemma round_down_spec a b :
  0 <= a < 2 ^ 64 -> 0 < b ->
  round_down a b = b * (a / b) /\ round_down a b <= a < round_down a b + b.
Proof.
  intros Ha Hb. unfold round_down.
  pose proof (Z.div_mod a b ltac:(lia)). pose proof (Z.mod_pos_bound a b Hb).
  pose proof (Z.div_pos a b ltac:(lia) Hb).
  assert (0 <= b * (a / b)) by nia. fits. lia.
Qed.

(** ** Byte buffers *)

Lemma length_le_bytes n z : length (le_bytes n z) = n.
Proof. revert z. induction n as [|n IH]; intros z; cbn; [done|]. by rewrite IH. Qed.

Lemma le_bytes_is_byte n z : Forall is_byte (le_bytes n z).
Proof.
  revert z. induction n as [|n IH]; intros z; cbn; constructor; [|apply IH].
  apply Z.mod_pos_bound. lia.
Qed.

Lemma le_val_bytes n z : 0 <= z < 256 ^ Z.of_nat n -> le_val (le_bytes n z) = z.
Proof.
  revert z. induction n as [|n IH]; intros z Hz; cbn.
  { cbn in Hz. lia. }
  rewrite Nat2Z.inj_succ, Z.pow_succ_r in Hz by lia.
  rewrite IH.
  - pose proof (Z.div_mod z 256). lia.
  - split; [apply Z.div_pos; lia|]. apply Z.div_lt_upper_bound; lia.
Qed.

Lemma le_val_range bs : Forall is_byte bs -> 0 <= le_val bs < 256 ^ Z.of_nat (length bs).
Proof.
  induction 1 as [|b bs Hb _ IH]; cbn [le_val length]; [done|].
  rewrite Nat2Z.inj_succ, Z.pow_succ_r by lia. unfold is_byte in Hb. lia.
Qed.

Lemma length_splice {A} off (bs buf : list A) :
  (off + length bs <= length buf)%nat -> length (splice off bs buf) = length buf.
Proof. intros H. unfold splice. rewrite !length_app, length_take, length_drop. lia. Qed.

Lemma lookup_splice_new {A} off (bs buf : list A) i :
  (off + length bs <= length buf)%nat -> (off <= i < off + length bs)%nat ->
  splice off bs buf !! i = bs !! (i - off)%nat.
Proof.
  intros H Hi. unfold splice.
  rewrite lookup_app_r by (rewrite length_take; lia).
  rewrite length_take, Nat.min_l by lia. by rewrite lookup_app_l by lia.
Qed.

Lemma lookup_splice_old {A} off (bs buf : list A) i :
  (off + length bs <= length buf)%nat -> (i < off \/ off + length bs <= i)%nat ->
  splice off bs buf !! i = buf !! i.
Proof.
  intros H [Hi|Hi]; unfold splice.
  - rewrite lookup_app_l by (rewrite length_take; lia). by rewrite lookup_take_lt.
  - rewrite lookup_app_r by (rewrite length_take; lia).
    rewrite length_take, Nat.min_l by lia. rewrite lookup_app_r by lia.
    rewrite lookup_drop. f_equal. lia.
Qed.

Lemma take_drop_splice {A} off (bs buf : list A) :
  (off + length bs <= length buf)%nat ->
  take (length bs) (drop off (splice off bs buf)) = bs.
Proof.
  intros H. unfold splice.
  rewrite drop_app_length' by (rewrite length_take; lia).
  by rewrite take_app_length.
Qed.

Lemma read_le_splice n off z buf :
  (off + n <= length buf)%nat -> 0 <= z < 256 ^ Z.of_nat n ->
  read_le n off (splice off (le_bytes n z) buf) = z.
Proof.
  intros H Hz. unfold read_le.
  rewrite <-(length_le_bytes n z) at 1. rewrite take_drop_splice by by rewrite length_le_bytes.
  by apply le_val_bytes.
Qed.

Lemma read_le_splice_ne n off off' bs buf :
  (off + length bs <= length buf)%nat -> (off' + n <= off \/ off + length bs <= off')%nat ->
  read_le n off' (splice off bs buf) = read_le n off' buf.
Proof.
  intros H Hd. unfold read_le. f_equal. apply list_eq. intros i. destruct (decide (i < n)%nat).
  - rewrite !lookup_take_lt, !lookup_drop by done. apply lookup_splice_old; [done|]. lia.
  - by rewrite !lookup_take_ge by lia.
Qed.

Lemma splice_all {A} (bs buf : list A) : length bs = length buf -> splice 0 bs buf = bs.
Proof. intros H. unfold splice. cbn [take app Nat.add]. rewrite H, drop_all. apply app_nil_r. Qed.

Lemma le_val_zeros n : le_val (replicate n 0) = 0.
Proof. induction n as [|n IH]; cbn [replicate le_val]; [done|]. by rewrite IH. Qed.

Lemma read_le_zeros n off k : read_le n off (replicate k 0) = 0.
Proof. unfold read_le. by rewrite drop_replicate, take_replicate, le_val_zeros. Qed.

(** ** Removing an element from a list without duplicates *)

Lemma elem_of_front (hd : list Z) p q : p ∈ hd -> q ∈ p :: filter (fun r => r <> p) hd <-> q ∈ hd.
Proof.
  intros Hp. rewrite elem_of_cons, list_elem_of_filter. destruct (decide (q = p)); naive_solver.
Qed.

Lemma front_perm (hd : list Z) p : NoDup hd -> p ∈ hd -> Permutation (p :: filter (fun r => r <> p) hd) hd.
Proof.
  intros Hnd Hp. apply NoDup_Permutation; [|done|intros q; by apply elem_of_front].
  apply NoDup_cons. split; [rewrite list_elem_of_filter; naive_solver|by apply NoDup_filter].
Qed.
