(* ===== verification/Lists.v ===== *)
(** * Circular lists and queues: [common/list.h], [common/list.c]

    The store maps the address of every [ListNode] to its two pointers; NULL is
    address 0, and reading or writing a field of a node that is not in the
    store is undefined behaviour.  [ring] says that a sequence of nodes is a
    circular list; the theorems show that the pointer code implements
    insertion, removal, concatenation and traversal of sequences, and that the
    [Queue] built on it is a first-in first-out queue. *)

From Stdlib Require Import ZArith Lia.
From stdpp Require Import base tactics numbers gmap list.
From S2P Require Import Prelude.

Local Open Scope Z_scope.

(** ** The nodes and the primitive accesses *)

(** [typedef struct ListNode { struct ListNode *prev, *next; } ListNode]. *)
Record ListNode : Type := mkListNode { prev : Z; next : Z }.

Definition NULL : Z := 0.

Abbreviation lstore := (gmap Z ListNode).

Definition load_node (p : Z) : M lstore ListNode := fun h => some_or_ub (h !! p) h.

(** [p->next], [p->prev]. *)
Definition get_next (p : Z) : M lstore Z := n ← load_node p; mret (next n).
Definition get_prev (p : Z) : M lstore Z := n ← load_node p; mret (prev n).

(** [p->next = q], [p->prev = q]. *)
Definition set_next (p q : Z) : M lstore unit :=
  n ← load_node p; modify <[p := mkListNode (prev n) q]>.
Definition set_prev (p q : Z) : M lstore unit :=
  n ← load_node p; modify <[p := mkListNode q (next n)]>.

(** ** The list operations *)

(** [init_list_node]: both pointers of the (possibly fresh) node are set. *)
Definition init_list_node (node : Z) : M lstore unit :=
  if node =? NULL then ub else modify <[node := mkListNode node node]>.

Definition _merge_list (node1 node2 : Z) : M lstore Z :=
  if node1 =? NULL then mret node2 else
  if node2 =? NULL then mret node1 else
  node3 ← get_next node1;
  node4 ← get_prev node2;
  set_next node1 node2;;
  set_prev node2 node1;;
  set_next node4 node3;;
  set_prev node3 node4;;
  mret node1.

(** [#define _insert_into_list(list, node)]. *)
Definition _insert_into_list (l node : Z) : M lstore Z :=
  init_list_node node;; _merge_list l node.

Definition _detach_from_list (node : Z) : M lstore Z :=
  p ← get_prev node;
  (pp ← get_prev node; nn ← get_next node; set_next pp nn);;
  (nn ← get_next node; pp ← get_prev node; set_prev nn pp);;
  init_list_node node;;
  mret (if p =? node then NULL else p).

(** [#define _empty_list(list)]. *)
Definition _empty_list (l : Z) : M lstore bool := n ← get_next l; mret (n =? l).

(** [#define _for_in_list(valptr, list)]: the sequence of values [valptr] takes.
    It starts at [list->next] and stops after the value [list] itself.  [fuel]
    bounds the number of iterations. *)
Fixpoint for_in_list_from (fuel : nat) (flag valptr : Z) : M lstore (list Z) :=
  match fuel with
  | O => block
  | S fuel' =>
      if valptr =? flag then mret [valptr] else
      nx ← get_next valptr;
      rest ← for_in_list_from fuel' flag nx;
      mret (valptr :: rest)
  end.

Definition _for_in_list (fuel : nat) (l : Z) : M lstore (list Z) :=
  first ← get_next l; for_in_list_from fuel l first.

(** ** [Queue] *)

(** [struct Queue] without its lock, which the caller takes with
    [queue_lock]/[queue_unlock] around the operations. *)
Record Queue : Type := mkQueue { q_begin : Z; q_end : Z; q_sz : Z }.

Record qstate : Type := mkQstate { q_store : lstore; q_queue : Queue }.

(** Runs list code on the nodes of a queue state. *)
Definition on_store {A} (m : M lstore A) : M qstate A := fun s =>
  match m (q_store s) with
  | Ret (a, h) => Ret (a, mkQstate h (q_queue s))
  | Panic => Panic
  | Block => Block
  | UB => UB
  end.

Definition set_queue (q : Queue) : M qstate unit := modify (fun s => mkQstate (q_store s) q).

Definition queue_init : M qstate unit := set_queue (mkQueue NULL NULL 0).

Definition queue_push (item : Z) : M qstate unit :=
  on_store (init_list_node item);;
  x ← gets q_queue;
  (if q_sz x =? 0 then
     set_queue (mkQueue item item (q_sz x))
   else
     on_store (_merge_list (q_end x) item);;
     set_queue (mkQueue (q_begin x) item (q_sz x)));;
  x ← gets q_queue;
  set_queue (mkQueue (q_begin x) (q_end x) (i32 (q_sz x + 1))).

Definition queue_pop : M qstate unit :=
  x ← gets q_queue;
  if q_sz x =? 0 then panic else
  (if q_sz x =? 1 then
     set_queue (mkQueue NULL NULL (q_sz x))
   else
     let t := q_begin x in
     nb ← on_store (get_next (q_begin x));
     set_queue (mkQueue nb (q_end x) (q_sz x));;
     on_store (_detach_from_list t);;
     mret tt);;
  x ← gets q_queue;
  set_queue (mkQueue (q_begin x) (q_end x) (i32 (q_sz x - 1))).

Definition queue_front : M qstate Z :=
  x ← gets q_queue;
  if q_begin x =? NULL then panic else mret (q_begin x).

Definition queue_empty : M qstate bool := x ← gets q_queue; mret (q_sz x =? 0).

(** ** Circular lists as sequences *)

(** The two pointers of a node, when it is in the store. *)
Definition nx (h : lstore) (p : Z) : option Z := next <$> (h !! p).
Definition pv (h : lstore) (p : Z) : option Z := prev <$> (h !! p).

(** [b] follows [a]. *)
Definition link (h : lstore) (a b : Z) : Prop := nx h a = Some b /\ pv h b = Some a.

(** Each node of the sequence is linked to the following one. *)
Fixpoint path (h : lstore) (l : list Z) : Prop :=
  match l with
  | a :: l' => match l' with b :: _ => link h a b | [] => True end /\ path h l'
  | [] => True
  end.

(** The nodes [x :: l], in this order, form a circular list. *)
Definition ring (h : lstore) (x : Z) (l : list Z) : Prop :=
  NoDup (x :: l) /\ (NULL ∉ x :: l) /\ path h (x :: l ++ [x]).

(** Every node outside [l] keeps its pointers. *)
Definition same_outside (l : list Z) (h h' : lstore) : Prop :=
  forall p, p ∉ l -> h' !! p = h !! p.

(** A queue holds [l], oldest item first. *)
Definition queue_rep (s : qstate) (l : list Z) : Prop :=
  q_sz (q_queue s) = Z.of_nat (length l) /\
  match l with
  | [] => q_begin (q_queue s) = NULL /\ q_end (q_queue s) = NULL
  | x :: l' => q_begin (q_queue s) = x /\ last l = Some (q_end (q_queue s)) /\
               ring (q_store s) x l'
  end.

(** ** Paths *)

Lemma path_app h l1 a l2 : path h (l1 ++ a :: l2) <-> path h (l1 ++ [a]) /\ path h (a :: l2).
Proof.
  induction l1 as [|x l1 IH]; [by cbn; naive_solver|].
  destruct l1 as [|y l1]; cbn in *; naive_solver.
Qed.

Lemma path_frame h h' l e :
  path h (l ++ [e]) ->
  (forall a, a ∈ l -> nx h' a = nx h a) ->
  (forall a, a ∈ tail (l ++ [e]) -> pv h' a = pv h a) ->
  path h' (l ++ [e]).
Proof.
  induction l as [|x l IH]; intros Hp Hn Hv; [done|].
  destruct l as [|y l]; cbn in *.
  - destruct Hp as [[H1 H2] _]. split; [|done]. unfold link.
    rewrite Hn, Hv by set_solver. done.
  - destruct Hp as [[H1 H2] Hp]. split.
    + unfold link. rewrite Hn, Hv by set_solver. done.
    + apply IH; [done|set_solver|]. intros a Ha. apply Hv. set_solver.
Qed.

Lemma ring_rotate h x l1 n l2 : ring h x (l1 ++ n :: l2) <-> ring h n (l2 ++ x :: l1).
Proof.
  assert (Permutation (x :: l1 ++ n :: l2) (n :: l2 ++ x :: l1)) as Hperm.
  { change (Permutation ((x :: l1) ++ n :: l2) ((n :: l2) ++ x :: l1)).
    apply Permutation_app_comm. }
  assert (path h (x :: (l1 ++ n :: l2) ++ [x]) <-> path h (n :: (l2 ++ x :: l1) ++ [n])) as Hpath.
  { replace (x :: (l1 ++ n :: l2) ++ [x]) with ((x :: l1) ++ n :: (l2 ++ [x]))
      by (cbn; by rewrite <-app_assoc).
    replace (n :: (l2 ++ x :: l1) ++ [n]) with ((n :: l2) ++ x :: (l1 ++ [n]))
      by (cbn; by rewrite <-app_assoc).
    rewrite (path_app h (x :: l1) n), (path_app h (n :: l2) x). apply and_comm. }
  unfold ring. rewrite Hperm, Hpath. done.
Qed.

Lemma link_next h a b : link h a b -> nx h a = Some b.
Proof. by intros []. Qed.

Lemma link_prev h a b : link h a b -> pv h b = Some a.
Proof. by intros []. Qed.

Lemma nx_is_Some h p q : nx h p = Some q -> is_Some (h !! p).
Proof. unfold nx. destruct (h !! p); naive_solver. Qed.

Lemma pv_is_Some h p q : pv h p = Some q -> is_Some (h !! p).
Proof. unfold pv. destruct (h !! p); naive_solver. Qed.

Create HintDb rings.
#[export] Hint Resolve link_next link_prev nx_is_Some pv_is_Some : rings.

(** ** The primitive accesses *)

Lemma get_next_run h p q : nx h p = Some q -> get_next p h = Ret (q, h).
Proof.
  unfold nx, get_next, load_node, mbind, M_bind, some_or_ub, mret, M_ret.
  destruct (h !! p); cbn; congruence.
Qed.

Lemma wp_get_next p q (Q : Z -> lstore -> Prop) h :
  nx h p = Some q -> Q q h -> wp (get_next p) Q h.
Proof.
  unfold nx, get_next, load_node, wp, mbind, M_bind, some_or_ub, mret, M_ret.
  destruct (h !! p) as [[p' n']|]; cbn; naive_solver.
Qed.

Lemma wp_get_prev p q (Q : Z -> lstore -> Prop) h :
  pv h p = Some q -> Q q h -> wp (get_prev p) Q h.
Proof.
  unfold pv, get_prev, load_node, wp, mbind, M_bind, some_or_ub, mret, M_ret.
  destruct (h !! p) as [[p' n']|]; cbn; naive_solver.
Qed.

(** The effect of a store on the two pointer functions and on the frame. *)
Definition upd_next (p q : Z) (h h' : lstore) : Prop :=
  (forall a, nx h' a = if decide (a = p) then Some q else nx h a) /\
  (forall a, pv h' a = pv h a) /\ same_outside [p] h h'.
Definition upd_prev (p q : Z) (h h' : lstore) : Prop :=
  (forall a, pv h' a = if decide (a = p) then Some q else pv h a) /\
  (forall a, nx h' a = nx h a) /\ same_outside [p] h h'.

Lemma wp_set_next p q (Q : unit -> lstore -> Prop) h :
  is_Some (h !! p) -> (forall h', upd_next p q h h' -> Q tt h') -> wp (set_next p q) Q h.
Proof.
  intros [n Hn] HQ. unfold set_next, load_node, wp, mbind, M_bind, some_or_ub.
  rewrite Hn. cbn. apply HQ. unfold upd_next, nx, pv, same_outside.
  split_and!; intros a; rewrite ?lookup_insert; repeat case_decide; subst; rewrite ?Hn;
    try done; set_solver.
Qed.

Lemma wp_set_prev p q (Q : unit -> lstore -> Prop) h :
  is_Some (h !! p) -> (forall h', upd_prev p q h h' -> Q tt h') -> wp (set_prev p q) Q h.
Proof.
  intros [n Hn] HQ. unfold set_prev, load_node, wp, mbind, M_bind, some_or_ub.
  rewrite Hn. cbn. apply HQ. unfold upd_prev, nx, pv, same_outside.
  split_and!; intros a; rewrite ?lookup_insert; repeat case_decide; subst; rewrite ?Hn;
    try done; set_solver.
Qed.

Lemma wp_init_list_node p (Q : unit -> lstore -> Prop) h :
  p <> NULL -> Q tt (<[p := mkListNode p p]> h) -> wp (init_list_node p) Q h.
Proof. intros Hp HQ. unfold init_list_node. by rewrite (proj2 (Z.eqb_neq _ _) Hp). Qed.

(** ** The list operations on rings *)

Lemma ring_first h x l n r : ring h x l -> l ++ [x] = n :: r -> link h x n /\ path h (n :: r).
Proof. intros (_ & _ & Hp) Heq. rewrite Heq in Hp. done. Qed.

Lemma ring_last h x l r n : ring h x l -> x :: l = r ++ [n] -> path h (r ++ [n]) /\ link h n x.
Proof.
  intros (_ & _ & Hp) Heq. rewrite (app_comm_cons l [x] x), Heq, <-app_assoc in Hp. cbn in Hp.
  apply path_app in Hp. cbn in Hp. tauto.
Qed.

Lemma snoc_first {A} (l : list A) x : exists n r, l ++ [x] = n :: r.
Proof. destruct l as [|n r]; cbn; eauto. Qed.

Lemma cons_last {A} (l : list A) x : exists r n, x :: l = r ++ [n].
Proof. induction l using rev_ind; [by exists [], x|]. by eexists (x :: l), x0. Qed.

(** The four stores of [_merge_list]. *)
Lemma merge_effect n1 n2 n3 n4 h :
  n1 <> NULL -> n2 <> NULL -> nx h n1 = Some n3 -> pv h n2 = Some n4 ->
  is_Some (h !! n4) -> is_Some (h !! n3) -> n1 <> n4 -> n2 <> n3 ->
  wp (_merge_list n1 n2) (fun r h' => r = n1 /\
    (forall a, nx h' a = if decide (a = n1) then Some n2
                         else if decide (a = n4) then Some n3 else nx h a) /\
    (forall a, pv h' a = if decide (a = n2) then Some n1
                         else if decide (a = n3) then Some n4 else pv h a) /\
    same_outside [n1; n2; n3; n4] h h') h.
Proof.
  intros H1 H2 Hn Hp H4 H3 Hne Hne'. unfold _merge_list.
  rewrite (proj2 (Z.eqb_neq _ _) H1), (proj2 (Z.eqb_neq _ _) H2).
  wp_prim. eapply wp_get_next; [done|]. wp_prim. eapply wp_get_prev; [done|].
  wp_prim. apply wp_set_next; [eauto with rings|]. intros ha (Ha1 & Ha2 & Ha3).
  wp_prim. apply wp_set_prev; [eapply (pv_is_Some _ _ n4); by rewrite Ha2|]. intros hb (Hb1 & Hb2 & Hb3).
  wp_prim. apply wp_set_next.
  { destruct H4 as [m Hm]. eapply (nx_is_Some _ _ (next m)).
    rewrite Hb2, Ha1. rewrite decide_False by done. unfold nx. by rewrite Hm. }
  intros hc (Hc1 & Hc2 & Hc3).
  wp_prim. apply wp_set_prev.
  { destruct H3 as [m Hm]. eapply (pv_is_Some _ _ (prev m)).
    rewrite Hc2, Hb1, Ha2. rewrite decide_False by done. unfold pv. by rewrite Hm. }
  intros hd (Hd1 & Hd2 & Hd3).
  wp_prim. split_and!; [done| | |].
  - intros a. rewrite Hd2, Hc1, Hb2, Ha1. repeat case_decide; subst; naive_solver.
  - intros a. rewrite Hd1, Hc2, Hb1, Ha2. repeat case_decide; subst; naive_solver.
  - intros p Hp'. rewrite Hd3, Hc3, Hb3, Ha3 by set_solver. done.
Qed.

(** Concatenation: two disjoint circular lists become one, in which [n2] follows
    [n1] directly, the rest of the second list comes next and then the rest of
    the first. *)
Lemma merge_ring_wp n1 l1 n2 l2 h :
  ring h n1 l1 -> ring h n2 l2 -> (n1 :: l1) ## (n2 :: l2) ->
  wp (_merge_list n1 n2) (fun r h' => r = n1 /\ ring h' n1 (n2 :: l2 ++ l1) /\
    same_outside (n1 :: l1 ++ n2 :: l2) h h') h.
Proof.
  intros R1 R2 Hdisj.
  destruct (snoc_first l1 n1) as (n3 & r1 & E1), (cons_last l2 n2) as (r2 & n4 & E2).
  destruct (ring_first _ _ _ _ _ R1 E1) as [L1 P1], (ring_last _ _ _ _ _ R2 E2) as [P2 L2].
  destruct R1 as (ND1 & NZ1 & _), R2 as (ND2 & NZ2 & _).
  assert (NoDup (n3 :: r1)) as ND3 by (by rewrite <-E1, Permutation_app_comm).
  assert (forall a, a ∈ n3 :: r1 <-> a ∈ n1 :: l1) as I1.
  { intros a. rewrite <-E1, elem_of_app, !elem_of_cons, elem_of_nil. tauto. }
  assert (forall a, a ∈ r2 ++ [n4] <-> a ∈ n2 :: l2) as I2 by (intros a; by rewrite E2).
  assert (forall a, a ∈ n1 :: l1 -> a ∈ n2 :: l2 -> False) as Hd by set_solver.
  assert (NoDup (r2 ++ [n4])) as ND4 by by rewrite <-E2.
  assert (n4 ∉ r2) as N4 by (clear -ND4; apply NoDup_app in ND4; set_solver).
  apply NoDup_cons in ND1 as [N1 ND1], ND2 as [N2 ND2], ND3 as [N3 _].
  assert (n1 ∈ n1 :: l1 /\ n3 ∈ n1 :: l1) as [In1 In3] by (rewrite <-!I1, I1; split; left).
  assert (n2 ∈ n2 :: l2 /\ n4 ∈ n2 :: l2) as [In2 In4]
    by (split; [left|apply I2, elem_of_app; right; left]).
  clear Hdisj.
  assert (Permutation (n1 :: n2 :: l2 ++ l1) ((n1 :: l1) ++ (n2 :: l2))) as Hperm
    by (cbn; apply Permutation_cons, (Permutation_app_comm (n2 :: l2) l1); done).
  eapply wp_mono; [eapply (merge_effect n1 n2 n3 n4); eauto with rings|].
  1-4: intros ->; eauto.
  intros r h' (-> & Hnx & Hpv & Hsame). split; [done|]. split; [split; [|split]|].
  - rewrite Hperm. apply NoDup_app. split_and!; [by apply NoDup_cons|exact Hd|by apply NoDup_cons].
  - rewrite Hperm, elem_of_app. tauto.
  - replace (n1 :: (n2 :: l2 ++ l1) ++ [n1]) with (n1 :: (n2 :: l2) ++ (l1 ++ [n1]))
      by (cbn; by rewrite <-app_assoc).
    rewrite E1, E2, <-app_assoc.
    change (n1 :: r2 ++ [n4] ++ n3 :: r1) with ((n1 :: r2) ++ n4 :: n3 :: r1).
    assert (path h' (r2 ++ [n4])) as P2'.
    { eapply path_frame; [done| |]; intros a Ha.
      - rewrite Hnx, !decide_False; [done|congruence|]. intros ->.
        apply (Hd n1); [done|]. apply I2, elem_of_app; by left.
      - rewrite <-E2 in Ha. cbn in Ha. rewrite Hpv, !decide_False; [done| |congruence].
        intros ->. apply (Hd n3); [done|]. by right. }
    assert (path h' (n3 :: r1)) as P1'.
    { rewrite <-E1. eapply path_frame; [by rewrite E1| |]; intros a Ha.
      - rewrite Hnx, !decide_False; [done| |congruence]. intros ->.
        apply (Hd n4); [by right|done].
      - rewrite E1 in Ha. cbn in Ha. rewrite Hpv, !decide_False; [done|congruence|].
        intros ->. apply (Hd n2); [|done]. apply I1. by right. }
    rewrite path_app. split.
    + assert (link h' n1 n2) as L12
        by (split; [rewrite Hnx|rewrite Hpv]; by rewrite decide_True).
      destruct r2; cbn in E2 |- *; simplify_eq; by split.
    + split; [|done]. split; [rewrite Hnx|rewrite Hpv]; rewrite decide_False;
        [by rewrite decide_True|by intros ->; eauto|by rewrite decide_True|by intros ->; eauto].
  - intros p Hp. apply Hsame. rewrite !elem_of_cons, elem_of_nil.
    rewrite elem_of_cons, elem_of_app in Hp. intros [->|[->|[->|[->|[]]]]]; apply Hp.
    + by left.
    + right; by right.
    + apply elem_of_cons in In3. tauto.
    + tauto.
Qed.

(** Insertion of a node after [x] puts it at the front of the list headed by [x]. *)
Lemma insert_ring_wp x l node h :
  ring h x l -> node <> NULL -> node ∉ x :: l ->
  wp (_insert_into_list x node) (fun r h' => r = x /\ ring h' x (node :: l) /\
    same_outside (x :: node :: l) h h') h.
Proof.
  intros R Hn Hnin. unfold _insert_into_list. wp_prim.
  apply wp_init_list_node; [done|].
  set (h1 := <[node := mkListNode node node]> h).
  assert (ring h1 node []) as R2.
  { split; [apply NoDup_singleton|]. split; [set_solver|]. cbn. split; [|done].
    unfold link, nx, pv, h1. by rewrite lookup_insert_eq. }
  assert (ring h1 x l) as R1.
  { destruct R as (ND & NZ & P). split; [done|]. split; [done|].
    rewrite app_comm_cons. eapply path_frame; [exact P| |];
    intros a Ha; unfold nx, pv, h1; rewrite lookup_insert_ne; try done; set_solver. }
  eapply wp_mono; [eapply (merge_ring_wp x l node []); [done|done|set_solver]|].
  intros r h' (-> & R' & Hs). split; [done|]. split; [done|].
  intros p Hp. rewrite Hs by set_solver. unfold h1. rewrite lookup_insert_ne; [done|set_solver].
Qed.

(** Inserting after the last node appends. *)
Lemma insert_tail_ring_wp x l z node h :
  ring h x l -> node <> NULL -> node ∉ x :: l -> last (x :: l) = Some z ->
  wp (_insert_into_list z node) (fun r h' => ring h' x (l ++ [node]) /\
    same_outside (x :: node :: l) h h') h.
Proof.
  intros R Hn Hnin Hz. destruct (last_Some (x :: l) z) as [Hl _].
  destruct (Hl Hz) as [r Hr]. destruct r as [|x' r]; cbn in Hr; simplify_eq.
  - eapply wp_mono; [by apply insert_ring_wp|]. naive_solver.
  - assert (ring h z (x' :: r)) as R' by (apply (ring_rotate h x' r z []); done).
    eapply wp_mono; [apply (insert_ring_wp z (x' :: r)); [done|done|set_solver]|].
    intros _ h' (_ & R2 & Hs). split; [|intros p Hp; apply Hs; set_solver].
    rewrite <-app_assoc. cbn. apply (ring_rotate h' x' r z [node]). done.
Qed.

(** The stores of [_detach_from_list]. *)
Lemma detach_effect z n a h :
  n <> NULL -> link h z n -> link h n a ->
  wp (_detach_from_list n) (fun r h' => r = (if decide (z = n) then NULL else z) /\
    (forall p, nx h' p = if decide (p = n) then Some n
                         else if decide (p = z) then Some a else nx h p) /\
    (forall p, pv h' p = if decide (p = n) then Some n
                         else if decide (p = a) then Some z else pv h p) /\
    same_outside [n; z; a] h h') h.
Proof.
  intros Hn Lz La. unfold _detach_from_list. wp_prim. eapply wp_get_prev; [eauto with rings|].
  wp_prim. wp_prim. eapply wp_get_prev; [eauto with rings|].
  wp_prim. eapply wp_get_next; [eauto with rings|].
  apply wp_set_next; [eauto with rings|]. intros ha (Ha1 & Ha2 & Ha3).
  assert (nx ha n = Some a) as Hna by (rewrite Ha1; case_decide; eauto with rings).
  assert (is_Some (ha !! a)) as Hsa by (eapply (pv_is_Some _ _ n); rewrite Ha2; by apply link_prev).
  wp_prim. wp_prim. eapply wp_get_next; [exact Hna|].
  wp_prim. eapply wp_get_prev; [rewrite Ha2; eauto with rings|].
  apply wp_set_prev; [done|]. intros hb (Hb1 & Hb2 & Hb3).
  wp_prim. apply wp_init_list_node; [done|]. wp_prim. split_and!.
  - case_decide; [subst; by rewrite Z.eqb_refl|]. by rewrite (proj2 (Z.eqb_neq _ _)).
  - intros p. unfold nx at 1. rewrite lookup_insert. case_decide; case_decide; try congruence; [done|].
    apply (eq_trans (Hb2 p) (Ha1 p)).
  - intros p. unfold pv at 1. rewrite lookup_insert. case_decide; case_decide; try congruence; [done|].
    rewrite <-(Ha2 p). apply (Hb1 p).
  - intros p Hp. rewrite lookup_insert_ne by set_solver. rewrite Hb3, Ha3 by set_solver. done.
Qed.

(** Removal, seen from the removed node. *)
Lemma detach_self_wp n l h :
  ring h n l ->
  wp (_detach_from_list n) (fun r h' => r = default NULL (last l) /\ ring h' n [] /\
    match l with [] => True | a :: l' => ring h' a l' end /\ same_outside (n :: l) h h') h.
Proof.
  intros R. destruct (snoc_first l n) as (a & r1 & E1), (cons_last l n) as (r2 & z & E2).
  destruct (ring_first _ _ _ _ _ R E1) as [La P1], (ring_last _ _ _ _ _ R E2) as [P2 Lz].
  destruct R as (ND & NZ & _). apply NoDup_cons in ND as [Nn ND].
  assert (n <> NULL) as Hn by (intros ->; apply NZ; left).
  eapply wp_mono; [by apply (detach_effect z n a)|]. intros r h' (-> & Hnx & Hpv & Hs).
  assert (ring h' n []) as Rn.
  { split; [apply NoDup_singleton|]. split; [set_solver|]. split; [|done].
    split; [rewrite Hnx|rewrite Hpv]; by rewrite decide_True. }
  destruct l as [|a' l]; cbn in E1; simplify_eq.
  { destruct r2 as [|? [|]]; simplify_eq/=. split_and!; [by case_decide|done|done|].
    intros p Hp. apply Hs. set_solver. }
  destruct r2 as [|y r2]; cbn in E2; [discriminate|]. injection E2 as <- E2. rewrite E2 in Nn, ND.
  assert (forall p, p ∈ r2 ++ [z] -> p <> n) as Hpn by (intros p Hp ->; done).
  assert ((z ∉ r2) /\ z <> n) as [Nz Hzn].
  { apply NoDup_app in ND as (_ & ND & _). split; [intros Hz; by apply (ND z Hz); left|].
    apply Hpn, elem_of_app. right; left. }
  split_and!; [|done| |].
  - rewrite decide_False by done. by rewrite E2, last_snoc.
  - split; [by rewrite E2|]. split; [by intros ?; apply NZ; right|].
    rewrite app_comm_cons, E2, <-app_assoc. apply path_app. split; [|split; [|done]].
    + assert (path h (r2 ++ [z])) as P2' by (destruct r2; cbn in P2 |- *; tauto).
      eapply path_frame; [exact P2'| |]; intros p Hp.
      * rewrite Hnx, !decide_False; [done|congruence|]. apply Hpn, elem_of_app. by left.
      * rewrite <-E2 in Hp, ND. apply NoDup_cons in ND as [Na _]. cbn in Hp.
        rewrite Hpv, !decide_False; [done|congruence|]. apply Hpn. rewrite <-E2. by right.
    + split; [rewrite Hnx|rewrite Hpv]; rewrite decide_False; [by rewrite decide_True|done|
        by rewrite decide_True|]. apply Hpn. rewrite <-E2. left.
  - intros p Hp. apply Hs. rewrite !elem_of_cons, elem_of_nil. rewrite E2 in Hp.
    assert (a ∈ r2 ++ [z]) by (rewrite <-E2; left).
    intros [->|[->|[->|[]]]]; apply Hp; [left|right; apply elem_of_app; right; left|by right].
Qed.

(** Removal of a node from the list headed by [x]. *)
Lemma detach_ring_wp x l1 n l2 h :
  ring h x (l1 ++ n :: l2) ->
  wp (_detach_from_list n) (fun r h' => Some r = last (x :: l1) /\
    ring h' x (l1 ++ l2) /\ ring h' n [] /\ same_outside (x :: l1 ++ n :: l2) h h') h.
Proof.
  intros R. assert (ring h n (l2 ++ x :: l1)) as R' by by apply ring_rotate.
  eapply wp_mono; [by apply detach_self_wp|]. intros r h' (-> & Rn & Rx & Hs).
  assert (exists y, last (l2 ++ x :: l1) = Some y /\ last (x :: l1) = Some y) as (y & Hy & Hy').
  { destruct (cons_last l1 x) as (q & y & ->). exists y. by rewrite app_assoc, !last_snoc. }
  split_and!; [by rewrite Hy, Hy'| |done|].
  - destruct l2 as [|a l2]; cbn in Rx; [by rewrite app_nil_r|]. by apply ring_rotate.
  - intros p Hp. apply Hs. set_solver.
Qed.

(** ** Traversal *)

Lemma for_in_list_from_spec h flag l fuel v :
  flag ∉ (v :: l) -> path h (v :: l ++ [flag]) -> (length l + 1 < fuel)%nat ->
  for_in_list_from fuel flag v h = Ret (v :: l ++ [flag], h).
Proof.
  revert v fuel. induction l as [|b l IH]; intros v fuel Hf [L P] Hfuel;
    destruct fuel as [|fuel]; cbn in Hfuel; try lia; cbn [for_in_list_from];
    rewrite (proj2 (Z.eqb_neq v flag)) by set_solver;
    unfold mbind, M_bind; rewrite (get_next_run _ _ _ (link_next _ _ _ L)).
  - destruct fuel; [lia|]. cbn. by rewrite Z.eqb_refl.
  - rewrite (IH b fuel); [done|set_solver|exact P|lia].
Qed.

(** ** Queues *)

Lemma wp_on_store {A} (m : M lstore A) (Q : A -> qstate -> Prop) s :
  wp (on_store m) Q s <-> wp m (fun a h => Q a (mkQstate h (q_queue s))) (q_store s).
Proof. unfold wp, on_store. by destruct (m (q_store s)) as [[a h]| | |]. Qed.

Lemma ring_singleton h x : x <> NULL -> ring (<[x := mkListNode x x]> h) x [].
Proof.
  intros Hx. split; [apply NoDup_singleton|]. split; [set_solver|]. split; [|done].
  cbn. unfold link, nx, pv. by rewrite lookup_insert_eq.
Qed.

(** Steps through queue code up to the next access to the nodes. *)
Ltac wq :=
  unfold set_queue;
  repeat first [wp_prim | progress cbn [q_queue q_sz q_begin q_end q_store]].

Lemma queue_push_wp item l s :
  queue_rep s l -> item <> NULL -> item ∉ l -> Z.of_nat (length l) + 1 < 2 ^ 31 ->
  wp (queue_push item) (fun _ s' => queue_rep s' (l ++ [item])) s.
Proof.
  intros [Hsz Hrep] Hi Hnin Hlen. unfold queue_push. wp_prim. apply wp_on_store.
  destruct l as [|x l]; cbn in Hsz.
  - apply wp_init_list_node; [done|]. wq. cbn. rewrite Hsz. cbn.
    wq. split; cbn; [done|].
    split_and!; [done|done|by apply ring_singleton].
  - destruct Hrep as (Hb & He & R).
    pose proof (insert_tail_ring_wp x l _ item (q_store s) R Hi Hnin He) as Hins.
    unfold _insert_into_list in Hins. apply wp_bind in Hins.
    eapply wp_mono; [exact Hins|]. cbn beta. intros [] h1 Hm. wq. cbn.
    rewrite (proj2 (Z.eqb_neq _ _)) by lia. wq. apply wp_on_store.
    eapply wp_mono; [exact Hm|]. cbn. intros _ h2 [R2 _]. wq. 
    rewrite Hsz. split; cbn.
    + rewrite length_app. cbn. cbn in Hlen. fits. lia.
    + split_and!; [done|by rewrite app_comm_cons, last_snoc|done].
Qed.

Lemma queue_pop_wp x l s :
  queue_rep s (x :: l) -> Z.of_nat (length (x :: l)) < 2 ^ 31 ->
  wp queue_pop (fun _ s' => queue_rep s' l) s.
Proof.
  intros [Hsz (Hb & He & R)] Hlen. unfold queue_pop. wq. 
  cbn in Hsz, Hlen. rewrite (proj2 (Z.eqb_neq _ _)) by lia. wq. 
  destruct l as [|y l].
  - rewrite Hsz. cbn. wq. split; cbn; [done|done].
  - rewrite (proj2 (Z.eqb_neq _ _)) by (cbn in Hsz; lia). wq. apply wp_on_store.
    pose proof R as (_ & _ & L & _). rewrite Hb.
    eapply wp_get_next; [by eapply link_next, L|].
    wq. apply wp_on_store. cbn.
    eapply wp_mono; [by apply detach_self_wp|]. cbn. intros r h' (_ & _ & R' & _).
    wq. split; cbn in *.
    + rewrite Hsz. fits. lia.
    + split_and!; [done|done|done].
Qed.

(** ** The queue against its specification *)

Inductive qop : Type :=
| Push (item : Z)
| Pop.

(** The specification: a sequence; [None] is a pop from the empty queue. *)
Definition qspec (o : qop) (l : list Z) : option (list Z) :=
  match o with
  | Push item => Some (l ++ [item])
  | Pop => match l with [] => None | _ :: l' => Some l' end
  end.

Definition qstep (o : qop) : M qstate unit :=
  match o with Push item => queue_push item | Pop => queue_pop end.

Fixpoint qspecs (os : list qop) (l : list Z) : option (list Z) :=
  match os with [] => Some l | o :: os' => l' ← qspec o l; qspecs os' l' end.

(** What the callers respect: a pushed node is not NULL and not queued already,
    and the queue stays shorter than the range of its [int] counter. *)
Fixpoint qclient (os : list qop) (l : list Z) : Prop :=
  match os with
  | [] => True
  | o :: os' =>
      match o with
      | Push item => item <> NULL /\ (item ∉ l) /\ Z.of_nat (length l) + 1 < 2 ^ 31
      | Pop => True
      end /\
      match qspec o l with Some l' => qclient os' l' | None => True end
  end.

Lemma qstep_refines o os s l :
  queue_rep s l -> Z.of_nat (length l) < 2 ^ 31 -> qclient (o :: os) l ->
  match qspec o l with
  | Some l' => exists s', qstep o s = Ret (tt, s') /\ queue_rep s' l' /\
                          Z.of_nat (length l') < 2 ^ 31
  | None => qstep o s = Panic
  end.
Proof.
  intros Hrep Hlen [Ho _]. destruct o as [item|]; cbn.
  - destruct Ho as (H1 & H2 & H3).
    destruct (wp_run _ _ _ (queue_push_wp item l s Hrep H1 H2 H3)) as ([] & s' & Hr & Hq).
    exists s'. split_and!; [done|done|]. rewrite length_app. cbn. lia.
  - destruct l as [|x l].
    + destruct Hrep as [Hsz _]. unfold queue_pop, mbind, M_bind, gets. cbn in Hsz.
      by rewrite Hsz.
    + destruct (wp_run _ _ _ (queue_pop_wp x l s Hrep Hlen)) as ([] & s' & Hr & Hq).
      exists s'. split_and!; [done|done|]. cbn in Hlen. lia.
Qed.

(** ** Properties *)

(** [_merge_list] joins two disjoint circular lists into one: the second
    list, started at [node2], comes right after [node1]; no other node of the
    store changes. *)
Theorem merge_list_concat n1 l1 n2 l2 h :
  ring h n1 l1 -> ring h n2 l2 -> (n1 :: l1) ## (n2 :: l2) ->
  exists h', _merge_list n1 n2 h = Ret (n1, h') /\ ring h' n1 (n2 :: l2 ++ l1) /\
             same_outside (n1 :: l1 ++ n2 :: l2) h h'.
Proof.
  intros R1 R2 Hd. destruct (wp_run _ _ _ (merge_ring_wp _ _ _ _ _ R1 R2 Hd))
    as (r & h' & Hr & -> & HR & Hs). eauto.
Qed.

(** [_detach_from_list] takes one node out of a circular list: the rest
    stays linked in the same order, the node becomes a list of its own, and the
    result is the node before it. *)
Theorem detach_list_removes x l1 n l2 h :
  ring h x (l1 ++ n :: l2) ->
  exists r h', _detach_from_list n h = Ret (r, h') /\ Some r = last (x :: l1) /\
    ring h' x (l1 ++ l2) /\ ring h' n [] /\ same_outside (x :: l1 ++ n :: l2) h h'.
Proof.
  intros R. destruct (wp_run _ _ _ (detach_ring_wp _ _ _ _ _ R)) as (r & h' & Hr & H). eauto.
Qed.

(** [_for_in_list] visits every node once, in list order, and ends with the
    head of the list itself. *)
Theorem for_in_list_visits h x l fuel :
  ring h x l -> (length l < fuel)%nat -> _for_in_list fuel x h = Ret (l ++ [x], h).
Proof.
  intros (ND & _ & P) Hfuel. unfold _for_in_list, mbind, M_bind.
  destruct (snoc_first l x) as (n & r & E). rewrite E in P. destruct P as [L P].
  rewrite (get_next_run _ _ _ (link_next _ _ _ L)).
  destruct l as [|b l]; cbn in E; simplify_eq/=.
  - destruct fuel; [lia|]. cbn. by rewrite Z.eqb_refl.
  - apply NoDup_cons in ND as [ND _]. apply for_in_list_from_spec; [done|exact P|lia].
Qed.

(** the [Queue] refines a sequence: any run of pushes and pops behaves like
    the same run on a list with insertion at the end and removal at the front;
    popping the empty queue panics. *)
Theorem queue_refines os s l :
  queue_rep s l -> Z.of_nat (length l) < 2 ^ 31 -> qclient os l ->
  match qspecs os l with
  | Some l' => exists s', for_each os qstep s = Ret (tt, s') /\ queue_rep s' l'
  | None => for_each os qstep s = Panic
  end.
Proof.
  revert s l. induction os as [|o os IH]; intros s l Hrep Hlen Hc; cbn; [eauto|].
  pose proof (qstep_refines o os s l Hrep Hlen Hc) as Hstep. destruct Hc as [_ Hc].
  destruct (qspec o l) as [l'|]; cbn.
  - destruct Hstep as (s' & Hr & Hrep' & Hlen'). unfold mbind, M_bind.
    rewrite Hr. apply (IH s' l' Hrep' Hlen' Hc).
  - unfold mbind, M_bind. by rewrite Hstep.
Qed.

(** ** Concrete lists *)

(** Two lists, 1 -> 2 -> 1 and 3 -> 4 -> 3. *)
Definition demo_store : lstore :=
  <[1 := mkListNode 2 2]> (<[2 := mkListNode 1 1]> (<[3 := mkListNode 4 4]> {[ 4 := mkListNode 3 3 ]})).

Lemma demo_ring12 : ring demo_store 1 [2].
Proof. split_and!; [by apply (bool_decide_unpack _)|by apply (bool_decide_unpack _)|repeat split]. Qed.

Lemma demo_ring34 : ring demo_store 3 [4].
Proof. split_and!; [by apply (bool_decide_unpack _)|by apply (bool_decide_unpack _)|repeat split]. Qed.

Lemma merge_list_concat_witness :
  exists h', _merge_list 1 3 demo_store = Ret (1, h') /\ ring h' 1 [3; 4; 2].
Proof.
  destruct (merge_list_concat 1 [2] 3 [4] demo_store demo_ring12 demo_ring34) as (h' & H1 & H2 & _).
  - intros x. rewrite !elem_of_cons, elem_of_nil. lia.
  - exists h'. split; [exact H1|exact H2].
Defined.

Lemma detach_list_removes_witness :
  exists h', _detach_from_list 2 demo_store = Ret (1, h') /\ ring h' 1 [] /\ ring h' 2 [].
Proof.
  destruct (detach_list_removes 1 [] 2 [] demo_store demo_ring12) as (r & h' & H1 & H2 & H3 & H4 & _).
  exists h'. injection H2 as ->. split; [exact H1|]. split; [exact H3|exact H4].
Defined.

Lemma for_in_list_visits_witness : _for_in_list 5 1 demo_store = Ret ([2; 1], demo_store).
Proof. apply (for_in_list_visits demo_store 1 [2] 5 demo_ring12). cbn. lia. Defined.

Lemma queue_refines_witness :
  exists s', for_each [Push 7; Push 8; Pop] qstep (mkQstate ∅ (mkQueue NULL NULL 0)) = Ret (tt, s') /\ queue_rep s' [8].
Proof.
  apply (queue_refines [Push 7; Push 8; Pop] (mkQstate ∅ (mkQueue NULL NULL 0)) []).
  - split; [reflexivity|split; reflexivity].
  - cbn. lia.
  - cbn. rewrite !elem_of_cons, !elem_of_nil. unfold NULL. split_and!; try lia.
Defined.
