(* ===== verification/Sh.v ===== *)
(** * The command parser of the shell: [user/sh/main.c]

    One definition per function of the parser.  [buf] are the bytes of the line
    with their NUL, and a [char *] into the line is a position in it.  The state
    has [*ps] and the static counter of [malloc1].  [exit(1)], in [PANIC] and in
    [malloc1], is the outcome [Panic].  Commands are trees; a node that is filled
    in after others were built around it ([cmd->argv] in [parseexec]) is found
    again under the redirections around it. *)

From Stdlib Require Import ZArith Lia.
From stdpp Require Import base tactics numbers gmap list.
From S2P Require Import Prelude.

Local Open Scope Z_scope.

Definition MAXARGS : Z := 10.
Definition MAXN : Z := 10000.

(** [struct cmd] and its kinds; [argv] and [eargv] are pairs, [file] and [efile]
    too. *)
Inductive cmd : Type :=
  | EXEC (argv : list (nat * nat))
  | REDIR (c : cmd) (file : nat * nat) (mode fd : Z)
  | PIPE (left right : cmd)
  | LIST (left right : cmd)
  | BACK (c : cmd).

Record sh : Type := mkSh {
  sh_ps : nat;
  sh_i : Z }.

Abbreviation SM := (M sh).

Definition set_ps (p : nat) : SM unit := modify (fun s => mkSh p (sh_i s)).
Definition malloc1 (sz : Z) : SM unit :=
  modify (fun s => mkSh (sh_ps s) (sh_i s + sz));;
  i ← gets sh_i;
  if MAXN <? i then panic else mret tt.

(** The constructors, with [sizeof] of each structure. *)
Definition execcmd : SM cmd := malloc1 168;; mret (EXEC []).
Definition redircmd (subcmd : cmd) (file : nat * nat) (mode fd : Z) : SM cmd := malloc1 40;; mret (REDIR subcmd file mode fd).
Definition pipecmd (left right : cmd) : SM cmd := malloc1 24;; mret (PIPE left right).
Definition listcmd (left right : cmd) : SM cmd := malloc1 24;; mret (LIST left right).
Definition backcmd (subcmd : cmd) : SM cmd := malloc1 16;; mret (BACK subcmd).

(** " \t\r\n\v" and "<|>&;()". *)
Definition whitespace : list Z := [32; 9; 13; 10; 11].
Definition symbols : list Z := [60; 124; 62; 38; 59; 40; 41].
(** [strchr] also finds the final NUL. *)
Definition strchr (l : list Z) (c : Z) : bool := (c =? 0) || existsb (Z.eqb c) l.

(** [O_RDONLY] and [O_WRONLY | O_CREAT]. *)
Definition SH_RDONLY : Z := 0.
Definition SH_WRONLY_CREAT : Z := Z.lor 1 64.

(** [strlen]. *)
Fixpoint line_len (l : list Z) : nat := match l with [] => 0 | c :: l' => if c =? 0 then 0 else S (line_len l') end.

Section parser.
Context (buf : list Z).

(** [s + strlen(s)]. *)
Definition es : nat := line_len buf.
Definition rd (s : nat) : SM Z := some_or_ub (buf !! s).

(** [while (s < es && f( *s)) s++]; [n] bounds the turns. *)
Fixpoint skip (f : Z -> bool) (n s : nat) : SM nat :=
  if negb (s <? es)%nat then mret s else
  c ← rd s;
  if negb (f c) then mret s else
  match n with O => block | S n' => skip f n' (S s) end.
Definition skip_white (s : nat) : SM nat := skip (strchr whitespace) es s.

(** The result, [*q] and [*eq]. *)
Definition gettoken : SM (Z * nat * nat) :=
  s ← gets sh_ps;
  s ← skip_white s;
  let q := s in
  c ← rd s;
  '(ret, s) ← (if c =? 0 then mret (c, s)
               else if bool_decide (c ∈ [124; 40; 41; 59; 38; 60]) then mret (c, S s)
               else if c =? 62 then d ← rd (S s); if d =? 62 then mret (43, S (S s)) else mret (c, S s)
               else s ← skip (fun c => negb (strchr whitespace c) && negb (strchr symbols c)) es s; mret (97, s));
  let eq := s in
  s ← skip_white s;
  set_ps s;;
  mret (ret, q, eq).

Definition peek (toks : list Z) : SM bool :=
  s ← gets sh_ps;
  s ← skip_white s;
  set_ps s;;
  c ← rd s;
  mret (negb (c =? 0) && strchr toks c).

(** The loop of [parseredirs]; [n] bounds the turns. *)
Fixpoint parseredirs (n : nat) (c : cmd) : SM cmd :=
  b ← peek [60; 62];
  if negb b then mret c else
  match n with
  | O => block
  | S n' =>
      '(tok, _, _) ← gettoken;
      '(r, q, eq) ← gettoken;
      if negb (r =? 97) then panic else
      c ← (if tok =? 60 then redircmd c (q, eq) SH_RDONLY 0
           else if tok =? 62 then redircmd c (q, eq) SH_WRONLY_CREAT 1
           else if tok =? 43 then redircmd c (q, eq) SH_WRONLY_CREAT 1
           else mret c);
      parseredirs n' c
  end.

(** [cmd->argv = argv] for the [execcmd] in [ret]. *)
Fixpoint with_argv (argv : list (nat * nat)) (ret : cmd) : cmd :=
  match ret with
  | EXEC _ => EXEC argv
  | REDIR c file mode fd => REDIR (with_argv argv c) file mode fd
  | c => c
  end.

(** The loop of [parseexec] with [argv] so far. *)
Fixpoint parseargs (n : nat) (argv : list (nat * nat)) (ret : cmd) : SM cmd :=
  b ← peek [124; 41; 38; 59];
  if (b : bool) then mret ret else
  match n with
  | O => block
  | S n' =>
      '(tok, q, eq) ← gettoken;
      if tok =? 0 then mret ret else
      if negb (tok =? 97) then panic else
      let argv := argv ++ [(q, eq)] in
      let ret := with_argv argv ret in
      if MAXARGS <=? Z.of_nat (length argv) then panic else
      ret ← parseredirs es ret;
      parseargs n' argv ret
  end.

(** [while (peek(ps, es, "&"))]. *)
Fixpoint parseamps (n : nat) (c : cmd) : SM cmd :=
  b ← peek [38];
  if negb b then mret c else
  match n with
  | O => block
  | S n' => gettoken;; c ← backcmd c; parseamps n' c
  end.

Fixpoint parseline (n : nat) : SM cmd :=
  match n with
  | O => block
  | S n' =>
      c ← parsepipe n';
      c ← parseamps es c;
      b ← peek [59];
      if (b : bool) then gettoken;; r ← parseline n'; listcmd c r else mret c
  end
with parsepipe (n : nat) : SM cmd :=
  match n with
  | O => block
  | S n' =>
      c ← parseexec n';
      b ← peek [124];
      if (b : bool) then gettoken;; r ← parsepipe n'; pipecmd c r else mret c
  end
with parseexec (n : nat) : SM cmd :=
  match n with
  | O => block
  | S n' =>
      b ← peek [40];
      if (b : bool) then parseblock n' else
      ret ← execcmd;
      ret ← parseredirs es ret;
      parseargs (S es) [] ret
  end
with parseblock (n : nat) : SM cmd :=
  match n with
  | O => block
  | S n' =>
      b ← peek [40];
      if negb b then panic else
      gettoken;;
      c ← parseline n';
      b ← peek [41];
      if negb b then panic else
      gettoken;;
      parseredirs es c
  end.

(** [parsecmd] up to [nulterminate]; the recursion of the parser has a token less
    after at most four calls. *)
Definition parse_depth : nat := 4 * es + 4.
Definition parse_whole : SM cmd :=
  c ← parseline parse_depth;
  peek [];;
  s ← gets sh_ps;
  if negb (s =? es)%nat then panic else mret c.
End parser.

(** [nulterminate]: the line with a NUL after every string of the command. *)
Fixpoint nulterminate (c : cmd) (buf : list Z) : list Z :=
  match c with
  | EXEC argv => foldl (fun b w => <[w.2 := 0]> b) buf argv
  | REDIR c file _ _ => <[file.2 := 0]> (nulterminate c buf)
  | PIPE l r => nulterminate r (nulterminate l buf)
  | LIST l r => nulterminate r (nulterminate l buf)
  | BACK c => nulterminate c buf
  end.

Definition parsecmd (buf : list Z) : M sh (cmd * list Z) := c ← parse_whole buf; mret (c, nulterminate c buf).
