(* ===== verification/ShProofs.v ===== *)
(** * Tokens of a command line *)

From Stdlib Require Import ZArith Lia.
From stdpp Require Import base tactics numbers gmap list.
From S2P Require Import Prelude Sh.

Local Open Scope Z_scope.

(** ** Characters *)

Definition is_white (c : Z) : bool := strchr whitespace c.
Definition is_word (c : Z) : bool := negb (strchr whitespace c) && negb (strchr symbols c).
Definition one_char : list Z := [124; 40; 41; 59; 38; 60].

Lemma strchr_in l c : c <> 0 -> strchr l c = bool_decide (c ∈ l).
Proof.
  intros Hc. unfold strchr. rewrite (proj2 (Z.eqb_neq _ _) Hc). cbn [orb]. apply eq_true_iff_eq. rewrite existsb_exists, bool_decide_eq_true, list_elem_of_In.
  split; [intros (x & Hx & ->%Z.eqb_eq); done|intros H; exists c; by rewrite Z.eqb_refl].
Qed.

(** ** The line as tokens *)

Inductive token : Type :=
  | TSym (c : Z)
  | TGt
  | TGtGt
  | TWord (q eq : nat).

(** The first character, and what [gettoken] returns. *)
Definition tok_ret (t : token) : Z := match t with TSym c => c | TGt => 62 | TGtGt => 43 | TWord _ _ => 97 end.
(** [peek] finds the token. *)
Definition tok_in (toks : list Z) (t : token) : bool := match t with TSym c => bool_decide (c ∈ toks) | TGt | TGtGt => bool_decide (62 ∈ toks) | TWord _ _ => false end.
Definition head_in (toks : list Z) (ts : list token) : bool := match ts with [] => false | t :: _ => tok_in toks t end.

Section lex.
Context (buf : list Z) (Hnul : 0 ∈ buf).
Abbreviation es := (es buf).

Lemma es_nul : buf !! es = Some 0.
Proof.
  unfold Sh.es. clear -Hnul. induction buf as [|c l IH]; [by apply not_elem_of_nil in Hnul|]. cbn. destruct (Z.eqb_spec c 0) as [->|Hc]; [done|].
  apply elem_of_cons in Hnul as [|H]; [done|]. by apply IH.
Qed.
Lemma es_before i : (i < es)%nat -> exists c, buf !! i = Some c /\ c <> 0.
Proof.
  unfold Sh.es. clear. revert i. induction buf as [|c l IH]; intros i Hi; cbn in Hi; [lia|]. destruct (Z.eqb_spec c 0) as [->|Hc]; [lia|].
  destruct i as [|i]; [by exists c|]. apply IH. lia.
Qed.

(** The characters from [p] up to [q] satisfy [f]. *)
Definition run (f : Z -> bool) (p q : nat) : Prop := (p <= q <= es)%nat /\ forall i c, (p <= i < q)%nat -> buf !! i = Some c -> f c = true.
(** The run ends at [q]. *)
Definition ends (f : Z -> bool) (q : nat) : Prop := q = es \/ exists c, buf !! q = Some c /\ f c = false.

Inductive lexed : nat -> list token -> Prop :=
  | lexed_end p : run is_white p es -> lexed p []
  | lexed_sym p q c ts : run is_white p q -> (q < es)%nat -> buf !! q = Some c -> c ∈ one_char -> lexed (S q) ts -> lexed p (TSym c :: ts)
  | lexed_gt p q ts : run is_white p q -> (q < es)%nat -> buf !! q = Some 62 -> buf !! S q <> Some 62 -> lexed (S q) ts -> lexed p (TGt :: ts)
  | lexed_gtgt p q ts : run is_white p q -> (q < es)%nat -> buf !! q = Some 62 -> buf !! S q = Some 62 -> lexed (S (S q)) ts -> lexed p (TGtGt :: ts)
  | lexed_word p q eq ts : run is_white p q -> (q < eq)%nat -> run is_word q eq -> ends is_word eq -> lexed eq ts -> lexed p (TWord q eq :: ts).

Lemma skip_run f n s q st : run f s q -> ends f q -> (q - s <= n)%nat -> skip buf f n s st = Ret (q, st).
Proof.
  revert s. induction n as [|n IH]; intros s [Hr Hf] He Hn; cbn [skip].
  all: destruct (Nat.ltb_spec s es) as [Hlt|]; cbn [negb]; [|replace q with s by lia; done].
  all: destruct (es_before s Hlt) as (c & Hc & _); unfold rd; rewrite Hc; rewrite (bind_ret _ _ st c st) by done.
  all: destruct (decide (s = q)) as [->|Hne]; [destruct He as [|(d & Hd & Ef)]; [lia|]; rewrite Hd in Hc; injection Hc as ->; by rewrite Ef|].
  - lia.
  - rewrite (Hf s c) by (done || lia). cbn [negb]. apply IH; [|done|lia]. split; [lia|]. intros i d Hi. apply Hf. lia.
Qed.
Lemma skip_white_run s q st : run is_white s q -> ends is_white q -> skip_white buf s st = Ret (q, st).
Proof. intros H He. apply skip_run; [done|done|]. destruct H. lia. Qed.

(** Any run of characters can be skipped. *)
Lemma run_exists f p : (p <= es)%nat -> exists q, run f p q /\ ends f q.
Proof.
  intros Hp. remember (es - p)%nat as n eqn:En. revert p Hp En. induction n as [|n IH]; intros p Hp En.
  - exists p. split; [split; [lia|intros; lia]|left; lia].
  - destruct (es_before p ltac:(lia)) as (c & Hc & _). destruct (f c) eqn:Ef.
    + destruct (IH (S p)) as (q & [Hr Hf] & He); [lia|lia|]. exists q. split; [|done]. split; [lia|]. intros i d Hi Hd.
      destruct (decide (i = p)) as [->|]; [congruence|]. apply (Hf i); [lia|done].
    + exists p. split; [split; [lia|intros; lia]|]. right. by exists c.
Qed.

Lemma run_refl f p : (p <= es)%nat -> run f p p.
Proof. intros H. split; [lia|]. intros; lia. Qed.

(** The token [t] is the text from [q] up to [eq]. *)
Definition tok_at (q : nat) (t : token) (eq : nat) : Prop :=
  (q < eq <= es)%nat /\
  match t with
  | TSym c => buf !! q = Some c /\ c ∈ one_char /\ eq = S q
  | TGt => buf !! q = Some 62 /\ buf !! S q <> Some 62 /\ eq = S q
  | TGtGt => buf !! q = Some 62 /\ buf !! S q = Some 62 /\ eq = S (S q)
  | TWord a b => a = q /\ b = eq /\ run is_word q eq /\ ends is_word eq
  end.

Lemma one_char_white c : c ∈ one_char -> is_white c = false /\ c <> 0 /\ c <> 62.
Proof. unfold one_char. intros H. repeat (apply elem_of_cons in H as [->|H]; [done|]). by apply not_elem_of_nil in H. Qed.
Lemma word_white c : is_word c = true -> is_white c = false /\ c <> 0 /\ (c ∉ symbols).
Proof.
  unfold is_word, is_white. intros [H1 H2]%andb_prop. split; [by destruct (strchr whitespace c)|]. assert (c <> 0) as Hc by (intros ->; done). split; [done|].
  intros H. rewrite strchr_in, bool_decide_true in H2 by done. done.
Qed.

(** The first token is found after the white space. *)
Lemma lexed_start p ts : lexed p ts -> exists q, run is_white p q /\ ends is_white q /\ lexed q ts /\
  match ts with [] => q = es | t :: ts' => exists eq, tok_at q t eq /\ lexed eq ts' end.
Proof.
  assert (forall q c, buf !! q = Some c -> is_white c = false -> ends is_white q) as Hends by (intros q c Hc H; right; by exists c).
  assert (forall q, (q < es)%nat -> run is_white q q) as Hrefl by (intros q H; apply run_refl; lia).
  intros [p' H|p' q c ts' H1 H2 H3 H4 H5|p' q ts' H1 H2 H3 H4 H5|p' q ts' H1 H2 H3 H4 H5|p' q eq ts' H1 H2 H3 H4 H5].
  - exists es. split; [done|]. split; [by left|]. split; [|done]. constructor. by apply run_refl.
  - exists q. split; [done|]. split; [eapply Hends; [done|]; by apply one_char_white|]. split; [eapply lexed_sym; eauto|]. exists (S q). split; [split; [lia|done]|done].
  - exists q. split; [done|]. split; [by eapply Hends|]. split; [eapply lexed_gt; eauto|]. exists (S q). split; [split; [lia|done]|done].
  - exists q. split; [done|]. split; [by eapply Hends|]. split; [eapply lexed_gtgt; eauto|]. exists (S (S q)). split; [split; [|done]|done].
    assert (S q <> es) as Hne; [|lia]. intros E. rewrite E, es_nul in H4. done.
  - assert (q < es)%nat as Hq by (destruct H3; lia). destruct (es_before q Hq) as (c & Hc & _). exists q. split; [done|].
    split; [eapply Hends; [done|]; apply word_white, (proj2 H3 q); [lia|done]|]. split; [eapply lexed_word; eauto|]. exists eq. split; [split; [destruct H3; lia|done]|done].
Qed.

(** Every line has tokens. *)
Lemma lex_exists p : (p <= es)%nat -> exists ts, lexed p ts.
Proof.
  intros Hp. remember (es - p)%nat as n eqn:En. revert p Hp En. induction n as [n IH] using lt_wf_ind; intros p Hp En.
  destruct (run_exists is_white p Hp) as (q & Hw & He). destruct (decide (q = es)) as [->|Hne]; [exists []; by constructor|].
  assert (q < es)%nat as Hq by (destruct Hw; lia). destruct (es_before q Hq) as (c & Hc & Hc0). destruct Hw as [Hpq Hwf] eqn:EHw.
  destruct (decide (c ∈ one_char)) as [H1|H1].
  { destruct (IH (es - S q)%nat ltac:(lia) (S q)) as [ts Hts]; [lia|done|]. exists (TSym c :: ts). by eapply lexed_sym. }
  destruct (decide (c = 62)) as [->|H2].
  { destruct (decide (buf !! S q = Some 62)) as [H3|H3].
    - assert (S q < es)%nat as Hq1. { destruct (decide (S q = es)) as [E|]; [|lia]. rewrite E, es_nul in H3. done. }
      destruct (IH (es - S (S q))%nat ltac:(lia) (S (S q))) as [ts Hts]; [lia|done|]. exists (TGtGt :: ts). by eapply lexed_gtgt.
    - destruct (IH (es - S q)%nat ltac:(lia) (S q)) as [ts Hts]; [lia|done|]. exists (TGt :: ts). by eapply lexed_gt. }
  assert (is_word c = true) as Hword.
  { destruct He as [|(d & Hd & Ew)]; [done|]. rewrite Hc in Hd. injection Hd as <-. unfold is_word. unfold is_white in Ew. rewrite Ew. cbn [negb andb].
    rewrite strchr_in by done. rewrite bool_decide_false; [done|]. unfold symbols, one_char in *. intros H. apply H1. set_solver. }
  destruct (run_exists is_word q ltac:(lia)) as (eq & Hr & Hends). assert (q < eq)%nat as Hlt.
  { destruct (decide (eq = q)) as [->|]; [|destruct Hr; lia]. destruct Hends as [|(d & Hd & Ed)]; [lia|congruence]. }
  destruct (IH (es - eq)%nat ltac:(lia) eq) as [ts Hts]; [destruct Hr; lia|done|]. exists (TWord q eq :: ts). by eapply lexed_word.
Qed.
Lemma lexed_length p ts : lexed p ts -> (p + length ts <= es)%nat.
Proof. intros H. induction H as [p H|p q c ts [H _] _ _ _ _ IH|p q ts [H _] _ _ _ _ IH|p q ts [H _] _ _ _ _ IH|p q eq ts [H _] H2 _ _ _ IH]; cbn [length]; [destruct H|..]; lia. Qed.

(** ** [peek] and [gettoken] *)

Lemma peek_run toks p i ts : toks ⊆ symbols -> lexed p ts ->
  exists p', peek buf toks (mkSh p i) = Ret (head_in toks ts, mkSh p' i) /\ lexed p' ts /\ (p' = es <-> ts = []).
Proof.
  intros Htoks (q & Hw & He & Hl & Ht)%lexed_start. exists q. split; [|split; [done|]].
  - unfold peek. rewrite (bind_ret _ _ _ p (mkSh p i)), (bind_ret _ _ _ _ _ (skip_white_run p q (mkSh p i) Hw He)) by done.
    unfold set_ps, rd. rewrite (bind_ret (modify _) _ _ tt (mkSh q i)) by done. destruct ts as [|t ts].
    + rewrite Ht, es_nul. done.
    + destruct Ht as (eq & [Hq Ht] & _). destruct t as [c| | |a b].
      * destruct Ht as (Hc & H1 & _). apply one_char_white in H1 as (_ & H0 & _). rewrite Hc. rewrite (bind_ret _ _ _ c (mkSh q i)) by done.
        rewrite (proj2 (Z.eqb_neq c 0)), strchr_in by done. done.
      * destruct Ht as (Hc & _). rewrite Hc. rewrite (bind_ret _ _ _ 62 (mkSh q i)) by done. rewrite strchr_in by done. done.
      * destruct Ht as (Hc & _). rewrite Hc. rewrite (bind_ret _ _ _ 62 (mkSh q i)) by done. rewrite strchr_in by done. done.
      * destruct Ht as (_ & _ & [_ Hr] & _). destruct (es_before q ltac:(lia)) as (c & Hc & _). rewrite Hc. rewrite (bind_ret _ _ _ c (mkSh q i)) by done.
        destruct (word_white c) as (_ & H0 & Hs); [apply (Hr q); [lia|done]|]. rewrite (proj2 (Z.eqb_neq c 0)), strchr_in by done. cbn [negb andb head_in tok_in].
        rewrite bool_decide_false; [done|]. intros H. by apply Hs, Htoks.
  - destruct ts as [|t ts]; [done|]. destruct Ht as (eq & [Hq _] & _). split; [lia|done].
Qed.

Lemma gettoken_end p i : lexed p [] -> exists r p', gettoken buf (mkSh p i) = Ret ((0, r.1, r.2), mkSh p' i) /\ lexed p' [].
Proof.
  intros (q & Hw & He & Hl & ->)%lexed_start. exists (es, es), es. split; [|done]. unfold gettoken.
  rewrite (bind_ret _ _ _ p (mkSh p i)), (bind_ret _ _ _ _ _ (skip_white_run p es (mkSh p i) Hw He)) by done. unfold rd. rewrite es_nul.
  rewrite (bind_ret _ _ _ 0 (mkSh p i)) by done. cbn [Z.eqb]. rewrite (bind_ret _ _ _ (0, es) (mkSh p i)) by done. cbn beta iota.
  rewrite (bind_ret _ _ _ _ _ (skip_white_run es es (mkSh p i) (run_refl _ _ (Nat.le_refl _)) He)). done.
Qed.

(** After the token, the white space behind it. *)
Lemma gettoken_run p i t ts : lexed p (t :: ts) ->
  exists q eq p', gettoken buf (mkSh p i) = Ret ((tok_ret t, q, eq), mkSh p' i) /\ lexed p' ts /\ match t with TWord a b => q = a /\ eq = b | _ => True end.
Proof.
  intros (q & Hw & He & _ & eq & [Hq Ht] & Hl)%lexed_start. destruct (lexed_start _ _ Hl) as (p' & Hw' & He' & Hl' & _).
  exists q, eq, p'. split; [|split; [done|by destruct t; [..|destruct Ht as (-> & -> & _)]]]. unfold gettoken.
  rewrite (bind_ret _ _ _ p (mkSh p i)), (bind_ret _ _ _ _ _ (skip_white_run p q (mkSh p i) Hw He)) by done.
  destruct (es_before q ltac:(lia)) as (c & Hc & H0). unfold rd. rewrite Hc. rewrite (bind_ret _ _ _ c (mkSh p i)) by done. rewrite (proj2 (Z.eqb_neq c 0)) by done.
  assert (forall m, m (mkSh p i) = Ret ((tok_ret t, eq), mkSh p i) -> (('(ret, s) ← m; s' ← skip_white buf s; set_ps s';; mret (ret, q, s)) : SM _) (mkSh p i) = Ret ((tok_ret t, q, eq), mkSh p' i)) as Hend.
  { intros m Hm. rewrite (bind_ret _ _ _ _ _ Hm). rewrite (bind_ret _ _ _ _ _ (skip_white_run eq p' (mkSh p i) Hw' He')). done. }
  apply Hend. destruct t as [d| | |a b].
  - destruct Ht as (Hd & H1 & ->). rewrite Hc in Hd. injection Hd as ->. by rewrite bool_decide_true.
  - destruct Ht as (Hd & H1 & ->). rewrite Hc in Hd. injection Hd as ->. cbn [tok_ret]. rewrite bool_decide_false by (unfold one_char; set_solver). cbn [Z.eqb Pos.eqb].
    assert (exists d, buf !! S q = Some d) as [d Hd]. { destruct (decide (S q = es)) as [->|]; [exists 0; apply es_nul|]. destruct (es_before (S q) ltac:(lia)) as (d & Hd & _). by exists d. }
    rewrite Hd. rewrite (bind_ret _ _ _ d (mkSh p i)) by done. rewrite (proj2 (Z.eqb_neq d 62)) by congruence. done.
  - destruct Ht as (Hd & H1 & ->). rewrite Hc in Hd. injection Hd as ->. rewrite bool_decide_false by (unfold one_char; set_solver). cbn [Z.eqb Pos.eqb].
    rewrite H1. done.
  - destruct Ht as (-> & -> & Hr & Hends). destruct (word_white c) as (_ & _ & Hs); [apply (proj2 Hr q); [lia|done]|].
    rewrite bool_decide_false by (unfold symbols in Hs; set_solver). rewrite (proj2 (Z.eqb_neq c 62)) by (unfold symbols in Hs; set_solver).
    rewrite (bind_ret _ _ _ eq (mkSh p i)); [done|]. apply skip_run; [done|done|lia].
Qed.
End lex.
