(* ===== verification/ShGrammar.v ===== *)
(** * The grammar of commands, and the parser of the shell

    A syntax tree for the commands of the shell with the tokens it stands for;
    the parser accepts these token sequences, within the limits on arguments and
    memory, and no others. *)

From Stdlib Require Import ZArith Lia.
From stdpp Require Import base tactics numbers gmap list.
From S2P Require Import Prelude Sh ShProofs.

Local Open Scope Z_scope.

(** ** Syntax trees *)

Abbreviation text := (nat * nat)%type.
Inductive rkind : Type := RIn | ROut | RAppend.
Abbreviation redir := (rkind * text)%type.

Inductive line : Type :=
  | LEnd (p : pipe) (amps : nat)
  | LSeq (p : pipe) (amps : nat) (l : line)
with pipe : Type :=
  | POne (e : simple)
  | PMore (e : simple) (p : pipe)
with simple : Type :=
  | SWords (rs : list redir) (ws : list (text * list redir))
  | SBlock (l : line) (rs : list redir).

Scheme line_mut := Induction for line Sort Prop
  with pipe_mut := Induction for pipe Sort Prop
  with simple_mut := Induction for simple Sort Prop.
Combined Scheme tree_ind from line_mut, pipe_mut, simple_mut.

(** Their tokens. *)
Definition word_tok (w : text) : token := TWord w.1 w.2.
Definition redir_op (k : rkind) : token := match k with RIn => TSym 60 | ROut => TGt | RAppend => TGtGt end.
Definition redir_toks (rs : list redir) : list token := concat ((fun r => [redir_op r.1; word_tok r.2]) <$> rs).
Definition arg_toks (ws : list (text * list redir)) : list token := concat ((fun w => word_tok w.1 :: redir_toks w.2) <$> ws).
Fixpoint line_toks (l : line) : list token :=
  match l with
  | LEnd p k => pipe_toks p ++ replicate k (TSym 38)
  | LSeq p k l => pipe_toks p ++ replicate k (TSym 38) ++ TSym 59 :: line_toks l
  end
with pipe_toks (p : pipe) : list token :=
  match p with
  | POne e => simple_toks e
  | PMore e p => simple_toks e ++ TSym 124 :: pipe_toks p
  end
with simple_toks (e : simple) : list token :=
  match e with
  | SWords rs ws => redir_toks rs ++ arg_toks ws
  | SBlock l rs => TSym 40 :: line_toks l ++ TSym 41 :: redir_toks rs
  end.

(** The commands they stand for. *)
Definition redir_mode (k : rkind) : Z := match k with RIn => SH_RDONLY | _ => SH_WRONLY_CREAT end.
Definition redir_fd (k : rkind) : Z := match k with RIn => 0 | _ => 1 end.
Definition redir_cmd (c : cmd) (rs : list redir) : cmd := foldl (fun c r => REDIR c r.2 (redir_mode r.1) (redir_fd r.1)) c rs.
Fixpoint line_cmd (l : line) : cmd :=
  match l with
  | LEnd p k => Nat.iter k BACK (pipe_cmd p)
  | LSeq p k l => LIST (Nat.iter k BACK (pipe_cmd p)) (line_cmd l)
  end
with pipe_cmd (p : pipe) : cmd :=
  match p with
  | POne e => simple_cmd e
  | PMore e p => PIPE (simple_cmd e) (pipe_cmd p)
  end
with simple_cmd (e : simple) : cmd :=
  match e with
  | SWords rs ws => redir_cmd (EXEC (fst <$> ws)) (rs ++ concat (snd <$> ws))
  | SBlock l rs => redir_cmd (line_cmd l) rs
  end.

(** The memory they take, and the limit on arguments. *)
Definition redir_cost (rs : list redir) : Z := 40 * Z.of_nat (length rs).
Fixpoint line_cost (l : line) : Z :=
  match l with
  | LEnd p k => pipe_cost p + 16 * Z.of_nat k
  | LSeq p k l => pipe_cost p + 16 * Z.of_nat k + line_cost l + 24
  end
with pipe_cost (p : pipe) : Z :=
  match p with
  | POne e => simple_cost e
  | PMore e p => simple_cost e + pipe_cost p + 24
  end
with simple_cost (e : simple) : Z :=
  match e with
  | SWords rs ws => 168 + redir_cost (rs ++ concat (snd <$> ws))
  | SBlock l rs => line_cost l + redir_cost rs
  end.

Fixpoint line_args (l : line) : Prop :=
  match l with LEnd p _ => pipe_args p | LSeq p _ l => pipe_args p /\ line_args l end
with pipe_args (p : pipe) : Prop :=
  match p with POne e => simple_args e | PMore e p => simple_args e /\ pipe_args p end
with simple_args (e : simple) : Prop :=
  match e with SWords _ ws => Z.of_nat (length ws) < MAXARGS | SBlock l _ => line_args l end.

(** ** Rules for the parser *)

(** In a set of first characters. *)
Lemma head_in_other S1 S2 ts : head_in S1 ts = true -> (forall c, c ∈ S1 -> c ∉ S2) -> head_in S2 ts = false.
Proof.
  destruct ts as [|[c| | |q eq] ts]; cbn; [done| | | |done]; intros H%bool_decide_eq_true HS; apply bool_decide_eq_false_2; by apply HS.
Qed.

Section parser.
Context (buf : list Z) (Hnul : 0 ∈ buf) (P : Prop).
Abbreviation es := (es buf).
Abbreviation lexed := (lexed buf).
(** The parser is before the tokens [ts] and has used [i] bytes. *)
Definition before (ts : list token) (i : Z) (st : sh) : Prop := lexed (sh_ps st) ts /\ sh_i st = i /\ i <= MAXN.

Lemma wpp_peek toks ts i st (Q : bool -> sh -> Prop) :
  toks ⊆ symbols -> before ts i st -> (forall st', before ts i st' -> (sh_ps st' = es <-> ts = []) -> Q (head_in toks ts) st') -> wp_or_panic (peek buf toks) Q P st.
Proof.
  intros Ht (Hl & Hi & Hm) HQ. destruct st as [p i']. cbn in Hl, Hi. subst i'. destruct (peek_run buf Hnul toks p i ts Ht Hl) as (p' & Hr & Hl' & He).
  eapply wpp_run; [exact Hr|]. by apply HQ.
Qed.
Lemma wpp_gettoken t ts i st (Q : Z * nat * nat -> sh -> Prop) :
  before (t :: ts) i st -> (forall st' q eq, before ts i st' -> match t with TWord a b => q = a /\ eq = b | _ => True end -> Q (tok_ret t, q, eq) st') -> wp_or_panic (gettoken buf) Q P st.
Proof.
  intros (Hl & Hi & Hm) HQ. destruct st as [p i']. cbn in Hl, Hi. subst i'. destruct (gettoken_run buf Hnul p i t ts Hl) as (q & eq & p' & Hr & Hl' & Ht).
  eapply wpp_run; [exact Hr|]. by apply HQ.
Qed.
Lemma wpp_gettoken_end i st (Q : Z * nat * nat -> sh -> Prop) :
  before [] i st -> (forall st' q eq, before [] i st' -> Q (0, q, eq) st') -> wp_or_panic (gettoken buf) Q P st.
Proof.
  intros (Hl & Hi & Hm) HQ. destruct st as [p i']. cbn in Hl, Hi. subst i'. destruct (gettoken_end buf Hnul p i Hl) as ([q eq] & p' & Hr & Hl').
  eapply wpp_run; [exact Hr|]. by apply HQ.
Qed.
(** A node of [sz] bytes. *)
Lemma wpp_malloc {A} sz (a : A) ts i st (Q : A -> sh -> Prop) :
  before ts i st -> (MAXN < i + sz -> P) -> (i + sz <= MAXN -> forall st', before ts (i + sz) st' -> Q a st') -> wp_or_panic (malloc1 sz;; mret a) Q P st.
Proof.
  intros (Hl & Hi & _) HP HQ. unfold wp_or_panic, malloc1, mbind, M_bind, modify, gets. cbn. rewrite Hi. destruct (Z.ltb_spec MAXN (i + sz)); cbn; [auto|].
  apply HQ; [done|]. split; [done|]. split; [done|lia].
Qed.
Lemma before_es ts i st : before ts i st -> (length ts <= es)%nat.
Proof. intros (Hl & _). apply lexed_length in Hl. lia. Qed.
End parser.

(** ** Every command of the grammar is accepted *)

Lemma redir_toks_cons r rs : redir_toks (r :: rs) = redir_op r.1 :: word_tok r.2 :: redir_toks rs.
Proof. done. Qed.
Lemma arg_toks_cons w rs ws : arg_toks ((w, rs) :: ws) = word_tok w :: redir_toks rs ++ arg_toks ws.
Proof. done. Qed.
Lemma with_argv_redirs argv argv' rs : with_argv argv' (redir_cmd (EXEC argv) rs) = redir_cmd (EXEC argv') rs.
Proof.
  unfold redir_cmd. induction rs as [|r rs IH] using rev_ind; [done|]. rewrite !foldl_app. cbn [foldl with_argv]. by rewrite IH.
Qed.
Lemma redir_cmd_app c rs rs' : redir_cmd (redir_cmd c rs) rs' = redir_cmd c (rs ++ rs').
Proof. unfold redir_cmd. by rewrite foldl_app. Qed.
Lemma redir_head rs ts : head_in [60; 62] ts = false -> forall S, (60 ∉ S) -> (62 ∉ S) -> head_in S ts = false -> head_in S (redir_toks rs ++ ts) = false.
Proof. intros _ S H1 H2 Hs. destruct rs as [|[[] w] rs]; [done| | |]; cbn; by apply bool_decide_eq_false_2. Qed.
Lemma redir_cost_app rs rs' : redir_cost (rs ++ rs') = redir_cost rs + redir_cost rs'.
Proof. unfold redir_cost. rewrite length_app. lia. Qed.
Lemma redir_cost_pos rs : 0 <= redir_cost rs.
Proof. unfold redir_cost. lia. Qed.

Ltac syms := unfold symbols; set_solver.

Section complete.
Context (buf : list Z) (Hnul : 0 ∈ buf).
Abbreviation es := (es buf).
Abbreviation ok m Q st := (wp_or_panic m Q False st).
Abbreviation before := (before buf).

Lemma redirs_complete n rs c ts i st :
  before (redir_toks rs ++ ts) i st -> head_in [60; 62] ts = false -> i + redir_cost rs <= MAXN -> (length rs <= n)%nat ->
  ok (parseredirs buf n c) (fun c' st' => c' = redir_cmd c rs /\ before ts (i + redir_cost rs) st') st.
Proof.
  revert n c i st. induction rs as [|[k w] rs IH]; intros n c i st Hb Ht Hm Hn.
  - destruct n as [|n]; cbn [parseredirs]; apply wpp_seq; (eapply (wpp_peek buf Hnul); [syms|exact Hb|]); intros st' Hb' _; cbn [app redir_toks concat fmap list_fmap] in *; rewrite Ht;
      (apply wpp_ret; split; [done|]; unfold redir_cost; by rewrite Z.add_0_r).
  - destruct n as [|n]; [cbn in Hn; lia|]. rewrite redir_toks_cons in Hb. cbn [fst snd app] in Hb. cbn [parseredirs]. apply wpp_seq.
    eapply (wpp_peek buf Hnul); [syms|exact Hb|]. intros st1 H1 _. assert (head_in [60; 62] (redir_op k :: word_tok w :: redir_toks rs ++ ts) = true) as -> by (destruct k; reflexivity). cbn [negb].
    apply wpp_seq. eapply (wpp_gettoken buf Hnul); [exact H1|]. intros st2 q1 eq1 H2 _. apply wpp_seq. eapply (wpp_gettoken buf Hnul); [exact H2|].
    intros st3 q eq H3 [-> ->]. cbn [tok_ret word_tok Z.eqb Pos.eqb negb]. unfold redir_cost in *. cbn [length] in *.
    assert (i + 40 <= MAXN) as Hm1 by lia. apply wpp_seq. rewrite (surjective_pairing w) at 1.
    destruct k; cbn [redir_op tok_ret Z.eqb Pos.eqb]; unfold redircmd; (eapply (wpp_malloc buf); [exact H3|lia|intros _ st4 H4]);
      (eapply wpp_post; [apply (IH n _ (i + 40)); [exact H4|done|unfold redir_cost; lia|lia]|]); intros c' st' [-> H5]; (split; [destruct w; done|]);
      (replace (i + 40 * Z.of_nat (S (length rs))) with (i + 40 + 40 * Z.of_nat (length rs)) by lia; done).
Qed.

(** What may follow a simple command. *)
Definition after_simple (ts : list token) : Prop := ts = [] \/ head_in [124; 41; 38; 59] ts = true.
Lemma after_simple_not S ts : after_simple ts -> (forall c, c ∈ [124; 41; 38; 59] -> c ∉ S) -> head_in S ts = false.
Proof. intros [->|H] HS; [done|]. by eapply head_in_other. Qed.

Lemma args_complete n argv rs0 ws ts i st :
  before (arg_toks ws ++ ts) i st -> after_simple ts -> i + redir_cost (concat (snd <$> ws)) <= MAXN -> (length ws < n)%nat ->
  Z.of_nat (length argv + length ws) < MAXARGS ->
  ok (parseargs buf n argv (redir_cmd (EXEC argv) rs0))
    (fun c' st' => c' = redir_cmd (EXEC (argv ++ (fst <$> ws))) (rs0 ++ concat (snd <$> ws)) /\ before ts (i + redir_cost (concat (snd <$> ws))) st') st.
Proof.
  revert n argv rs0 i st. induction ws as [|[w rs] ws IH]; intros n argv rs0 i st Hb Ht Hm Hn Ha; (destruct n as [|n]; [lia|]); cbn [parseargs]; apply wpp_seq;
    (eapply (wpp_peek buf Hnul); [syms|exact Hb|]); intros st1 H1 _.
  - cbn [arg_toks fmap list_fmap concat app] in *. unfold redir_cost. cbn [length]. rewrite !app_nil_r, Z.add_0_r. destruct Ht as [->|Ht].
    + cbn [head_in]. apply wpp_seq. eapply (wpp_gettoken_end buf Hnul); [exact H1|]. intros st2 q eq H2. cbn. done.
    + rewrite Ht. by apply wpp_ret.
  - rewrite arg_toks_cons in *. cbn [app word_tok head_in tok_in] in *. rewrite <-app_assoc in H1. apply wpp_seq.
    eapply (wpp_gettoken buf Hnul); [exact H1|]. intros st2 q eq H2 [-> ->]. cbn [tok_ret Z.eqb Pos.eqb negb]. cbn [fmap list_fmap concat snd fst] in *.
    rewrite redir_cost_app in *. pose proof (redir_cost_pos (concat (snd <$> ws))) as Hp. cbn [length] in *. rewrite length_app. cbn [length].
    change (tok_ret (word_tok w)) with 97. cbn [Z.eqb Pos.eqb negb]. rewrite (proj2 (Z.leb_gt MAXARGS _)) by lia. rewrite with_argv_redirs, <-(surjective_pairing w).
    apply wpp_seq. eapply wpp_post; [apply (redirs_complete _ rs _ (arg_toks ws ++ ts) i)|].
    + exact H2.
    + destruct ws as [|[w' rs'] ws]; [cbn; apply (after_simple_not _ _ Ht); syms|done].
    + lia.
    + apply before_es in H2. rewrite length_app in H2. assert (length (redir_toks rs) = 2 * length rs)%nat as E; [|lia].
      clear. induction rs as [|r rs IH]; [done|]. rewrite redir_toks_cons. cbn [length]. lia.
    + intros c' st3 [-> H3]. rewrite redir_cmd_app. eapply wpp_post; [apply (IH n (argv ++ [w]) (rs0 ++ rs) (i + redir_cost rs)); [exact H3|done|lia|lia|rewrite length_app; cbn [length]; lia]|].
      intros c'' st4 [-> H4]. rewrite <-!app_assoc. split; [done|]. by rewrite Z.add_assoc.
Qed.

Lemma amps_complete n k c ts i st :
  before (replicate k (TSym 38) ++ ts) i st -> head_in [38] ts = false -> i + 16 * Z.of_nat k <= MAXN -> (k <= n)%nat ->
  ok (parseamps buf n c) (fun c' st' => c' = Nat.iter k BACK c /\ before ts (i + 16 * Z.of_nat k) st') st.
Proof.
  revert n c i st. induction k as [|k IH]; intros n c i st Hb Ht Hm Hn.
  - destruct n as [|n]; cbn [parseamps]; apply wpp_seq; (eapply (wpp_peek buf Hnul); [syms|exact Hb|]); intros st' Hb' _; cbn [app replicate] in *; rewrite Ht;
      (apply wpp_ret; split; [done|]; by rewrite Z.add_0_r).
  - destruct n as [|n]; [lia|]. cbn [replicate app] in Hb. cbn [parseamps]. apply wpp_seq. eapply (wpp_peek buf Hnul); [syms|exact Hb|]. intros st1 H1 _. cbn [head_in tok_in].
    rewrite bool_decide_true by (left). cbn [negb]. apply wpp_seq. eapply (wpp_gettoken buf Hnul); [exact H1|]. intros st2 q eq H2 _. apply wpp_seq.
    unfold backcmd. eapply (wpp_malloc buf); [exact H2|lia|intros _ st3 H3]. eapply wpp_post; [apply (IH n _ (i + 16)); [exact H3|done|lia|lia]|].
    intros c' st' [-> H4]. rewrite Nat.iter_succ_r. split; [done|]. replace (i + 16 * Z.of_nat (S k)) with (i + 16 + 16 * Z.of_nat k) by lia. done.
Qed.

(** What may follow a pipe and a line. *)
Definition after_pipe (ts : list token) : Prop := ts = [] \/ head_in [41; 38; 59] ts = true.
Definition after_line (ts : list token) : Prop := ts = [] \/ head_in [41] ts = true.
Lemma after_pipe_not S ts : after_pipe ts -> (forall c, c ∈ [41; 38; 59] -> c ∉ S) -> head_in S ts = false.
Proof. intros [->|H] HS; [done|]. by eapply head_in_other. Qed.
Lemma head_in_sub S1 S2 ts : head_in S1 ts = true -> S1 ⊆ S2 -> head_in S2 ts = true.
Proof. destruct ts as [|[c| | |q eq] ts]; cbn; [done| | | |done]; intros H%bool_decide_eq_true HS; apply bool_decide_eq_true_2; by apply HS. Qed.
Lemma after_pipe_simple ts : after_pipe ts -> after_simple ts.
Proof. intros [->|H]; [by left|right]. eapply head_in_sub; [exact H|]. set_solver. Qed.
Lemma after_line_pipe ts : after_line ts -> after_pipe ts.
Proof. intros [->|H]; [by left|right]. eapply head_in_sub; [exact H|]. set_solver. Qed.
Lemma amps_after k ts : after_line ts \/ head_in [59] ts = true -> after_pipe (replicate k (TSym 38) ++ ts).
Proof.
  intros H. destruct k as [|k]; cbn [replicate app]; [|by right]. destruct H as [H|H]; [by apply after_line_pipe|right]. eapply head_in_sub; [exact H|]. set_solver.
Qed.

Definition line_complete (l : line) : Prop := forall n ts i st,
  before (line_toks l ++ ts) i st -> after_line ts -> i + line_cost l <= MAXN -> line_args l -> (4 * length (line_toks l) + 4 <= n)%nat ->
  ok (parseline buf n) (fun c st' => c = line_cmd l /\ before ts (i + line_cost l) st') st.
Definition pipe_complete (p : pipe) : Prop := forall n ts i st,
  before (pipe_toks p ++ ts) i st -> after_pipe ts -> i + pipe_cost p <= MAXN -> pipe_args p -> (4 * length (pipe_toks p) + 3 <= n)%nat ->
  ok (parsepipe buf n) (fun c st' => c = pipe_cmd p /\ before ts (i + pipe_cost p) st') st.
Definition simple_complete (e : simple) : Prop := forall n ts i st,
  before (simple_toks e ++ ts) i st -> after_simple ts -> i + simple_cost e <= MAXN -> simple_args e -> (4 * length (simple_toks e) + 2 <= n)%nat ->
  ok (parseexec buf n) (fun c st' => c = simple_cmd e /\ before ts (i + simple_cost e) st') st.

Lemma cost_pos : (forall l, 0 <= line_cost l) /\ (forall p, 0 <= pipe_cost p) /\ (forall e, 0 <= simple_cost e).
Proof.
  apply tree_ind; cbn [line_cost pipe_cost simple_cost]; intros; try lia.
  - pose proof (redir_cost_pos (rs ++ concat (snd <$> ws))). lia.
  - pose proof (redir_cost_pos rs). lia.
Qed.
Lemma redir_toks_length rs : length (redir_toks rs) = (2 * length rs)%nat.
Proof. induction rs as [|r rs IH]; [done|]. rewrite redir_toks_cons. cbn [length]. lia. Qed.
Lemma arg_toks_length ws : (length ws <= length (arg_toks ws))%nat.
Proof. induction ws as [|[w rs] ws IH]; [done|]. rewrite arg_toks_cons. cbn [length]. rewrite length_app. lia. Qed.

Lemma words_complete rs ws : simple_complete (SWords rs ws).
Proof.
  intros n ts i st Hb Ht Hm Ha Hn. cbn [simple_toks simple_cost simple_args simple_cmd] in *. rewrite redir_cost_app in *.
  pose proof (redir_cost_pos rs). pose proof (redir_cost_pos (concat (snd <$> ws))). destruct n as [|n]; [lia|]. cbn [parseexec]. rewrite <-app_assoc in Hb.
  apply wpp_seq. eapply (wpp_peek buf Hnul); [syms|exact Hb|]. intros st1 H1 _.
  assert (forall S, (60 ∉ S) -> (62 ∉ S) -> (forall c, c ∈ [124; 41; 38; 59] -> c ∉ S) -> head_in S (arg_toks ws ++ ts) = false) as Hargs.
  { intros S H60 H62 HS. destruct ws as [|[w' rs'] ws]; [by apply (after_simple_not _ _ Ht)|done]. }
  assert (head_in [60; 62] (arg_toks ws ++ ts) = false) as Hr.
  { destruct ws as [|[w' rs'] ws]; [cbn; apply (after_simple_not _ _ Ht); syms|done]. }
  rewrite (redir_head rs _ Hr [40]) by (try apply Hargs; syms). apply wpp_seq. unfold execcmd. eapply (wpp_malloc buf); [exact H1|lia|intros _ st2 H2].
  apply wpp_seq. eapply wpp_post; [apply (redirs_complete _ rs _ (arg_toks ws ++ ts) (i + 168)); [exact H2|done|lia|]|].
  { apply before_es in H2. rewrite length_app, redir_toks_length in H2. lia. }
  intros c st3 [-> H3]. eapply wpp_post; [apply (args_complete _ [] rs ws ts (i + 168 + redir_cost rs)); [exact H3|done|lia| |exact Ha]|].
  { apply before_es in H3. rewrite length_app in H3. pose proof (arg_toks_length ws). lia. }
  intros c' st4 [-> H4]. split; [done|]. by replace (i + (168 + (redir_cost rs + redir_cost (concat (snd <$> ws))))) with (i + 168 + redir_cost rs + redir_cost (concat (snd <$> ws))) by lia.
Qed.

Lemma block_complete l rs : line_complete l -> simple_complete (SBlock l rs).
Proof.
  intros IH n ts i st Hb Ht Hm Ha Hn. cbn [simple_toks simple_cost simple_args simple_cmd] in *. pose proof (redir_cost_pos rs). pose proof (proj1 cost_pos l).
  cbn [length app] in *. rewrite <-app_assoc in Hb. cbn [app] in Hb. rewrite length_app in Hn. cbn [length] in Hn. destruct n as [|[|n]]; [lia|lia|]. cbn [parseexec].
  apply wpp_seq. eapply (wpp_peek buf Hnul); [syms|exact Hb|]. intros st1 H1 _. cbn [head_in tok_in]. rewrite bool_decide_true by left.
  cbn [parseblock]. apply wpp_seq. eapply (wpp_peek buf Hnul); [syms|exact H1|]. intros st2 H2 _. cbn [head_in tok_in]. rewrite bool_decide_true by left. cbn [negb].
  apply wpp_seq. eapply (wpp_gettoken buf Hnul); [exact H2|]. intros st3 q eq H3 _. apply wpp_seq.
  eapply wpp_post; [apply (IH n (TSym 41 :: redir_toks rs ++ ts) i); [exact H3|right; cbn; by apply bool_decide_eq_true_2; left|lia|done|lia]|].
  intros c st4 [-> H4]. apply wpp_seq. eapply (wpp_peek buf Hnul); [syms|exact H4|]. intros st5 H5 _. cbn [head_in tok_in]. rewrite bool_decide_true by left. cbn [negb].
  apply wpp_seq. eapply (wpp_gettoken buf Hnul); [exact H5|]. intros st6 q' eq' H6 _.
  eapply wpp_post; [apply (redirs_complete _ rs _ ts (i + line_cost l)); [exact H6|apply (after_simple_not _ _ Ht); syms|lia|]|].
  { apply before_es in H6. rewrite length_app, redir_toks_length in H6. lia. }
  intros c' st7 [-> H7]. split; [done|]. by rewrite Z.add_assoc.
Qed.

Lemma one_complete e : simple_complete e -> pipe_complete (POne e).
Proof.
  intros IH n ts i st Hb Ht Hm Ha Hn. cbn [pipe_toks pipe_cost pipe_args pipe_cmd] in *. destruct n as [|n]; [lia|]. cbn [parsepipe]. apply wpp_seq.
  eapply wpp_post; [apply (IH n ts i); [exact Hb|by apply after_pipe_simple|done|done|lia]|]. intros c st1 [-> H1]. apply wpp_seq.
  eapply (wpp_peek buf Hnul); [syms|exact H1|]. intros st2 H2 _. rewrite (after_pipe_not _ _ Ht) by syms. by apply wpp_ret.
Qed.
Lemma more_complete e p : simple_complete e -> pipe_complete p -> pipe_complete (PMore e p).
Proof.
  intros IHe IHp n ts i st Hb Ht Hm [Ha1 Ha2] Hn. cbn [pipe_toks pipe_cost pipe_cmd] in *. rewrite length_app in Hn. cbn [length] in Hn. rewrite <-app_assoc in Hb. cbn [app] in Hb.
  pose proof (proj1 (proj2 cost_pos) p). pose proof (proj2 (proj2 cost_pos) e). destruct n as [|n]; [lia|]. cbn [parsepipe]. apply wpp_seq.
  eapply wpp_post; [apply (IHe n (TSym 124 :: pipe_toks p ++ ts) i); [exact Hb|right; cbn; by apply bool_decide_eq_true_2; left|lia|done|lia]|]. intros c st1 [-> H1]. apply wpp_seq.
  eapply (wpp_peek buf Hnul); [syms|exact H1|]. intros st2 H2 _. cbn [head_in tok_in]. rewrite bool_decide_true by left. apply wpp_seq.
  eapply (wpp_gettoken buf Hnul); [exact H2|]. intros st3 q eq H3 _. apply wpp_seq. eapply wpp_post; [apply (IHp n ts (i + simple_cost e)); [exact H3|done|lia|done|lia]|].
  intros r st4 [-> H4]. unfold pipecmd. eapply (wpp_malloc buf); [exact H4|lia|intros _ st5 H5]. split; [done|].
  by replace (i + (simple_cost e + pipe_cost p + 24)) with (i + simple_cost e + pipe_cost p + 24) by lia.
Qed.

(** A pipe and the ampersands after it. *)
Lemma head_complete p k n ts i st (K : cmd -> SM cmd) (Q : cmd -> sh -> Prop) : pipe_complete p ->
  before (pipe_toks p ++ replicate k (TSym 38) ++ ts) i st -> after_line ts \/ head_in [59] ts = true -> i + pipe_cost p + 16 * Z.of_nat k <= MAXN -> pipe_args p ->
  (4 * length (pipe_toks p) + 3 <= n)%nat ->
  (forall st', before ts (i + pipe_cost p + 16 * Z.of_nat k) st' -> ok (K (Nat.iter k BACK (pipe_cmd p))) Q st') ->
  ok (c ← parsepipe buf n; c ← parseamps buf es c; K c) Q st.
Proof.
  intros IH Hb Ht Hm Ha Hn HK. apply wpp_seq. eapply wpp_post; [apply (IH n (replicate k (TSym 38) ++ ts) i); [exact Hb|by apply amps_after|lia|done|done]|].
  intros c st1 [-> H1]. apply wpp_seq. eapply wpp_post; [apply (amps_complete es k _ ts (i + pipe_cost p)); [exact H1| |lia|]|].
  - destruct Ht as [[->|Ht]|Ht]; [done|eapply head_in_other; [exact Ht|syms]|eapply head_in_other; [exact Ht|syms]].
  - apply before_es in H1. rewrite length_app, length_replicate in H1. lia.
  - intros c st2 [-> H2]. by apply HK.
Qed.

Lemma end_complete p k : pipe_complete p -> line_complete (LEnd p k).
Proof.
  intros IH n ts i st Hb Ht Hm Ha Hn. cbn [line_toks line_cost line_args line_cmd] in *. rewrite <-app_assoc in Hb. rewrite length_app in Hn. destruct n as [|n]; [lia|]. cbn [parseline].
  eapply (head_complete p k n ts i); [done|exact Hb|by left|lia|done|lia|]. intros st1 H1. apply wpp_seq. eapply (wpp_peek buf Hnul); [syms|exact H1|]. intros st2 H2 _.
  replace (head_in [59] ts) with false; [apply wpp_ret; by rewrite Z.add_assoc|]. destruct Ht as [->|Ht]; [done|]. symmetry. eapply head_in_other; [exact Ht|syms].
Qed.
Lemma seq_complete p k l : pipe_complete p -> line_complete l -> line_complete (LSeq p k l).
Proof.
  intros IHp IHl n ts i st Hb Ht Hm [Ha1 Ha2] Hn. cbn [line_toks line_cost line_cmd] in *. rewrite <-!app_assoc in Hb. cbn [app] in Hb. rewrite !length_app in Hn. cbn [length] in Hn.
  pose proof (proj1 (proj2 cost_pos) p). pose proof (proj1 cost_pos l). destruct n as [|n]; [lia|]. cbn [parseline].
  eapply (head_complete p k n (TSym 59 :: line_toks l ++ ts) i); [done|exact Hb|right; cbn; by apply bool_decide_eq_true_2; left|lia|done|lia|].
  intros st1 H1. apply wpp_seq. eapply (wpp_peek buf Hnul); [syms|exact H1|]. intros st2 H2 _. cbn [head_in tok_in]. rewrite bool_decide_true by left. apply wpp_seq.
  eapply (wpp_gettoken buf Hnul); [exact H2|]. intros st3 q eq H3 _. apply wpp_seq. eapply wpp_post; [apply (IHl n ts (i + pipe_cost p + 16 * Z.of_nat k)); [exact H3|done|lia|done|lia]|].
  intros r st4 [-> H4]. unfold listcmd. eapply (wpp_malloc buf); [exact H4|lia|intros _ st5 H5]. split; [done|].
  by replace (i + (pipe_cost p + 16 * Z.of_nat k + line_cost l + 24)) with (i + pipe_cost p + 16 * Z.of_nat k + line_cost l + 24) by lia.
Qed.

Lemma tree_complete : (forall l, line_complete l) /\ (forall p, pipe_complete p) /\ (forall e, simple_complete e).
Proof.
  apply tree_ind; [intros p H k; by apply end_complete|intros p H k l; by apply seq_complete|apply one_complete|intros e H p; by apply more_complete|apply words_complete|intros l H rs; by apply block_complete].
Qed.
End complete.
