(* ===== verification/ShSound.v ===== *)
(** * The parser of the shell accepts nothing but the grammar

    Every function of the parser, with fuel for the tokens that are left, either
    exits or returns the command of a syntax tree whose tokens it has consumed. *)

From Stdlib Require Import ZArith Lia.
From stdpp Require Import base tactics numbers gmap list.
From S2P Require Import Prelude Sh ShProofs ShGrammar.

Local Open Scope Z_scope.

(** The first token is one of these symbols. *)
Lemma head_in_sym S ts : (62 ∉ S) -> head_in S ts = true -> exists c ts', ts = TSym c :: ts' /\ c ∈ S.
Proof.
  intros H62. destruct ts as [|[c| | |q eq] ts]; cbn [head_in tok_in]; [done| | | |done]; intros H%bool_decide_eq_true; [by exists c, ts|done|done].
Qed.
Lemma head_in_one c ts : c <> 62 -> head_in [c] ts = true -> exists ts', ts = TSym c :: ts'.
Proof. intros Hc (d & ts' & -> & ->%list_elem_of_singleton)%head_in_sym; [by exists ts'|set_solver]. Qed.

Section sound.
Context (buf : list Z) (Hnul : 0 ∈ buf).
Abbreviation es := (es buf).
Abbreviation ret m Q st := (wp_or_panic m Q True st).
Abbreviation before := (before buf).

Lemma before_sym c ts i st : before (TSym c :: ts) i st -> c ∈ one_char.
Proof. intros [H _]. by inversion H. Qed.
Lemma head_in_redir ts i st : before ts i st -> head_in [60; 62] ts = true -> exists k ts', ts = redir_op k :: ts'.
Proof.
  intros Hb. destruct ts as [|[c| | |q eq] ts]; cbn [head_in tok_in]; [done| | | |done]; intros H%bool_decide_eq_true.
  - apply before_sym in Hb. unfold one_char in Hb. assert (c = 60) as -> by set_solver. by exists RIn, ts.
  - by exists ROut, ts.
  - by exists RAppend, ts.
Qed.
Lemma wpp_panic {A} (Q : A -> sh -> Prop) st : ret panic Q st.
Proof. done. Qed.

(** The next token is a word, or the end, or [gettoken] does not return 'a'. *)
Lemma wpp_word ts i st (Q : Z * nat * nat -> sh -> Prop) : before ts i st ->
  (forall w ts' st', ts = word_tok w :: ts' -> before ts' i st' -> Q (97, w.1, w.2) st') ->
  (forall st' q eq, ts = [] -> before [] i st' -> Q (0, q, eq) st') ->
  (forall r q eq st', r <> 97 -> r <> 0 -> Q (r, q, eq) st') ->
  ret (gettoken buf) Q st.
Proof.
  intros Hb Hw He Hr. destruct ts as [|t ts].
  - eapply (wpp_gettoken_end buf Hnul); [exact Hb|]. intros st' q eq H'. by apply He.
  - eapply (wpp_gettoken buf Hnul); [exact Hb|]. intros st' q eq H' Ht. destruct t as [c| | |a b]; cbn [tok_ret].
    + apply before_sym in Hb. unfold one_char in Hb. apply Hr; set_solver.
    + by apply Hr.
    + by apply Hr.
    + destruct Ht as [-> ->]. by apply (Hw (a, b) ts).
Qed.

Lemma redirs_sound n c ts i st : before ts i st -> (length ts <= n)%nat ->
  ret (parseredirs buf n c) (fun c' st' => exists rs ts', ts = redir_toks rs ++ ts' /\ c' = redir_cmd c rs /\ before ts' (i + redir_cost rs) st' /\ head_in [60; 62] ts' = false) st.
Proof.
  revert c ts i st. induction n as [|n IH]; intros c ts i st Hb Hn; cbn [parseredirs]; apply wpp_seq; (eapply (wpp_peek buf Hnul); [syms|exact Hb|]); intros st1 H1 _;
    destruct (head_in [60; 62] ts) eqn:Eh; cbn [negb].
  1: destruct ts; [done|cbn in Hn; lia].
  1,3: apply wpp_ret; exists [], ts; unfold redir_cost; cbn [length Z.of_nat]; rewrite Z.mul_0_r, Z.add_0_r; done.
  destruct (head_in_redir _ _ _ Hb Eh) as (k & ts1 & ->). cbn [length] in Hn. apply wpp_seq. eapply (wpp_gettoken buf Hnul); [exact H1|]. intros st2 q1 eq1 H2 _.
  apply wpp_seq. eapply wpp_word; [exact H2| |intros; apply wpp_panic|intros r q eq st' Hr _; rewrite (proj2 (Z.eqb_neq r 97)) by done; apply wpp_panic].
  intros w ts2 st3 -> H3. cbn [Z.eqb Pos.eqb negb length] in *. apply wpp_seq. rewrite <-(surjective_pairing w).
  destruct k; cbn [redir_op tok_ret Z.eqb Pos.eqb]; unfold redircmd; (eapply (wpp_malloc buf); [exact H3|done|intros _ st4 H4]);
    (eapply wpp_post; [apply (IH _ ts2 (i + 40)); [exact H4|lia]|]); intros c' st5 (rs & ts' & -> & -> & H5 & Hh);
    [exists ((RIn, w) :: rs)|exists ((ROut, w) :: rs)|exists ((RAppend, w) :: rs)]; exists ts'; rewrite redir_toks_cons; (split; [done|]); (split; [done|]); (split; [|done]);
    unfold redir_cost in *; cbn [length]; (replace (i + 40 * Z.of_nat (S (length rs))) with (i + 40 + 40 * Z.of_nat (length rs)) by lia); done.
Qed.

Lemma args_sound n argv rs0 ts i st : before ts i st -> head_in [60; 62] ts = false -> (length ts < n)%nat -> Z.of_nat (length argv) < MAXARGS ->
  ret (parseargs buf n argv (redir_cmd (EXEC argv) rs0))
    (fun c' st' => exists ws ts', ts = arg_toks ws ++ ts' /\ c' = redir_cmd (EXEC (argv ++ (fst <$> ws))) (rs0 ++ concat (snd <$> ws)) /\
       before ts' (i + redir_cost (concat (snd <$> ws))) st' /\ Z.of_nat (length argv + length ws) < MAXARGS) st.
Proof.
  revert argv rs0 ts i st. induction n as [|n IH]; intros argv rs0 ts i st Hb Hh Hn Ha; [lia|]. cbn [parseargs]. apply wpp_seq.
  eapply (wpp_peek buf Hnul); [syms|exact Hb|]. intros st1 H1 _.
  assert (forall st', before ts i st' -> exists ws ts', ts = arg_toks ws ++ ts' /\ redir_cmd (EXEC argv) rs0 = redir_cmd (EXEC (argv ++ (fst <$> ws))) (rs0 ++ concat (snd <$> ws)) /\
       before ts' (i + redir_cost (concat (snd <$> ws))) st' /\ Z.of_nat (length argv + length ws) < MAXARGS) as Hend.
  { intros st' H'. exists [], ts. cbn [fmap list_fmap concat arg_toks app length]. unfold redir_cost. cbn [length Z.of_nat]. rewrite !app_nil_r, Z.mul_0_r, Z.add_0_r, Nat.add_0_r. done. }
  destruct (head_in [124; 41; 38; 59] ts); [by apply wpp_ret, Hend|].
  apply wpp_seq. eapply wpp_word; [exact H1| |intros st2 q eq -> H2; by apply wpp_ret, Hend|].
  2: { intros r q eq st2 Hr H0. rewrite (proj2 (Z.eqb_neq r 97)), (proj2 (Z.eqb_neq r 0)) by done. apply wpp_panic. }
  intros w ts1 st2 -> H2. cbn [Z.eqb Pos.eqb negb length] in *. rewrite length_app. cbn [length]. destruct (Z.leb_spec MAXARGS (Z.of_nat (length argv + 1))) as [|Hlt]; [apply wpp_panic|].
  rewrite with_argv_redirs, <-(surjective_pairing w). apply wpp_seq. eapply wpp_post; [apply (redirs_sound _ _ ts1 i); [exact H2|by apply before_es in H2]|].
  intros c' st3 (rs & ts2 & -> & -> & H3 & Hh2). rewrite redir_cmd_app. rewrite length_app in Hn.
  eapply wpp_post; [apply (IH (argv ++ [w]) (rs0 ++ rs) ts2 (i + redir_cost rs)); [exact H3|done|lia|rewrite length_app; cbn [length]; lia]|].
  intros c' st4 (ws & ts' & -> & -> & H4 & Hlen). exists ((w, rs) :: ws), ts'. rewrite arg_toks_cons. cbn [fmap list_fmap concat fst snd app length]. rewrite <-!app_assoc.
  rewrite redir_cost_app, Z.add_assoc. rewrite length_app in Hlen. cbn [length] in Hlen. split; [done|]. split; [done|]. split; [done|lia].
Qed.

Lemma amps_sound n c ts i st : before ts i st -> (length ts <= n)%nat ->
  ret (parseamps buf n c) (fun c' st' => exists k ts', ts = replicate k (TSym 38) ++ ts' /\ c' = Nat.iter k BACK c /\ before ts' (i + 16 * Z.of_nat k) st') st.
Proof.
  revert c ts i st. induction n as [|n IH]; intros c ts i st Hb Hn; cbn [parseamps]; apply wpp_seq; (eapply (wpp_peek buf Hnul); [syms|exact Hb|]); intros st1 H1 _;
    destruct (head_in [38] ts) eqn:Eh; cbn [negb].
  1: destruct ts; [done|cbn in Hn; lia].
  1,3: apply wpp_ret; exists 0%nat, ts; rewrite Z.mul_0_r, Z.add_0_r; done.
  apply head_in_one in Eh as [ts1 ->]; [|done]. cbn [length] in Hn. apply wpp_seq. eapply (wpp_gettoken buf Hnul); [exact H1|]. intros st2 q eq H2 _. apply wpp_seq.
  unfold backcmd. eapply (wpp_malloc buf); [exact H2|done|intros _ st3 H3]. eapply wpp_post; [apply (IH _ ts1 (i + 16)); [exact H3|lia]|].
  intros c' st4 (k & ts' & -> & -> & H4). exists (S k), ts'. rewrite Nat.iter_succ_r. split; [done|]. split; [done|].
  by replace (i + 16 * Z.of_nat (S k)) with (i + 16 + 16 * Z.of_nat k) by lia.
Qed.

(** The tokens of a syntax tree were consumed. *)
Abbreviation took toks cost args ccmd ts i := (fun c st' => exists a ts', ts = toks a ++ ts' /\ c = ccmd a /\ args a /\ before ts' (i + cost a) st').
Definition line_sound (n : nat) : Prop := forall ts i st, before ts i st -> (4 * length ts + 4 <= n)%nat ->
  ret (parseline buf n) (took line_toks line_cost line_args line_cmd ts i) st.
Definition pipe_sound (n : nat) : Prop := forall ts i st, before ts i st -> (4 * length ts + 3 <= n)%nat ->
  ret (parsepipe buf n) (took pipe_toks pipe_cost pipe_args pipe_cmd ts i) st.
Definition simple_sound (n : nat) : Prop := forall ts i st, before ts i st -> (4 * length ts + 2 <= n)%nat ->
  ret (parseexec buf n) (took simple_toks simple_cost simple_args simple_cmd ts i) st.

Lemma block_sound n ts i st : line_sound n -> before ts i st -> head_in [40] ts = true -> (4 * length ts + 1 <= S n)%nat ->
  ret (parseblock buf (S n)) (took simple_toks simple_cost simple_args simple_cmd ts i) st.
Proof.
  intros IH Hb Hh Hn. cbn [parseblock]. apply wpp_seq. eapply (wpp_peek buf Hnul); [syms|exact Hb|]. intros st1 H1 _. rewrite Hh. cbn [negb].
  apply head_in_one in Hh as [ts1 ->]; [|done]. cbn [length] in Hn. apply wpp_seq. eapply (wpp_gettoken buf Hnul); [exact H1|]. intros st2 q eq H2 _. apply wpp_seq.
  eapply wpp_post; [apply (IH ts1 i); [exact H2|lia]|]. intros c st3 (l & ts2 & -> & -> & Hl & H3). apply wpp_seq.
  eapply (wpp_peek buf Hnul); [syms|exact H3|]. intros st4 H4 _. destruct (head_in [41] ts2) eqn:Eh; cbn [negb]; [|apply wpp_panic].
  apply head_in_one in Eh as [ts3 ->]; [|done]. apply wpp_seq. eapply (wpp_gettoken buf Hnul); [exact H4|]. intros st5 q' eq' H5 _.
  eapply wpp_post; [apply (redirs_sound _ _ ts3 (i + line_cost l)); [exact H5|by apply before_es in H5]|].
  intros c st6 (rs & ts' & -> & -> & H6 & _). exists (SBlock l rs), ts'. cbn [simple_toks simple_cost simple_args simple_cmd app]. rewrite Z.add_assoc, <-app_assoc. done.
Qed.

Lemma exec_sound n : (forall m, (m < n)%nat -> line_sound m) -> simple_sound n.
Proof.
  intros IH ts i st Hb Hn. destruct n as [|n]; [lia|]. cbn [parseexec]. apply wpp_seq. eapply (wpp_peek buf Hnul); [syms|exact Hb|]. intros st1 H1 _.
  destruct (head_in [40] ts) eqn:Eh. { destruct n as [|n]; [lia|]. apply block_sound; [apply IH; lia|done|done|lia]. }
  apply wpp_seq. unfold execcmd. eapply (wpp_malloc buf); [exact H1|done|intros _ st2 H2]. apply wpp_seq.
  eapply wpp_post; [apply (redirs_sound _ _ ts (i + 168)); [exact H2|by apply before_es in H2]|]. intros c st3 (rs & ts1 & -> & -> & H3 & Hh).
  eapply wpp_post; [apply (args_sound _ [] rs ts1 (i + 168 + redir_cost rs)); [exact H3|done|apply before_es in H3; lia|done]|].
  intros c st4 (ws & ts' & -> & -> & H4 & Ha). exists (SWords rs ws), ts'. cbn [simple_toks simple_cost simple_args simple_cmd].
  rewrite redir_cost_app, <-app_assoc, !Z.add_assoc. done.
Qed.

Lemma pipes_sound n : simple_sound n -> pipe_sound n -> pipe_sound (S n).
Proof.
  intros IHe IHp ts i st Hb Hn. cbn [parsepipe]. apply wpp_seq. eapply wpp_post; [apply (IHe ts i); [exact Hb|lia]|]. intros c st1 (e & ts1 & -> & -> & He & H1).
  apply wpp_seq. eapply (wpp_peek buf Hnul); [syms|exact H1|]. intros st2 H2 _. rewrite length_app in Hn.
  destruct (head_in [124] ts1) eqn:Eh; [|apply wpp_ret; by exists (POne e), ts1].
  apply head_in_one in Eh as [ts2 ->]; [|done]. cbn [length] in Hn. apply wpp_seq. eapply (wpp_gettoken buf Hnul); [exact H2|]. intros st3 q eq H3 _.
  apply wpp_seq. eapply wpp_post; [apply (IHp ts2 (i + simple_cost e)); [exact H3|lia]|]. intros c st4 (p & ts' & -> & -> & Hp & H4).
  unfold pipecmd. eapply (wpp_malloc buf); [exact H4|done|intros _ st5 H5]. exists (PMore e p), ts'. cbn [pipe_toks pipe_cost pipe_args pipe_cmd].
  rewrite <-app_assoc, !Z.add_assoc. done.
Qed.

Lemma lines_sound n : pipe_sound n -> line_sound n -> line_sound (S n).
Proof.
  intros IHp IHl ts i st Hb Hn. cbn [parseline]. apply wpp_seq. eapply wpp_post; [apply (IHp ts i); [exact Hb|lia]|]. intros c st1 (p & ts1 & -> & -> & Hp & H1).
  apply wpp_seq. eapply wpp_post; [apply (amps_sound _ _ ts1 (i + pipe_cost p)); [exact H1|by apply before_es in H1]|]. intros c st2 (k & ts2 & -> & -> & H2).
  apply wpp_seq. eapply (wpp_peek buf Hnul); [syms|exact H2|]. intros st3 H3 _. rewrite !length_app in Hn.
  destruct (head_in [59] ts2) eqn:Eh. 2: { apply wpp_ret. exists (LEnd p k), ts2. cbn [line_toks line_cost line_args line_cmd]. rewrite <-app_assoc, Z.add_assoc. done. }
  apply head_in_one in Eh as [ts3 ->]; [|done]. cbn [length] in Hn. apply wpp_seq. eapply (wpp_gettoken buf Hnul); [exact H3|]. intros st4 q eq H4 _.
  apply wpp_seq. eapply wpp_post; [apply (IHl ts3 (i + pipe_cost p + 16 * Z.of_nat k)); [exact H4|lia]|]. intros c st5 (l & ts' & -> & -> & Hl & H5).
  unfold listcmd. eapply (wpp_malloc buf); [exact H5|done|intros _ st6 H6]. exists (LSeq p k l), ts'. cbn [line_toks line_cost line_args line_cmd].
  rewrite <-!app_assoc, !Z.add_assoc. done.
Qed.

Lemma tree_sound n : line_sound n /\ pipe_sound n /\ simple_sound n.
Proof.
  induction n as [n IH] using lt_wf_ind. assert (simple_sound n) as He by (apply exec_sound; intros m Hm; by apply IH).
  destruct n as [|n]; [split; [|split; [|done]]; intros ts i st _ H; lia|]. destruct (IH n) as (Hl & Hp & Hs); [lia|].
  split; [by apply lines_sound|]. split; [by apply pipes_sound|done].
Qed.
End sound.
