(* ===== verification/ShRun.v ===== *)
(** * Running a command of the shell: [runcmd] of [user/sh/main.c]

    What a process does is a tree of its system calls, with a branch for the
    child at each [fork].  Its table of descriptors is explicit: [open], [dup] and
    [pipe] take the lowest free ones.  Messages to [stderr] are left out.  Which
    calls fail is up to the kernel: [openable], [forks] and [pipes]; processes and
    the pipes they make are named by their place [w] in the tree. *)

From Stdlib Require Import ZArith Lia.
From stdpp Require Import base tactics numbers gmap list.
From S2P Require Import Prelude Sh.

Local Open Scope Z_scope.

Abbreviation place := (list nat).
(** What a descriptor refers to. *)
Inductive handle : Type :=
  | HStd (n : nat)
  | HFile (file : nat * nat) (mode : Z)
  | HRead (w : place)
  | HWrite (w : place).
Abbreviation fds := (list (option handle)).

Inductive beh : Type :=
  | BExit (code : Z)
  | BExec (argv : list (nat * nat)) (t : fds) (failed : beh)
  | BFork (child parent : beh)
  | BWait (k : beh).

(** ** Descriptors *)

Definition close (fd : nat) (t : fds) : fds := <[fd := None]> t.
Fixpoint lowest (t : fds) : option nat :=
  match t with
  | [] => None
  | None :: _ => Some 0%nat
  | Some _ :: t' => S <$> lowest t'
  end.
Definition install (h : handle) (t : fds) : option (nat * fds) := fd ← lowest t; Some (fd, <[fd := Some h]> t).
(** [dup], whose result is not tested. *)
Definition dup (fd : nat) (t : fds) : fds :=
  match t !! fd with
  | Some (Some h) => match install h t with Some (_, t') => t' | None => t end
  | _ => t
  end.

Section run.
Context (openable : nat * nat -> Z -> bool) (forks pipes : place -> bool).

Definition open (file : nat * nat) (mode : Z) (t : fds) : option fds :=
  if openable file mode then snd <$> install (HFile file mode) t else None.
Definition pipe (w : place) (t : fds) : option (nat * nat * fds) :=
  if pipes w then '(r, t) ← install (HRead w) t; '(p, t) ← install (HWrite w) t; Some (r, p, t) else None.
(** [if (fork1() == 0) child]; the parent goes on.  [w] is the place of the child. *)
Definition fork1 (w : place) (child parent : beh) : beh := if forks w then BFork child parent else BExit 1.

Fixpoint runcmd (c : cmd) (w : place) (t : fds) : beh :=
  match c with
  | EXEC argv => if decide (argv = []) then BExit 0 else BExec argv t (BExit 0)
  | REDIR c file mode fd =>
      match open file mode (close (Z.to_nat fd) t) with
      | None => BExit 1
      | Some t => runcmd c w t
      end
  | LIST l r => fork1 (w ++ [0%nat]) (runcmd l (w ++ [0%nat]) t) (BWait (runcmd r (w ++ [1%nat]) t))
  | PIPE l r =>
      match pipe w t with
      | None => BExit 1
      | Some (p0, p1, t) =>
          fork1 (w ++ [0%nat]) (runcmd l (w ++ [0%nat]) (close p1 (close p0 (dup p1 (close 1 t)))))
            (fork1 (w ++ [1%nat]) (runcmd r (w ++ [1%nat]) (close p1 (close p0 (dup p0 (close 0 t)))))
               (BWait (BWait (BExit 0))))
      end
  | BACK c => fork1 (w ++ [0%nat]) (runcmd c (w ++ [0%nat]) t) (BExit 0)
  end.

(** The programs that are executed, in the order of the tree, with their
    descriptors. *)
Fixpoint execs (b : beh) : list (list (nat * nat) * fds) :=
  match b with
  | BExit _ => []
  | BExec argv t k => (argv, t) :: execs k
  | BFork c p => execs c ++ execs p
  | BWait k => execs k
  end.

(** ** What the command means *)

(** The programs of a command with their standard input and output: those of a
    pipe are connected, redirections replace one of them, and everything else is
    passed on. *)
Fixpoint programs (c : cmd) (w : place) (i o : handle) : list (list (nat * nat) * handle * handle) :=
  match c with
  | EXEC argv => if decide (argv = []) then [] else [(argv, i, o)]
  | REDIR c file mode fd => if fd =? 0 then programs c w (HFile file mode) o else programs c w i (HFile file mode)
  | LIST l r => programs l (w ++ [0%nat]) i o ++ programs r (w ++ [1%nat]) i o
  | PIPE l r => programs l (w ++ [0%nat]) i (HWrite w) ++ programs r (w ++ [1%nat]) (HRead w) o
  | BACK c => programs c (w ++ [0%nat]) i o
  end.

(** Standard input, output and error are open, and nothing else. *)
Definition std (n : nat) (i o e : handle) : fds := [Some i; Some o; Some e] ++ replicate n None.
Definition wired (e : handle) (n : nat) (p : list (nat * nat) * handle * handle) : list (nat * nat) * fds := (p.1.1, std n p.1.2 p.2 e).

(** Only the descriptors 0 and 1 are redirected. *)
Fixpoint std_redirs (c : cmd) : Prop :=
  match c with
  | EXEC _ => True
  | REDIR c _ _ fd => (fd = 0 \/ fd = 1) /\ std_redirs c
  | PIPE l r | LIST l r => std_redirs l /\ std_redirs r
  | BACK c => std_redirs c
  end.

Lemma open_in n i o e file mode : openable file mode = true -> open file mode (close 0 (std n i o e)) = Some (std n (HFile file mode) o e).
Proof. unfold open. by intros ->. Qed.
Lemma open_out n i o e file mode : openable file mode = true -> open file mode (close 1 (std n i o e)) = Some (std n i (HFile file mode) e).
Proof. unfold open. by intros ->. Qed.
Lemma pipe_std n i o e w : pipes w = true -> exists t, pipe w (std (S (S n)) i o e) = Some (3%nat, 4%nat, t) /\
  close 4 (close 3 (dup 4 (close 1 t))) = std (S (S n)) i (HWrite w) e /\ close 4 (close 3 (dup 3 (close 0 t))) = std (S (S n)) (HRead w) o e.
Proof. unfold pipe. intros ->. eexists. split; [reflexivity|]. done. Qed.

Lemma runcmd_execs c w n i o e : std_redirs c ->
  execs (runcmd c w (std (S (S n)) i o e)) `sublist_of` (wired e (S (S n)) <$> programs c w i o) /\
  ((forall f m, openable f m = true) -> (forall w, forks w = true) -> (forall w, pipes w = true) ->
   execs (runcmd c w (std (S (S n)) i o e)) = wired e (S (S n)) <$> programs c w i o).
Proof.
  revert w i o. induction c as [argv|c IH file mode fd|l IHl r IHr|l IHl r IHr|c IH]; intros w i o Hs; cbn [runcmd programs std_redirs] in *.
  - by destruct (decide (argv = [])).
  - destruct Hs as [Hfd Hs]. destruct (openable file mode) eqn:Ho.
    + destruct Hfd as [-> | ->]; cbn [Z.to_nat Z.eqb]; [rewrite open_in by done|rewrite open_out by done]; by apply IH.
    + unfold open. rewrite Ho. cbn [execs]. split; [apply sublist_nil_l|]. intros H. by rewrite H in Ho.
  - destruct Hs as [Hl Hr]. destruct (pipes w) eqn:Hp; [|unfold pipe; rewrite Hp; cbn [execs]; split; [apply sublist_nil_l|]; intros _ _ H; by rewrite H in Hp].
    destruct (pipe_std n i o e w Hp) as (t & -> & -> & ->). unfold fork1. destruct (forks (w ++ [0%nat])) eqn:Hf; cbn [execs]; [|split; [apply sublist_nil_l|]; intros _ H; by rewrite H in Hf].
    destruct (IHl (w ++ [0%nat]) i (HWrite w) Hl) as [Hl1 Hl2], (IHr (w ++ [1%nat]) (HRead w) o Hr) as [Hr1 Hr2]. rewrite fmap_app.
    destruct (forks (w ++ [1%nat])) eqn:Hf1; cbn [execs]; [|split; [apply sublist_app; [done|apply sublist_nil_l]|]; intros _ H; by rewrite H in Hf1]. rewrite app_nil_r.
    split; [by apply sublist_app|]. intros H1 H2 H3. by rewrite Hl2, Hr2.
  - destruct Hs as [Hl Hr]. unfold fork1. destruct (forks (w ++ [0%nat])) eqn:Hf; cbn [execs]; [|split; [apply sublist_nil_l|]; intros _ H; by rewrite H in Hf].
    rewrite fmap_app. destruct (IHl (w ++ [0%nat]) i o Hl) as [Hl1 Hl2], (IHr (w ++ [1%nat]) i o Hr) as [Hr1 Hr2].
    split; [by apply sublist_app|]. intros H1 H2 H3. by rewrite Hl2, Hr2.
  - unfold fork1. destruct (forks (w ++ [0%nat])) eqn:Hf; cbn [execs]; [|split; [apply sublist_nil_l|]; intros _ H; by rewrite H in Hf]. rewrite app_nil_r. by apply IH.
Qed.
End run.
