(* ===== verification/ShProps.v ===== *)
(** * What the parser of the shell guarantees *)

From Stdlib Require Import ZArith Lia.
From stdpp Require Import base tactics numbers gmap list.
From S2P Require Import Prelude Sh ShProofs ShGrammar ShSound ShRun.

Local Open Scope Z_scope.

(** ** The whole line *)

Section whole.
Context (buf : list Z) (Hnul : 0 ∈ buf) (ts : list token) (Hts : lexed buf 0 ts).

Lemma before_start : before buf ts 0 (mkSh 0 0).
Proof. done. Qed.

(** A line of the grammar within the limits. *)
Definition accepted (a : line) : Prop := ts = line_toks a /\ line_args a /\ line_cost a <= MAXN.

Lemma parse_whole_complete a : accepted a -> wp_or_panic (parse_whole buf) (fun c _ => c = line_cmd a) False (mkSh 0 0).
Proof.
  intros (Ea & Ha & Hm). pose proof before_start as Hb. pose proof (before_es _ _ _ _ Hb) as Hes. unfold parse_whole. apply wpp_seq.
  eapply wpp_post; [apply (proj1 (tree_complete buf Hnul) a _ [] 0)|].
  - rewrite app_nil_r, <-Ea. exact Hb.
  - by left.
  - lia.
  - done.
  - unfold parse_depth. rewrite <-Ea. lia.
  - intros c st1 [-> H1]. apply wpp_seq. eapply (wpp_peek buf Hnul); [set_solver|exact H1|]. intros st2 H2 He. apply wpp_seq. eapply wpp_run; [done|].
    rewrite (proj2 He) by done. rewrite Nat.eqb_refl. done.
Qed.

Lemma parse_whole_sound : wp_or_panic (parse_whole buf) (fun c _ => exists a, accepted a /\ c = line_cmd a) True (mkSh 0 0).
Proof.
  pose proof before_start as Hb. pose proof (before_es _ _ _ _ Hb) as Hes. unfold parse_whole. apply wpp_seq.
  eapply wpp_post; [apply (proj1 (tree_sound buf Hnul _) ts 0); [exact Hb|unfold parse_depth; lia]|].
  intros c st1 (a & ts' & Ets & -> & Ha & H1). apply wpp_seq. eapply (wpp_peek buf Hnul); [set_solver|exact H1|]. intros st2 H2 He. apply wpp_seq. eapply wpp_run; [done|].
  destruct (Nat.eqb_spec (sh_ps st2) (es buf)) as [E|]; cbn [negb]; [|done]. apply wpp_ret. exists a. split; [|done].
  apply He in E. subst ts'. rewrite app_nil_r in Ets. destruct H1 as (_ & _ & Hm). done.
Qed.
End whole.

(** ** The strings of a command *)

Fixpoint strings (c : cmd) : list text :=
  match c with
  | EXEC argv => argv
  | REDIR c file _ _ => strings c ++ [file]
  | PIPE l r | LIST l r => strings l ++ strings r
  | BACK c => strings c
  end.

Lemma nulterminate_strings c buf : nulterminate c buf = foldl (fun b w => <[w.2 := 0]> b) buf (strings c).
Proof.
  revert buf. induction c as [argv|c IH file mode fd|l IHl r IHr|l IHl r IHr|c IH]; intros buf; cbn [nulterminate strings]; [done|..|apply IH].
  - by rewrite foldl_app, IH.
  - by rewrite foldl_app, IHl, IHr.
  - by rewrite foldl_app, IHl, IHr.
Qed.

Lemma strings_redir c rs : strings (redir_cmd c rs) = strings c ++ (snd <$> rs).
Proof.
  unfold redir_cmd. induction rs as [|r rs IH] using rev_ind; [by rewrite app_nil_r|]. rewrite foldl_app, fmap_app. cbn [foldl strings fmap list_fmap]. by rewrite IH, app_assoc.
Qed.
Lemma strings_back k c : strings (Nat.iter k BACK c) = strings c.
Proof. induction k as [|k IH]; [done|]. by rewrite Nat.iter_succ. Qed.
Lemma redir_words rs w : w ∈ (snd <$> rs) -> word_tok w ∈ redir_toks rs.
Proof.
  induction rs as [|r rs IH]; [by intros H%not_elem_of_nil|]. rewrite redir_toks_cons. cbn [fmap list_fmap]. intros [->|H]%elem_of_cons; [right; left|]. by do 2 right; apply IH.
Qed.
Lemma arg_words ws w : w ∈ (fst <$> ws) \/ w ∈ (snd <$> concat (snd <$> ws)) -> word_tok w ∈ arg_toks ws.
Proof.
  induction ws as [|[v rs] ws IH]; [by intros [H%not_elem_of_nil|H%not_elem_of_nil]|]. rewrite arg_toks_cons. cbn [fmap list_fmap fst snd concat]. rewrite fmap_app, !elem_of_cons, !elem_of_app.
  intros [[->|H]|[H|H]]; [by left|right; right; auto|right; left; by apply redir_words|right; right; auto].
Qed.
Lemma tree_strings : (forall l w, w ∈ strings (line_cmd l) -> word_tok w ∈ line_toks l) /\ (forall p w, w ∈ strings (pipe_cmd p) -> word_tok w ∈ pipe_toks p) /\
  (forall e w, w ∈ strings (simple_cmd e) -> word_tok w ∈ simple_toks e).
Proof.
  apply tree_ind; cbn [line_cmd pipe_cmd simple_cmd line_toks pipe_toks simple_toks strings].
  - intros p H k w. rewrite strings_back, elem_of_app. auto.
  - intros p Hp k l Hl w. rewrite strings_back, !elem_of_app, elem_of_cons. intros []; auto.
  - done.
  - intros e He p Hp w. rewrite !elem_of_app, elem_of_cons. intros []; auto.
  - intros rs ws w. rewrite strings_redir. cbn [strings]. rewrite fmap_app, !elem_of_app. intros [H|[H|H]]; [right; apply arg_words; auto|left; by apply redir_words|right; apply arg_words; auto].
  - intros l Hl rs w. rewrite strings_redir, elem_of_cons, !elem_of_app, elem_of_cons. intros [H|H]; [auto|]. right. right. right. by apply redir_words.
Qed.

(** The words of the line are runs of their characters. *)
Lemma lexed_words buf p ts q eq : lexed buf p ts -> TWord q eq ∈ ts -> (q < eq)%nat /\ run buf is_word q eq /\ ends buf is_word eq.
Proof. intros H. induction H as [| | | |]; [by intros H'%not_elem_of_nil|..]; (intros [E|]%elem_of_cons; [|by auto]); [done|done|done|]. injection E as -> ->. done. Qed.

(** NULs at the ends of words leave the words as they are. *)
Lemma nuls_lookup (buf : list Z) (ws : list text) i : foldl (fun b w => <[w.2 := 0]> b) buf ws !! i = (if decide (i ∈ (snd <$> ws)) then (fun _ => 0) <$> buf !! i else buf !! i).
Proof.
  revert buf. induction ws as [|w ws IH]; intros buf; [done|]. cbn [foldl fmap list_fmap]. rewrite IH. destruct (decide (i = w.2)) as [->|Hne].
  - rewrite (decide_True (P := w.2 ∈ w.2 :: _)) by left. destruct (buf !! w.2) as [c|] eqn:E.
    + rewrite list_lookup_insert_eq by (by eapply lookup_lt_Some). by destruct (decide _).
    + rewrite (proj2 (lookup_ge_None _ _)) by (rewrite length_insert; by apply lookup_ge_None). by destruct (decide _).
  - rewrite list_lookup_insert_ne by done. destruct (decide (i ∈ (snd <$> ws))) as [H|H]; [rewrite decide_True by (by right); done|].
    rewrite decide_False; [done|]. intros [|]%elem_of_cons; done.
Qed.

(** The string at [q] of a line, as C reads it. *)
Definition cstring (l : list Z) (q : nat) : list Z := take (line_len (drop q l)) (drop q l).
Lemma line_len_at l n : (forall i, (i < n)%nat -> exists c, l !! i = Some c /\ c <> 0) -> l !! n = Some 0 -> line_len l = n.
Proof.
  revert n. induction l as [|c l IH]; intros n H H0; [done|]. cbn [line_len]. destruct n as [|n].
  - injection H0 as ->. done.
  - destruct (H 0%nat ltac:(lia)) as (d & [= ->] & Hd). rewrite (proj2 (Z.eqb_neq d 0)) by done. f_equal. apply IH; [|done]. intros i Hi. apply (H (S i)). lia.
Qed.
Lemma nuls_cstring buf (ws : list text) q eq : 0 ∈ buf -> Forall (fun w => ends buf is_word w.2) ws -> (q, eq) ∈ ws -> run buf is_word q eq ->
  cstring (foldl (fun b w => <[w.2 := 0]> b) buf ws) q = take (eq - q) (drop q buf).
Proof.
  intros Hnul Hws Hw [Hq Hr]. set (b := foldl _ _ _).
  assert (forall i, (q <= i < eq)%nat -> exists c, buf !! i = Some c /\ b !! i = Some c /\ c <> 0) as Hin.
  { intros i Hi. destruct (es_before buf i ltac:(lia)) as (c & Hc & H0). exists c. split; [done|]. split; [|done]. unfold b. rewrite nuls_lookup, decide_False; [done|].
    intros (w & -> & Hin)%list_elem_of_fmap. rewrite Forall_forall in Hws. destruct (Hws w Hin) as [E|(d & Hd & Ed)]; [lia|]. rewrite (Hr w.2 d) in Ed by done. done. }
  assert (b !! eq = Some 0) as Hend.
  { unfold b. rewrite nuls_lookup, decide_True by (apply list_elem_of_fmap; by exists (q, eq)).
    destruct (decide (eq = es buf)) as [->|]; [by rewrite es_nul|]. by destruct (es_before buf eq ltac:(lia)) as (c & -> & _). }
  assert (line_len (drop q b) = eq - q)%nat as Hlen.
  { apply line_len_at; [|rewrite lookup_drop; by replace (q + (eq - q))%nat with eq by lia]. intros i Hi. rewrite lookup_drop. destruct (Hin (q + i)%nat ltac:(lia)) as (c & _ & Hc). by exists c. }
  unfold cstring. rewrite Hlen. apply list_eq. intros i. destruct (decide (i < eq - q)%nat) as [Hi|Hi].
  - rewrite !lookup_take_lt, !lookup_drop by done. destruct (Hin (q + i)%nat ltac:(lia)) as (c & -> & -> & _). done.
  - rewrite !lookup_take_ge by lia. done.
Qed.

(** C35: on a line with the tokens [ts], [parsecmd] returns exactly when they are the tokens of a command of
    the grammar within the limits on arguments and memory, and then the command
    of that syntax tree; on any other line it exits, and it always does one or the other. *)
Theorem parsecmd_decides buf ts : 0 ∈ buf -> lexed buf 0 ts ->
  match parsecmd buf (mkSh 0 0) with
  | Ret ((c, _), _) => exists a, ts = line_toks a /\ line_args a /\ line_cost a <= MAXN /\ c = line_cmd a
  | Panic => ~ exists a, ts = line_toks a /\ line_args a /\ line_cost a <= MAXN
  | _ => False
  end.
Proof.
  intros Hnul Hts. pose proof (parse_whole_sound buf Hnul ts Hts) as Hs. pose proof (parse_whole_complete buf Hnul ts Hts) as Hc. unfold parsecmd, mbind, M_bind, wp_or_panic in *.
  destruct (parse_whole buf (mkSh 0 0)) as [[c s]| | |]; [|by intros [a Ha]; apply (Hc a)|done|done].
  destruct Hs as (a & (H1 & H2 & H3) & ->). by exists a.
Qed.

(** after [parsecmd] every string of the command (its arguments and file names) reads, from its start up to
    its NUL, the characters of its word on the line: ending one string damages
    no other. *)
Theorem parsecmd_strings buf c buf' s : 0 ∈ buf -> parsecmd buf (mkSh 0 0) = Ret ((c, buf'), s) ->
  length buf' = length buf /\
  Forall (fun w => (w.1 < w.2)%nat /\ cstring buf' w.1 = take (w.2 - w.1) (drop w.1 buf) /\ forall i c, (w.1 <= i < w.2)%nat -> buf !! i = Some c -> is_word c = true) (strings c).
Proof.
  intros Hnul Hp. destruct (lex_exists buf Hnul 0 ltac:(lia)) as [ts Hts]. pose proof (parse_whole_sound buf Hnul ts Hts) as Hs. unfold parsecmd, mbind, M_bind, wp_or_panic in *.
  destruct (parse_whole buf (mkSh 0 0)) as [[c' s']| | |]; [|done..]. injection Hp as -> <- <-. destruct Hs as (a & (Ets & _ & _) & ->).
  assert (Forall (fun w => (w.1 < w.2)%nat /\ run buf is_word w.1 w.2 /\ ends buf is_word w.2) (strings (line_cmd a))) as Hw.
  { rewrite Forall_forall. intros w Hw%(proj1 tree_strings). rewrite <-Ets in Hw. exact (lexed_words _ _ _ _ _ Hts Hw). }
  rewrite nulterminate_strings. split.
  - clear Hw. generalize (strings (line_cmd a)) as ws. intros ws. clear. revert buf. induction ws as [|w ws IH]; intros buf; [done|]. cbn [foldl]. by rewrite IH, length_insert.
  - rewrite Forall_forall in *. intros w Hin. destruct (Hw w Hin) as (Hlt & Hr & _). split; [done|]. split; [|exact (proj2 Hr)]. destruct w as [q eq].
    apply nuls_cstring; [done| |done|done]. rewrite Forall_forall. intros v Hv. by apply Hw.
Qed.

Lemma std_redirs_cmd c rs : std_redirs c -> std_redirs (redir_cmd c rs).
Proof.
  unfold redir_cmd. intros Hc. induction rs as [|[k w] rs IH] using rev_ind; [done|]. rewrite foldl_app. cbn [foldl std_redirs]. split; [|done]. destruct k; cbn; auto.
Qed.
Lemma std_redirs_back k c : std_redirs c -> std_redirs (Nat.iter k BACK c).
Proof. intros H. induction k as [|k IH]; [done|]. by rewrite Nat.iter_succ. Qed.
Lemma tree_std_redirs : (forall l, std_redirs (line_cmd l)) /\ (forall p, std_redirs (pipe_cmd p)) /\ (forall e, std_redirs (simple_cmd e)).
Proof.
  apply tree_ind; cbn [line_cmd pipe_cmd simple_cmd std_redirs]; intros; try done.
  - by apply std_redirs_back.
  - split; [by apply std_redirs_back|done].
  - by apply std_redirs_cmd.
  - by apply std_redirs_cmd.
Qed.

(** C36: [runcmd] of a parsed line executes programs of the command only, each with the standard input and output
    that the command gives it (the ends of its pipes, its redirections, else
    those of the shell), the error output of the shell and no other open
    descriptor; when no [open], [fork] and [pipe] fails it executes all of them. *)
Theorem runcmd_wires buf c b s openable forks pipes i o e n : 0 ∈ buf -> parsecmd buf (mkSh 0 0) = Ret ((c, b), s) ->
  let run := execs (runcmd openable forks pipes c [] (std (S (S n)) i o e)) in
  let meant := wired e (S (S n)) <$> programs c [] i o in
  run `sublist_of` meant /\ ((forall f m, openable f m = true) -> (forall w, forks w = true) -> (forall w, pipes w = true) -> run = meant).
Proof.
  intros Hnul Hp. apply runcmd_execs. destruct (lex_exists buf Hnul 0 ltac:(lia)) as [ts Hts]. pose proof (parse_whole_sound buf Hnul ts Hts) as Hs.
  unfold parsecmd, mbind, M_bind, wp_or_panic in *. destruct (parse_whole buf (mkSh 0 0)) as [[c' s']| | |]; [|done..]. injection Hp as -> _ _.
  destruct Hs as (a & _ & ->). apply tree_std_redirs.
Qed.

(** ** A line of the shell *)

Lemma run_check buf f p q : ((p <=? q) && (q <=? es buf))%nat && forallb f (take (q - p) (drop p buf)) = true -> run buf f p q.
Proof.
  intros [[H1%Nat.leb_le H2%Nat.leb_le]%andb_prop H]%andb_prop. split; [lia|]. intros i c Hi Hc. rewrite forallb_forall in H. apply H. apply list_elem_of_In.
  apply list_elem_of_lookup. exists (i - p)%nat. rewrite lookup_take_lt, lookup_drop by lia. by replace (p + (i - p))%nat with i by lia.
Qed.

(** "a <b|(c d; e&) >>f\n". *)
Definition demo_line : list Z := [97; 32; 60; 98; 124; 40; 99; 32; 100; 59; 32; 101; 38; 41; 32; 62; 62; 102; 10; 0].
Definition demo_tree : line :=
  LEnd (PMore (SWords [] [((0, 1), [(RIn, (3, 4))])])
         (POne (SBlock (LSeq (POne (SWords [] [((6, 7), []); ((8, 9), [])])) 0 (LEnd (POne (SWords [] [((11, 12), [])])) 1)) [(RAppend, (17, 18))])))%nat 0.
Lemma demo_lexed : lexed demo_line 0 (line_toks demo_tree).
Proof.
  assert (0 ∈ demo_line) as Hnul by (apply list_elem_of_lookup; by exists 19%nat).
  assert (forall p q : nat, ((p <=? q) && (q <=? es demo_line))%nat && forallb is_white (take (q - p) (drop p demo_line)) = true -> run demo_line is_white p q) as Hw by (intros p q; apply run_check).
  assert (forall c, bool_decide (c ∈ one_char) = true -> c ∈ one_char) as H1 by (intros c; apply bool_decide_eq_true).
  assert (forall p q c ts, ((p <=? q) && (q <=? es demo_line))%nat && forallb is_white (take (q - p) (drop p demo_line)) = true -> (q <? es demo_line)%nat = true -> demo_line !! q = Some c ->
    bool_decide (c ∈ one_char) = true -> lexed demo_line (S q) ts -> lexed demo_line p (TSym c :: ts)) as Hsym.
  { intros p q c ts ? Hlt%Nat.ltb_lt ? ? ?. eapply lexed_sym; eauto. }
  assert (forall p q eq ts, ((p <=? q) && (q <=? es demo_line))%nat && forallb is_white (take (q - p) (drop p demo_line)) = true -> (q <? eq)%nat = true ->
    ((q <=? eq) && (eq <=? es demo_line))%nat && forallb is_word (take (eq - q) (drop q demo_line)) = true ->
    match demo_line !! eq with Some c => is_word c = false | None => False end -> lexed demo_line eq ts -> lexed demo_line p (TWord q eq :: ts)) as Hword.
  { intros p q eq ts ? Hlt%Nat.ltb_lt Hr%run_check Hc ?. eapply lexed_word; eauto. destruct (demo_line !! eq) as [c|] eqn:E; [|done]. right. by exists c. }
  change (line_toks demo_tree) with [TWord 0 1; TSym 60; TWord 3 4; TSym 124; TSym 40; TWord 6 7; TWord 8 9; TSym 59; TWord 11 12; TSym 38; TSym 41; TGtGt; TWord 17 18].
  eapply Hword; [done..|]. eapply (Hsym _ 2%nat); [done..|]. eapply Hword; [done..|]. eapply (Hsym _ 4%nat); [done..|]. eapply (Hsym _ 5%nat); [done..|].
  eapply Hword; [done..|]. eapply Hword; [done..|]. eapply (Hsym _ 9%nat); [done..|]. eapply Hword; [done..|]. eapply (Hsym _ 12%nat); [done..|]. eapply (Hsym _ 13%nat); [done..|].
  eapply (lexed_gtgt _ _ 15%nat); [by apply Hw|vm_compute; lia|done|done|]. eapply Hword; [done..|]. constructor. by apply Hw.
Qed.
Lemma demo_nul : 0 ∈ demo_line.
Proof. apply list_elem_of_lookup. by exists 19%nat. Qed.

Lemma parsecmd_decides_witness : exists b s, parsecmd demo_line (mkSh 0 0) = Ret ((line_cmd demo_tree, b), s) /\
  exists a, line_toks demo_tree = line_toks a /\ line_args a /\ line_cost a <= MAXN /\ line_cmd demo_tree = line_cmd a.
Proof.
  pose proof (parsecmd_decides demo_line (line_toks demo_tree) demo_nul demo_lexed) as H.
  destruct (parsecmd demo_line (mkSh 0 0)) as [[[c b] s]| | |] eqn:E; [|vm_compute in E; discriminate E..].
  assert (c = line_cmd demo_tree) as -> by (vm_compute in E; injection E as <- <- <-; reflexivity). exists b, s. split; [reflexivity|exact H].
Defined.

Lemma parsecmd_strings_witness : exists c b s, parsecmd demo_line (mkSh 0 0) = Ret ((c, b), s) /\
  strings c = [(0, 1); (3, 4); (6, 7); (8, 9); (11, 12); (17, 18)]%nat /\ cstring b 17 = [102] /\
  Forall (fun w => (w.1 < w.2)%nat /\ cstring b w.1 = take (w.2 - w.1) (drop w.1 demo_line) /\ forall i c, (w.1 <= i < w.2)%nat -> demo_line !! i = Some c -> is_word c = true) (strings c).
Proof.
  destruct (parsecmd demo_line (mkSh 0 0)) as [[[c b] s]| | |] eqn:E; [|vm_compute in E; discriminate E..]. exists c, b, s.
  pose proof (proj2 (parsecmd_strings demo_line c b s demo_nul E)) as H. split; [reflexivity|]. split; [vm_compute in E; injection E as <- <- <-; reflexivity|]. split; [|exact H].
  vm_compute in E; injection E as <- <- <-; reflexivity.
Defined.

Lemma runcmd_wires_witness : exists c b s, parsecmd demo_line (mkSh 0 0) = Ret ((c, b), s) /\
  execs (runcmd (fun _ _ => true) (fun _ => true) (fun _ => true) c [] (std 2 (HStd 0) (HStd 1) (HStd 2))) = wired (HStd 2) 2 <$> programs c [] (HStd 0) (HStd 1) /\
  wired (HStd 2) 2 <$> programs c [] (HStd 0) (HStd 1) =
    [([(0, 1)], std 2 (HFile (3, 4) SH_RDONLY) (HWrite []) (HStd 2)); ([(6, 7); (8, 9)], std 2 (HRead []) (HFile (17, 18) SH_WRONLY_CREAT) (HStd 2));
     ([(11, 12)], std 2 (HRead []) (HFile (17, 18) SH_WRONLY_CREAT) (HStd 2))]%nat.
Proof.
  destruct (parsecmd demo_line (mkSh 0 0)) as [[[c b] s]| | |] eqn:E; [|vm_compute in E; discriminate E..]. exists c, b, s.
  pose proof (proj2 (runcmd_wires demo_line c b s (fun _ _ => true) (fun _ => true) (fun _ => true) (HStd 0) (HStd 1) (HStd 2) 0 demo_nul E)) as H.
  split; [reflexivity|]. split; [apply H; reflexivity|]. vm_compute in E; injection E as <- <- <-; reflexivity.
Defined.
