(* ===== verification/FsDefs.v ===== *)
(** * On-disk structures: [fs/defines.h]

    The constants of the disk format, the structures stored in blocks, and the
    byte encoding of the log header. *)

From Stdlib Require Import ZArith Lia.
From stdpp Require Import base tactics numbers gmap list.
From S2P Require Import Prelude.

Local Open Scope Z_scope.

Definition BLOCK_SIZE : Z := 512.

(** [LOG_MAX_SIZE]: [(BLOCK_SIZE - sizeof(usize)) / sizeof(usize)]. *)
Definition LOG_MAX_SIZE : Z := (BLOCK_SIZE - 8) / 8.
(** Of [cache.h]: the blocks one operation may log. *)
Definition OP_MAX_NUM_BLOCKS : Z := 10.

Definition INODE_NUM_DIRECT : Z := 12.
Definition INODE_NUM_INDIRECT : Z := BLOCK_SIZE / 4.
Definition INODE_PER_BLOCK : Z := BLOCK_SIZE / 64.
Definition INODE_MAX_BLOCKS : Z := INODE_NUM_DIRECT + INODE_NUM_INDIRECT.
Definition INODE_MAX_BYTES : Z := INODE_MAX_BLOCKS * BLOCK_SIZE.

Definition FILE_NAME_MAX_LENGTH : Z := 14.

Definition INODE_INVALID : Z := 0.
Definition INODE_DIRECTORY : Z := 1.
Definition INODE_REGULAR : Z := 2.
Definition INODE_DEVICE : Z := 3.

Definition ROOT_INODE_NO : Z := 1.
Definition BIT_PER_BLOCK : Z := BLOCK_SIZE * 8.

(** [SuperBlock]. *)
Record SuperBlock : Type := mkSuperBlock {
  sb_num_blocks : Z;
  sb_num_data_blocks : Z;
  sb_num_inodes : Z;
  sb_num_log_blocks : Z;
  sb_log_start : Z;
  sb_inode_start : Z;
  sb_bitmap_start : Z }.

(** [InodeEntry]. *)
Record InodeEntry : Type := mkEntry {
  ie_type : Z;
  ie_major : Z;
  ie_minor : Z;
  ie_num_links : Z;
  ie_num_bytes : Z;
  ie_addrs : list Z;
  ie_indirect : Z }.

(** [DirEntry]. *)
Record DirEntry : Type := mkDirEntry {
  de_inode_no : Z;
  de_name : list Z }.

(** [LogHeader]: the number of logged blocks and their home block numbers. *)
Record LogHeader : Type := mkLogHeader {
  hd_num_blocks : Z;
  hd_block_no : list Z }.

(** The home block numbers as bytes, eight per entry. *)
Definition u64s_bytes (l : list Z) : list Z := l ≫= le_bytes 8.

(** [n] consecutive [u64] of a buffer. *)
Fixpoint bytes_u64s (n : nat) (buf : list Z) : list Z :=
  match n with
  | O => []
  | S n' => le_val (take 8 buf) :: bytes_u64s n' (drop 8 buf)
  end.

(** [(u8 * )&header] as written to the device, and a header read back from it. *)
Definition header_bytes (h : LogHeader) : list Z :=
  le_bytes 8 (hd_num_blocks h) ++ u64s_bytes (hd_block_no h).
Definition header_of_bytes (buf : list Z) : LogHeader :=
  mkLogHeader (le_val (take 8 buf)) (bytes_u64s (Z.to_nat LOG_MAX_SIZE) (drop 8 buf)).

(** Arrays of [k]-byte integers. *)
Definition ints_bytes (k : nat) (l : list Z) : list Z := l ≫= le_bytes k.
Fixpoint bytes_ints (k n : nat) (buf : list Z) : list Z :=
  match n with
  | O => []
  | S n' => le_val (take k buf) :: bytes_ints k n' (drop k buf)
  end.

(** The 64 bytes of an inode on disk, field by field, and the inode read back. *)
Definition entry_bytes (e : InodeEntry) : list Z :=
  le_bytes 2 (ie_type e) ++ le_bytes 2 (ie_major e) ++ le_bytes 2 (ie_minor e) ++ le_bytes 2 (ie_num_links e) ++
  le_bytes 4 (ie_num_bytes e) ++ ints_bytes 4 (ie_addrs e) ++ le_bytes 4 (ie_indirect e).
Definition entry_of_bytes (b : list Z) : InodeEntry :=
  mkEntry (read_le 2 0 b) (read_le 2 2 b) (read_le 2 4 b) (read_le 2 6 b) (read_le 4 8 b)
    (bytes_ints 4 12 (drop 12 b)) (read_le 4 60 b).

(** The 16 bytes of a directory entry. *)
Definition dirent_bytes (d : DirEntry) : list Z := le_bytes 2 (de_inode_no d) ++ de_name d.
Definition dirent_of_bytes (b : list Z) : DirEntry := mkDirEntry (read_le 2 0 b) (drop 2 b).

(** ** Encoding lemmas *)

Definition is_u64 (z : Z) : Prop := 0 <= z < 2 ^ 64.

Lemma le_val_bytes8 z : is_u64 z -> le_val (le_bytes 8 z) = z.
Proof. intros H. apply le_val_bytes. exact H. Qed.

Lemma length_u64s_bytes l : length (u64s_bytes l) = (8 * length l)%nat.
Proof.
  induction l as [|x l IH]; [done|]. change (u64s_bytes (x :: l)) with (le_bytes 8 x ++ u64s_bytes l).
  rewrite length_app, length_le_bytes, IH. cbn. lia.
Qed.

Lemma bytes_u64s_bytes l : Forall is_u64 l -> bytes_u64s (length l) (u64s_bytes l) = l.
Proof.
  induction 1 as [|x l Hx _ IH]; [done|].
  change (u64s_bytes (x :: l)) with (le_bytes 8 x ++ u64s_bytes l).
  cbn [length bytes_u64s]. rewrite take_app_length' by (by rewrite length_le_bytes).
  rewrite drop_app_length' by (by rewrite length_le_bytes). by rewrite IH, le_val_bytes8.
Qed.

Lemma length_bytes_u64s n buf : length (bytes_u64s n buf) = n.
Proof. revert buf. induction n as [|n IH]; intros buf; cbn; [done|]. by rewrite IH. Qed.

Lemma bytes_u64s_u64 n buf : Forall is_byte buf -> Forall is_u64 (bytes_u64s n buf).
Proof.
  revert buf. induction n as [|n IH]; intros buf H; cbn [bytes_u64s]; constructor.
  - pose proof (le_val_range (take 8 buf) (Forall_take _ _ _ H)) as Hr.
    assert (256 ^ Z.of_nat (length (take 8 buf)) <= 256 ^ 8) as Hp.
    { apply Z.pow_le_mono_r; [lia|]. rewrite length_take. lia. }
    change (256 ^ 8) with (2 ^ 64) in Hp. unfold is_u64. lia.
  - by apply IH, Forall_drop.
Qed.

Lemma u64s_bytes_is_byte l : Forall is_byte (u64s_bytes l).
Proof.
  induction l as [|x l IH]; [constructor|]. change (u64s_bytes (x :: l)) with (le_bytes 8 x ++ u64s_bytes l).
  apply Forall_app. split; [apply le_bytes_is_byte|done].
Qed.

Lemma header_roundtrip h :
  is_u64 (hd_num_blocks h) -> Forall is_u64 (hd_block_no h) ->
  length (hd_block_no h) = Z.to_nat LOG_MAX_SIZE -> header_of_bytes (header_bytes h) = h.
Proof.
  intros Hn Hb Hl. destruct h as [n l]. unfold header_of_bytes, header_bytes. cbn [hd_num_blocks hd_block_no] in *.
  rewrite take_app_length' by (by rewrite length_le_bytes).
  rewrite drop_app_length' by (by rewrite length_le_bytes).
  by rewrite <-Hl, bytes_u64s_bytes, le_val_bytes8.
Qed.

Lemma length_header_bytes h :
  length (hd_block_no h) = Z.to_nat LOG_MAX_SIZE -> length (header_bytes h) = Z.to_nat BLOCK_SIZE.
Proof.
  intros Hl. unfold header_bytes. rewrite length_app, length_le_bytes, length_u64s_bytes, Hl. done.
Qed.


Lemma length_ints_bytes k l : length (ints_bytes k l) = (k * length l)%nat.
Proof.
  induction l as [|x l IH]; [cbn; lia|]. change (ints_bytes k (x :: l)) with (le_bytes k x ++ ints_bytes k l).
  rewrite length_app, length_le_bytes, IH. cbn. lia.
Qed.

Lemma bytes_ints_bytes k l rest :
  Forall (fun x => 0 <= x < 256 ^ Z.of_nat k) l -> bytes_ints k (length l) (ints_bytes k l ++ rest) = l.
Proof.
  induction 1 as [|x l Hx _ IH]; [done|]. change (ints_bytes k (x :: l)) with (le_bytes k x ++ ints_bytes k l).
  cbn [length bytes_ints]. rewrite <-app_assoc, take_app_length', drop_app_length' by (by rewrite length_le_bytes).
  by rewrite IH, le_val_bytes.
Qed.

Lemma length_bytes_ints k n buf : length (bytes_ints k n buf) = n.
Proof. revert buf. induction n as [|n IH]; intros buf; cbn; [done|]. by rewrite IH. Qed.

Lemma bytes_ints_lookup k n buf i : (i < n)%nat -> bytes_ints k n buf !! i = Some (read_le k (i * k) buf).
Proof.
  revert n buf. induction i as [|i IH]; intros [|n] buf Hi; try lia; cbn [bytes_ints]; [done|].
  change ((le_val (take k buf) :: bytes_ints k n (drop k buf)) !! S i) with (bytes_ints k n (drop k buf) !! i).
  rewrite IH by lia. unfold read_le. rewrite drop_drop. do 4 f_equal. 
Qed.

Lemma read_le_app_skip n off l1 l2 : read_le n (length l1 + off) (l1 ++ l2) = read_le n off l2.
Proof. unfold read_le. by rewrite drop_app_add. Qed.

Lemma read_le_app_here n l1 l2 : length l1 = n -> read_le n 0 (l1 ++ l2) = le_val l1.
Proof. intros <-. unfold read_le. rewrite drop_0. by rewrite take_app_length. Qed.

(** The fields of an inode fit their types. *)
Record entry_ok (e : InodeEntry) : Prop := {
  eo_type : 0 <= ie_type e < 2 ^ 16;
  eo_major : 0 <= ie_major e < 2 ^ 16;
  eo_minor : 0 <= ie_minor e < 2 ^ 16;
  eo_num_links : 0 <= ie_num_links e < 2 ^ 16;
  eo_num_bytes : 0 <= ie_num_bytes e < 2 ^ 32;
  eo_addrs : Forall (fun a => 0 <= a < 2 ^ 32) (ie_addrs e);
  eo_len : length (ie_addrs e) = Z.to_nat INODE_NUM_DIRECT;
  eo_indirect : 0 <= ie_indirect e < 2 ^ 32 }.

Lemma length_entry_bytes e : length (ie_addrs e) = Z.to_nat INODE_NUM_DIRECT -> length (entry_bytes e) = 64%nat.
Proof. intros H. unfold entry_bytes. rewrite !length_app, !length_le_bytes, length_ints_bytes, H. done. Qed.

Lemma entry_bytes_is_byte e : Forall is_byte (entry_bytes e).
Proof.
  unfold entry_bytes. rewrite !Forall_app. split_and!; try apply le_bytes_is_byte.
  induction (ie_addrs e) as [|x l IH]; [constructor|]. change (ints_bytes 4 (x :: l)) with (le_bytes 4 x ++ ints_bytes 4 l).
  apply Forall_app. split; [apply le_bytes_is_byte|done].
Qed.

Lemma entry_roundtrip e rest : entry_ok e -> entry_of_bytes (entry_bytes e ++ rest) = e.
Proof.
  intros []. destruct e as [t ma mi nl nb ad ind]. unfold entry_bytes, entry_of_bytes.
  cbn [ie_type ie_major ie_minor ie_num_links ie_num_bytes ie_addrs ie_indirect] in *. rewrite <-!app_assoc.
  pose proof (length_le_bytes 2 t) as Lt. pose proof (length_le_bytes 2 ma) as Lma. pose proof (length_le_bytes 2 mi) as Lmi.
  pose proof (length_le_bytes 2 nl) as Lnl. pose proof (length_le_bytes 4 nb) as Lnb.
  pose proof (length_ints_bytes 4 ad) as Lad. rewrite eo_len0 in Lad. change (4 * Z.to_nat INODE_NUM_DIRECT)%nat with 48%nat in Lad.
  assert (forall n k l1 l2, length l1 = k -> forall off, read_le n (k + off) (l1 ++ l2) = read_le n off l2) as Hskip.
  { intros n k l1 l2 <- off. apply read_le_app_skip. }
  f_equal.
  - rewrite read_le_app_here, le_val_bytes by (done || lia). done.
  - rewrite (Hskip 2%nat 2%nat _ _ Lt 0%nat), read_le_app_here, le_val_bytes by (done || lia). done.
  - rewrite (Hskip 2%nat 2%nat _ _ Lt 2%nat), (Hskip 2%nat 2%nat _ _ Lma 0%nat), read_le_app_here, le_val_bytes by (done || lia). done.
  - rewrite (Hskip 2%nat 2%nat _ _ Lt 4%nat), (Hskip 2%nat 2%nat _ _ Lma 2%nat), (Hskip 2%nat 2%nat _ _ Lmi 0%nat),
      read_le_app_here, le_val_bytes by (done || lia). done.
  - rewrite (Hskip 4%nat 2%nat _ _ Lt 6%nat), (Hskip 4%nat 2%nat _ _ Lma 4%nat), (Hskip 4%nat 2%nat _ _ Lmi 2%nat),
      (Hskip 4%nat 2%nat _ _ Lnl 0%nat), read_le_app_here, le_val_bytes by (done || lia). done.
  - rewrite !app_assoc. rewrite <-(app_assoc _ _ rest). rewrite <-(app_assoc _ (ints_bytes 4 ad)).
    rewrite drop_app_length' by (rewrite !length_app, Lt, Lma, Lmi, Lnl, Lnb; done).
    change 12%nat with (Z.to_nat INODE_NUM_DIRECT). rewrite <-eo_len0. by apply bytes_ints_bytes.
  - rewrite (Hskip 4%nat 2%nat _ _ Lt 58%nat), (Hskip 4%nat 2%nat _ _ Lma 56%nat), (Hskip 4%nat 2%nat _ _ Lmi 54%nat),
      (Hskip 4%nat 2%nat _ _ Lnl 52%nat), (Hskip 4%nat 4%nat _ _ Lnb 48%nat), (Hskip 4%nat 48%nat _ _ Lad 0%nat),
      read_le_app_here, le_val_bytes by (done || lia). done.
Qed.
