(* ===== verification/Strings.v ===== *)
(** * Bytes and strings in memory: [common/string.c]

    Memory maps addresses to bytes; an access to an address that is not mapped
    is undefined behaviour.  [char] is unsigned on AArch64.  The loops count
    down a [usize], so their number of turns is known when they start; only
    [strlen] has none, and takes the number of bytes it may read as fuel. *)

From Stdlib Require Import ZArith Lia.
From stdpp Require Import base tactics numbers gmap list.
From S2P Require Import Prelude.

Local Open Scope Z_scope.

Abbreviation memory := (gmap Z Z).
Abbreviation MM := (M memory).

Definition load (a : Z) : MM Z := fun m => some_or_ub (m !! a) m.
Definition store (a v : Z) : MM unit := load a;; modify <[a := v]>.

(** ** The functions *)

Fixpoint memset_loop (n : nat) (s c : Z) : MM unit :=
  match n with
  | O => mret tt
  | S n' => store s (u8 (Z.land c 255));; memset_loop n' (s + 1) c
  end.
Definition memset (s c n : Z) : MM Z := memset_loop (Z.to_nat n) s c;; mret s.

(** The copying loops with ascending and with descending addresses; the latter
    gets the ends of the two ranges. *)
Fixpoint copy_up (n : nat) (d s : Z) : MM unit :=
  match n with
  | O => mret tt
  | S n' => c ← load s; store d c;; copy_up n' (d + 1) (s + 1)
  end.
Fixpoint copy_down (n : nat) (d s : Z) : MM unit :=
  match n with
  | O => mret tt
  | S n' => c ← load (s - 1); store (d - 1) c;; copy_down n' (d - 1) (s - 1)
  end.

Definition memcpy (dest src n : Z) : MM Z := copy_up (Z.to_nat n) dest src;; mret dest.

Definition memmove (dest src n : Z) : MM Z :=
  (if (src <? dest) && (dest - src <? n)
   then copy_down (Z.to_nat n) (dest + n) (src + n)
   else copy_up (Z.to_nat n) dest src);;
  mret dest.

Fixpoint memcmp_loop (n : nat) (s1 s2 : Z) : MM Z :=
  match n with
  | O => mret 0
  | S n' =>
      c1 ← load s1; c2 ← load s2;
      if negb (c1 =? c2) then mret (c1 - c2) else memcmp_loop n' (s1 + 1) (s2 + 1)
  end.
Definition memcmp (s1 s2 n : Z) : MM Z := memcmp_loop (Z.to_nat n) s1 s2.

(** The first loop of [strncpy] and [strncpy_fast]: it copies up to the
    terminator and returns the number of turns left. *)
Fixpoint strncpy_copy (n : nat) (d s : Z) : MM nat :=
  match n with
  | O => mret O
  | S n' =>
      c ← load s;
      if c =? 0 then mret n else store d c;; strncpy_copy n' (d + 1) (s + 1)
  end.
Definition strncpy (dest src n : Z) : MM Z :=
  left ← strncpy_copy (Z.to_nat n) dest src;
  memset_loop left (dest + (n - Z.of_nat left)) 0;;
  mret dest.
Definition strncpy_fast (dest src n : Z) : MM Z :=
  left ← strncpy_copy (Z.to_nat n) dest src;
  (if (0 <? left)%nat then store (dest + (n - Z.of_nat left)) 0 else mret tt);;
  mret dest.

Fixpoint strncmp_loop (n : nat) (s1 s2 : Z) : MM Z :=
  match n with
  | O => mret 0
  | S n' =>
      c1 ← load s1; c2 ← load s2;
      if negb (c1 =? c2) then mret (c1 - c2) else
      if (c1 =? 0) || (c2 =? 0) then mret 0 else strncmp_loop n' (s1 + 1) (s2 + 1)
  end.
Definition strncmp (s1 s2 n : Z) : MM Z := strncmp_loop (Z.to_nat n) s1 s2.

Fixpoint strlen_loop (fuel : nat) (s i : Z) : MM Z :=
  match fuel with
  | O => block
  | S fuel' =>
      c ← load (s + i);
      if c =? 0 then mret i else strlen_loop fuel' s (u64 (i + 1))
  end.
Definition strlen (fuel : nat) (s : Z) : MM Z := strlen_loop fuel s 0.

(** ** The same on buffers

    What the functions compute for a caller that passes pointers to the start of
    the buffers [a] and [b]; nothing when they would read beyond a buffer. *)

Fixpoint buf_strlen (a : list Z) : option Z :=
  match a with
  | [] => None
  | c :: a' => if c =? 0 then Some 0 else n ← buf_strlen a'; Some (n + 1)
  end.

Fixpoint buf_memcmp (a b : list Z) (n : nat) {struct n} : option Z :=
  match n, a, b with
  | O, _, _ => Some 0
  | S n', c1 :: a', c2 :: b' => if negb (c1 =? c2) then Some (c1 - c2) else buf_memcmp a' b' n'
  | S _, _, _ => None
  end.

(** The [n] bytes that [strncpy] stores. *)
Fixpoint buf_strncpy (a : list Z) (n : nat) {struct n} : option (list Z) :=
  match n, a with
  | O, _ => Some []
  | S n', [] => None
  | S n', c :: a' => if c =? 0 then Some (replicate n 0) else l ← buf_strncpy a' n'; Some (c :: l)
  end.

Fixpoint buf_strncmp (a b : list Z) (n : nat) {struct n} : option Z :=
  match n, a, b with
  | O, _, _ => Some 0
  | S n', c1 :: a', c2 :: b' =>
      if negb (c1 =? c2) then Some (c1 - c2) else
      if (c1 =? 0) || (c2 =? 0) then Some 0 else buf_strncmp a' b' n'
  | S _, _, _ => None
  end.

(** ** Regions *)

(** The bytes [l] are stored from address [a] on. *)
Definition bytes_at (m : memory) (a : Z) (l : list Z) : Prop :=
  forall i x, l !! i = Some x -> m !! (a + Z.of_nat i) = Some x.

(** Memory agrees outside the [n] bytes from [a] on. *)
Definition same_beyond (a n : Z) (m m' : memory) : Prop :=
  forall b, ~ (a <= b < a + n) -> m' !! b = m !! b.

Definition mapped (m : memory) (a n : Z) : Prop := forall b, a <= b < a + n -> is_Some (m !! b).

Lemma bytes_at_cons m a x l : bytes_at m a (x :: l) <-> m !! a = Some x /\ bytes_at m (a + 1) l.
Proof.
  unfold bytes_at. split.
  - intros H. split; [rewrite <-(Z.add_0_r a); by apply (H O)|]. intros i y Hi.
    replace (a + 1 + Z.of_nat i) with (a + Z.of_nat (S i)) by lia. by apply H.
  - intros [H1 H2] [|i] y Hi; cbn in Hi; simplify_eq; [by rewrite Z.add_0_r|].
    replace (a + Z.of_nat (S i)) with (a + 1 + Z.of_nat i) by lia. by apply H2.
Qed.

Lemma bytes_at_lookup m a l b : bytes_at m a l -> a <= b < a + Z.of_nat (length l) ->
  m !! b = l !! Z.to_nat (b - a).
Proof.
  intros H Hb. destruct (proj2 (lookup_lt_is_Some l (Z.to_nat (b - a)))) as [x Hx]; [lia|].
  rewrite Hx, <-(H _ _ Hx). f_equal. lia.
Qed.

Lemma bytes_at_mapped m a l : bytes_at m a l -> mapped m a (Z.of_nat (length l)).
Proof.
  intros H b Hb. rewrite (bytes_at_lookup m a l b) by done. apply lookup_lt_is_Some. lia.
Qed.

Lemma wp_load a x (Q : Z -> memory -> Prop) m : m !! a = Some x -> Q x m -> wp (load a) Q m.
Proof. intros H HQ. unfold load, wp, some_or_ub. by rewrite H. Qed.

Lemma wp_store a v (Q : unit -> memory -> Prop) m : is_Some (m !! a) -> Q tt (<[a := v]> m) -> wp (store a v) Q m.
Proof. intros [x Hx] HQ. unfold store. wp_prim. by eapply wp_load. Qed.

Lemma mapped_insert m a n b v : mapped m a n -> mapped (<[b := v]> m) a n.
Proof. intros H c Hc. rewrite lookup_insert. case_decide; [eauto|by apply H]. Qed.

(** ** Copying *)

(** What a copy of [n] bytes does, as a function of the old memory. *)
Definition copied (d s : Z) (n : nat) (m m' : memory) : Prop :=
  (forall i, 0 <= i < Z.of_nat n -> m' !! (d + i) = m !! (s + i)) /\ same_beyond d (Z.of_nat n) m m'.

(** Ascending copies are right when the destination does not start inside the
    source, descending ones when the source does not start inside the destination. *)
Lemma copy_up_wp n d s m :
  mapped m d (Z.of_nat n) -> mapped m s (Z.of_nat n) -> ~ (s < d < s + Z.of_nat n) ->
  wp (copy_up n d s) (fun _ m' => copied d s n m m') m.
Proof.
  revert d s m. induction n as [|n IH]; intros d s m Hd Hs Hov; cbn [copy_up].
  { wp_prim. split; [lia|]. done. }
  destruct (Hs s) as [x Hx]; [lia|]. wp_prim. eapply wp_load; [done|].
  wp_prim. apply wp_store; [apply Hd; lia|]. eapply wp_mono; [apply IH|].
  - intros b Hb. apply mapped_insert with (n := Z.of_nat (S n)) (a := d); [done|lia].
  - intros b Hb. apply mapped_insert with (n := Z.of_nat (S n)) (a := s); [done|lia].
  - lia.
  - intros _ m' [H1 H2]. split.
    + intros i Hi. destruct (Z.eq_dec i 0) as [->|Hne].
      * rewrite H2 by lia. by rewrite Z.add_0_r, lookup_insert_eq, Z.add_0_r.
      * replace (d + i) with (d + 1 + (i - 1)) by lia. rewrite H1 by lia.
        rewrite lookup_insert_ne by lia. f_equal. lia.
    + intros b Hb. rewrite H2 by lia. by rewrite lookup_insert_ne by lia.
Qed.

Lemma copy_down_wp n d s m :
  mapped m d (Z.of_nat n) -> mapped m s (Z.of_nat n) -> ~ (d < s < d + Z.of_nat n) ->
  wp (copy_down n (d + Z.of_nat n) (s + Z.of_nat n)) (fun _ m' => copied d s n m m') m.
Proof.
  revert m. induction n as [|n IH]; intros m Hd Hs Hov; cbn [copy_down].
  { wp_prim. split; [lia|]. done. }
  replace (s + Z.of_nat (S n) - 1) with (s + Z.of_nat n) by lia.
  replace (d + Z.of_nat (S n) - 1) with (d + Z.of_nat n) by lia.
  destruct (Hs (s + Z.of_nat n)) as [x Hx]; [lia|]. wp_prim. eapply wp_load; [done|].
  wp_prim. apply wp_store; [apply Hd; lia|]. eapply wp_mono; [apply IH|].
  - intros b Hb. apply mapped_insert with (n := Z.of_nat (S n)) (a := d); [done|lia].
  - intros b Hb. apply mapped_insert with (n := Z.of_nat (S n)) (a := s); [done|lia].
  - lia.
  - intros _ m' [H1 H2]. split.
    + intros i Hi. destruct (Z.eq_dec i (Z.of_nat n)) as [->|Hne].
      * rewrite H2 by lia. by rewrite lookup_insert_eq.
      * rewrite H1 by lia. by rewrite lookup_insert_ne by lia.
    + intros b Hb. rewrite H2 by lia. by rewrite lookup_insert_ne by lia.
Qed.

Lemma copied_bytes d s l m m' :
  bytes_at m s l -> copied d s (length l) m m' -> bytes_at m' d l.
Proof.
  intros Hl [H _] i x Hx. pose proof (lookup_lt_Some _ _ _ Hx). rewrite H by lia. by apply Hl.
Qed.

(** ** Strings *)

(** The string in a buffer of at most [n] bytes: up to the first NUL. *)
Fixpoint cut (n : nat) (l : list Z) : list Z :=
  match n, l with
  | S n', x :: l' => if x =? 0 then [] else x :: cut n' l'
  | _, _ => []
  end.

(** The buffer has a NUL, or at least [n] bytes. *)
Fixpoint cstring (n : nat) (l : list Z) : Prop :=
  match n, l with
  | O, _ => True
  | S n', x :: l' => x = 0 \/ cstring n' l'
  | S _, [] => False
  end.

Lemma strncmp_loop_run n s1 s2 l1 l2 m :
  bytes_at m s1 l1 -> bytes_at m s2 l2 -> cstring n l1 -> cstring n l2 ->
  exists r, strncmp_loop n s1 s2 m = Ret (r, m) /\ (r = 0 <-> cut n l1 = cut n l2).
Proof.
  revert s1 s2 l1 l2. induction n as [|n IH]; intros s1 s2 l1 l2 H1 H2 C1 C2; cbn [strncmp_loop].
  { exists 0. by destruct l1, l2. }
  destruct l1 as [|x l1], l2 as [|y l2]; try done.
  apply bytes_at_cons in H1 as [Hx H1], H2 as [Hy H2]. cbn [cut].
  unfold load, some_or_ub, mbind, M_bind. rewrite Hx. cbn. rewrite Hy. cbn.
  destruct (Z.eqb_spec x y) as [->|Hne]; cbn.
  - destruct (Z.eqb_spec y 0) as [->|Hy0]; cbn; [by exists 0|].
    destruct C1 as [?|C1], C2 as [?|C2]; [done..|].
    destruct (IH (s1 + 1) (s2 + 1) l1 l2 H1 H2 C1 C2) as (r & Hr & Heq). exists r. split; [exact Hr|].
    rewrite Heq. split; [by intros ->|by intros [=]].
  - exists (x - y). split; [done|]. destruct (Z.eqb_spec x 0), (Z.eqb_spec y 0); split; intros; simplify_eq; lia.
Qed.

Lemma memset_loop_wp n s c m :
  mapped m s (Z.of_nat n) ->
  wp (memset_loop n s c) (fun _ m' => bytes_at m' s (replicate n (u8 (Z.land c 255))) /\ same_beyond s (Z.of_nat n) m m') m.
Proof.
  revert s m. induction n as [|n IH]; intros s m Hs; cbn [memset_loop].
  { wp_prim. split; [intros i x Hi; by rewrite lookup_replicate in Hi; destruct Hi; lia|done]. }
  wp_prim. apply wp_store; [apply Hs; lia|]. eapply wp_mono; [apply IH|].
  { intros b Hb. apply mapped_insert with (n := Z.of_nat (S n)) (a := s); [done|lia]. }
  intros _ m' [H1 H2]. split.
  - cbn [replicate]. apply bytes_at_cons. split; [|done]. rewrite H2 by lia. by rewrite lookup_insert_eq.
  - intros b Hb. rewrite H2 by lia. by rewrite lookup_insert_ne by lia.
Qed.

Lemma bytes_at_app m a l1 l2 :
  bytes_at m a l1 -> bytes_at m (a + Z.of_nat (length l1)) l2 -> bytes_at m a (l1 ++ l2).
Proof.
  intros H1 H2 i x Hi. apply lookup_app_Some in Hi as [Hi|[Hlen Hi]]; [by apply H1|].
  rewrite <-(H2 _ _ Hi). f_equal. lia.
Qed.

Lemma bytes_at_frame m m' a l b n :
  bytes_at m a l -> same_beyond b n m m' -> (a + Z.of_nat (length l) <= b \/ b + n <= a) -> bytes_at m' a l.
Proof.
  intros H Hs Hd i x Hi. pose proof (lookup_lt_Some _ _ _ Hi). rewrite Hs by lia. by apply H.
Qed.

(** The copying loop of [strncpy], for a source outside the destination. *)
Lemma strncpy_copy_wp n d s l m :
  bytes_at m s l -> cstring n l -> mapped m d (Z.of_nat n) ->
  (d + Z.of_nat n <= s \/ s + Z.of_nat (length l) <= d) ->
  wp (strncpy_copy n d s) (fun left m' => (left + length (cut n l) = n)%nat /\ bytes_at m' d (cut n l) /\
    same_beyond d (Z.of_nat (length (cut n l))) m m' /\ mapped m' d (Z.of_nat n)) m.
Proof.
  revert d s l m. induction n as [|n IH]; intros d s l m Hl C Hd Hov; cbn [strncpy_copy].
  { wp_prim. cbn. split_and!; [lia|intros i x Hi; by rewrite lookup_nil in Hi|done|done]. }
  destruct l as [|x l]; [done|]. apply bytes_at_cons in Hl as [Hx Hl]. cbn [cut length] in *.
  wp_prim. eapply wp_load; [done|]. destruct (Z.eqb_spec x 0) as [->|Hx0].
  { wp_prim. cbn. split_and!; [lia|intros i y Hi; by rewrite lookup_nil in Hi|done|done]. }
  destruct C as [?|C]; [done|]. wp_prim. apply wp_store; [apply Hd; lia|].
  eapply wp_mono; [apply (IH (d + 1) (s + 1) l)|].
  - intros i y Hi. pose proof (lookup_lt_Some _ _ _ Hi). rewrite lookup_insert_ne by lia. by apply Hl.
  - done.
  - intros b Hb. apply mapped_insert with (n := Z.of_nat (S n)) (a := d); [done|lia].
  - lia.
  - intros left m' (H1 & H2 & H3 & H4). cbn [length]. split_and!.
    + lia.
    + apply bytes_at_cons. split; [|done]. rewrite H3 by lia. by rewrite lookup_insert_eq.
    + intros b Hb. rewrite H3 by lia. by rewrite lookup_insert_ne by lia.
    + intros b Hb. destruct (Z.eq_dec b d) as [->|]; [|apply H4; lia]. rewrite H3 by lia. rewrite lookup_insert_eq. eauto.
Qed.

Lemma strlen_loop_run fuel s l m i :
  bytes_at m (s + i) l -> cstring fuel l -> (length (cut fuel l) < fuel)%nat -> 0 <= i ->
  i + Z.of_nat fuel < 2 ^ 64 ->
  strlen_loop fuel s i m = Ret (i + Z.of_nat (length (cut fuel l)), m).
Proof.
  revert i l. induction fuel as [|fuel IH]; intros i l Hl C Hf Hi Hb; [cbn in Hf; lia|].
  destruct l as [|x l]; [done|]. apply bytes_at_cons in Hl as [Hx Hl]. cbn [strlen_loop cut length] in *.
  rewrite (bind_ret _ _ m x m) by (unfold load, some_or_ub; by rewrite Hx).
  destruct (Z.eqb_spec x 0) as [->|Hx0]; [cbn; by rewrite Z.add_0_r|].
  destruct C as [?|C]; [done|]. rewrite u64_small by lia. cbn [length] in Hf |- *.
  rewrite (IH (i + 1) l); [f_equal; f_equal; lia| |done|lia|lia|lia]. by rewrite Z.add_assoc.
Qed.

(** The functions on buffers give what the functions on memory compute. *)
Lemma buf_memcmp_run n s1 s2 a b r m :
  bytes_at m s1 a -> bytes_at m s2 b -> buf_memcmp a b n = Some r -> memcmp_loop n s1 s2 m = Ret (r, m).
Proof.
  revert s1 s2 a b. induction n as [|n IH]; intros s1 s2 a b Ha Hb H; cbn [memcmp_loop buf_memcmp] in *; [by simplify_eq|].
  destruct a as [|x a], b as [|y b]; try done. apply bytes_at_cons in Ha as [Hx Ha], Hb as [Hy Hb].
  rewrite (bind_ret (load s1) _ m x m) by (unfold load; by rewrite Hx).
  rewrite (bind_ret (load s2) _ m y m) by (unfold load; by rewrite Hy).
  destruct (negb (x =? y)); [by simplify_eq|by eapply IH].
Qed.

Lemma buf_strncmp_run n s1 s2 a b r m :
  bytes_at m s1 a -> bytes_at m s2 b -> buf_strncmp a b n = Some r -> strncmp_loop n s1 s2 m = Ret (r, m).
Proof.
  revert s1 s2 a b. induction n as [|n IH]; intros s1 s2 a b Ha Hb H; cbn [strncmp_loop buf_strncmp] in *; [by simplify_eq|].
  destruct a as [|x a], b as [|y b]; try done. apply bytes_at_cons in Ha as [Hx Ha], Hb as [Hy Hb].
  rewrite (bind_ret (load s1) _ m x m) by (unfold load; by rewrite Hx).
  rewrite (bind_ret (load s2) _ m y m) by (unfold load; by rewrite Hy).
  destruct (negb (x =? y)); [by simplify_eq|]. destruct ((x =? 0) || (y =? 0)); [by simplify_eq|by eapply IH].
Qed.

Lemma buf_strlen_range a n : buf_strlen a = Some n -> 0 <= n < Z.of_nat (length a).
Proof.
  revert n. induction a as [|c a IH]; intros n H; cbn [buf_strlen length] in *; [done|].
  destruct (c =? 0); [simplify_eq; lia|]. destruct (buf_strlen a) as [k|]; [|done]. cbn in H. simplify_eq.
  specialize (IH k eq_refl). lia.
Qed.

Lemma buf_strlen_run fuel s a n i m :
  bytes_at m (s + i) a -> buf_strlen a = Some n -> n < Z.of_nat fuel -> 0 <= i -> i + Z.of_nat fuel < 2 ^ 64 ->
  strlen_loop fuel s i m = Ret (i + n, m).
Proof.
  revert i a n. induction fuel as [|fuel IH]; intros i a n Ha H Hf Hi Hb; [pose proof (buf_strlen_range a n H); lia|].
  destruct a as [|x a]; [done|]. apply bytes_at_cons in Ha as [Hx Ha]. cbn [strlen_loop buf_strlen] in *.
  rewrite (bind_ret _ _ m x m) by (unfold load, some_or_ub; by rewrite Hx).
  destruct (x =? 0); [simplify_eq; by rewrite Z.add_0_r|]. destruct (buf_strlen a) as [k|] eqn:E; [|done]. cbn in H. simplify_eq.
  rewrite u64_small by lia. rewrite (IH (i + 1) a k); [f_equal; f_equal; lia| |done|lia|lia|lia]. by rewrite Z.add_assoc.
Qed.

(** ** Properties *)

(** [memmove] copies its [n] bytes correctly whether or not the ranges
    overlap, returns its destination, and changes nothing else. *)
Theorem memmove_copies dest src l m :
  bytes_at m src l -> mapped m dest (Z.of_nat (length l)) ->
  exists m', memmove dest src (Z.of_nat (length l)) m = Ret (dest, m') /\
    bytes_at m' dest l /\ same_beyond dest (Z.of_nat (length l)) m m'.
Proof.
  intros Hl Hd. pose proof (bytes_at_mapped _ _ _ Hl) as Hs.
  enough (wp (memmove dest src (Z.of_nat (length l))) (fun r m' => r = dest /\ copied dest src (length l) m m') m) as H.
  { apply wp_run in H as (r & m' & Hr & -> & Hc). exists m'. split_and!; [done|by eapply copied_bytes|apply Hc]. }
  unfold memmove. rewrite Nat2Z.id. wp_prim.
  destruct (Z.ltb_spec src dest), (Z.ltb_spec (dest - src) (Z.of_nat (length l))); cbn [andb];
    (eapply wp_mono; [(apply copy_down_wp || apply copy_up_wp); [done|done|lia]|]; intros u m1 H'; wp_prim; by split).
Qed.

(** [strncmp] of two strings returns zero exactly when they agree in their
    first [n] characters or up to the terminator, reads no byte after it, and
    changes nothing. *)
Theorem strncmp_decides s1 s2 n l1 l2 m :
  bytes_at m s1 l1 -> bytes_at m s2 l2 -> cstring (Z.to_nat n) l1 -> cstring (Z.to_nat n) l2 ->
  exists r, strncmp s1 s2 n m = Ret (r, m) /\ (r = 0 <-> cut (Z.to_nat n) l1 = cut (Z.to_nat n) l2).
Proof. apply strncmp_loop_run. Qed.

(** [strncpy] fills exactly [n] bytes: the string, cut at [n] characters,
    then NULs. *)
Theorem strncpy_pads dest src n l m :
  0 <= n -> bytes_at m src l -> cstring (Z.to_nat n) l -> mapped m dest n ->
  (dest + n <= src \/ src + Z.of_nat (length l) <= dest) ->
  exists m', strncpy dest src n m = Ret (dest, m') /\ same_beyond dest n m m' /\
    bytes_at m' dest (cut (Z.to_nat n) l ++ replicate (Z.to_nat n - length (cut (Z.to_nat n) l)) 0).
Proof.
  intros Hn Hl C Hd Hov.
  enough (wp (strncpy dest src n) (fun r m' => r = dest /\ same_beyond dest n m m' /\
    bytes_at m' dest (cut (Z.to_nat n) l ++ replicate (Z.to_nat n - length (cut (Z.to_nat n) l)) 0)) m) as H
    by (apply wp_run in H as (r & m' & Hr & -> & H); eauto).
  unfold strncpy. wp_prim. eapply wp_mono; [apply (strncpy_copy_wp _ dest src l); [done|done|by rewrite Z2Nat.id by lia|lia]|].
  intros left m1 (H1 & H2 & H3 & H4). wp_prim. eapply wp_mono; [apply memset_loop_wp|].
  { intros b Hb. apply H4. lia. }
  intros _ m2 [H5 H6]. wp_prim. split_and!; [done| |].
  - intros b Hb. rewrite H6, H3 by lia. done.
  - apply bytes_at_app; [eapply bytes_at_frame; [done|done|lia]|].
    replace (Z.to_nat n - length (cut (Z.to_nat n) l))%nat with left by lia.
    replace (dest + Z.of_nat (length (cut (Z.to_nat n) l))) with (dest + (n - Z.of_nat left)) by lia. done.
Qed.

(** ** Concrete memories *)

(** "ab", NUL, and eight more mapped bytes, from address 100 on. *)
Definition demo_memory : memory :=
  list_to_map ((fun i => (100 + i, default 0 ([97; 98] !! Z.to_nat i))) <$> seqZ 0 12).

Lemma demo_memory_bytes : bytes_at demo_memory 100 [97; 98; 0; 0].
Proof. intros [|[|[|[|i]]]] x Hx; cbn in Hx; simplify_eq; vm_compute; reflexivity. Qed.

Lemma demo_memory_mapped a n : 100 <= a -> a + n <= 112 -> mapped demo_memory a n.
Proof.
  intros Ha Hn b Hb. assert (b ∈ seqZ 100 12) as Hin by (apply elem_of_seqZ; lia).
  assert (Forall (fun b => is_Some (demo_memory !! b)) (seqZ 100 12)) as HF
    by (apply (bool_decide_unpack _); vm_compute; exact I).
  by eapply Forall_forall in HF.
Qed.

Lemma memmove_copies_witness :
  exists m', memmove 101 100 4 demo_memory = Ret (101, m') /\ bytes_at m' 101 [97; 98; 0; 0].
Proof.
  destruct (memmove_copies 101 100 [97; 98; 0; 0] demo_memory demo_memory_bytes
    ltac:(apply demo_memory_mapped; cbn; lia)) as (m' & H1 & H2 & _).
  exists m'. split; [exact H1|exact H2].
Defined.

Lemma strncmp_decides_witness : exists r, strncmp 100 100 14 demo_memory = Ret (r, demo_memory) /\ r = 0.
Proof.
  destruct (strncmp_decides 100 100 14 [97; 98; 0; 0] [97; 98; 0; 0] demo_memory demo_memory_bytes demo_memory_bytes
    ltac:(vm_compute; right; right; left; reflexivity) ltac:(vm_compute; right; right; left; reflexivity)) as (r & H1 & H2).
  exists r. split; [exact H1|]. apply H2. reflexivity.
Defined.

Lemma strncpy_pads_witness :
  exists m', strncpy 106 100 5 demo_memory = Ret (106, m') /\ bytes_at m' 106 [97; 98; 0; 0; 0].
Proof.
  destruct (strncpy_pads 106 100 5 [97; 98; 0; 0] demo_memory ltac:(lia) demo_memory_bytes ltac:(vm_compute; right; right; left; reflexivity)
    ltac:(apply demo_memory_mapped; lia) ltac:(cbn; lia)) as (m' & H1 & _ & H2).
  exists m'. split; [exact H1|exact H2].
Defined.
