(* ===== verification/Format.v ===== *)
(** * Formatted output: [common/format.c]

    [put_char] appends one character to the output, so that a call is described
    by the characters it emits.  A format string is the list of its characters
    without the terminator; reading at its end gives NUL.  The outcome [UB]
    stands for a write past the digit buffer and for a missing or mismatched
    argument. *)

From Stdlib Require Import ZArith Lia.
From stdpp Require Import base tactics numbers list strings.
From S2P Require Import Prelude.

Local Open Scope Z_scope.

(** ** Integers *)

(** [static char digit[] = "0123456789abcdef"]. *)
Definition digit : list Z := [48; 49; 50; 51; 52; 53; 54; 55; 56; 57; 97; 98; 99; 100; 101; 102].

(** The loop that fills [buf]; [room] is the number of free cells of the buffer. *)
Fixpoint print_digits (room : nat) (v base : Z) : option (list Z) :=
  match room with
  | O => None
  | S room' =>
      c ← digit !! Z.to_nat (v mod base);
      let v' := v / base in
      if v' =? 0 then Some [c] else
      rest ← print_digits room' v' base; Some (c :: rest)
  end.

(** [_print_int]: the characters it emits. *)
Definition print_int (u base : Z) (is_signed : bool) : result (list Z) :=
  let neg := is_signed && (u <? 0) in
  let v := if neg then u64 (- u64 u) else u64 u in
  match print_digits 64 v base with
  | Some buf => Ret ((if neg then [45] else []) ++ reverse buf)
  | None => UB
  end.

(** ** Formats *)

(** An argument of the call: a register with an integer, or a pointer to a
    string, which may be NULL. *)
Inductive varg : Type :=
| VInt (z : Z)
| VStr (s : option (list Z)).

(** The integer directives: the identifier, the type of the argument as a
    conversion to [i64], the base and the sign, in the order of the cases. *)
Definition int_cases : list (list Z * (Z -> Z) * Z * bool) :=
  [ ([117], u32, 10, false);                       (* u *)
    ([108; 108; 117], i64, 10, false);             (* llu *)
    ([100], i32, 10, true);                        (* d *)
    ([108; 108; 100], i64, 10, true);              (* lld *)
    ([120], u32, 16, false);                       (* x *)
    ([108; 108; 120], i64, 16, false);             (* llx *)
    ([112], i64, 16, false);                       (* p *)
    ([122; 117], i64, 10, false);                  (* zu *)
    ([122; 100], i64, 10, true) ].                 (* zd *)

(** [strncmp(pos, ident, sizeof(ident) - 1) == 0]. *)
Definition at_ident (ident pos : list Z) : bool := bool_decide (take (length ident) pos = ident).

Fixpoint find_int_case (cs : list (list Z * (Z -> Z) * Z * bool)) (pos : list Z) :
    option (list Z * (Z -> Z) * Z * bool) :=
  match cs with
  | [] => None
  | c :: cs' => if at_ident (fst (fst (fst c))) pos then Some c else find_int_case cs' pos
  end.

Definition null_string : list Z := [40; 110; 117; 108; 108; 41].

(** The result of a part of the output followed by the rest. *)
Definition emit (out : list Z) (rest : result (list Z)) : result (list Z) :=
  match rest with
  | Ret l => Ret (out ++ l)
  | Panic => Panic
  | Block => Block
  | UB => UB
  end.

(** The loop of [vformat].  Each turn consumes at least one character of the
    format, so its length is enough fuel. *)
Fixpoint vformat_loop (fuel : nat) (pos : list Z) (args : list varg) : result (list Z) :=
  match fuel with
  | O => Block
  | S fuel' =>
      match pos with
      | [] => Ret []
      | c :: pos =>
          if c =? 0 then Ret [] else
          if negb (c =? 37) then emit [c] (vformat_loop fuel' pos args) else
          match pos with
          | d :: pos' =>
              if d =? 37 then emit [37] (vformat_loop fuel' pos' args) else
              if d =? 99 then
                match args with
                | VInt z :: args' => emit [u8 z] (vformat_loop fuel' pos' args')
                | _ => UB
                end else
              if d =? 115 then
                match args with
                | VStr s :: args' => emit (default null_string s) (vformat_loop fuel' pos' args')
                | _ => UB
                end else
              match find_int_case int_cases pos with
              | Some (ident, conv, base, sign) =>
                  match args with
                  | VInt z :: args' =>
                      match print_int (conv z) base sign with
                      | Ret out => emit out (vformat_loop fuel' (drop (length ident) pos) args')
                      | _ => UB
                      end
                  | _ => UB
                  end
              | None => emit [c] (vformat_loop fuel' pos args)
              end
          | [] => emit [c] (vformat_loop fuel' pos args)
          end
      end
  end.

Definition vformat (fmt : list Z) (args : list varg) : result (list Z) :=
  vformat_loop (S (length fmt)) fmt args.

(** ** What a format means

    The specification is written without the tables and the loops of the code:
    the directives by their text, the integer each one prints as a function of
    its argument, and numerals by the value of their digits. *)

(** The characters of a string. *)
Definition codes (s : string) : list Z := (fun a => Z.of_N (Ascii.N_of_ascii a)) <$> String.list_ascii_of_string s.

Inductive directive : Type := D_d | D_u | D_x | D_lld | D_llu | D_llx | D_p | D_zd | D_zu.
Definition dir_text (d : directive) : list Z :=
  codes (match d with
         | D_d => "d" | D_u => "u" | D_x => "x" | D_lld => "lld" | D_llu => "llu" | D_llx => "llx" | D_p => "p" | D_zd => "zd" | D_zu => "zu"
         end).
(** The integer that is printed: the low 32 or all 64 bits, with or without sign. *)
Definition dir_value (d : directive) (z : Z) : Z :=
  match d with
  | D_d => i32 z
  | D_u | D_x => u32 z
  | D_lld | D_zd => i64 z
  | D_llu | D_llx | D_p | D_zu => u64 z
  end.
Definition dir_base (d : directive) : Z := match d with D_x | D_llx | D_p => 16 | _ => 10 end.

(** The value of digits, the most significant one first. *)
Definition horner (base : Z) (ds : list Z) : Z := foldl (fun acc d => acc * base + d) 0 ds.
(** The character of a digit: '0' and what follows it, or 'a' and what follows. *)
Definition digit_char (d : Z) : Z := if d <? 10 then 48 + d else 97 + (d - 10).
(** [l] is the numeral of [n]: digits below the base with value [n], no leading
    zero unless it is the only digit. *)
Definition numeral (base n : Z) (l : list Z) : Prop :=
  exists ds, l = digit_char <$> ds /\ Forall (fun d => 0 <= d < base) ds /\ horner base ds = n /\ ds <> [] /\ (head ds = Some 0 -> ds = [0]).
Definition signed_numeral (base z : Z) (l : list Z) : Prop :=
  if z <? 0 then exists l', l = codes "-" ++ l' /\ numeral base (- z) l' else numeral base z l.

(** The pieces a format is made of, and their text. *)
Inductive item : Type :=
| Lit (c : Z)
| Percent
| Chr
| Str
| Int (d : directive).
Definition item_text (it : item) : list Z :=
  match it with
  | Lit c => [c]
  | Percent => codes "%%"
  | Chr => codes "%c"
  | Str => codes "%s"
  | Int d => codes "%" ++ dir_text d
  end.
Definition item_ok (it : item) : Prop := match it with Lit c => c <> 0 /\ c <> 37 | _ => True end.

(** The output of the pieces for the arguments. *)
Inductive renders : list item -> list varg -> list Z -> Prop :=
| renders_nil args : renders [] args []
| renders_lit c items args out : renders items args out -> renders (Lit c :: items) args (c :: out)
| renders_percent items args out : renders items args out -> renders (Percent :: items) args (codes "%" ++ out)
| renders_chr z items args out : renders items args out -> renders (Chr :: items) (VInt z :: args) (z mod 256 :: out)
| renders_str l items args out : renders items args out -> renders (Str :: items) (VStr (Some l) :: args) (l ++ out)
| renders_null items args out : renders items args out -> renders (Str :: items) (VStr None :: args) (codes "(null)" ++ out)
| renders_int d z l items args out :
    signed_numeral (dir_base d) (dir_value d z) l -> renders items args out -> renders (Int d :: items) (VInt z :: args) (l ++ out).

(** ** Numerals are unique *)

(** The value of digits with the least significant one first. *)
Fixpoint le_digits (base : Z) (ds : list Z) : Z := match ds with [] => 0 | d :: ds' => d + base * le_digits base ds' end.
Lemma horner_snoc base ds d : horner base (ds ++ [d]) = horner base ds * base + d.
Proof. unfold horner. by rewrite foldl_app. Qed.
Lemma horner_le base ds : horner base (reverse ds) = le_digits base ds.
Proof. induction ds as [|d ds IH]; [done|]. rewrite reverse_cons, horner_snoc, IH. cbn. lia. Qed.

(** Digits whose last, most significant one is not zero, unless it is alone. *)
Definition canonical (base : Z) (ds : list Z) : Prop := Forall (fun d => 0 <= d < base) ds /\ ds <> [] /\ (last ds = Some 0 -> ds = [0]).
Lemma le_digits_nonneg base ds : 2 <= base -> Forall (fun d => 0 <= d < base) ds -> 0 <= le_digits base ds.
Proof. intros Hb. induction 1; cbn; nia. Qed.
Lemma le_digits_pos base ds : 2 <= base -> Forall (fun d => 0 <= d < base) ds -> ds <> [] -> last ds <> Some 0 -> 0 < le_digits base ds.
Proof.
  intros Hb H. induction H as [|d ds Hd H IH]; [done|]. intros _ Hl. cbn [le_digits]. destruct ds as [|e ds].
  - cbn in *. assert (d <> 0) by congruence. lia.
  - specialize (IH ltac:(done) Hl). nia.
Qed.
Lemma canonical_unique base ds ds' : 2 <= base -> canonical base ds -> canonical base ds' -> le_digits base ds = le_digits base ds' -> ds = ds'.
Proof.
  intros Hb. revert ds'. induction ds as [|d ds IH]; intros ds' (F1 & N1 & L1) (F2 & N2 & L2) E; [done|]. destruct ds' as [|d' ds']; [done|].
  apply Forall_cons in F1 as [D1 F1], F2 as [D2 F2]. cbn [le_digits] in E. pose proof (le_digits_nonneg _ _ Hb F1). pose proof (le_digits_nonneg _ _ Hb F2).
  assert (le_digits base ds = le_digits base ds' /\ d = d') as [E' ->] by (apply (Z.div_mod_unique base); lia).
  f_equal. assert (forall x l, (last (x :: l) = Some 0 -> x :: l = [0]) -> l <> [] -> last l <> Some 0) as Hl.
  { intros x [|y l] Hx Hn; [done|]. intros Hy. specialize (Hx Hy). done. }
  destruct ds as [|e ds], ds' as [|e' ds'].
  - done.
  - pose proof (le_digits_pos base (e' :: ds') Hb F2 ltac:(done) (Hl _ _ L2 ltac:(done))). cbn [le_digits] in *. lia.
  - pose proof (le_digits_pos base (e :: ds) Hb F1 ltac:(done) (Hl _ _ L1 ltac:(done))). cbn [le_digits] in *. lia.
  - apply IH; [split; [done|split; [done|]]|split; [done|split; [done|]]|done].
    + intros G. by destruct (Hl _ _ L1 ltac:(done)).
    + intros G. by destruct (Hl _ _ L2 ltac:(done)).
Qed.

Lemma digit_char_inj base d d' : base <= 16 -> 0 <= d < base -> 0 <= d' < base -> digit_char d = digit_char d' -> d = d'.
Proof. unfold digit_char. intros Hb H1 H2. destruct (Z.ltb_spec d 10), (Z.ltb_spec d' 10); lia. Qed.

Lemma numeral_unique base n l l' : 2 <= base <= 16 -> numeral base n l -> numeral base n l' -> l = l'.
Proof.
  intros Hb (ds & -> & F1 & E1 & N1 & H1) (ds' & -> & F2 & E2 & N2 & H2). f_equal. apply (inj reverse).
  assert (forall e, Forall (fun d => 0 <= d < base) e -> e <> [] -> (head e = Some 0 -> e = [0]) -> canonical base (reverse e)) as Hc.
  { intros e F N H. split; [by apply Forall_reverse|]. split; [intros E%(f_equal reverse); rewrite reverse_involutive in E; by apply N|].
    rewrite last_reverse. intros ->%H. done. }
  apply (canonical_unique base); [lia|by apply Hc|by apply Hc|]. rewrite <-!horner_le, !reverse_involutive. congruence.
Qed.

Lemma signed_numeral_unique base z l l' : 2 <= base <= 16 -> signed_numeral base z l -> signed_numeral base z l' -> l = l'.
Proof.
  intros Hb. unfold signed_numeral. destruct (z <? 0); [|by apply numeral_unique]. intros (k & -> & H) (k' & -> & H'). f_equal. by eapply numeral_unique.
Qed.

Lemma renders_unique items args out out' : renders items args out -> renders items args out' -> out = out'.
Proof.
  intros H. revert out'. induction H as [| | | | | |d z l items args out Hl H IH]; intros out' H'; inversion H'; subst; try (f_equal; by auto).
  f_equal; [|by auto]. eapply (signed_numeral_unique (dir_base d)); [by destruct d; cbn; lia|done|done].
Qed.

(** ** [_print_int] prints numerals *)

Lemma digit_lookup i : 0 <= i < 16 -> digit !! Z.to_nat i = Some (digit_char i).
Proof.
  intros Hi. assert (Forall (fun i => digit !! Z.to_nat i = Some (digit_char i)) (seqZ 0 16)) as HF by (repeat constructor).
  rewrite Forall_forall in HF. apply HF, elem_of_seqZ. lia.
Qed.

Lemma print_digits_spec room v base :
  2 <= base <= 16 -> 0 <= v < base ^ Z.of_nat room -> (0 < room)%nat ->
  exists ds, print_digits room v base = Some (digit_char <$> ds) /\ canonical base ds /\ le_digits base ds = v.
Proof.
  intros Hbase. revert v. induction room as [|room IH]; intros v Hv Hr; [lia|]. cbn [print_digits].
  rewrite Nat2Z.inj_succ, Z.pow_succ_r in Hv by lia.
  pose proof (Z.mod_pos_bound v base ltac:(lia)) as Hm. pose proof (Z.div_mod v base ltac:(lia)) as Hdm.
  rewrite (digit_lookup (v mod base)) by lia. cbn [mbind option_bind].
  destruct (Z.eqb_spec (v / base) 0) as [E|E].
  - exists [v mod base]. split; [done|]. split; [split; [by constructor|]; split; [done|]; cbn; congruence|]. cbn. lia.
  - assert (0 <= v / base < base ^ Z.of_nat room) as Hv' by (split; [apply Z.div_pos; lia|apply Z.div_lt_upper_bound; lia]).
    destruct room as [|room]; [cbn in Hv'; lia|].
    destruct (IH (v / base) Hv' ltac:(lia)) as (ds & -> & (F & N & L) & Hval). cbn [mbind option_bind].
    exists (v mod base :: ds). split; [done|]. split; [|cbn; lia]. split; [by constructor|]. split; [done|]. destruct ds as [|e ds]; [done|].
    intros Hl. exfalso. apply L in Hl as [= -> ->]. cbn in Hval. lia.
Qed.

Lemma u64_i64 z : u64 (i64 z) = u64 z.
Proof. unfold u64, i64. rewrite Zminus_mod, Z.mod_mod by lia. rewrite <-Zminus_mod. f_equal. lia. Qed.

(** What is printed for an integer: the signed value, or the 64-bit pattern. *)
Lemma print_int_numeral u base is_signed :
  2 <= base <= 16 -> - 2 ^ 63 <= u < 2 ^ 63 ->
  exists out, print_int u base is_signed = Ret out /\ signed_numeral base (if is_signed then u else u64 u) out.
Proof.
  intros Hb Hu. assert (2 ^ 64 <= base ^ 64) as Hpow by (apply Z.pow_le_mono_l; lia).
  unfold print_int. set (neg := is_signed && (u <? 0)). set (v := if neg then u64 (- u64 u) else u64 u).
  assert (0 <= v < 2 ^ 64) as Hv by (unfold v; destruct neg; apply u64_range).
  destruct (print_digits_spec 64 v base Hb) as (ds & -> & (F & N & L) & Hval); [change (Z.of_nat 64) with 64; lia|lia|].
  assert (numeral base v (reverse (digit_char <$> ds))) as Hn.
  { exists (reverse ds). split; [by rewrite fmap_reverse|]. split; [by apply Forall_reverse|]. split; [by rewrite horner_le|].
    split; [intros E%(f_equal reverse); rewrite reverse_involutive in E; by apply N|]. rewrite head_reverse. intros ->%L. done. }
  eexists. split; [done|]. unfold signed_numeral. destruct neg eqn:En.
  - apply andb_true_iff in En as [-> Hneg%Z.ltb_lt]. rewrite (proj2 (Z.ltb_lt u 0) Hneg). eexists. split; [done|]. replace (- u) with v; [done|]. unfold v.
    assert (u64 u = u + 2 ^ 64) as -> by (unfold u64; rewrite <-(Z.mod_add u 1) by lia; rewrite Z.mod_small; lia).
    unfold u64. rewrite <-(Z.mod_add _ 1) by lia. rewrite Z.mod_small; lia.
  - replace (if is_signed then u else u64 u) with v; [by rewrite (proj2 (Z.ltb_ge v 0)) by lia|]. unfold v. destruct is_signed; [|done]. cbn in En. apply Z.ltb_ge in En.
    apply u64_small. lia.
Qed.

(** ** [vformat] *)

Lemma dir_head d : exists c l, dir_text d = c :: l /\ c <> 37 /\ c <> 99 /\ c <> 115.
Proof. destruct d; do 2 eexists; (split_and!; [reflexivity|done..]). Qed.

Lemma u32_u64 z : u64 (u32 z) = u32 z.
Proof. apply u64_small. pose proof (u32_range z). lia. Qed.

(** The table of the code has each directive with its conversion, base and sign. *)
Lemma dir_case d pos : exists conv base sign, find_int_case int_cases (dir_text d ++ pos) = Some (dir_text d, conv, base, sign) /\
  forall z, exists out, print_int (conv z) base sign = Ret out /\ signed_numeral (dir_base d) (dir_value d z) out.
Proof.
  destruct d; do 3 eexists; (split; [reflexivity|]); intros z; pose proof (i32_range z); pose proof (i64_range z); pose proof (u32_range z);
    match goal with |- exists out, print_int ?u ?b ?s = _ /\ _ => destruct (print_int_numeral u b s) as (out & E & Hn); [lia|lia|] end;
    exists out; (split; [exact E|]); cbn [dir_base dir_value] in *; rewrite ?u32_u64, ?u64_i64 in Hn; exact Hn.
Qed.

(** The arguments fit the pieces: there are enough, of the right kinds. *)
Fixpoint args_fit (items : list item) (args : list varg) : bool :=
  match items, args with
  | [], _ => true
  | (Lit _ | Percent) :: items', _ => args_fit items' args
  | (Chr | Int _) :: items', VInt _ :: args' => args_fit items' args'
  | Str :: items', VStr _ :: args' => args_fit items' args'
  | _, _ => false
  end.

Lemma emit_cases out r (P : list Z -> Prop) (b : bool) :
  (if b then exists l, r = Ret l /\ P l else r = UB) ->
  if b then exists l, emit out r = Ret l /\ exists l', l = out ++ l' /\ P l' else emit out r = UB.
Proof. destruct b; [intros (l & -> & H); eexists; split; [done|]; by exists l|by intros ->]. Qed.

Lemma vformat_loop_items items args fuel :
  Forall item_ok items -> (length (items ≫= item_text) < fuel)%nat ->
  if args_fit items args then exists out, vformat_loop fuel (items ≫= item_text) args = Ret out /\ renders items args out
  else vformat_loop fuel (items ≫= item_text) args = UB.
Proof.
  revert args fuel. induction items as [|it items IH]; intros args fuel Hok Hf; (destruct fuel as [|fuel]; [cbn in Hf; lia|]).
  { exists []. split; [done|constructor]. }
  apply Forall_cons in Hok as [Hit Hok]. rewrite bind_cons in *. rewrite length_app in Hf.
  assert (forall args, (length (item_text it) <> 0)%nat -> if args_fit items args then exists out, vformat_loop fuel (items ≫= item_text) args = Ret out /\ renders items args out
    else vformat_loop fuel (items ≫= item_text) args = UB) as IH' by (intros args' Hl; apply IH; [done|lia]).
  destruct it as [c| | | |d].
  - destruct Hit as [H0 H37]. cbn [item_text app vformat_loop args_fit]. rewrite (proj2 (Z.eqb_neq _ _) H0), (proj2 (Z.eqb_neq _ _) H37). cbn [negb].
    pose proof (emit_cases [c] _ _ _ (IH' args ltac:(done))) as E. destruct (args_fit items args); [|done].
    destruct E as (l & E & l' & -> & H). eexists. split; [exact E|]. by constructor.
  - change (item_text Percent) with [37; 37]. cbn [app vformat_loop args_fit Z.eqb Pos.eqb negb].
    pose proof (emit_cases [37] _ _ _ (IH' args ltac:(done))) as E. destruct (args_fit items args); [|done].
    destruct E as (l & E & l' & -> & H). eexists. split; [exact E|]. by apply renders_percent.
  - change (item_text Chr) with [37; 99]. cbn [app vformat_loop Z.eqb Pos.eqb negb]. destruct args as [|[z|l] args]; [done| |done]. cbn [args_fit].
    pose proof (emit_cases [u8 z] _ _ _ (IH' args ltac:(done))) as E. destruct (args_fit items args); [|done].
    destruct E as (l & E & l' & -> & H). eexists. split; [exact E|]. by apply renders_chr.
  - change (item_text Str) with [37; 115]. cbn [app vformat_loop Z.eqb Pos.eqb negb]. destruct args as [|[z|o] args]; [done|done|]. cbn [args_fit].
    pose proof (emit_cases (default null_string o) _ _ _ (IH' args ltac:(done))) as E. destruct (args_fit items args); [|done].
    destruct E as (l & E & l' & -> & H). eexists. split; [exact E|]. destruct o; [by apply renders_str|by apply renders_null].
  - change (item_text (Int d)) with (37 :: dir_text d) in *. destruct (dir_case d (items ≫= item_text)) as (conv & base & sign & Hfind & Hp).
    destruct (dir_head d) as (c & l & Ed & H1 & H2 & H3). cbn [app vformat_loop args_fit]. change (37 =? 0) with false. change (37 =? 37) with true. cbn [negb].
    rewrite Ed in Hfind at 1. rewrite Ed. cbn [app] in Hfind |- *. rewrite (proj2 (Z.eqb_neq _ _) H1), (proj2 (Z.eqb_neq _ _) H2), (proj2 (Z.eqb_neq _ _) H3), Hfind.
    destruct args as [|[z|o] args]; [done| |done]. destruct (Hp z) as (out & -> & Hn).
    replace (drop (length (dir_text d)) (c :: l ++ (items ≫= item_text))) with (items ≫= item_text) by (rewrite app_comm_cons, <-Ed; by rewrite drop_app_length).
    pose proof (emit_cases out _ _ _ (IH' args ltac:(done))) as E. destruct (args_fit items args); [|done].
    destruct E as (l0 & E & l' & -> & H). eexists. split; [exact E|]. by apply renders_int.
Qed.

(** C33: [vformat] implements format strings.  For a format made of literal
    characters, [%%], [%c], [%s] and the integer directives, and arguments that
    fit it, the output is the one the format means: each integer directive
    prints the numeral, in base 10 or 16 and with a minus sign if it is negative,
    of the signed or unsigned 32-bit or 64-bit integer that its argument holds,
    and a NULL string prints as (null).  A missing argument, or one of the wrong
    kind, is undefined. *)
Theorem vformat_renders items args :
  Forall item_ok items ->
  if args_fit items args then forall out, vformat (items ≫= item_text) args = Ret out <-> renders items args out
  else vformat (items ≫= item_text) args = UB.
Proof.
  intros H. pose proof (vformat_loop_items items args (S (length (items ≫= item_text))) H ltac:(lia)) as E. fold (vformat (items ≫= item_text) args) in E.
  destruct (args_fit items args); [|done]. destruct E as (l & -> & Hl). intros out. split; [by intros [= <-]|]. intros Ho. f_equal. by eapply renders_unique.
Qed.

(** "pid %d: %s %x" *)
Definition demo_format : list item := (Lit <$> codes "pid ") ++ [Int D_d] ++ (Lit <$> codes ": ") ++ [Str; Lit 32; Int D_x].
Lemma vformat_renders_witness :
  vformat (codes "pid %d: %s %x") [VInt (-42); VStr None; VInt 255] = Ret (codes "pid -42: (null) ff") /\
  renders demo_format [VInt (-42); VStr None; VInt 255] (codes "pid -42: (null) ff").
Proof.
  assert (Forall item_ok demo_format) as Hok by (repeat (apply Forall_cons; split; [first [exact I|split; discriminate]|]); constructor).
  pose proof (vformat_renders demo_format [VInt (-42); VStr None; VInt 255] Hok) as H.
  change (args_fit demo_format [VInt (-42); VStr None; VInt 255]) with true in H. cbv iota in H.
  split; [reflexivity|]. apply H. reflexivity.
Defined.
