(* ===== verification/Mem.v ===== *)
(** * Physical pages: the page allocator of [kernel/mem.c]

    Physical memory is a map from page addresses to pages of bytes; kernel
    pointers are translated with [K2P] and [P2K].  The free pages form a stack
    linked through their first eight bytes ([add_to_queue], [fetch_from_queue]
    of [common/list.c], run here without interference), and [refpage] counts the
    users of every page.  An access outside mapped memory, or outside
    [refpage], is undefined behaviour. *)

From Stdlib Require Import ZArith Lia.
From stdpp Require Import base tactics numbers gmap list.
From S2P Require Import Prelude.

Local Open Scope Z_scope.

(** ** [aarch64/mmu.h], [driver/memlayout.h] *)

Definition PAGE_SIZE : Z := 4096.
Definition PHYSTOP : Z := 2 ^ 31.
Definition KSPACE_MASK : Z := 2 ^ 64 - 2 ^ 48.
Definition K2P (addr : Z) : Z := u64 (addr - KSPACE_MASK).
Definition P2K (addr : Z) : Z := u64 (addr + KSPACE_MASK).
Definition PAGE_BASE (addr : Z) : Z := Z.ldiff addr (PAGE_SIZE - 1).

(** The number of entries of [refpage]. *)
Definition NPAGES : Z := PHYSTOP / PAGE_SIZE.

(** ** State *)

Record kmem : Type := mkKmem {
  km_page : gmap Z (list Z);
  km_pages : Z;
  km_refpage : gmap Z Z;
  km_cnt : Z;
  km_pagenum : Z;
  km_zero_page : Z;
  km_ttbr0 : Z }.

Abbreviation KM := (M kmem).

Definition set_page (m : gmap Z (list Z)) (s : kmem) : kmem :=
  mkKmem m (km_pages s) (km_refpage s) (km_cnt s) (km_pagenum s) (km_zero_page s) (km_ttbr0 s).
Definition set_pages (p : Z) (s : kmem) : kmem :=
  mkKmem (km_page s) p (km_refpage s) (km_cnt s) (km_pagenum s) (km_zero_page s) (km_ttbr0 s).
Definition set_refpage (m : gmap Z Z) (s : kmem) : kmem :=
  mkKmem (km_page s) (km_pages s) m (km_cnt s) (km_pagenum s) (km_zero_page s) (km_ttbr0 s).
Definition set_cnt (c : Z) (s : kmem) : kmem :=
  mkKmem (km_page s) (km_pages s) (km_refpage s) c (km_pagenum s) (km_zero_page s) (km_ttbr0 s).
Definition set_pagenum (n : Z) (s : kmem) : kmem :=
  mkKmem (km_page s) (km_pages s) (km_refpage s) (km_cnt s) n (km_zero_page s) (km_ttbr0 s).
Definition set_zero_page (p : Z) (s : kmem) : kmem :=
  mkKmem (km_page s) (km_pages s) (km_refpage s) (km_cnt s) (km_pagenum s) p (km_ttbr0 s).
Definition set_ttbr0 (p : Z) (s : kmem) : kmem :=
  mkKmem (km_page s) (km_pages s) (km_refpage s) (km_cnt s) (km_pagenum s) (km_zero_page s) p.

(** ** Accesses through kernel pointers *)

Definition load_page (pa : Z) : KM (list Z) := fun s => some_or_ub (km_page s !! pa) s.

(** The bytes [bs] are written at [ka], inside one page. *)
Definition write_bytes (ka : Z) (bs : list Z) : KM unit :=
  let pa := PAGE_BASE (K2P ka) in
  let off := K2P ka - pa in
  pg ← load_page pa;
  if PAGE_SIZE <? off + Z.of_nat (length bs) then ub else
  modify (fun s => set_page (<[pa := splice (Z.to_nat off) bs pg]> (km_page s)) s).

(** [n] bytes are read at [ka], inside one page. *)
Definition read_bytes (ka : Z) (n : nat) : KM (list Z) :=
  let pa := PAGE_BASE (K2P ka) in
  let off := K2P ka - pa in
  pg ← load_page pa;
  if PAGE_SIZE <? off + Z.of_nat n then ub else mret (take n (drop (Z.to_nat off) pg)).

Definition load64 (ka : Z) : KM Z := bs ← read_bytes ka 8; mret (le_val bs).
Definition store64 (ka v : Z) : KM unit := write_bytes ka (le_bytes 8 v).

(** [memset(page, 0, PAGE_SIZE)]. *)
Definition clear_page (ka : Z) : KM unit := write_bytes ka (replicate (Z.to_nat PAGE_SIZE) 0).

(** [refpage[i].count], with the bounds of the array. *)
Definition get_ref (i : Z) : KM Z :=
  if (0 <=? i) && (i <? NPAGES) then gets (fun s => default 0 (km_refpage s !! i)) else ub.
Definition put_ref (i v : Z) : KM unit := get_ref i;; modify (fun s => set_refpage (<[i := v]> (km_refpage s)) s).

(** [increment_rc], [decrement_rc] on [refpage[i]]; [count] is an [isize]. *)
Definition increment_ref (i : Z) : KM unit := c ← get_ref i; put_ref i (i64 (c + 1)).
Definition decrement_ref (i : Z) : KM bool := c ← get_ref i; put_ref i (i64 (c - 1));; mret (i64 (c - 1) <=? 0).

(** ** The stack of free pages *)

(** [add_to_queue(&pages, p)]. *)
Definition add_page (p : Z) : KM unit :=
  h ← gets km_pages; store64 p h;; modify (set_pages p).

(** [fetch_from_queue(&pages)]. *)
Definition fetch_page : KM Z :=
  node ← gets km_pages;
  if node =? 0 then mret 0 else
  nx ← load64 node; modify (set_pages nx);; mret node.

(** ** The allocator *)

Definition kalloc_page : KM Z :=
  modify (fun s => set_cnt (i64 (km_cnt s + 1)) s);;
  page ← fetch_page;
  increment_ref (K2P page / PAGE_SIZE);;
  mret page.

Definition kfree_page (p : Z) : KM unit :=
  decrement_ref (K2P p / PAGE_SIZE);;
  c ← get_ref (K2P p / PAGE_SIZE);
  if c =? 0 then modify (fun s => set_cnt (i64 (km_cnt s - 1)) s);; add_page p else mret tt.

Definition get_zero_page : KM Z := gets km_zero_page.

Definition left_page_cnt : KM Z := gets (fun s => u64 (km_pagenum s - km_cnt s)).

(** [kinit]: every page from the second one after [_end] up to [PHYSTOP] is
    free; [n] is the number of turns of the loop. *)
Fixpoint kinit_loop (n : nat) (p : Z) : KM unit :=
  match n with
  | O => mret tt
  | S n' =>
      if p <? P2K PHYSTOP then
        add_page p;;
        modify (fun s => set_pagenum (i32 (km_pagenum s + 1)) s);;
        kinit_loop n' (u64 (p + PAGE_SIZE))
      else mret tt
  end.

Definition kinit (_end : Z) : KM unit :=
  modify (set_cnt 0);;
  kinit_loop (Z.to_nat NPAGES) (u64 (PAGE_BASE _end + 2 * PAGE_SIZE));;
  modify (set_zero_page (u64 (PAGE_BASE _end + PAGE_SIZE)));;
  z ← gets km_zero_page;
  clear_page z;;
  increment_ref (K2P z / PAGE_SIZE).

(** ** Page addresses *)

(** The kernel address of page number [n]. *)
Definition kpage (n : Z) : Z := KSPACE_MASK + n * PAGE_SIZE.
Definition page_no (n : Z) : Prop := 0 <= n < NPAGES.

Lemma NPAGES_eq : NPAGES = 524288.
Proof. reflexivity. Qed.

Lemma PAGE_BASE_div a : PAGE_BASE a = a / PAGE_SIZE * PAGE_SIZE.
Proof.
  unfold PAGE_BASE. change (PAGE_SIZE - 1) with (Z.ones 12).
  rewrite Z.ldiff_ones_r by lia. rewrite Z.shiftr_div_pow2, Z.shiftl_mul_pow2 by lia. done.
Qed.

Lemma K2P_kpage n off : page_no n -> 0 <= off < PAGE_SIZE -> K2P (kpage n + off) = n * PAGE_SIZE + off.
Proof.
  unfold page_no. rewrite NPAGES_eq. change PAGE_SIZE with 4096. intros Hn Hoff.
  unfold K2P, kpage. change PAGE_SIZE with 4096. apply eq_trans with (u64 (n * 4096 + off)); [f_equal; lia|].
  apply u64_small. lia.
Qed.

Lemma page_base_no n off : 0 <= off < PAGE_SIZE -> PAGE_BASE (n * PAGE_SIZE + off) = n * PAGE_SIZE.
Proof.
  intros Hoff. rewrite PAGE_BASE_div. f_equal. symmetry. apply (Z.div_unique _ _ _ off); lia.
Qed.

Lemma page_index n off : 0 <= off < PAGE_SIZE -> (n * PAGE_SIZE + off) / PAGE_SIZE = n.
Proof. intros Hoff. symmetry. apply (Z.div_unique _ _ _ off); lia. Qed.

Lemma kpage_u64 n : page_no n -> 0 <= kpage n < 2 ^ 64.
Proof. unfold page_no, kpage, KSPACE_MASK. rewrite NPAGES_eq. change PAGE_SIZE with 4096. lia. Qed.

Lemma kpage_inj n k : kpage n = kpage k -> n = k.
Proof. unfold kpage. change PAGE_SIZE with 4096. lia. Qed.

Lemma kpage_nonzero n : page_no n -> kpage n <> 0.
Proof. unfold page_no, kpage, KSPACE_MASK. change PAGE_SIZE with 4096. lia. Qed.

(** ** Accesses *)

(** Page [n] is mapped with content [pg]. *)
Definition page_at (m : gmap Z (list Z)) (n : Z) (pg : list Z) : Prop :=
  m !! (n * PAGE_SIZE) = Some pg /\ length pg = Z.to_nat PAGE_SIZE.

Lemma wp_write_bytes n off bs pg (Q : unit -> kmem -> Prop) s :
  page_no n -> 0 <= off < PAGE_SIZE -> off + Z.of_nat (length bs) <= PAGE_SIZE -> page_at (km_page s) n pg ->
  Q tt (set_page (<[n * PAGE_SIZE := splice (Z.to_nat off) bs pg]> (km_page s)) s) ->
  wp (write_bytes (kpage n + off) bs) Q s.
Proof.
  intros Hn Hoff Hlen [Hp _] HQ. unfold write_bytes. rewrite K2P_kpage, page_base_no by done.
  wp_prim. unfold wp, load_page, some_or_ub. rewrite Hp. cbn beta iota.
  replace (n * PAGE_SIZE + off - n * PAGE_SIZE) with off by lia.
  destruct (Z.ltb_spec PAGE_SIZE (off + Z.of_nat (length bs))); [lia|]. exact HQ.
Qed.

Lemma wp_read_bytes n off k pg (Q : list Z -> kmem -> Prop) s :
  page_no n -> 0 <= off < PAGE_SIZE -> off + Z.of_nat k <= PAGE_SIZE -> page_at (km_page s) n pg ->
  Q (take k (drop (Z.to_nat off) pg)) s -> wp (read_bytes (kpage n + off) k) Q s.
Proof.
  intros Hn Hoff Hlen [Hp _] HQ. unfold read_bytes. rewrite K2P_kpage, page_base_no by done.
  wp_prim. unfold wp, load_page, some_or_ub. rewrite Hp. cbn beta iota.
  replace (n * PAGE_SIZE + off - n * PAGE_SIZE) with off by lia.
  destruct (Z.ltb_spec PAGE_SIZE (off + Z.of_nat k)); [lia|]. exact HQ.
Qed.

Lemma wp_load64 n off pg (Q : Z -> kmem -> Prop) s :
  page_no n -> 0 <= off -> off + 8 <= PAGE_SIZE -> page_at (km_page s) n pg ->
  Q (read_le 8 (Z.to_nat off) pg) s -> wp (load64 (kpage n + off)) Q s.
Proof.
  intros Hn Hoff Hlen Hp HQ. unfold load64. wp_prim. eapply wp_read_bytes; [done|lia|cbn; lia|done|]. by wp_prim.
Qed.

Lemma wp_store64 n off v pg (Q : unit -> kmem -> Prop) s :
  page_no n -> 0 <= off -> off + 8 <= PAGE_SIZE -> page_at (km_page s) n pg ->
  Q tt (set_page (<[n * PAGE_SIZE := splice (Z.to_nat off) (le_bytes 8 v) pg]> (km_page s)) s) ->
  wp (store64 (kpage n + off) v) Q s.
Proof.
  intros Hn Hoff Hlen Hp HQ. unfold store64. eapply wp_write_bytes; [done|lia|rewrite length_le_bytes; lia|done|done].
Qed.

Lemma page_at_insert_ne m n k pg pg' : k <> n -> page_at m n pg -> page_at (<[k * PAGE_SIZE := pg']> m) n pg.
Proof.
  intros Hne [H1 H2]. split; [|done]. rewrite lookup_insert_ne; [done|]. change PAGE_SIZE with 4096. lia.
Qed.

Lemma page_at_insert_eq m n pg : length pg = Z.to_nat PAGE_SIZE -> page_at (<[n * PAGE_SIZE := pg]> m) n pg.
Proof. intros H. split; [apply lookup_insert_eq|done]. Qed.

Lemma length_splice8 off v pg : 0 <= off -> off + 8 <= PAGE_SIZE -> length pg = Z.to_nat PAGE_SIZE ->
  length (splice (Z.to_nat off) (le_bytes 8 v) pg) = Z.to_nat PAGE_SIZE.
Proof. change PAGE_SIZE with 4096. intros. rewrite length_splice; [done|]. rewrite length_le_bytes. lia. Qed.

Definition ref_of (s : kmem) (n : Z) : Z := default 0 (km_refpage s !! n).

Lemma wp_get_ref n (Q : Z -> kmem -> Prop) s : page_no n -> Q (ref_of s n) s -> wp (get_ref n) Q s.
Proof.
  intros [H1 H2] HQ. unfold get_ref. rewrite (proj2 (Z.leb_le _ _) H1), (proj2 (Z.ltb_lt _ _) H2). exact HQ.
Qed.

Lemma wp_increment_ref n (Q : unit -> kmem -> Prop) s :
  page_no n -> Q tt (set_refpage (<[n := i64 (ref_of s n + 1)]> (km_refpage s)) s) -> wp (increment_ref n) Q s.
Proof.
  intros Hn HQ. unfold increment_ref, put_ref. wp_prim. apply wp_get_ref; [done|]. wp_prim. by apply wp_get_ref.
Qed.

Lemma wp_decrement_ref n (Q : bool -> kmem -> Prop) s :
  page_no n -> Q (i64 (ref_of s n - 1) <=? 0) (set_refpage (<[n := i64 (ref_of s n - 1)]> (km_refpage s)) s) ->
  wp (decrement_ref n) Q s.
Proof.
  intros Hn HQ. unfold decrement_ref, put_ref. wp_prim. apply wp_get_ref; [done|]. wp_prim. wp_prim.
  apply wp_get_ref; [done|]. by wp_prims.
Qed.

(** ** The invariant *)

(** From pointer [h] on, the links go through the pages [l] to NULL. *)
Fixpoint free_stack (m : gmap Z (list Z)) (h : Z) (l : list Z) : Prop :=
  match l with
  | [] => h = 0
  | n :: l' => h = kpage n /\ exists pg, page_at m n pg /\ free_stack m (read_le 8 0 pg) l'
  end.

(** [F] are the free pages, the first to be allocated first. *)
Record page_inv (F : list Z) (s : kmem) : Prop := {
  pi_nodup : NoDup F;
  pi_range : forall n, n ∈ F -> page_no n;
  pi_stack : free_stack (km_page s) (km_pages s) F;
  pi_free : forall n, n ∈ F -> ref_of s n = 0;
  pi_refs : forall n, 0 <= ref_of s n < 2 ^ 62;
  pi_count : km_pagenum s = Z.of_nat (length F) + km_cnt s;
  pi_cnt : 0 <= km_cnt s /\ km_pagenum s <= NPAGES }.

(** Changing pages that are not free keeps the stack. *)
Lemma free_stack_frame m m' h l :
  (forall n, n ∈ l -> m' !! (n * PAGE_SIZE) = m !! (n * PAGE_SIZE)) -> free_stack m h l -> free_stack m' h l.
Proof.
  revert h. induction l as [|n l IH]; intros h Hm H; [done|]. destruct H as (-> & pg & [Hp Hl] & H).
  split; [done|]. exists pg. split; [split; [rewrite Hm by left; done|done]|]. apply IH; [|done].
  intros k Hk. apply Hm. by right.
Qed.

Lemma free_stack_head m h l : free_stack m h l -> (forall n, n ∈ l -> page_no n) -> 0 <= h < 2 ^ 64.
Proof.
  destruct l as [|n l]; cbn; [lia|]. intros (-> & _) H. apply kpage_u64, H. left.
Qed.

(** ** Operations *)

Lemma kalloc_page_wp n F s :
  page_inv (n :: F) s ->
  wp kalloc_page (fun p s' => p = kpage n /\ page_inv F s' /\ ref_of s' n = 1 /\
    (forall k, k <> n -> ref_of s' k = ref_of s k) /\ km_page s' = km_page s /\
    km_cnt s' = km_cnt s + 1 /\ km_ttbr0 s' = km_ttbr0 s) s.
Proof.
  intros [Hnd Hr Hst Hfree Hrefs Hc Hcnt]. apply NoDup_cons in Hnd as [Hn Hnd].
  assert (page_no n) as Hno by (apply Hr; left).
  destruct Hst as (Eh & pg & Hpg & Hst). unfold kalloc_page, fetch_page. wp_prims.
  cbn [set_cnt km_pages]. rewrite Eh, (proj2 (Z.eqb_neq _ _)) by by apply kpage_nonzero.
  wp_prim. rewrite <-(Z.add_0_r (kpage n)). eapply (wp_load64 n 0); [done|lia|change PAGE_SIZE with 4096; lia|exact Hpg|].
  wp_prims. rewrite K2P_kpage, page_index by (done || (change PAGE_SIZE with 4096; lia)).
  apply wp_increment_ref; [done|]. wp_prims.
  assert (ref_of s n = 0) as E0 by (apply Hfree; left).
  match goal with |- context [set_refpage (<[n := i64 (?r + 1)]> _) _] => replace r with 0 by (symmetry; exact E0) end.
  change (i64 (0 + 1)) with 1.
  set (s' := set_refpage _ _). assert (forall k, k <> n -> ref_of s' k = ref_of s k) as Hk.
  { intros k Hk. unfold ref_of, s'. cbn. by rewrite lookup_insert_ne. }
  assert (ref_of s' n = 1) as H1 by (unfold ref_of, s'; cbn; by rewrite lookup_insert_eq).
  assert (i64 (km_cnt s + 1) = km_cnt s + 1) as Ec by (unfold i64; rewrite NPAGES_eq in Hcnt; rewrite Z.mod_small; lia).
  split_and!; [lia| |done|done|done|exact Ec|done].
  split; cbn [km_cnt km_pagenum km_page km_pages set_refpage set_pages set_cnt s']; rewrite ?Ec; try done.
  - intros k Hin. apply Hr. by right.
  - intros k Hin. rewrite Hk by congruence. apply Hfree. by right.
  - intros k. destruct (decide (k = n)) as [->|]; [rewrite H1; lia|]. rewrite Hk by done. apply Hrefs.
  - rewrite Hc. cbn [length]. lia.
  - lia.
Qed.

Lemma kfree_page_wp n pg F s :
  page_inv F s -> page_no n -> page_at (km_page s) n pg -> 0 < ref_of s n -> (ref_of s n = 1 -> 0 < km_cnt s) ->
  wp (kfree_page (kpage n)) (fun _ s' =>
    page_inv (if ref_of s n =? 1 then n :: F else F) s' /\ ref_of s' n = ref_of s n - 1 /\
    (forall k, k <> n -> ref_of s' k = ref_of s k) /\
    (forall k, k <> n -> km_page s' !! (k * PAGE_SIZE) = km_page s !! (k * PAGE_SIZE)) /\
    km_cnt s' = (if ref_of s n =? 1 then km_cnt s - 1 else km_cnt s) /\ km_ttbr0 s' = km_ttbr0 s /\
    km_page s' !! (n * PAGE_SIZE) = Some (if ref_of s n =? 1 then splice 0 (le_bytes 8 (km_pages s)) pg else pg)) s.
Proof.
  intros [Hnd Hr Hst Hfree Hrefs Hc Hcnt] Hno Hpg Hpos Hcp.
  assert (n ∉ F) as HnF by (intros Hin%Hfree; lia). unfold kfree_page. rewrite <-(Z.add_0_r (kpage n)).
  rewrite K2P_kpage, page_index by (done || (change PAGE_SIZE with 4096; lia)).
  wp_prim. apply wp_decrement_ref; [done|]. pose proof (Hrefs n) as Hrn.
  assert (i64 (ref_of s n - 1) = ref_of s n - 1) as -> by (unfold i64; rewrite Z.mod_small; lia).
  set (s1 := set_refpage _ s). assert (ref_of s1 n = ref_of s n - 1) as E1 by (unfold ref_of, s1; cbn; by rewrite lookup_insert_eq).
  assert (forall k, k <> n -> ref_of s1 k = ref_of s k) as Ek.
  { intros k Hk. unfold ref_of, s1. cbn. by rewrite lookup_insert_ne. }
  assert (forall k, 0 <= ref_of s1 k < 2 ^ 62) as Hrefs1.
  { intros k. destruct (decide (k = n)) as [->|]; [lia|]. rewrite Ek by done. apply Hrefs. }
  wp_prim. apply wp_get_ref; [done|]. rewrite E1.
  destruct (Z.eqb_spec (ref_of s n) 1) as [E|E].
  - rewrite E. change (1 - 1 =? 0) with true. cbn iota. unfold add_page. wp_prims.
    eapply (wp_store64 n 0); [done|lia|change PAGE_SIZE with 4096; lia|exact Hpg|]. wp_prim.
    assert (i64 (km_cnt s - 1) = km_cnt s - 1) as Ec
      by (specialize (Hcp E); rewrite NPAGES_eq in Hcnt; unfold i64; rewrite Z.mod_small; lia).
    cbn [set_cnt set_page set_pages km_cnt km_pages s1 set_refpage]. rewrite Ec, Z.add_0_r.
    match goal with |- _ /\ ref_of ?t n = _ /\ _ => change (ref_of t) with (ref_of s1) end.
    split_and!; [|by rewrite E1, E|done| |done|done|cbn; by rewrite lookup_insert_eq].
    2: { intros k Hk. cbn. rewrite lookup_insert_ne; [done|]. change PAGE_SIZE with 4096. lia. }
    assert (page_at (<[n * PAGE_SIZE := splice (Z.to_nat 0) (le_bytes 8 (km_pages s)) pg]> (km_page s)) n
              (splice (Z.to_nat 0) (le_bytes 8 (km_pages s)) pg)) as Hnew.
    { apply page_at_insert_eq, length_splice8; [lia|change PAGE_SIZE with 4096; lia|apply Hpg]. }
    split; cbn [km_page km_pages km_cnt km_pagenum].
    + by apply NoDup_cons.
    + intros k [->|Hk]%elem_of_cons; [done|auto].
    + split; [done|]. eexists. split; [exact Hnew|]. change (Z.to_nat 0) with O.
      rewrite read_le_splice; [|destruct Hpg as [_ ->]; change PAGE_SIZE with 4096; lia|].
      * eapply free_stack_frame; [|exact Hst]. intros k Hk. cbn [km_page set_pages set_page].
        rewrite lookup_insert_ne; [done|].
        change PAGE_SIZE with 4096. assert (k <> n) by congruence. lia.
      * apply (free_stack_head _ _ _ Hst Hr).
    + intros k [->|Hk]%elem_of_cons; [change (ref_of s1 n = 0); lia|]. change (ref_of s1 k = 0).
      rewrite Ek by congruence. auto.
    + exact Hrefs1.
    + cbn. cbn in Hc. lia.
    + specialize (Hcp E). cbn. lia.
  - rewrite (proj2 (Z.eqb_neq _ _)) by lia. wp_prim. split_and!; try done; [|by destruct Hpg].
    split; try done. intros k Hk. rewrite Ek by congruence. auto.
Qed.

(** ** Properties *)

(** [kalloc_page] returns a page that nobody uses: with free pages left it
    takes one off the stack, its count becomes 1, and no other page, count or
    content changes; when none is left it indexes [refpage] out of bounds. *)
Theorem kalloc_page_spec F s :
  page_inv F s ->
  match F with
  | n :: F' => exists s', kalloc_page s = Ret (kpage n, s') /\ page_inv F' s' /\ ref_of s n = 0 /\ ref_of s' n = 1 /\
      (forall k, k <> n -> ref_of s' k = ref_of s k) /\ km_page s' = km_page s
  | [] => kalloc_page s = UB
  end.
Proof.
  intros Hinv. destruct F as [|n F].
  - destruct Hinv as [_ _ Hst _ _ _ _]. cbn in Hst. unfold kalloc_page, fetch_page, mbind, M_bind, modify, gets.
    cbn. rewrite Hst. reflexivity.
  - destruct (wp_run _ _ _ (kalloc_page_wp n F s Hinv)) as (p & s' & Hr & -> & H). exists s'.
    assert (ref_of s n = 0) by (apply (pi_free _ _ Hinv); left). naive_solver.
Qed.

(** [kfree_page] drops one reference; the last one puts the page back on
    the stack.  No other page changes, and the number of free pages stays
    [left_page_cnt]. *)
Theorem kfree_page_spec n pg F s :
  page_inv F s -> page_no n -> page_at (km_page s) n pg -> 0 < ref_of s n -> (ref_of s n = 1 -> 0 < km_cnt s) ->
  exists s', kfree_page (kpage n) s = Ret (tt, s') /\ ref_of s' n = ref_of s n - 1 /\
    page_inv (if ref_of s n =? 1 then n :: F else F) s' /\
    (forall k, k <> n -> km_page s' !! (k * PAGE_SIZE) = km_page s !! (k * PAGE_SIZE)) /\
    left_page_cnt s' = Ret (Z.of_nat (length (if ref_of s n =? 1 then n :: F else F)), s').
Proof.
  intros Hinv Hno Hpg Hpos Hcp. destruct (wp_run _ _ _ (kfree_page_wp n pg F s Hinv Hno Hpg Hpos Hcp))
    as ([] & s' & Hr & Hinv' & H1 & _ & H2 & _). exists s'. split_and!; try done.
  unfold left_page_cnt, gets. do 2 f_equal. rewrite (pi_count _ _ Hinv').
  destruct (pi_cnt _ _ Hinv') as [H3 H4]. rewrite (pi_count _ _ Hinv') in H4. rewrite NPAGES_eq in H4.
  rewrite u64_small; lia.
Qed.

(** ** A concrete memory of two free pages, 5 and 7, and one page in use, 9 *)

Definition demo_page (next : Z) : list Z := le_bytes 8 next ++ replicate 4088 0.
Definition demo_kmem : kmem :=
  mkKmem (<[5 * PAGE_SIZE := demo_page (kpage 7)]> (<[7 * PAGE_SIZE := demo_page 0]> {[ 9 * PAGE_SIZE := demo_page 0 ]}))
    (kpage 5) {[ 9 := 1 ]} 1 3 0 0.

Lemma demo_kmem_inv : page_inv [5; 7] demo_kmem.
Proof.
  split.
  - by apply (bool_decide_unpack _).
  - intros n Hn. unfold page_no. rewrite NPAGES_eq. rewrite !elem_of_cons, elem_of_nil in Hn. lia.
  - cbn [free_stack]. split; [reflexivity|]. exists (demo_page (kpage 7)). split; [done|].
    split; [vm_compute; reflexivity|]. exists (demo_page 0). split; [done|vm_compute; reflexivity].
  - intros n Hn. rewrite !elem_of_cons, elem_of_nil in Hn. destruct Hn as [->|[->|[]]]; reflexivity.
  - intros n. unfold ref_of. cbn [demo_kmem km_refpage]. rewrite lookup_singleton. case_decide; cbn; lia.
  - reflexivity.
  - rewrite NPAGES_eq. cbn. lia.
Qed.

Lemma kalloc_page_spec_witness :
  exists s', kalloc_page demo_kmem = Ret (kpage 5, s') /\ page_inv [7] s' /\ ref_of s' 5 = 1.
Proof.
  destruct (kalloc_page_spec [5; 7] demo_kmem demo_kmem_inv) as (s' & H1 & H2 & _ & H3 & _).
  exists s'. split; [exact H1|]. split; [exact H2|exact H3].
Defined.

Lemma kfree_page_spec_witness :
  exists s', kfree_page (kpage 9) demo_kmem = Ret (tt, s') /\ page_inv [9; 5; 7] s'.
Proof.
  destruct (kfree_page_spec 9 (demo_page 0) [5; 7] demo_kmem demo_kmem_inv) as (s' & H1 & _ & H2 & _).
  - unfold page_no. rewrite NPAGES_eq. lia.
  - split; reflexivity.
  - reflexivity.
  - intros _. reflexivity.
  - exists s'. split; [exact H1|exact H2].
Defined.
