(* ===== verification/LockFree.v ===== *)
(** * The page allocator on several CPUs

    File [Mem] runs [kalloc_page] and [kfree_page] without interference.  Here
    their instructions, and those of the compare-and-swap loops of
    [common/list.c] below them, run interleaved on any number of CPUs: each
    access to shared memory is a step of its own.  The clients hold references to
    pages, pass them on, free each of them once, and write into the pages they
    hold.

    As long as no page is put back while some other CPU still holds it as the
    expected head of its own compare-and-swap, and no two CPUs drop references to
    the same page at the same time, the loops are a stack.  Nothing in the kernel
    ensures either condition: by [page_stack_races] two idle CPUs can give one page
    two owners after every such execution that leaves two pages free. *)

From Stdlib Require Import ZArith Lia.
From stdpp Require Import base tactics functions numbers gmap list.
From S2P Require Import Prelude.

Local Open Scope Z_scope.

(** ** State *)

(** Where a CPU is in [kalloc_page] or [kfree_page], with its local variables. *)
Inductive pc : Type :=
  | Idle
  | FetchLoad                 (** [node = *head] *)
  | FetchNext (node : Z)      (** the load of [node->next] *)
  | FetchCas (node nx : Z)    (** the compare-and-swap of [fetch_from_queue] *)
  | AllocRef (page : Z)       (** [increment_rc(&refpage[K2P(page) / PAGE_SIZE])] *)
  | FreeTest (p : Z)          (** the test [refpage[...].count == 0] *)
  | FreeCnt (p : Z)           (** [decrement_rc(&kalloc_page_cnt)] *)
  | AddLoad (node : Z)        (** the load of [*head] in [node->next = *head] *)
  | AddStore (node h : Z)     (** its store *)
  | AddExpect (node : Z)      (** the load of the expected value, [node->next] *)
  | AddCas (node e : Z)       (** the compare-and-swap of [add_to_queue] *)
  | AddFail (node h : Z)      (** a failed one stores the value of [*head] to [node->next] *)
  | Undef.                    (** [refpage] was used at the index of NULL *)

Record lfstate : Type := mkLf {
  lf_head : Z;
  lf_next : Z -> Z;           (** the first eight bytes of each page *)
  lf_cnt : Z;
  lf_ref : Z -> Z;
  lf_pcs : nat -> pc;
  lf_held : list Z }.         (** the references that clients hold *)

Definition lf_set_head (h : Z) (s : lfstate) : lfstate := mkLf h (lf_next s) (lf_cnt s) (lf_ref s) (lf_pcs s) (lf_held s).
Definition lf_set_next (p v : Z) (s : lfstate) : lfstate := mkLf (lf_head s) (<[p := v]> (lf_next s)) (lf_cnt s) (lf_ref s) (lf_pcs s) (lf_held s).
Definition lf_set_cnt (c : Z) (s : lfstate) : lfstate := mkLf (lf_head s) (lf_next s) c (lf_ref s) (lf_pcs s) (lf_held s).
Definition lf_set_ref (p v : Z) (s : lfstate) : lfstate := mkLf (lf_head s) (lf_next s) (lf_cnt s) (<[p := v]> (lf_ref s)) (lf_pcs s) (lf_held s).
Definition lf_goto (t : nat) (c : pc) (s : lfstate) : lfstate := mkLf (lf_head s) (lf_next s) (lf_cnt s) (lf_ref s) (<[t := c]> (lf_pcs s)) (lf_held s).
Definition lf_set_held (l : list Z) (s : lfstate) : lfstate := mkLf (lf_head s) (lf_next s) (lf_cnt s) (lf_ref s) (lf_pcs s) l.

(** ** Steps *)

(** What happens to the stack. *)
Inductive sevent : Type := Push (p : Z) | Pop (p : Z) | Empty.

(** The next access of [fetch_from_queue]. *)
Definition fetch_from_queue (t : nat) (s : lfstate) : list sevent * lfstate :=
  match lf_pcs s t with
  | FetchLoad => if lf_head s =? 0 then ([Empty], lf_goto t (AllocRef 0) s) else ([], lf_goto t (FetchNext (lf_head s)) s)
  | FetchNext node => ([], lf_goto t (FetchCas node (lf_next s node)) s)
  | FetchCas node nx => if lf_head s =? node then ([Pop node], lf_goto t (AllocRef node) (lf_set_head nx s)) else ([], lf_goto t FetchLoad s)
  | _ => ([], s)
  end.

(** The next access of [add_to_queue]. *)
Definition add_to_queue (t : nat) (s : lfstate) : list sevent * lfstate :=
  match lf_pcs s t with
  | AddLoad node => ([], lf_goto t (AddStore node (lf_head s)) s)
  | AddStore node h => ([], lf_goto t (AddExpect node) (lf_set_next node h s))
  | AddExpect node => ([], lf_goto t (AddCas node (lf_next s node)) s)
  | AddCas node e => if lf_head s =? e then ([Push node], lf_goto t Idle (lf_set_head node s)) else ([], lf_goto t (AddFail node (lf_head s)) s)
  | AddFail node h => ([], lf_goto t (AddLoad node) (lf_set_next node h s))
  | _ => ([], s)
  end.

(** A step of CPU [t]. *)
Definition lf_run (t : nat) (s : lfstate) : list sevent * lfstate :=
  match lf_pcs s t with
  | FetchLoad | FetchNext _ | FetchCas _ _ => fetch_from_queue t s
  | AllocRef page =>
      if page =? 0 then ([], lf_goto t Undef s) else
      ([], lf_set_held (page :: lf_held s) (lf_goto t Idle (lf_set_ref page (i64 (lf_ref s page + 1)) s)))
  | FreeTest p => ([], lf_goto t (if lf_ref s p =? 0 then FreeCnt p else Idle) s)
  | FreeCnt p => ([], lf_goto t (AddLoad p) (lf_set_cnt (i64 (lf_cnt s - 1)) s))
  | AddLoad _ | AddStore _ _ | AddExpect _ | AddCas _ _ | AddFail _ _ => add_to_queue t s
  | Idle | Undef => ([], s)
  end.

(** The compare-and-swap is a weak one: it may fail although the value is the
    expected one. *)
Definition lf_fail (t : nat) (s : lfstate) : option lfstate :=
  match lf_pcs s t with
  | FetchCas node nx => Some (lf_goto t FetchLoad s)
  | AddCas node e => Some (lf_goto t (AddFail node (lf_head s)) s)
  | _ => None
  end.

Fixpoint drop_one (p : Z) (l : list Z) : list Z :=
  match l with [] => [] | q :: l' => if decide (q = p) then l' else q :: drop_one p l' end.

Inductive act : Type :=
  | Alloc (t : nat)           (** CPU [t] calls [kalloc_page], up to [increment_rc(&kalloc_page_cnt)] *)
  | Free (t : nat) (p : Z)    (** CPU [t] calls [kfree_page] with a reference, up to [decrement_rc(&refpage[...])] *)
  | Share (p : Z)             (** a holder of [p] makes another reference *)
  | Write (p v : Z)           (** a holder of [p] stores [v] to its first bytes *)
  | Run (t : nat)
  | Spurious (t : nat).

Definition is_idle (c : pc) : bool := match c with Idle => true | _ => false end.

Definition lf_step (a : act) (s : lfstate) : option (list sevent * lfstate) :=
  match a with
  | Alloc t => if is_idle (lf_pcs s t) then Some ([], lf_goto t FetchLoad (lf_set_cnt (i64 (lf_cnt s + 1)) s)) else None
  | Free t p =>
      if is_idle (lf_pcs s t) && bool_decide (p ∈ lf_held s)
      then Some ([], lf_set_held (drop_one p (lf_held s)) (lf_goto t (FreeTest p) (lf_set_ref p (i64 (lf_ref s p - 1)) s))) else None
  | Share p => if bool_decide (p ∈ lf_held s) then Some ([], lf_set_held (p :: lf_held s) (lf_set_ref p (i64 (lf_ref s p + 1)) s)) else None
  | Write p v => if bool_decide (p ∈ lf_held s) then Some ([], lf_set_next p v s) else None
  | Run t => Some (lf_run t s)
  | Spurious t => s' ← lf_fail t s; Some ([], s')
  end.

Fixpoint lf_exec (acts : list act) (s : lfstate) : option (list sevent * lfstate) :=
  match acts with
  | [] => Some ([], s)
  | a :: acts' => r ← lf_step a s; r' ← lf_exec acts' (snd r); Some (fst r ++ fst r', snd r')
  end.

(** After [kinit]: the free pages [F], the first of them the head. *)
Fixpoint links (F : list Z) : Z -> Z :=
  match F with [] => fun _ => 0 | p :: F' => <[p := hd 0 F']> (links F') end.
Definition lf_init (F : list Z) : lfstate := mkLf (hd 0 F) (links F) 0 (fun _ => 0) (fun _ => Idle) [].

(** ** A stack *)

Definition stack_step (e : sevent) (L : list Z) : option (list Z) :=
  match e, L with
  | Push p, _ => Some (p :: L)
  | Pop p, q :: L' => if p =? q then Some L' else None
  | Empty, [] => Some []
  | _, _ => None
  end.
Fixpoint stack_run (es : list sevent) (L : list Z) : option (list Z) :=
  match es with [] => Some L | e :: es' => L' ← stack_step e L; stack_run es' L' end.

(** ** The discipline *)

(** Some CPU takes [p] for the head, in [fetch_from_queue]. *)
Definition fetching (c : pc) (p : Z) : Prop := match c with FetchNext q | FetchCas q _ => q = p | _ => False end.

(** Two CPUs do not get in each other's way: a CPU that drops a reference to [p]
    is alone in doing so, and puts [p] back only when no other CPU takes it for
    the head.  References are fewer than 2^62. *)
Definition calm (a : act) (s : lfstate) : Prop :=
  Z.of_nat (length (lf_held s)) < 2 ^ 62 /\
  match a with
  | Free t p => forall t', lf_pcs s t' <> FreeTest p
  | Run t => forall p, lf_pcs s t = FreeCnt p -> forall t', ~ fetching (lf_pcs s t') p
  | _ => True
  end.
Fixpoint calm_run (acts : list act) (s : lfstate) : Prop :=
  match acts with
  | [] => True
  | a :: acts' => calm a s /\ forall r, lf_step a s = Some r -> calm_run acts' (snd r)
  end.

(** ** The invariant *)

Fixpoint occ (p : Z) (l : list Z) : Z := match l with [] => 0 | q :: l' => (if decide (q = p) then 1 else 0) + occ p l' end.

(** From [h] the links lead over the pages [L] to NULL. *)
Fixpoint chain (next : Z -> Z) (h : Z) (L : list Z) : Prop :=
  match L with [] => h = 0 | p :: L' => h = p /\ p <> 0 /\ chain next (next p) L' end.

(** The CPU has page [p] for itself. *)
Definition owned (ref : Z -> Z) (c : pc) (p : Z) : Prop :=
  match c with
  | AllocRef q => q = p /\ p <> 0
  | FreeTest q => q = p /\ ref p = 0
  | FreeCnt q | AddLoad q | AddStore q _ | AddExpect q | AddCas q _ | AddFail q _ => q = p
  | _ => False
  end.
(** The CPU puts [p] back. *)
Definition adding (c : pc) (p : Z) : Prop :=
  match c with AddLoad q | AddStore q _ | AddExpect q | AddCas q _ | AddFail q _ => q = p | _ => False end.

Record linv (L : list Z) (s : lfstate) : Prop := {
  li_chain : chain (lf_next s) (lf_head s) L;
  li_nodup : NoDup L;
  li_ref : forall p, lf_ref s p = occ p (lf_held s);
  li_held : forall p, p ∈ lf_held s -> (p ∉ L) /\ p <> 0;
  li_own : forall t p, owned (lf_ref s) (lf_pcs s t) p -> (p ∉ L) /\ (p ∉ lf_held s) /\ p <> 0;
  li_excl : forall t t' p, owned (lf_ref s) (lf_pcs s t) p -> owned (lf_ref s) (lf_pcs s t') p -> t = t';
  li_test : forall t t' p, lf_pcs s t = FreeTest p -> lf_pcs s t' = FreeTest p -> t = t';
  li_cas : forall t n e, lf_pcs s t = AddCas n e -> lf_next s n = e;
  li_haz : forall t p, fetching (lf_pcs s t) p -> p <> 0 /\ forall t', ~ adding (lf_pcs s t') p;
  li_seen : forall t n nx, lf_pcs s t = FetchCas n nx -> n ∈ L -> lf_next s n = nx }.

Lemma occ_pos p l : 0 <= occ p l /\ occ p l <= Z.of_nat (length l) /\ (occ p l = 0 <-> p ∉ l).
Proof.
  induction l as [|q l (IH1 & IH2 & IH3)]; cbn [occ length]; [split; [lia|]; split; [lia|]; split; [intros _; apply not_elem_of_nil|done]|].
  rewrite not_elem_of_cons. destruct (decide (q = p)) as [->|Hne]; (split; [lia|]; split; [lia|]); split; try lia; try (by intros [? _]).
  - intros H. split; [congruence|]. apply IH3. lia.
  - intros [_ H]. apply IH3 in H. lia.
Qed.
Lemma occ_cons q p l : occ q (p :: l) = if decide (q = p) then occ p l + 1 else occ q l.
Proof. cbn [occ]. repeat case_decide; subst; congruence || lia. Qed.
Lemma occ_drop q p l : p ∈ l -> occ q (drop_one p l) = if decide (q = p) then occ p l - 1 else occ q l.
Proof.
  induction l as [|x l IH]; [by intros ?%elem_of_nil|]. intros Hp. cbn [drop_one]. rewrite !occ_cons. destruct (decide (x = p)) as [->|Hne].
  - repeat case_decide; subst; congruence || lia.
  - apply elem_of_cons in Hp as [?|Hp]; [congruence|]. specialize (IH Hp). rewrite occ_cons, IH. repeat case_decide; subst; congruence || lia.
Qed.
Lemma drop_one_sub p q l : q ∈ drop_one p l -> q ∈ l.
Proof. induction l as [|x l IH]; [done|]. cbn [drop_one]. destruct (decide (x = p)); [by right|]. intros [->|H]%elem_of_cons; [left|right; auto]. Qed.

Lemma links_frame next next' h L : (forall p, p ∈ L -> next' p = next p) -> chain next h L -> chain next' h L.
Proof.
  revert h. induction L as [|p L IH]; intros h Hn; [done|]. intros (-> & Hp & Hc). split; [done|]. split; [done|]. rewrite Hn by left. apply IH; [|done].
  intros q Hq. apply Hn. by right.
Qed.
Lemma chain_head next h L : chain next h L -> h = 0 /\ L = [] \/ exists L', L = h :: L' /\ h <> 0 /\ chain next (next h) L'.
Proof. destruct L as [|p L]; [by left|]. intros (-> & Hp & Hc). right. by exists L. Qed.

Lemma i64_small z : - 2 ^ 63 <= z < 2 ^ 63 -> i64 z = z.
Proof. intros H. unfold i64. rewrite Z.mod_small by lia. lia. Qed.

(** A fact about the place of CPU [u] after CPU [t] moved. *)
Ltac at_cpu t u H :=
  destruct (decide (t = u)) as [<-|?]; [rewrite fn_lookup_insert in H|rewrite fn_lookup_insert_ne in H by done].

(** CPU [t] goes to [c]. *)
Lemma linv_goto L s t c : linv L s ->
  (forall p, owned (lf_ref s) c p -> owned (lf_ref s) (lf_pcs s t) p) -> (forall p, c = FreeTest p -> lf_pcs s t = FreeTest p) ->
  (forall n e, c = AddCas n e -> lf_next s n = e) ->
  (forall p, fetching c p -> p <> 0 /\ forall t', t' <> t -> ~ adding (lf_pcs s t') p) ->
  (forall p, adding c p -> adding (lf_pcs s t) p \/ forall t', ~ fetching (lf_pcs s t') p) ->
  (forall n nx, c = FetchCas n nx -> n ∈ L -> lf_next s n = nx) -> linv L (lf_goto t c s).
Proof.
  intros [I1 I2 I3 I4 I5 I6 I7 I8 I9 I10] H1 H2 H3 H4 H5 H6.
  split; cbn [lf_goto lf_head lf_next lf_ref lf_pcs lf_held]; try done.
  - intros t1 p Hp. at_cpu t t1 Hp; [by apply (I5 t), H1|by apply (I5 t1)].
  - intros t1 t2 p Hp Hq. apply (I6 t1 t2 p); [at_cpu t t1 Hp; auto|at_cpu t t2 Hq; auto].
  - intros t1 t2 p Hp Hq. apply (I7 t1 t2 p); [at_cpu t t1 Hp; auto|at_cpu t t2 Hq; auto].
  - intros t1 n e Hp. at_cpu t t1 Hp; [by apply H3|by apply (I8 t1)].
  - intros t1 p Hp. split; [at_cpu t t1 Hp; [by apply H4|by apply (I9 t1)]|]. intros t2 Ha. at_cpu t t1 Hp; at_cpu t t2 Ha.
    + by destruct c.
    + by apply (proj2 (H4 p Hp) t2).
    + destruct (H5 p Ha) as [Ha'|Hf]; [by apply (proj2 (I9 t1 p Hp) t)|by apply (Hf t1)].
    + by apply (proj2 (I9 t1 p Hp) t2).
  - intros t1 n nx Hp. at_cpu t t1 Hp; [by apply H6|by apply (I10 t1)].
Qed.

(** A page that is not on the stack is written. *)
Lemma linv_next L s p v : linv L s -> (p ∉ L) -> (forall t e, lf_pcs s t <> AddCas p e) -> linv L (lf_set_next p v s).
Proof.
  intros [I1 I2 I3 I4 I5 I6 I7 I8 I9 I10] Hp Hc. split; cbn [lf_set_next lf_head lf_next lf_ref lf_pcs lf_held]; try done.
  - eapply links_frame; [|exact I1]. intros q Hq. apply fn_lookup_insert_ne. by intros ->.
  - intros t n e Ht. rewrite fn_lookup_insert_ne by (intros ->; by apply (Hc t e)). by apply (I8 t).
  - intros t n nx Ht Hn. rewrite fn_lookup_insert_ne by (by intros ->). by apply (I10 t).
Qed.

Lemma linv_cnt L s c : linv L s -> linv L (lf_set_cnt c s).
Proof. by intros []. Qed.

(** ** Each step *)

(** The CPU that puts [p] back is alone with it. *)
Lemma adding_owned ref c p : adding c p -> owned ref c p.
Proof. by destruct c. Qed.

Lemma add_step L s t : linv L s -> (exists p, adding (lf_pcs s t) p) ->
  exists L', stack_run (fst (add_to_queue t s)) L = Some L' /\ linv L' (snd (add_to_queue t s)).
Proof.
  intros HI [p Hp]. pose proof (li_own _ _ HI t p (adding_owned _ _ _ Hp)) as (HpL & Hph & Hp0). unfold add_to_queue.
  assert (forall t' e, t' <> t -> lf_pcs s t' <> AddCas p e) as Hx.
  { intros t' e Hne E. apply Hne. apply (li_excl _ _ HI t' t p); [by rewrite E|by apply adding_owned]. }
  destruct (lf_pcs s t) as [| | | | | | |q|q h|q|q e|q h|] eqn:Et; try done; cbn in Hp; subst q.
  - exists L. split; [done|]. apply linv_goto; rewrite ?Et; try done. intros q <-. by left.
  - exists L. split; [done|]. apply linv_goto; cbn; rewrite ?Et; try done; [|intros q <-; by left]. apply linv_next; [done|done|]. intros t' e E.
    destruct (decide (t' = t)) as [->|Hne]; [congruence|by eapply Hx].
  - exists L. split; [done|]. apply linv_goto; rewrite ?Et; try done; [by intros n e [= <- <-]|]. intros q <-. by left.
  - destruct (Z.eqb_spec (lf_head s) e) as [Eh|Eh]; cbn [fst snd].
    + exists (p :: L). split; [done|]. destruct HI as [I1 I2 I3 I4 I5 I6 I7 I8 I9 I10].
      assert (forall t' q, owned (lf_ref s) (<[t := Idle]> (lf_pcs s) t') q -> q <> p /\ owned (lf_ref s) (lf_pcs s t') q) as Ho.
      { intros t' q Hq. at_cpu t t' Hq; [done|]. split; [|done]. intros ->. assert (t = t') by (apply (I6 t t' p); [by rewrite Et|done]). done. }
      split; cbn [lf_goto lf_set_head lf_head lf_next lf_ref lf_pcs lf_held]; try done.
      * split; [done|]. split; [done|]. by rewrite (I8 t p e Et), <-Eh.
      * by constructor.
      * intros q Hq. destruct (I4 q Hq). split; [|done]. apply not_elem_of_cons. split; [by intros ->|done].
      * intros t' q Hq. destruct (Ho t' q Hq) as [Hne Hq']. destruct (I5 t' q Hq') as (H1 & H2 & H3). split; [|done]. by apply not_elem_of_cons.
      * intros t1 t2 q Ha Hb. apply (I6 t1 t2 q); [by apply (Ho t1)|by apply (Ho t2)].
      * intros t1 t2 q Ha Hb. at_cpu t t1 Ha; [done|]. at_cpu t t2 Hb; [done|]. by apply (I7 t1 t2 q).
      * intros t1 n e' Ha. at_cpu t t1 Ha; [done|]. by apply (I8 t1).
      * intros t1 q Ha. at_cpu t t1 Ha; [done|]. destruct (I9 t1 q Ha) as [H1 H2]. split; [done|]. intros t2 Hb. at_cpu t t2 Hb; [done|]. by apply (H2 t2).
      * intros t1 n nx Ha. at_cpu t t1 Ha; [done|]. intros [->|Hn]%elem_of_cons; [|by apply (I10 t1)].
        destruct (I9 t1 p) as [_ H2]; [by rewrite Ha|]. destruct (H2 t). by rewrite Et.
    + exists L. split; [done|]. apply linv_goto; rewrite ?Et; try done. intros q <-. by left.
  - exists L. split; [done|]. apply linv_goto; cbn; rewrite ?Et; try done; [|intros q <-; by left]. apply linv_next; [done|done|]. intros t' e E.
    destruct (decide (t' = t)) as [->|Hne]; [congruence|by eapply Hx].
Qed.

Lemma fetch_step L s t : linv L s -> match lf_pcs s t with FetchLoad | FetchNext _ | FetchCas _ _ => True | _ => False end ->
  exists L', stack_run (fst (fetch_from_queue t s)) L = Some L' /\ linv L' (snd (fetch_from_queue t s)).
Proof.
  intros HI Hc. unfold fetch_from_queue. destruct (lf_pcs s t) as [| |n|n nx| | | | | | | | |] eqn:Et; try done; clear Hc.
  - destruct (chain_head _ _ _ (li_chain _ _ HI)) as [[E ->]|(L' & -> & Hh & _)].
    + rewrite E. exists []. split; [done|]. apply linv_goto; rewrite ?Et; try done. by intros p [<- ?].
    + rewrite (proj2 (Z.eqb_neq _ 0) Hh). eexists. split; [done|]. apply linv_goto; rewrite ?Et; try done. intros p Hp. cbn in Hp. subst p. split; [done|].
      intros t' _ Ha. apply (adding_owned (lf_ref s)), (li_own _ _ HI) in Ha as [Ha _]. destruct Ha. left.
  - exists L. split; [done|]. apply linv_goto; rewrite ?Et; try done.
    + intros p Hp. cbn in Hp. subst p. destruct (li_haz _ _ HI t n) as [H1 H2]; [by rewrite Et|]. split; [done|]. intros t' _. apply H2.
    + by intros m nx [= <- <-].
  - destruct (Z.eqb_spec (lf_head s) n) as [Eh|Eh]; cbn [fst snd].
    + destruct (li_haz _ _ HI t n) as [Hn _]; [by rewrite Et|]. destruct HI as [I1 I2 I3 I4 I5 I6 I7 I8 I9 I10].
      destruct (chain_head _ _ _ I1) as [[E _]|(L' & EL & _ & Hc)]; [congruence|]. rewrite Eh in EL, Hc. subst L.
      exists L'. cbn [stack_run stack_step]. rewrite Z.eqb_refl. split; [done|]. apply NoDup_cons in I2 as [HnL I2].
      assert (forall t' q, owned (lf_ref s) (<[t := AllocRef n]> (lf_pcs s) t') q -> (t' = t /\ q = n) \/ (t' <> t /\ q <> n /\ owned (lf_ref s) (lf_pcs s t') q)) as Ho.
      { intros t' q Hq. at_cpu t t' Hq; [left; by destruct Hq|]. right. split; [done|]. split; [|done]. intros ->. destruct (I5 t' n Hq) as [[] _]. left. }
      split; cbn [lf_goto lf_set_head lf_head lf_next lf_ref lf_pcs lf_held]; try done.
      * by rewrite <-(I10 t n nx Et ltac:(left)).
      * intros q Hq. destruct (I4 q Hq) as [H1 H2]. split; [|done]. intros Hin. apply H1. by right.
      * intros t' q Hq. destruct (Ho t' q Hq) as [[-> ->]|(_ & Hne & Hq')].
        -- split; [done|]. split; [|done]. intros Hin. destruct (I4 n Hin) as [[] _]. left.
        -- destruct (I5 t' q Hq') as (H1 & H2 & H3). split; [|done]. intros Hin. apply H1. by right.
      * intros t1 t2 q Ha Hb. destruct (Ho t1 q Ha) as [[? ?]|(_ & Hne & Ha')], (Ho t2 q Hb) as [[? ?]|(_ & Hne' & Hb')]; try congruence. by apply (I6 t1 t2 q).
      * intros t1 t2 q Ha Hb. at_cpu t t1 Ha; [done|]. at_cpu t t2 Hb; [done|]. by apply (I7 t1 t2 q).
      * intros t1 m e' Ha. at_cpu t t1 Ha; [done|]. by apply (I8 t1).
      * intros t1 q Ha. at_cpu t t1 Ha; [done|]. destruct (I9 t1 q Ha) as [H1 H2]. split; [done|]. intros t2 Hb. at_cpu t t2 Hb; [done|]. by apply (H2 t2).
      * intros t1 m nx' Ha Hm. at_cpu t t1 Ha; [done|]. apply (I10 t1); [done|by right].
    + exists L. split; [done|]. by apply linv_goto; rewrite ?Et.
Qed.

(** A reference more or less: [p] has a reference before or after. *)
Lemma linv_ref L s p held' r : linv L s -> (p ∉ L) -> p <> 0 -> (forall q, q ∈ held' -> q ∈ lf_held s \/ q = p) ->
  (forall q, occ q held' = if decide (q = p) then r else occ q (lf_held s)) ->
  (forall t, owned (lf_ref s) (lf_pcs s t) p -> r = 0) -> (forall t, lf_pcs s t = FreeTest p -> r = 0 -> lf_ref s p = 0) ->
  linv L (lf_set_held held' (lf_set_ref p r s)).
Proof.
  intros [I1 I2 I3 I4 I5 I6 I7 I8 I9 I10] Hp Hp0 Hh Ho H1 H2.
  assert (forall t q, owned (<[p := r]> (lf_ref s)) (lf_pcs s t) q -> owned (lf_ref s) (lf_pcs s t) q) as Hown.
  { intros t q. destruct (lf_pcs s t) eqn:Et; try done. intros [-> Hq]. split; [done|]. destruct (decide (q = p)) as [->|Hne].
    - rewrite fn_lookup_insert in Hq. by apply (H2 t).
    - by rewrite fn_lookup_insert_ne in Hq. }
  split; cbn [lf_set_held lf_set_ref lf_head lf_next lf_ref lf_pcs lf_held]; try done.
  - intros q. rewrite Ho. case_decide as E; [subst; by rewrite fn_lookup_insert|by rewrite fn_lookup_insert_ne].
  - intros q Hq. destruct (Hh q Hq) as [?| ->]; [by apply I4|done].
  - intros t q Hq. pose proof (Hown t q Hq) as Hq'. destruct (I5 t q Hq') as (K1 & K2 & K3). split; [done|]. split; [|done].
    apply occ_pos. rewrite Ho. case_decide as E; [subst; by apply (H1 t)|by apply occ_pos].
  - intros t t' q Ha Hb. apply (I6 t t' q); by apply Hown.
Qed.

(** ** Safety and refinement *)

Lemma run_step L s t : linv L s -> calm (Run t) s -> exists L', stack_run (fst (lf_run t s)) L = Some L' /\ linv L' (snd (lf_run t s)).
Proof.
  intros HI [Hlen Hc]. unfold lf_run. destruct (lf_pcs s t) as [| |n|n nx|n|p|p|n|n h|n|n e|n h|] eqn:Et;
    try (apply fetch_step; [done|by rewrite Et]); try (apply add_step; [done|eexists; rewrite Et; reflexivity]); exists L.
  - done.
  - destruct (Z.eqb_spec n 0) as [->|Hn]; (split; [done|]); cbn [snd]; [by apply linv_goto; rewrite ?Et|].
    destruct (li_own _ _ HI t n) as (H1 & H2 & _); [by rewrite Et|]. pose proof (proj2 (proj2 (proj2 (occ_pos n (lf_held s)))) H2) as H0.
    assert (linv L (lf_goto t Idle s)) as HI' by (by apply linv_goto; rewrite ?Et).
    rewrite (li_ref _ _ HI), H0. change (i64 (0 + 1)) with 1.
    apply (linv_ref L (lf_goto t Idle s) n (n :: lf_held s) 1); [done|done|done| | | |done].
    + intros q [->|Hq]%elem_of_cons; [by right|by left].
    + intros q. rewrite occ_cons. case_decide; [lia|done].
    + intros t' Ho. cbn [lf_goto lf_ref lf_pcs] in Ho. at_cpu t t' Ho; [done|]. assert (t = t'); [|done]. apply (li_excl _ _ HI t t' n); [by rewrite Et|done].
  - split; [done|]. cbn [snd]. destruct (Z.eqb_spec (lf_ref s p) 0) as [E|E]; apply linv_goto; rewrite ?Et; try done. by intros q ->.
  - split; [done|]. cbn [snd]. apply linv_goto; cbn; rewrite ?Et; try done; [by apply linv_cnt|]. intros q <-. right. by apply Hc.
  - done.
Qed.

Lemma any_step a L s es s' : linv L s -> calm a s -> lf_step a s = Some (es, s') -> exists L', stack_run es L = Some L' /\ linv L' s'.
Proof.
  intros HI Hc. pose proof (fun p => occ_pos p (lf_held s)) as Hocc. destruct a as [t|t p|p|p v|t|t]; cbn [lf_step].
  - destruct (lf_pcs s t) eqn:Et; try done. intros [= <- <-]. exists L. split; [done|]. apply linv_goto; cbn; rewrite ?Et; try done. by apply linv_cnt.
  - destruct (lf_pcs s t) eqn:Et; try done. cbn [is_idle andb]. case_bool_decide as Hp; [|done]. intros [= <- <-]. exists L. split; [done|].
    destruct Hc as [Hlen Hc]. destruct (li_held _ _ HI p Hp) as [H1 H2]. rewrite (li_ref _ _ HI).
    assert (1 <= occ p (lf_held s)) as Hpos by (destruct (Hocc p) as (? & ? & H3); destruct (Z.eq_dec (occ p (lf_held s)) 0) as [E|]; [by apply H3 in E|lia]).
    rewrite i64_small by (pose proof (Hocc p); lia).
    assert (linv L (lf_set_held (drop_one p (lf_held s)) (lf_set_ref p (occ p (lf_held s) - 1) s))) as [I1 I2 I3 I4 I5 I6 I7 I8 I9 I10].
    { apply linv_ref; [done|done|done| | | |by intros t' E; destruct (Hc t')].
      - intros q Hq. left. by eapply drop_one_sub.
      - intros q. by rewrite occ_drop by done.
      - intros t' Ho. destruct (li_own _ _ HI t' p Ho) as (_ & H3 & _). done. }
    cbn [lf_set_held lf_set_ref lf_head lf_next lf_ref lf_pcs lf_held] in *. set (ref := <[p := _]> (lf_ref s)) in *.
    assert (forall t' q, owned ref (<[t := FreeTest p]> (lf_pcs s) t') q -> t' = t /\ q = p /\ ref p = 0 \/ q <> p /\ owned ref (lf_pcs s t') q) as Ho.
    { intros t' q Hq. at_cpu t t' Hq; [left; by destruct Hq as [<- ?]|]. right. split; [|done]. intros ->.
      assert (owned (lf_ref s) (lf_pcs s t') p) as Ho; [|by destruct (li_own _ _ HI t' p Ho) as (_ & [] & _)].
      destruct (lf_pcs s t') eqn:Et'; try done. destruct Hq as [-> _]. by destruct (Hc t'). }
    split; cbn [lf_goto lf_set_held lf_set_ref lf_head lf_next lf_ref lf_pcs lf_held]; fold ref; try done.
    + intros t' q Hq. destruct (Ho t' q Hq) as [(-> & -> & E)|[_ Hq']]; [|by apply (I5 t' q)]. split; [done|]. split; [|done]. apply occ_pos. by rewrite <-I3.
    + intros t1 t2 q Ha Hb. destruct (Ho t1 q Ha) as [(? & ? & _)|[Hne Ha']], (Ho t2 q Hb) as [(? & ? & _)|[Hne' Hb']]; try congruence. by apply (I6 t1 t2 q).
    + intros t1 t2 q Ha Hb. at_cpu t t1 Ha; at_cpu t t2 Hb; try done; [injection Ha as ->; by destruct (Hc t2)|injection Hb as ->; by destruct (Hc t1)|by apply (I7 t1 t2 q)].
    + intros t1 n e Ha. at_cpu t t1 Ha; [done|]. by apply (I8 t1).
    + intros t1 q Ha. at_cpu t t1 Ha; [done|]. destruct (I9 t1 q Ha) as [K1 K2]. split; [done|]. intros t2 Hb. at_cpu t t2 Hb; [done|]. by apply (K2 t2).
    + intros t1 n nx Ha. at_cpu t t1 Ha; [done|]. by apply (I10 t1).
  - case_bool_decide as Hp; [|done]. intros [= <- <-]. exists L. split; [done|]. destruct Hc as [Hlen _]. destruct (li_held _ _ HI p Hp) as [H1 H2].
    rewrite (li_ref _ _ HI), i64_small by (pose proof (Hocc p); lia). apply linv_ref; [done|done|done| | | |].
    + intros q [->|Hq]%elem_of_cons; [by right|by left].
    + intros q. by rewrite occ_cons.
    + intros t' Ho. by destruct (li_own _ _ HI t' p Ho) as (_ & [] & _).
    + pose proof (Hocc p). lia.
  - case_bool_decide as Hp; [|done]. intros [= <- <-]. exists L. split; [done|]. apply linv_next; [done|by apply (li_held _ _ HI)|].
    intros t e E. destruct (li_own _ _ HI t p) as (_ & [] & _); [by rewrite E|done].
  - intros [= E]. destruct (run_step L s t HI Hc) as (L' & H1 & H2). exists L'. by rewrite E in H1, H2.
  - unfold lf_fail. destruct (lf_pcs s t) eqn:Et; try done; intros [= <- <-]; exists L; (split; [done|]); apply linv_goto; rewrite ?Et; try done. intros q <-. by left.
Qed.

Lemma exec_steps acts : forall L s es s', linv L s -> calm_run acts s -> lf_exec acts s = Some (es, s') -> exists L', stack_run es L = Some L' /\ linv L' s'.
Proof.
  assert (forall es es' L L', stack_run es L = Some L' -> stack_run (es ++ es') L = stack_run es' L') as Happ.
  { induction es as [|e es IH]; intros es' L L'; cbn; [by intros [= <-]|]. destruct (stack_step e L) as [L1|]; [|done]. apply IH. }
  induction acts as [|a acts IH]; intros L s es s' HI Hc; cbn [lf_exec calm_run] in *; [intros [= <- <-]; by exists L|]. destruct Hc as [Ha Hc].
  destruct (lf_step a s) as [[es1 s1]|] eqn:E1; [|done]. cbn. destruct (lf_exec acts s1) as [[es2 s2]|] eqn:E2; [|done]. cbn. intros [= <- <-].
  destruct (any_step a L s es1 s1 HI Ha E1) as (L1 & H1 & I1). destruct (IH L1 s1 es2 s2 I1 (Hc _ eq_refl) E2) as (L2 & H2 & I2).
  exists L2. split; [|done]. by rewrite (Happ es1 es2 L L1 H1).
Qed.

Lemma linv_init F : NoDup F -> (0 ∉ F) -> linv F (lf_init F).
Proof.
  intros HF H0. split; cbn; try done; try (intros ? ?%elem_of_nil; done); try (intros p ?; by apply elem_of_nil in H).
  - induction F as [|p F IH]; [done|]. apply NoDup_cons in HF as [Hp HF]. apply not_elem_of_cons in H0 as [H0 H0']. cbn. split; [done|]. split; [done|].
    rewrite fn_lookup_insert. eapply links_frame; [|by apply IH]. intros q Hq. apply fn_lookup_insert_ne. by intros ->.
Qed.

(** C23: the page allocator with its compare-and-swap loops, on any number of CPUs
    whose accesses interleave in any order, is a stack as long as the CPUs are
    calm: the pushes and pops, each at one moment inside its call, are those of a
    sequential stack that begins with the free pages; the links in memory are
    that stack; the page that a CPU is about to return is no one else's, neither
    held nor free nor about to be returned elsewhere; and every reference count is
    the number of references. *)
Theorem page_stack_linearizable F acts es s :
  NoDup F -> (0 ∉ F) -> calm_run acts (lf_init F) -> lf_exec acts (lf_init F) = Some (es, s) ->
  exists L, stack_run es F = Some L /\ chain (lf_next s) (lf_head s) L /\ NoDup L /\
    (forall p, p ∈ lf_held s -> p ∉ L) /\ (forall p, lf_ref s p = occ p (lf_held s)) /\
    (forall t p, lf_pcs s t = AllocRef p -> p <> 0 -> (p ∉ L) /\ (p ∉ lf_held s) /\ forall t', lf_pcs s t' = AllocRef p -> t' = t).
Proof.
  intros HF H0 Hc He. destruct (exec_steps acts F _ es s (linv_init F HF H0) Hc He) as (L & Hr & [I1 I2 I3 I4 I5 I6 I7 I8 I9 I10]).
  exists L. split; [done|]. split; [done|]. split; [done|]. split; [intros p Hp; by apply I4|]. split; [done|].
  intros t p Ht Hp. destruct (I5 t p) as (H1 & H2 & _); [by rewrite Ht|]. split; [done|]. split; [done|]. intros t' Ht'. apply (I6 t' t p); [by rewrite Ht'|by rewrite Ht].
Qed.

(** Two CPUs take the first page at the same time; one fails and takes the
    second.  Then the first page is put back. *)
Definition two_cpus : list act :=
  [Alloc 0; Alloc 1; Run 0; Run 1; Run 0; Run 1; Run 0; Run 1; Run 0; Run 1; Run 1; Run 1; Run 1; Free 0 1; Run 0; Run 0; Run 0; Run 0; Run 0; Run 0].

(** The discipline as a test, for executions on the first [n] CPUs. *)
Definition fetching_b (c : pc) (p : Z) : bool := match c with FetchNext q | FetchCas q _ => q =? p | _ => false end.
Definition testing_b (c : pc) (p : Z) : bool := match c with FreeTest q => q =? p | _ => false end.
Definition calm_b (n : nat) (a : act) (s : lfstate) : bool :=
  (Z.of_nat (length (lf_held s)) <? 2 ^ 62) &&
  match a with
  | Free t p => (t <? n)%nat && forallb (fun t' => negb (testing_b (lf_pcs s t') p)) (seq 0 n)
  | Run t => (t <? n)%nat && match lf_pcs s t with FreeCnt p => forallb (fun t' => negb (fetching_b (lf_pcs s t') p)) (seq 0 n) | _ => true end
  | Alloc t | Spurious t => (t <? n)%nat
  | _ => true
  end.
Fixpoint calm_run_b (n : nat) (acts : list act) (s : lfstate) : bool :=
  match acts with
  | [] => true
  | a :: acts' => calm_b n a s && match lf_step a s with Some r => calm_run_b n acts' (snd r) | None => true end
  end.

Lemma pcs_goto t u c s n : (forall v, (n <= v)%nat -> lf_pcs s v = Idle) -> (t < n)%nat -> (n <= u)%nat -> <[t := c]> (lf_pcs s) u = Idle.
Proof. intros H Ht Hu. rewrite fn_lookup_insert_ne by lia. auto. Qed.

Lemma others_idle n a s r : (forall v, (n <= v)%nat -> lf_pcs s v = Idle) -> calm_b n a s = true -> lf_step a s = Some r -> forall v, (n <= v)%nat -> lf_pcs (snd r) v = Idle.
Proof.
  intros H Hc Hs v Hv. unfold calm_b in Hc. apply andb_prop in Hc as [_ Hc].
  destruct a as [t|t p|p|p x|t|t]; cbn in Hs;
    try (destruct (bool_decide _); [|done]; injection Hs as <-; exact (H v Hv));
    try (apply andb_prop in Hc as [Hc _]); try apply Nat.ltb_lt in Hc.
  - destruct (is_idle _); [|done]. injection Hs as <-. by apply (pcs_goto t v FetchLoad (lf_set_cnt 0 s) n).
  - destruct (is_idle _ && _); [|done]. injection Hs as <-. by apply (pcs_goto t v (FreeTest p) s n).
  - injection Hs as <-. unfold lf_run, fetch_from_queue, add_to_queue. destruct (lf_pcs s t); repeat case_match; cbn; auto; by apply (pcs_goto t v _ s n).
  - unfold lf_fail in Hs. destruct (lf_pcs s t); try done; injection Hs as <-; cbn; by apply (pcs_goto t v _ s n).
Qed.

Lemma calm_b_sound n a s : (forall v, (n <= v)%nat -> lf_pcs s v = Idle) -> calm_b n a s = true -> calm a s.
Proof.
  intros H Hc. unfold calm_b in Hc. apply andb_prop in Hc as [Hl Hc]. split; [by apply Z.ltb_lt|].
  assert (forall f : nat -> bool, forallb f (seq 0 n) = true -> (forall v, (n <= v)%nat -> f v = true) -> forall v, f v = true) as Hall.
  { intros f Hf Hn v. destruct (le_lt_dec n v) as [|Hv]; [by apply Hn|]. rewrite forallb_forall in Hf. apply Hf, in_seq. lia. }
  destruct a as [t|t p|p|p x|t|t]; try done; apply andb_prop in Hc as [_ Hc].
  - intros t' E. pose proof (Hall _ Hc) as K. specialize (K ltac:(intros v Hv; cbn beta; by rewrite (H v Hv)) t'). cbn beta in K. rewrite E in K. cbn in K. by rewrite Z.eqb_refl in K.
  - intros p E t' Hf. rewrite E in Hc. pose proof (Hall _ Hc) as K. specialize (K ltac:(intros v Hv; cbn beta; by rewrite (H v Hv)) t'). cbn beta in K.
    destruct (lf_pcs s t'); try done; cbn in *; subst; by rewrite Z.eqb_refl in K.
Qed.

Lemma calm_run_b_sound n acts : forall s, (forall v, (n <= v)%nat -> lf_pcs s v = Idle) -> calm_run_b n acts s = true -> calm_run acts s.
Proof.
  induction acts as [|a acts IH]; intros s H Hc; [done|]. cbn in Hc. apply andb_prop in Hc as [Ha Hc]. split; [by eapply calm_b_sound|].
  intros r Er. rewrite Er in Hc. apply IH; [by eapply others_idle|done].
Qed.

Lemma page_stack_linearizable_witness : exists s L, lf_exec two_cpus (lf_init [1; 2; 3]) = Some ([Pop 1; Pop 2; Push 1], s) /\
  chain (lf_next s) (lf_head s) L /\ lf_held s = [2] /\ L = [1; 3].
Proof.
  destruct (page_stack_linearizable [1; 2; 3] two_cpus [Pop 1; Pop 2; Push 1] (snd (default ([], lf_init []) (lf_exec two_cpus (lf_init [1; 2; 3])))))
    as (L & H1 & H2 & _).
  - apply (bool_decide_unpack _). vm_compute. exact I.
  - apply (bool_decide_unpack _). vm_compute. exact I.
  - apply (calm_run_b_sound 2); [done|]. vm_compute. reflexivity.
  - vm_compute. reflexivity.
  - cbn in H1. injection H1 as <-. eexists _, [1; 3]. split; [|split; [exact H2|]; split; [|reflexivity]]; vm_compute; reflexivity.
Defined.

(** ** Without the discipline *)

Lemma acts_app acts acts' s es1 s1 es2 s2 : lf_exec acts s = Some (es1, s1) -> lf_exec acts' s1 = Some (es2, s2) -> lf_exec (acts ++ acts') s = Some (es1 ++ es2, s2).
Proof.
  revert s es1. induction acts as [|a acts IH]; intros s es1; cbn [lf_exec app]; [by intros [= <- <-]|].
  destruct (lf_step a s) as [[e s']|]; [|done]. cbn. destruct (lf_exec acts s') as [[e' s'']|] eqn:E; [|done]. cbn. intros [= <- <-] H2.
  by rewrite (IH _ _ E H2), <-app_assoc.
Qed.
Lemma acts_cons a acts s e s1 es es' s' : lf_step a s = Some (e, s1) -> lf_exec acts s1 = Some (es, s') -> es' = e ++ es -> lf_exec (a :: acts) s = Some (es', s').
Proof. cbn [lf_exec]. intros -> H ->. cbn. by rewrite H. Qed.

(** The state by its parts, the functions among them up to their values. *)
Record turned (h : Z) (nx rf : Z -> Z) (hl : list Z) (cs : nat -> pc) (s : lfstate) : Prop := {
  tu_head : lf_head s = h;
  tu_next : forall p, lf_next s p = nx p;
  tu_ref : forall p, lf_ref s p = rf p;
  tu_held : lf_held s = hl;
  tu_pcs : forall v, lf_pcs s v = cs v }.

(** One access of a CPU whose place is known. *)
Ltac lf_cbn := cbn [lf_head lf_next lf_cnt lf_ref lf_pcs lf_held lf_goto lf_set_head lf_set_cnt lf_set_ref lf_set_next lf_set_held is_idle andb].
Ltac access tac :=
  eapply acts_cons; [unfold lf_step, lf_run, fetch_from_queue, add_to_queue; lf_cbn; rewrite ?fn_lookup_insert; lf_cbn; tac; reflexivity| |reflexivity].
(** Updates of one function, at each argument. *)
Ltac at_args := repeat match goal with
  | |- context [<[?i := _]> _ ?v] => destruct (decide (i = v)) as [->|]; [rewrite !fn_lookup_insert|rewrite !(fn_lookup_insert_ne _ i v) by done]
  end.
Ltac by_parts := split; lf_cbn; first [reflexivity|intros ?; at_args; first [reflexivity|congruence]].

(** [kalloc_page] up to its compare-and-swap, the rest of it, and [kfree_page]
    after it found the count zero, without other CPUs between. *)
Definition fetch_loads (t : nat) : list act := [Alloc t; Run t; Run t].
Definition fetch_swap (t : nat) : list act := [Run t; Run t].
Definition put_back (t : nat) : list act := [Run t; Run t; Run t; Run t; Run t].

Lemma run_peek t s : lf_pcs s t = Idle -> lf_head s <> 0 ->
  exists s', lf_exec (fetch_loads t) s = Some ([], s') /\ turned (lf_head s) (lf_next s) (lf_ref s) (lf_held s) (<[t := FetchCas (lf_head s) (lf_next s (lf_head s))]> (lf_pcs s)) s'.
Proof.
  intros Ht Hp. eexists. split; [|].
  - access ltac:(rewrite Ht). access ltac:(rewrite (proj2 (Z.eqb_neq _ _) Hp)). access idtac. reflexivity.
  - by_parts.
Qed.
Lemma run_pop t s nx : lf_pcs s t = FetchCas (lf_head s) nx -> lf_head s <> 0 ->
  exists s', lf_exec (fetch_swap t) s = Some ([Pop (lf_head s)], s') /\
    turned nx (lf_next s) (<[lf_head s := i64 (lf_ref s (lf_head s) + 1)]> (lf_ref s)) (lf_head s :: lf_held s) (<[t := Idle]> (lf_pcs s)) s'.
Proof.
  intros Ht Hp. eexists. split; [|].
  - access ltac:(rewrite Ht, Z.eqb_refl). access ltac:(rewrite (proj2 (Z.eqb_neq _ _) Hp)). reflexivity.
  - by_parts.
Qed.
Lemma run_drop t p s : lf_pcs s t = Idle -> p ∈ lf_held s ->
  exists s', lf_exec [Free t p] s = Some ([], s') /\
    turned (lf_head s) (lf_next s) (<[p := i64 (lf_ref s p - 1)]> (lf_ref s)) (drop_one p (lf_held s)) (<[t := FreeTest p]> (lf_pcs s)) s'.
Proof.
  intros Ht Hp. eexists. split; [|].
  - access ltac:(rewrite Ht, (bool_decide_eq_true_2 _ Hp)). reflexivity.
  - by_parts.
Qed.
Lemma run_test t p s : lf_pcs s t = FreeTest p -> lf_ref s p = 0 ->
  exists s', lf_exec [Run t] s = Some ([], s') /\ turned (lf_head s) (lf_next s) (lf_ref s) (lf_held s) (<[t := FreeCnt p]> (lf_pcs s)) s'.
Proof.
  intros Ht Hp. eexists. split; [|].
  - access ltac:(rewrite Ht, Hp). reflexivity.
  - by_parts.
Qed.
Lemma run_push t p s : lf_pcs s t = FreeCnt p ->
  exists s', lf_exec (put_back t) s = Some ([Push p], s') /\ turned p (<[p := lf_head s]> (lf_next s)) (lf_ref s) (lf_held s) (<[t := Idle]> (lf_pcs s)) s'.
Proof.
  intros Ht. eexists. split; [|].
  - access ltac:(rewrite Ht). access idtac. access idtac. access idtac. access ltac:(rewrite Z.eqb_refl). reflexivity.
  - by_parts.
Qed.
Lemma run_alloc t s : lf_pcs s t = Idle -> lf_head s <> 0 ->
  exists s', lf_exec (fetch_loads t ++ fetch_swap t) s = Some ([Pop (lf_head s)], s') /\
    turned (lf_next s (lf_head s)) (lf_next s) (<[lf_head s := i64 (lf_ref s (lf_head s) + 1)]> (lf_ref s)) (lf_head s :: lf_held s) (lf_pcs s) s'.
Proof.
  intros Ht Hp. destruct (run_peek t s Ht Hp) as (s1 & E1 & [T1 T2 T3 T4 T5]).
  destruct (run_pop t s1 (lf_next s (lf_head s))) as (s2 & E2 & [U1 U2 U3 U4 U5]); [by rewrite T5, T1, fn_lookup_insert|by rewrite T1|].
  exists s2. rewrite T1 in *. split; [exact (acts_app _ _ _ _ _ _ _ E1 E2)|]. split.
  - done.
  - intros p. by rewrite U2.
  - intros p. rewrite U3, T3. at_args; [done|]. by rewrite T3.
  - by rewrite U4, T4.
  - intros v. rewrite U5. at_args; [done|]. rewrite T5. by at_args.
Qed.
(** CPU [t] reads the head, page [a], and its link; then CPU [u] allocates [a]
    and the page below it and puts [a] back; [t] goes on and [u] allocates again. *)
Definition aba (a : Z) (t u : nat) : list act :=
  fetch_loads t ++ (fetch_loads u ++ fetch_swap u) ++ (fetch_loads u ++ fetch_swap u) ++ [Free u a] ++ [Run u] ++ put_back u ++ fetch_swap t ++ (fetch_loads u ++ fetch_swap u).
(** Page [a] has two references, and two CPUs drop them at the same time; then
    both allocate a page. *)
Definition double_free (a : Z) (t u : nat) : list act :=
  (fetch_loads t ++ fetch_swap t) ++ [Share a] ++ [Free t a] ++ [Free u a] ++ [Run t] ++ [Run u] ++ put_back t ++ put_back u ++ (fetch_loads t ++ fetch_swap t) ++ (fetch_loads u ++ fetch_swap u).

Lemma run_share p s : p ∈ lf_held s -> exists s', lf_exec [Share p] s = Some ([], s') /\
  turned (lf_head s) (lf_next s) (<[p := i64 (lf_ref s p + 1)]> (lf_ref s)) (p :: lf_held s) (lf_pcs s) s'.
Proof.
  intros Hp. eexists. split.
  - access ltac:(rewrite (bool_decide_eq_true_2 _ Hp)). reflexivity.
  - by_parts.
Qed.

Lemma aba_run a b t u s : t <> u -> a <> b -> a <> 0 -> b <> 0 -> lf_pcs s t = Idle -> lf_pcs s u = Idle -> lf_head s = a -> lf_next s a = b -> lf_ref s a = 0 ->
  exists s', lf_exec (aba a t u) s = Some ([Pop a; Pop b; Push a; Pop a; Pop b], s') /\ lf_held s' = b :: a :: b :: lf_held s.
Proof.
  intros Htu Hab Ha Hb It Iu Hh Hn Hr.
  destruct (run_peek t s It) as (s1 & E1 & [A1 A2 A3 A4 A5]); [congruence|]. rewrite Hh, Hn in *.
  destruct (run_alloc u s1) as (s2 & E2 & [B1 B2 B3 B4 B5]); [by rewrite A5, fn_lookup_insert_ne|congruence|]. rewrite A1, A2, A3, A4, Hn, Hr in *.
  destruct (run_alloc u s2) as (s3 & E3 & [C1 C2 C3 C4 C5]); [by rewrite B5, A5, fn_lookup_insert_ne|congruence|]. rewrite B1, B4 in *.
  destruct (run_drop u a s3) as (s4 & E4 & [D1 D2 D3 D4 D5]); [by rewrite C5, B5, A5, fn_lookup_insert_ne|rewrite C4; right; left|].
  destruct (run_test u a s4) as (s5 & E5 & [F1 F2 F3 F4 F5]).
  { by rewrite D5, fn_lookup_insert. }
  { rewrite D3, fn_lookup_insert, C3, fn_lookup_insert_ne, B3, fn_lookup_insert by done. reflexivity. }
  destruct (run_push u a s5) as (s6 & E6 & [G1 G2 G3 G4 G5]); [by rewrite F5, fn_lookup_insert|].
  destruct (run_pop t s6 b) as (s7 & E7 & [H1 H2 H3 H4 H5]).
  { by rewrite G5, fn_lookup_insert_ne, F5, fn_lookup_insert_ne, D5, fn_lookup_insert_ne, C5, B5, A5, fn_lookup_insert, G1 by done. }
  { by rewrite G1. }
  rewrite G1 in *.
  destruct (run_alloc u s7) as (s8 & E8 & [K1 K2 K3 K4 K5]); [by rewrite H5, fn_lookup_insert_ne, G5, fn_lookup_insert by done|by rewrite H1|].
  rewrite H1 in *. exists s8. split.
  - unfold aba. change [Pop a; Pop b; Push a; Pop a; Pop b] with ([] ++ [Pop a] ++ [Pop b] ++ [] ++ [] ++ [Push a] ++ [Pop a] ++ [Pop b]).
    do 7 (eapply acts_app; [eassumption|]). exact E8.
  - rewrite K4, H4, G4, F4, D4, C4. cbn [drop_one]. rewrite decide_False by done. by rewrite decide_True.
Qed.

Lemma double_free_run a t u s : t <> u -> a <> 0 -> lf_pcs s t = Idle -> lf_pcs s u = Idle -> lf_head s = a -> lf_ref s a = 0 ->
  exists s', lf_exec (double_free a t u) s = Some ([Pop a; Push a; Push a; Pop a; Pop a], s') /\ lf_held s' = a :: a :: lf_held s /\ lf_next s' a = a.
Proof.
  intros Htu Ha It Iu Hh Hr.
  destruct (run_alloc t s It) as (s1 & E1 & [A1 A2 A3 A4 A5]); [congruence|]. rewrite Hh, Hr in *.
  destruct (run_share a s1) as (s2 & E2 & [B1 B2 B3 B4 B5]); [rewrite A4; left|].
  destruct (run_drop t a s2) as (s3 & E3 & [C1 C2 C3 C4 C5]); [by rewrite B5, A5|rewrite B4; left|].
  rewrite B4, A4 in C4. cbn [drop_one] in C4. rewrite decide_True in C4 by done.
  destruct (run_drop u a s3) as (s4 & E4 & [D1 D2 D3 D4 D5]); [by rewrite C5, fn_lookup_insert_ne, B5, A5 by done|rewrite C4; left|].
  rewrite C4 in D4. cbn [drop_one] in D4. rewrite decide_True in D4 by done.
  assert (lf_ref s4 a = 0) as Hz by (rewrite D3, fn_lookup_insert, C3, fn_lookup_insert, B3, fn_lookup_insert, A3, fn_lookup_insert; reflexivity).
  destruct (run_test t a s4) as (s5 & E5 & [F1 F2 F3 F4 F5]); [by rewrite D5, fn_lookup_insert_ne, C5, fn_lookup_insert by done|done|].
  destruct (run_test u a s5) as (s6 & E6 & [G1 G2 G3 G4 G5]); [by rewrite F5, fn_lookup_insert_ne, D5, fn_lookup_insert by done|by rewrite F3|].
  destruct (run_push t a s6) as (s7 & E7 & [H1 H2 H3 H4 H5]); [by rewrite G5, fn_lookup_insert_ne, F5, fn_lookup_insert by done|].
  destruct (run_push u a s7) as (s8 & E8 & [K1 K2 K3 K4 K5]); [by rewrite H5, fn_lookup_insert_ne, G5, fn_lookup_insert by done|].
  assert (lf_next s8 a = a) as Hself by (by rewrite K2, fn_lookup_insert).
  destruct (run_alloc t s8) as (s9 & E9 & [L1 L2 L3 L4 L5]); [by rewrite K5, fn_lookup_insert_ne, H5, fn_lookup_insert by done|congruence|]. rewrite K1, Hself in *.
  destruct (run_alloc u s9) as (s10 & E10 & [M1 M2 M3 M4 M5]); [by rewrite L5, K5, fn_lookup_insert|congruence|]. rewrite L1 in *.
  exists s10. split; [|split].
  - unfold double_free. change [Pop a; Push a; Push a; Pop a; Pop a] with ([Pop a] ++ [] ++ [] ++ [] ++ [] ++ [] ++ [Push a] ++ [Push a] ++ [Pop a] ++ [Pop a]).
    do 9 (eapply acts_app; [eassumption|]). exact E10.
  - rewrite M4, L4, K4, H4, G4, F4, D4. done.
  - by rewrite M2, L2.
Qed.

(** C24: nothing in the loops replaces the conditions of being calm.  After every
    calm execution that leaves two CPUs idle and two pages or more free, these
    CPUs can go on, using each reference once, so that a page gets two owners, in
    two ways.  In the first, the compare-and-swap of [fetch_from_queue] succeeds
    although the link it read is out of date: the pops are no longer those of a
    stack, and the second page, which CPU [u] still holds, is given out a second
    time.  In the second, both calls of [kfree_page] see the count zero and put
    the first page back; it is linked to itself and given to both CPUs. *)
Theorem page_stack_races F acts es s a b L t u :
  NoDup F -> (0 ∉ F) -> calm_run acts (lf_init F) -> lf_exec acts (lf_init F) = Some (es, s) -> stack_run es F = Some (a :: b :: L) ->
  t <> u -> lf_pcs s t = Idle -> lf_pcs s u = Idle ->
  (exists es1 s1, lf_exec (aba a t u) s = Some (es1, s1) /\ stack_run es1 (a :: b :: L) = None /\ lf_held s1 = b :: a :: b :: lf_held s) /\
  (exists s2, lf_exec (double_free a t u) s = Some ([Pop a; Push a; Push a; Pop a; Pop a], s2) /\ lf_held s2 = a :: a :: lf_held s /\ lf_next s2 a = a).
Proof.
  intros HF H0 Hc He Hs Htu It Iu. destruct (exec_steps acts F _ es s (linv_init F HF H0) Hc He) as (L' & Hr & HI). rewrite Hs in Hr. injection Hr as <-.
  destruct (li_chain _ _ HI) as (Hh & Ha & Hn & Hb & _). pose proof (li_nodup _ _ HI) as Hd. apply NoDup_cons in Hd as [Hab Hd]. apply NoDup_cons in Hd as [HbL _].
  assert (lf_ref s a = 0) as Hz. { rewrite (li_ref _ _ HI). apply occ_pos. intros Hin. destruct (li_held _ _ HI a Hin) as [[] _]. left. }
  assert (a <> b) as Hne by (intros ->; apply Hab; left). split.
  - destruct (aba_run a b t u s Htu Hne Ha Hb It Iu Hh Hn Hz) as (s1 & E1 & E2). exists [Pop a; Pop b; Push a; Pop a; Pop b], s1. split; [done|]. split; [|done].
    cbn. rewrite !Z.eqb_refl. cbn. rewrite !Z.eqb_refl. cbn. destruct L as [|c L]; [done|]. destruct (Z.eqb_spec b c) as [->|]; [|done]. exfalso. apply HbL. left.
  - exact (double_free_run a t u s Htu Ha It Iu Hh Hz).
Qed.

(** After the calm execution above pages 1 and 3 are free and page 2 is held. *)
Lemma page_stack_races_witness : exists es s es1 s1, lf_exec two_cpus (lf_init [1; 2; 3]) = Some (es, s) /\ lf_exec (aba 1 0 1) s = Some (es1, s1) /\
  stack_run es1 [1; 3] = None /\ lf_held s1 = [3; 1; 3; 2].
Proof.
  set (s := snd (default ([], lf_init []) (lf_exec two_cpus (lf_init [1; 2; 3])))).
  assert (lf_exec two_cpus (lf_init [1; 2; 3]) = Some ([Pop 1; Pop 2; Push 1], s)) as E by (vm_compute; reflexivity).
  destruct (page_stack_races [1; 2; 3] two_cpus [Pop 1; Pop 2; Push 1] s 1 3 [] 0 1) as [(es1 & s1 & E1 & E2 & E3) _].
  - apply (bool_decide_unpack _). vm_compute. exact I.
  - apply (bool_decide_unpack _). vm_compute. exact I.
  - apply (calm_run_b_sound 2); [reflexivity|]. vm_compute. reflexivity.
  - exact E.
  - reflexivity.
  - discriminate.
  - vm_compute. reflexivity.
  - vm_compute. reflexivity.
  - exists [Pop 1; Pop 2; Push 1], s, es1, s1. split; [exact E|]. split; [exact E1|]. split; [exact E2|exact E3].
Defined.
