(* ===== verification/Spinlock.v ===== *)
(** * Spin locks: [common/spinlock.c]

    The other files take a lock in one step and run what it protects without
    interference.  Here the accesses of [acquire_spinlock] and [release_spinlock]
    on any number of CPUs interleave, and the protected code is a list of accesses
    to the data, one step each.  Every schedule has the effect of the critical
    sections run one after the other, in the order in which the lock was taken. *)

From Stdlib Require Import ZArith Lia.
From stdpp Require Import base tactics functions list.
From S2P Require Import Prelude.

Section spin.
Context {D : Type}.
Abbreviation crit := (list (D -> D)).

(** Where a CPU is. *)
Inductive spc : Type :=
  | Out                      (** outside *)
  | Try (sec : crit)         (** [!lock->locked] *)
  | Tas (sec : crit)         (** [__atomic_test_and_set] *)
  | In (rest : crit).        (** holds the lock; the accesses that remain *)

(** [sl_todo]: the critical sections each CPU has yet to ask for. *)
Record slstate : Type := mkSl {
  sl_locked : bool;
  sl_data : D;
  sl_pcs : nat -> spc;
  sl_todo : nat -> list crit }.

Definition sl_goto (c : nat) (p : spc) (s : slstate) : slstate := mkSl (sl_locked s) (sl_data s) (<[c := p]> (sl_pcs s)) (sl_todo s).
Definition sl_set_locked (b : bool) (s : slstate) : slstate := mkSl b (sl_data s) (sl_pcs s) (sl_todo s).
Definition sl_set_data (d : D) (s : slstate) : slstate := mkSl (sl_locked s) d (sl_pcs s) (sl_todo s).
Definition sl_set_todo (c : nat) (l : list crit) (s : slstate) : slstate := mkSl (sl_locked s) (sl_data s) (sl_pcs s) (<[c := l]> (sl_todo s)).

(** [init_spinlock]. *)
Definition init_spinlock (d : D) (prog : nat -> list crit) : slstate := mkSl false d (fun _ => Out) prog.

(** The next access of [try_acquire_spinlock]: the lock may be taken. *)
Definition try_acquire_spinlock (c : nat) (s : slstate) : list (nat * crit) * slstate :=
  match sl_pcs s c with
  | Try sec => ([], if sl_locked s then s else sl_goto c (Tas sec) s)
  | Tas sec =>
      if sl_locked s then ([], sl_goto c (Try sec) (sl_set_locked true s))
      else ([(c, sec)], sl_goto c (In sec) (sl_set_locked true s))
  | _ => ([], s)
  end.

Definition release_spinlock (s : slstate) : slstate := sl_set_locked false s.

(** A step of CPU [c]; [acquire_spinlock] tries again until it has the lock. *)
Definition sl_step (c : nat) (s : slstate) : list (nat * crit) * slstate :=
  match sl_pcs s c with
  | Out =>
      match sl_todo s c with
      | [] => ([], s)
      | sec :: l => ([], sl_goto c (Try sec) (sl_set_todo c l s))
      end
  | Try _ | Tas _ => try_acquire_spinlock c s
  | In (f :: rest) => ([], sl_goto c (In rest) (sl_set_data (f (sl_data s)) s))
  | In [] => ([], sl_goto c Out (release_spinlock s))
  end.

(** The steps of a schedule; the locks taken, in order. *)
Fixpoint sl_run (l : list nat) (s : slstate) : list (nat * crit) * slstate :=
  match l with
  | [] => ([], s)
  | c :: l' => let '(e, s1) := sl_step c s in let '(es, s2) := sl_run l' s1 in (e ++ es, s2)
  end.

(** ** Sections in sequence *)

Definition apply_all (sec : crit) (d : D) : D := foldl (fun d f => f d) d sec.
Definition replay (log : list (nat * crit)) (d : D) : D := foldl (fun d e => apply_all e.2 d) d log.
Definition of_cpu (c : nat) (log : list (nat * crit)) : list crit := (filter (fun e => e.1 = c) log).*2.
Definition pending (p : spc) : list crit := match p with Try sec | Tas sec => [sec] | _ => [] end.

(** CPU [c] holds the lock, and has done [fin] of its critical section. *)
Definition holds (d0 : D) (log : list (nat * crit)) (s : slstate) (c : nat) : Prop :=
  exists log0 fin rest, sl_pcs s c = In rest /\ log = log0 ++ [(c, fin ++ rest)] /\ sl_data s = apply_all fin (replay log0 d0).

Record sl_inv (d0 : D) (prog : nat -> list crit) (log : list (nat * crit)) (s : slstate) : Prop := {
  si_prog : forall c, prog c = of_cpu c log ++ pending (sl_pcs s c) ++ sl_todo s c;
  si_one : forall c c' r r', sl_pcs s c = In r -> sl_pcs s c' = In r' -> c = c';
  si_free : sl_locked s = false -> (forall c r, sl_pcs s c <> In r) /\ sl_data s = replay log d0;
  si_held : sl_locked s = true -> exists c, holds d0 log s c }.

Lemma of_cpu_app c log log' : of_cpu c (log ++ log') = of_cpu c log ++ of_cpu c log'.
Proof. unfold of_cpu. by rewrite filter_app, fmap_app. Qed.
Lemma replay_snoc log c sec d : replay (log ++ [(c, sec)]) d = apply_all sec (replay log d).
Proof. unfold replay. by rewrite foldl_app. Qed.
Lemma apply_snoc sec f d : apply_all (sec ++ [f]) d = f (apply_all sec d).
Proof. unfold apply_all. by rewrite foldl_app. Qed.

Definition not_in (p : spc) : Prop := forall r, p <> In r.

(** A step outside of the critical section. *)
Lemma sl_inv_move d0 prog log s c p s1 :
  sl_inv d0 prog log s -> not_in (sl_pcs s c) -> not_in p ->
  sl_locked s1 = sl_locked s -> sl_data s1 = sl_data s -> sl_pcs s1 = <[c := p]> (sl_pcs s) ->
  (forall c', c' <> c -> sl_todo s1 c' = sl_todo s c') -> pending p ++ sl_todo s1 c = pending (sl_pcs s c) ++ sl_todo s c ->
  sl_inv d0 prog log s1.
Proof.
  intros [Hp H1 Hf Hh] Hn Hn' El Ed Ep Et Ec.
  assert (forall c' r, sl_pcs s1 c' = In r <-> sl_pcs s c' = In r) as E.
  { intros c' r. rewrite Ep. destruct (decide (c' = c)) as [->|]; [|by rewrite fn_lookup_insert_ne]. rewrite fn_lookup_insert. split; intros H'; [by destruct (Hn' r)|by destruct (Hn r)]. }
  split.
  - intros c'. rewrite (Hp c'). f_equal. destruct (decide (c' = c)) as [->|Hc]; [by rewrite Ep, fn_lookup_insert|]. by rewrite Ep, fn_lookup_insert_ne, Et.
  - intros c1 c2 r1 r2 G1%E G2%E. by eapply H1.
  - rewrite El, Ed. intros H'. destruct (Hf H') as [F1 F2]. split; [|done]. intros c' r G%E. by eapply F1.
  - rewrite El. intros H'. destruct (Hh H') as (c' & l0 & fin & rest & G1 & G2 & G3). exists c', l0, fin, rest. rewrite Ed. split; [by apply E|done].
Qed.

Lemma acquire_inv d0 prog log s c sec :
  sl_inv d0 prog log s -> sl_pcs s c = Tas sec -> sl_locked s = false -> sl_inv d0 prog (log ++ [(c, sec)]) (sl_goto c (In sec) (sl_set_locked true s)).
Proof.
  intros [Hp H1 Hf _] Hc Hl. destruct (Hf Hl) as [Hn Hd]. split; cbn.
  - intros c'. rewrite of_cpu_app, (Hp c'), <-app_assoc. f_equal. unfold of_cpu. rewrite filter_cons. cbn. destruct (decide (c = c')) as [->|Hne].
    + by rewrite fn_lookup_insert, Hc.
    + by rewrite fn_lookup_insert_ne by done.
  - intros c1 c2 r1 r2 G1 G2. destruct (decide (c1 = c)) as [->|N1]; destruct (decide (c2 = c)) as [->|N2]; [done| | |];
      rewrite ?(fn_lookup_insert_ne _ _ _ _ (not_eq_sym N1)), ?(fn_lookup_insert_ne _ _ _ _ (not_eq_sym N2)) in *; by edestruct Hn.
  - done.
  - intros _. exists c, log, [], sec. cbn. by rewrite fn_lookup_insert.
Qed.

Lemma access_inv d0 prog log s c f rest :
  sl_inv d0 prog log s -> sl_pcs s c = In (f :: rest) -> sl_inv d0 prog log (sl_goto c (In rest) (sl_set_data (f (sl_data s)) s)).
Proof.
  intros [Hp H1 Hf Hh] Hc. destruct (sl_locked s) eqn:El; [|by destruct (proj1 (Hf eq_refl) c (f :: rest))].
  destruct (Hh eq_refl) as (c' & l0 & fin & r & G1 & -> & G3). pose proof (H1 _ _ _ _ Hc G1) as <-. rewrite Hc in G1. injection G1 as <-.
  split; cbn; rewrite ?El.
  - intros c'. rewrite (Hp c'). f_equal. destruct (decide (c = c')) as [->|Hne]; [by rewrite fn_lookup_insert, Hc|by rewrite fn_lookup_insert_ne].
  - assert (forall c1 r1, (<[c:=In rest]> (sl_pcs s)) c1 = In r1 -> c1 = c) as E.
    { intros c1 r1. destruct (decide (c1 = c)) as [->|Hne]; [done|]. rewrite fn_lookup_insert_ne by done. intros G. by eapply H1. }
    intros c1 c2 r1 r2 G1%E G2%E. congruence.
  - done.
  - intros _. exists c, l0, (fin ++ [f]), rest. cbn. rewrite fn_lookup_insert, apply_snoc, G3, <-app_assoc. done.
Qed.

Lemma release_inv d0 prog log s c :
  sl_inv d0 prog log s -> sl_pcs s c = In [] -> sl_inv d0 prog log (sl_goto c Out (release_spinlock s)).
Proof.
  intros [Hp H1 Hf Hh] Hc. destruct (sl_locked s) eqn:El; [|by destruct (proj1 (Hf eq_refl) c [])].
  destruct (Hh eq_refl) as (c' & l0 & fin & r & G1 & -> & G3). pose proof (H1 _ _ _ _ Hc G1) as <-. rewrite Hc in G1. injection G1 as <-.
  assert (forall c1 r1, (<[c:=Out]> (sl_pcs s)) c1 <> In r1) as E.
  { intros c1 r1. destruct (decide (c1 = c)) as [->|Hne]; [by rewrite fn_lookup_insert|]. rewrite fn_lookup_insert_ne by done. intros G. apply Hne. by eapply H1. }
  split; cbn.
  - intros c'. rewrite (Hp c'). f_equal. destruct (decide (c = c')) as [->|Hne]; [by rewrite fn_lookup_insert, Hc|by rewrite fn_lookup_insert_ne].
  - intros c1 c2 r1 r2 G. by destruct (E c1 r1).
  - intros _. split; [done|]. by rewrite app_nil_r, replay_snoc.
  - done.
Qed.

Lemma sl_step_inv d0 prog log s c e s1 : sl_inv d0 prog log s -> sl_step c s = (e, s1) -> sl_inv d0 prog (log ++ e) s1.
Proof.
  intros H. unfold sl_step, try_acquire_spinlock. destruct (sl_pcs s c) as [|sec|sec|[|f rest]] eqn:Hc.
  - destruct (sl_todo s c) as [|sec l] eqn:Ht; intros [= <- <-]; rewrite app_nil_r; [done|].
    apply (sl_inv_move _ _ _ s c (Try sec)); cbn; try done; rewrite ?Hc; [done| |by rewrite fn_lookup_insert, Ht].
    intros c' Hne. by rewrite fn_lookup_insert_ne.
  - destruct (sl_locked s) eqn:El; intros [= <- <-]; rewrite app_nil_r; [done|]. by apply (sl_inv_move _ _ _ s c (Tas sec)); rewrite ?Hc.
  - destruct (sl_locked s) eqn:El; intros [= <- <-]; [rewrite app_nil_r|by apply acquire_inv]. by apply (sl_inv_move _ _ _ s c (Try sec)); rewrite ?Hc.
  - intros [= <- <-]. rewrite app_nil_r. by apply release_inv.
  - intros [= <- <-]. rewrite app_nil_r. by apply access_inv.
Qed.

Lemma sl_run_inv d0 prog l : forall log s es s1, sl_inv d0 prog log s -> sl_run l s = (es, s1) -> sl_inv d0 prog (log ++ es) s1.
Proof.
  induction l as [|c l IH]; intros log s es s1 H; cbn; [intros [= <- <-]; by rewrite app_nil_r|].
  destruct (sl_step c s) as [e s2] eqn:E2. destruct (sl_run l s2) as [es' s3] eqn:E3. intros [= <- <-]. rewrite app_assoc. eapply IH; [|exact E3]. by eapply sl_step_inv.
Qed.

Lemma init_spinlock_inv d prog : sl_inv d prog [] (init_spinlock d prog).
Proof. by split. Qed.

(** ** Waiting CPUs *)

Lemma holder_leaves c rest : forall s, sl_pcs s c = In rest ->
  exists l s', sl_run l s = ([], s') /\ sl_locked s' = false /\ forall c', c' <> c -> sl_pcs s' c' = sl_pcs s c'.
Proof.
  induction rest as [|f rest IH]; intros s Hc.
  - exists [c]. eexists. cbn. unfold sl_step. rewrite Hc. split; [done|]. split; [done|]. intros c' Hne. cbn. by rewrite fn_lookup_insert_ne.
  - destruct (IH (sl_goto c (In rest) (sl_set_data (f (sl_data s)) s))) as (l & s' & E & H1 & H2); [cbn; by rewrite fn_lookup_insert|].
    exists (c :: l), s'. cbn [sl_run]. unfold sl_step at 1. rewrite Hc, E. split; [done|]. split; [done|]. intros c' Hne. rewrite H2 by done. cbn. by rewrite fn_lookup_insert_ne.
Qed.

Lemma sl_run_app l l' s es s1 : sl_run l s = (es, s1) -> sl_run (l ++ l') s = (es ++ (sl_run l' s1).1, (sl_run l' s1).2).
Proof.
  revert s es. induction l as [|c l IH]; intros s es; cbn.
  - intros [= <- <-]. by destruct (sl_run l' s).
  - destruct (sl_step c s) as [e s2]. destruct (sl_run l s2) as [es2 s3] eqn:E. intros [= <- ->]. rewrite (IH _ _ E). by rewrite app_assoc.
Qed.

Lemma free_lock_taken c sec s : sl_pcs s c = Try sec -> sl_locked s = false ->
  (sl_run [c; c] s).1 = [(c, sec)] /\ sl_pcs (sl_run [c; c] s).2 c = In sec.
Proof.
  intros Hc Hl. cbn [sl_run]. assert (sl_step c s = ([], sl_goto c (Tas sec) s)) as ->. { unfold sl_step, try_acquire_spinlock. by rewrite Hc, Hl. }
  unfold sl_step, try_acquire_spinlock. cbn. rewrite !fn_lookup_insert, Hl. cbn. by rewrite fn_lookup_insert.
Qed.

Lemma waiter_enters d0 prog log c sec s : sl_inv d0 prog log s -> sl_pcs s c = Try sec ->
  exists l s', sl_run l s = ([(c, sec)], s') /\ sl_pcs s' c = In sec.
Proof.
  intros H Hc. assert (exists l s1, sl_run l s = ([], s1) /\ sl_locked s1 = false /\ sl_pcs s1 c = Try sec) as (l & s1 & E & Hl & Hc1).
  { destruct (sl_locked s) eqn:El; [|by exists [], s]. destruct (si_held _ _ _ _ H El) as (c' & _ & _ & rest & G & _).
    destruct (holder_leaves c' rest s G) as (l & s1 & E & Hl & Ho). exists l, s1. rewrite Ho by congruence. done. }
  destruct (free_lock_taken c sec s1 Hc1 Hl) as [E1 E2]. exists (l ++ [c; c]), (sl_run [c; c] s1).2. split; [|done]. rewrite (sl_run_app _ _ _ _ _ E). cbn [app]. by rewrite E1.
Qed.

(** C25: spin locks make critical sections atomic.  After any schedule of any
    number of CPUs that run their critical sections under one lock: at most one
    CPU is inside; every CPU has taken the lock for a prefix of its sections, in
    order; while the lock is free the data are those of the sections run one
    after the other, in the order [es] in which the lock was taken; while it is
    held they are those of the earlier sections and the accesses the holder has
    made; and a CPU that waits can still get in. *)
Theorem critical_sections_atomic d prog l es s :
  sl_run l (init_spinlock d prog) = (es, s) ->
  (forall c c' r r', sl_pcs s c = In r -> sl_pcs s c' = In r' -> c = c') /\
  (forall c, prog c = of_cpu c es ++ pending (sl_pcs s c) ++ sl_todo s c) /\
  (sl_locked s = false -> sl_data s = replay es d) /\
  (sl_locked s = true -> exists c, holds d es s c) /\
  (forall c sec, sl_pcs s c = Try sec -> exists l' s', sl_run l' s = ([(c, sec)], s') /\ sl_pcs s' c = In sec).
Proof.
  intros E. pose proof (sl_run_inv d prog l [] _ _ _ (init_spinlock_inv d prog) E) as H. pose proof H as [Hp H1 Hf Hh].
  split; [exact H1|]. split; [exact Hp|]. split; [intros Hl; apply (Hf Hl)|]. split; [exact Hh|]. intros c sec Hc. by eapply waiter_enters.
Qed.
End spin.

(** Two CPUs; CPU 1 waits while CPU 0 doubles the number, then adds one to it. *)
Definition demo_secs (c : nat) : list (list (Z -> Z)) := match c with 0%nat => [[Z.mul 2; Z.mul 1]] | 1%nat => [[Z.add 1]] | _ => [] end.
Definition demo_sched : list nat := [0; 1; 0; 1; 0; 1; 0; 1; 1; 0; 0; 1; 1; 1; 1]%nat.
Lemma critical_sections_atomic_witness :
  sl_locked (sl_run demo_sched (init_spinlock 5%Z demo_secs)).2 = false /\ sl_data (sl_run demo_sched (init_spinlock 5%Z demo_secs)).2 = 11%Z /\
  sl_data (sl_run demo_sched (init_spinlock 5%Z demo_secs)).2 = replay (sl_run demo_sched (init_spinlock 5%Z demo_secs)).1 5%Z.
Proof.
  destruct (critical_sections_atomic 5%Z demo_secs demo_sched (sl_run demo_sched (init_spinlock 5%Z demo_secs)).1 (sl_run demo_sched (init_spinlock 5%Z demo_secs)).2)
    as (_ & _ & H & _); [by destruct (sl_run _ _)|].
  split; [vm_compute; reflexivity|]. split; [vm_compute; reflexivity|]. apply H. vm_compute. reflexivity.
Defined.
