(* ===== verification/Heap.v ===== *)
(** * Blocks of kernel memory: [kalloc] and [kfree] of [kernel/mem.c]

    A page is divided into blocks, each behind a header ([node]); the headers of
    the pages of a CPU are one linked list.  The headers are a map from their
    addresses, and pages come from the allocator of file [Mem].  A header that
    was merged into the one before it is memory of that block from then on, and
    to read it as a header is undefined behaviour.  [junk] is what the field
    [used] of a new header holds. *)

From Stdlib Require Import ZArith Lia.
From stdpp Require Import base tactics numbers gmap list.
From S2P Require Import Prelude Mem.

Local Open Scope Z_scope.

Record node : Type := mkNode {
  n_next : Z;
  n_size : Z;
  n_used : Z;
  n_free : bool }.
Definition SIZEOF_NODE : Z := 16.

Record heap : Type := mkHeap {
  hp_mem : kmem;
  hp_nodes : gmap Z node;
  hp_free : list Z;
  hp_lock : bool }.

Abbreviation HM := (M heap).

Definition hp_set_mem (m : kmem) (s : heap) : heap := mkHeap m (hp_nodes s) (hp_free s) (hp_lock s).
Definition hp_set_nodes (m : gmap Z node) (s : heap) : heap := mkHeap (hp_mem s) m (hp_free s) (hp_lock s).
Definition hp_set_free (l : list Z) (s : heap) : heap := mkHeap (hp_mem s) (hp_nodes s) l (hp_lock s).
Definition hp_set_lock (b : bool) (s : heap) : heap := mkHeap (hp_mem s) (hp_nodes s) (hp_free s) b.

Definition acquire_memlock : HM unit := b ← gets hp_lock; if (b : bool) then block else modify (hp_set_lock true).
Definition release_memlock : HM unit := modify (hp_set_lock false).

Definition load_hdr (h : Z) : HM node := fun s => some_or_ub (hp_nodes s !! h) s.
Definition store_hdr (h : Z) (x : node) : HM unit := modify (fun s => hp_set_nodes (<[h := x]> (hp_nodes s)) s).
Definition drop_hdr (h : Z) : HM unit := modify (fun s => hp_set_nodes (delete h (hp_nodes s)) s).

Section heap.
Context (junk : Z -> Z).

(** The loop of [merge]; [n] bounds its turns. *)
Fixpoint merge_loop (n : nat) (h p : Z) : HM unit :=
  if p =? 0 then mret tt else
  x ← load_hdr p;
  if negb (n_free x && (PAGE_BASE h =? PAGE_BASE p)) then mret tt else
  match n with
  | O => block
  | S n' =>
      y ← load_hdr h;
      store_hdr h (mkNode (n_next x) (u16 (n_size y + (n_size x + SIZEOF_NODE))) (n_used y) (n_free y));;
      drop_hdr p;;
      merge_loop n' h (n_next x)
  end.
Definition merge (h : Z) : HM unit :=
  x ← load_hdr h;
  n ← gets (fun s => size (hp_nodes s));
  merge_loop n h (n_next x).

(** [temp], rounded up to a multiple of the alignment. *)
Definition align_up (al temp : Z) : Z := (temp / al + (if temp mod al =? 0 then 0 else 1)) * al.

(** The header [h] with content [x] is cut at [temp]; the second part is free. *)
Definition split_hdr (h temp : Z) (x : node) : HM unit :=
  let gap := u64 (temp - h - SIZEOF_NODE) in
  store_hdr temp (mkNode (n_next x) (u16 (n_size x - gap - SIZEOF_NODE)) (junk temp) true);;
  store_hdr h (mkNode temp (u16 gap) (n_used x) (n_free x)).

(** The search of [kalloc]: the header found, or 0; [n] bounds its turns. *)
Fixpoint scan (n : nat) (al sz h : Z) : HM Z :=
  if h =? 0 then mret 0 else
  match n with
  | O => block
  | S n' =>
      x ← load_hdr h;
      if negb (n_free x) then
        let temp := align_up al (u64 (h + SIZEOF_NODE + n_used x)) in
        (if u64 (temp - h - SIZEOF_NODE) + SIZEOF_NODE <=? n_size x then split_hdr h temp x else mret tt);;
        y ← load_hdr h;
        scan n' al sz (n_next y)
      else
        merge h;;
        x ← load_hdr h;
        let temp := align_up al (u64 (h + SIZEOF_NODE)) in
        if (h mod al =? 0) && (u16 sz <=? n_size x) then mret h else
        if negb (h mod al =? 0) && (u16 sz + u64 (temp - h - SIZEOF_NODE) + SIZEOF_NODE <=? n_size x) then
          split_hdr h temp x;; mret temp
        else scan n' al sz (n_next x)
  end.

Definition kalloc (cpu sz : Z) : HM Z :=
  acquire_memlock;;
  let al := if sz mod 8 =? 0 then 8 else 4 in
  h0 ← (fun s => some_or_ub (hp_free s !! Z.to_nat cpu) s);
  n ← gets (fun s => size (hp_nodes s));
  h ← scan (S (2 * n)) al sz h0;
  h ← (if h =? 0 then
         p ← zoom hp_mem hp_set_mem kalloc_page;
         store_hdr p (mkNode h0 (u16 (PAGE_SIZE - SIZEOF_NODE)) (junk p) true);;
         modify (fun s => hp_set_free (<[Z.to_nat cpu := p]> (hp_free s)) s);;
         mret p
       else mret h);
  x ← load_hdr h;
  store_hdr h (mkNode (n_next x) (n_size x) (u16 sz) false);;
  release_memlock;;
  mret (u64 (h + SIZEOF_NODE)).

Definition kfree (ptr : Z) : HM unit :=
  acquire_memlock;;
  let h := u64 (ptr - SIZEOF_NODE) in
  merge h;;
  x ← load_hdr h;
  store_hdr h (mkNode (n_next x) (n_size x) (n_used x) true);;
  release_memlock.
End heap.
