(* ===== verification/HeapProofs.v ===== *)
(** * Blocks do not overlap

    The list of headers of a CPU is a list of chunks that tile its pages.
    Splitting and merging keep the tiling and the blocks in use. *)

From Stdlib Require Import ZArith Lia.
From stdpp Require Import base tactics numbers gmap list.
From S2P Require Import Prelude Mem Heap.

Local Open Scope Z_scope.

(** ** Chunks *)

Record chunk : Type := mkChunk {
  ck_addr : Z;
  ck_size : Z;
  ck_used : Z;
  ck_free : bool }.

Definition ck_end (c : chunk) : Z := ck_addr c + SIZEOF_NODE + ck_size c.
Definition page_of (a : Z) : Z := a / PAGE_SIZE * PAGE_SIZE.
Definition first (L : list chunk) : Z := match L with [] => 0 | c :: _ => ck_addr c end.
(** The pages that begin in [L]. *)
Definition pages (L : list chunk) : list Z := filter (fun a => a mod PAGE_SIZE = 0) (ck_addr <$> L).
(** The blocks in use: address and size. *)
Definition lives (L : list chunk) : list (Z * Z) := (fun c => (ck_addr c + SIZEOF_NODE, ck_used c)) <$> filter (fun c => ck_free c = false) L.

Record chunk_ok (c : chunk) : Prop := {
  co_size : 0 <= ck_size c;
  co_used : ck_free c = false -> 0 <= ck_used c <= ck_size c;
  co_page : ck_addr c mod PAGE_SIZE + SIZEOF_NODE + ck_size c <= PAGE_SIZE;
  co_align : ck_addr c mod 4 = 0;
  co_addr : 0 < ck_addr c /\ ck_addr c + 2 * PAGE_SIZE < 2 ^ 64 }.

(** The chunks follow each other without a gap, page by page. *)
Fixpoint laid (pos : Z) (L : list chunk) : Prop :=
  match L with
  | [] => True
  | c :: L' =>
      chunk_ok c /\ (if pos mod PAGE_SIZE =? 0 then ck_addr c mod PAGE_SIZE = 0 else ck_addr c = pos) /\
      (page_of (ck_addr c) ∉ pages L') /\ laid (ck_end c) L'
  end.

(** The headers in memory. *)
Definition hdr_of (c : chunk) (next : Z) : node := mkNode next (ck_size c) (ck_used c) (ck_free c).
Fixpoint chain (m : gmap Z node) (L : list chunk) : Prop :=
  match L with
  | [] => True
  | c :: L' => m !! ck_addr c = Some (hdr_of c (first L')) /\ chain m L'
  end.

(** Addresses in the chunks. *)
Definition inside (L : list chunk) (a : Z) : Prop := exists c, c ∈ L /\ ck_addr c <= a < ck_end c.

Ltac sizes := unfold ck_end, page_of, SIZEOF_NODE in *; change PAGE_SIZE with 4096 in *; cbn [ck_addr ck_size ck_used ck_free] in *.
Ltac zmod := sizes; Z.div_mod_to_equations; lia.

Lemma pages_cons c L : pages (c :: L) = if decide (ck_addr c mod PAGE_SIZE = 0) then ck_addr c :: pages L else pages L.
Proof. unfold pages. cbn [fmap list_fmap]. by rewrite filter_cons. Qed.
Lemma lives_cons c L : lives (c :: L) = if ck_free c then lives L else (ck_addr c + SIZEOF_NODE, ck_used c) :: lives L.
Proof. unfold lives. rewrite filter_cons. by destruct (ck_free c). Qed.
Lemma lives_app L1 L2 : lives (L1 ++ L2) = lives L1 ++ lives L2.
Proof. unfold lives. by rewrite filter_app, fmap_app. Qed.
Lemma pages_app L1 L2 : pages (L1 ++ L2) = pages L1 ++ pages L2.
Proof. unfold pages. by rewrite fmap_app, filter_app. Qed.
Lemma elem_of_pages a L : a ∈ pages L <-> a mod PAGE_SIZE = 0 /\ exists c, c ∈ L /\ a = ck_addr c.
Proof. unfold pages. rewrite list_elem_of_filter, list_elem_of_fmap. naive_solver. Qed.

Lemma laid_ok pos L c : laid pos L -> c ∈ L -> chunk_ok c.
Proof. revert pos. induction L as [|d L IH]; intros pos H Hc; [by apply not_elem_of_nil in Hc|]. destruct H as (H1 & _ & _ & H2). apply elem_of_cons in Hc as [->|Hc]; eauto. Qed.

(** Only whether the start is that of a page matters. *)
Lemma laid_aligned pos pos' L : pos mod PAGE_SIZE = 0 -> pos' mod PAGE_SIZE = 0 -> laid pos L -> laid pos' L.
Proof. destruct L as [|c L]; [done|]. intros E E' (H1 & H2 & H3). split; [done|]. rewrite E, E' in *. done. Qed.

(** A chunk lies in its page, and a page begins with a chunk. *)
Lemma laid_where pos L d : laid pos L -> d ∈ L ->
  pos mod PAGE_SIZE <> 0 /\ pos <= ck_addr d /\ page_of (ck_addr d) = page_of pos \/ page_of (ck_addr d) ∈ pages L.
Proof.
  revert pos. induction L as [|c L IH]; intros pos H Hd; [by apply not_elem_of_nil in Hd|]. destruct H as (Hok & Hpos & _ & H).
  destruct Hok as [Hs _ Hp _ _]. rewrite pages_cons. apply elem_of_cons in Hd as [->|Hd].
  - destruct (Z.eqb_spec (pos mod PAGE_SIZE) 0) as [E|E].
    + right. rewrite decide_True by done. replace (page_of (ck_addr c)) with (ck_addr c) by zmod. left.
    + left. rewrite Hpos. done.
  - destruct (IH _ H Hd) as [(H1 & H2 & H3)|H1]; [|right; case_decide; [by right|done]].
    assert (page_of (ck_end c) = page_of (ck_addr c)) as E by zmod.
    destruct (Z.eqb_spec (pos mod PAGE_SIZE) 0) as [E0|E0].
    + right. rewrite decide_True by done. rewrite H3, E. replace (page_of (ck_addr c)) with (ck_addr c) by zmod. left.
    + left. split; [done|]. split; [sizes; lia|]. rewrite H3, E, Hpos. done.
Qed.

(** Chunks that follow a chunk do not overlap it. *)
Lemma laid_after pos c L d : laid pos (c :: L) -> d ∈ L -> ck_end c <= ck_addr d \/ page_of (ck_addr c) <> page_of (ck_addr d).
Proof.
  intros (_ & _ & Hn & H) Hd. destruct (laid_where _ _ _ H Hd) as [(_ & H1 & _)|H1]; [by left|right]. by intros E; rewrite E in Hn.
Qed.
Definition apart (c d : chunk) : Prop := ck_end c <= ck_addr d \/ ck_end d <= ck_addr c.
Lemma pages_apart c d : chunk_ok c -> chunk_ok d -> page_of (ck_addr c) <> page_of (ck_addr d) -> apart c d.
Proof. intros [] [] H. unfold apart. zmod. Qed.
Lemma after_apart pos c L d : laid pos (c :: L) -> d ∈ L -> apart c d.
Proof.
  intros H Hd. destruct (laid_after _ _ _ _ H Hd) as [E|E]; [by left|]. apply pages_apart; [| |done]; eapply laid_ok; [exact H|left|exact H|by right].
Qed.

(** Nothing before a part of the list is inside of it. *)
Lemma before_outside pos L1 L2 c : laid pos (L1 ++ L2) -> c ∈ L1 -> ~ inside L2 (ck_addr c).
Proof.
  revert pos. induction L1 as [|d L1 IH]; intros pos H Hc; [by apply not_elem_of_nil in Hc|]. apply elem_of_cons in Hc as [->|Hc].
  - intros (e & He & Hin). pose proof (after_apart _ _ _ e H (proj2 (elem_of_app _ _ _) (or_intror He))) as [A|A]; [|lia].
    destruct H as ([Hs _ _ _ _] & _). sizes. lia.
  - destruct H as (_ & _ & _ & H). by eapply IH.
Qed.

Lemma chain_app m L1 L2 : chain m (L1 ++ L2) -> chain m L2.
Proof. induction L1 as [|c L1 IH]; [done|]. intros [_ H]. auto. Qed.
Lemma laid_app pos L1 L2 : laid pos (L1 ++ L2) -> exists pos', laid pos' L2.
Proof. revert pos. induction L1 as [|c L1 IH]; intros pos H; [by exists pos|]. destruct H as (_ & _ & _ & H). eauto. Qed.

Lemma chain_lookup m L c : chain m L -> c ∈ L -> is_Some (m !! ck_addr c).
Proof. induction L as [|d L IH]; intros H Hc; [by apply not_elem_of_nil in Hc|]. destruct H as [H1 H]. apply elem_of_cons in Hc as [->|Hc]; [by eexists|auto]. Qed.
Lemma laid_nodup pos L : laid pos L -> NoDup (ck_addr <$> L).
Proof.
  revert pos. induction L as [|c L IH]; intros pos H; [constructor|]. cbn. constructor; [|destruct H as (_ & _ & _ & H); eauto].
  intros (d & E & Hd)%list_elem_of_fmap. pose proof (after_apart _ _ _ _ H Hd) as A.
  pose proof (laid_ok _ _ _ H (list_elem_of_further _ _ _ Hd)) as [Hs _ _ _ _]. destruct H as ([Hs' _ _ _ _] & _). unfold apart in A. sizes. lia.
Qed.
(** The map has room for every header. *)
Lemma chain_size m pos L : chain m L -> laid pos L -> (length L <= size m)%nat.
Proof.
  intros Hc HL. rewrite <-(length_fmap ck_addr), <-(size_list_to_set (C := gset Z)) by by eapply laid_nodup.
  rewrite <-(size_dom (D := gset Z)). apply subseteq_size. intros a (c & -> & Hc')%elem_of_list_to_set%list_elem_of_fmap.
  apply elem_of_dom. by eapply chain_lookup.
Qed.

(** ** Other divisions of the same memory *)

Record retile (L L' : list chunk) : Prop := {
  rt_first : first L' = first L;
  rt_pages : pages L' = pages L;
  rt_lives : lives L' = lives L;
  rt_laid : forall pos, laid pos L -> laid pos L';
  rt_inside : forall pos a, laid pos L -> inside L' a -> inside L a }.

Lemma retile_refl L : retile L L.
Proof. by split. Qed.
Lemma retile_trans L1 L2 L3 : retile L1 L2 -> retile L2 L3 -> retile L1 L3.
Proof. intros [A1 A2 A3 A4 A5] [B1 B2 B3 B4 B5]. split; [congruence|congruence|congruence|eauto|eauto]. Qed.
Lemma inside_cons c L a : inside (c :: L) a <-> ck_addr c <= a < ck_end c \/ inside L a.
Proof. unfold inside. setoid_rewrite elem_of_cons. naive_solver. Qed.
Lemma retile_cons c L L' : retile L L' -> retile (c :: L) (c :: L').
Proof.
  intros [H1 H2 H3 H4 H5]. split; [done|by rewrite !pages_cons, H2|by rewrite !lives_cons, H3| |].
  - intros pos (K1 & K2 & K3 & K4). split; [done|]. split; [done|]. rewrite H2. split; [done|auto].
  - intros pos a (_ & _ & _ & K). rewrite !inside_cons. intros [H|H]; [by left|right; eauto].
Qed.

(** One chunk and the two that it is cut into. *)
Definition merged (c d : chunk) : chunk := mkChunk (ck_addr c) (ck_size c + SIZEOF_NODE + ck_size d) (ck_used c) (ck_free c).
Definition adjacent (c d : chunk) : Prop := ck_addr d = ck_end c /\ ck_free d = true.

Lemma adjacent_pages c d L : chunk_ok c -> chunk_ok d -> ck_addr d = ck_end c -> page_of (ck_addr c) = page_of (ck_addr d) -> pages (c :: d :: L) = pages (merged c d :: L).
Proof.
  intros [] [] E Ep. rewrite !pages_cons. cbn [merged ck_addr]. rewrite (decide_False (P := ck_addr d mod _ = 0)); [done|]. zmod.
Qed.

Lemma retile_merge c d L : chunk_ok c -> chunk_ok d -> adjacent c d -> page_of (ck_addr c) = page_of (ck_addr d) -> retile (c :: d :: L) (merged c d :: L).
Proof.
  intros Hc Hd [E Ef] Ep. split; [done|by rewrite (adjacent_pages c d)|rewrite !lives_cons, Ef; done| |].
  - intros pos (_ & K2 & K3 & (_ & _ & K4 & K5)). split; [|split; [done|split; [|]]].
    + destruct Hc, Hd. split; cbn [merged ck_size ck_free ck_used ck_addr]; try done; try zmod.
      intros H. specialize (co_used0 H). sizes. lia.
    + cbn [merged ck_addr]. by rewrite Ep.
    + replace (ck_end (merged c d)) with (ck_end d); [done|]. unfold ck_end, merged in *. cbn [ck_addr ck_size]. lia.
  - intros pos a _. rewrite !inside_cons. destruct Hc, Hd. intros [H|H]; [|by do 2 right].
    assert (ck_addr c <= a < ck_end c \/ ck_addr d <= a < ck_end d); [|naive_solver]. unfold ck_end, merged in *. cbn [ck_addr ck_size] in *. lia.
Qed.

Lemma retile_split c d L : chunk_ok c -> chunk_ok d -> adjacent c d -> page_of (ck_addr c) = page_of (ck_addr d) -> retile (merged c d :: L) (c :: d :: L).
Proof.
  intros Hc Hd [E Ef] Ep. split; [done|by rewrite (adjacent_pages c d)|rewrite !lives_cons, Ef; done| |].
  - intros pos (K1 & K2 & K3 & K5). cbn [merged ck_addr] in *. split; [done|]. split; [done|]. split.
    + rewrite pages_cons, decide_False; [done|]. destruct Hc, Hd. zmod.
    + split; [done|]. split; [destruct (Z.eqb_spec (ck_end c mod PAGE_SIZE) 0) as [E0|]; [|done]; destruct Hc, Hd; exfalso; zmod|].
      split; [by rewrite <-Ep|]. replace (ck_end d) with (ck_end (merged c d)); [done|]. unfold ck_end, merged in *. cbn [ck_addr ck_size]. lia.
  - intros pos a _. rewrite !inside_cons. destruct Hc, Hd. unfold ck_end, merged in *. cbn [ck_addr ck_size] in *. intros [H|[H|H]]; [left|left|by right]; unfold SIZEOF_NODE in *; lia.
Qed.

(** ** Steps on the headers *)

(** The chunks [L] are now divided into [L'], and no other header changed. *)
Record became (L : list chunk) (s : heap) (L' : list chunk) (s' : heap) : Prop := {
  be_state : s' = hp_set_nodes (hp_nodes s') s;
  be_chain : chain (hp_nodes s') L';
  be_retile : retile L L';
  be_frame : forall a, ~ inside L a -> hp_nodes s' !! a = hp_nodes s !! a }.

Lemma became_refl L s : chain (hp_nodes s) L -> became L s L s.
Proof. intros H. split; [by destruct s|done|apply retile_refl|done]. Qed.
Lemma became_trans pos L1 L2 L3 s1 s2 s3 : laid pos L1 -> became L1 s1 L2 s2 -> became L2 s2 L3 s3 -> became L1 s1 L3 s3.
Proof.
  intros HL [A1 A2 A3 A4] [B1 B2 B3 B4]. split; [rewrite B1, A1; done|done|by eapply retile_trans|].
  intros a Ha. rewrite B4; [by apply A4|]. intros H. apply Ha. by eapply rt_inside.
Qed.

Lemma chain_frame m m' L : (forall c, c ∈ L -> m' !! ck_addr c = m !! ck_addr c) -> chain m L -> chain m' L.
Proof.
  induction L as [|c L IH]; [done|]. intros E [H1 H2]. split; [rewrite E by left; done|]. apply IH; [|done]. intros d Hd. apply E. by right.
Qed.
Lemma after_ne pos c L d : laid pos (c :: L) -> d ∈ L -> ck_addr d <> ck_addr c.
Proof. intros H Hd E. apply laid_nodup in H. cbn in H. apply NoDup_cons in H as [H _]. apply H. rewrite <-E. by apply list_elem_of_fmap_2. Qed.
Lemma inside_head c L : chunk_ok c -> inside (c :: L) (ck_addr c).
Proof. intros []. apply inside_cons. left. sizes. lia. Qed.
Lemma inside_addr L c : chunk_ok c -> c ∈ L -> inside L (ck_addr c).
Proof. intros [] H. exists c. split; [done|]. sizes. lia. Qed.

(** The part of a list is divided again. *)
Lemma became_app pos c L s L' s' : laid pos (c :: L) -> chain (hp_nodes s) (c :: L) -> became L s L' s' -> became (c :: L) s (c :: L') s'.
Proof.
  intros HL [Hc _] [A1 A2 A3 A4]. split; [done| |by apply retile_cons|].
  - split; [|done]. rewrite A4, (rt_first _ _ A3); [done|]. eapply (before_outside pos [c] L); [exact HL|left].
  - intros a Ha. apply A4. intros H. apply Ha, inside_cons. by right.
Qed.

Lemma wp_load_hdr h x (Q : node -> heap -> Prop) s : hp_nodes s !! h = Some x -> Q x s -> wp (load_hdr h) Q s.
Proof. intros H HQ. unfold wp, load_hdr, some_or_ub. by rewrite H. Qed.

(** Each turn of [scan] makes this smaller. *)
Fixpoint weight (L : list chunk) : nat := match L with [] => 0 | c :: L' => (if ck_free c then 1 else 2) + weight L' end.
Lemma weight_length L : (weight L <= 2 * length L)%nat.
Proof. induction L as [|c L IH]; [done|]. cbn [weight length]. destruct (ck_free c); lia. Qed.

Lemma became_merge pos c d L s :
  laid pos (c :: d :: L) -> chain (hp_nodes s) (c :: d :: L) -> adjacent c d -> page_of (ck_addr c) = page_of (ck_addr d) ->
  became (c :: d :: L) s (merged c d :: L) (hp_set_nodes (delete (ck_addr d) (<[ck_addr c := hdr_of (merged c d) (first L)]> (hp_nodes s))) s).
Proof.
  intros HL (H1 & H2 & H3) Ha Hp. destruct HL as (Hc & P1 & P2 & P3) eqn:EHL. pose proof (proj1 P3) as Hd.
  assert (ck_addr d <> ck_addr c) as Hne by (eapply after_ne; [exact HL|left]).
  split; [done| |by apply retile_merge|].
  - cbn [hp_nodes hp_set_nodes]. split; [by rewrite lookup_delete_ne, lookup_insert_eq by done|]. eapply chain_frame; [|exact H3]. intros e He.
    rewrite lookup_delete_ne, lookup_insert_ne; [done| |].
    + intros E. eapply after_ne; [exact HL|right; exact He|done].
    + intros E. eapply after_ne; [exact P3|exact He|done].
  - intros a Hna. cbn [hp_nodes hp_set_nodes]. rewrite lookup_delete_ne, lookup_insert_ne; [done| |]; intros <-; apply Hna.
    + by apply inside_head.
    + apply inside_cons. right. by apply inside_head.
Qed.

(** After a chunk comes the next of its page, or a new page. *)
Lemma next_adjacent pos c d L : laid pos (c :: d :: L) -> page_of (ck_addr c) = page_of (ck_addr d) -> ck_addr d = ck_end c.
Proof.
  intros (_ & _ & Hn & _ & Hd & _) E. destruct (_ =? 0); [|done]. destruct Hn. rewrite E, pages_cons, decide_True by done.
  replace (page_of (ck_addr d)) with (ck_addr d) by zmod. left.
Qed.

Definition grown (c c' : chunk) : Prop := ck_addr c' = ck_addr c /\ ck_used c' = ck_used c /\ ck_free c' = ck_free c /\ ck_size c <= ck_size c'.

Lemma merge_loop_wp n pos c L s :
  laid pos (c :: L) -> chain (hp_nodes s) (c :: L) -> (length L <= n)%nat ->
  wp (merge_loop n (ck_addr c) (first L)) (fun _ s' => exists c' L', became (c :: L) s (c' :: L') s' /\ grown c c' /\ (weight L' <= weight L)%nat) s.
Proof.
  revert c L s. induction n as [|n IH]; intros c L s HL Hch Hn; destruct L as [|d L]; try (cbn in Hn; lia).
  1, 2: cbn [merge_loop first]; change (0 =? 0) with true; cbn iota; wp_prim; exists c, []; split; [by apply became_refl|done].
  pose proof HL as (Hc & _ & _ & Hd & _). pose proof (co_addr _ Hd) as [Hpos _]. cbn [merge_loop first]. rewrite (proj2 (Z.eqb_neq _ 0)) by lia.
  wp_prim. eapply wp_load_hdr; [apply Hch|]. cbn [hdr_of n_free n_next n_size]. rewrite !PAGE_BASE_div.
  destruct (ck_free d && _) eqn:E; cbn [negb]; [|wp_prim; exists c, (d :: L); split; [by apply became_refl|done]].
  apply andb_prop in E as [Ef Ep%Z.eqb_eq]. pose proof (next_adjacent _ _ _ _ HL Ep) as Ea.
  assert (became (c :: d :: L) s (merged c d :: L) (hp_set_nodes (delete (ck_addr d) (<[ck_addr c := hdr_of (merged c d) (first L)]> (hp_nodes s))) s)) as B
    by by eapply became_merge.
  wp_prim. eapply wp_load_hdr; [apply Hch|]. unfold store_hdr, drop_hdr. wp_prims. cbn [hdr_of n_size n_used n_free hp_nodes hp_set_nodes].
  replace (u16 (ck_size c + (ck_size d + SIZEOF_NODE))) with (ck_size c + SIZEOF_NODE + ck_size d).
  2: { rewrite u16_small; [lia|]. pose proof (co_page _ Hd). pose proof (co_size _ Hd). pose proof (co_size _ Hc). pose proof (co_page _ Hc). zmod. }
  change (ck_addr c) with (ck_addr (merged c d)) at 1. eapply wp_mono.
  { apply (IH (merged c d) L); [by apply (rt_laid _ _ (be_retile _ _ _ _ B))|apply (be_chain _ _ _ _ B)|cbn in Hn; lia]. }
  intros [] s' (c' & L' & B' & (G1 & G2 & G3 & G4) & Hw). exists c', L'. split; [by eapply became_trans|]. split.
  - split; [done|]. split; [done|]. split; [done|]. pose proof (co_size _ Hd). cbn [merged ck_size] in G4. unfold SIZEOF_NODE in *. lia.
  - cbn [weight]. lia.
Qed.

Lemma merge_wp pos c L s :
  laid pos (c :: L) -> chain (hp_nodes s) (c :: L) ->
  wp (merge (ck_addr c)) (fun _ s' => exists c' L', became (c :: L) s (c' :: L') s' /\ grown c c' /\ (weight L' <= weight L)%nat) s.
Proof.
  intros HL Hch. unfold merge. wp_prim. eapply wp_load_hdr; [apply Hch|]. wp_prims. eapply merge_loop_wp; [done|done|].
  pose proof (chain_size _ _ _ Hch HL) as H. cbn in H. lia.
Qed.

Lemma align_up_spec al t : 0 < al -> t <= align_up al t < t + al /\ align_up al t mod al = 0.
Proof.
  intros H. unfold align_up. split; [|apply Z.mod_mul; lia]. destruct (Z.eqb_spec (t mod al) 0); Z.div_mod_to_equations; nia.
Qed.

Section scan.
Context (junk : Z -> Z).

Definition cut_fst (c : chunk) (temp : Z) : chunk := mkChunk (ck_addr c) (temp - ck_addr c - SIZEOF_NODE) (ck_used c) (ck_free c).
Definition cut_snd (c : chunk) (temp : Z) : chunk := mkChunk temp (ck_end c - temp - SIZEOF_NODE) (junk temp) true.
(** [temp] is a place where [c] can be cut. *)
Definition can_cut (c : chunk) (temp : Z) : Prop :=
  ck_addr c + SIZEOF_NODE <= temp <= ck_addr c + ck_size c /\ temp mod 4 = 0 /\ (ck_free c = false -> ck_used c <= temp - ck_addr c - SIZEOF_NODE).

Lemma cut_ok c temp : chunk_ok c -> can_cut c temp ->
  chunk_ok (cut_fst c temp) /\ chunk_ok (cut_snd c temp) /\ adjacent (cut_fst c temp) (cut_snd c temp) /\
  page_of (ck_addr c) = page_of temp /\ merged (cut_fst c temp) (cut_snd c temp) = c.
Proof.
  intros [] (H1 & H2 & H3). unfold cut_fst, cut_snd, adjacent. split; [|split; [|split; [|split]]].
  - split; cbn [ck_addr ck_size ck_used ck_free]; try done; try (sizes; lia). intros E. specialize (co_used0 E). specialize (H3 E). lia.
  - split; cbn [ck_addr ck_size ck_used ck_free]; try done; zmod.
  - sizes. split; [lia|done].
  - zmod.
  - destruct c. unfold merged. sizes. f_equal. lia.
Qed.

Lemma split_wp pos c L temp s :
  laid pos (c :: L) -> chain (hp_nodes s) (c :: L) -> can_cut c temp ->
  wp (split_hdr junk (ck_addr c) temp (hdr_of c (first L))) (fun _ s' => became (c :: L) s (cut_fst c temp :: cut_snd c temp :: L) s') s.
Proof.
  intros HL (H1 & H2) Hcut. pose proof (proj1 HL) as Hc. destruct (cut_ok c temp Hc Hcut) as (O1 & O2 & Ha & Hp & Em).
  pose proof (retile_split _ _ L O1 O2 Ha Hp) as R. rewrite Em in R.
  assert (u64 (temp - ck_addr c - SIZEOF_NODE) = temp - ck_addr c - SIZEOF_NODE) as Eg.
  { destruct Hc, Hcut as ((? & ?) & _). apply u64_small. zmod. }
  unfold split_hdr, store_hdr. wp_prims. rewrite Eg. cbn [hdr_of n_next n_size n_used n_free hp_nodes hp_set_nodes].
  replace (u16 (ck_size c - (temp - ck_addr c - SIZEOF_NODE) - SIZEOF_NODE)) with (ck_size (cut_snd c temp)).
  2: { rewrite u16_small; unfold cut_snd; destruct Hc, Hcut as ((? & ?) & _); zmod. }
  replace (u16 (temp - ck_addr c - SIZEOF_NODE)) with (ck_size (cut_fst c temp)).
  2: { rewrite u16_small; unfold cut_fst; destruct Hc, Hcut as ((? & ?) & _); zmod. }
  assert (temp <> ck_addr c) as Hne by (destruct Hcut as ((? & _) & _); unfold SIZEOF_NODE in *; lia).
  pose proof (rt_laid _ _ R _ HL) as HL'. split; [done| |exact R|]; cbn [hp_nodes hp_set_nodes].
  - split; [by rewrite lookup_insert_eq|]. split; [cbn [cut_snd ck_addr]; by rewrite lookup_insert_ne, lookup_insert_eq by done|].
    eapply chain_frame; [|exact H2]. intros e He. rewrite !lookup_insert_ne; [done| |].
    + intros E. destruct HL' as (_ & _ & _ & HL'). by eapply (after_ne _ _ _ _ HL' He).
    + intros E. by eapply (after_ne _ _ _ _ HL He).
  - intros a Hna. rewrite !lookup_insert_ne; [done| |]; intros <-; apply Hna; apply inside_cons; left; destruct Hc, Hcut as ((? & ?) & _); sizes; lia.
Qed.

(** What [scan] returns: nothing, or a free chunk that is large enough. *)
Definition found (al sz r : Z) (L : list chunk) : Prop :=
  r = 0 \/ exists L1 c L2, L = L1 ++ c :: L2 /\ ck_addr c = r /\ ck_free c = true /\ sz <= ck_size c /\ r mod al = 0.
Lemma found_cons al sz r c L : found al sz r L -> found al sz r (c :: L).
Proof. intros [H|(L1 & d & L2 & -> & H)]; [by left|right]. by exists (c :: L1), d, L2. Qed.

(** The rest of the list is searched. *)
Lemma scan_rest pos L0 s0 al sz n c L s :
  (forall pos' s1, laid pos' L -> chain (hp_nodes s1) L -> wp (scan junk n al sz (first L)) (fun r s' => exists L', became L s1 L' s' /\ found al sz r L') s1) ->
  laid pos L0 -> became L0 s0 (c :: L) s ->
  wp (scan junk n al sz (first L)) (fun r s' => exists L', became L0 s0 L' s' /\ found al sz r L') s.
Proof.
  intros H HL0 B. pose proof (rt_laid _ _ (be_retile _ _ _ _ B) _ HL0) as HL. pose proof (be_chain _ _ _ _ B) as Hch.
  eapply wp_mono; [eapply H; [apply HL|apply Hch]|]. intros r s' (L' & B' & Hf). exists (c :: L').
  split; [|by apply found_cons]. eapply became_trans; [exact HL0|exact B|]. by eapply became_app.
Qed.

Lemma scan_wp n al sz pos L s :
  al = 4 \/ al = 8 -> 0 <= sz <= PAGE_SIZE - SIZEOF_NODE -> laid pos L -> chain (hp_nodes s) L -> (weight L < n)%nat ->
  wp (scan junk n al sz (first L)) (fun r s' => exists L', became L s L' s' /\ found al sz r L') s.
Proof.
  intros Hal Hsz. revert pos L s. induction n as [|n IH]; intros pos L s HL Hch Hn; [lia|]. cbn [scan].
  destruct L as [|c L].
  { cbn [first]. change (0 =? 0) with true. cbn iota. wp_prim. exists []. split; [by apply became_refl|by left]. }
  pose proof (proj1 HL) as Hc. pose proof (co_addr _ Hc) as [Hpos Hmax]. cbn [first]. rewrite (proj2 (Z.eqb_neq _ 0)) by lia.
  assert (0 < al) as Hal0 by lia. wp_prim. eapply wp_load_hdr; [apply Hch|]. cbn [hdr_of n_free n_used n_size]. cbn [weight] in Hn.
  destruct (ck_free c) eqn:Ef; cbn [negb].
  - wp_prim. eapply wp_mono; [by eapply merge_wp|]. intros [] s1 (c' & L' & B & (G1 & G2 & G3 & G4) & Hw).
    pose proof (rt_laid _ _ (be_retile _ _ _ _ B) _ HL) as HL'. pose proof (be_chain _ _ _ _ B) as Hch'. rewrite <-G1.
    wp_prim. eapply wp_load_hdr; [apply Hch'|]. cbn [hdr_of n_size n_next]. rewrite (u16_small sz) by (sizes; lia).
    rewrite (u64_small (ck_addr c' + SIZEOF_NODE)) by (rewrite G1; sizes; lia).
    destruct (align_up_spec al (ck_addr c' + SIZEOF_NODE) Hal0) as [A1 A2]. set (temp := align_up al _) in *.
    pose proof (proj1 HL') as Hc'.
    destruct (Z.eqb_spec (ck_addr c' mod al) 0) as [E0|E0]; cbn [andb negb].
    + destruct (Z.leb_spec sz (ck_size c')); [|eapply scan_rest; [intros pos' s2 H1 H2; eapply IH; [done|done|lia]|exact HL|exact B]].
      wp_prim. exists (c' :: L'). split; [done|]. right. exists [], c', L'. rewrite G3, Ef. done.
    + rewrite u64_small by (destruct Hc'; sizes; lia).
      destruct (Z.leb_spec (sz + (temp - ck_addr c' - SIZEOF_NODE) + SIZEOF_NODE) (ck_size c')) as [Hle|];
        [|eapply scan_rest; [intros pos' s2 H1 H2; eapply IH; [done|done|lia]|exact HL|exact B]].
      wp_prim. eapply wp_mono; [eapply (split_wp _ c' L' temp); [exact HL'|exact Hch'|]|].
      { split; [sizes; lia|]. split; [destruct Hal as [->| ->]; zmod|]. congruence. }
      intros [] s2 B2. wp_prim. eexists. split; [by eapply became_trans|]. right. exists [cut_fst c' temp], (cut_snd c' temp), L'.
      split; [done|]. split; [done|]. split; [done|]. split; [unfold cut_snd; sizes; lia|done].
  - pose proof (co_used _ Hc Ef) as Hu. rewrite (u64_small (ck_addr c + SIZEOF_NODE + ck_used c)) by (destruct Hc; zmod).
    destruct (align_up_spec al (ck_addr c + SIZEOF_NODE + ck_used c) Hal0) as [A1 A2]. set (temp := align_up al _) in *.
    rewrite u64_small by (destruct Hc; zmod). wp_prim.
    destruct (Z.leb_spec (temp - ck_addr c - SIZEOF_NODE + SIZEOF_NODE) (ck_size c)) as [Hle|].
    + eapply wp_mono; [eapply (split_wp _ c L temp); [exact HL|exact Hch|]|].
      { split; [sizes; lia|]. split; [destruct Hal as [->| ->]; zmod|]. intros _. lia. }
      intros [] s1 B. wp_prim. eapply wp_load_hdr; [apply (be_chain _ _ _ _ B)|]. cbn [hdr_of n_next].
      eapply scan_rest; [intros pos' s2 H1 H2; eapply IH; [done|done|cbn [weight cut_snd ck_free]; lia]|exact HL|exact B].
    + wp_prims. eapply wp_load_hdr; [apply Hch|]. cbn [hdr_of n_next].
      eapply scan_rest; [intros pos' s2 H1 H2; eapply IH; [done|done|lia]|exact HL|by apply became_refl].
Qed.
End scan.
