(* ===== verification/HeapProps.v ===== *)
(** * [kalloc] and [kfree]: the heap of all CPUs *)

From Stdlib Require Import ZArith Lia.
From stdpp Require Import base tactics numbers gmap list relations.
From S2P Require Import Prelude Mem Heap HeapProofs.

Local Open Scope Z_scope.

(** ** The invariant *)

(** [F] are the free pages and [Ls] the chunks in the list of each CPU. *)
Record heap_inv (F : list Z) (Ls : list (list chunk)) (s : heap) : Prop := {
  hi_mem : page_inv F (hp_mem s);
  hi_free : hp_free s = first <$> Ls;
  hi_chain : forall i L, Ls !! i = Some L -> chain (hp_nodes s) L;
  hi_laid : forall i L, Ls !! i = Some L -> laid 0 L;
  hi_pages : forall i L a, Ls !! i = Some L -> a ∈ pages L -> exists n, a = kpage n /\ page_no n /\ n ∉ F;
  hi_sep : forall i j L L' a, Ls !! i = Some L -> Ls !! j = Some L' -> a ∈ pages L -> a ∈ pages L' -> i = j;
  hi_len : length Ls = 4%nat }.

(** The blocks in use. *)
Definition blocks (Ls : list (list chunk)) : list (Z * Z) := concat (lives <$> Ls).

Lemma laid0_page L c : laid 0 L -> c ∈ L -> page_of (ck_addr c) ∈ pages L.
Proof. intros H Hc. destruct (laid_where _ _ _ H Hc) as [(H0 & _)|H1]; [done|done]. Qed.

(** Chunks of different pages are not inside each other. *)
Lemma lists_outside L L' c : laid 0 L -> laid 0 L' -> (forall a, a ∈ pages L -> a ∉ pages L') -> c ∈ L' -> ~ inside L (ck_addr c).
Proof.
  intros H H' Hsep Hc (d & Hd & Hin). apply (Hsep (page_of (ck_addr d))); [by apply laid0_page|].
  replace (page_of (ck_addr d)) with (page_of (ck_addr c)); [by apply laid0_page|]. destruct (laid_ok _ _ _ H Hd). zmod.
Qed.

(** The list of one CPU changes. *)
Lemma inv_update F Ls s i L L' m :
  heap_inv F Ls s -> Ls !! i = Some L -> first L' = first L -> pages L' = pages L -> laid 0 L' -> chain m L' ->
  (forall a, ~ inside L a -> m !! a = hp_nodes s !! a) -> heap_inv F (<[i := L']> Ls) (hp_set_nodes m s).
Proof.
  intros [H1 H2 H3 H4 H5 H6 H7] Hi Ef Ep HL Hch Hfr. pose proof (lookup_lt_Some _ _ _ Hi) as Hlt.
  assert (forall j K, <[i := L']> Ls !! j = Some K -> j = i /\ K = L' \/ j <> i /\ Ls !! j = Some K) as Hcase.
  { intros j K. destruct (decide (j = i)) as [->|]; [rewrite list_lookup_insert_eq by done; intros [= <-]; by left|].
    rewrite list_lookup_insert_ne by done. by right. }
  split; [done| | | | | |by rewrite length_insert].
  - cbn. rewrite H2, list_fmap_insert, Ef, list_insert_id; [done|]. by rewrite list_lookup_fmap, Hi.
  - intros j K [[-> ->]|[Hne Hj]]%Hcase; [done|]. eapply chain_frame; [|by eapply H3]. intros c Hc. apply Hfr.
    eapply lists_outside; [by eapply H4|by eapply H4| |exact Hc]. intros a Ha Ha'. apply Hne. by eapply H6.
  - intros j K [[-> ->]|[_ Hj]]%Hcase; [done|by eapply H4].
  - intros j K a [[-> ->]|[_ Hj]]%Hcase; [rewrite Ep|]; by eapply H5.
  - intros j j' K K' a [[-> ->]|[_ Hj]]%Hcase [[-> ->]|[_ Hj']]%Hcase; rewrite ?Ep; [done| | |]; by eapply H6.
Qed.

Lemma inv_became F Ls s i L L' s' :
  heap_inv F Ls s -> Ls !! i = Some L -> became L s L' s' -> heap_inv F (<[i := L']> Ls) s' /\ blocks (<[i := L']> Ls) = blocks Ls.
Proof.
  intros Hinv Hi [B1 B2 [R1 R2 R3 R4 R5] B4]. split.
  - rewrite B1. eapply inv_update; [done|done|done|done|apply R4; by eapply hi_laid|done|done].
  - unfold blocks. rewrite list_fmap_insert, R3, list_insert_id; [done|]. by rewrite list_lookup_fmap, Hi.
Qed.

Lemma chain_at m L1 c L2 : chain m (L1 ++ c :: L2) -> m !! ck_addr c = Some (hdr_of c (first L2)).
Proof. intros H%chain_app. apply H. Qed.

(** The header of one chunk is rewritten. *)
Lemma chain_mark pos m L1 c c' L2 :
  laid pos (L1 ++ c :: L2) -> chain m (L1 ++ c :: L2) -> ck_addr c' = ck_addr c -> chain (<[ck_addr c := hdr_of c' (first L2)]> m) (L1 ++ c' :: L2).
Proof.
  intros HL Hch E. revert pos HL Hch. induction L1 as [|d L1 IH]; intros pos HL Hch; cbn [app] in *.
  - destruct Hch as [_ Hch]. split; [by rewrite E, lookup_insert_eq|]. eapply chain_frame; [|done]. intros d Hd.
    rewrite lookup_insert_ne; [done|]. intros E'. by eapply after_ne.
  - destruct Hch as [Hd Hch]. split; [|destruct HL as (_ & _ & _ & HL); eauto].
    rewrite lookup_insert_ne. { rewrite Hd. by replace (first (L1 ++ c' :: L2)) with (first (L1 ++ c :: L2)) by (destruct L1; [cbn; congruence|done]). }
    eapply after_ne; [exact HL|]. apply elem_of_app. right. left.
Qed.
Lemma laid_mark pos L1 c c' L2 :
  laid pos (L1 ++ c :: L2) -> chunk_ok c' -> ck_addr c' = ck_addr c -> ck_size c' = ck_size c -> laid pos (L1 ++ c' :: L2).
Proof.
  intros HL Hok Ea Es. revert pos HL. induction L1 as [|d L1 IH]; intros pos HL; cbn [app laid] in *.
  - destruct HL as (_ & H2 & H3 & H4). unfold ck_end. rewrite Ea, Es. done.
  - destruct HL as (H1 & H2 & H3 & H4). split; [done|]. split; [done|]. split; [|auto]. revert H3. rewrite !pages_app, !pages_cons, Ea. done.
Qed.

Lemma inv_mark F Ls s i L1 c c' L2 :
  heap_inv F Ls s -> Ls !! i = Some (L1 ++ c :: L2) -> chunk_ok c' -> ck_addr c' = ck_addr c -> ck_size c' = ck_size c ->
  heap_inv F (<[i := L1 ++ c' :: L2]> Ls) (hp_set_nodes (<[ck_addr c := hdr_of c' (first L2)]> (hp_nodes s)) s).
Proof.
  intros Hinv Hi Hok Ea Es. pose proof (hi_laid _ _ _ Hinv _ _ Hi) as HL. pose proof (hi_chain _ _ _ Hinv _ _ Hi) as Hch.
  eapply inv_update; [done|done| | |by eapply laid_mark|by eapply chain_mark|].
  - destruct L1; [cbn; congruence|done].
  - rewrite !pages_app, !pages_cons, Ea. done.
  - intros a Ha. rewrite lookup_insert_ne; [done|]. intros <-. apply Ha. apply inside_addr; [eapply laid_ok; [exact HL|]|]; apply elem_of_app; right; left.
Qed.

Lemma blocks_split Ls i L : Ls !! i = Some L -> exists R, blocks Ls ≡ₚ lives L ++ R /\ forall L', blocks (<[i := L']> Ls) ≡ₚ lives L' ++ R.
Proof.
  intros Hi. exists (blocks (take i Ls) ++ blocks (drop (S i) Ls)).
  assert (forall A K B, blocks (A ++ K :: B) ≡ₚ lives K ++ blocks A ++ blocks B) as H.
  { intros A K B. unfold blocks. rewrite fmap_app, concat_app. cbn [fmap list_fmap concat]. rewrite (Permutation_app_swap_app (concat _)). done. }
  split; [|intros L'; rewrite insert_take_drop; [apply H|by eapply lookup_lt_Some]].
  rewrite <-(take_drop_middle Ls i L Hi) at 1. apply H.
Qed.
Lemma lives_mark L1 c L2 : lives (L1 ++ c :: L2) ≡ₚ (if ck_free c then [] else [(ck_addr c + SIZEOF_NODE, ck_used c)]) ++ lives (L1 ++ L2).
Proof. rewrite !lives_app, lives_cons. destruct (ck_free c); [done|]. by rewrite <-Permutation_middle. Qed.

(** A free chunk is put to use, or the other way round. *)
Lemma blocks_mark Ls i L1 c c' L2 :
  Ls !! i = Some (L1 ++ c :: L2) -> ck_free c = true -> ck_free c' = false ->
  blocks (<[i := L1 ++ c' :: L2]> Ls) ≡ₚ (ck_addr c' + SIZEOF_NODE, ck_used c') :: blocks Ls.
Proof. intros Hi E E'. destruct (blocks_split _ _ _ Hi) as (R & -> & ->). rewrite !lives_mark, E, E'. done. Qed.
Lemma blocks_unmark Ls i L1 c c' L2 :
  Ls !! i = Some (L1 ++ c :: L2) -> ck_free c = false -> ck_free c' = true ->
  blocks Ls ≡ₚ (ck_addr c + SIZEOF_NODE, ck_used c) :: blocks (<[i := L1 ++ c' :: L2]> Ls).
Proof. intros Hi E E'. destruct (blocks_split _ _ _ Hi) as (R & -> & ->). rewrite !lives_mark, E, E'. done. Qed.

(** ** A new page *)

Definition page_chunk (junk : Z -> Z) (n : Z) : chunk := mkChunk (kpage n) (PAGE_SIZE - SIZEOF_NODE) (junk (kpage n)) true.

Lemma kpage_mod n : kpage n mod PAGE_SIZE = 0.
Proof. unfold kpage, KSPACE_MASK. change PAGE_SIZE with 4096. Z.div_mod_to_equations. lia. Qed.
Lemma page_chunk_ok junk n : page_no n -> chunk_ok (page_chunk junk n).
Proof.
  intros Hn. pose proof (kpage_mod n) as E. unfold page_no in Hn. rewrite NPAGES_eq in Hn.
  split; cbn [page_chunk ck_size ck_free ck_addr]; [sizes; lia|done|rewrite E; sizes; lia| |]; unfold kpage, KSPACE_MASK; sizes; Z.div_mod_to_equations; lia.
Qed.

Lemma inv_page junk F n Ls s i L (m : kmem) :
  heap_inv (n :: F) Ls s -> Ls !! i = Some L -> page_inv F m ->
  heap_inv F (<[i := page_chunk junk n :: L]> Ls)
    (mkHeap m (<[kpage n := hdr_of (page_chunk junk n) (first L)]> (hp_nodes s)) (<[i := kpage n]> (hp_free s)) (hp_lock s)).
Proof.
  intros [H1 H2 H3 H4 H5 H6 H7] Hi Hm. pose proof (lookup_lt_Some _ _ _ Hi) as Hlt.
  assert (page_no n) as Hn by (apply (pi_range _ _ H1); left).
  assert (forall j K a, Ls !! j = Some K -> a ∈ pages K -> a <> kpage n) as Hnew.
  { intros j K a Hj Ha ->. destruct (H5 _ _ _ Hj Ha) as (k & E%kpage_inj & _ & Hk). subst k. apply Hk. left. }
  assert (forall j K c, Ls !! j = Some K -> c ∈ K -> ck_addr c <> kpage n) as Hnew'.
  { intros j K c Hj Hc E. eapply (Hnew j K (kpage n)); [done| |done]. apply elem_of_pages. split; [apply kpage_mod|]. by exists c. }
  assert (forall j K, Ls !! j = Some K -> chain (<[kpage n := hdr_of (page_chunk junk n) (first L)]> (hp_nodes s)) K) as Hold.
  { intros j K Hj. eapply chain_frame; [|by eapply H3]. intros c Hc. rewrite lookup_insert_ne; [done|]. intros E. by eapply Hnew'. }
  assert (pages (page_chunk junk n :: L) = kpage n :: pages L) as Ep by (rewrite pages_cons, decide_True by apply kpage_mod; done).
  assert (forall j K, <[i := page_chunk junk n :: L]> Ls !! j = Some K -> j = i /\ K = page_chunk junk n :: L \/ j <> i /\ Ls !! j = Some K) as Hcase.
  { intros j K. destruct (decide (j = i)) as [->|]; [rewrite list_lookup_insert_eq by done; intros [= <-]; by left|].
    rewrite list_lookup_insert_ne by done. by right. }
  assert (forall j K a, <[i := page_chunk junk n :: L]> Ls !! j = Some K -> a ∈ pages K -> a = kpage n /\ j = i \/ exists K0, Ls !! j = Some K0 /\ a ∈ pages K0) as Hpg.
  { intros j K a [[-> ->]|[Hne Hj]]%Hcase Ha; [|right; by exists K]. rewrite Ep in Ha. apply elem_of_cons in Ha as [->|Ha]; [by left|right; by exists L]. }
  split; [done| | | | | |by rewrite length_insert]; cbn [hp_free hp_nodes].
  - by rewrite H2, list_fmap_insert.
  - intros j K [[-> ->]|[Hne Hj]]%Hcase; [|by eapply Hold]. split; [apply lookup_insert_eq|by eapply Hold].
  - intros j K [[-> ->]|[_ Hj]]%Hcase; [|by eapply H4]. split; [by apply page_chunk_ok|]. split; [apply kpage_mod|]. split.
    + cbn [page_chunk ck_addr]. replace (page_of (kpage n)) with (kpage n) by (pose proof (kpage_mod n); zmod). intros Ha. by eapply Hnew.
    + eapply laid_aligned; [|..|by eapply H4]; [done|]. pose proof (kpage_mod n). unfold page_chunk. zmod.
  - intros j K a Hj Ha. destruct (Hpg _ _ _ Hj Ha) as [[-> _]|(K0 & Hj0 & Ha0)].
    + exists n. split; [done|]. split; [done|]. by apply NoDup_cons_1_1, (pi_nodup _ _ H1).
    + destruct (H5 _ _ _ Hj0 Ha0) as (k & -> & Hk & HF). exists k. split; [done|]. split; [done|]. intros H. apply HF. by right.
  - intros j j' K K' a Hj Hj' Ha Ha'. destruct (Hpg _ _ _ Hj Ha) as [[-> ->]|(K0 & Hj0 & Ha0)], (Hpg _ _ _ Hj' Ha') as [[E ->]|(K0' & Hj0' & Ha0')]; [done| | |by eapply H6].
    + by destruct (Hnew _ _ _ Hj0' Ha0').
    + by destruct (Hnew _ _ _ Hj0 Ha0).
Qed.

(** ** [kalloc] *)

Section heap.
Context (junk : Z -> Z).

Definition alignment (sz : Z) : Z := if sz mod 8 =? 0 then 8 else 4.

(** The chunk for the request is at hand, in the list of the CPU. *)
Definition ready (F : list Z) (B : list (Z * Z)) (i : nat) (sz h : Z) (s : heap) : Prop :=
  exists Ls L1 c L2, heap_inv F Ls s /\ blocks Ls ≡ₚ B /\ Ls !! i = Some (L1 ++ c :: L2) /\ ck_addr c = h /\ ck_free c = true /\
    sz <= ck_size c /\ h mod alignment sz = 0.

(** It is put to use. *)
Lemma use_wp F B i sz h s :
  0 <= sz <= PAGE_SIZE - SIZEOF_NODE -> ready F B i sz h s ->
  wp (x ← load_hdr h; store_hdr h (mkNode (n_next x) (n_size x) (u16 sz) false);; release_memlock;; mret (u64 (h + SIZEOF_NODE)))
    (fun p s' => exists Ls, heap_inv F Ls s' /\ hp_lock s' = false /\ blocks Ls ≡ₚ (p, sz) :: B /\ p mod alignment sz = 0) s.
Proof.
  intros Hsz (Ls & L1 & c & L2 & Hinv & HB & Hi & Ea & Ef & Hs & Hal).
  pose proof (laid_ok _ _ c (hi_laid _ _ _ Hinv _ _ Hi) ltac:(apply elem_of_app; right; left)) as Hc.
  pose proof (chain_at _ _ _ _ (hi_chain _ _ _ Hinv _ _ Hi)) as Hl. rewrite Ea in Hl. wp_prim. eapply wp_load_hdr; [exact Hl|].
  unfold store_hdr, release_memlock. wp_prims. cbn [hdr_of n_next n_size]. rewrite u16_small by (sizes; lia).
  rewrite u64_small by (rewrite <-Ea; destruct Hc; sizes; lia).
  set (c' := mkChunk (ck_addr c) (ck_size c) sz false). exists (<[i := L1 ++ c' :: L2]> Ls).
  assert (chunk_ok c') as Hc' by (unfold c'; destruct Hc; split; cbn [ck_addr ck_size ck_used ck_free]; try done; intros _; lia).
  pose proof (inv_mark _ _ _ _ _ c c' _ Hinv Hi Hc' eq_refl eq_refl) as Hinv'. rewrite Ea in Hinv'.
  split; [destruct Hinv'; by split|]. split; [done|]. split.
  - rewrite (blocks_mark _ _ _ c c' _ Hi Ef eq_refl), HB. cbn. by rewrite Ea.
  - revert Hal. unfold alignment, SIZEOF_NODE. destruct (_ =? 0); intros Hal; Z.div_mod_to_equations; lia.
Qed.

Lemma kalloc_wp F Ls i sz n s :
  heap_inv (n :: F) Ls s -> hp_lock s = false -> is_Some (Ls !! i) -> 0 <= sz <= PAGE_SIZE - SIZEOF_NODE ->
  wp (kalloc junk (Z.of_nat i) sz) (fun p s' => exists F' Ls', heap_inv F' Ls' s' /\ hp_lock s' = false /\ (F' = n :: F \/ F' = F) /\
    blocks Ls' ≡ₚ (p, sz) :: blocks Ls /\ p mod alignment sz = 0) s.
Proof.
  intros Hinv Hlock [L Hi] Hsz. unfold kalloc, acquire_memlock. wp_prims. rewrite Hlock. wp_prims.
  set (s0 := hp_set_lock true s). assert (heap_inv (n :: F) Ls s0) as Hinv0 by (destruct Hinv; by split).
  rewrite Nat2Z.id. assert (hp_free s0 !! i = Some (first L)) as Hfr by (rewrite (hi_free _ _ _ Hinv0), list_lookup_fmap, Hi; done).
  unfold wp at 1. cbn beta. rewrite Hfr. cbn [some_or_ub mret M_ret]. wp_prims. fold (alignment sz).
  pose proof (hi_laid _ _ _ Hinv0 _ _ Hi) as HL. pose proof (hi_chain _ _ _ Hinv0 _ _ Hi) as Hch.
  eapply wp_mono. { eapply (scan_wp junk _ (alignment sz) sz 0 L s0); [|exact Hsz|exact HL|exact Hch|].
    - unfold alignment. destruct (_ =? 0); [by right|by left].
    - pose proof (weight_length L). pose proof (chain_size _ _ _ Hch HL). lia. }
  intros r s1 (L' & B & Hf). destruct (inv_became _ _ _ _ _ _ _ Hinv0 Hi B) as [Hinv1 HB].
  pose proof (lookup_lt_Some _ _ _ Hi) as Hlt. assert (<[i := L']> Ls !! i = Some L') as Hi1 by by apply list_lookup_insert_eq.
  assert (hp_lock s1 = true) as Hl1 by (rewrite (be_state _ _ _ _ B); done). wp_prim.
  eapply wp_mono with (Q := fun h s2 => exists F', (F' = n :: F \/ F' = F) /\ ready F' (blocks Ls) i sz h s2).
  - destruct (Z.eqb_spec r 0) as [->|Hr].
    + wp_prim. apply wp_zoom. eapply wp_mono; [apply kalloc_page_wp, (hi_mem _ _ _ Hinv1)|].
      intros p m (-> & Hm & _). unfold store_hdr. wp_prims. exists F. split; [by right|].
      pose proof (inv_page junk F n _ s1 i L' m Hinv1 Hi1 Hm) as Hinv2. rewrite list_insert_insert_eq in Hinv2.
      exists (<[i := page_chunk junk n :: L']> Ls), [], (page_chunk junk n), L'. rewrite (rt_first _ _ (be_retile _ _ _ _ B)) in Hinv2.
      split; [exact Hinv2|]. split; [|split; [by apply list_lookup_insert_eq|]].
      * rewrite <-HB. destruct (blocks_split _ _ _ Hi) as (R & _ & HR). rewrite !HR, lives_cons. done.
      * split; [done|]. split; [done|]. split; [cbn; lia|]. pose proof (kpage_mod n). unfold alignment. destruct (_ =? 0); zmod.
    + wp_prim. destruct Hf as [|(L1 & c & L2 & -> & E & Ef & Hs & Hal)]; [done|]. exists (n :: F). split; [by left|].
      exists (<[i := L1 ++ c :: L2]> Ls), L1, c, L2. rewrite HB. done.
  - intros h s2 (F' & HF & Hrdy). eapply wp_mono; [by apply (use_wp F' (blocks Ls) i)|].
    intros p s3 (Ls3 & I3 & K3 & B3 & A3). exists F', Ls3. done.
Qed.

(** ** [kfree] *)

Lemma became_prefix pos L1 L s L' s' : laid pos (L1 ++ L) -> chain (hp_nodes s) (L1 ++ L) -> became L s L' s' -> became (L1 ++ L) s (L1 ++ L') s'.
Proof.
  intros HL Hch B. revert pos HL Hch. induction L1 as [|c L1 IH]; intros pos HL Hch; [done|]. cbn [app] in *.
  eapply became_app; [exact HL|exact Hch|]. destruct HL as (_ & _ & _ & HL), Hch as [_ Hch]. by eapply IH.
Qed.

Lemma elem_of_blocks b Ls : b ∈ blocks Ls -> exists i L1 c L2, Ls !! i = Some (L1 ++ c :: L2) /\ ck_free c = false /\ b = (ck_addr c + SIZEOF_NODE, ck_used c).
Proof.
  unfold blocks. rewrite list_elem_of_In, in_concat. intros (K & HK & Hb). apply list_elem_of_In in HK, Hb. apply list_elem_of_fmap in HK as (L & -> & [i Hi]%list_elem_of_lookup).
  unfold lives in Hb. apply list_elem_of_fmap in Hb as (c & -> & [Hf Hc]%list_elem_of_filter).
  apply list_elem_of_split in Hc as (L1 & L2 & ->). by exists i, L1, c, L2.
Qed.

Lemma kfree_wp F Ls p sz s :
  heap_inv F Ls s -> hp_lock s = false -> (p, sz) ∈ blocks Ls ->
  wp (kfree p) (fun _ s' => exists Ls', heap_inv F Ls' s' /\ hp_lock s' = false /\ blocks Ls ≡ₚ (p, sz) :: blocks Ls') s.
Proof.
  intros Hinv Hlock (i & L1 & c & L2 & Hi & Ef & [= -> ->])%elem_of_blocks. unfold kfree, acquire_memlock. wp_prims. rewrite Hlock. wp_prims.
  set (s0 := hp_set_lock true s). assert (heap_inv F Ls s0) as Hinv0 by (destruct Hinv; by split).
  pose proof (hi_laid _ _ _ Hinv0 _ _ Hi) as HL. pose proof (hi_chain _ _ _ Hinv0 _ _ Hi) as Hch.
  pose proof (laid_ok _ _ c HL ltac:(apply elem_of_app; right; left)) as Hc.
  replace (u64 (ck_addr c + SIZEOF_NODE - SIZEOF_NODE)) with (ck_addr c) by (rewrite u64_small; destruct Hc; sizes; lia).
  destruct (laid_app _ _ _ HL) as [pos HL2]. eapply wp_mono; [eapply merge_wp; [exact HL2|by eapply chain_app]|].
  intros [] s1 (c' & L2' & B & (G1 & G2 & G3 & _) & _). pose proof (became_prefix _ _ _ _ _ _ HL Hch B) as B'.
  destruct (inv_became _ _ _ _ _ _ _ Hinv0 Hi B') as [Hinv1 HB]. pose proof (lookup_lt_Some _ _ _ Hi) as Hlt.
  assert (<[i := L1 ++ c' :: L2']> Ls !! i = Some (L1 ++ c' :: L2')) as Hi1 by by apply list_lookup_insert_eq.
  pose proof (laid_ok _ _ c' (hi_laid _ _ _ Hinv1 _ _ Hi1) ltac:(apply elem_of_app; right; left)) as Hc'.
  rewrite <-G1, <-G2. wp_prim. eapply wp_load_hdr; [apply (chain_at _ L1 _ L2'), (hi_chain _ _ _ Hinv1 _ _ Hi1)|].
  unfold store_hdr, release_memlock. wp_prims. cbn [hdr_of n_next n_size n_used].
  set (d := mkChunk (ck_addr c') (ck_size c') (ck_used c') true). exists (<[i := L1 ++ d :: L2']> (<[i := L1 ++ c' :: L2']> Ls)).
  assert (chunk_ok d) as Hd by (destruct Hc'; by split).
  pose proof (inv_mark _ _ _ _ _ c' d _ Hinv1 Hi1 Hd eq_refl eq_refl) as Hinv2. split; [destruct Hinv2; by split|]. split; [done|].
  rewrite <-HB. eapply blocks_unmark; [exact Hi1|congruence|done].
Qed.

(** ** Blocks in use never overlap *)

(** Two blocks with at least a header between them. *)
Definition separate (b b' : Z * Z) : Prop :=
  fst b + snd b + SIZEOF_NODE <= fst b' \/ fst b' + snd b' + SIZEOF_NODE <= fst b.
Definition in_page (b : Z * Z) : Prop := page_of (fst b - SIZEOF_NODE) + SIZEOF_NODE <= fst b /\ fst b + snd b <= page_of (fst b - SIZEOF_NODE) + PAGE_SIZE.

Lemma NoDup_concat {A B} (f : A -> B) (Ls : list (list A)) :
  (forall i L, Ls !! i = Some L -> NoDup (f <$> L)) ->
  (forall i j L L' a, Ls !! i = Some L -> Ls !! j = Some L' -> a ∈ f <$> L -> a ∈ f <$> L' -> i = j) -> NoDup (f <$> concat Ls).
Proof.
  induction Ls as [|L Ls IH]; intros H1 H2; [constructor|]. cbn [concat]. rewrite fmap_app. apply NoDup_app. split; [by apply (H1 0%nat)|]. split.
  - intros a Ha (x & -> & Hx)%list_elem_of_fmap. rewrite list_elem_of_In, in_concat in Hx. destruct Hx as (K & HK & Hx).
    apply list_elem_of_In in HK, Hx. apply list_elem_of_lookup in HK as [j Hj].
    assert (0 = S j)%nat; [|done]. eapply (H2 0%nat (S j) L K); [done|done|exact Ha|by apply list_elem_of_fmap_2].
  - apply IH; [intros i K Hi; by apply (H1 (S i))|]. intros i j K K' a Hi Hj Ha Ha'. assert (S i = S j); [|lia]. by eapply (H2 (S i) (S j) K K').
Qed.

Lemma blocks_concat Ls : blocks Ls = lives (concat Ls).
Proof. induction Ls as [|L Ls IH]; [done|]. cbn [concat]. rewrite lives_app, <-IH. done. Qed.

(** The chunks of all lists. *)
Lemma inv_apart F Ls s c d : heap_inv F Ls s -> c ∈ concat Ls -> d ∈ concat Ls -> ck_addr c <> ck_addr d -> apart c d.
Proof.
  intros Hinv Hc Hd Hne. rewrite list_elem_of_In, in_concat in Hc, Hd. destruct Hc as (K & [i Hi]%list_elem_of_In%list_elem_of_lookup & Hc%list_elem_of_In), Hd as (K' & [j Hj]%list_elem_of_In%list_elem_of_lookup & Hd%list_elem_of_In).
  pose proof (hi_laid _ _ _ Hinv _ _ Hi) as HK. pose proof (hi_laid _ _ _ Hinv _ _ Hj) as HK'. destruct (decide (i = j)) as [->|Hij].
  - rewrite Hi in Hj. injection Hj as <-. clear HK' Hi. revert HK Hc Hd. generalize 0 as pos. clear -Hne. induction K as [|e K IH]; intros pos HK Hc Hd; [by apply not_elem_of_nil in Hc|].
    apply elem_of_cons in Hc as [->|Hc], Hd as [->|Hd]; [done| | |destruct HK as (_ & _ & _ & HK); by eapply IH].
    + exact (after_apart _ _ _ _ HK Hd).
    + destruct (after_apart _ _ _ _ HK Hc); [by right|by left].
  - apply pages_apart; [exact (laid_ok _ _ _ HK Hc)|exact (laid_ok _ _ _ HK' Hd)|]. intros E. apply Hij. eapply (hi_sep _ _ _ Hinv _ _ K K' (page_of (ck_addr c))); [done|done|by apply laid0_page|].
    rewrite E. by apply laid0_page.
Qed.

Lemma inv_nodup F Ls s : heap_inv F Ls s -> NoDup (ck_addr <$> concat Ls).
Proof.
  intros Hinv. apply NoDup_concat; [intros i L Hi; eapply laid_nodup, (hi_laid _ _ _ Hinv _ _ Hi)|].
  intros i j L L' a Hi Hj (c & -> & Hc)%list_elem_of_fmap (d & E & Hd)%list_elem_of_fmap.
  eapply (hi_sep _ _ _ Hinv _ _ L L' (page_of (ck_addr c))); [done|done|apply laid0_page; [by eapply hi_laid|done]|].
  rewrite E. apply laid0_page; [by eapply hi_laid|done].
Qed.

Lemma blocks_nodup F Ls s : heap_inv F Ls s -> NoDup (fst <$> blocks Ls).
Proof.
  intros Hinv. rewrite blocks_concat. unfold lives. rewrite <-list_fmap_compose.
  rewrite (list_fmap_ext _ ((fun a => a + SIZEOF_NODE) ∘ ck_addr)) by done. rewrite list_fmap_compose. apply NoDup_fmap; [intros a b; lia|].
  eapply sublist_NoDup; [by eapply inv_nodup|]. apply fmap_sublist. apply sublist_filter.
Qed.

Lemma block_chunk b Ls : b ∈ blocks Ls -> exists c, c ∈ concat Ls /\ ck_free c = false /\ b = (ck_addr c + SIZEOF_NODE, ck_used c).
Proof. rewrite blocks_concat. unfold lives. intros (c & -> & [Hf Hc]%list_elem_of_filter)%list_elem_of_fmap. by exists c. Qed.

Lemma inv_chunk_ok F Ls s c : heap_inv F Ls s -> c ∈ concat Ls -> chunk_ok c.
Proof.
  intros Hinv Hc. rewrite list_elem_of_In, in_concat in Hc. destruct Hc as (K & [i Hi]%list_elem_of_In%list_elem_of_lookup & Hc%list_elem_of_In).
  exact (laid_ok _ _ _ (hi_laid _ _ _ Hinv _ _ Hi) Hc).
Qed.

Lemma inv_separate F Ls s b b' : heap_inv F Ls s -> b ∈ blocks Ls -> b' ∈ blocks Ls -> fst b <> fst b' -> separate b b'.
Proof.
  intros Hinv (c & Hc & Ef & ->)%block_chunk (d & Hd & Ef' & ->)%block_chunk Hne. cbn in Hne. unfold separate. cbn [fst snd].
  destruct (co_used _ (inv_chunk_ok _ _ _ _ Hinv Hc) Ef), (co_used _ (inv_chunk_ok _ _ _ _ Hinv Hd) Ef').
  destruct (inv_apart _ _ _ _ _ Hinv Hc Hd) as [A|A]; [lia|left|right]; sizes; lia.
Qed.
(** The headers that a list goes through, from the one at [a] on. *)
Inductive linked (m : gmap Z node) : Z -> Z -> Prop :=
  | linked_here h : h <> 0 -> linked m h h
  | linked_next a x h : a <> 0 -> m !! a = Some x -> linked m (n_next x) h -> linked m a h.
(** The header at [h] and the block [b] have no byte in common. *)
Definition clear_of (h : Z) (b : Z * Z) : Prop := h + SIZEOF_NODE <= fst b \/ fst b + snd b <= h.

Lemma linked_chunk m L h : chain m L -> linked m (first L) h -> exists c, c ∈ L /\ ck_addr c = h.
Proof.
  intros Hc H. remember (first L) as a eqn:Ea. revert L Hc Ea. induction H as [h Hn|a x h Hn Hx _ IH]; intros [|c L] Hc ->; try done.
  - exists c. split; [left|done].
  - destruct Hc as [Hc1 Hc2]. cbn [first] in Hx. rewrite Hc1 in Hx. injection Hx as <-. destruct (IH L Hc2 eq_refl) as (d & Hd & E). exists d. split; [by right|done].
Qed.
Lemma inv_clear F Ls s b i a h : heap_inv F Ls s -> b ∈ blocks Ls -> hp_free s !! i = Some a -> linked (hp_nodes s) a h -> clear_of h b.
Proof.
  intros Hinv (c & Hc & Ef & ->)%block_chunk Hi Hh. rewrite (hi_free _ _ _ Hinv), list_lookup_fmap in Hi. destruct (Ls !! i) as [L|] eqn:HL; [|done]. injection Hi as <-.
  destruct (linked_chunk _ _ _ (hi_chain _ _ _ Hinv _ _ HL) Hh) as (d & Hd & <-).
  assert (d ∈ concat Ls) as Hd'. { rewrite list_elem_of_In, in_concat. exists L. split; apply list_elem_of_In; [by eapply list_elem_of_lookup_2|done]. }
  pose proof (co_used _ (inv_chunk_ok _ _ _ _ Hinv Hc) Ef). pose proof (co_size _ (inv_chunk_ok _ _ _ _ Hinv Hd')). unfold clear_of. cbn [fst snd].
  destruct (decide (ck_addr c = ck_addr d)) as [E|E]; [left; lia|]. destruct (inv_apart _ _ _ _ _ Hinv Hc Hd' E) as [A|A]; [right|left]; sizes; lia.
Qed.
Lemma inv_in_page F Ls s b : heap_inv F Ls s -> b ∈ blocks Ls -> in_page b.
Proof.
  intros Hinv (c & Hc & Ef & ->)%block_chunk. pose proof (inv_chunk_ok _ _ _ _ Hinv Hc) as Hok. pose proof (co_used _ Hok Ef). pose proof (co_page _ Hok). unfold in_page. cbn [fst snd].
  replace (ck_addr c + SIZEOF_NODE - SIZEOF_NODE) with (ck_addr c) by lia. zmod.
Qed.

(** ** Properties *)

(** [B] are the blocks in use, in any order. *)
Definition heap_ok (B : list (Z * Z)) (s : heap) : Prop :=
  hp_lock s = false /\ exists F Ls, heap_inv F Ls s /\ blocks Ls ≡ₚ B.
Definition pages_left (s : heap) : Prop := km_cnt (hp_mem s) < km_pagenum (hp_mem s).

Lemma kalloc_ok B s i sz : heap_ok B s -> pages_left s -> (i < 4)%nat -> 0 <= sz <= PAGE_SIZE - SIZEOF_NODE ->
  wp (kalloc junk (Z.of_nat i) sz) (fun p s' => heap_ok ((p, sz) :: B) s' /\ p mod alignment sz = 0) s.
Proof.
  intros (Hl & F & Ls & Hinv & HB) Hleft Hi Hsz. destruct F as [|n F].
  { pose proof (pi_count _ _ (hi_mem _ _ _ Hinv)) as E. unfold pages_left in Hleft. cbn in E. lia. }
  eapply wp_mono; [eapply kalloc_wp; [done|done|by apply lookup_lt_is_Some; rewrite (hi_len _ _ _ Hinv)|done]|].
  intros p s' (F' & Ls' & Hinv' & Hl' & _ & HB' & Ha). split; [|done]. split; [done|]. exists F', Ls'. split; [done|]. by rewrite HB', HB.
Qed.
Lemma kfree_ok B s p sz : heap_ok ((p, sz) :: B) s -> wp (kfree p) (fun _ s' => heap_ok B s') s.
Proof.
  intros (Hl & F & Ls & Hinv & HB). eapply wp_mono; [eapply (kfree_wp F Ls p sz); [done|done|rewrite HB; left]|].
  intros [] s' (Ls' & Hinv' & Hl' & HB'). split; [done|]. exists F, Ls'. split; [done|]. apply (Permutation_cons_inv (a := (p, sz))). by rewrite <-HB'.
Qed.
Lemma heap_ok_clear B s b i a h : heap_ok B s -> b ∈ B -> hp_free s !! i = Some a -> linked (hp_nodes s) a h -> clear_of h b.
Proof. intros (_ & F & Ls & Hinv & HB) Hb. rewrite <-HB in Hb. by eapply inv_clear. Qed.
Lemma heap_ok_separate B s : heap_ok B s -> NoDup (fst <$> B) /\ (forall b b', b ∈ B -> b' ∈ B -> fst b <> fst b' -> separate b b') /\ Forall in_page B.
Proof.
  intros (_ & F & Ls & Hinv & HB). split; [rewrite <-HB; by eapply blocks_nodup|]. split; [|apply Forall_forall; intros b].
  - intros b b'. rewrite <-HB. by eapply inv_separate.
  - rewrite <-HB. by eapply inv_in_page.
Qed.

(** [kalloc] of at most a page less a header, while pages are left, returns
    a block that begins at a multiple of 8 if the size is one and of 4
    otherwise, lies in one page and overlaps neither a block in use nor its
    header; the blocks in use are those before and the new one.  [kfree] of a
    block in use returns, and the others stay in use. *)
Theorem kalloc_fresh B s i sz :
  heap_ok B s -> pages_left s -> (i < 4)%nat -> 0 <= sz <= PAGE_SIZE - SIZEOF_NODE ->
  exists p s', kalloc junk (Z.of_nat i) sz s = Ret (p, s') /\ heap_ok ((p, sz) :: B) s' /\ p mod alignment sz = 0 /\ in_page (p, sz) /\
    (forall b, b ∈ B -> separate (p, sz) b) /\
    exists s'', kfree p s' = Ret (tt, s'') /\ heap_ok B s''.
Proof.
  intros Hok Hleft Hi Hsz. destruct (wp_run _ _ _ (kalloc_ok B s i sz Hok Hleft Hi Hsz)) as (p & s' & Hr & Hok' & Ha). exists p, s'.
  destruct (heap_ok_separate _ _ Hok') as (Hnd & Hsep & Hin). apply NoDup_cons in Hnd as [Hn _]. apply Forall_cons in Hin as [Hin _].
  do 4 (split; [done|]). split.
  - intros b Hb. apply Hsep; [left|by right|]. intros E. apply Hn. cbn in E |- *. rewrite E. by apply list_elem_of_fmap_2.
  - destruct (wp_run _ _ _ (kfree_ok B s' p sz Hok')) as ([] & s'' & Hr' & Hok''). by exists s''.
Qed.

(** Calls of any CPUs, with the blocks they leave in use. *)
Inductive hstep : list (Z * Z) * heap -> list (Z * Z) * heap -> Prop :=
  | hstep_alloc B s i sz p s' :
      (i < 4)%nat -> 0 <= sz <= PAGE_SIZE - SIZEOF_NODE -> pages_left s -> kalloc junk (Z.of_nat i) sz s = Ret (p, s') -> hstep (B, s) ((p, sz) :: B, s')
  | hstep_free B1 B2 s p sz s' : kfree p s = Ret (tt, s') -> hstep (B1 ++ (p, sz) :: B2, s) (B1 ++ B2, s').

Lemma hstep_ok c c' : hstep c c' -> heap_ok (fst c) (snd c) -> heap_ok (fst c') (snd c').
Proof.
  intros [B s i sz p s' Hi Hsz Hleft Hr|B1 B2 s p sz s' Hr] Hok; cbn [fst snd] in *.
  - destruct (wp_run _ _ _ (kalloc_ok B s i sz Hok Hleft Hi Hsz)) as (p' & s1 & Hr' & H & _). by rewrite Hr in Hr'; injection Hr' as -> ->.
  - assert (heap_ok ((p, sz) :: B1 ++ B2) s) as Hok1. { destruct Hok as (H1 & F & Ls & H2 & H3). split; [done|]. exists F, Ls. split; [done|]. by rewrite H3, Permutation_middle. }
    destruct (wp_run _ _ _ (kfree_ok _ s p sz Hok1)) as ([] & s1 & Hr' & H). by rewrite Hr in Hr'; injection Hr' as ->.
Qed.

(** C27: after any sequence of calls on any CPUs, of [kalloc] with sizes up to a
    page less a header while a page is left, and of [kfree] once for each block,
    the blocks in use lie in one page each, no two of them overlap, and none of
    them overlaps a header that the lists of the CPUs go through, of a block in
    use or of a free one.  The code also accepts larger sizes, and then returns a
    block that is too small. *)
Theorem blocks_never_overlap B s B' s' :
  heap_ok B s -> rtc hstep (B, s) (B', s') ->
  NoDup (fst <$> B') /\ (forall b b', b ∈ B' -> b' ∈ B' -> fst b <> fst b' -> separate b b') /\ Forall in_page B' /\
  (forall b i a h, b ∈ B' -> hp_free s' !! i = Some a -> linked (hp_nodes s') a h -> clear_of h b).
Proof.
  intros Hok Hsteps. assert (heap_ok B' s') as Hok'.
  { change (heap_ok (fst (B', s')) (snd (B', s'))). change (heap_ok (fst (B, s)) (snd (B, s))) in Hok.
    induction Hsteps as [|c c1 c2 Hs _ IH]; [done|]. apply IH. by eapply hstep_ok. }
  destruct (heap_ok_separate _ _ Hok') as (H1 & H2 & H3). split_and!; [done..|]. intros b i a h. by apply heap_ok_clear.
Qed.
End heap.

(** ** Two free pages *)

Definition heap_boot : heap := mkHeap demo_kmem ∅ (replicate 4 0) false.
Lemma heap_boot_ok : heap_ok [] heap_boot.
Proof.
  split; [done|]. exists [5; 7], (replicate 4 []). split; [|done].
  assert (forall i L, replicate 4 ([] : list chunk) !! i = Some L -> L = []) as E by (intros i L H; by apply lookup_replicate in H as [-> _]).
  split; [apply demo_kmem_inv|done|intros i L ->%E; done|intros i L ->%E; done|intros i L a ->%E Ha| |done].
  - by apply not_elem_of_nil in Ha.
  - intros i j L L' a ->%E _ Ha. by apply not_elem_of_nil in Ha.
Qed.

Definition after_alloc (cpu sz : Z) (s : heap) : heap := match kalloc (fun _ => 0) cpu sz s with Ret (_, s') => s' | _ => s end.

Lemma kalloc_fresh_witness : exists s', kalloc (fun _ => 0) 0 21 (after_alloc 0 100 heap_boot) = Ret (kpage 5 + 132, s') /\ (kpage 5 + 132) mod 4 = 0.
Proof.
  assert (heap_ok [(kpage 5 + 16, 100)] (after_alloc 0 100 heap_boot)) as Hok.
  { destruct (wp_run _ _ _ (kalloc_ok (fun _ => 0) [] heap_boot 0 100 heap_boot_ok ltac:(unfold pages_left; cbn; lia) ltac:(lia) ltac:(unfold PAGE_SIZE, SIZEOF_NODE; lia)))
      as (p & s' & Hr & H & _). change (Z.of_nat 0) with 0 in Hr.
    assert (kalloc (fun _ => 0) 0 100 heap_boot = Ret (kpage 5 + 16, after_alloc 0 100 heap_boot)) as E by (vm_compute; reflexivity).
    rewrite E in Hr. injection Hr as <- <-. exact H. }
  destruct (kalloc_fresh (fun _ => 0) [(kpage 5 + 16, 100)] (after_alloc 0 100 heap_boot) 0 21 Hok
    ltac:(unfold pages_left; vm_compute; reflexivity) ltac:(lia) ltac:(unfold PAGE_SIZE, SIZEOF_NODE; lia)) as (p & s' & Hr & _ & Ha & _).
  change (Z.of_nat 0) with 0 in Hr. exists s'. assert (p = kpage 5 + 132) as ->.
  { assert (exists s1, kalloc (fun _ => 0) 0 21 (after_alloc 0 100 heap_boot) = Ret (kpage 5 + 132, s1)) as [s1 E] by (eexists; vm_compute; reflexivity).
    rewrite E in Hr. congruence. }
  split; [exact Hr|exact Ha].
Defined.

Lemma blocks_never_overlap_witness : exists p q, separate (p, 8) (q, 30) /\ in_page (q, 30).
Proof.
  pose (s1 := after_alloc 1 8 heap_boot). pose (s2 := after_alloc 1 30 s1).
  assert (rtc (hstep (fun _ => 0)) ([], heap_boot) ([(kpage 5 + 40, 30); (kpage 5 + 16, 8)], s2)) as Hsteps.
  { eapply rtc_l; [apply (hstep_alloc _ [] heap_boot 1 8 (kpage 5 + 16) s1); [lia|unfold PAGE_SIZE, SIZEOF_NODE; lia|unfold pages_left; cbn; lia|vm_compute; reflexivity]|].
    eapply rtc_l; [apply (hstep_alloc _ _ s1 1 30 (kpage 5 + 40) s2); [lia|unfold PAGE_SIZE, SIZEOF_NODE; lia|unfold pages_left; vm_compute; reflexivity|vm_compute; reflexivity]|].
    apply rtc_refl. }
  destruct (blocks_never_overlap (fun _ => 0) [] heap_boot _ s2 heap_boot_ok Hsteps) as (_ & H1 & H2 & _).
  exists (kpage 5 + 16), (kpage 5 + 40). split; [apply H1; [right; left|left|cbn; lia]|]. apply Forall_cons in H2 as [H2 _]. exact H2.
Defined.
