(* ===== verification/PageTable.v ===== *)
(** * Page tables: [kernel/pt.c], [aarch64/mmu.h]

    The four-level tables live in the physical pages of file [Mem]; [get_pte]
    walks them, allocating what is missing.  [pte_of] is what the hardware finds
    for a virtual address.  A ghost map records the level and the virtual prefix
    of every table page, so that no table is shared. *)

From Stdlib Require Import ZArith Lia.
From stdpp Require Import base tactics numbers gmap list.
From S2P Require Import Prelude Mem.

Local Open Scope Z_scope.

(** ** [aarch64/mmu.h] *)

Definition PTE_VALID : Z := 1.
Definition PTE_TABLE : Z := 3.
Definition PTE_PAGE : Z := 3.
Definition PTE_USER : Z := Z.shiftl 1 6.
Definition PTE_RO : Z := Z.shiftl 1 7.
Definition AF_USED : Z := Z.shiftl 1 10.
Definition SH_OUTER : Z := Z.shiftl 2 8.
Definition PTE_NORMAL : Z := Z.lor (Z.lor (Z.shiftl 1 2) AF_USED) SH_OUTER.
Definition PTE_USER_DATA : Z := Z.lor (Z.lor PTE_USER PTE_NORMAL) PTE_PAGE.
Definition N_PTE_PER_TABLE : Z := 512.
Definition USERTOP : Z := 2 ^ 48.

(** 0xFFFF000000000FFF. *)
Definition PTE_FLAGS_MASK : Z := Z.lor (Z.shiftl (Z.ones 16) 48) (Z.ones 12).
Definition PTE_ADDRESS (pte : Z) : Z := Z.ldiff pte PTE_FLAGS_MASK.

Definition VA_PART0 (va : Z) : Z := Z.shiftr (Z.land va (Z.shiftl 511 39)) 39.
Definition VA_PART1 (va : Z) : Z := Z.shiftr (Z.land va (Z.shiftl 511 30)) 30.
Definition VA_PART2 (va : Z) : Z := Z.shiftr (Z.land va (Z.shiftl 511 21)) 21.
Definition VA_PART3 (va : Z) : Z := Z.shiftr (Z.land va (Z.shiftl 511 12)) 12.

(** ** Operations *)

(** [&t[i]] for a table [t]. *)
Definition pte_addr (t i : Z) : Z := u64 (t + 8 * i).

(** A new page, cleared. *)
Definition alloc_table : KM Z := p ← kalloc_page; clear_page p;; mret p.

(** One level of [get_pte]: the next table, or NULL. *)
Definition next_table (t i : Z) (alloc : bool) : KM Z :=
  e ← load64 (pte_addr t i);
  if (Z.land e PTE_VALID =? 0) && negb alloc then mret 0 else
  (if Z.land e PTE_VALID =? 0 then
     new_page ← alloc_table;
     store64 (pte_addr t i) (Z.lor (K2P new_page) PTE_TABLE)
   else mret tt);;
  e ← load64 (pte_addr t i);
  mret (P2K (PTE_ADDRESS e)).

(** [get_pte]: the new value of [pgdir->pt] and the pointer to the entry, or NULL. *)
Definition get_pte (pt va : Z) (alloc : bool) : KM (Z * Z) :=
  if (pt =? 0) && negb alloc then mret (pt, 0) else
  pt0 ← (if pt =? 0 then alloc_table else mret pt);
  pt1 ← next_table pt0 (VA_PART0 va) alloc;
  if pt1 =? 0 then mret (pt0, 0) else
  pt2 ← next_table pt1 (VA_PART1 va) alloc;
  if pt2 =? 0 then mret (pt0, 0) else
  pt3 ← next_table pt2 (VA_PART2 va) alloc;
  if pt3 =? 0 then mret (pt0, 0) else
  mret (pt0, pte_addr pt3 (VA_PART3 va)).

(** [attach_pgdir]; [invalid_pt] is the address of the empty table. *)
Definition attach_pgdir (invalid_pt pt : Z) : KM unit :=
  modify (set_ttbr0 (if negb (pt =? 0) then K2P pt else K2P invalid_pt)).

(** [vmmap]: the new value of [pd->pt]. *)
Definition vmmap (invalid_pt pt va ka flags : Z) : KM Z :=
  r ← get_pte pt va true;
  store64 (snd r) (Z.lor (K2P ka) flags);;
  increment_ref (K2P ka / PAGE_SIZE);;
  attach_pgdir invalid_pt (fst r);;
  mret (fst r).

(** [free_pt_pages]: [deep] counts the levels above, and tables three levels
    down are freed without a look at their entries. *)
Fixpoint free_pt_pages (levels : nat) (p : Z) : KM unit :=
  match levels with
  | O => kfree_page p
  | S levels' =>
      if p =? 0 then kfree_page p else
      for_each (seqZ 0 N_PTE_PER_TABLE) (fun i =>
        e ← load64 (pte_addr p i);
        if negb (e =? 0) then
          free_pt_pages levels' (P2K (PTE_ADDRESS e));;
          store64 (pte_addr p i) 0
        else mret tt);;
      kfree_page p
  end.

Definition free_pgdir (pt : Z) : KM Z :=
  if pt =? 0 then mret 0 else free_pt_pages 3 pt;; mret 0.

(** The page of a turn of [copyout], behind the entry at [pte]; a new one if there
    is none, or NULL. *)
Definition copyout_page (pte : Z) : KM Z :=
  e ← load64 pte;
  if negb (Z.land e PTE_VALID =? 0) then mret (P2K (PTE_ADDRESS e))
  else pg ← kalloc_page; if pg =? 0 then mret 0 else store64 pte (Z.lor (K2P pg) PTE_USER_DATA);; mret pg.

(** [copyout]; [p] is the source, [None] for NULL (then zeros are written).  Each
    turn moves to the next page, so that [len] turns are enough. *)
Fixpoint copyout_loop (fuel : nat) (pt va : Z) (p : option (list Z)) (len : Z) : KM (Z * Z) :=
  match fuel with
  | O => block
  | S fuel' =>
      if len <=? 0 then mret (pt, 0) else
      let pgoff := va mod PAGE_SIZE in
      r ← get_pte pt va true;
      if snd r =? 0 then mret (fst r, -1) else
      page ← copyout_page (snd r);
      if page =? 0 then mret (fst r, -1) else
      let n := Z.min len (PAGE_SIZE - pgoff) in
      write_bytes (page + pgoff)
        (match p with Some bs => take (Z.to_nat n) bs | None => replicate (Z.to_nat n) 0 end);;
      copyout_loop fuel' (fst r) (va + n) (drop (Z.to_nat n) <$> p) (len - n)
  end.

Definition copyout (pt va : Z) (p : option (list Z)) (len : Z) : KM (Z * Z) :=
  if USERTOP <? u64 (va + len) then mret (pt, -1) else
  copyout_loop (S (Z.to_nat len)) pt va p len.

(** ** Virtual addresses *)

Lemma lor_shift a b k : 0 <= k -> 0 <= b < 2 ^ k -> Z.lor (Z.shiftl a k) b = a * 2 ^ k + b.
Proof.
  intros Hk Hb. rewrite Z.shiftl_mul_pow2 by done. assert (Z.land (a * 2 ^ k) b = 0) as E.
  { apply Z.bits_inj'. intros j Hj. rewrite Z.land_spec, Z.bits_0. destruct (Z.lt_ge_cases j k).
    - by rewrite Z.mul_pow2_bits_low.
    - replace b with (b mod 2 ^ k) by (by apply Z.mod_small). by rewrite Z.mod_pow2_bits_high, andb_false_r. }
  pose proof (Z.add_lor_land (a * 2 ^ k) b). lia.
Qed.

Lemma land_part va k : 0 <= k -> Z.shiftr (Z.land va (Z.shiftl 511 k)) k = (va / 2 ^ k) mod 512.
Proof.
  intros Hk. rewrite Z.shiftr_land, Z.shiftr_shiftl_l, Z.sub_diag, Z.shiftl_0_r by lia.
  change 511 with (Z.ones 9). rewrite Z.land_ones, Z.shiftr_div_pow2 by lia. done.
Qed.

Lemma VA_PARTS va :
  VA_PART0 va = (va / 2 ^ 39) mod 512 /\ VA_PART1 va = (va / 2 ^ 30) mod 512 /\
  VA_PART2 va = (va / 2 ^ 21) mod 512 /\ VA_PART3 va = (va / 2 ^ 12) mod 512.
Proof. unfold VA_PART0, VA_PART1, VA_PART2, VA_PART3. by rewrite !land_part by lia. Qed.

Lemma part_range va k : 0 <= (va / 2 ^ k) mod 512 < 512.
Proof. apply Z.mod_pos_bound. lia. Qed.

(** The number of the level-3 table that serves [va]. *)
Definition prefix (va : Z) : Z := (VA_PART0 va * 512 + VA_PART1 va) * 512 + VA_PART2 va.

(** The parts determine the page. *)
Lemma parts_inj va va' :
  0 <= va < 2 ^ 48 -> 0 <= va' < 2 ^ 48 -> prefix va = prefix va' -> VA_PART3 va = VA_PART3 va' ->
  va / PAGE_SIZE = va' / PAGE_SIZE.
Proof.
  intros H H'. unfold prefix. destruct (VA_PARTS va) as (-> & -> & -> & ->), (VA_PARTS va') as (-> & -> & -> & ->).
  assert (forall v, 0 <= v < 2 ^ 48 ->
    v / PAGE_SIZE = (((v / 2 ^ 39) mod 512 * 512 + (v / 2 ^ 30) mod 512) * 512 + (v / 2 ^ 21) mod 512) * 512 + (v / 2 ^ 12) mod 512) as E.
  { intros v Hv. change PAGE_SIZE with (2 ^ 12).
    pose proof (Z.div_mod (v / 2 ^ 12) 512 ltac:(lia)) as E3. pose proof (Z.div_mod (v / 2 ^ 21) 512 ltac:(lia)) as E2.
    pose proof (Z.div_mod (v / 2 ^ 30) 512 ltac:(lia)) as E1.
    rewrite Z.div_div in E1, E2, E3 by lia. change (2 ^ 12 * 512) with (2 ^ 21) in E3.
    change (2 ^ 21 * 512) with (2 ^ 30) in E2. change (2 ^ 30 * 512) with (2 ^ 39) in E1.
    assert ((v / 2 ^ 39) mod 512 = v / 2 ^ 39) as E0.
    { apply Z.mod_small. split; [apply Z.div_pos; lia|apply Z.div_lt_upper_bound; lia]. }
    lia. }
  intros E1 E2. rewrite (E va H), (E va' H'). congruence.
Qed.

(** ** Entries *)

Definition entry (m : gmap Z (list Z)) (n i : Z) : Z :=
  read_le 8 (Z.to_nat (8 * i)) (default [] (m !! (n * PAGE_SIZE))).
Definition next (m : gmap Z (list Z)) (n i : Z) : option Z :=
  if Z.land (entry m n i) PTE_VALID =? 0 then None else Some (PTE_ADDRESS (entry m n i) / PAGE_SIZE).

(** The level-3 table of [va] under the root table [r], and the entry there. *)
Definition walk (m : gmap Z (list Z)) (r va : Z) : option Z :=
  t1 ← next m r (VA_PART0 va); t2 ← next m t1 (VA_PART1 va); next m t2 (VA_PART2 va).
Definition pte_of (m : gmap Z (list Z)) (r va : Z) : Z :=
  match walk m r va with Some t3 => entry m t3 (VA_PART3 va) | None => 0 end.

Lemma PTE_ADDRESS_small n flags :
  page_no n -> 0 <= flags < PAGE_SIZE -> PTE_ADDRESS (Z.lor (n * PAGE_SIZE) flags) = n * PAGE_SIZE.
Proof.
  unfold page_no. rewrite NPAGES_eq. change PAGE_SIZE with (2 ^ 12). intros Hn Hf.
  unfold PTE_ADDRESS, PTE_FLAGS_MASK. apply Z.bits_inj'. intros k Hk.
  rewrite Z.ldiff_spec, !Z.lor_spec. rewrite <-Z.shiftl_mul_pow2 by lia.
  rewrite !Z.shiftl_spec by lia. destruct (Z.lt_ge_cases k 12).
  - rewrite (Z.testbit_neg_r n) by lia. rewrite (Z.ones_spec_low 12) by lia. by rewrite orb_true_r, andb_false_r.
  - rewrite (Z.bits_above_log2 flags k), orb_false_r.
    2: lia.
    2: { destruct (Z.eq_dec flags 0) as [->|]; [cbn; lia|]. apply Z.lt_le_trans with 12; [|lia]. apply Z.log2_lt_pow2; lia. }
    rewrite (Z.ones_spec_high 12) by lia. rewrite orb_false_r. destruct (Z.lt_ge_cases k 48).
    + rewrite (Z.testbit_neg_r (Z.ones 16)) by lia. by rewrite andb_true_r.
    + assert (Z.log2 n < k - 12) as Hlog.
      { destruct (Z.eq_dec n 0) as [->|]; [cbn; lia|].
        apply Z.lt_le_trans with 20; [apply Z.log2_lt_pow2; lia|lia]. }
      by rewrite (Z.bits_above_log2 n) by lia.
Qed.

(** ** Writing pages *)

Lemma page_inv_write n pg' F s :
  page_inv F s -> n ∉ F -> page_inv F (set_page (<[n * PAGE_SIZE := pg']> (km_page s)) s).
Proof.
  intros [] Hn. split; try done. cbn. eapply free_stack_frame; [|exact pi_stack].
  intros k Hk. rewrite lookup_insert_ne; [done|]. change PAGE_SIZE with 4096. assert (k <> n) by congruence. lia.
Qed.

(** A page without any valid entry. *)
Definition zero_page : list Z := replicate (Z.to_nat PAGE_SIZE) 0.

Lemma length_zero_page : length zero_page = Z.to_nat PAGE_SIZE.
Proof. apply length_replicate. Qed.

Lemma entry_zero m n i : entry (<[n * PAGE_SIZE := zero_page]> m) n i = 0.
Proof. unfold entry. rewrite lookup_insert_eq. apply read_le_zeros. Qed.

Lemma entry_other m n k i pg : k <> n -> entry (<[n * PAGE_SIZE := pg]> m) k i = entry m k i.
Proof.
  intros Hk. unfold entry. rewrite lookup_insert_ne; [done|]. change PAGE_SIZE with 4096. lia.
Qed.

Lemma entry_write m n i j v pg :
  page_at m n pg -> 0 <= i < 512 -> 0 <= j < 512 -> 0 <= v < 2 ^ 64 ->
  entry (<[n * PAGE_SIZE := splice (Z.to_nat (8 * i)) (le_bytes 8 v) pg]> m) n j = if j =? i then v else entry m n j.
Proof.
  intros [Hp Hl] Hi Hj Hv. unfold entry. rewrite lookup_insert_eq, Hp. cbn [from_option id].
  change (Z.to_nat PAGE_SIZE) with 4096%nat in Hl. destruct (Z.eqb_spec j i) as [->|Hne].
  - apply read_le_splice; [lia|exact Hv].
  - apply read_le_splice_ne; rewrite length_le_bytes; lia.
Qed.

Lemma alloc_table_wp n F s :
  page_inv (n :: F) s ->
  wp alloc_table (fun p s' => p = kpage n /\ page_inv F s' /\ km_page s' = <[n * PAGE_SIZE := zero_page]> (km_page s) /\
    (forall k, k <> n -> ref_of s' k = ref_of s k) /\ ref_of s' n = 1) s.
Proof.
  intros Hinv. assert (page_no n) as Hno by (apply (pi_range _ _ Hinv); left).
  destruct (pi_stack _ _ Hinv) as (_ & pg & Hpg & _). pose proof (pi_nodup _ _ Hinv) as [HnF _]%NoDup_cons.
  unfold alloc_table, clear_page. wp_prim. eapply wp_mono; [by apply kalloc_page_wp|].
  intros p s1 (-> & Hinv1 & H1 & Hk & Hm & _). wp_prim. rewrite <-(Z.add_0_r (kpage n)).
  eapply wp_write_bytes; [done|change PAGE_SIZE with 4096; lia|by rewrite length_replicate|by rewrite Hm|].
  wp_prim. rewrite Z.add_0_r. change (Z.to_nat 0) with O. fold zero_page.
  rewrite splice_all by (rewrite length_zero_page; symmetry; apply Hpg).
  split_and!; [done|by apply page_inv_write|by rewrite Hm|done|done].
Qed.

(** ** The invariant *)

(** [own] gives the level and the prefix of every table page under root [r]. *)
Record pt_inv (own : gmap Z (nat * Z)) (r : Z) (F : list Z) (s : kmem) : Prop := {
  pt_pages : page_inv F s;
  pt_root : own !! r = Some (0%nat, 0);
  pt_own : forall n l pre, own !! n = Some (l, pre) ->
    page_no n /\ (l <= 3)%nat /\ (n ∉ F) /\ exists pg, page_at (km_page s) n pg;
  pt_next : forall n l pre i k, own !! n = Some (l, pre) -> (l < 3)%nat -> 0 <= i < 512 ->
    next (km_page s) n i = Some k ->
    own !! k = Some (S l, pre * 512 + i) /\ PTE_ADDRESS (entry (km_page s) n i) = k * PAGE_SIZE }.

Lemma pte_addr_eq n i : page_no n -> 0 <= i < 512 -> pte_addr (kpage n) i = kpage n + 8 * i.
Proof.
  intros Hn Hi. unfold pte_addr. apply u64_small. pose proof (kpage_u64 n Hn). unfold page_no in Hn.
  rewrite NPAGES_eq in Hn. unfold kpage, KSPACE_MASK in *. change PAGE_SIZE with 4096 in *. lia.
Qed.

Lemma wp_load_entry n i pg (Q : Z -> kmem -> Prop) s :
  page_no n -> 0 <= i < 512 -> page_at (km_page s) n pg -> Q (entry (km_page s) n i) s ->
  wp (load64 (pte_addr (kpage n) i)) Q s.
Proof.
  intros Hn Hi Hp HQ. rewrite pte_addr_eq by done.
  eapply wp_load64; [done|lia|change PAGE_SIZE with 4096; lia|done|].
  unfold entry in HQ. by rewrite (proj1 Hp) in HQ.
Qed.

Lemma wp_store_entry n i v pg (Q : unit -> kmem -> Prop) s :
  page_no n -> 0 <= i < 512 -> page_at (km_page s) n pg ->
  Q tt (set_page (<[n * PAGE_SIZE := splice (Z.to_nat (8 * i)) (le_bytes 8 v) pg]> (km_page s)) s) ->
  wp (store64 (pte_addr (kpage n) i) v) Q s.
Proof.
  intros Hn Hi Hp HQ. rewrite pte_addr_eq by done.
  eapply wp_store64; [done|lia|change PAGE_SIZE with 4096; lia|done|done].
Qed.

Lemma P2K_page n : page_no n -> P2K (n * PAGE_SIZE) = kpage n.
Proof.
  intros Hn. unfold P2K, kpage. rewrite Z.add_comm. apply u64_small. by apply (kpage_u64 n).
Qed.

(** A new table [k] for entry [i] of table [n]; nothing else changes. *)
Definition table_entry (k : Z) : Z := Z.lor (k * PAGE_SIZE) PTE_TABLE.

Lemma table_entry_spec k : page_no k ->
  0 <= table_entry k < 2 ^ 64 /\ Z.land (table_entry k) PTE_VALID <> 0 /\ PTE_ADDRESS (table_entry k) = k * PAGE_SIZE.
Proof.
  intros Hk. assert (PTE_ADDRESS (table_entry k) = k * PAGE_SIZE) as Ea by (apply PTE_ADDRESS_small; [done|unfold PTE_TABLE, PAGE_SIZE; lia]).
  unfold page_no in Hk. rewrite NPAGES_eq in Hk. unfold table_entry in *. split_and!; [| | |done].
  - apply Z.lor_nonneg. unfold PAGE_SIZE, PTE_TABLE. lia.
  - assert (Z.lor (k * PAGE_SIZE) PTE_TABLE = k * PAGE_SIZE + 3) as ->.
    { change PAGE_SIZE with (2 ^ 12). rewrite <-Z.shiftl_mul_pow2 by lia. symmetry.
      rewrite <-Z.lxor_lor, Z.add_nocarry_lxor; [done| |].
      all: apply Z.bits_inj'; intros j Hj; rewrite Z.land_spec, Z.bits_0; destruct (Z.lt_ge_cases j 12);
        [rewrite Z.shiftl_spec, (Z.testbit_neg_r k) by lia; done
        |change PTE_TABLE with 3; rewrite (Z.bits_above_log2 3) by (cbn; lia); apply andb_false_r]. }
    change PAGE_SIZE with 4096. lia.
  - intros E. apply (f_equal (fun z => Z.testbit z 0)) in E. rewrite Z.land_spec, Z.lor_spec, Z.bits_0 in E.
    cbn in E. by rewrite orb_true_r in E.
Qed.

Section walking.
Context (own : gmap Z (nat * Z)) (r : Z) (F : list Z) (s : kmem).
Hypothesis Hinv : pt_inv own r F s.

(** A walk through tables that are there. *)
Lemma next_table_some n l pre i k alloc (Q : Z -> kmem -> Prop) :
  own !! n = Some (l, pre) -> (l < 3)%nat -> 0 <= i < 512 -> next (km_page s) n i = Some k ->
  Q (kpage k) s -> wp (next_table (kpage n) i alloc) Q s.
Proof.
  intros Hn Hl Hi Hnext HQ. destruct (pt_own _ _ _ _ Hinv n l pre Hn) as (Hno & _ & _ & pg & Hpg).
  destruct (pt_next _ _ _ _ Hinv n l pre i k Hn Hl Hi Hnext) as [Hk Ha].
  destruct (pt_own _ _ _ _ Hinv k _ _ Hk) as (Hkno & _).
  unfold next in Hnext. destruct (Z.land (entry (km_page s) n i) PTE_VALID =? 0) eqn:E; [done|].
  unfold next_table. wp_prim. eapply wp_load_entry; [done|done|done|]. rewrite E. cbn [andb]. wp_prims.
  eapply wp_load_entry; [done|done|done|]. wp_prim. by rewrite Ha, P2K_page.
Qed.

Lemma next_table_none n l pre i (Q : Z -> kmem -> Prop) :
  own !! n = Some (l, pre) -> 0 <= i < 512 -> next (km_page s) n i = None ->
  Q 0 s -> wp (next_table (kpage n) i false) Q s.
Proof.
  intros Hn Hi Hnext HQ. destruct (pt_own _ _ _ _ Hinv n l pre Hn) as (Hno & _ & _ & pg & Hpg).
  unfold next in Hnext. destruct (Z.land (entry (km_page s) n i) PTE_VALID =? 0) eqn:E; [|done].
  unfold next_table. wp_prim. eapply wp_load_entry; [done|done|done|]. rewrite E. cbn [andb negb]. by wp_prim.
Qed.
End walking.

(** ** Growing the tree *)

(** Memory [m'] is [m] with an empty table [k] linked at entry [i] of table [n]. *)
Record linked (own : gmap Z (nat * Z)) (n i k : Z) (m m' : gmap Z (list Z)) : Prop := {
  ln_new : own !! k = None;
  ln_none : next m n i = None;
  ln_some : next m' n i = Some k;
  ln_zero : forall j, entry m' k j = 0;
  ln_same : forall x j, x <> k -> 0 <= j < 512 -> ~ (x = n /\ j = i) -> entry m' x j = entry m x j }.

Lemma next_zero m k j : entry m k j = 0 -> next m k j = None.
Proof. unfold next. by intros ->. Qed.

Lemma linked_next own n i k m m' x l pre j :
  linked own n i k m m' -> own !! x = Some (l, pre) -> 0 <= j < 512 -> ~ (x = n /\ j = i) -> next m' x j = next m x j.
Proof.
  intros L Hx Hj Hne. unfold next. rewrite (ln_same _ _ _ _ _ _ L x j); [done| |done|done].
  intros ->. by rewrite (ln_new _ _ _ _ _ _ L) in Hx.
Qed.

Lemma VA_PART_range va : 0 <= VA_PART0 va < 512 /\ 0 <= VA_PART1 va < 512 /\ 0 <= VA_PART2 va < 512 /\ 0 <= VA_PART3 va < 512.
Proof. destruct (VA_PARTS va) as (-> & -> & -> & ->). split_and!; apply part_range. Qed.

(** A new table hides nothing and shows nothing. *)
Lemma linked_pte own r F s n l pre i k m' va :
  pt_inv own r F s -> own !! n = Some (l, pre) -> (l < 3)%nat -> linked own n i k (km_page s) m' ->
  pte_of m' r va = pte_of (km_page s) r va.
Proof.
  intros Hinv Hn Hl L. destruct (VA_PART_range va) as (R0 & R1 & R2 & R3).
  assert (forall j, next m' k j = None) as Hzk by (intros j; apply next_zero, L).
  assert (forall x lx px j, own !! x = Some (lx, px) -> (lx < 3)%nat -> 0 <= j < 512 ->
    (x = n /\ j = i) \/ next m' x j = next (km_page s) x j /\
      match next (km_page s) x j with Some y => own !! y = Some (S lx, px * 512 + j) | None => True end) as Hstep.
  { intros x lx px j Hx Hlx Hj. destruct (decide (x = n /\ j = i)) as [|Hne]; [by left|right].
    split; [by eapply linked_next|]. destruct (next (km_page s) x j) as [y|] eqn:E; [|done].
    by apply (pt_next _ _ _ _ Hinv x lx px j y). }
  unfold pte_of, walk.
  destruct (Hstep r _ _ (VA_PART0 va) (pt_root _ _ _ _ Hinv) ltac:(lia) R0) as [[-> ->]|[-> H1]].
  { rewrite (ln_some _ _ _ _ _ _ L), (ln_none _ _ _ _ _ _ L). cbn. by rewrite Hzk. }
  destruct (next (km_page s) r (VA_PART0 va)) as [t1|]; [|done]. cbn.
  destruct (Hstep t1 _ _ (VA_PART1 va) H1 ltac:(lia) R1) as [[-> ->]|[-> H2]].
  { rewrite (ln_some _ _ _ _ _ _ L), (ln_none _ _ _ _ _ _ L). cbn. by rewrite Hzk. }
  destruct (next (km_page s) t1 (VA_PART1 va)) as [t2|]; [|done]. cbn.
  destruct (Hstep t2 _ _ (VA_PART2 va) H2 ltac:(lia) R2) as [[-> ->]|[-> H3]].
  { rewrite (ln_some _ _ _ _ _ _ L), (ln_none _ _ _ _ _ _ L). by rewrite (ln_zero _ _ _ _ _ _ L). }
  destruct (next (km_page s) t2 (VA_PART2 va)) as [t3|]; [|done].
  apply (ln_same _ _ _ _ _ _ L); [|done|].
  - intros ->. by rewrite (ln_new _ _ _ _ _ _ L) in H3.
  - intros [-> _]. rewrite Hn in H3. injection H3 as -> _. lia.
Qed.

(** What a step of the walk leaves as it was. *)
Definition pt_kept (r : Z) (s s' : kmem) : Prop :=
  (forall va, pte_of (km_page s') r va = pte_of (km_page s) r va).

Lemma linked_inv own r k F s n l pre i m' s' :
  pt_inv own r (k :: F) s -> own !! n = Some (l, pre) -> (l < 3)%nat -> 0 <= i < 512 ->
  linked own n i k (km_page s) m' -> km_page s' = m' -> page_inv F s' ->
  PTE_ADDRESS (entry m' n i) = k * PAGE_SIZE -> (exists pg, page_at m' k pg) ->
  (forall x lx px, own !! x = Some (lx, px) -> exists pg, page_at m' x pg) ->
  pt_inv (<[k := (S l, pre * 512 + i)]> own) r F s'.
Proof.
  intros Hinv Hn Hl Hi L Hm Hpi Ha Hk Hpages. pose proof (ln_new _ _ _ _ _ _ L) as Hnew.
  pose proof (pi_nodup _ _ (pt_pages _ _ _ _ Hinv)) as [HkF _]%NoDup_cons.
  assert (forall x lx px, own !! x = Some (lx, px) -> x <> k) as Hxk by (intros x lx px Hx ->; congruence).
  split; rewrite ?Hm.
  - done.
  - rewrite lookup_insert_ne; [apply Hinv|]. intros <-. by rewrite (pt_root _ _ _ _ Hinv) in Hnew.
  - intros x lx px Hx. destruct (decide (x = k)) as [->|Hne].
    + rewrite lookup_insert_eq in Hx. simplify_eq. split; [|split; [lia|done]].
      apply (pi_range _ _ (pt_pages _ _ _ _ Hinv)). left.
    + rewrite lookup_insert_ne in Hx by done. destruct (pt_own _ _ _ _ Hinv x lx px Hx) as (H1 & H2 & H3 & _).
      split; [done|]. split; [done|]. split; [|by eapply Hpages]. intros Hin. apply H3. by right.
  - intros x lx px j y Hx Hlx Hj Hnext. destruct (decide (x = k)) as [->|Hne].
    { by rewrite next_zero in Hnext by apply L. }
    rewrite lookup_insert_ne in Hx by done. destruct (decide (x = n /\ j = i)) as [[-> ->]|Hni].
    + rewrite (ln_some _ _ _ _ _ _ L) in Hnext. simplify_eq. by rewrite lookup_insert_eq.
    + rewrite (linked_next _ _ _ _ _ _ _ _ _ _ L Hx Hj Hni) in Hnext.
      destruct (pt_next _ _ _ _ Hinv x lx px j y Hx Hlx Hj Hnext) as [H1 H2].
      rewrite (ln_same _ _ _ _ _ _ L) by done. split; [|done]. rewrite lookup_insert_ne; [done|].
      intros <-. congruence.
Qed.

(** Tables are made of free pages, and pages that are neither free nor tables
    keep their bytes. *)
Definition tables_frame (own : gmap Z (nat * Z)) (F : list Z) (s : kmem) (own' : gmap Z (nat * Z)) (s' : kmem) : Prop :=
  forall x, x ∉ F -> own' !! x = own !! x /\ (own !! x = None -> km_page s' !! (x * PAGE_SIZE) = km_page s !! (x * PAGE_SIZE)).

Lemma tables_frame_trans own F s own1 F1 s1 own2 s2 :
  F1 ⊆ F -> tables_frame own F s own1 s1 -> tables_frame own1 F1 s1 own2 s2 -> tables_frame own F s own2 s2.
Proof.
  intros HF H1 H2 x Hx. destruct (H1 x Hx) as [E1 P1]. destruct (H2 x ltac:(set_solver)) as [E2 P2].
  split; [by rewrite E2|]. intros Hn. rewrite P2, P1 by (done || by rewrite E1). done.
Qed.

(** A step of the walk that may allocate: [k] is the next table. *)
Record stepped (own : gmap Z (nat * Z)) (r : Z) (F : list Z) (s : kmem) (n : Z) (l : nat) (pre i : Z)
    (own' : gmap Z (nat * Z)) (F' : list Z) (k : Z) (s' : kmem) : Prop := {
  sp_inv : pt_inv own' r F' s';
  sp_own : own ⊆ own';
  sp_next_own : own' !! k = Some (S l, pre * 512 + i);
  sp_next : next (km_page s') n i = Some k;
  sp_kept : pt_kept r s s';
  sp_old : forall x lx px j y, own !! x = Some (lx, px) -> 0 <= j < 512 ->
    next (km_page s) x j = Some y -> next (km_page s') x j = Some y;
  sp_free : (length F <= S (length F'))%nat /\ F' ⊆ F;
  sp_refs : forall x, x ∉ F -> ref_of s' x = ref_of s x;
  sp_frame : tables_frame own F s own' s' }.

Lemma next_table_new own r k F s n l pre i :
  pt_inv own r (k :: F) s -> own !! n = Some (l, pre) -> (l < 3)%nat -> 0 <= i < 512 ->
  next (km_page s) n i = None ->
  wp (next_table (kpage n) i true) (fun p s' => p = kpage k /\
    stepped own r (k :: F) s n l pre i (<[k := (S l, pre * 512 + i)]> own) F k s') s.
Proof.
  intros Hinv Hn Hl Hi Hnone. destruct (pt_own _ _ _ _ Hinv n l pre Hn) as (Hno & _ & HnF & pg & Hpg).
  pose proof (pt_pages _ _ _ _ Hinv) as Hpi. assert (page_no k) as Hkno by (apply (pi_range _ _ Hpi); left).
  assert (own !! k = None) as Hkown.
  { destruct (own !! k) as [[lk pk]|] eqn:E; [|done]. destruct (pt_own _ _ _ _ Hinv k lk pk E) as (_ & _ & HkF & _).
    destruct HkF. left. }
  assert (n <> k) as Hnk by congruence. destruct (table_entry_spec k Hkno) as (Hte & Htv & Hta).
  assert ((Z.land (entry (km_page s) n i) PTE_VALID =? 0) = true) as E
    by (unfold next in Hnone; by destruct (Z.land (entry (km_page s) n i) PTE_VALID =? 0)).
  unfold next_table. wp_prim. eapply wp_load_entry; [done|done|done|]. rewrite E. cbn [andb negb].
  wp_prim. wp_prim. eapply wp_mono; [by apply alloc_table_wp|]. intros p s1 (-> & Hpi1 & Hm1 & Hr1 & _).
  rewrite <-(Z.add_0_r (kpage k)), K2P_kpage, Z.add_0_r by (done || (change PAGE_SIZE with 4096; lia)). fold (table_entry k).
  assert (page_at (km_page s1) n pg) as Hpg1 by (rewrite Hm1; by apply page_at_insert_ne).
  eapply wp_store_entry; [done|done|done|]. set (s2 := set_page _ s1).
  assert (km_page s2 = <[n * PAGE_SIZE := splice (Z.to_nat (8 * i)) (le_bytes 8 (table_entry k)) pg]> (km_page s1)) as Hm2 by done.
  assert (page_at (km_page s2) n (splice (Z.to_nat (8 * i)) (le_bytes 8 (table_entry k)) pg)) as Hpg2.
  { rewrite Hm2. apply page_at_insert_eq, length_splice8; [lia|change PAGE_SIZE with 4096; lia|apply Hpg]. }
  assert (entry (km_page s2) n i = table_entry k) as Ei by (rewrite Hm2, entry_write, Z.eqb_refl by done; done).
  assert (linked own n i k (km_page s) (km_page s2)) as L.
  { split; [done|done| | |].
    - unfold next. rewrite Ei, Hta, (proj2 (Z.eqb_neq _ _) Htv). by rewrite Z.div_mul.
    - intros j. rewrite Hm2, entry_other, Hm1 by congruence. apply entry_zero.
    - intros x j Hxk Hj Hne. rewrite Hm2. destruct (decide (x = n)) as [->|Hxn].
      + rewrite entry_write by done. destruct (Z.eqb_spec j i) as [->|]; [naive_solver|]. by rewrite Hm1, entry_other.
      + by rewrite entry_other, Hm1, entry_other by done. }
  wp_prim. eapply wp_load_entry; [done|done|exact Hpg2|]. wp_prim. rewrite Ei, Hta, P2K_page by done. split; [lia|].
  assert (pt_inv (<[k := (S l, pre * 512 + i)]> own) r F s2) as Hinv2.
  { eapply (linked_inv own r k F s n l pre i (km_page s2)); try done.
    - apply page_inv_write; [done|]. intros Hin. apply HnF. by right.
    - by rewrite Ei.
    - exists zero_page. rewrite Hm2. apply page_at_insert_ne; [congruence|]. rewrite Hm1.
      apply page_at_insert_eq, length_zero_page.
    - intros x lx px Hx. destruct (decide (x = n)) as [->|Hxn]; [by eexists|].
      destruct (pt_own _ _ _ _ Hinv x lx px Hx) as (_ & _ & _ & pgx & Hpgx). exists pgx. rewrite Hm2, Hm1.
      apply page_at_insert_ne; [done|]. apply page_at_insert_ne; [congruence|done]. }
  split; try done.
  - by apply insert_subseteq.
  - by rewrite lookup_insert_eq.
  - apply L.
  - intros va. by eapply linked_pte.
  - intros x lx px j y Hx Hj Hy. rewrite (linked_next _ _ _ _ _ _ _ _ _ _ L Hx Hj); [done|].
    intros [-> ->]. congruence.
  - split; [cbn; lia|]. intros x Hx. by right.
  - intros x Hx. apply Hr1. intros ->. apply Hx. left.
  - intros x Hx. assert (x <> k) as Hxk by (intros ->; apply Hx; left). split; [by rewrite lookup_insert_ne|]. intros Hxo.
    assert (x <> n) by congruence. rewrite Hm2, Hm1, !lookup_insert_ne by (unfold PAGE_SIZE; lia). done.
Qed.

Lemma next_table_alloc_wp own r F s n l pre i :
  pt_inv own r F s -> own !! n = Some (l, pre) -> (l < 3)%nat -> 0 <= i < 512 -> (0 < length F)%nat ->
  wp (next_table (kpage n) i true) (fun p s' => exists own' F' k, p = kpage k /\
    stepped own r F s n l pre i own' F' k s') s.
Proof.
  intros Hinv Hn Hl Hi HF. destruct (next (km_page s) n i) as [k|] eqn:E.
  - eapply next_table_some; [exact Hinv|done|done|done|done|]. exists own, F, k. split; [done|].
    split; try done; [by apply (pt_next _ _ _ _ Hinv n l pre i k)|split; [lia|done]].
  - destruct F as [|k F]; [cbn in HF; lia|]. eapply wp_mono; [by apply (next_table_new own r k F s n l pre i)|].
    intros p s' [-> H]. eauto.
Qed.

(** ** [get_pte] *)

Lemma kpage_eqb n : page_no n -> (kpage n =? 0) = false.
Proof. intros H. by apply Z.eqb_neq, kpage_nonzero. Qed.

(** The walk only goes through tables with the right level and prefix. *)
Lemma walk_own own r F s va t3 :
  pt_inv own r F s -> walk (km_page s) r va = Some t3 ->
  exists t1 t2, next (km_page s) r (VA_PART0 va) = Some t1 /\ next (km_page s) t1 (VA_PART1 va) = Some t2 /\
    next (km_page s) t2 (VA_PART2 va) = Some t3 /\ own !! t1 = Some (1%nat, VA_PART0 va) /\
    own !! t2 = Some (2%nat, VA_PART0 va * 512 + VA_PART1 va) /\ own !! t3 = Some (3%nat, prefix va).
Proof.
  intros Hinv Hw. destruct (VA_PART_range va) as (R0 & R1 & R2 & _). unfold walk in Hw.
  destruct (next (km_page s) r (VA_PART0 va)) as [t1|] eqn:E1; [|done]. cbn in Hw.
  destruct (next (km_page s) t1 (VA_PART1 va)) as [t2|] eqn:E2; [|done]. cbn in Hw.
  destruct (pt_next _ _ _ _ Hinv r _ _ _ _ (pt_root _ _ _ _ Hinv) ltac:(lia) R0 E1) as [H1 _].
  destruct (pt_next _ _ _ _ Hinv t1 _ _ _ _ H1 ltac:(lia) R1 E2) as [H2 _].
  destruct (pt_next _ _ _ _ Hinv t2 _ _ _ _ H2 ltac:(lia) R2 Hw) as [H3 _].
  exists t1, t2. rewrite H1, H2, H3. unfold prefix. done.
Qed.

Lemma get_pte_alloc_wp own r F s va :
  pt_inv own r F s -> (3 <= length F)%nat ->
  wp (get_pte (kpage r) va true) (fun res s' => exists own' F' t3,
    res = (kpage r, pte_addr (kpage t3) (VA_PART3 va)) /\ pt_inv own' r F' s' /\
    own' !! t3 = Some (3%nat, prefix va) /\ walk (km_page s') r va = Some t3 /\ pt_kept r s s' /\
    F' ⊆ F /\ (length F <= length F' + 3)%nat /\ (forall x, x ∉ F -> ref_of s' x = ref_of s x) /\ tables_frame own F s own' s') s.
Proof.
  intros Hinv HF. destruct (VA_PART_range va) as (R0 & R1 & R2 & R3).
  assert (page_no r) as Hr by apply (pt_own _ _ _ _ Hinv r _ _ (pt_root _ _ _ _ Hinv)).
  unfold get_pte. rewrite kpage_eqb by done. cbn [andb]. wp_prims.
  eapply wp_mono; [apply (next_table_alloc_wp own r F s r _ _ _ Hinv (pt_root _ _ _ _ Hinv)); [lia|done|lia]|].
  intros p1 s1 (own1 & F1 & t1 & -> & [I1 O1 N1 X1 K1 P1 [L1 S1] V1 T1]).
  rewrite kpage_eqb by apply (pt_own _ _ _ _ I1 t1 _ _ N1). wp_prim.
  eapply wp_mono; [apply (next_table_alloc_wp own1 r F1 s1 t1 _ _ _ I1 N1); [lia|done|lia]|].
  intros p2 s2 (own2 & F2 & t2 & -> & [I2 O2 N2 X2 K2 P2 [L2 S2] V2 T2]).
  rewrite kpage_eqb by apply (pt_own _ _ _ _ I2 t2 _ _ N2). wp_prim.
  eapply wp_mono; [apply (next_table_alloc_wp own2 r F2 s2 t2 _ _ _ I2 N2); [lia|done|lia]|].
  intros p3 s3 (own3 & F3 & t3 & -> & [I3 O3 N3 X3 K3 P3 [L3 S3] V3 T3]).
  rewrite kpage_eqb by apply (pt_own _ _ _ _ I3 t3 _ _ N3). wp_prim.
  exists own3, F3, t3. split_and!; [done|done| | | | |lia| |].
  - rewrite N3. done.
  - unfold walk. pose proof (pt_root _ _ _ _ I1) as Hr1. pose proof (pt_root _ _ _ _ I2) as Hr2.
    rewrite (P3 r _ _ (VA_PART0 va) t1 Hr2 R0 (P2 r _ _ _ t1 Hr1 R0 X1)). cbn.
    assert (own2 !! t1 = Some (1%nat, 0 * 512 + VA_PART0 va)) as Ht1 by (by eapply lookup_weaken).
    by rewrite (P3 t1 _ _ (VA_PART1 va) t2 Ht1 R1 X2).
  - intros va'. by rewrite K3, K2, K1.
  - set_solver.
  - intros x Hx. rewrite V3, V2, V1 by set_solver. done.
  - eapply tables_frame_trans; [|exact T1|]; [done|]. eapply tables_frame_trans; [|exact T2|exact T3]. done.
Qed.

(** With all tables there, [get_pte] only reads. *)
Lemma get_pte_walk_wp own r F s va alloc t3 (Q : Z * Z -> kmem -> Prop) :
  pt_inv own r F s -> walk (km_page s) r va = Some t3 -> Q (kpage r, pte_addr (kpage t3) (VA_PART3 va)) s -> wp (get_pte (kpage r) va alloc) Q s.
Proof.
  intros Hinv Hw HQ. destruct (VA_PART_range va) as (R0 & R1 & R2 & R3). destruct (walk_own _ _ _ _ _ _ Hinv Hw) as (t1 & t2 & E1 & E2 & E3 & O1 & O2 & O3).
  assert (forall t l p, own !! t = Some (l, p) -> page_no t) as Hno by (intros t l p Ht; apply (pt_own _ _ _ _ Hinv t _ _ Ht)).
  pose proof (pt_root _ _ _ _ Hinv) as Or. unfold get_pte. rewrite kpage_eqb by (by eapply Hno). cbn [andb]. wp_prims.
  eapply next_table_some; [exact Hinv|exact Or|lia|done|exact E1|]. rewrite kpage_eqb by (by eapply Hno). wp_prim.
  eapply next_table_some; [exact Hinv|exact O1|lia|done|exact E2|]. rewrite kpage_eqb by (by eapply Hno). wp_prim.
  eapply next_table_some; [exact Hinv|exact O2|lia|done|exact E3|]. rewrite kpage_eqb by (by eapply Hno). by wp_prim.
Qed.

(** Storing in a level-3 table. *)
Lemma leaf_store own r F s t3 pre j v pg :
  pt_inv own r F s -> own !! t3 = Some (3%nat, pre) -> 0 <= j < 512 -> 0 <= v < 2 ^ 64 -> page_at (km_page s) t3 pg ->
  let s' := set_page (<[t3 * PAGE_SIZE := splice (Z.to_nat (8 * j)) (le_bytes 8 v) pg]> (km_page s)) s in
  pt_inv own r F s' /\ forall va, walk (km_page s') r va = walk (km_page s) r va /\
    pte_of (km_page s') r va =
      if decide (walk (km_page s) r va = Some t3 /\ VA_PART3 va = j) then v else pte_of (km_page s) r va.
Proof.
  intros Hinv Ht3 Hj Hv Hpg s'. destruct (pt_own _ _ _ _ Hinv _ _ _ Ht3) as (Hno & _ & HtF & _).
  assert (forall x lx px i, own !! x = Some (lx, px) -> (lx < 3)%nat ->
    entry (km_page s') x i = entry (km_page s) x i) as He.
  { intros x lx px i Hx Hlx. apply entry_other. intros ->. rewrite Ht3 in Hx. injection Hx as <- _. lia. }
  assert (forall x lx px i, own !! x = Some (lx, px) -> (lx < 3)%nat ->
    next (km_page s') x i = next (km_page s) x i) as Hn.
  { intros x lx px i Hx Hlx. unfold next. by rewrite (He x lx px). }
  assert (pt_inv own r F s') as Hinv'.
  { split; [apply page_inv_write; [apply Hinv|done]|apply Hinv| |].
    - intros n l p Hn'. destruct (pt_own _ _ _ _ Hinv n l p Hn') as (H1 & H2 & H3 & pgn & H4). split; [done|].
      split; [done|]. split; [done|]. destruct (decide (n = t3)) as [->|Hne].
      + eexists. apply page_at_insert_eq, length_splice8; [lia|change PAGE_SIZE with 4096; lia|apply Hpg].
      + exists pgn. by apply page_at_insert_ne.
    - intros n l p i k Hn' Hl Hi Hk. rewrite (Hn n l p) in Hk by done. rewrite (He n l p) by done.
      by apply (pt_next _ _ _ _ Hinv). }
  split; [done|]. intros va. destruct (VA_PART_range va) as (R0 & R1 & R2 & R3).
  assert (walk (km_page s') r va = walk (km_page s) r va) as Hw.
  { unfold walk. rewrite (Hn r _ _ _ (pt_root _ _ _ _ Hinv)) by lia.
    destruct (next (km_page s) r (VA_PART0 va)) as [t1|] eqn:E1; [|done]. cbn.
    destruct (pt_next _ _ _ _ Hinv r _ _ _ _ (pt_root _ _ _ _ Hinv) ltac:(lia) R0 E1) as [H1 _].
    rewrite (Hn t1 _ _ _ H1) by lia. destruct (next (km_page s) t1 (VA_PART1 va)) as [t2|] eqn:E2; [|done]. cbn.
    destruct (pt_next _ _ _ _ Hinv t1 _ _ _ _ H1 ltac:(lia) R1 E2) as [H2 _]. by rewrite (Hn t2 _ _ _ H2) by lia. }
  split; [done|]. unfold pte_of. rewrite Hw. destruct (walk (km_page s) r va) as [t|].
  - destruct (decide (t = t3)) as [->|Hne].
    + unfold s'. cbn [km_page set_page]. rewrite entry_write by done.
      destruct (Z.eqb_spec (VA_PART3 va) j) as [->|]; case_decide; naive_solver.
    + rewrite decide_False by naive_solver. by apply entry_other.
  - by rewrite decide_False by naive_solver.
Qed.

(** Changing the count of a page that is not free. *)
Lemma ref_change_inv own r F s n c t :
  pt_inv own r F s -> n ∉ F -> 0 <= c < 2 ^ 62 ->
  pt_inv own r F (set_ttbr0 t (set_refpage (<[n := c]> (km_refpage s)) s)).
Proof.
  intros [Hpi Hr Ho Hn] HnF Hc. destruct Hpi. split; try done. split; try done.
  - intros k Hk. unfold ref_of. cbn. rewrite lookup_insert_ne by congruence. by apply pi_free.
  - intros k. unfold ref_of. cbn. rewrite lookup_insert. case_decide; [done|]. apply pi_refs.
Qed.

Lemma pte_value_u64 n flags : page_no n -> 0 <= flags < PAGE_SIZE -> 0 <= Z.lor (n * PAGE_SIZE) flags < 2 ^ 64.
Proof.
  unfold page_no. rewrite NPAGES_eq. unfold PAGE_SIZE. intros Hn Hf. split; [apply Z.lor_nonneg; lia|].
  destruct (Z.eq_dec (Z.lor (n * 4096) flags) 0) as [->|Hne]; [lia|].
  assert (0 <= Z.lor (n * 4096) flags) by (apply Z.lor_nonneg; lia).
  apply Z.log2_lt_pow2; [lia|]. rewrite Z.log2_lor by lia. apply Z.max_lub_lt.
  - destruct (Z.eq_dec n 0) as [->|]; [reflexivity|]. apply Z.log2_lt_pow2; lia.
  - destruct (Z.eq_dec flags 0) as [->|]; [reflexivity|]. apply Z.log2_lt_pow2; lia.
Qed.

(** ** Properties *)

(** C31: [vmmap] maps one page and touches no other.  With three free pages it
    returns; the entry found for [va] is the page with its flags, the entry
    found for every user address in another page is what it was, the page gets
    one more reference, and the tables stay well formed. *)
Theorem vmmap_isolates own r F s invalid_pt va n flags :
  pt_inv own r F s -> (3 <= length F)%nat -> 0 <= va < 2 ^ 48 -> page_no n -> n ∉ F -> 0 <= flags < PAGE_SIZE ->
  ref_of s n + 1 < 2 ^ 62 ->
  exists s' own' F', vmmap invalid_pt (kpage r) va (kpage n) flags s = Ret (kpage r, s') /\
    pt_inv own' r F' s' /\ pte_of (km_page s') r va = Z.lor (n * PAGE_SIZE) flags /\
    (forall va', 0 <= va' < 2 ^ 48 -> va' / PAGE_SIZE <> va / PAGE_SIZE ->
       pte_of (km_page s') r va' = pte_of (km_page s) r va') /\
    ref_of s' n = ref_of s n + 1 /\ km_ttbr0 s' = r * PAGE_SIZE.
Proof.
  intros Hinv HF Hva Hn HnF Hfl Href. destruct (VA_PART_range va) as (R0 & R1 & R2 & R3).
  assert (page_no r) as Hr by apply (pt_own _ _ _ _ Hinv r _ _ (pt_root _ _ _ _ Hinv)).
  pose proof (pi_refs _ _ (pt_pages _ _ _ _ Hinv) n) as Hrn.
  enough (wp (vmmap invalid_pt (kpage r) va (kpage n) flags) (fun p s' => exists own' F', p = kpage r /\
    pt_inv own' r F' s' /\ pte_of (km_page s') r va = Z.lor (n * PAGE_SIZE) flags /\
    (forall va', 0 <= va' < 2 ^ 48 -> va' / PAGE_SIZE <> va / PAGE_SIZE ->
       pte_of (km_page s') r va' = pte_of (km_page s) r va') /\
    ref_of s' n = ref_of s n + 1 /\ km_ttbr0 s' = r * PAGE_SIZE) s) as H.
  { apply wp_run in H as (p & s' & Hr' & own' & F' & -> & H). exists s', own', F'. done. }
  unfold vmmap. wp_prim. eapply wp_mono; [by apply (get_pte_alloc_wp own r F s va)|].
  intros res s1 (own1 & F1 & t3 & -> & I1 & Ht3 & Hw & K1 & HF1 & _ & V1 & _). cbn [fst snd].
  destruct (pt_own _ _ _ _ I1 _ _ _ Ht3) as (Hno3 & _ & _ & pg & Hpg).
  rewrite <-(Z.add_0_r (kpage n)), K2P_kpage, Z.add_0_r by (done || (unfold PAGE_SIZE; lia)).
  set (v := Z.lor (n * PAGE_SIZE) flags).
  assert (0 <= v < 2 ^ 64) as Hv by (apply pte_value_u64; done).
  wp_prim. eapply wp_store_entry; [done|done|done|].
  destruct (leaf_store own1 r F1 s1 t3 _ (VA_PART3 va) v pg I1 Ht3 R3 Hv Hpg) as [I2 P2]. set (s2 := set_page _ s1) in *.
  wp_prim. rewrite Z.div_mul by done. apply wp_increment_ref; [done|].
  assert (ref_of s2 n = ref_of s n) as Er by exact (V1 n HnF). rewrite Er.
  unfold attach_pgdir. wp_prims. rewrite kpage_eqb by done. cbn [negb].
  assert (K2P (kpage r) = r * PAGE_SIZE) as -> by (rewrite <-(Z.add_0_r (kpage r)), K2P_kpage, Z.add_0_r by (done || (unfold PAGE_SIZE; lia)); done).
  assert (i64 (ref_of s n + 1) = ref_of s n + 1) as -> by (unfold i64; rewrite Z.mod_small; lia).
  exists own1, F1. split_and!; [done| | | | |done].
  - apply (ref_change_inv own1 r F1 s2 n); [exact I2|intros Hin; by apply HnF, HF1|lia].
  - transitivity (pte_of (km_page s2) r va); [done|]. rewrite (proj2 (P2 va)). by rewrite decide_True.
  - intros va' Hva' Hne. transitivity (pte_of (km_page s2) r va'); [done|]. rewrite (proj2 (P2 va')), decide_False; [apply K1|].
    intros [Hw' Hp]. apply Hne. destruct (walk_own _ _ _ _ _ _ I1 Hw) as (_ & _ & _ & _ & _ & _ & _ & Hpre).
    destruct (walk_own _ _ _ _ _ _ I1 Hw') as (_ & _ & _ & _ & _ & _ & _ & Hpre').
    apply parts_inj; [done|done|congruence|done].
  - unfold ref_of. cbn. by rewrite lookup_insert_eq.
Qed.

(** [get_pte] without allocation changes nothing and returns the address of
    the entry when all three tables on the way are there, and NULL otherwise. *)
Theorem get_pte_finds own r F s va :
  pt_inv own r F s ->
  get_pte (kpage r) va false s =
    Ret ((kpage r, match walk (km_page s) r va with Some t3 => kpage t3 + 8 * VA_PART3 va | None => 0 end), s).
Proof.
  intros Hinv. destruct (VA_PART_range va) as (R0 & R1 & R2 & R3).
  assert (page_no r) as Hr by apply (pt_own _ _ _ _ Hinv r _ _ (pt_root _ _ _ _ Hinv)).
  enough (wp (get_pte (kpage r) va false) (fun res s' => s' = s /\ res =
    (kpage r, match walk (km_page s) r va with Some t3 => kpage t3 + 8 * VA_PART3 va | None => 0 end)) s) as H.
  { apply wp_run in H as (res & s' & Hrun & -> & ->). done. }
  assert (forall t l p, own !! t = Some (l, p) -> page_no t) as Hno by (intros t l p Ht; apply (pt_own _ _ _ _ Hinv t _ _ Ht)).
  unfold get_pte. rewrite kpage_eqb by done. cbn [andb]. wp_prims. unfold walk.
  destruct (next (km_page s) r (VA_PART0 va)) as [t1|] eqn:E1; cbn [mbind option_bind].
  2: { eapply next_table_none; [exact Hinv|apply Hinv|done|done|]. rewrite Z.eqb_refl. by wp_prim. }
  destruct (pt_next _ _ _ _ Hinv r _ _ _ _ (pt_root _ _ _ _ Hinv) ltac:(lia) R0 E1) as [H1 _].
  eapply next_table_some; [exact Hinv|apply Hinv|lia|done|done|]. rewrite kpage_eqb by (by eapply Hno). wp_prim.
  destruct (next (km_page s) t1 (VA_PART1 va)) as [t2|] eqn:E2; cbn [mbind option_bind].
  2: { eapply next_table_none; [exact Hinv|exact H1|done|done|]. rewrite Z.eqb_refl. by wp_prim. }
  destruct (pt_next _ _ _ _ Hinv t1 _ _ _ _ H1 ltac:(lia) R1 E2) as [H2 _].
  eapply next_table_some; [exact Hinv|exact H1|lia|done|done|]. rewrite kpage_eqb by (by eapply Hno). wp_prim.
  destruct (next (km_page s) t2 (VA_PART2 va)) as [t3|] eqn:E3; cbn [mbind option_bind].
  2: { eapply next_table_none; [exact Hinv|exact H2|done|done|]. rewrite Z.eqb_refl. by wp_prim. }
  destruct (pt_next _ _ _ _ Hinv t2 _ _ _ _ H2 ltac:(lia) R2 E3) as [H3 _].
  eapply next_table_some; [exact Hinv|exact H2|lia|done|done|]. rewrite kpage_eqb by (by eapply Hno). wp_prim.
  split; [done|]. by rewrite pte_addr_eq by (by eauto).
Qed.

(** ** A concrete table: root page 9, free pages 5, 7 and 11, page 13 to be mapped *)

Definition demo_pt : kmem :=
  mkKmem (<[5 * PAGE_SIZE := demo_page (kpage 7)]> (<[7 * PAGE_SIZE := demo_page (kpage 11)]>
    (<[11 * PAGE_SIZE := demo_page 0]> (<[9 * PAGE_SIZE := zero_page]> {[ 13 * PAGE_SIZE := zero_page ]}))))
    (kpage 5) (<[9 := 1]> {[ 13 := 1 ]}) 2 5 0 0.
Definition demo_own : gmap Z (nat * Z) := {[ 9 := (0%nat, 0) ]}.

Lemma demo_pt_inv : pt_inv demo_own 9 [5; 7; 11] demo_pt.
Proof.
  split.
  - split.
    + by apply (bool_decide_unpack _).
    + intros n Hn. unfold page_no. rewrite NPAGES_eq. rewrite !elem_of_cons, elem_of_nil in Hn. lia.
    + cbn [free_stack]. split; [reflexivity|]. exists (demo_page (kpage 7)). split; [done|].
      split; [vm_compute; reflexivity|]. exists (demo_page (kpage 11)). split; [done|].
      split; [vm_compute; reflexivity|]. exists (demo_page 0). split; [done|vm_compute; reflexivity].
    + intros n Hn. rewrite !elem_of_cons, elem_of_nil in Hn. destruct Hn as [->|[->|[->|[]]]]; reflexivity.
    + intros n. unfold ref_of. cbn [demo_pt km_refpage]. rewrite lookup_insert, lookup_singleton.
      repeat case_decide; cbn; lia.
    + reflexivity.
    + rewrite NPAGES_eq. cbn. lia.
  - reflexivity.
  - intros n l pre Hn. unfold demo_own in Hn. apply lookup_singleton_Some in Hn as [<- [= <- <-]].
    split; [unfold page_no; rewrite NPAGES_eq; lia|]. split; [lia|]. split; [rewrite !elem_of_cons, elem_of_nil; lia|].
    exists zero_page. split; reflexivity.
  - intros n l pre i k Hn Hl Hi Hk. unfold demo_own in Hn. apply lookup_singleton_Some in Hn as [<- _].
    rewrite next_zero in Hk; [done|]. unfold entry.
    change (default [] (km_page demo_pt !! (9 * PAGE_SIZE))) with zero_page. apply read_le_zeros.
Qed.

Lemma vmmap_isolates_witness :
  exists s' own' F', vmmap 0 (kpage 9) 8192 (kpage 13) PTE_USER_DATA demo_pt = Ret (kpage 9, s') /\
    pt_inv own' 9 F' s' /\ pte_of (km_page s') 9 8192 = Z.lor (13 * PAGE_SIZE) PTE_USER_DATA.
Proof.
  destruct (vmmap_isolates demo_own 9 [5; 7; 11] demo_pt 0 8192 13 PTE_USER_DATA demo_pt_inv) as (s' & own' & F' & H1 & H2 & H3 & _).
  - cbn. lia.
  - lia.
  - unfold page_no. rewrite NPAGES_eq. lia.
  - rewrite !elem_of_cons, elem_of_nil. lia.
  - vm_compute. split; [discriminate|reflexivity].
  - reflexivity.
  - exists s', own', F'. split; [exact H1|]. split; [exact H2|exact H3].
Defined.

Lemma get_pte_finds_witness : get_pte (kpage 9) 8192 false demo_pt = Ret ((kpage 9, 0), demo_pt).
Proof. rewrite (get_pte_finds demo_own 9 [5; 7; 11] demo_pt 8192 demo_pt_inv). reflexivity. Defined.
