(* ===== verification/Paging.v ===== *)
(** * Demand paging: [kernel/paging.c], [user_writeable] of [kernel/syscall.c]

    The page directory of the current process, its table on the pages of file
    [Mem] and its list of sections, the first at the head.  The fields of a
    section for mapped files are left out: nothing here reads them.  [dev] is the
    block device as a function from block numbers to their bytes, [far] the
    register with the faulting address. *)

From Stdlib Require Import ZArith Lia.
From stdpp Require Import base tactics numbers gmap list.
From S2P Require Import Prelude Mem PageTable.

Local Open Scope Z_scope.

Definition ST_SWAP : Z := 2.
Definition ST_HEAP : Z := 8.

Record section : Type := mkSection {
  st_flags : Z;
  st_begin : Z;
  st_end : Z;
  st_sleepLock : Z }.

Record vm : Type := mkVm {
  vm_mem : kmem;
  vm_pt : Z;
  vm_sections : list section }.

Abbreviation VM := (M vm).

Definition vm_set_mem (m : kmem) (s : vm) : vm := mkVm m (vm_pt s) (vm_sections s).
Definition vm_set_pt (p : Z) (s : vm) : vm := mkVm (vm_mem s) p (vm_sections s).
Definition vm_set_sections (l : list section) (s : vm) : vm := mkVm (vm_mem s) (vm_pt s) l.

(** Calls into the page allocator and the page tables. *)
Definition mem {A} : KM A -> VM A := zoom vm_mem vm_set_mem.
Definition vm_get_pte (va : Z) (alloc : bool) : VM Z :=
  pt ← gets vm_pt;
  r ← mem (get_pte pt va alloc);
  modify (vm_set_pt (fst r));;
  mret (snd r).
Definition vm_attach (invalid_pt : Z) : VM unit := pt ← gets vm_pt; mem (attach_pgdir invalid_pt pt).

Definition with_st_end (e : Z) (x : section) : section := mkSection (st_flags x) (st_begin x) e (st_sleepLock x).
Definition with_st_flags (f : Z) (x : section) : section := mkSection f (st_begin x) (st_end x) (st_sleepLock x).

(** [init_sections]: the section of the heap, with [init_sleeplock]. *)
Definition init_sections : VM unit := modify (fun s => vm_set_sections (mkSection ST_HEAP 0 0 1 :: vm_sections s) s).

(** [free_sections] and [copy_sections] are empty. *)
Definition free_sections : VM unit := mret tt.
Definition copy_sections : VM unit := mret tt.

(** The loop of [sbrk] over the pages given back, from [i] on. *)
Fixpoint sbrk_loop (n : nat) (end_ i : Z) : VM unit :=
  match n with
  | O => mret tt
  | S n' =>
      pte ← vm_get_pte (u64 (end_ + i * PAGE_SIZE)) false;
      (if pte =? 0 then mret tt else
       e ← mem (load64 pte);
       if e =? 0 then mret tt else
       mem (kfree_page (P2K (Z.ldiff e (PAGE_SIZE - 1))));;
       mem (store64 pte 0));;
      sbrk_loop n' end_ (i + 1)
  end.

Definition sbrk (invalid_pt size : Z) : VM Z :=
  l ← gets vm_sections;
  match l with
  | [] => ub
  | sec :: rest =>
      let end_ := u64 (st_end sec + size * PAGE_SIZE) in
      modify (vm_set_sections (with_st_end end_ sec :: rest));;
      (if size <? 0 then sbrk_loop (Z.to_nat (- size)) end_ 0 else mret tt);;
      vm_attach invalid_pt;;
      mret (st_end sec)
  end.

Definition user_page_alloc : KM Z := c ← left_page_cnt; if c <=? 1024 then mret 0 else kalloc_page.

Section paging.
Context (dev : Z -> list Z).

(** The eight blocks of a page, from [i] on. *)
Fixpoint read_blocks (n : nat) (bno newpage i : Z) : KM unit :=
  match n with
  | O => mret tt
  | S n' => write_bytes (u64 (newpage + i * 512)) (dev (u32 (bno + i)));; read_blocks n' bno newpage (i + 1)
  end.

(** The loop of [load_swapped_pages] from address [i] on; [n] bounds its turns. *)
Fixpoint load_swapped_loop (n : nat) (i end_ : Z) : VM unit :=
  if negb (i <? end_) then mret tt else
  match n with
  | O => block
  | S n' =>
      pte ← vm_get_pte i false;
      (if pte =? 0 then mret tt else
       e ← mem (load64 pte);
       if e =? 0 then mret tt else
       newpage ← mem user_page_alloc;
       mem (read_blocks 8 (u32 e) newpage 0);;
       mem (store64 pte (Z.lor (K2P newpage) PTE_USER_DATA)));;
      load_swapped_loop n' (u64 (i + PAGE_SIZE)) end_
  end.

(** The section is at position [k]. *)
Definition load_swapped_pages (invalid_pt : Z) (k : nat) : VM unit :=
  l ← gets vm_sections;
  sec ← some_or_ub (l !! k);
  ASSERT (negb (Z.land (st_flags sec) ST_SWAP =? 0));;
  if st_sleepLock sec <=? 0 then block else
  load_swapped_loop (S (Z.to_nat ((st_end sec - st_begin sec) / PAGE_SIZE))) (st_begin sec) (st_end sec);;
  vm_attach invalid_pt;;
  modify (fun s => vm_set_sections (<[k := with_st_flags (Z.ldiff (st_flags sec) ST_SWAP) sec]> (vm_sections s)) s).

(** The search of [pgfault_handler]: the first section that begins at or below
    the address, otherwise the last one. *)
Fixpoint find_section (addr : Z) (l : list section) (k : nat) : option (nat * section) :=
  match l with
  | [] => None
  | sec :: l' => if st_begin sec <=? addr then Some (k, sec) else match find_section addr l' (S k) with None => Some (k, sec) | r => r end
  end.

Definition pgfault_handler (invalid_pt far iss : Z) : VM Z :=
  l ← gets vm_sections;
  match find_section far l 0 with
  | None => panic
  | Some (k, sec) =>
      pte ← vm_get_pte far true;
      e ← mem (load64 pte);
      (if e =? 0 then
         if negb (Z.land (st_flags sec) ST_SWAP =? 0) then load_swapped_pages invalid_pt k
         else p ← mem user_page_alloc; mem (store64 pte (Z.lor (K2P p) PTE_USER_DATA))
       else if negb (Z.land e PTE_RO =? 0) then
         p ← mem user_page_alloc;
         mem (kfree_page (P2K (PTE_ADDRESS e)));;
         bs ← mem (read_bytes (P2K (PTE_ADDRESS e)) (Z.to_nat PAGE_SIZE));
         mem (write_bytes p bs);;
         ASSERT (negb (p =? 0));;
         mem (store64 pte (Z.lor (K2P p) PTE_USER_DATA))
       else if (Z.land e PTE_VALID =? 0) && negb (Z.land (st_flags sec) ST_SWAP =? 0) then load_swapped_pages invalid_pt k
       else mret tt);;
      vm_attach invalid_pt;;
      mret iss
  end.
End paging.

(** The loop of [user_writeable] from address [i] on; [n] bounds its turns. *)
Fixpoint user_writeable_loop (n : nat) (i end_ : Z) : VM bool :=
  if negb (i <? end_) then mret true else
  match n with
  | O => block
  | S n' =>
      pte ← vm_get_pte i false;
      if pte =? 0 then mret false else
      e ← mem (load64 pte);
      if negb (Z.land e PTE_RO =? 0) then mret false else
      user_writeable_loop n' (u64 ((i / 512 + 1) * 512)) end_
  end.
Definition user_writeable (start size : Z) : VM bool := user_writeable_loop (S (Z.to_nat (size / 512 + 1))) start (u64 (start + size)).
