(* ===== verification/PagingProofs.v ===== *)
(** * Page faults: fresh pages and copy on write *)

From Stdlib Require Import ZArith Lia.
From stdpp Require Import base tactics numbers gmap list.
From S2P Require Import Prelude Mem PageTable Paging.

Local Open Scope Z_scope.

(** ** Tables and other pages *)

(** What happens to pages that are no tables does not matter to the walk. *)
Lemma pt_frame own r F s F' s' :
  pt_inv own r F s -> page_inv F' s' -> (forall n l pre, own !! n = Some (l, pre) -> (n ∉ F') /\ km_page s' !! (n * PAGE_SIZE) = km_page s !! (n * PAGE_SIZE)) ->
  pt_inv own r F' s' /\ (forall va, walk (km_page s') r va = walk (km_page s) r va) /\ pt_kept r s s'.
Proof.
  intros Hinv Hp Hown.
  assert (forall n l pre i, own !! n = Some (l, pre) -> entry (km_page s') n i = entry (km_page s) n i) as He.
  { intros n l pre i Hn. unfold entry. by rewrite (proj2 (Hown _ _ _ Hn)). }
  assert (forall n l pre i, own !! n = Some (l, pre) -> next (km_page s') n i = next (km_page s) n i) as Hx.
  { intros n l pre i Hn. unfold next. by rewrite (He _ _ _ _ Hn). }
  assert (forall va, walk (km_page s') r va = walk (km_page s) r va) as Hw.
  { intros va. destruct (VA_PART_range va) as (R0 & R1 & R2 & R3). unfold walk. rewrite (Hx r _ _ _ (pt_root _ _ _ _ Hinv)).
    destruct (next (km_page s) r (VA_PART0 va)) as [t1|] eqn:E1; [|done]. cbn.
    destruct (pt_next _ _ _ _ Hinv r _ _ _ _ (pt_root _ _ _ _ Hinv) ltac:(lia) R0 E1) as [H1 _].
    rewrite (Hx t1 _ _ _ H1). destruct (next (km_page s) t1 (VA_PART1 va)) as [t2|] eqn:E2; [|done]. cbn.
    destruct (pt_next _ _ _ _ Hinv t1 _ _ _ _ H1 ltac:(lia) R1 E2) as [H2 _]. by rewrite (Hx t2 _ _ _ H2). }
  split; [|split; [done|]].
  - split; [done|apply Hinv| |].
    + intros n l pre Hn. destruct (pt_own _ _ _ _ Hinv n l pre Hn) as (H1 & H2 & _ & pg & H4). destruct (Hown _ _ _ Hn) as [HF E].
      split; [done|]. split; [done|]. split; [done|]. exists pg. unfold page_at. by rewrite E.
    + intros n l pre i k Hn Hl Hi Hk. rewrite (Hx n l pre) in Hk by done. rewrite (He n l pre) by done. by apply (pt_next _ _ _ _ Hinv).
  - intros va. unfold pte_of. rewrite Hw. destruct (walk (km_page s) r va) as [t3|] eqn:E; [|done].
    destruct (walk_own _ _ _ _ _ _ Hinv E) as (_ & _ & _ & _ & _ & _ & _ & H3). by rewrite (He _ _ _ _ H3).
Qed.

(** ** Entries of addresses *)

(** The indices of an address are those of its page. *)
Lemma page_parts va : let v := va / PAGE_SIZE * PAGE_SIZE in
  VA_PART0 va = VA_PART0 v /\ VA_PART1 va = VA_PART1 v /\ VA_PART2 va = VA_PART2 v /\ VA_PART3 va = VA_PART3 v.
Proof.
  intros v. destruct (VA_PARTS va) as (-> & -> & -> & ->), (VA_PARTS v) as (-> & -> & -> & ->). unfold v, PAGE_SIZE.
  assert (forall k, 0 <= k -> va / 2 ^ (12 + k) = va / 4096 * 4096 / 2 ^ (12 + k)) as E.
  { intros k Hk. rewrite Z.pow_add_r, <-!Z.div_div by lia. change (2 ^ 12) with 4096. by rewrite Z.div_mul. }
  pose proof (E 27 ltac:(lia)) as E0. pose proof (E 18 ltac:(lia)) as E1. pose proof (E 9 ltac:(lia)) as E2. pose proof (E 0 ltac:(lia)) as E3.
  change (12 + 27) with 39 in E0. change (12 + 18) with 30 in E1. change (12 + 9) with 21 in E2. change (12 + 0) with 12 in E3.
  by rewrite E0, E1, E2, E3.
Qed.

Lemma pte_of_page m r va : pte_of m r va = pte_of m r (va / PAGE_SIZE * PAGE_SIZE).
Proof. unfold pte_of, walk. by destruct (page_parts va) as (-> & -> & -> & ->). Qed.

Lemma get_pte_page pt va alloc : get_pte pt va alloc = get_pte pt (va / PAGE_SIZE * PAGE_SIZE) alloc.
Proof. unfold get_pte. by destruct (page_parts va) as (-> & -> & -> & ->). Qed.

(** The entry has a page or a table. *)
Definition valid (e : Z) : Prop := Z.land e PTE_VALID <> 0.

Lemma valid_table e : valid e -> Z.land e 3 <> 0.
Proof. intros H E. apply H. change PTE_VALID with (Z.land 3 1). by rewrite Z.land_assoc, E. Qed.

Lemma not_valid_0 : ~ valid 0.
Proof. intros H. by apply H. Qed.

(** Only the entry of the page of [va] changes. *)
Definition maps_only (r va v : Z) (s s' : kmem) : Prop :=
  pte_of (km_page s') r va = v /\
  forall va', 0 <= va' < 2 ^ 48 -> va' / PAGE_SIZE <> va / PAGE_SIZE -> pte_of (km_page s') r va' = pte_of (km_page s) r va'.

Lemma leaf_maps own r F s t3 va v pg :
  pt_inv own r F s -> 0 <= va < 2 ^ 48 -> own !! t3 = Some (3%nat, prefix va) -> walk (km_page s) r va = Some t3 -> 0 <= v < 2 ^ 64 -> page_at (km_page s) t3 pg ->
  let s' := set_page (<[t3 * PAGE_SIZE := splice (Z.to_nat (8 * VA_PART3 va)) (le_bytes 8 v) pg]> (km_page s)) s in
  pt_inv own r F s' /\ maps_only r va v s s'.
Proof.
  intros Hinv Hva Ht3 Hw Hv Hpg s'. destruct (VA_PART_range va) as (R0 & R1 & R2 & R3).
  destruct (leaf_store own r F s t3 _ (VA_PART3 va) v pg Hinv Ht3 R3 Hv Hpg) as [I P]. fold s' in I, P. split; [done|]. split.
  - rewrite (proj2 (P va)). by rewrite decide_True.
  - intros va' Hva' Hne. rewrite (proj2 (P va')), decide_False; [done|]. intros [Hw' Hp]. apply Hne.
    destruct (walk_own _ _ _ _ _ _ Hinv Hw) as (_ & _ & _ & _ & _ & _ & _ & Hpre).
    destruct (walk_own _ _ _ _ _ _ Hinv Hw') as (_ & _ & _ & _ & _ & _ & _ & Hpre'). apply parts_inj; [done|done|congruence|done].
Qed.

Lemma user_page_alloc_wp n F s :
  page_inv (n :: F) s -> (1024 <= length F)%nat ->
  wp user_page_alloc (fun p s' => p = kpage n /\ page_inv F s' /\ ref_of s' n = 1 /\
    (forall k, k <> n -> ref_of s' k = ref_of s k) /\ km_page s' = km_page s /\ 0 < km_cnt s') s.
Proof.
  intros Hinv HF. unfold user_page_alloc, left_page_cnt. wp_prims. rewrite (pi_count _ _ Hinv). cbn [length].
  destruct (pi_cnt _ _ Hinv) as [H1 H2]. rewrite (pi_count _ _ Hinv), NPAGES_eq in H2. cbn [length] in H2.
  rewrite u64_small by lia. rewrite (proj2 (Z.leb_gt _ _)) by lia. eapply wp_mono; [by apply kalloc_page_wp|].
  intros p s' (-> & H3 & H4 & H5 & H6 & H7 & _). split_and!; try done. lia.
Qed.

Lemma wp_mem {A} (m : KM A) (Q : A -> vm -> Prop) s : wp m (fun a k => Q a (vm_set_mem k s)) (vm_mem s) -> wp (mem m) Q s.
Proof. apply wp_zoom. Qed.

(** ** Faults on pages that are not there *)

Section fault.
Context (dev : Z -> list Z) (invalid_pt : Z).

Lemma PTE_USER_DATA_flags : 0 <= PTE_USER_DATA < PAGE_SIZE.
Proof. vm_compute. split; [discriminate|reflexivity]. Qed.
Lemma K2P_page n : page_no n -> K2P (kpage n) = n * PAGE_SIZE.
Proof. intros H. rewrite <-(Z.add_0_r (kpage n)), K2P_kpage by (done || (unfold PAGE_SIZE; lia)). lia. Qed.

(** [pgfault_handler] at an address without a page, in a section that is not
    swapped out and with enough free pages: the fault maps a page that was free
    to the page of the address, for this process alone, changes the translation
    of no other address and keeps the tables well formed. *)
Theorem pgfault_maps_fresh own r F s k sec far iss :
  pt_inv own r F (vm_mem s) -> vm_pt s = kpage r -> (1028 <= length F)%nat -> 0 <= far < 2 ^ 48 ->
  find_section far (vm_sections s) 0 = Some (k, sec) -> Z.land (st_flags sec) ST_SWAP = 0 -> pte_of (km_page (vm_mem s)) r far = 0 ->
  exists s' own' F' n, pgfault_handler dev invalid_pt far iss s = Ret (iss, s') /\ vm_pt s' = kpage r /\ vm_sections s' = vm_sections s /\
    pt_inv own' r F' (vm_mem s') /\ n ∈ F /\ (n ∉ F') /\ ref_of (vm_mem s') n = 1 /\
    maps_only r far (Z.lor (n * PAGE_SIZE) PTE_USER_DATA) (vm_mem s) (vm_mem s').
Proof.
  intros Hinv Hpt HF Hfar Hsec Hsw He.
  enough (wp (pgfault_handler dev invalid_pt far iss) (fun x s' => exists own' F' n, x = iss /\ vm_pt s' = kpage r /\ vm_sections s' = vm_sections s /\
    pt_inv own' r F' (vm_mem s') /\ n ∈ F /\ (n ∉ F') /\ ref_of (vm_mem s') n = 1 /\
    maps_only r far (Z.lor (n * PAGE_SIZE) PTE_USER_DATA) (vm_mem s) (vm_mem s')) s) as H.
  { apply wp_run in H as (x & s' & Hr & own' & F' & n & -> & H). by exists s', own', F', n. }
  unfold pgfault_handler, vm_get_pte, vm_attach. wp_prims. rewrite Hsec. wp_prims. rewrite Hpt. apply wp_mem.
  eapply wp_mono; [apply (get_pte_alloc_wp own r F (vm_mem s) far Hinv); lia|].
  intros res m1 (own1 & F1 & t3 & -> & I1 & Ht3 & Hw & K1 & HF1 & HlF & V1 & _). cbn [fst snd]. wp_prims.
  destruct (pt_own _ _ _ _ I1 _ _ _ Ht3) as (Hno3 & _ & Ht3F & pg & Hpg). destruct (VA_PART_range far) as (R0 & R1 & R2 & R3).
  apply wp_mem. cbn [vm_mem vm_set_mem vm_set_pt]. eapply wp_load_entry; [done|done|exact Hpg|].
  assert (entry (km_page m1) t3 (VA_PART3 far) = 0) as E0. { rewrite <-He, <-(K1 far). unfold pte_of. by rewrite Hw. }
  rewrite E0, Hsw. cbn [Z.eqb negb]. wp_prims. apply wp_mem. cbn [vm_mem vm_set_mem vm_set_pt].
  destruct F1 as [|n F1]; [cbn in HlF; lia|]. pose proof (pt_pages _ _ _ _ I1) as Ip. pose proof (pi_nodup _ _ Ip) as [HnF _]%NoDup_cons.
  assert (page_no n) as Hn by (apply (pi_range _ _ Ip); left).
  eapply wp_mono; [apply (user_page_alloc_wp n F1); [done|cbn in HlF; lia]|]. intros p m2 (-> & I2 & Rn & Rk & Em2 & _).
  destruct (pt_frame own1 r (n :: F1) m1 F1 m2 I1 I2) as (I2' & Hw2 & K2).
  { intros x l pre Hx. destruct (pt_own _ _ _ _ I1 _ _ _ Hx) as (_ & _ & HxF & _). split; [set_solver|by rewrite Em2]. }
  assert (page_at (km_page m2) t3 pg) as Hpg2 by by rewrite Em2.
  apply wp_mem. cbn [vm_mem vm_set_mem vm_set_pt]. rewrite K2P_page by done. eapply wp_store_entry; [done|done|exact Hpg2|].
  destruct (leaf_maps own1 r F1 m2 t3 far (Z.lor (n * PAGE_SIZE) PTE_USER_DATA) pg I2' Hfar Ht3 ltac:(by rewrite Hw2)
    ltac:(apply pte_value_u64; [done|apply PTE_USER_DATA_flags]) Hpg2) as [I3 [M1 M2]].
  set (m3 := set_page _ m2) in *. wp_prims. apply wp_mem. unfold attach_pgdir. wp_prims. cbn [vm_mem vm_set_mem vm_set_pt vm_pt vm_sections].
  exists own1, F1, n. split_and!; try done.
  - destruct I3 as [Ip3 ? ? ?]. split; [destruct Ip3; by split|done|done|done].
  - apply HF1. left.
  - split; [exact M1|]. intros va' Hva' Hne. cbn [km_page set_ttbr0]. rewrite M2, (K2 va'), (K1 va') by done. done.
Qed.

(** ** Copy on write *)

(** What the copy of a page with [c] references and content [pg] holds: giving
    back the last reference puts the page on the stack of free pages, whose
    first page is [h], before the copy is made. *)
Definition cow_copy (c h : Z) (pg : list Z) : list Z := if c =? 1 then splice 0 (le_bytes 8 h) pg else pg.

Lemma length_cow_copy c h pg : length pg = Z.to_nat PAGE_SIZE -> length (cow_copy c h pg) = Z.to_nat PAGE_SIZE.
Proof. intros H. unfold cow_copy. destruct (c =? 1); [|done]. change 0%nat with (Z.to_nat 0). apply length_splice8; [lia|unfold PAGE_SIZE; lia|done]. Qed.

(** A new page takes the place of [old]: its content and the counts. *)
Lemma replace_page_wp {A} own r n F m s old pg (c : Z -> VM A) (Q : A -> vm -> Prop) :
  vm_mem s = m -> pt_inv own r (n :: F) m -> (1024 <= length F)%nat -> page_no old -> (old ∉ n :: F) -> own !! old = None -> page_at (km_page m) old pg ->
  1 <= ref_of m old ->
  (forall m', pt_inv own r (if ref_of m old =? 1 then old :: F else F) m' -> (forall va, walk (km_page m') r va = walk (km_page m) r va) -> pt_kept r m m' ->
    ref_of m' n = 1 -> ref_of m' old = ref_of m old - 1 -> page_at (km_page m') n (cow_copy (ref_of m old) (kpage (hd 0 F)) pg) -> wp (c (kpage n)) Q (vm_set_mem m' s)) ->
  wp (p ← mem user_page_alloc; mem (kfree_page (kpage old));; bs ← mem (read_bytes (kpage old) (Z.to_nat PAGE_SIZE)); mem (write_bytes p bs);;
    ASSERT (negb (p =? 0));; c p) Q s.
Proof.
  intros Em I0 HF Hold Hof Hoo Hpg Href HQ. pose proof (pt_pages _ _ _ _ I0) as P0.
  pose proof (pi_nodup _ _ P0) as [HnF _]%NoDup_cons. assert (page_no n) as Hn by (apply (pi_range _ _ P0); left).
  assert (n <> old) as Hno by (intros ->; apply Hof; left). destruct (pi_stack _ _ P0) as (_ & pgn & Hpgn & _).
  wp_prim. apply wp_mem. rewrite Em. eapply wp_mono; [by apply (user_page_alloc_wp n F)|]. intros p m1 (-> & P1 & Rn & Rk & Em1 & Hc1).
  assert (km_pages m1 = kpage (hd 0 F)) as Eh. { pose proof (pi_stack _ _ P1) as H. destruct F as [|f F]; [cbn in HF; lia|]. apply H. }
  pose proof (Rk old ltac:(done)) as Ro. wp_prim. apply wp_mem. cbn [vm_mem vm_set_mem].
  eapply wp_mono; [apply (kfree_page_wp old pg F m1 P1 Hold); [by rewrite Em1|lia|done]|].
  intros [] m2 (P2 & R2o & R2k & E2 & _ & _ & E2o). rewrite Eh in E2o. rewrite Ro in *. fold (cow_copy (ref_of m old) (kpage (hd 0 F)) pg) in E2o.
  set (F2 := if ref_of m old =? 1 then old :: F else F) in *. set (bs := cow_copy (ref_of m old) (kpage (hd 0 F)) pg) in *.
  assert (length bs = Z.to_nat PAGE_SIZE) as Hlen by (apply length_cow_copy, Hpg).
  assert (n ∉ F2) as HnF2 by (unfold F2; destruct (_ =? 1); [|done]; intros [|]%elem_of_cons; done).
  assert (page_at (km_page m2) old bs) as Hpg2 by done.
  assert (page_at (km_page m2) n pgn) as Hpgn2 by (destruct Hpgn as [H ?]; split; [by rewrite E2, Em1|done]).
  wp_prim. apply wp_mem. cbn [vm_mem vm_set_mem].
  rewrite <-(Z.add_0_r (kpage old)). eapply (wp_read_bytes old 0); [done|unfold PAGE_SIZE; lia|unfold PAGE_SIZE; lia|exact Hpg2|].
  change (Z.to_nat 0) with 0%nat. rewrite drop_0, take_ge by lia.
  wp_prim. apply wp_mem. cbn [vm_mem vm_set_mem].
  rewrite <-(Z.add_0_r (kpage n)). eapply (wp_write_bytes n 0); [done|unfold PAGE_SIZE; lia|rewrite Hlen; unfold PAGE_SIZE; lia|exact Hpgn2|].
  change (Z.to_nat 0) with 0%nat. rewrite splice_all by (rewrite Hlen; symmetry; apply Hpgn2).
  rewrite Z.add_0_r, kpage_eqb by done. cbn [negb]. wp_prims.
  set (m3 := set_page _ m2). assert (page_inv F2 m3) as P3 by by apply page_inv_write.
  destruct (pt_frame own r (n :: F) m F2 m3 I0 P3) as (I3 & W3 & K3).
  { intros x l pre Hx. destruct (pt_own _ _ _ _ I0 _ _ _ Hx) as (_ & _ & HxF & _). assert (x <> old) by congruence.
    assert (x <> n) by (intros ->; apply HxF; left). split.
    - unfold F2. destruct (_ =? 1); [intros [|]%elem_of_cons; [done|]|intros ?]; apply HxF; by right.
    - unfold m3. cbn [km_page set_page]. rewrite lookup_insert_ne by (unfold PAGE_SIZE; lia). by rewrite E2, Em1. }
  split; [done|]. apply (HQ m3); try done.
  - change (ref_of m3 n) with (ref_of m2 n). by rewrite R2k.
  - by apply page_at_insert_eq.
Qed.

(** C30: [pgfault_handler] at a read-only page: a free page takes its place for
    the process, writable, and the old page loses a reference; no other
    translation changes.  The new page has the bytes of the old one if that is
    shared; if this was its last reference, the first eight bytes are lost: they
    hold the link of the stack of free pages. *)
Theorem pgfault_copies own r n F s k sec far iss t3 old pg :
  pt_inv own r (n :: F) (vm_mem s) -> vm_pt s = kpage r -> (1024 <= length F)%nat -> 0 <= far < 2 ^ 48 ->
  find_section far (vm_sections s) 0 = Some (k, sec) -> walk (km_page (vm_mem s)) r far = Some t3 ->
  Z.land (pte_of (km_page (vm_mem s)) r far) PTE_RO <> 0 -> PTE_ADDRESS (pte_of (km_page (vm_mem s)) r far) = old * PAGE_SIZE ->
  page_no old -> (old ∉ n :: F) -> own !! old = None -> page_at (km_page (vm_mem s)) old pg -> 1 <= ref_of (vm_mem s) old ->
  exists s' F', pgfault_handler dev invalid_pt far iss s = Ret (iss, s') /\ pt_inv own r F' (vm_mem s') /\ ref_of (vm_mem s') n = 1 /\
    ref_of (vm_mem s') old = ref_of (vm_mem s) old - 1 /\ page_at (km_page (vm_mem s')) n (cow_copy (ref_of (vm_mem s) old) (kpage (hd 0 F)) pg) /\
    maps_only r far (Z.lor (n * PAGE_SIZE) PTE_USER_DATA) (vm_mem s) (vm_mem s').
Proof.
  intros Hinv Hpt HF Hfar Hsec Hw Hro Ha Hold Hof Hoo Hpg Href. set (e := pte_of _ r far) in *.
  enough (wp (pgfault_handler dev invalid_pt far iss) (fun x s' => exists F', x = iss /\ pt_inv own r F' (vm_mem s') /\ ref_of (vm_mem s') n = 1 /\
    ref_of (vm_mem s') old = ref_of (vm_mem s) old - 1 /\ page_at (km_page (vm_mem s')) n (cow_copy (ref_of (vm_mem s) old) (kpage (hd 0 F)) pg) /\
    maps_only r far (Z.lor (n * PAGE_SIZE) PTE_USER_DATA) (vm_mem s) (vm_mem s')) s) as H.
  { apply wp_run in H as (x & s' & Hr & F' & -> & H). by exists s', F'. }
  assert (page_no n) as Hn by (apply (pi_range _ _ (pt_pages _ _ _ _ Hinv)); left). destruct (VA_PART_range far) as (R0 & R1 & R2 & R3).
  destruct (walk_own _ _ _ _ _ _ Hinv Hw) as (_ & _ & _ & _ & _ & _ & _ & Ht3). destruct (pt_own _ _ _ _ Hinv _ _ _ Ht3) as (Hno3 & _ & Ht3F & pg3 & Hpg3).
  unfold pgfault_handler, vm_get_pte, vm_attach. wp_prims. rewrite Hsec. wp_prims. rewrite Hpt. apply wp_mem. eapply get_pte_walk_wp; [exact Hinv|exact Hw|].
  cbn [fst snd]. wp_prims. apply wp_mem. cbn [vm_mem vm_set_mem vm_set_pt]. eapply wp_load_entry; [done|done|exact Hpg3|].
  assert (entry (km_page (vm_mem s)) t3 (VA_PART3 far) = e) as -> by (unfold e, pte_of; by rewrite Hw).
  assert (e <> 0) as He0 by (intros E; apply Hro; by rewrite E). rewrite (proj2 (Z.eqb_neq e 0)), (proj2 (Z.eqb_neq (Z.land e PTE_RO) 0)) by done. cbn [negb].
  rewrite Ha, P2K_page by done. wp_prim. apply (replace_page_wp own r n F (vm_mem s) _ old pg); try done. intros m1 I1 W1 K1 Rn Ro Hpn. cbn beta.
  apply wp_mem. cbn [vm_mem vm_set_mem vm_set_pt]. set (F1 := if ref_of (vm_mem s) old =? 1 then old :: F else F) in *.
  destruct (pt_own _ _ _ _ I1 _ _ _ Ht3) as (_ & _ & _ & pg1 & Hpg1). rewrite K2P_page by done. eapply wp_store_entry; [done|done|exact Hpg1|].
  destruct (leaf_maps own r F1 m1 t3 far (Z.lor (n * PAGE_SIZE) PTE_USER_DATA) pg1 I1 Hfar Ht3 ltac:(by rewrite W1)
    ltac:(apply pte_value_u64; [done|apply PTE_USER_DATA_flags]) Hpg1) as [I2 [M1 M2]].
  set (m2 := set_page _ m1) in *. wp_prims. apply wp_mem. unfold attach_pgdir. wp_prims. cbn [vm_mem vm_set_mem vm_set_pt vm_pt vm_sections].
  exists F1. split_and!; try done.
  - destruct I2 as [Ip ? ? ?]. split; [destruct Ip; by split|done|done|done].
  - apply page_at_insert_ne; [|done]. intros ->. apply Ht3F. left.
  - split; [exact M1|]. intros va' Hva' Hne. cbn [km_page set_ttbr0]. rewrite M2, (K1 va') by done. done.
Qed.
End fault.
