(* ===== verification/PagingDemo.v ===== *)
(** * A process with a page table and 1100 free pages

    Root table 9 leads over tables 10, 11 and 12 to page 13 at address 0, which
    is read-only and has one reference. *)

From Stdlib Require Import ZArith Lia.
From stdpp Require Import base tactics numbers gmap list.
From S2P Require Import Prelude Mem PageTable Paging PagingProofs.

Local Open Scope Z_scope.

(** ** Pages with one link *)

Lemma demo_page_length v : length (demo_page v) = Z.to_nat PAGE_SIZE.
Proof. unfold demo_page. by rewrite length_app, length_le_bytes, length_replicate. Qed.
Lemma demo_page_entry v i : 0 <= v < 2 ^ 64 -> 0 <= i -> read_le 8 (Z.to_nat (8 * i)) (demo_page v) = if i =? 0 then v else 0.
Proof.
  intros Hv Hi. unfold read_le, demo_page. destruct (Z.eqb_spec i 0) as [->|Hne].
  - change (Z.to_nat (8 * 0)) with 0%nat. rewrite drop_0, take_app_length' by by rewrite length_le_bytes. by apply le_val_bytes.
  - rewrite drop_app_ge by (rewrite length_le_bytes; lia). by rewrite drop_replicate, take_replicate, le_val_zeros.
Qed.

Definition link (l : list Z) : Z := match l with [] => 0 | k :: _ => kpage k end.
Fixpoint stack_pages (m : gmap Z (list Z)) (l : list Z) : gmap Z (list Z) :=
  match l with [] => m | n :: l' => <[n * PAGE_SIZE := demo_page (link l')]> (stack_pages m l') end.

Lemma stack_pages_other m l n : n ∉ l -> stack_pages m l !! (n * PAGE_SIZE) = m !! (n * PAGE_SIZE).
Proof.
  induction l as [|k l IH]; intros Hn; [done|]. apply not_elem_of_cons in Hn as [Hne Hn]. cbn [stack_pages].
  rewrite lookup_insert_ne by (unfold PAGE_SIZE; lia). auto.
Qed.
Lemma link_u64 l : (forall n, n ∈ l -> page_no n) -> 0 <= link l < 2 ^ 64.
Proof. destruct l as [|n l]; cbn; [lia|]. intros H. apply kpage_u64, H. left. Qed.
Lemma stack_pages_stack m l : NoDup l -> (forall n, n ∈ l -> page_no n) -> free_stack (stack_pages m l) (link l) l.
Proof.
  induction l as [|n l IH]; intros Hnd Hr; [done|]. apply NoDup_cons in Hnd as [Hn Hnd].
  assert (forall k, k ∈ l -> page_no k) as Hr' by (intros k Hk; apply Hr; by right).
  split; [done|]. exists (demo_page (link l)). split; [split; [apply lookup_insert_eq|apply demo_page_length]|].
  pose proof (demo_page_entry (link l) 0 (link_u64 l Hr') ltac:(lia)) as E. change (Z.to_nat (8 * 0)) with 0%nat in E. rewrite E. cbn [Z.eqb].
  eapply free_stack_frame; [|by apply IH]. intros k Hk. cbn [stack_pages]. rewrite lookup_insert_ne; [done|].
  assert (k <> n) by congruence. unfold PAGE_SIZE. lia.
Qed.

(** ** The memory *)

Definition ro_entry : Z := Z.lor (Z.lor (13 * PAGE_SIZE) PTE_USER_DATA) PTE_RO.
Definition tables : gmap Z (list Z) :=
  <[9 * PAGE_SIZE := demo_page (table_entry 10)]> (<[10 * PAGE_SIZE := demo_page (table_entry 11)]>
    (<[11 * PAGE_SIZE := demo_page (table_entry 12)]> (<[12 * PAGE_SIZE := demo_page ro_entry]> {[ 13 * PAGE_SIZE := demo_page 7 ]}))).
Definition free_pages : list Z := 100 :: seqZ 101 1099.
Definition vm_demo_mem : kmem :=
  mkKmem (stack_pages tables free_pages) (kpage 100) (<[9 := 1]> (<[10 := 1]> (<[11 := 1]> (<[12 := 1]> {[ 13 := 1 ]})))) 5 1105 0 0.
Definition vm_demo : vm := mkVm vm_demo_mem (kpage 9) [mkSection ST_HEAP 0 0 1].
Definition vm_demo_own : gmap Z (nat * Z) := <[9 := (0%nat, 0)]> (<[10 := (1%nat, 0)]> (<[11 := (2%nat, 0)]> {[ 12 := (3%nat, 0) ]})).

Lemma free_pages_range n : n ∈ free_pages -> 100 <= n < 1200.
Proof. unfold free_pages. rewrite elem_of_cons, elem_of_seqZ. lia. Qed.
Lemma free_pages_nodup : NoDup free_pages.
Proof. constructor; [rewrite elem_of_seqZ; lia|apply NoDup_seqZ]. Qed.
Lemma not_free n : n < 100 -> n ∉ free_pages.
Proof. intros H Hn%free_pages_range. lia. Qed.
Lemma demo_table n : n < 100 -> km_page vm_demo_mem !! (n * PAGE_SIZE) = tables !! (n * PAGE_SIZE).
Proof. intros H. by apply stack_pages_other, not_free. Qed.

(** The tables of levels 0 to 2 have one entry each. *)
Lemma demo_entry n v i : n < 100 -> tables !! (n * PAGE_SIZE) = Some (demo_page v) -> 0 <= v < 2 ^ 64 -> 0 <= i -> entry (km_page vm_demo_mem) n i = if i =? 0 then v else 0.
Proof. intros Hn Ht Hv Hi. unfold entry. rewrite demo_table, Ht by done. by apply demo_page_entry. Qed.
Lemma demo_next n k i : n < 100 -> tables !! (n * PAGE_SIZE) = Some (demo_page (table_entry k)) -> page_no k -> 0 <= i ->
  next (km_page vm_demo_mem) n i = if i =? 0 then Some k else None.
Proof.
  intros Hn Ht Hk Hi. destruct (table_entry_spec k Hk) as (Hv & Hval & Ha). unfold next. rewrite (demo_entry n (table_entry k)) by done.
  destruct (i =? 0); [|done]. rewrite (proj2 (Z.eqb_neq _ _)) by done. by rewrite Ha, Z.div_mul.
Qed.

Lemma demo_page_inv : page_inv free_pages vm_demo_mem.
Proof.
  assert (forall n, n ∈ free_pages -> page_no n) as Hr by (intros n Hn%free_pages_range; unfold page_no; rewrite NPAGES_eq; lia).
  split; [apply free_pages_nodup|done| | | |cbn [length]; unfold free_pages; cbn [length]; rewrite length_seqZ; cbn; lia|rewrite NPAGES_eq; cbn; lia].
  - apply (stack_pages_stack tables free_pages); [apply free_pages_nodup|done].
  - intros n Hn%free_pages_range. unfold ref_of. cbn [km_refpage vm_demo_mem]. by rewrite !lookup_insert_ne, lookup_singleton_ne by lia.
  - intros n. unfold ref_of. cbn [km_refpage vm_demo_mem]. rewrite !lookup_insert, lookup_singleton. repeat case_decide; cbn; lia.
Qed.

Lemma demo_own_cases n l pre : vm_demo_own !! n = Some (l, pre) -> pre = 0 /\ n = 9 + Z.of_nat l /\ (l <= 3)%nat.
Proof.
  unfold vm_demo_own. rewrite !lookup_insert, lookup_singleton. repeat case_decide; intros [= <- <-]; subst; repeat split; lia.
Qed.
Lemma demo_tables l : (l <= 3)%nat -> tables !! ((9 + Z.of_nat l) * PAGE_SIZE) = Some (demo_page (if decide (l = 3%nat) then ro_entry else table_entry (10 + Z.of_nat l))).
Proof. intros H. assert (l = 0 \/ l = 1 \/ l = 2 \/ l = 3)%nat as [->|[->|[->| ->]]] by lia; reflexivity. Qed.

Lemma vm_demo_inv : pt_inv vm_demo_own 9 free_pages vm_demo_mem.
Proof.
  split; [apply demo_page_inv|reflexivity| |].
  - intros n l pre (-> & -> & Hl)%demo_own_cases. split; [unfold page_no; rewrite NPAGES_eq; lia|]. split; [done|]. split; [apply not_free; lia|].
    eexists. split; [rewrite demo_table by lia; by apply demo_tables|apply demo_page_length].
  - intros n l pre i k (-> & -> & Hl)%demo_own_cases Hl3 Hi Hk.
    assert (page_no (10 + Z.of_nat l)) as Hp by (unfold page_no; rewrite NPAGES_eq; lia).
    pose proof (demo_tables l Hl) as Ht. rewrite decide_False in Ht by lia.
    rewrite (demo_next _ (10 + Z.of_nat l)) in Hk by (done || lia). destruct (Z.eqb_spec i 0) as [->|]; [|done]. injection Hk as <-.
    split; [assert (l = 0 \/ l = 1 \/ l = 2)%nat as [->|[->| ->]] by lia; reflexivity|].
    destruct (table_entry_spec _ Hp) as (Hv & _ & Ha). rewrite (demo_entry _ (table_entry (10 + Z.of_nat l))) by (done || lia). exact Ha.
Qed.

Lemma demo_walk va : VA_PART0 va = 0 -> VA_PART1 va = 0 -> VA_PART2 va = 0 -> walk (km_page vm_demo_mem) 9 va = Some 12.
Proof.
  intros V0 V1 V2.
  assert (forall l, (l < 3)%nat -> next (km_page vm_demo_mem) (9 + Z.of_nat l) 0 = Some (10 + Z.of_nat l)) as E.
  { intros l Hl. pose proof (demo_tables l ltac:(lia)) as Ht. rewrite decide_False in Ht by lia. rewrite (demo_next _ (10 + Z.of_nat l)); [done|lia|done| |done].
    unfold page_no. rewrite NPAGES_eq. lia. }
  unfold walk. rewrite V0, V1, V2.
  pose proof (E 0%nat ltac:(lia)) as E0. pose proof (E 1%nat ltac:(lia)) as E1. pose proof (E 2%nat ltac:(lia)) as E2.
  change (9 + Z.of_nat 0) with 9 in E0. change (10 + Z.of_nat 0) with 10 in E0. change (9 + Z.of_nat 1) with 10 in E1.
  change (10 + Z.of_nat 1) with 11 in E1. change (9 + Z.of_nat 2) with 11 in E2. change (10 + Z.of_nat 2) with 12 in E2.
  rewrite E0. cbn [mbind option_bind]. rewrite E1. cbn [mbind option_bind]. exact E2.
Qed.
Lemma demo_pte0 : pte_of (km_page vm_demo_mem) 9 0 = ro_entry.
Proof.
  unfold pte_of. rewrite demo_walk by reflexivity. change (VA_PART3 0) with 0. rewrite (demo_entry 12 ro_entry); [done|lia|by apply (demo_tables 3)|vm_compute; split; [discriminate|reflexivity]|lia].
Qed.
Lemma demo_pte1 : pte_of (km_page vm_demo_mem) 9 PAGE_SIZE = 0.
Proof.
  unfold pte_of. rewrite demo_walk by reflexivity.
  change (VA_PART3 PAGE_SIZE) with 1. rewrite (demo_entry 12 ro_entry); [done|lia|by apply (demo_tables 3)|vm_compute; split; [discriminate|reflexivity]|lia].
Qed.

(** The process has one page, at address 0. *)
Lemma demo_pte va : 0 <= va < 2 ^ 48 -> pte_of (km_page vm_demo_mem) 9 va = if decide (va / PAGE_SIZE = 0) then ro_entry else 0.
Proof.
  intros Hva. case_decide as E; [rewrite pte_of_page, E; apply demo_pte0|]. destruct (VA_PART_range va) as (R0 & R1 & R2 & R3).
  assert (forall l i, (l < 3)%nat -> 0 <= i -> next (km_page vm_demo_mem) (9 + Z.of_nat l) i = if i =? 0 then Some (10 + Z.of_nat l) else None) as N.
  { intros l i Hl Hi. pose proof (demo_tables l ltac:(lia)) as Ht. rewrite decide_False in Ht by lia. apply demo_next; [lia|done| |done]. unfold page_no. rewrite NPAGES_eq. lia. }
  unfold pte_of, walk. change 9 with (9 + Z.of_nat 0). rewrite N by lia. destruct (Z.eqb_spec (VA_PART0 va) 0) as [E0|]; [|done]. cbn [mbind option_bind].
  change (10 + Z.of_nat 0) with (9 + Z.of_nat 1). rewrite N by lia. destruct (Z.eqb_spec (VA_PART1 va) 0) as [E1|]; [|done]. cbn [mbind option_bind].
  change (10 + Z.of_nat 1) with (9 + Z.of_nat 2). rewrite N by lia. destruct (Z.eqb_spec (VA_PART2 va) 0) as [E2|]; [|done]. change (10 + Z.of_nat 2) with 12.
  rewrite (demo_entry 12 ro_entry); [|lia|by apply (demo_tables 3)|vm_compute; split; [discriminate|reflexivity]|lia].
  destruct (Z.eqb_spec (VA_PART3 va) 0) as [E3|]; [|done]. destruct E. rewrite (parts_inj va 0); [done|done|lia| |by rewrite E3].
  unfold prefix. rewrite E0, E1, E2. done.
Qed.

Lemma demo_valid va : 0 <= va < 2 ^ 48 -> valid (pte_of (km_page vm_demo_mem) 9 va) -> va / PAGE_SIZE = 0 /\ pte_of (km_page vm_demo_mem) 9 va = ro_entry.
Proof. intros Hva Hv. rewrite demo_pte in * by done. case_decide; [done|]. by destruct not_valid_0. Qed.

(** ** The theorems at this process *)

Lemma pgfault_maps_fresh_witness : exists s' n, pgfault_handler (fun _ => []) 0 PAGE_SIZE 5 vm_demo = Ret (5, s') /\ n ∈ free_pages /\
  pte_of (km_page (vm_mem s')) 9 PAGE_SIZE = Z.lor (n * PAGE_SIZE) PTE_USER_DATA.
Proof.
  destruct (pgfault_maps_fresh (fun _ => []) 0 vm_demo_own 9 free_pages vm_demo 0 (mkSection ST_HEAP 0 0 1) PAGE_SIZE 5 vm_demo_inv eq_refl
    ltac:(unfold free_pages; cbn [length]; rewrite length_seqZ; lia) ltac:(unfold PAGE_SIZE; lia) eq_refl eq_refl demo_pte1) as (s' & own' & F' & n & H1 & _ & _ & _ & H2 & _ & _ & H3 & _).
  exists s', n. split; [exact H1|]. split; [exact H2|exact H3].
Defined.

(** The page had one reference, so that its first bytes are lost. *)
Lemma pgfault_copies_witness : exists s', pgfault_handler (fun _ => []) 0 0 5 vm_demo = Ret (5, s') /\
  page_at (km_page (vm_mem s')) 100 (splice 0 (le_bytes 8 (kpage 101)) (demo_page 7)).
Proof.
  destruct (pgfault_copies (fun _ => []) 0 vm_demo_own 9 100 (seqZ 101 1099) vm_demo 0 (mkSection ST_HEAP 0 0 1) 0 5 12 13 (demo_page 7)
    vm_demo_inv eq_refl ltac:(rewrite length_seqZ; lia) ltac:(lia) eq_refl (demo_walk 0 eq_refl eq_refl eq_refl)) as (s' & F' & H1 & _ & _ & _ & H2 & _).
  - change (km_page (vm_mem vm_demo)) with (km_page vm_demo_mem). rewrite demo_pte0. vm_compute. discriminate.
  - change (km_page (vm_mem vm_demo)) with (km_page vm_demo_mem). rewrite demo_pte0. vm_compute. reflexivity.
  - unfold page_no. rewrite NPAGES_eq. lia.
  - apply (not_free 13). lia.
  - reflexivity.
  - split; [rewrite demo_table by lia; reflexivity|reflexivity].
  - change (1 <= 1). lia.
  - exists s'. split; [exact H1|exact H2].
Defined.
