(* ===== verification/KernelPt.v ===== *)
(** * The page table of the kernel: [aarch64/kernel_pt.c]

    The static tables that [start.S] installs, and what the hardware finds in
    them: a walk that ends at a block of 2 MB or at a page.  The addresses that
    the linker gives to the tables are parameters. *)

From Stdlib Require Import ZArith Lia.
From stdpp Require Import base tactics numbers gmap list.
From S2P Require Import Prelude Mem PageTable.

Local Open Scope Z_scope.

(** ** [aarch64/mmu.h] *)

Definition EXTMEM : Z := 0x40000000.
Definition MT_DEVICE_nGnRnE : Z := 0.
Definition PTE_BLOCK : Z := 1.
Definition PTE_KERNEL : Z := Z.shiftl 0 6.
Definition PTE_DEVICE : Z := Z.lor (Z.shiftl MT_DEVICE_nGnRnE 2) AF_USED.
Definition PTE_KERNEL_DATA : Z := Z.lor (Z.lor PTE_KERNEL PTE_NORMAL) PTE_BLOCK.
Definition PTE_KERNEL_DEVICE : Z := Z.lor (Z.lor PTE_KERNEL PTE_DEVICE) PTE_BLOCK.

(** ** The tables: an initialiser, and zero for the entries it leaves out *)

Definition BLOCK_2M : Z := 0x200000.
Definition table (l : list Z) : list Z := l ++ replicate (Z.to_nat N_PTE_PER_TABLE - length l) 0.

(** The first 64 entries, up to 0x7e00000, are not valid, the next 24, up to
    0xae00000, are devices. *)
Definition _kernel_pt_lv2_dev : list Z :=
  table (((fun i => Z.ldiff (i * BLOCK_2M) PTE_VALID) <$> seqZ 0 64) ++ ((fun i => Z.lor (i * BLOCK_2M) PTE_KERNEL_DEVICE) <$> seqZ 64 24)).

(** All 512 entries, from 0x40000000 to 0x7fe00000. *)
Definition _kernel_pt_lv2_ram : list Z :=
  table ((fun i => Z.lor (EXTMEM + i * BLOCK_2M) PTE_KERNEL_DATA) <$> seqZ 0 512).

Section tables.
Context (lv2_dev lv2_ram level1 : Z).

Definition _kernel_pt_level1 : list Z := table [K2P lv2_dev + PTE_TABLE; K2P lv2_ram + PTE_TABLE].
Definition kernel_pt_level0 : list Z := table [K2P level1 + PTE_TABLE].
End tables.

Definition invalid_pt : list Z := table [0].

(** ** The hardware *)

(** Bits 0 and 1 of an entry. *)
Definition kind_bits (e : Z) : Z := Z.land e 3.

(** The translation of [va] from the table at physical address [root] on: the
    physical address and the attributes of the entry, or a fault. *)
Section walk.
Context (tables : Z -> list Z).

Definition at_level (t i : Z) : Z := default 0 (tables t !! Z.to_nat i).
Definition sub_table (t i : Z) : option Z := if kind_bits (at_level t i) =? 3 then Some (PTE_ADDRESS (at_level t i)) else None.
Definition translate (root va : Z) : option (Z * Z) :=
  t1 ← sub_table root (VA_PART0 va);
  t2 ← sub_table t1 (VA_PART1 va);
  let e := at_level t2 (VA_PART2 va) in
  if kind_bits e =? 1 then Some (e / BLOCK_2M * BLOCK_2M + va mod BLOCK_2M, e mod BLOCK_2M) else
  t3 ← sub_table t2 (VA_PART2 va);
  let e := at_level t3 (VA_PART3 va) in
  if kind_bits e =? 3 then Some (PTE_ADDRESS e + va mod PAGE_SIZE, e mod PAGE_SIZE) else None.
End walk.

(** ** Lookup in the tables *)

Lemma table_lookup l i : (length l <= 512)%nat -> 0 <= i < 512 -> default 0 (table l !! Z.to_nat i) = default 0 (l !! Z.to_nat i).
Proof.
  intros Hl Hi. unfold table. change (Z.to_nat N_PTE_PER_TABLE) with 512%nat. destruct (decide (Z.to_nat i < length l)%nat).
  - by rewrite lookup_app_l.
  - rewrite lookup_app_r by lia. rewrite (lookup_ge_None_2 l) by lia. rewrite lookup_replicate_2 by lia. done.
Qed.

Lemma fmap_seqZ_lookup (f : Z -> Z) a n i : 0 <= i < n -> (f <$> seqZ a n) !! Z.to_nat i = Some (f (a + i)).
Proof. intros Hi. rewrite list_lookup_fmap, lookup_seqZ_lt by lia. cbn. do 2 f_equal. lia. Qed.

Lemma length_map_seqZ (f : Z -> Z) a n : length (f <$> seqZ a n) = Z.to_nat n.
Proof. by rewrite length_fmap, length_seqZ. Qed.

Lemma dev_lookup i : 0 <= i < 512 -> default 0 (_kernel_pt_lv2_dev !! Z.to_nat i) =
  if i <? 64 then Z.ldiff (i * BLOCK_2M) PTE_VALID else if i <? 88 then Z.lor (i * BLOCK_2M) PTE_KERNEL_DEVICE else 0.
Proof.
  intros Hi. unfold _kernel_pt_lv2_dev. rewrite table_lookup; [|rewrite length_app, !length_map_seqZ; lia|done].
  destruct (Z.ltb_spec i 64) as [H|H].
  - rewrite lookup_app_l by (rewrite length_map_seqZ; lia). by rewrite fmap_seqZ_lookup by lia.
  - rewrite lookup_app_r by (rewrite length_map_seqZ; lia). rewrite length_map_seqZ. replace (Z.to_nat i - Z.to_nat 64)%nat with (Z.to_nat (i - 64)) by lia.
    destruct (Z.ltb_spec i 88) as [H2|H2].
    + rewrite fmap_seqZ_lookup by lia. cbn. do 2 f_equal. lia.
    + by rewrite lookup_ge_None_2 by (rewrite length_map_seqZ; lia).
Qed.

Lemma ram_lookup i : 0 <= i < 512 -> default 0 (_kernel_pt_lv2_ram !! Z.to_nat i) = Z.lor (EXTMEM + i * BLOCK_2M) PTE_KERNEL_DATA.
Proof.
  intros Hi. unfold _kernel_pt_lv2_ram. rewrite table_lookup; [|rewrite length_map_seqZ; lia|done]. by rewrite fmap_seqZ_lookup by lia.
Qed.

(** An entry of a block: the address, its kind and its attributes. *)
Lemma block_entry i f : 0 <= f < BLOCK_2M ->
  Z.lor (i * BLOCK_2M) f / BLOCK_2M * BLOCK_2M = i * BLOCK_2M /\ Z.lor (i * BLOCK_2M) f mod BLOCK_2M = f /\ kind_bits (Z.lor (i * BLOCK_2M) f) = kind_bits f.
Proof.
  intros Hf. assert (Z.lor (i * BLOCK_2M) f = i * BLOCK_2M + f) as E.
  { pose proof (lor_shift i f 21 ltac:(lia) Hf) as H. by rewrite Z.shiftl_mul_pow2 in H. }
  unfold kind_bits. rewrite E. change 3 with (Z.ones 2). rewrite !Z.land_ones by lia. unfold BLOCK_2M in *. split_and!; Z.div_mod_to_equations; lia.
Qed.

(** An address without the valid bit. *)
Lemma even_ldiff i : Z.ldiff (i * BLOCK_2M) PTE_VALID = i * BLOCK_2M.
Proof.
  change PTE_VALID with (Z.ones 1). rewrite Z.ldiff_ones_r by lia. rewrite Z.shiftr_div_pow2, Z.shiftl_mul_pow2 by lia. unfold BLOCK_2M. Z.div_mod_to_equations. lia.
Qed.
Lemma even_kind i : kind_bits (i * BLOCK_2M) = 0.
Proof. unfold kind_bits. change 3 with (Z.ones 2). rewrite Z.land_ones by lia. unfold BLOCK_2M. Z.div_mod_to_equations. lia. Qed.

(** ** The kernel space *)

Section linear.
(** The tables are pages of memory, different from one another. *)
Context (dev ram l1 l0 : Z).
Hypothesis Hpages : page_no dev /\ page_no ram /\ page_no l1 /\ NoDup [dev; ram; l1; l0].

Definition kernel_tables (pa : Z) : list Z :=
  if pa =? dev * PAGE_SIZE then _kernel_pt_lv2_dev else
  if pa =? ram * PAGE_SIZE then _kernel_pt_lv2_ram else
  if pa =? l1 * PAGE_SIZE then _kernel_pt_level1 (kpage dev) (kpage ram) else
  if pa =? l0 * PAGE_SIZE then kernel_pt_level0 (kpage l1) else [].

Lemma table_entry_add n : table_entry n = n * PAGE_SIZE + PTE_TABLE.
Proof. pose proof (lor_shift n PTE_TABLE 12 ltac:(lia) ltac:(unfold PTE_TABLE; lia)) as H. by rewrite Z.shiftl_mul_pow2 in H. Qed.

Lemma K2P_table n : page_no n -> K2P (kpage n) + PTE_TABLE = table_entry n.
Proof.
  intros Hn. rewrite <-(Z.add_0_r (kpage n)), K2P_kpage, Z.add_0_r by (done || (unfold PAGE_SIZE; lia)).
  symmetry. apply table_entry_add.
Qed.

Lemma table_kind n : kind_bits (table_entry n) = 3.
Proof.
  unfold kind_bits. rewrite table_entry_add.
  change 3 with (Z.ones 2) at 1. rewrite Z.land_ones by lia. unfold PTE_TABLE, PAGE_SIZE. Z.div_mod_to_equations. lia.
Qed.

Lemma kernel_tables_at : kernel_tables (dev * PAGE_SIZE) = _kernel_pt_lv2_dev /\ kernel_tables (ram * PAGE_SIZE) = _kernel_pt_lv2_ram /\
  kernel_tables (l1 * PAGE_SIZE) = _kernel_pt_level1 (kpage dev) (kpage ram) /\ kernel_tables (l0 * PAGE_SIZE) = kernel_pt_level0 (kpage l1).
Proof.
  destruct Hpages as (_ & _ & _ & Hnd). rewrite !NoDup_cons, !not_elem_of_cons in Hnd. destruct Hnd as ((? & ? & ? & _) & (? & ? & _) & (? & _) & _). unfold kernel_tables, PAGE_SIZE.
  split_and!; repeat match goal with |- context [?a =? ?b] => destruct (Z.eqb_spec a b) end; done || (exfalso; lia).
Qed.

Lemma small_lookup l i : (length l <= 2)%nat -> 0 <= i < 512 -> default 0 (table l !! Z.to_nat i) = if i =? 0 then default 0 (l !! 0%nat) else if i =? 1 then default 0 (l !! 1%nat) else 0.
Proof.
  intros Hl Hi. rewrite table_lookup by (done || lia). destruct (Z.eqb_spec i 0) as [->|]; [done|]. destruct (Z.eqb_spec i 1) as [->|]; [done|].
  by rewrite lookup_ge_None_2 by lia.
Qed.

Lemma level0_sub i : 0 <= i < 512 -> sub_table kernel_tables (l0 * PAGE_SIZE) i = if i =? 0 then Some (l1 * PAGE_SIZE) else None.
Proof.
  intros Hi. destruct kernel_tables_at as (_ & _ & _ & E). unfold sub_table, at_level. rewrite E. unfold kernel_pt_level0. rewrite small_lookup by (cbn; lia).
  destruct (Z.eqb_spec i 0); [|by destruct (i =? 1)]. cbn. rewrite K2P_table, table_kind by apply Hpages. cbn. f_equal. apply table_entry_spec, Hpages.
Qed.

Lemma level1_sub i : 0 <= i < 512 -> sub_table kernel_tables (l1 * PAGE_SIZE) i = if i =? 0 then Some (dev * PAGE_SIZE) else if i =? 1 then Some (ram * PAGE_SIZE) else None.
Proof.
  intros Hi. destruct kernel_tables_at as (_ & _ & E & _). unfold sub_table, at_level. rewrite E. unfold _kernel_pt_level1. rewrite small_lookup by (cbn; lia).
  destruct (Z.eqb_spec i 0); [|destruct (Z.eqb_spec i 1); [|done]]; cbn; rewrite K2P_table, table_kind by apply Hpages; cbn; f_equal; apply table_entry_spec, Hpages.
Qed.

(** Kernel addresses have the indices of the physical address. *)
Lemma P2K_parts p : 0 <= p < 2 ^ 48 -> VA_PART0 (P2K p) = p / 2 ^ 39 /\ VA_PART1 (P2K p) = (p / 2 ^ 30) mod 512 /\ VA_PART2 (P2K p) = (p / 2 ^ 21) mod 512 /\
  P2K p mod BLOCK_2M = p mod BLOCK_2M.
Proof.
  intros Hp. assert (P2K p = p + KSPACE_MASK) as -> by (unfold P2K; apply u64_small; unfold KSPACE_MASK; lia).
  destruct (VA_PARTS (p + KSPACE_MASK)) as (-> & -> & -> & _). unfold KSPACE_MASK, BLOCK_2M. split_and!; Z.div_mod_to_equations; lia.
Qed.

(** C32: the kernel sees physical memory at a fixed distance: the kernel address
    of [p] translates to [p], with the attributes of devices for the controllers
    from 0x8000000 to 0xb000000, with those of normal memory for all of RAM, from
    0x40000000 to [PHYSTOP], and faults for every other [p]. *)
Theorem kernel_space_linear p : 0 <= p < 2 ^ 48 ->
  translate kernel_tables (l0 * PAGE_SIZE) (P2K p) =
    if (0x8000000 <=? p) && (p <? 0xb000000) then Some (p, PTE_KERNEL_DEVICE) else
    if (EXTMEM <=? p) && (p <? PHYSTOP) then Some (p, PTE_KERNEL_DATA) else None.
Proof.
  intros Hp. destruct (P2K_parts p Hp) as (V0 & V1 & V2 & Vo). destruct kernel_tables_at as (Ed & Er & _). unfold translate. rewrite V0, V1, V2, Vo.
  assert (0 <= p / 2 ^ 39 < 512) as R0 by (Z.div_mod_to_equations; lia). pose proof (part_range p 30) as R1. pose proof (part_range p 21) as R2.
  rewrite level0_sub by done. destruct (Z.eqb_spec (p / 2 ^ 39) 0) as [E0|E0]; cbn [mbind option_bind].
  2: { assert (2 ^ 39 <= p) by (Z.div_mod_to_equations; lia). rewrite !(proj2 (Z.ltb_ge p _)) by (unfold PHYSTOP; lia). by rewrite !andb_false_r. }
  rewrite level1_sub by done. assert (p < 2 ^ 39) as Hp39 by (Z.div_mod_to_equations; lia). set (i := (p / 2 ^ 21) mod 512) in *.
  assert ((p / 2 ^ 30) mod 512 = p / 2 ^ 30 /\ p = (p / 2 ^ 30) * 2 ^ 30 + i * BLOCK_2M + p mod BLOCK_2M) as [E1 Ep]
    by (subst i; unfold BLOCK_2M; split; Z.div_mod_to_equations; lia).
  assert (0 <= p mod BLOCK_2M < BLOCK_2M) as Ho by (apply Z.mod_pos_bound; done). rewrite E1.
  destruct (Z.eqb_spec (p / 2 ^ 30) 0) as [F0|F0]; [|destruct (Z.eqb_spec (p / 2 ^ 30) 1) as [F1|F1]]; cbn [mbind option_bind].
  - rewrite F0 in Ep. change EXTMEM with (512 * BLOCK_2M). rewrite (proj2 (Z.leb_gt (512 * BLOCK_2M) p)) by (unfold BLOCK_2M in *; lia).
    unfold sub_table, at_level. rewrite Ed, dev_lookup by done. destruct (Z.ltb_spec i 64) as [G|G].
    + rewrite even_ldiff, even_kind. rewrite (proj2 (Z.leb_gt _ p)) by (unfold BLOCK_2M in *; lia). done.
    + destruct (Z.ltb_spec i 88) as [G2|G2].
      * destruct (block_entry i PTE_KERNEL_DEVICE ltac:(unfold BLOCK_2M; vm_compute; split; [discriminate|reflexivity])) as (-> & -> & ->).
        change (kind_bits PTE_KERNEL_DEVICE =? 1) with true. cbn iota. rewrite (proj2 (Z.leb_le _ p)), (proj2 (Z.ltb_lt p _)) by (unfold BLOCK_2M in *; lia). cbn. do 2 f_equal. lia.
      * rewrite (proj2 (Z.ltb_ge p _)) by (unfold BLOCK_2M in *; lia). by rewrite andb_false_r.
  - rewrite F1 in Ep. rewrite (proj2 (Z.ltb_ge p 0xb000000)), andb_false_r by (unfold BLOCK_2M in *; lia).
    rewrite (proj2 (Z.leb_le EXTMEM p)), (proj2 (Z.ltb_lt p PHYSTOP)) by (unfold EXTMEM, PHYSTOP, BLOCK_2M in *; lia).
    unfold at_level. rewrite Er, ram_lookup by done. replace (EXTMEM + i * BLOCK_2M) with ((512 + i) * BLOCK_2M) by (unfold EXTMEM, BLOCK_2M; lia).
    destruct (block_entry (512 + i) PTE_KERNEL_DATA ltac:(unfold BLOCK_2M; vm_compute; split; [discriminate|reflexivity])) as (-> & -> & ->).
    change (kind_bits PTE_KERNEL_DATA =? 1) with true. cbn. do 2 f_equal. unfold BLOCK_2M in *. lia.
  - assert (2 ^ 31 <= p) by (clear -F0 F1 Hp; Z.div_mod_to_equations; lia). rewrite !(proj2 (Z.ltb_ge p _)) by (unfold PHYSTOP; lia). by rewrite !andb_false_r.
Qed.
End linear.

(** The tables right after the text of the kernel. *)
Lemma kernel_space_linear_witness :
  translate (kernel_tables 0x40100 0x40101 0x40102 0x40103) (0x40103 * PAGE_SIZE) (P2K 0x9000018) = Some (0x9000018, PTE_KERNEL_DEVICE).
Proof.
  apply (kernel_space_linear 0x40100 0x40101 0x40102 0x40103); [|lia].
  split_and!; [unfold page_no; rewrite NPAGES_eq; lia..|]. by apply (bool_decide_unpack _).
Defined.
