(* ===== verification/FreePt.v ===== *)
(** * Giving back the tables of an address space: [free_pgdir] *)

From Stdlib Require Import ZArith Lia.
From stdpp Require Import base tactics numbers gmap list.
From S2P Require Import Prelude Mem PageTable PagingProofs PagingDemo.

Local Open Scope Z_scope.

(** The tables under table [n], which has [levels] levels below it, in the order
    in which they are freed. *)
Fixpoint subtree (levels : nat) (m : gmap Z (list Z)) (n : Z) : list Z :=
  match levels with
  | O => [n]
  | S l => concat ((fun i => match next m n i with Some k => subtree l m k | None => [] end) <$> seqZ 0 512) ++ [n]
  end.

(** Every entry above the last level is empty or leads to a table. *)
Fixpoint table_ok (levels : nat) (m : gmap Z (list Z)) (n : Z) : Prop :=
  page_no n /\ (exists pg, page_at m n pg) /\
  match levels with
  | O => True
  | S l => forall i, 0 <= i < 512 -> match next m n i with
      | None => entry m n i = 0
      | Some k => PTE_ADDRESS (entry m n i) = k * PAGE_SIZE /\ table_ok l m k
      end
  end.

Lemma table_ok_page levels m n : table_ok levels m n -> page_no n /\ exists pg, page_at m n pg.
Proof. destruct levels; intros (H1 & H2 & _); done. Qed.

(** The tables [T] are as in [m0], with one reference each. *)
Definition intact (m0 : gmap Z (list Z)) (T : list Z) (m : kmem) : Prop :=
  forall x, x ∈ T -> km_page m !! (x * PAGE_SIZE) = m0 !! (x * PAGE_SIZE) /\ ref_of m x = 1.

(** From [m] to [m'] the pages [T] are freed. *)
Record freed (T : list Z) (F : list Z) (m m' : kmem) : Prop := {
  fr_pages : page_inv (reverse T ++ F) m';
  fr_other : forall x, x ∉ T -> km_page m' !! (x * PAGE_SIZE) = km_page m !! (x * PAGE_SIZE) /\ ref_of m' x = ref_of m x;
  fr_cnt : km_cnt m' = km_cnt m - Z.of_nat (length T);
  fr_ttbr : km_ttbr0 m' = km_ttbr0 m }.

Lemma freed_nothing F m : page_inv F m -> freed [] F m m.
Proof. intros H. split; try done. cbn. lia. Qed.

Lemma freed_app T1 T2 F m m1 m2 : freed T1 F m m1 -> freed T2 (reverse T1 ++ F) m1 m2 -> freed (T1 ++ T2) F m m2.
Proof.
  intros [P1 O1 C1 R1] [P2 O2 C2 R2]. split; [by rewrite reverse_app, <-app_assoc| |rewrite C2, C1, length_app; lia|congruence].
  intros x [Hx1 Hx2]%not_elem_of_app. destruct (O1 x Hx1) as [E1 E2], (O2 x Hx2) as [E3 E4]. by rewrite E3, E4.
Qed.

Lemma intact_freed m0 T T1 F m m1 : intact m0 T m -> freed T1 F m m1 -> (forall x, x ∈ T -> x ∉ T1) -> intact m0 T m1.
Proof. intros H Hf Hd x Hx. destruct (H x Hx) as [E1 E2], (fr_other _ _ _ _ Hf x (Hd x Hx)) as [E3 E4]. by rewrite E3, E4. Qed.

(** The last page of a subtree is freed. *)
Lemma kfree_table_wp n F m : page_inv F m -> page_no n -> (exists pg, page_at (km_page m) n pg) -> ref_of m n = 1 -> 0 < km_cnt m ->
  wp (kfree_page (kpage n)) (fun _ m' => freed [n] F m m') m.
Proof.
  intros HP Hn [pg Hpg] Hr Hc. eapply wp_mono; [apply (kfree_page_wp n pg F m HP Hn Hpg); lia|].
  rewrite Hr. intros [] m' (P' & _ & R' & K' & C' & T' & _). split; [exact P'| |cbn; cbn in C'; lia|done].
  intros x Hx. assert (x <> n) by (intros ->; apply Hx; left). split; [by apply K'|by apply R'].
Qed.

Section loop.
Context (l : nat) (m0 : gmap Z (list Z)) (n : Z).
Definition child (i : Z) : list Z := match next m0 n i with Some k => subtree l m0 k | None => [] end.

(** What the recursive call does. *)
Hypothesis Hrec : forall k F m, table_ok l m0 k -> NoDup (subtree l m0 k) -> intact m0 (subtree l m0 k) m -> page_inv F m ->
  Z.of_nat (length (subtree l m0 k)) <= km_cnt m -> wp (free_pt_pages l (kpage k)) (fun _ m' => freed (subtree l m0 k) F m m') m.
Hypothesis Hok : table_ok (S l) m0 n.

(** Up to table [n] itself, which loses entries. *)
Record swept (T : list Z) (F : list Z) (m m' : kmem) : Prop := {
  sw_pages : page_inv (reverse T ++ F) m';
  sw_other : forall x, x ∉ T -> (x <> n -> km_page m' !! (x * PAGE_SIZE) = km_page m !! (x * PAGE_SIZE)) /\ ref_of m' x = ref_of m x;
  sw_here : exists pg, page_at (km_page m') n pg;
  sw_cnt : km_cnt m' = km_cnt m - Z.of_nat (length T);
  sw_ttbr : km_ttbr0 m' = km_ttbr0 m }.

Lemma swept_app T1 T2 F m m1 m2 : swept T1 F m m1 -> swept T2 (reverse T1 ++ F) m1 m2 -> swept (T1 ++ T2) F m m2.
Proof.
  intros [P1 O1 H1 C1 R1] [P2 O2 H2 C2 R2]. split; [by rewrite reverse_app, <-app_assoc| |done|rewrite C2, C1, length_app; lia|congruence].
  intros x [Hx1 Hx2]%not_elem_of_app. destruct (O1 x Hx1) as [E1 E2], (O2 x Hx2) as [E3 E4]. split; [intros Hne; by rewrite E3, E1|congruence].
Qed.

Lemma sweep_wp (js : list Z) : forall F m, NoDup js -> (forall i, i ∈ js -> 0 <= i < 512) -> NoDup (concat (child <$> js)) -> (n ∉ concat (child <$> js)) -> (n ∉ F) ->
  intact m0 (concat (child <$> js)) m -> (exists pg, page_at (km_page m) n pg) -> (forall i, i ∈ js -> entry (km_page m) n i = entry m0 n i) -> page_inv F m ->
  Z.of_nat (length (concat (child <$> js))) <= km_cnt m ->
  wp (for_each js (fun i => e ← load64 (pte_addr (kpage n) i); if negb (e =? 0) then free_pt_pages l (P2K (PTE_ADDRESS e));; store64 (pte_addr (kpage n) i) 0 else mret tt))
    (fun _ m' => swept (concat (child <$> js)) F m m') m.
Proof.
  pose proof Hok as (Hn & _ & Hent).
  induction js as [|i js IH]; intros F m Hnd Hr HndT HnT HnF Hin Hpg He HP Hc; cbn [for_each].
  { wp_prim. split; try done. cbn. lia. }
  change (concat (child <$> (i :: js))) with (child i ++ concat (child <$> js)) in *. destruct Hpg as [pg Hpg]. apply NoDup_cons in Hnd as [Hii Hnd].
  apply NoDup_app in HndT as (HndI & Hdis & HndR). apply not_elem_of_app in HnT as [HnI HnR]. rewrite length_app in Hc. specialize (Hent i (Hr i ltac:(left))).
  assert (intact m0 (child i) m) as HinI by (intros x Hx; apply Hin, elem_of_app; by left). assert (intact m0 (concat (child <$> js)) m) as HinR by (intros x Hx; apply Hin, elem_of_app; by right).
  assert (0 <= i < 512) as Hi by (apply Hr; left).
  wp_prims. eapply wp_load_entry; [done|done|exact Hpg|]. rewrite (He i ltac:(left)).
  destruct (next m0 n i) as [k|] eqn:Ek.
  - destruct Hent as [Ha Hk]. destruct (table_ok_page _ _ _ Hk) as [Hkn _].
    assert (entry m0 n i <> 0) as Hne by (intros E; unfold next in Ek; rewrite E in Ek; done). rewrite (proj2 (Z.eqb_neq _ 0) Hne), Ha, P2K_page by done. cbn [negb].
    assert (child i = subtree l m0 k) as Ec by (unfold child; by rewrite Ek). rewrite Ec in *.
    wp_prim. eapply wp_mono; [apply (Hrec k F m); [done|done|done|done|lia]|]. intros [] m1 Hf. pose proof Hf as [P1 O1 C1 T1].
    destruct (O1 n HnI) as [En _]. assert (page_at (km_page m1) n pg) as Hpg1 by (unfold page_at; rewrite En; exact Hpg).
    eapply wp_store_entry; [done|done|exact Hpg1|]. set (m2 := set_page _ m1).
    assert (n ∉ reverse (subtree l m0 k) ++ F) as HnF1 by (rewrite elem_of_app, elem_of_reverse; tauto).
    assert (forall x, x <> n -> km_page m2 !! (x * PAGE_SIZE) = km_page m1 !! (x * PAGE_SIZE)) as Em2 by (intros x Hx; unfold m2; cbn; rewrite lookup_insert_ne; [done|unfold PAGE_SIZE; lia]).
    assert (exists pg', page_at (km_page m2) n pg') as Hpg2.
    { eexists. unfold m2. cbn. apply page_at_insert_eq, length_splice8; [lia|unfold PAGE_SIZE; lia|apply Hpg1]. }
    assert (swept (subtree l m0 k) F m m2) as S2.
    { split; [by apply page_inv_write| |done|done|done]. intros x Hx. destruct (O1 x Hx) as [E1 E2]. split; [intros Hxn; by rewrite Em2, E1|exact E2]. }
    eapply wp_mono; [apply (IH (reverse (subtree l m0 k) ++ F) m2); try done|].
    + intros j Hj. apply Hr. by right.
    + intros x Hx. pose proof (intact_freed _ _ _ _ _ _ HinR Hf (fun y Hy Hy' => Hdis y Hy' Hy) x Hx) as [E1 E2]. split; [|exact E2].
      rewrite Em2; [exact E1|]. by intros ->.
    + intros j Hj. assert (j <> i) by (by intros ->). unfold m2. cbn [km_page set_page]. rewrite entry_write; [|exact Hpg1|done|apply Hr; by right|lia].
      rewrite (proj2 (Z.eqb_neq _ _)) by done. unfold entry at 1. rewrite En. apply He. by right.
    + apply S2.
    + cbn. rewrite C1. lia.
    + intros [] m3 S3. by eapply swept_app.
  - rewrite Hent. cbn [Z.eqb negb]. assert (child i = []) as Ec by (unfold child; by rewrite Ek). rewrite Ec in *. cbn [app length] in *. wp_prims.
    apply IH; try done; [intros j Hj; apply Hr; by right|by exists pg|intros j Hj; apply He; by right].
Qed.
End loop.

Lemma free_pt_pages_wp m0 levels : forall n F m, table_ok levels m0 n -> NoDup (subtree levels m0 n) -> intact m0 (subtree levels m0 n) m -> page_inv F m ->
  Z.of_nat (length (subtree levels m0 n)) <= km_cnt m -> wp (free_pt_pages levels (kpage n)) (fun _ m' => freed (subtree levels m0 n) F m m') m.
Proof.
  induction levels as [|l IH]; intros n F m Hok Hnd Hin HP Hc; destruct (table_ok_page _ _ _ Hok) as [Hn [pg Hpg]].
  - cbn [free_pt_pages subtree] in *. destruct (Hin n ltac:(left)) as [En Er]. apply kfree_table_wp; [done|done| |done|cbn in Hc; lia].
    exists pg. unfold page_at. by rewrite En.
  - cbn [free_pt_pages subtree] in *. fold (child l m0 n) in *. set (T := concat (child l m0 n <$> seqZ 0 512)) in *.
    apply NoDup_app in Hnd as (HndT & HnT & _). assert (n ∉ T) as HnT' by (intros Hx; apply (HnT n Hx); left).
    destruct (Hin n) as [En Er]; [apply elem_of_app; right; left|]. rewrite length_app in Hc. cbn [length] in Hc.
    rewrite kpage_eqb by done. wp_prim. eapply wp_mono; [apply (sweep_wp l m0 n IH Hok (seqZ 0 512) F m); try done; fold T|].
    + apply NoDup_seqZ.
    + intros i Hi%elem_of_seqZ. lia.
    + intros Hf%(pi_free _ _ HP). lia.
    + intros x Hx. apply Hin, elem_of_app. by left.
    + exists pg. unfold page_at. by rewrite En.
    + intros i _. unfold entry. by rewrite En.
    + lia.
    + fold T. intros [] m1 [P1 O1 [pg1 H1] C1 T1]. destruct (O1 n HnT') as [_ R1].
      eapply wp_mono; [apply (kfree_table_wp n (reverse T ++ F) m1 P1 Hn); [by exists pg1|by rewrite R1|lia]|].
      intros [] m2 [P2 O2 C2 T2]. split; [by rewrite reverse_app, <-app_assoc| |rewrite C2, C1, length_app; cbn; lia|congruence].
      intros x [Hx1 Hx2]%not_elem_of_app. destruct (O1 x Hx1) as [E1 E2], (O2 x Hx2) as [E3 E4]. rewrite E3, E4, E2, E1; [done|]. intros ->. apply Hx2. left.
Qed.

(** ** The tables of an address space *)

Lemma elem_of_concat_fmap {A B} (f : A -> list B) l x : x ∈ concat (f <$> l) -> exists a, a ∈ l /\ x ∈ f a.
Proof.
  induction l as [|a l IH]; cbn; [by intros ?%elem_of_nil|]. intros [H|H]%elem_of_app; [exists a; split; [left|done]|].
  destruct (IH H) as (b & Hb & Hx). exists b. split; [by right|done].
Qed.

Section tree.
Context (own : gmap Z (nat * Z)) (r : Z) (F : list Z) (m : kmem).
Hypothesis Hinv : pt_inv own r F m.
(** Entries that are not valid are empty. *)
Hypothesis Hclean : forall n l pre i, own !! n = Some (l, pre) -> (l < 3)%nat -> 0 <= i < 512 -> next (km_page m) n i = None -> entry (km_page m) n i = 0.

Lemma tree_table_ok levels : forall n l pre, own !! n = Some (l, pre) -> (levels + l = 3)%nat -> table_ok levels (km_page m) n.
Proof.
  induction levels as [|levels IH]; intros n l pre Hn Hl; destruct (pt_own _ _ _ _ Hinv n l pre Hn) as (Hno & _ & _ & Hpg); (split; [done|]; split; [done|]); [done|].
  intros i Hi. destruct (next (km_page m) n i) as [k|] eqn:E; [|by eapply Hclean; [exact Hn|lia|done|]].
  destruct (pt_next _ _ _ _ Hinv n l pre i k Hn ltac:(lia) Hi E) as [Hk Ha]. split; [done|]. eapply IH; [exact Hk|lia].
Qed.

(** The prefix of a table below [n] begins with that of [n]. *)
Lemma subtree_own levels : forall n l pre x, own !! n = Some (l, pre) -> (levels + l = 3)%nat -> x ∈ subtree levels (km_page m) n ->
  exists l' pre', own !! x = Some (l', pre') /\ (l <= l')%nat /\ pre' / 512 ^ Z.of_nat (l' - l) = pre.
Proof.
  assert (forall n l pre, own !! n = Some (l, pre) -> exists l' pre', own !! n = Some (l', pre') /\ (l <= l')%nat /\ pre' / 512 ^ Z.of_nat (l' - l) = pre) as Hself.
  { intros n l pre Hn. exists l, pre. split; [done|]. split; [lia|]. by rewrite Nat.sub_diag, Z.pow_0_r, Z.div_1_r. }
  induction levels as [|levels IH]; intros n l pre x Hn Hl; cbn [subtree]; [intros ->%list_elem_of_singleton; by apply Hself|].
  rewrite elem_of_app, list_elem_of_singleton. intros [Hx| ->]; [|by apply Hself].
  apply elem_of_concat_fmap in Hx as (i & Hi%elem_of_seqZ & Hx).
  destruct (next (km_page m) n i) as [k|] eqn:E; [|by apply elem_of_nil in Hx].
  destruct (pt_next _ _ _ _ Hinv n l pre i k Hn ltac:(lia) ltac:(lia) E) as [Hk _]. destruct (IH k (S l) _ x Hk ltac:(lia) Hx) as (l' & pre' & Ho & Hle & Hp).
  exists l', pre'. split; [done|]. split; [lia|]. replace (Z.of_nat (l' - l)) with (Z.of_nat (l' - S l) + 1) by lia.
  rewrite Z.pow_add_r, Z.pow_1_r, <-Z.div_div, Hp by lia. Z.div_mod_to_equations. lia.
Qed.

Lemma subtree_nodup levels : forall n l pre, own !! n = Some (l, pre) -> (levels + l = 3)%nat -> NoDup (subtree levels (km_page m) n).
Proof.
  induction levels as [|levels IH]; intros n l pre Hn Hl; cbn [subtree]; [apply NoDup_singleton|].
  set (f := fun i => _). assert (forall i x, 0 <= i < 512 -> x ∈ f i -> exists l' pre', own !! x = Some (l', pre') /\ (S l <= l')%nat /\ pre' / 512 ^ Z.of_nat (l' - S l) = pre * 512 + i) as Hf.
  { intros i x Hi Hx. unfold f in Hx. destruct (next (km_page m) n i) as [k|] eqn:E; [|by apply elem_of_nil in Hx].
    destruct (pt_next _ _ _ _ Hinv n l pre i k Hn ltac:(lia) Hi E) as [Hk _]. apply (subtree_own levels k (S l) _ x Hk); [lia|done]. }
  apply NoDup_app. split_and!; [| |apply NoDup_singleton].
  - assert (forall i, i ∈ seqZ 0 512 -> 0 <= i < 512) as Hr by (intros i Hi%elem_of_seqZ; lia). pose proof (NoDup_seqZ 0 512) as Hnd. revert Hnd Hr.
    induction (seqZ 0 512) as [|i js IHj]; intros Hnd Hr; cbn; [constructor|]. apply NoDup_cons in Hnd as [Hij Hnd]. apply NoDup_app. split_and!.
    + unfold f. destruct (next (km_page m) n i) as [k|] eqn:E; [|constructor].
      destruct (pt_next _ _ _ _ Hinv n l pre i k Hn ltac:(lia) (Hr i ltac:(left)) E) as [Hk _]. apply (IH k (S l) _ Hk). lia.
    + intros x Hx Hx'. apply elem_of_concat_fmap in Hx' as (j & Hj & Hx').
      destruct (Hf i x (Hr i ltac:(left)) Hx) as (l1 & p1 & E1 & _ & Q1). destruct (Hf j x (Hr j ltac:(by right)) Hx') as (l2 & p2 & E2 & _ & Q2).
      assert (i = j) as ->; [|done]. rewrite E1 in E2. injection E2 as <- <-. lia.
    + apply IHj; [done|]. intros j Hj. apply Hr. by right.
  - intros x Hx ->%list_elem_of_singleton. apply elem_of_concat_fmap in Hx as (j & Hj%elem_of_seqZ & Hx).
    destruct (Hf j n ltac:(lia) Hx) as (l1 & p1 & E1 & Hl1 & _). rewrite Hn in E1. injection E1 as <- <-. lia.
Qed.
End tree.

(** C26: [free_pgdir] on a tree of tables with one reference each, whose entries
    are empty or valid, returns; the tables of all four levels, each once, are
    then on the stack of free pages, above those that were there, and the number
    of pages in use has dropped by as many.  Every other page keeps content and
    references: so do the pages that the tables mapped, which no one can find any
    more. *)
Theorem free_pgdir_frees_tables own r F m :
  let T := subtree 3 (km_page m) r in
  pt_inv own r F m ->
  (forall n l pre i, own !! n = Some (l, pre) -> (l < 3)%nat -> 0 <= i < 512 -> next (km_page m) n i = None -> entry (km_page m) n i = 0) ->
  (forall n, is_Some (own !! n) -> ref_of m n = 1) -> Z.of_nat (length T) <= km_cnt m ->
  exists m', free_pgdir (kpage r) m = Ret (0, m') /\ page_inv (reverse T ++ F) m' /\ km_cnt m' = km_cnt m - Z.of_nat (length T) /\
    NoDup T /\ r ∈ T /\ (forall x, x ∈ T -> is_Some (own !! x)) /\
    forall x, own !! x = None -> km_page m' !! (x * PAGE_SIZE) = km_page m !! (x * PAGE_SIZE) /\ ref_of m' x = ref_of m x.
Proof.
  intros T Hinv Hclean Href Hc. pose proof (pt_root _ _ _ _ Hinv) as Hr. pose proof (subtree_nodup own r F m Hinv 3 r 0 0 Hr eq_refl) as Hnd.
  assert (forall x, x ∈ T -> is_Some (own !! x)) as Hown.
  { intros x Hx. destruct (subtree_own own r F m Hinv 3 r 0 0 x Hr eq_refl Hx) as (l & pre & E & _). by exists (l, pre). }
  assert (intact (km_page m) T m) as Hin by (intros x Hx; split; [done|by apply Href, Hown]).
  destruct (wp_run _ _ _ (free_pt_pages_wp (km_page m) 3 r F m (tree_table_ok own r F m Hinv Hclean 3 r 0 0 Hr eq_refl) Hnd Hin (pt_pages _ _ _ _ Hinv) Hc))
    as ([] & m' & E & [P O C _]).
  exists m'. split; [|split; [exact P|]; split; [exact C|]; split; [exact Hnd|]; split; [|split; [exact Hown|]]].
  - unfold free_pgdir. rewrite kpage_eqb by (apply (pt_own _ _ _ _ Hinv r _ _ Hr)). unfold mbind, M_bind. by rewrite E.
  - unfold T. cbn [subtree]. apply elem_of_app. right. left.
  - intros x Hx. apply O. intros Hin'. destruct (Hown x Hin') as [? Hx']. congruence.
Qed.

(** The process of file [PagingDemo]: four tables and a user page, number 13. *)
Lemma subtree_single l m n k : (forall i, 0 <= i -> next m n i = if i =? 0 then Some k else None) -> subtree (S l) m n = subtree l m k ++ [n].
Proof.
  intros H. cbn [subtree]. f_equal. rewrite (seqZ_cons 0 512) by lia. cbn [fmap list_fmap concat]. rewrite H by lia. cbn [Z.eqb].
  replace (concat _) with (@nil Z); [by rewrite app_nil_r|]. symmetry. assert (forall i, i ∈ seqZ (Z.succ 0) (Z.pred 512) -> 0 < i) as Hi by (intros i Hi%elem_of_seqZ; lia).
  induction (seqZ (Z.succ 0) (Z.pred 512)) as [|i js IH]; [done|]. cbn [fmap list_fmap concat]. pose proof (Hi i ltac:(left)). rewrite H by lia.
  rewrite (proj2 (Z.eqb_neq i 0)) by lia. apply IH. intros j Hj. apply Hi. by right.
Qed.

Lemma demo_next_at l i : (l < 3)%nat -> 0 <= i -> next (km_page vm_demo_mem) (9 + Z.of_nat l) i = if i =? 0 then Some (10 + Z.of_nat l) else None.
Proof.
  intros Hl Hi. pose proof (demo_tables l ltac:(lia)) as Ht. rewrite decide_False in Ht by lia. apply demo_next; [lia|done| |done]. unfold page_no. rewrite NPAGES_eq. lia.
Qed.

Lemma demo_subtree : subtree 3 (km_page vm_demo_mem) 9 = [12; 11; 10; 9].
Proof.
  rewrite (subtree_single 2 _ 9 10), (subtree_single 1 _ 10 11), (subtree_single 0 _ 11 12); [reflexivity|intros i Hi..].
  - exact (demo_next_at 2 i ltac:(lia) Hi).
  - exact (demo_next_at 1 i ltac:(lia) Hi).
  - exact (demo_next_at 0 i ltac:(lia) Hi).
Qed.

Lemma demo_clean n l pre i : vm_demo_own !! n = Some (l, pre) -> (l < 3)%nat -> 0 <= i < 512 -> next (km_page vm_demo_mem) n i = None -> entry (km_page vm_demo_mem) n i = 0.
Proof.
  intros (-> & -> & Hl)%demo_own_cases Hl3 Hi. pose proof (demo_tables l Hl) as Ht. rewrite decide_False in Ht by lia.
  destruct (table_entry_spec (10 + Z.of_nat l)) as (Hv & _); [unfold page_no; rewrite NPAGES_eq; lia|].
  rewrite demo_next_at, (demo_entry _ (table_entry (10 + Z.of_nat l))) by (lia || assumption). destruct (i =? 0); [discriminate|reflexivity].
Qed.
Lemma demo_refs n : is_Some (vm_demo_own !! n) -> ref_of vm_demo_mem n = 1.
Proof.
  intros [[l pre] (_ & -> & Hl)%demo_own_cases]. assert (l = 0 \/ l = 1 \/ l = 2 \/ l = 3)%nat as [->|[->|[->| ->]]] by lia; reflexivity.
Qed.
Lemma demo_table_count : Z.of_nat (length (subtree 3 (km_page vm_demo_mem) 9)) <= km_cnt vm_demo_mem.
Proof. rewrite demo_subtree. cbn. lia. Qed.

Lemma free_pgdir_frees_tables_witness : exists m', free_pgdir (kpage 9) vm_demo_mem = Ret (0, m') /\
  page_inv (9 :: 10 :: 11 :: 12 :: free_pages) m' /\ ref_of m' 13 = 1.
Proof.
  destruct (free_pgdir_frees_tables vm_demo_own 9 free_pages vm_demo_mem vm_demo_inv demo_clean demo_refs demo_table_count) as (m' & H1 & H2 & _ & _ & _ & _ & H3).
  exists m'. split; [exact H1|]. rewrite demo_subtree in H2. split; [exact H2|]. rewrite (proj2 (H3 13 eq_refl)). reflexivity.
Defined.
