(* ===== verification/Fork.v ===== *)
(** * Copying an address space: the page loops of [fork] in [kernel/proc.c]

    The four nested loops go over the tables of the parent and copy every page
    into a table of the child.  The directory of the state is the new directory
    [temp]. *)

From Stdlib Require Import ZArith Lia.
From stdpp Require Import base tactics numbers gmap list.
From S2P Require Import Prelude Mem PageTable Paging.

Local Open Scope Z_scope.

(** [init_pgdir] of [kernel/pt.c], on a directory that was not in use. *)
Definition init_pgdir : VM unit :=
  pt ← mem kalloc_page;
  modify (vm_set_pt pt);;
  mem (clear_page pt);;
  modify (vm_set_sections []);;
  init_sections.

(** A loop over the valid entries of table [t]. *)
Definition fork_level (t : Z) (body : Z -> Z -> VM unit) : VM unit :=
  for_each (seqZ 0 N_PTE_PER_TABLE) (fun i =>
    e ← mem (load64 (pte_addr t i));
    if Z.land e PTE_VALID =? 0 then mret tt else body i e).

(** The body of the innermost loop, for the entry [e] of [va]. *)
Definition fork_page (va e : Z) : VM unit :=
  ASSERT (negb (Z.land e PTE_PAGE =? 0));;
  ASSERT (negb (Z.land e PTE_USER =? 0));;
  ASSERT (negb (Z.land e PTE_NORMAL =? 0));;
  np ← mem kalloc_page;
  ASSERT (negb (np =? 0));;
  bs ← mem (read_bytes (P2K (PTE_ADDRESS e)) (Z.to_nat PAGE_SIZE));
  mem (write_bytes np bs);;
  pte ← vm_get_pte va true;
  mem (store64 pte (Z.lor (K2P np) PTE_USER_DATA)).

Definition fork_va (i i1 i2 i3 : Z) : Z :=
  Z.lor (Z.lor (Z.lor (Z.shiftl i 39) (Z.shiftl i1 30)) (Z.shiftl i2 21)) (Z.shiftl i3 12).

(** The table that a valid entry leads to. *)
Definition fork_table (e : Z) (k : Z -> VM unit) : VM unit :=
  ASSERT (negb (Z.land e PTE_TABLE =? 0));; k (P2K (PTE_ADDRESS e)).

(** The loops; [pt] is the table of the parent. *)
Definition fork_copy (pt : Z) : VM unit :=
  fork_level pt (fun i e =>
    fork_table e (fun pgt1 => fork_level pgt1 (fun i1 e1 =>
      fork_table e1 (fun pgt2 => fork_level pgt2 (fun i2 e2 =>
        fork_table e2 (fun pgt3 => fork_level pgt3 (fun i3 e3 =>
          fork_page (fork_va i i1 i2 i3) e3))))))).

(** [temp] from [init_pgdir] on to the end of the loops. *)
Definition fork_memory (pt : Z) : VM unit := init_pgdir;; fork_copy pt.
