(* ===== verification/ForkProofs.v ===== *)
(** * The copy that [fork] makes of an address space *)

From Stdlib Require Import ZArith Lia.
From stdpp Require Import base tactics numbers gmap list.
From S2P Require Import Prelude Mem PageTable Paging PagingProofs Fork.

Local Open Scope Z_scope.

(** ** Virtual pages *)

(** The number of the virtual page with the four indices. *)
Definition vpn (i i1 i2 i3 : Z) : Z := ((i * 512 + i1) * 512 + i2) * 512 + i3.

Lemma fork_va_eq i i1 i2 i3 :
  0 <= i1 < 512 -> 0 <= i2 < 512 -> 0 <= i3 < 512 -> fork_va i i1 i2 i3 = vpn i i1 i2 i3 * PAGE_SIZE.
Proof.
  intros H1 H2 H3. unfold fork_va, vpn, PAGE_SIZE. pose proof (Z.shiftl_mul_pow2 i1 30 ltac:(lia)) as E1.
  pose proof (Z.shiftl_mul_pow2 i2 21 ltac:(lia)) as E2. pose proof (Z.shiftl_mul_pow2 i3 12 ltac:(lia)) as E3.
  rewrite (lor_shift i) by lia. replace (i * 2 ^ 39 + Z.shiftl i1 30) with (Z.shiftl (i * 512 + i1) 30) by (rewrite Z.shiftl_mul_pow2; lia).
  rewrite (lor_shift (i * 512 + i1)) by lia.
  replace ((i * 512 + i1) * 2 ^ 30 + Z.shiftl i2 21) with (Z.shiftl ((i * 512 + i1) * 512 + i2) 21) by (rewrite Z.shiftl_mul_pow2; lia).
  rewrite (lor_shift ((i * 512 + i1) * 512 + i2)) by lia. lia.
Qed.

(** The indices of a virtual page. *)
Lemma vpn_parts i i1 i2 i3 :
  0 <= i < 512 -> 0 <= i1 < 512 -> 0 <= i2 < 512 -> 0 <= i3 < 512 ->
  let va := vpn i i1 i2 i3 * PAGE_SIZE in VA_PART0 va = i /\ VA_PART1 va = i1 /\ VA_PART2 va = i2 /\ VA_PART3 va = i3.
Proof.
  intros H0 H1 H2 H3 va. destruct (VA_PARTS va) as (-> & -> & -> & ->). subst va. unfold vpn, PAGE_SIZE.
  split_and!; Z.div_mod_to_equations; lia.
Qed.

Lemma vpn_split v : 0 <= v < 2 ^ 36 -> exists i i1 i2 i3, 0 <= i < 512 /\ 0 <= i1 < 512 /\ 0 <= i2 < 512 /\ 0 <= i3 < 512 /\ v = vpn i i1 i2 i3.
Proof.
  intros Hv. exists (v / 512 / 512 / 512), ((v / 512 / 512) mod 512), ((v / 512) mod 512), (v mod 512). unfold vpn.
  split_and!; Z.div_mod_to_equations; lia.
Qed.

(** ** Loops over an index range *)

Lemma wp_for_range {S} (I : Z -> S -> Prop) (f : Z -> M S unit) n s :
  0 <= n -> I 0 s -> (forall i t, 0 <= i < n -> I i t -> wp (f i) (fun _ t' => I (i + 1) t') t) ->
  wp (for_each (seqZ 0 n) f) (fun _ t => I n t) s.
Proof.
  intros Hn HI Hf. assert (forall k i t, 0 <= i -> i + Z.of_nat k = n -> I i t -> wp (for_each (seqZ i (Z.of_nat k)) f) (fun _ t' => I n t') t) as H.
  { induction k as [|k IH]; intros i t Hi Hk HIi.
    - rewrite seqZ_nil by lia. replace i with n in HIi by lia. exact HIi.
    - rewrite seqZ_cons by lia. cbn [for_each]. wp_prim. eapply wp_mono; [apply Hf; [lia|exact HIi]|]. intros [] t' HI'.
      replace (Z.pred (Z.of_nat (Datatypes.S k))) with (Z.of_nat k) by lia. rewrite <-Z.add_1_r. apply IH; [lia|lia|done]. }
  specialize (H (Z.to_nat n) 0 s ltac:(lia) ltac:(lia) HI). by rewrite Z2Nat.id in H.
Qed.

(** ** The tables of the child *)

Lemma own_not_free own r F m x l : pt_inv own r F m -> own !! x = Some l -> x ∉ F.
Proof. intros H Hx. destruct l as [l pre]. apply (pt_own _ _ _ _ H x l pre Hx). Qed.

Lemma empty_root n F m : page_inv F m -> page_no n -> (n ∉ F) -> km_page m !! (n * PAGE_SIZE) = Some zero_page ->
  pt_inv {[ n := (0%nat, 0) ]} n F m /\ forall va, pte_of (km_page m) n va = 0.
Proof.
  intros Hp Hn HnF Hm. assert (forall i, entry (km_page m) n i = 0) as He by (intros i; unfold entry; rewrite Hm; apply read_le_zeros).
  assert (forall i, next (km_page m) n i = None) as Hx by (intros i; by apply next_zero). split.
  - split; [done|by rewrite lookup_singleton_eq| |].
    + intros k l pre [<- [= <- <-]]%lookup_singleton_Some. split; [done|]. split; [lia|]. split; [done|]. exists zero_page. split; [done|apply length_zero_page].
    + intros k l pre i t [<- _]%lookup_singleton_Some _ _ Hk. by rewrite Hx in Hk.
  - intros va. unfold pte_of, walk. by rewrite Hx.
Qed.

(** ** The loops *)

(** The entry of the parent at a virtual page: a user page that is in use and
    is not free. *)
Record user_entry (F : list Z) (m : kmem) (e : Z) : Prop := {
  ue_user : Z.land e PTE_USER <> 0;
  ue_normal : Z.land e PTE_NORMAL <> 0;
  ue_page : exists k pg, PTE_ADDRESS e = k * PAGE_SIZE /\ page_no k /\ (k ∉ F) /\ page_at (km_page m) k pg }.

(** The number of pages of [L] from [c] on. *)
Definition todo (L : list Z) (c : Z) : nat := length (filter (fun v => c <= v) L).

Lemma todo_mono L c c' : c <= c' -> (todo L c' <= todo L c)%nat.
Proof.
  intros H. unfold todo. induction L as [|v l IH]; [done|]. rewrite !filter_cons. repeat case_decide; cbn [length]; lia.
Qed.

Lemma todo_step L v : v ∈ L -> (S (todo L (v + 1)) <= todo L v)%nat.
Proof.
  induction L as [|w l IH]; intros Hv; [by apply elem_of_nil in Hv|]. pose proof (todo_mono l v (v + 1) ltac:(lia)). unfold todo in *.
  rewrite !filter_cons. apply elem_of_cons in Hv as [<-|Hv].
  - rewrite decide_False, decide_True by lia. cbn [length]. lia.
  - specialize (IH Hv). repeat case_decide; cbn [length]; lia.
Qed.

Section copying.
Context (own0 : gmap Z (nat * Z)) (r0 : Z) (F0 : list Z) (m0 : kmem) (L : list Z) (rc : Z).
Hypothesis Hinv0 : pt_inv own0 r0 F0 m0.

(** What the parent has at virtual page [v]. *)
Definition parent (v : Z) : Z := pte_of (km_page m0) r0 (v * PAGE_SIZE).

Hypothesis Huser : forall v, 0 <= v < 2 ^ 36 -> valid (parent v) -> user_entry F0 m0 (parent v).
(** [L] has all pages of the parent. *)
Hypothesis HL : forall v, 0 <= v < 2 ^ 36 -> valid (parent v) -> v ∈ L.

(** Page [n] of the child is a private copy of the parent's page at [v]. *)
Record copy_of (m : kmem) (v n : Z) : Prop := {
  co_new : n ∈ F0;
  co_ref : ref_of m n = 1;
  co_same : exists k pg, PTE_ADDRESS (parent v) = k * PAGE_SIZE /\ page_at (km_page m0) k pg /\ page_at (km_page m) n pg }.

(** The pages below [c] are copied under the root table [rc]: [D] gives the page
    for each. *)
Record copied (c : Z) (own : gmap Z (nat * Z)) (F : list Z) (D : gmap Z Z) (s : vm) : Prop := {
  cp_root : vm_pt s = kpage rc;
  cp_tables : pt_inv own rc F (vm_mem s);
  cp_own : forall x l, own !! x = Some l -> x ∈ F0;
  cp_free : F ⊆ F0;
  cp_frame : forall x, x ∉ F0 -> km_page (vm_mem s) !! (x * PAGE_SIZE) = km_page m0 !! (x * PAGE_SIZE) /\ ref_of (vm_mem s) x = ref_of m0 x;
  cp_pte : forall v, 0 <= v < 2 ^ 36 -> pte_of (km_page (vm_mem s)) rc (v * PAGE_SIZE) =
    match D !! v with Some n => Z.lor (n * PAGE_SIZE) PTE_USER_DATA | None => 0 end;
  cp_dom : forall v, 0 <= v < 2 ^ 36 -> is_Some (D !! v) <-> v < c /\ valid (parent v);
  cp_copy : forall v n, D !! v = Some n -> (n ∉ F) /\ own !! n = None /\ copy_of (vm_mem s) v n;
  cp_inj : forall v v' n, D !! v = Some n -> D !! v' = Some n -> v = v';
  cp_budget : (4 * todo L c <= length F)%nat }.

Definition copying (c : Z) (s : vm) : Prop := exists own F D, copied c own F D s.

(** Pages that the parent does not have are passed over. *)
Lemma copying_skip c c' s : c <= c' -> (forall v, c <= v < c' -> 0 <= v < 2 ^ 36 -> ~ valid (parent v)) -> copying c s -> copying c' s.
Proof.
  intros Hc Hv (own & F & D & []). exists own, F, D. split; try done.
  - intros v Hr. rewrite cp_dom0 by done. split; intros [H1 H2]; (split; [|done]); [lia|]. destruct (Z.lt_ge_cases v c); [done|]. exfalso. by apply (Hv v).
  - pose proof (todo_mono L c c' Hc). lia.
Qed.

Lemma vpage_range v : 0 <= v < 2 ^ 36 -> 0 <= v * PAGE_SIZE < 2 ^ 48.
Proof. unfold PAGE_SIZE. lia. Qed.

(** A new page with the content of the parent's page: the first half of the
    body of the innermost loop. *)
Lemma fork_new_page_wp {A} own n F m s k pg (c : Z -> VM A) (Q : A -> vm -> Prop) :
  vm_mem s = m -> pt_inv own rc (n :: F) m -> page_no k -> (k ∉ n :: F) -> page_at (km_page m) k pg ->
  (forall m', pt_inv own rc F m' -> pt_kept rc m m' -> ref_of m' n = 1 -> page_at (km_page m') n pg ->
    (forall x, x <> n -> km_page m' !! (x * PAGE_SIZE) = km_page m !! (x * PAGE_SIZE) /\ ref_of m' x = ref_of m x) -> wp (c (kpage n)) Q (vm_set_mem m' s)) ->
  wp (np ← mem kalloc_page; ASSERT (negb (np =? 0));; bs ← mem (read_bytes (kpage k) (Z.to_nat PAGE_SIZE)); mem (write_bytes np bs);; c np) Q s.
Proof.
  intros Em T0 Hk HkF Hpg HQ. pose proof (pt_pages _ _ _ _ T0) as P0. assert (page_no n) as Hn by (apply (pi_range _ _ P0); left).
  pose proof (pi_nodup _ _ P0) as [HnF _]%NoDup_cons. destruct (pi_stack _ _ P0) as (_ & pgn & Hpgn & _). destruct Hpg as [Hpg Hlen].
  wp_prim. apply wp_mem. rewrite Em. eapply wp_mono; [by apply (kalloc_page_wp n F)|]. intros p m1 (-> & P1 & Rn & Rk & Em1 & _).
  rewrite kpage_eqb by done. cbn [negb]. wp_prims. split; [done|]. wp_prim. apply wp_mem. cbn [vm_mem vm_set_mem].
  rewrite <-(Z.add_0_r (kpage k)). eapply (wp_read_bytes k 0 _ pg); [done|unfold PAGE_SIZE; lia|unfold PAGE_SIZE; lia|split; [by rewrite Em1|done]|].
  change (Z.to_nat 0) with 0%nat. rewrite drop_0, take_ge by lia. wp_prim. apply wp_mem. cbn [vm_mem vm_set_mem].
  rewrite <-(Z.add_0_r (kpage n)). eapply (wp_write_bytes n 0 _ pgn); [done|unfold PAGE_SIZE; lia|rewrite Hlen; unfold PAGE_SIZE; lia|by rewrite Em1|].
  change (Z.to_nat 0) with 0%nat. rewrite splice_all by (rewrite Hlen; symmetry; apply Hpgn). rewrite Z.add_0_r.
  set (m2 := set_page _ m1). assert (page_inv F m2) as P2 by by apply page_inv_write.
  assert (forall x, x <> n -> km_page m2 !! (x * PAGE_SIZE) = km_page m !! (x * PAGE_SIZE)) as Hx.
  { intros x Hx. unfold m2. cbn [km_page set_page]. rewrite lookup_insert_ne by (unfold PAGE_SIZE; lia). by rewrite Em1. }
  destruct (pt_frame own rc (n :: F) m F m2 T0 P2) as (T2 & _ & K2).
  { intros x l pre Hl. pose proof (own_not_free _ _ _ _ _ _ T0 Hl) as Hf. apply not_elem_of_cons in Hf as [Hne Hf]. split; [done|by apply Hx]. }
  apply (HQ m2); try done; [by apply page_at_insert_eq|]. intros x Hne. split; [by apply Hx|by apply Rk].
Qed.

(** Page [n] is added to the child. *)
Lemma copied_add v own n F D s own' F' s' :
  copied v own (n :: F) D s -> 0 <= v < 2 ^ 36 -> valid (parent v) -> vm_pt s' = kpage rc -> pt_inv own' rc F' (vm_mem s') ->
  F' ⊆ F -> (length F <= length F' + 3)%nat -> (forall x, x ∉ F -> own' !! x = own !! x) ->
  (forall x, x <> n -> x ∉ F -> own !! x = None -> km_page (vm_mem s') !! (x * PAGE_SIZE) = km_page (vm_mem s) !! (x * PAGE_SIZE) /\ ref_of (vm_mem s') x = ref_of (vm_mem s) x) ->
  copy_of (vm_mem s') v n -> pte_of (km_page (vm_mem s')) rc (v * PAGE_SIZE) = Z.lor (n * PAGE_SIZE) PTE_USER_DATA ->
  (forall v', 0 <= v' < 2 ^ 36 -> v' <> v -> pte_of (km_page (vm_mem s')) rc (v' * PAGE_SIZE) = pte_of (km_page (vm_mem s)) rc (v' * PAGE_SIZE)) ->
  copied (v + 1) own' F' (<[v := n]> D) s'.
Proof.
  intros [Hrc Ht Ho HF Hfr Hpte Hdom Hcp Hinj Hb] Hv Hval Hpt I HF' HlF Ho' Hx Hc M1 M2.
  pose proof (todo_step L v (HL v Hv Hval)) as Hstep.
  pose proof (pi_nodup _ _ (pt_pages _ _ _ _ Ht)) as [HnF _]%NoDup_cons.
  assert (forall x l, own !! x = Some l -> x <> n) as Hnx. { intros x l Hl ->. destruct (own_not_free _ _ _ _ _ _ Ht Hl). left. }
  split; [done|done|..].
  - intros x l Hl. destruct (decide (x ∈ F)) as [HxF|HxF]; [set_solver|]. rewrite Ho' in Hl by done. by eapply Ho.
  - set_solver.
  - intros x Hx0. destruct (Hfr x Hx0) as [<- <-]. apply Hx; [set_solver|set_solver|]. destruct (own !! x) as [l|] eqn:E; [|done]. by destruct Hx0; eapply Ho.
  - intros v' Hv'. destruct (decide (v' = v)) as [->|Hne]; [by rewrite lookup_insert_eq|].
    rewrite lookup_insert_ne, M2 by done. by apply Hpte.
  - intros v' Hv'. destruct (decide (v' = v)) as [->|Hne]; [rewrite lookup_insert_eq; split; [split; [lia|done]|eauto]|].
    rewrite lookup_insert_ne, Hdom by done. split; intros [H1 H2]; (split; [lia|done]).
  - intros v' n' [[<- <-]|[Hne Hn']]%lookup_insert_Some.
    + split; [intros Hin; by apply HnF, HF'|]. split; [|done]. rewrite Ho' by done. destruct (own !! n) as [l|] eqn:E; [|done]. by destruct (Hnx n l E).
    + destruct (Hcp _ _ Hn') as (H1 & H2 & [C1 C2 (k & pg & C3 & C4 & [C5 C6])]). apply not_elem_of_cons in H1 as [H0 H1].
      destruct (Hx n' H0 H1 H2) as [E1 E2]. split; [intros Hin; by apply H1, HF'|]. split; [by rewrite Ho'|]. split; [done|by rewrite E2|].
      exists k, pg. split; [done|]. split; [done|]. split; [by rewrite E1|done].
  - assert (forall w, D !! w <> Some n) as Hfresh. { intros w Hw. destruct (Hcp _ _ Hw) as [H1 _]. destruct H1. left. }
    intros v1 v2 n' H1 H2. apply lookup_insert_Some in H1 as [[<- E1]|[_ H1]], H2 as [[<- E2]|[_ H2]]; subst; [done|by destruct (Hfresh v2)|by destruct (Hfresh v1)|by eapply Hinj].
  - cbn [length] in Hb. lia.
Qed.

(** The body of the innermost loop copies one page. *)
Lemma fork_page_wp v s : 0 <= v < 2 ^ 36 -> valid (parent v) -> copying v s ->
  wp (fork_page (v * PAGE_SIZE) (parent v)) (fun _ s' => copying (v + 1) s') s.
Proof.
  intros Hv Hval (own & F & D & HC). pose proof HC as [Hrc Ht Ho HF Hfr Hpte Hdom Hcp Hinj Hb]. destruct (Huser v Hv Hval) as [U1 U2 (k & pg & Ea & Hk & HkF & Hpg)].
  pose proof (todo_step L v (HL v Hv Hval)) as Hstep. destruct F as [|n F]; [cbn in Hb; lia|]. cbn [length] in Hb.
  pose proof (vpage_range v Hv) as Hva.
  assert (page_no n) as Hn by (apply (pi_range _ _ (pt_pages _ _ _ _ Ht)); left).
  pose proof (pi_nodup _ _ (pt_pages _ _ _ _ Ht)) as [HnF _]%NoDup_cons.
  assert (n ∈ F0) as HnF0 by (apply HF; left). assert (k <> n) as Hkn by congruence.
  assert (own !! n = None) as Hno. { destruct (own !! n) as [l|] eqn:E; [|done]. destruct (own_not_free _ _ _ _ _ _ Ht E). left. }
  pose proof (valid_table _ Hval) as U3. fold PTE_PAGE in U3.
  unfold fork_page, vm_get_pte. rewrite Ea, P2K_page by done. rewrite (proj2 (Z.eqb_neq _ 0) U1), (proj2 (Z.eqb_neq _ 0) U2), (proj2 (Z.eqb_neq _ 0) U3).
  do 3 (wp_prims; split; [done|]). apply (fork_new_page_wp own n F (vm_mem s) s k pg); [done|done|done|intros Hin; by apply HkF, HF| |].
  { unfold page_at. rewrite (proj1 (Hfr k HkF)). exact Hpg. }
  intros m2 T2 K2 Rn Hpn Hx2. wp_prims. cbn [vm_pt vm_set_mem]. rewrite Hrc. apply wp_mem.
  eapply wp_mono; [apply (get_pte_alloc_wp own rc F m2 (v * PAGE_SIZE) T2); lia|].
  intros res m3 (own' & F' & t3 & -> & I3 & Ht3 & Hw & K3 & HF3 & HlF & V3 & T3). cbn [fst snd]. wp_prims.
  destruct (pt_own _ _ _ _ I3 _ _ _ Ht3) as (Hno3 & _ & Ht3F & pg3 & Hpg3). destruct (VA_PART_range (v * PAGE_SIZE)) as (_ & _ & _ & R3).
  apply wp_mem. cbn [vm_mem vm_set_mem vm_set_pt]. rewrite K2P_page by done. eapply wp_store_entry; [done|done|exact Hpg3|].
  destruct (leaf_maps own' rc F' m3 t3 (v * PAGE_SIZE) (Z.lor (n * PAGE_SIZE) PTE_USER_DATA) pg3 I3 Hva Ht3 Hw
    ltac:(apply pte_value_u64; [done|apply PTE_USER_DATA_flags]) Hpg3) as [I4 [M1 M2]].
  set (m4 := set_page _ m3) in *.
  exists own', F', (<[v := n]> D). apply (copied_add v own n F D s own' F'); try done; cbn [vm_mem vm_set_mem vm_set_pt vm_pt].
  - intros x Hx. by apply T3.
  - intros x Hne HxF Hxo. destruct (T3 x HxF) as [E1 E2]. destruct (Hx2 x Hne) as [E3 E4].
    assert (x <> t3) by (intros ->; congruence). split; [|change (ref_of m4 x) with (ref_of m3 x); by rewrite V3, E4].
    unfold m4. cbn [km_page set_page]. rewrite lookup_insert_ne by (unfold PAGE_SIZE; lia). by rewrite E2, E3.
  - assert (n <> t3) as Hnt. { intros ->. rewrite (proj1 (T3 t3 HnF)) in Ht3. congruence. }
    split; [done|change (ref_of m4 n) with (ref_of m3 n); by rewrite V3|]. exists k, pg. split; [done|]. split; [done|].
    apply page_at_insert_ne; [done|]. unfold page_at. by rewrite (proj2 (T3 n HnF) Hno).
  - intros v' Hv' Hne. rewrite M2, (K3 (v' * PAGE_SIZE)), (K2 (v' * PAGE_SIZE)); [done|by apply vpage_range|]. rewrite !Z.div_mul by done. done.
Qed.

(** ** The levels *)

Lemma valid_next t i : next (km_page m0) t i = if decide (valid (entry (km_page m0) t i)) then Some (PTE_ADDRESS (entry (km_page m0) t i) / PAGE_SIZE) else None.
Proof. unfold next, valid. destruct (Z.eqb_spec (Z.land (entry (km_page m0) t i) PTE_VALID) 0); case_decide; done. Qed.

Lemma not_valid_next t i : ~ valid (entry (km_page m0) t i) -> next (km_page m0) t i = None.
Proof. intros H. by rewrite valid_next, decide_False. Qed.

(** A loop over the entries of a table of the parent whose entries stand for
    [W] pages each. *)
Lemma fork_level_wp t l pre W body s :
  own0 !! t = Some (l, pre) -> 0 < W ->
  (forall i v, 0 <= i < 512 -> ~ valid (entry (km_page m0) t i) -> (pre * 512 + i) * W <= v < (pre * 512 + i + 1) * W -> 0 <= v < 2 ^ 36 -> ~ valid (parent v)) ->
  (forall i s, 0 <= i < 512 -> valid (entry (km_page m0) t i) -> copying ((pre * 512 + i) * W) s ->
    wp (body i (entry (km_page m0) t i)) (fun _ s' => copying ((pre * 512 + i + 1) * W) s') s) ->
  copying (pre * 512 * W) s -> wp (fork_level (kpage t) body) (fun _ s' => copying ((pre + 1) * 512 * W) s') s.
Proof.
  intros Ht HW Hskip Hbody Hc. destruct (pt_own _ _ _ _ Hinv0 t l pre Ht) as (Hno & _ & HtF & pg & Hpg). unfold fork_level.
  replace ((pre + 1) * 512 * W) with ((pre * 512 + 512) * W) by lia.
  apply (wp_for_range (fun i => copying ((pre * 512 + i) * W))); [done|by rewrite Z.add_0_r|].
  intros i s' Hi Hci. change N_PTE_PER_TABLE with 512 in Hi. pose proof Hci as (own & F & D & HC).
  pose proof (proj1 (cp_frame _ _ _ _ _ HC t HtF)) as Et.
  assert (entry (km_page (vm_mem s')) t i = entry (km_page m0) t i) as Ee by (unfold entry; by rewrite Et).
  wp_prim. apply wp_mem. eapply wp_load_entry; [done|done|unfold page_at; rewrite Et; exact Hpg|]. rewrite Ee.
  assert (vm_set_mem (vm_mem s') s' = s') as -> by by destruct s'. rewrite Z.add_assoc.
  destruct (Z.eqb_spec (Z.land (entry (km_page m0) t i) PTE_VALID) 0) as [E|E]; [|by apply Hbody].
  wp_prim. eapply copying_skip; [| |exact Hci]; [nia|]. intros v H1 H2. apply (Hskip i); [done| |done|done]. by intros H.
Qed.

(** From an entry to the table below. *)
Lemma fork_table_wp t l pre i (k : Z -> VM unit) (Q : unit -> vm -> Prop) s :
  own0 !! t = Some (l, pre) -> (l < 3)%nat -> 0 <= i < 512 -> valid (entry (km_page m0) t i) ->
  (forall t', own0 !! t' = Some (S l, pre * 512 + i) -> next (km_page m0) t i = Some t' -> wp (k (kpage t')) Q s) ->
  wp (fork_table (entry (km_page m0) t i) k) Q s.
Proof.
  intros Ht Hl Hi Hv Hk. assert (next (km_page m0) t i = Some (PTE_ADDRESS (entry (km_page m0) t i) / PAGE_SIZE)) as Hn by by rewrite valid_next, decide_True.
  destruct (pt_next _ _ _ _ Hinv0 t l pre i _ Ht Hl Hi Hn) as [Ht' Ea]. set (t' := _ / PAGE_SIZE) in *.
  assert (page_no t') as Hno by apply (pt_own _ _ _ _ Hinv0 t' _ _ Ht'). unfold fork_table. rewrite Ea, P2K_page by done.
  pose proof (valid_table _ Hv) as U. fold PTE_TABLE in U. rewrite (proj2 (Z.eqb_neq _ 0) U). wp_prims. split; [done|]. by apply Hk.
Qed.

(** The parent's entry through the tables of its indices. *)
Lemma parent_vpn i i1 i2 i3 : 0 <= i < 512 -> 0 <= i1 < 512 -> 0 <= i2 < 512 -> 0 <= i3 < 512 ->
  parent (vpn i i1 i2 i3) = match (t1 ← next (km_page m0) r0 i; t2 ← next (km_page m0) t1 i1; next (km_page m0) t2 i2) with
    | Some t3 => entry (km_page m0) t3 i3 | None => 0 end.
Proof. intros H0 H1 H2 H3. unfold parent, pte_of, walk. by destruct (vpn_parts i i1 i2 i3 H0 H1 H2 H3) as (-> & -> & -> & ->). Qed.

Ltac no_page v Hv := destruct (vpn_split v Hv) as (?j & ?j1 & ?j2 & ?j3 & ?J0 & ?J1 & ?J2 & ?J3 & ->); rewrite parent_vpn by done; unfold vpn in *.

Lemma fork_copy_wp s : copying 0 s -> wp (fork_copy (kpage r0)) (fun _ s' => copying (2 ^ 36) s') s.
Proof.
  intros Hc. pose proof (pt_root _ _ _ _ Hinv0) as Hr. unfold fork_copy.
  apply (fork_level_wp r0 0 0 (512 * 512 * 512)); [done|lia| | |exact Hc].
  { intros i v Hi He Hr1 Hv. no_page v Hv. assert (j = i) as -> by lia. rewrite (not_valid_next _ _ He). apply not_valid_0. }
  intros i s1 Hi Hv1 Hc1. eapply fork_table_wp; [exact Hr|lia|done|done|]. intros t1 Ht1 N1.
  replace ((0 * 512 + i + 1) * (512 * 512 * 512)) with ((i + 1) * 512 * (512 * 512)) by lia.
  apply (fork_level_wp t1 1 i (512 * 512)); [exact Ht1|lia| | |by replace (i * 512 * (512 * 512)) with ((0 * 512 + i) * (512 * 512 * 512)) by lia].
  { intros i1 v Hi1 He Hr1 Hv. no_page v Hv. assert (j = i) as -> by lia. assert (j1 = i1) as -> by lia. rewrite N1. cbn [mbind option_bind].
    rewrite (not_valid_next _ _ He). apply not_valid_0. }
  intros i1 s2 Hi1 Hv2 Hc2. eapply fork_table_wp; [exact Ht1|lia|done|done|]. intros t2 Ht2 N2.
  replace ((i * 512 + i1 + 1) * (512 * 512)) with ((i * 512 + i1 + 1) * 512 * 512) by lia.
  apply (fork_level_wp t2 2 (i * 512 + i1) 512); [exact Ht2|lia| | |by replace ((i * 512 + i1) * 512 * 512) with ((i * 512 + i1) * (512 * 512)) by lia].
  { intros i2 v Hi2 He Hr1 Hv. no_page v Hv. assert (j = i) as -> by lia. assert (j1 = i1) as -> by lia. assert (j2 = i2) as -> by lia.
    rewrite N1. cbn [mbind option_bind]. rewrite N2. cbn [mbind option_bind]. rewrite (not_valid_next _ _ He). apply not_valid_0. }
  intros i2 s3 Hi2 Hv3 Hc3. eapply fork_table_wp; [exact Ht2|lia|done|done|]. intros t3 Ht3 N3.
  assert (forall i3, 0 <= i3 < 512 -> parent (vpn i i1 i2 i3) = entry (km_page m0) t3 i3) as Hp.
  { intros i3 Hi3. rewrite parent_vpn by done. rewrite N1. cbn [mbind option_bind]. rewrite N2. cbn [mbind option_bind]. by rewrite N3. }
  replace (((i * 512 + i1) * 512 + i2 + 1) * 512) with (((i * 512 + i1) * 512 + i2 + 1) * 512 * 1) by lia.
  apply (fork_level_wp t3 3 ((i * 512 + i1) * 512 + i2) 1); [exact Ht3|lia| | |by rewrite Z.mul_1_r].
  { intros i3 v Hi3 He Hr1 Hv. assert (v = vpn i i1 i2 i3) as -> by (unfold vpn; lia). by rewrite Hp. }
  intros i3 s4 Hi3 Hv4 Hc4. rewrite fork_va_eq by done. rewrite <-Hp in * by done. rewrite Z.mul_1_r in *. fold (vpn i i1 i2 i3) in *.
  apply fork_page_wp; [unfold vpn; lia|done|done].
Qed.

Lemma init_pgdir_wp n F s :
  page_inv (n :: F) (vm_mem s) ->
  wp init_pgdir (fun _ s' => vm_pt s' = kpage n /\ page_inv F (vm_mem s') /\ km_page (vm_mem s') = <[n * PAGE_SIZE := zero_page]> (km_page (vm_mem s)) /\
    (forall k, k <> n -> ref_of (vm_mem s') k = ref_of (vm_mem s) k)) s.
Proof.
  intros Hp. pose proof (alloc_table_wp n F (vm_mem s) Hp) as W. unfold alloc_table in W. apply wp_bind in W.
  unfold init_pgdir, init_sections. wp_prim. apply wp_mem. eapply wp_mono; [exact W|]. cbn beta. intros p m1 W1. apply wp_bind in W1. wp_prims.
  apply wp_mem. cbn [vm_mem vm_set_mem vm_set_pt]. eapply wp_mono; [exact W1|]. cbn beta. intros [] m2 (-> & H1 & H2 & H3 & _). wp_prims. done.
Qed.

Hypothesis HF0 : (4 * length L + 1 <= length F0)%nat.

Lemma fork_memory_wp F1 s : F0 = rc :: F1 -> vm_mem s = m0 -> wp (fork_memory (kpage r0)) (fun _ s' => copying (2 ^ 36) s') s.
Proof.
  intros EF Em. pose proof (pt_pages _ _ _ _ Hinv0) as P0. rewrite EF in P0.
  assert (page_no rc) as Hn by (apply (pi_range _ _ P0); left). pose proof (pi_nodup _ _ P0) as [HnF _]%NoDup_cons.
  assert (rc ∈ F0) as HnF0 by (rewrite EF; left). assert (F1 ⊆ F0) as HF by (rewrite EF; intros x Hx; by right).
  unfold fork_memory. wp_prim. eapply wp_mono; [apply (init_pgdir_wp rc F1); by rewrite Em|].
  intros [] s1 (Hpt & P1 & Em1 & R1). rewrite Em in Em1, R1. apply fork_copy_wp.
  destruct (empty_root rc F1 (vm_mem s1) P1 Hn HnF ltac:(by rewrite Em1, lookup_insert_eq)) as [I1 Z1].
  exists {[ rc := (0%nat, 0) ]}, F1, ∅. split; [done|done|..].
  - by intros x l [<- _]%lookup_singleton_Some.
  - done.
  - intros x Hx. assert (x <> rc) by congruence. split; [|by apply R1]. rewrite Em1, lookup_insert_ne by (unfold PAGE_SIZE; lia). done.
  - intros v Hv. apply Z1.
  - intros v Hv. rewrite lookup_empty. split; [intros [? ?]; done|lia].
  - intros v k Hk. by rewrite lookup_empty in Hk.
  - intros v v' k Hk. by rewrite lookup_empty in Hk.
  - unfold todo. pose proof (length_filter (fun v => 0 <= v) L). pose proof HF0 as Hl. rewrite EF in Hl. cbn [length] in Hl. lia.
Qed.
End copying.

(** ** The result *)

(** The space under [r'] in [m'] is a copy of the one under [r] in [m] on pages of
    [F] of its own: [D] gives the page of every virtual page. *)
Definition duplicated (r r' : Z) (F : list Z) (m m' : kmem) (D : gmap Z Z) : Prop :=
  (forall v v' n, D !! v = Some n -> D !! v' = Some n -> v = v') /\
  forall va, 0 <= va < 2 ^ 48 ->
    match D !! (va / PAGE_SIZE) with
    | Some n => valid (pte_of (km_page m) r va) /\ pte_of (km_page m') r' va = Z.lor (n * PAGE_SIZE) PTE_USER_DATA /\
        n ∈ F /\ ref_of m' n = 1 /\
        exists k pg, PTE_ADDRESS (pte_of (km_page m) r va) = k * PAGE_SIZE /\ page_at (km_page m) k pg /\ page_at (km_page m') n pg
    | None => ~ valid (pte_of (km_page m) r va) /\ pte_of (km_page m') r' va = 0
    end.

(** Memory that the parent can have: its entries are user pages, its pages are
    in the list [L], and there are enough free pages. *)
Record forkable (own : gmap Z (nat * Z)) (r : Z) (F L : list Z) (m : kmem) : Prop := {
  fk_tables : pt_inv own r F m;
  fk_user : forall va, 0 <= va < 2 ^ 48 -> valid (pte_of (km_page m) r va) -> user_entry F m (pte_of (km_page m) r va);
  fk_pages : forall va, 0 <= va < 2 ^ 48 -> valid (pte_of (km_page m) r va) -> va / PAGE_SIZE ∈ L;
  fk_free : (4 * length L + 1 <= length F)%nat }.

(** What the loops of [fork] leave: two spaces with tables of their own, and
    nothing else changed. *)
Record forked (own : gmap Z (nat * Z)) (r : Z) (F : list Z) (m : kmem) (r' : Z) (m' : kmem) : Prop := {
  fd_tables : exists own' F', pt_inv own' r' F' m' /\ pt_inv own r F' m' /\ F' ⊆ F;
  fd_frame : forall x, x ∉ F -> km_page m' !! (x * PAGE_SIZE) = km_page m !! (x * PAGE_SIZE) /\ ref_of m' x = ref_of m x;
  fd_parent : forall va, pte_of (km_page m') r va = pte_of (km_page m) r va;
  fd_copy : exists D, duplicated r r' F m m' D }.

Lemma fork_memory_forked own r F L s :
  forkable own r F L (vm_mem s) ->
  wp (fork_memory (kpage r)) (fun _ s' => exists r', vm_pt s' = kpage r' /\ forked own r F (vm_mem s) r' (vm_mem s')) s.
Proof.
  intros [Hinv Hu HL HF]. assert (exists rc F1, F = rc :: F1) as (rc & F1 & EF) by (destruct F; [cbn in HF; lia|eauto]).
  assert (forall v, 0 <= v < 2 ^ 36 -> v * PAGE_SIZE / PAGE_SIZE = v /\ 0 <= v * PAGE_SIZE < 2 ^ 48) as Hv by (intros v Hv; split; [by apply Z.div_mul|by apply vpage_range]).
  eapply wp_mono; [apply (fork_memory_wp own r F (vm_mem s) L rc Hinv) with (F1 := F1); [| |done|done|done]|].
  - intros v Hr Hval. apply Hu; [by apply Hv|exact Hval].
  - intros v Hr Hval. destruct (Hv v Hr) as [E Hr']. rewrite <-E. by apply HL.
  - intros [] s' (own' & F' & D & [Hrc Ht Ho Hf Hfr Hpte Hdom Hcp Hinj Hb]). exists rc. split; [done|].
    destruct (pt_frame own r F (vm_mem s) F' (vm_mem s') Hinv (pt_pages _ _ _ _ Ht)) as (I' & _ & K').
    { intros x l pre Hx. pose proof (own_not_free _ _ _ _ _ _ Hinv Hx) as HxF. split; [intros Hin; by apply HxF, Hf|by apply Hfr]. }
    split; [by exists own', F'|done|done|]. exists D. split; [done|]. intros va Hva.
    assert (0 <= va / PAGE_SIZE < 2 ^ 36) as Hr by (unfold PAGE_SIZE; Z.div_mod_to_equations; lia).
    rewrite (pte_of_page (km_page (vm_mem s)) r va), (pte_of_page (km_page (vm_mem s')) rc va), Hpte by done. pose proof (Hdom _ Hr) as Hd. unfold parent in *.
    destruct (D !! (va / PAGE_SIZE)) as [n|] eqn:E.
    + destruct (Hcp _ _ E) as (_ & _ & [C1 C2 C3]). split; [by apply Hd; eauto|]. done.
    + split; [|done]. intros Hval. destruct (proj2 Hd) as [? ?]; [split; [lia|done]|done].
Qed.
