(* ===== verification/UserMem.v ===== *)
(** * User memory: [copyout] and accesses through the current table

    A user address space is a tree of tables whose pages belong to it alone.
    [ubyte] is the byte that a process sees at an address; [copyout] and stores of
    the kernel to user addresses change exactly the bytes they are given. *)

From Stdlib Require Import ZArith Lia.
From stdpp Require Import base tactics numbers gmap list.
From S2P Require Import Prelude Mem PageTable Paging PagingProofs Fork ForkProofs.

Local Open Scope Z_scope.

(** ** Address spaces *)

(** [U] gives the page behind every mapped virtual page. *)
Record space (own : gmap Z (nat * Z)) (r : Z) (F : list Z) (m : kmem) (U : gmap Z Z) : Prop := {
  us_tables : pt_inv own r F m;
  us_map : forall v, 0 <= v < 2 ^ 36 -> match U !! v with
    | Some n => valid (pte_of (km_page m) r (v * PAGE_SIZE)) /\ PTE_ADDRESS (pte_of (km_page m) r (v * PAGE_SIZE)) = n * PAGE_SIZE
    | None => ~ valid (pte_of (km_page m) r (v * PAGE_SIZE)) end;
  us_page : forall v n, U !! v = Some n -> 0 <= v < 2 ^ 36 /\ page_no n /\ (n ∉ F) /\ own !! n = None /\ exists pg, page_at (km_page m) n pg;
  us_inj : forall v v' n, U !! v = Some n -> U !! v' = Some n -> v = v' }.

(** The byte at user address [x]. *)
Definition ubyte (m : kmem) (U : gmap Z Z) (x : Z) : option Z :=
  n ← U !! (x / PAGE_SIZE); pg ← km_page m !! (n * PAGE_SIZE); pg !! Z.to_nat (x mod PAGE_SIZE).

(** A page that does not belong to the space. *)
Definition foreign (own : gmap Z (nat * Z)) (U : gmap Z Z) (F : list Z) (x : Z) : Prop :=
  (x ∉ F) /\ own !! x = None /\ forall v, U !! v <> Some x.

(** The bytes [bs] are stored from [va] on: pages may be added, everything else
    that was mapped keeps its bytes, and so do pages outside the space. *)
Record wrote (own : gmap Z (nat * Z)) (F : list Z) (m : kmem) (U : gmap Z Z) (va : Z) (bs : list Z)
    (own' : gmap Z (nat * Z)) (F' : list Z) (m' : kmem) (U' : gmap Z Z) : Prop := {
  wr_grow : U ⊆ U';
  wr_new : forall x, va <= x < va + Z.of_nat (length bs) -> ubyte m' U' x = bs !! Z.to_nat (x - va);
  wr_old : forall x, ~ (va <= x < va + Z.of_nat (length bs)) -> is_Some (U !! (x / PAGE_SIZE)) -> ubyte m' U' x = ubyte m U x;
  wr_dom : forall v, is_Some (U' !! v) -> is_Some (U !! v) \/ va / PAGE_SIZE <= v /\ v * PAGE_SIZE < va + Z.of_nat (length bs);
  wr_foreign : forall x, foreign own U F x -> foreign own' U' F' x /\ km_page m' !! (x * PAGE_SIZE) = km_page m !! (x * PAGE_SIZE) /\ ref_of m' x = ref_of m x }.

Section space.
Context (own : gmap Z (nat * Z)) (r : Z) (F : list Z) (m : kmem) (U : gmap Z Z).
Hypothesis HS : space own r F m U.

Lemma wrote_nothing va : wrote own F m U va [] own F m U.
Proof. split; [done|cbn; lia|done|by left|done]. Qed.

(** A store into one page. *)
Lemma space_write v n off bs pg :
  U !! v = Some n -> page_at (km_page m) n pg -> (off + length bs <= Z.to_nat PAGE_SIZE)%nat ->
  let m' := set_page (<[n * PAGE_SIZE := splice off bs pg]> (km_page m)) m in
  space own r F m' U /\ wrote own F m U (v * PAGE_SIZE + Z.of_nat off) bs own F m' U.
Proof.
  intros HU [Hpg Hlen] Hoff m'. destruct (us_page _ _ _ _ _ HS v n HU) as (Hv & Hn & HnF & Hno & _).
  assert (length (splice off bs pg) = Z.to_nat PAGE_SIZE) as Hlen' by (rewrite length_splice; lia).
  assert (forall k, k <> n -> km_page m' !! (k * PAGE_SIZE) = km_page m !! (k * PAGE_SIZE)) as Hk.
  { intros k Hne. unfold m'. cbn. rewrite lookup_insert_ne; [done|]. unfold PAGE_SIZE. lia. }
  destruct (pt_frame own r F m F m' (us_tables _ _ _ _ _ HS)) as (I' & _ & K').
  { apply page_inv_write; [apply HS|done]. }
  { intros x l pre Hx. split; [by eapply own_not_free; [apply HS|]|apply Hk; congruence]. }
  assert (forall x, ubyte m' U x = if decide (x / PAGE_SIZE = v) then splice off bs pg !! Z.to_nat (x mod PAGE_SIZE) else ubyte m U x) as Hb.
  { intros x. unfold ubyte. case_decide as E; [rewrite E, HU; unfold m'; cbn; by rewrite lookup_insert_eq|].
    destruct (U !! (x / PAGE_SIZE)) as [k|] eqn:Ek; [|done]. cbn. rewrite Hk; [done|]. intros ->. by destruct E; eapply us_inj. }
  assert (forall x, x / PAGE_SIZE = v -> ubyte m U x = pg !! Z.to_nat (x mod PAGE_SIZE)) as Hb0.
  { intros x E. unfold ubyte. rewrite E, HU. cbn. by rewrite Hpg. }
  split.
  - split; [done| | |apply HS].
    + intros v' Hv'. rewrite (K' (v' * PAGE_SIZE)). by apply HS.
    + intros v' k Hk'. destruct (us_page _ _ _ _ _ HS v' k Hk') as (H1 & H2 & H3 & H4 & pgk & H5). split_and!; try done; [lia..|].
      destruct (decide (k = n)) as [->|Hne]; [exists (splice off bs pg); split; [apply lookup_insert_eq|done]|]. exists pgk. unfold page_at. by rewrite Hk.
  - split; [done| | |by left|].
    + intros x Hx. assert (x / PAGE_SIZE = v /\ x mod PAGE_SIZE = x - v * PAGE_SIZE) as [E1 E2] by (unfold PAGE_SIZE in *; Z.div_mod_to_equations; lia).
      rewrite Hb, decide_True, E2 by done. rewrite lookup_splice_new by (unfold PAGE_SIZE in *; lia). f_equal. lia.
    + intros x Hx _. rewrite Hb. case_decide as E; [|done]. rewrite Hb0 by done. apply lookup_splice_old; [lia|]. unfold PAGE_SIZE in *. Z.div_mod_to_equations. lia.
    + intros x (H1 & H2 & H3). split; [done|]. split; [|done]. apply Hk. intros ->. by destruct (H3 v).
Qed.

(** A new page behind an address that had none. *)
Lemma space_map v n e t3 pg3 own' F' m' :
  0 <= v < 2 ^ 36 -> U !! v = None -> n ∈ F -> (n ∉ F') -> F' ⊆ F -> own' !! n = None -> page_no n -> (exists pg, page_at (km_page m') n pg) ->
  pt_inv own' r F' m' -> pt_kept r m m' -> tables_frame own F m own' m' -> own' !! t3 = Some (3%nat, prefix (v * PAGE_SIZE)) ->
  walk (km_page m') r (v * PAGE_SIZE) = Some t3 -> page_at (km_page m') t3 pg3 -> 0 <= e < 2 ^ 64 -> valid e -> PTE_ADDRESS e = n * PAGE_SIZE ->
  let m2 := set_page (<[t3 * PAGE_SIZE := splice (Z.to_nat (8 * VA_PART3 (v * PAGE_SIZE))) (le_bytes 8 e) pg3]> (km_page m')) m' in
  space own' r F' m2 (<[v := n]> U) /\
  forall x, x ∉ F -> own !! x = None -> km_page m2 !! (x * PAGE_SIZE) = km_page m !! (x * PAGE_SIZE).
Proof.
  intros Hv HU HnF HnF' HF' Hno Hn [pgn Hpgn] I K T Ht3 Hw Hpg3 He Hval Hea m2.
  destruct (leaf_maps own' r F' m' t3 (v * PAGE_SIZE) e pg3 I (vpage_range v Hv) Ht3 Hw He Hpg3) as [I2 [M1 M2]]. fold m2 in I2, M1, M2.
  assert (forall x, x <> t3 -> km_page m2 !! (x * PAGE_SIZE) = km_page m' !! (x * PAGE_SIZE)) as Hx.
  { intros x Hne. unfold m2. cbn. rewrite lookup_insert_ne; [done|]. unfold PAGE_SIZE. lia. }
  clearbody m2. assert (forall x, x ∉ F -> own !! x = None -> km_page m2 !! (x * PAGE_SIZE) = km_page m !! (x * PAGE_SIZE)) as Hfr.
  { intros x HxF Hxo. destruct (T x HxF) as [E1 E2]. rewrite Hx by (intros ->; congruence). by apply E2. }
  split; [|done]. split; [done| | |].
  - intros v' Hv'. destruct (decide (v' = v)) as [->|Hne]; [rewrite lookup_insert_eq, M1; done|]. rewrite lookup_insert_ne by done.
    rewrite M2, (K (v' * PAGE_SIZE)) by (by apply vpage_range || (rewrite !Z.div_mul; done)). by apply HS.
  - intros v' k [[<- <-]|[Hne Hk]]%lookup_insert_Some.
    + split_and!; try done; [lia..|]. exists pgn. unfold page_at. rewrite Hx by (intros ->; congruence). done.
    + destruct (us_page _ _ _ _ _ HS v' k Hk) as (H1 & H2 & H3 & H4 & pg & H5). split_and!; try done; [lia..|intros Hin; by apply H3, HF'|by rewrite (proj1 (T k H3))|].
      exists pg. unfold page_at. by rewrite Hfr.
  - assert (forall w, U !! w <> Some n) as Hfresh by (intros w Hw'; by apply (us_page _ _ _ _ _ HS w n Hw')).
    intros v1 v2 k H1 H2. apply lookup_insert_Some in H1 as [[<- E1]|[_ H1]], H2 as [[<- E2]|[_ H2]]; subst; [done|by destruct (Hfresh v2)|by destruct (Hfresh v1)|by eapply us_inj].
Qed.

(** What a step that may add the page of [v] leaves. *)
Record paged (v n : Z) (own' : gmap Z (nat * Z)) (F' : list Z) (m' : kmem) (U' : gmap Z Z) : Prop := {
  pd_space : space own' r F' m' U';
  pd_at : U' !! v = Some n;
  pd_grow : U ⊆ U';
  pd_dom : forall w, is_Some (U' !! w) -> is_Some (U !! w) \/ w = v;
  pd_same : forall x, is_Some (U !! (x / PAGE_SIZE)) -> ubyte m' U' x = ubyte m U x;
  pd_free : F' ⊆ F /\ (length F <= length F' + 4)%nat;
  pd_foreign : forall x, foreign own U F x -> foreign own' U' F' x /\ km_page m' !! (x * PAGE_SIZE) = km_page m !! (x * PAGE_SIZE) /\ ref_of m' x = ref_of m x }.

Lemma paged_refl v n : U !! v = Some n -> paged v n own F m U.
Proof. intros H. split; try done; [by left|split; [done|lia]]. Qed.

(** A page taken from the free pages and mapped. *)
Lemma paged_new v n own' F' m' :
  U !! v = None -> space own' r F' m' (<[v := n]> U) -> n ∈ F -> F' ⊆ F -> (length F <= length F' + 4)%nat ->
  (forall x, x ∉ F -> own !! x = None -> own' !! x = None /\ km_page m' !! (x * PAGE_SIZE) = km_page m !! (x * PAGE_SIZE) /\ ref_of m' x = ref_of m x) ->
  paged v n own' F' m' (<[v := n]> U).
Proof.
  intros HU Hs Hn HF HlF Hfr. split; [done|by rewrite lookup_insert_eq|by apply insert_subseteq| | |done|].
  - intros w Hw. destruct (decide (w = v)) as [->|Hne]; [by right|left]. by rewrite lookup_insert_ne in Hw.
  - intros x [k Hk]. unfold ubyte. rewrite lookup_insert_ne by congruence. rewrite Hk. cbn. destruct (us_page _ _ _ _ _ HS _ k Hk) as (_ & _ & H3 & H4 & _).
    by destruct (Hfr k H3 H4) as (_ & -> & _).
  - intros x (H1 & H2 & H3). destruct (Hfr x H1 H2) as (E1 & E2 & E3). split; [|done]. split; [intros Hin; by apply H1, HF|]. split; [done|].
    intros w [[<- <-]|[_ Hw]]%lookup_insert_Some; [done|by destruct (H3 w)].
Qed.

Lemma user_data_valid n : valid (Z.lor (n * PAGE_SIZE) PTE_USER_DATA).
Proof. intros E. apply (f_equal (fun z => Z.testbit z 0)) in E. rewrite Z.land_spec, Z.lor_spec, Z.bits_0 in E. cbn in E. by rewrite orb_true_r in E. Qed.

(** The first half of a turn of [copyout]. *)
Lemma copyout_turn_wp va (c : Z * Z -> Z -> KM (Z * Z)) (Q : Z * Z -> kmem -> Prop) :
  0 <= va < 2 ^ 48 -> (4 <= length F)%nat ->
  (forall pte n own' F' m' U', paged (va / PAGE_SIZE) n own' F' m' U' -> wp (c (kpage r, pte) (kpage n)) Q m') ->
  wp (res ← get_pte (kpage r) va true; if snd res =? 0 then mret (fst res, -1) else page ← copyout_page (snd res); c res page) Q m.
Proof.
  intros Hva HF HQ. set (v := va / PAGE_SIZE) in *. assert (0 <= v < 2 ^ 36) as Hv by (unfold v, PAGE_SIZE; Z.div_mod_to_equations; lia).
  pose proof (us_tables _ _ _ _ _ HS) as HI. pose proof (us_map _ _ _ _ _ HS v Hv) as Hmap. destruct (VA_PART_range (v * PAGE_SIZE)) as (_ & _ & _ & R3).
  assert (forall t, page_no t -> (pte_addr (kpage t) (VA_PART3 (v * PAGE_SIZE)) =? 0) = false) as Hnz.
  { intros t Ht. rewrite pte_addr_eq by done. apply Z.eqb_neq. pose proof (kpage_nonzero t Ht). unfold kpage, KSPACE_MASK, PAGE_SIZE, page_no in *. lia. }
  wp_prim. rewrite get_pte_page. fold v. destruct (U !! v) as [n|] eqn:EU.
  - destruct Hmap as [Hval Ha]. destruct (us_page _ _ _ _ _ HS v n EU) as (_ & Hn & _). unfold valid, pte_of in Hval, Ha.
    destruct (walk (km_page m) r (v * PAGE_SIZE)) as [t3|] eqn:Ew; [|by destruct Hval]. destruct (walk_own _ _ _ _ _ _ HI Ew) as (_ & _ & _ & _ & _ & _ & _ & Ht3).
    destruct (pt_own _ _ _ _ HI _ _ _ Ht3) as (Hno3 & _ & _ & pg3 & Hpg3). eapply get_pte_walk_wp; [exact HI|exact Ew|]. cbn [fst snd]. rewrite Hnz by done.
    unfold copyout_page. wp_prims. eapply wp_load_entry; [done|done|exact Hpg3|]. rewrite (proj2 (Z.eqb_neq _ 0) Hval), Ha, P2K_page by done. cbn [negb]. wp_prims.
    by eapply HQ, paged_refl.
  - eapply wp_mono; [apply (get_pte_alloc_wp own r F m (v * PAGE_SIZE) HI); lia|].
    intros res m1 (own1 & F1 & t3 & -> & I1 & Ht3 & Hw & K1 & HF1 & HlF & V1 & T1). cbn [fst snd].
    destruct (pt_own _ _ _ _ I1 _ _ _ Ht3) as (Hno3 & _ & Ht3F & pg3 & Hpg3). rewrite Hnz by done. unfold copyout_page. wp_prims. eapply wp_load_entry; [done|done|exact Hpg3|].
    assert (entry (km_page m1) t3 (VA_PART3 (v * PAGE_SIZE)) = pte_of (km_page m) r (v * PAGE_SIZE)) as -> by (rewrite <-(K1 (v * PAGE_SIZE)); unfold pte_of; by rewrite Hw).
    destruct (Z.eqb_spec (Z.land (pte_of (km_page m) r (v * PAGE_SIZE)) PTE_VALID) 0) as [_|E]; [|by destruct Hmap]. cbn [negb]. wp_prims.
    destruct F1 as [|n F1]; [cbn in HlF; lia|]. pose proof (pt_pages _ _ _ _ I1) as P1. pose proof (pi_nodup _ _ P1) as [HnF _]%NoDup_cons.
    assert (page_no n) as Hn by (apply (pi_range _ _ P1); left). destruct (pi_stack _ _ P1) as (_ & pgn & Hpgn & _).
    assert (own1 !! n = None) as Hno. { destruct (own1 !! n) as [l|] eqn:E; [|done]. destruct (own_not_free _ _ _ _ _ _ I1 E). left. }
    eapply wp_mono; [by apply (kalloc_page_wp n F1)|]. intros p m2 (-> & P2 & Rn & Rk & Em2 & _ & Ett).
    destruct (pt_frame own1 r (n :: F1) m1 F1 m2 I1 P2) as (I2 & W2 & K2).
    { intros x l pre Hx. pose proof (own_not_free _ _ _ _ _ _ I1 Hx) as Hf. split; [intros Hin; apply Hf; by right|by rewrite Em2]. }
    rewrite kpage_eqb, K2P_page by done. wp_prim. eapply wp_store_entry; [done|done|rewrite Em2; exact Hpg3|]. wp_prims.
    destruct (space_map v n (Z.lor (n * PAGE_SIZE) PTE_USER_DATA) t3 pg3 own1 F1 m2) as [S3 Hfr]; try done.
    + apply HF1. left.
    + intros x Hx. apply HF1. by right.
    + rewrite Em2. by eexists.
    + intros va'. by rewrite (K2 va'), (K1 va').
    + intros x Hx. destruct (T1 x Hx) as [E1 E2]. split; [done|]. intros Hxo. by rewrite Em2, E2.
    + by rewrite W2.
    + by rewrite Em2.
    + apply pte_value_u64; [done|apply PTE_USER_DATA_flags].
    + by apply user_data_valid.
    + apply PTE_ADDRESS_small; [done|apply PTE_USER_DATA_flags].
    + eapply HQ. apply paged_new; [done|exact S3|apply HF1; left|intros x Hx; apply HF1; by right|cbn [length] in HlF; lia|].
      intros x HxF Hxo. destruct (T1 x HxF) as [E1 _]. split; [by rewrite E1|]. split; [by apply Hfr|].
      match goal with |- ref_of ?s x = _ => change (ref_of s x) with (ref_of m2 x) end. rewrite Rk, V1; [done|done|]. intros ->. apply HxF, HF1. left.
Qed.
End space.

(** ** [copyout] *)

Lemma ubyte_mapped m U x b : ubyte m U x = Some b -> is_Some (U !! (x / PAGE_SIZE)).
Proof. unfold ubyte. destruct (U !! (x / PAGE_SIZE)); [by eexists|done]. Qed.

(** Stores one after the other. *)
Lemma wrote_app own F m U va bs1 own1 F1 m1 U1 bs2 own2 F2 m2 U2 :
  wrote own F m U va bs1 own1 F1 m1 U1 -> wrote own1 F1 m1 U1 (va + Z.of_nat (length bs1)) bs2 own2 F2 m2 U2 ->
  wrote own F m U va (bs1 ++ bs2) own2 F2 m2 U2.
Proof.
  intros [G1 N1 O1 D1 X1] [G2 N2 O2 D2 X2]. split; rewrite ?length_app, ?Nat2Z.inj_add.
  - by etrans.
  - intros x Hx. destruct (Z.lt_ge_cases x (va + Z.of_nat (length bs1))).
    + pose proof (N1 x ltac:(lia)) as E. destruct (lookup_lt_is_Some_2 bs1 (Z.to_nat (x - va)) ltac:(lia)) as [b Hb].
      rewrite lookup_app_l by lia. rewrite O2, E; [done|lia|]. eapply ubyte_mapped. by rewrite E.
    + rewrite lookup_app_r by lia. rewrite N2 by lia. f_equal. lia.
  - intros x Hx HU. assert (is_Some (U1 !! (x / PAGE_SIZE))) as HU1 by (destruct HU as [k Hk]; exists k; by eapply lookup_weaken). rewrite O2, O1 by (done || lia). done.
  - intros v [Hv|[H1 H2]]%D2; [destruct (D1 v Hv) as [?|[H1 H2]]; [by left|right; lia]|]. right. split; [|lia].
    etrans; [|exact H1]. apply Z.div_le_mono; unfold PAGE_SIZE; lia.
  - intros x Hx. destruct (X1 x Hx) as (Y1 & E1 & R1). destruct (X2 x Y1) as (Y2 & E2 & R2). split; [done|]. by rewrite E2, R2.
Qed.

(** A store into a page that was just added. *)
Lemma wrote_paged own r F m U v n own1 F1 m1 U1 va bs own2 F2 m2 U2 :
  paged own r F m U v n own1 F1 m1 U1 -> wrote own1 F1 m1 U1 va bs own2 F2 m2 U2 -> v = va / PAGE_SIZE -> (0 < length bs)%nat ->
  wrote own F m U va bs own2 F2 m2 U2.
Proof.
  intros [_ A1 G1 D1 S1 _ X1] [G2 N2 O2 D2 X2] -> Hbs. split; [by etrans|done| | |].
  - intros x Hx HU. assert (is_Some (U1 !! (x / PAGE_SIZE))) as HU1 by (destruct HU as [k Hk]; exists k; by eapply lookup_weaken). rewrite O2, S1 by done. done.
  - intros w [Hw|Hw]%D2; [|by right]. destruct (D1 w Hw) as [?| ->]; [by left|right]. split; [done|]. unfold PAGE_SIZE. Z.div_mod_to_equations. lia.
  - intros x Hx. destruct (X1 x Hx) as (Y1 & E1 & R1). destruct (X2 x Y1) as (Y2 & E2 & R2). split; [done|]. by rewrite E2, R2.
Qed.

(** The number of pages that [va] to [va + len] touch. *)
Definition npages (va len : Z) : Z := if len <=? 0 then 0 else (va + len - 1) / PAGE_SIZE - va / PAGE_SIZE + 1.

(** The bytes that [copyout] writes. *)
Definition source (p : option (list Z)) (len : Z) : list Z :=
  match p with Some bs => take (Z.to_nat len) bs | None => replicate (Z.to_nat len) 0 end.
Definition source_ok (p : option (list Z)) (len : Z) : Prop := match p with Some bs => len <= Z.of_nat (length bs) | None => True end.

Lemma length_source p len : 0 <= len -> source_ok p len -> length (source p len) = Z.to_nat len.
Proof. intros Hl Hp. destruct p as [bs|]; cbn in *; [rewrite length_take; lia|apply length_replicate]. Qed.

Lemma source_split p n len : 0 <= n <= len -> source p len = source p n ++ source (drop (Z.to_nat n) <$> p) (len - n).
Proof.
  intros Hn. destruct p as [bs|]; cbn.
  - replace (Z.to_nat len) with (Z.to_nat n + Z.to_nat (len - n))%nat by lia. by rewrite take_take_drop.
  - rewrite <-replicate_add. f_equal. lia.
Qed.

Lemma source_ok_drop p n len : 0 <= n <= len -> source_ok p len -> source_ok p n /\ source_ok (drop (Z.to_nat n) <$> p) (len - n).
Proof. intros Hn. destruct p as [bs|]; cbn; [rewrite length_drop; lia|done]. Qed.

(** The result of a store with allocation. *)
Definition stored (r : Z) (own : gmap Z (nat * Z)) (F : list Z) (m : kmem) (U : gmap Z Z) (va : Z) (bs : list Z) (m' : kmem) : Prop :=
  exists own' F' U', space own' r F' m' U' /\ wrote own F m U va bs own' F' m' U' /\ F' ⊆ F /\
    Z.of_nat (length F) <= Z.of_nat (length F') + 4 * npages va (Z.of_nat (length bs)).

Lemma npages_step va len n : 0 < len -> n = Z.min len (PAGE_SIZE - va mod PAGE_SIZE) -> npages va len = 1 + npages (va + n) (len - n) /\ npages va n = 1.
Proof.
  intros Hl En. assert (0 <= va mod PAGE_SIZE < PAGE_SIZE) as Hm by (apply Z.mod_pos_bound; unfold PAGE_SIZE; lia).
  unfold npages. rewrite (proj2 (Z.leb_gt len 0)), (proj2 (Z.leb_gt n 0)) by lia. replace (va + n + (len - n) - 1) with (va + len - 1) by lia.
  destruct (Z.min_spec len (PAGE_SIZE - va mod PAGE_SIZE)) as [[Hc E]|[Hc E]]; rewrite E in En; subst n; clear E.
  - rewrite (proj2 (Z.leb_le _ 0)) by lia. unfold PAGE_SIZE in *. split; Z.div_mod_to_equations; lia.
  - split.
    + destruct (Z.leb_spec (len - (PAGE_SIZE - va mod PAGE_SIZE)) 0); unfold PAGE_SIZE in *; Z.div_mod_to_equations; lia.
    + unfold PAGE_SIZE in *; Z.div_mod_to_equations; lia.
Qed.

Lemma copyout_loop_wp r fuel : forall va p len own F m U,
  space own r F m U -> 0 <= va -> 0 <= len -> va + len <= 2 ^ 48 -> (Z.to_nat len < fuel)%nat -> source_ok p len -> 4 * npages va len <= Z.of_nat (length F) ->
  wp (copyout_loop fuel (kpage r) va p len) (fun res m' => res = (kpage r, 0) /\ stored r own F m U va (source p len) m') m.
Proof.
  induction fuel as [|fuel IH]; intros va p len own F m U HS Hva Hlen Htop Hfuel Hp HF; [lia|]. cbn [copyout_loop].
  destruct (Z.leb_spec len 0) as [Hl|Hl].
  { wp_prim. split; [done|]. replace len with 0 by lia. exists own, F, U. assert (source p 0 = []) as -> by (by destruct p).
    split; [done|]. split; [apply wrote_nothing|]. split; [done|]. change (npages va (Z.of_nat (length (@nil Z)))) with 0. lia. }
  set (n := Z.min len (PAGE_SIZE - va mod PAGE_SIZE)). assert (0 < n <= len /\ n <= PAGE_SIZE - va mod PAGE_SIZE) as [Hn Hn'] by (subst n; unfold PAGE_SIZE; Z.div_mod_to_equations; lia).
  destruct (npages_step va len n Hl eq_refl) as [HP1 HP2]. destruct (source_ok_drop p n len ltac:(lia) Hp) as [Hp1 Hp2].
  assert (0 <= npages (va + n) (len - n)) as Hnn by (unfold npages, PAGE_SIZE; destruct (_ <=? 0) eqn:?; [lia|]; apply Z.leb_gt in Heqb; Z.div_mod_to_equations; lia).
  apply (copyout_turn_wp own r F m U HS va); [lia|lia|]. intros pte pn own1 F1 m1 U1 Hpd. pose proof Hpd as [S1 A1 _ _ _ [HF1 HlF1] _].
  destruct (us_page _ _ _ _ _ S1 _ _ A1) as (_ & Hpn & _ & _ & pg & Hpg). rewrite kpage_eqb by done. fold (source p n). pose proof (length_source p n ltac:(lia) Hp1) as Hls.
  assert (0 <= va mod PAGE_SIZE < PAGE_SIZE) as Hmod by (apply Z.mod_pos_bound; unfold PAGE_SIZE; lia).
  wp_prim. eapply wp_write_bytes; [done|done|lia|exact Hpg|]. cbn [fst].
  destruct (space_write own1 r F1 m1 U1 S1 _ pn (Z.to_nat (va mod PAGE_SIZE)) (source p n) pg A1 Hpg ltac:(lia)) as [S2 W2]. set (m2 := set_page _ m1) in *.
  replace (va / PAGE_SIZE * PAGE_SIZE + Z.of_nat (Z.to_nat (va mod PAGE_SIZE))) with va in W2 by (rewrite Z2Nat.id by lia; unfold PAGE_SIZE; Z.div_mod_to_equations; lia).
  eapply wp_mono; [apply (IH (va + n) (drop (Z.to_nat n) <$> p) (len - n) own1 F1 m2 U1 S2); [lia|lia|lia|lia|done|lia]|].
  intros res m3 [-> (own3 & F3 & U3 & S3 & W3 & HF3 & HlF3)]. split; [done|]. exists own3, F3, U3. split; [done|]. rewrite (source_split p n len) by lia. split_and!.
  - eapply wrote_app; [|rewrite Hls, Z2Nat.id by lia; exact W3]. eapply wrote_paged; [exact Hpd|exact W2|done|lia].
  - by etrans.
  - rewrite length_app, Nat2Z.inj_add, Hls, (length_source (drop (Z.to_nat n) <$> p) (len - n)) in * by (done || lia). rewrite !Z2Nat.id in * by lia.
    replace (n + (len - n)) with len by lia. lia.
Qed.

Lemma copyout_wp own r F m U va p len :
  space own r F m U -> 0 <= va -> 0 <= len -> va + len <= USERTOP -> source_ok p len -> 4 * npages va len <= Z.of_nat (length F) ->
  wp (copyout (kpage r) va p len) (fun res m' => res = (kpage r, 0) /\ stored r own F m U va (source p len) m') m.
Proof.
  intros HS Hva Hlen Htop Hp HF. unfold copyout. assert (u64 (va + len) = va + len) as -> by (apply u64_small; unfold USERTOP in Htop; lia).
  rewrite (proj2 (Z.ltb_ge _ _)) by done. apply copyout_loop_wp; try done; lia.
Qed.

(** ** Accesses of the kernel to user addresses *)

(** The kernel address behind [va] in the table of the register TTBR0; an address
    without a page traps, which is undefined here. *)
Definition user_page (va : Z) : KM Z := fun m =>
  let e := pte_of (km_page m) (km_ttbr0 m / PAGE_SIZE) va in
  if Z.land e PTE_VALID =? 0 then UB else Ret (P2K (PTE_ADDRESS e) + va mod PAGE_SIZE, m).

Fixpoint user_store (va : Z) (bs : list Z) : KM unit :=
  match bs with
  | [] => mret tt
  | b :: bs' => a ← user_page va; write_bytes a [b];; user_store (va + 1) bs'
  end.
Definition user_load (va : Z) : KM Z := a ← user_page va; bs ← read_bytes a 1; some_or_ub (head bs).

Section access.
Context (own : gmap Z (nat * Z)) (r : Z) (F : list Z) (U : gmap Z Z).

(** The space of [r] is the current one. *)
Definition attached (m : kmem) : Prop := space own r F m U /\ km_ttbr0 m = r * PAGE_SIZE.

Lemma user_page_wp va n (Q : Z -> kmem -> Prop) m :
  attached m -> U !! (va / PAGE_SIZE) = Some n -> Q (kpage n + va mod PAGE_SIZE) m -> wp (user_page va) Q m.
Proof.
  intros [HS Ht] Hn HQ. destruct (us_page _ _ _ _ _ HS _ n Hn) as (Hv & Hno & _). pose proof (us_map _ _ _ _ _ HS _ Hv) as Hm. rewrite Hn in Hm. destruct Hm as [Hval Ha].
  unfold wp, user_page. rewrite Ht, Z.div_mul, pte_of_page, (proj2 (Z.eqb_neq _ 0) Hval), Ha, P2K_page by done. exact HQ.
Qed.

Lemma user_store_wp bs : forall va m, attached m -> (forall x, va <= x < va + Z.of_nat (length bs) -> is_Some (U !! (x / PAGE_SIZE))) ->
  wp (user_store va bs) (fun _ m' => attached m' /\ wrote own F m U va bs own F m' U) m.
Proof.
  induction bs as [|b bs IH]; intros va m Hat Hmap; cbn [user_store length] in *; [wp_prim; split; [done|apply wrote_nothing]|].
  destruct (Hmap va ltac:(lia)) as [n Hn]. pose proof Hat as [HS Ht]. destruct (us_page _ _ _ _ _ HS _ n Hn) as (Hv & Hno & _ & _ & pg & Hpg).
  assert (0 <= va mod PAGE_SIZE < PAGE_SIZE) as Hmod by (apply Z.mod_pos_bound; unfold PAGE_SIZE; lia).
  wp_prim. eapply user_page_wp; [exact Hat|exact Hn|]. wp_prim. eapply wp_write_bytes; [done|done|cbn [length]; lia|exact Hpg|].
  destruct (space_write own r F m U HS _ n (Z.to_nat (va mod PAGE_SIZE)) [b] pg Hn Hpg ltac:(cbn [length]; lia)) as [S2 W2].
  replace (va / PAGE_SIZE * PAGE_SIZE + Z.of_nat (Z.to_nat (va mod PAGE_SIZE))) with va in W2 by (rewrite Z2Nat.id by lia; unfold PAGE_SIZE; Z.div_mod_to_equations; lia).
  eapply wp_mono; [apply (IH (va + 1)); [split; [exact S2|done]|intros x Hx; apply Hmap; lia]|]. intros [] m' [Hat' W']. split; [done|].
  apply (wrote_app _ _ _ _ _ [b] _ _ _ _ bs _ _ _ _ W2). exact W'.
Qed.

Lemma user_load_wp va b (Q : Z -> kmem -> Prop) m : attached m -> ubyte m U va = Some b -> Q b m -> wp (user_load va) Q m.
Proof.
  intros Hat Hb HQ. pose proof Hat as [HS _]. destruct (ubyte_mapped _ _ _ _ Hb) as [n Hn]. destruct (us_page _ _ _ _ _ HS _ n Hn) as (Hv & Hno & _ & _ & pg & Hpg).
  assert (0 <= va mod PAGE_SIZE < PAGE_SIZE) as Hmod by (apply Z.mod_pos_bound; unfold PAGE_SIZE; lia).
  unfold user_load. wp_prim. eapply user_page_wp; [exact Hat|exact Hn|]. wp_prim. eapply wp_read_bytes; [done|done|lia|exact Hpg|].
  unfold ubyte in Hb. rewrite Hn in Hb. cbn in Hb. rewrite (proj1 Hpg) in Hb. cbn in Hb. rewrite (drop_S _ _ _ Hb). cbn. exact HQ.
Qed.
End access.
