(* ===== verification/Ring.v ===== *)
(** * Ring buffers with free-running counters

    Pipes and the console keep bytes in an array of [N] cells indexed by
    counters that are reduced modulo [N] at each access and wrap around at the
    width of their type.  [N] divides [2^w], so that the wrap-around keeps the
    cell a counter designates. *)

From Stdlib Require Import ZArith Lia.
From stdpp Require Import base tactics numbers gmap list.
From S2P Require Import Prelude.

Local Open Scope Z_scope.

(** Counters at different distances below [m] from the same start differ. *)
Lemma wrap_inj m a b c : 0 <= b < m -> 0 <= c < m -> (a + b) mod m = (a + c) mod m -> b = c.
Proof.
  intros Hb Hc E. assert ((b - c) mod m = 0) as E'.
  { replace (b - c) with ((a + b) - (a + c)) by lia. rewrite Zminus_mod, E, Z.sub_diag. done. }
  apply (Z.mod_divide (b - c) m ltac:(lia)) in E' as [k Hk]. assert (k = 0) by nia. lia.
Qed.

Section ring.
Context (N W : Z) (HN : 0 < N) (Hdiv : (N | W)).

(** The elements [l] are in the ring [data] from counter [start] on. *)
Record ring_rep (data : list Z) (start : Z) (l : list Z) : Prop := {
  rr_data : length data = Z.to_nat N;
  rr_room : Z.of_nat (length l) <= N;
  rr_elems : forall i x, l !! i = Some x -> data !! Z.to_nat ((start + Z.of_nat i) mod N) = Some x }.

Lemma wrap_cell z : z mod W mod N = z mod N.
Proof. by apply Z.mod_mod_divide. Qed.

Lemma ring_wrap data start l : ring_rep data (start mod W) l <-> ring_rep data start l.
Proof.
  assert (forall i, (start mod W + i) mod N = (start + i) mod N) as E.
  { intros i. by rewrite <-Z.add_mod_idemp_l, wrap_cell, Z.add_mod_idemp_l by lia. }
  split; intros [H1 H2 H3]; split; try done; intros i x Hi; [rewrite <-E|rewrite E]; by apply H3.
Qed.

Lemma ring_cell (data : list Z) start (l : list Z) :
  length data = Z.to_nat N -> (Z.to_nat ((start + Z.of_nat (length l)) mod N) < length data)%nat.
Proof. intros ->. pose proof (Z.mod_pos_bound (start + Z.of_nat (length l)) N HN). lia. Qed.

Lemma ring_push data start l c :
  ring_rep data start l -> Z.of_nat (length l) < N ->
  ring_rep (<[Z.to_nat ((start + Z.of_nat (length l)) mod N) := c]> data) start (l ++ [c]).
Proof.
  intros [Hd Hr He] Hlt. split.
  - by rewrite length_insert.
  - rewrite length_app. cbn [length]. lia.
  - pose proof (Z.mod_pos_bound (start + Z.of_nat (length l)) N HN).
    intros i x [Hi|[Hi Hx]]%lookup_app_Some.
    + pose proof (lookup_lt_Some _ _ _ Hi). pose proof (Z.mod_pos_bound (start + Z.of_nat i) N HN).
      rewrite list_lookup_insert_ne; [by apply He|]. intros E%Z2Nat.inj; [|lia..].
      apply (wrap_inj N start) in E; lia.
    + destruct (i - length l)%nat as [|k] eqn:E; cbn in Hx; [|done]. simplify_eq.
      replace i with (length l) by lia. apply list_lookup_insert_eq. by apply ring_cell.
Qed.

Lemma ring_pop data start l c :
  ring_rep data start (c :: l) -> data !! Z.to_nat (start mod N) = Some c /\ ring_rep data (start + 1) l.
Proof.
  intros [Hd Hr He]. split; [rewrite <-(He O c eq_refl), Z.add_0_r; done|]. split; [done|cbn [length] in Hr; lia|].
  intros i x Hi. rewrite <-(He (S i) x Hi). do 3 f_equal. lia.
Qed.

(** The last element is in the cell before the end counter. *)
Lemma ring_final data start l c :
  ring_rep data start (l ++ [c]) -> data !! Z.to_nat ((start + Z.of_nat (length l)) mod N) = Some c.
Proof. intros [_ _ He]. apply He. by rewrite lookup_app_r, Nat.sub_diag. Qed.

Lemma ring_prefix data start l k : ring_rep data start (l ++ k) -> ring_rep data start l.
Proof.
  intros [Hd Hr He]. split; [done|rewrite length_app in Hr; lia|].
  intros i x Hi. apply He. by apply lookup_app_l_Some.
Qed.
End ring.
