(* ===== verification/Pipe.v ===== *)
(** * Pipes: [fs/pipe.c]

    A call runs alone to its end: when it would sleep on a semaphore that nobody
    posts, the outcome is [Block].  The counters [nread] and [nwrite] are 32-bit
    and wrap around; the theorems show that the ring buffer is a queue of at
    most [PIPE_SIZE] bytes all the same. *)

From Stdlib Require Import ZArith Lia.
From stdpp Require Import base tactics numbers gmap list.
From S2P Require Import Prelude Ring.

Local Open Scope Z_scope.

Definition PIPE_SIZE : Z := 512.

(** [struct pipe]; the semaphores by their values, [p_alive] until [kfree]. *)
Record Pipe : Type := mkPipe {
  p_lock : bool;
  p_wlock : Z;
  p_rlock : Z;
  p_data : list Z;
  p_nread : Z;
  p_nwrite : Z;
  p_readopen : bool;
  p_writeopen : bool;
  p_alive : bool }.

Abbreviation PM := (M Pipe).

Definition set_sems (l : bool) (w r : Z) (p : Pipe) : Pipe :=
  mkPipe l w r (p_data p) (p_nread p) (p_nwrite p) (p_readopen p) (p_writeopen p) (p_alive p).
Definition set_ring (d : list Z) (nr nw : Z) (p : Pipe) : Pipe :=
  mkPipe (p_lock p) (p_wlock p) (p_rlock p) d nr nw (p_readopen p) (p_writeopen p) (p_alive p).
Definition set_open (r w a : bool) (p : Pipe) : Pipe :=
  mkPipe (p_lock p) (p_wlock p) (p_rlock p) (p_data p) (p_nread p) (p_nwrite p) r w a.

Definition acquire_pipe : PM unit :=
  p ← gets id; if p_lock p then block else modify (fun p => set_sems true (p_wlock p) (p_rlock p) p).
Definition release_pipe : PM unit := modify (fun p => set_sems false (p_wlock p) (p_rlock p) p).

(** [post_sem] and [unalertable_wait_sem] on the two semaphores. *)
Definition post_rlock : PM unit := modify (fun p => set_sems (p_lock p) (p_wlock p) (p_rlock p + 1) p).
Definition post_wlock : PM unit := modify (fun p => set_sems (p_lock p) (p_wlock p + 1) (p_rlock p) p).
Definition wait_rlock : PM unit :=
  p ← gets id;
  if p_rlock p <=? 0 then block else modify (fun p => set_sems (p_lock p) (p_wlock p) (p_rlock p - 1) p).
Definition wait_wlock : PM unit :=
  p ← gets id;
  if p_wlock p <=? 0 then block else modify (fun p => set_sems (p_lock p) (p_wlock p - 1) (p_rlock p) p).

(** [init_pipe]; the buffer keeps what [kalloc] returned. *)
Definition init_pipe (junk : list Z) : Pipe := mkPipe false 0 0 junk 0 0 true true true.

Definition pipe_close (writable : bool) : PM unit :=
  acquire_pipe;;
  (if writable then
     modify (fun p => set_open (p_readopen p) false (p_alive p) p);; post_rlock
   else
     modify (fun p => set_open false (p_writeopen p) (p_alive p) p);; post_wlock);;
  p ← gets id;
  if negb (p_readopen p) && negb (p_writeopen p) then
    release_pipe;; modify (fun p => set_open (p_readopen p) (p_writeopen p) false p)
  else release_pipe.

Definition full (p : Pipe) : bool := p_nwrite p =? u32 (p_nread p + PIPE_SIZE).
Definition empty (p : Pipe) : bool := p_nread p =? p_nwrite p.

(** The loop of [pipe_write] that waits for room; it gives [false] when the
    function returns -1.  [n] is the number of units of [wlock] and one. *)
Fixpoint wait_room (n : nat) (killed : bool) : PM bool :=
  match n with
  | O => block
  | S n' =>
      p ← gets id;
      if full p then
        if negb (p_readopen p) || killed then release_pipe;; mret false else
        post_rlock;; release_pipe;; wait_wlock;; wait_room n' killed
      else mret true
  end.

(** The loop over the bytes of [pipe_write]. *)
Fixpoint write_loop (bytes : list Z) (killed : bool) : PM bool :=
  match bytes with
  | [] => mret true
  | c :: bytes' =>
      p ← gets id;
      ok ← wait_room (S (Z.to_nat (p_wlock p))) killed;
      if negb ok then mret false else
      modify (fun p => set_ring (<[Z.to_nat (p_nwrite p mod PIPE_SIZE) := u8 c]> (p_data p))
                         (p_nread p) (u32 (p_nwrite p + 1)) p);;
      write_loop bytes' killed
  end.

(** [pipe_write(pi, addr, n)]: [bytes] are the [n] bytes at [addr]. *)
Definition pipe_write (killed : bool) (bytes : list Z) : PM Z :=
  acquire_pipe;;
  ok ← write_loop bytes killed;
  if negb ok then mret (-1) else
  post_rlock;; release_pipe;; mret (Z.of_nat (length bytes)).

(** The loop of [pipe_read] that waits for data. *)
Fixpoint wait_data (n : nat) (killed : bool) : PM bool :=
  match n with
  | O => block
  | S n' =>
      p ← gets id;
      if empty p && p_writeopen p then
        if killed then release_pipe;; mret false else
        release_pipe;; wait_rlock;; wait_data n' killed
      else mret true
  end.

(** The loop over the bytes of [pipe_read]: the bytes it stores. *)
Fixpoint read_loop (n : nat) : PM (list Z) :=
  match n with
  | O => mret []
  | S n' =>
      p ← gets id;
      if empty p then mret [] else
      c ← some_or_ub (p_data p !! Z.to_nat (p_nread p mod PIPE_SIZE));
      modify (fun p => set_ring (p_data p) (u32 (p_nread p + 1)) (p_nwrite p) p);;
      rest ← read_loop n';
      mret (c :: rest)
  end.

(** [pipe_read(pi, addr, n)]: the result and the bytes stored at [addr]. *)
Definition pipe_read (killed : bool) (n : Z) : PM (Z * list Z) :=
  acquire_pipe;;
  p ← gets id;
  ok ← wait_data (S (Z.to_nat (p_rlock p))) killed;
  if negb ok then mret (-1, []) else
  bytes ← read_loop (Z.to_nat n);
  post_wlock;; release_pipe;; mret (Z.of_nat (length bytes), bytes).

(** ** The queue of bytes *)

(** The bytes in the pipe, the oldest first. *)
Record pipe_rep (p : Pipe) (l : list Z) : Prop := {
  pr_ring : ring_rep PIPE_SIZE (p_data p) (p_nread p) l;
  pr_nread : 0 <= p_nread p < 2 ^ 32;
  pr_nwrite : p_nwrite p = u32 (p_nread p + Z.of_nat (length l)) }.

Lemma pipe_cells : 0 < PIPE_SIZE /\ (PIPE_SIZE | 2 ^ 32).
Proof. split; [done|]. by exists (2 ^ 23). Qed.

Lemma pr_room p l : pipe_rep p l -> Z.of_nat (length l) <= PIPE_SIZE.
Proof. intros [[] _ _]. done. Qed.

Lemma full_spec p l : pipe_rep p l -> full p = (Z.of_nat (length l) =? PIPE_SIZE).
Proof.
  intros H. pose proof (pr_room p l H) as Hr. destruct H as [_ Hn Hw]. unfold full. rewrite Hw.
  destruct (Z.eqb_spec (Z.of_nat (length l)) PIPE_SIZE) as [->|Hne]; [apply Z.eqb_refl|].
  apply Z.eqb_neq. intros E. apply Hne. unfold PIPE_SIZE in *. apply (wrap_inj (2 ^ 32) (p_nread p)); [lia|lia|done].
Qed.

Lemma empty_spec p l : pipe_rep p l -> empty p = bool_decide (l = []).
Proof.
  intros H. pose proof (pr_room p l H) as Hr. destruct H as [_ Hn Hw]. unfold empty. rewrite Hw. case_bool_decide as E.
  - subst. cbn [length]. rewrite Z.add_0_r, u32_small by done. apply Z.eqb_refl.
  - apply Z.eqb_neq. intros E'. apply E, length_zero_iff_nil. apply Nat2Z.inj. unfold PIPE_SIZE in *.
    apply (wrap_inj (2 ^ 32) (p_nread p)); [lia|lia|]. change (u32 (p_nread p + Z.of_nat (length l)) = u32 (p_nread p + 0)).
    by rewrite <-E', Z.add_0_r, u32_small.
Qed.

(** Adding a byte, taking one. *)
Lemma rep_push p l c : pipe_rep p l -> Z.of_nat (length l) < PIPE_SIZE ->
  pipe_rep (set_ring (<[Z.to_nat (p_nwrite p mod PIPE_SIZE) := c]> (p_data p)) (p_nread p) (u32 (p_nwrite p + 1)) p) (l ++ [c]).
Proof.
  destruct pipe_cells as [H0 Hd]. intros [Hr Hn Hw] Hlt. split; cbn [p_data p_nread p_nwrite set_ring].
  - rewrite Hw. unfold u32. rewrite wrap_cell by done. by apply ring_push.
  - done.
  - rewrite Hw, length_app. unfold u32. rewrite Zplus_mod_idemp_l. f_equal. cbn [length]. lia.
Qed.

Lemma rep_pop p l c : pipe_rep p (c :: l) ->
  p_data p !! Z.to_nat (p_nread p mod PIPE_SIZE) = Some c /\
  pipe_rep (set_ring (p_data p) (u32 (p_nread p + 1)) (p_nwrite p) p) l.
Proof.
  destruct pipe_cells as [H0 Hd]. intros [Hr Hn Hw]. destruct (ring_pop _ _ _ _ _ Hr) as [Hc Hr']. split; [done|].
  split; cbn [p_data p_nread p_nwrite set_ring].
  - by apply ring_wrap.
  - apply u32_range.
  - rewrite Hw. unfold u32. rewrite Zplus_mod_idemp_l. f_equal. cbn [length]. lia.
Qed.

(** What the loops leave alone. *)
Definition same_ends (p p' : Pipe) : Prop :=
  p_wlock p' = p_wlock p /\ p_rlock p' = p_rlock p /\ p_readopen p' = p_readopen p /\
  p_writeopen p' = p_writeopen p /\ p_alive p' = p_alive p.

Definition room (l : list Z) : nat := Z.to_nat PIPE_SIZE - length l.

Lemma rep_sems p l b w r : pipe_rep p l -> pipe_rep (set_sems b w r p) l.
Proof. by intros []. Qed.

Lemma wait_room_ok n killed p : full p = false -> wait_room (S n) killed p = Ret (true, p).
Proof. intros Hf. unfold wait_room, mbind, M_bind, gets, id. by rewrite Hf. Qed.

Lemma wait_room_full n killed p : full p = true ->
  wait_room (S n) killed p =
    if negb (p_readopen p) || killed then Ret (false, set_sems false (p_wlock p) (p_rlock p) p) else Block.
Proof.
  revert p. induction (S n) as [|m IH] eqn:En in n |- *; intros p Hf; [done|]. cbn [wait_room].
  rewrite (bind_ret (gets id) _ p p p), Hf by done.
  destruct (negb (p_readopen p) || killed) eqn:E; [done|]. unfold post_rlock, release_pipe, wait_wlock.
  do 2 (rewrite (bind_ret (modify _) _ _ tt _ eq_refl)). unfold mbind, M_bind, gets, modify, id. cbn [set_sems p_wlock].
  destruct (p_wlock p <=? 0); [done|]. destruct m as [|m]; [done|].
  rewrite (IH m eq_refl) by done. cbn [set_sems p_readopen]. by rewrite E.
Qed.

Lemma wait_data_ok n killed p : empty p && p_writeopen p = false -> wait_data (S n) killed p = Ret (true, p).
Proof. intros Hf. unfold wait_data, mbind, M_bind, gets, id. by rewrite Hf. Qed.

Lemma wait_data_empty n killed p : empty p && p_writeopen p = true ->
  wait_data (S n) killed p = if killed then Ret (false, set_sems false (p_wlock p) (p_rlock p) p) else Block.
Proof.
  revert p. induction (S n) as [|m IH] eqn:En in n |- *; intros p Hf; [done|]. cbn [wait_data].
  rewrite (bind_ret (gets id) _ p p p), Hf by done. destruct killed; [done|]. unfold release_pipe, wait_rlock.
  rewrite (bind_ret (modify _) _ _ tt _ eq_refl). unfold mbind, M_bind, gets, modify, id. cbn [set_sems p_rlock].
  destruct (p_rlock p <=? 0); [done|]. destruct m as [|m]; [done|]. by rewrite (IH m eq_refl).
Qed.

Lemma write_loop_run bytes killed p l :
  pipe_rep p l ->
  if decide (length bytes <= room l)%nat then
    exists p', write_loop bytes killed p = Ret (true, p') /\ pipe_rep p' (l ++ (u8 <$> bytes)) /\
      same_ends p p' /\ p_lock p' = p_lock p
  else if negb (p_readopen p) || killed then
    exists p', write_loop bytes killed p = Ret (false, p') /\ pipe_rep p' (l ++ take (room l) (u8 <$> bytes)) /\
      same_ends p p' /\ p_lock p' = false
  else write_loop bytes killed p = Block.
Proof.
  revert p l. induction bytes as [|c bytes IH]; intros p l Hrep; cbn [write_loop length].
  { rewrite decide_True by (cbn; lia). exists p. cbn. rewrite app_nil_r. done. }
  pose proof (full_spec p l Hrep) as Hf. pose proof (pr_room p l Hrep) as Hroom.
  rewrite (bind_ret (gets id) _ p p p) by done.
  destruct (Z.eqb_spec (Z.of_nat (length l)) PIPE_SIZE) as [E|E].
  - assert (room l = 0%nat) as Er by (unfold room, PIPE_SIZE in *; lia). rewrite Er in *.
    rewrite decide_False by lia.
    pose proof (wait_room_full (Z.to_nat (p_wlock p)) killed p Hf) as Hwait.
    destruct (negb (p_readopen p) || killed).
    + rewrite (bind_ret _ _ _ _ _ Hwait). eexists. split; [reflexivity|]. cbn [take]. rewrite app_nil_r.
      split; [by apply rep_sems|done].
    + unfold mbind, M_bind. by rewrite Hwait.
  - assert (room l = S (room (l ++ [u8 c]))) as Er by (unfold room, PIPE_SIZE in *; rewrite length_app; cbn [length]; lia).
    rewrite (bind_ret _ _ _ _ _ (wait_room_ok (Z.to_nat (p_wlock p)) killed p Hf)). cbn [negb].
    set (p1 := set_ring (<[Z.to_nat (p_nwrite p mod PIPE_SIZE) := u8 c]> (p_data p)) (p_nread p) (u32 (p_nwrite p + 1)) p).
    rewrite (bind_ret (modify _) _ p tt p1) by done.
    pose proof (rep_push p l (u8 c) Hrep ltac:(lia)) as Hrep1. fold p1 in Hrep1.
    specialize (IH p1 (l ++ [u8 c]) Hrep1). rewrite Er in *.
    destruct (decide (length bytes <= room (l ++ [u8 c]))%nat) as [Hle|Hgt].
    + rewrite decide_True by lia. destruct IH as (p' & -> & Hr & Hs & Hl). exists p'. rewrite <-app_assoc in Hr. done.
    + rewrite decide_False by lia. change (p_readopen p1) with (p_readopen p) in IH.
      destruct (negb (p_readopen p) || killed); [|exact IH].
      destruct IH as (p' & -> & Hr & Hs & Hl). exists p'. rewrite <-app_assoc in Hr. done.
Qed.

Lemma read_loop_run n p l :
  pipe_rep p l -> exists p', read_loop n p = Ret (take n l, p') /\ pipe_rep p' (drop n l) /\ same_ends p p' /\ p_lock p' = p_lock p.
Proof.
  revert p l. induction n as [|n IH]; intros p l Hrep; cbn [read_loop]; [by exists p|].
  rewrite (bind_ret (gets id) _ p p p) by done. rewrite (empty_spec p l Hrep).
  destruct l as [|c l]; [by exists p|]. rewrite bool_decide_false by done.
  destruct (rep_pop p l c Hrep) as [Hc Hrep1]. rewrite Hc.
  rewrite (bind_ret (some_or_ub (Some c)) _ p c p) by done.
  set (p1 := set_ring (p_data p) (u32 (p_nread p + 1)) (p_nwrite p) p) in *. rewrite (bind_ret (modify _) _ p tt p1) by done.
  destruct (IH p1 l Hrep1) as (p' & Hr & Hrep' & Hs & Hl). rewrite (bind_ret _ _ _ _ _ Hr). exists p'. done.
Qed.

(** ** Properties *)

(** [pipe_write].  With room for all bytes it appends them, also when the
    32-bit counters wrap, wakes a reader and releases the lock.  Otherwise it
    first fills the pipe; then it returns -1 with the lock released if the read
    end is closed or the process was killed, and waits if not. *)
Theorem pipe_write_appends killed bytes p l :
  pipe_rep p l -> p_lock p = false ->
  if decide (length bytes <= room l)%nat then
    exists p', pipe_write killed bytes p = Ret (Z.of_nat (length bytes), p') /\
      pipe_rep p' (l ++ (u8 <$> bytes)) /\ p_lock p' = false /\ p_rlock p' = p_rlock p + 1
  else if negb (p_readopen p) || killed then
    exists p', pipe_write killed bytes p = Ret (-1, p') /\ pipe_rep p' (l ++ take (room l) (u8 <$> bytes)) /\ p_lock p' = false
  else pipe_write killed bytes p = Block.
Proof.
  intros Hrep Hl. set (p0 := set_sems true (p_wlock p) (p_rlock p) p).
  assert (acquire_pipe p = Ret (tt, p0)) as Ha by (unfold acquire_pipe, mbind, M_bind, gets, modify; cbn; by rewrite Hl).
  pose proof (write_loop_run bytes killed p0 l (rep_sems _ _ _ _ _ Hrep)) as H.
  unfold pipe_write. rewrite (bind_ret _ _ _ _ _ Ha). change (p_readopen p0) with (p_readopen p) in H.
  destruct (decide (length bytes <= room l)%nat).
  - destruct H as (p1 & Hr & Hrep1 & (_ & H1 & _) & _). rewrite (bind_ret _ _ _ _ _ Hr).
    eexists. split; [reflexivity|]. split; [by do 2 apply rep_sems|]. split; [done|]. cbn. rewrite H1. done.
  - destruct (negb (p_readopen p) || killed).
    + destruct H as (p1 & Hr & Hrep1 & _ & H1). rewrite (bind_ret _ _ _ _ _ Hr). exists p1. done.
    + unfold mbind at 1, M_bind at 1. by rewrite H.
Qed.

(** [pipe_read] takes the oldest [n] bytes, or all there are, in the order
    they were written; on an empty pipe it returns 0 once the write end is
    closed, -1 if the process was killed, and waits otherwise. *)
Theorem pipe_read_takes (killed : bool) n p l :
  pipe_rep p l -> p_lock p = false ->
  if bool_decide (l = []) && p_writeopen p then
    if killed then exists p', pipe_read killed n p = Ret ((-1, []), p') /\ pipe_rep p' l /\ p_lock p' = false
    else pipe_read killed n p = Block
  else exists p', pipe_read killed n p =
      Ret ((Z.of_nat (length (take (Z.to_nat n) l)), take (Z.to_nat n) l), p') /\
    pipe_rep p' (drop (Z.to_nat n) l) /\ p_lock p' = false /\ p_wlock p' = p_wlock p + 1.
Proof.
  intros Hrep Hl. set (p0 := set_sems true (p_wlock p) (p_rlock p) p).
  assert (acquire_pipe p = Ret (tt, p0)) as Ha by (unfold acquire_pipe, mbind, M_bind, gets, modify; cbn; by rewrite Hl).
  assert (pipe_rep p0 l) as Hrep0 by by apply rep_sems. pose proof (empty_spec p0 l Hrep0) as He.
  unfold pipe_read. rewrite (bind_ret _ _ _ _ _ Ha), (bind_ret (gets id) _ p0 p0 p0) by done.
  destruct (bool_decide (l = []) && p_writeopen p) eqn:E.
  - apply andb_true_iff in E as [El%bool_decide_eq_true Ew]. subst l.
    assert (empty p0 && p_writeopen p0 = true) as Hed by (rewrite He; exact Ew).
    pose proof (wait_data_empty (Z.to_nat (p_rlock p0)) killed p0 Hed) as Hwait. destruct killed.
    + rewrite (bind_ret _ _ _ _ _ Hwait). eexists. split; [reflexivity|]. split; [by apply rep_sems|done].
    + unfold mbind at 1, M_bind at 1. by rewrite Hwait.
  - destruct (read_loop_run (Z.to_nat n) p0 l Hrep0) as (p1 & Hr & Hrep1 & (H1 & _) & _).
    assert (empty p0 && p_writeopen p0 = false) as Hed by (rewrite He; exact E).
    rewrite (bind_ret _ _ _ _ _ (wait_data_ok (Z.to_nat (p_rlock p0)) killed p0 Hed)). cbn [negb].
    rewrite (bind_ret _ _ _ _ _ Hr). eexists. split; [reflexivity|]. split; [by do 2 apply rep_sems|]. split; [done|].
    cbn. rewrite H1. done.
Qed.

(** ** A pipe whose counters are about to wrap around *)

Definition demo_pipe : Pipe := mkPipe false 0 0 (replicate 512 0) (2 ^ 32 - 1) (2 ^ 32 - 1) true true true.

Lemma demo_pipe_rep : pipe_rep demo_pipe [].
Proof. split; [split; [done|done|intros i x Hx; discriminate Hx]|cbn; lia|reflexivity]. Qed.

Lemma pipe_write_appends_witness :
  exists p', pipe_write false [104; 105] demo_pipe = Ret (2, p') /\ pipe_rep p' [104; 105].
Proof.
  destruct (pipe_write_appends false [104; 105] demo_pipe [] demo_pipe_rep eq_refl) as (p' & H1 & H2 & _).
  exists p'. split; [exact H1|exact H2].
Defined.

Lemma pipe_read_takes_witness : pipe_read false 5 demo_pipe = Block.
Proof. apply (pipe_read_takes false 5 demo_pipe [] demo_pipe_rep eq_refl). Defined.
