(* ===== verification/Console.v ===== *)
(** * The console: [kernel/console.c], [kernel/console.h]

    The line discipline run by the UART interrupt and the system-call side that
    reads and writes.  [console_read] and [console_write] release the lock of
    the device inode on entry and take it again on every way out; file [Inode]
    wraps the bodies modelled here in these two calls.

    The characters sent to the UART are [con_out], the newest first.  A call
    that would sleep with nobody to post the semaphore has the outcome
    [Block]. *)

From Stdlib Require Import ZArith Lia.
From stdpp Require Import base tactics numbers gmap list.
From S2P Require Import Prelude Ring.

Local Open Scope Z_scope.

Definition IBUF_SIZE : Z := 128.
Definition BACKSPACE : Z := 256.

(** [C(x)]: the character of Control-x. *)
Definition ctrl (x : Z) : Z := x - 64.
Definition ctrl_C : Z := ctrl 67.
Definition ctrl_D : Z := ctrl 68.
Definition ctrl_U : Z := ctrl 85.
Definition NL : Z := 10.
Definition CR : Z := 13.
Definition DEL : Z := 127.

(** [struct console] and what it sent to the UART. *)
Record console : Type := mkConsole {
  con_lock : bool;
  con_sem : Z;
  con_buf : list Z;
  con_read_idx : Z;
  con_write_idx : Z;
  con_edit_idx : Z;
  con_out : list Z }.

Abbreviation CM := (M console).

Definition con_set_lock (b : bool) (c : console) : console :=
  mkConsole b (con_sem c) (con_buf c) (con_read_idx c) (con_write_idx c) (con_edit_idx c) (con_out c).
Definition con_set_sem (v : Z) (c : console) : console :=
  mkConsole (con_lock c) v (con_buf c) (con_read_idx c) (con_write_idx c) (con_edit_idx c) (con_out c).
Definition con_set_ring (buf : list Z) (r w e : Z) (c : console) : console :=
  mkConsole (con_lock c) (con_sem c) buf r w e (con_out c).
Definition con_set_out (o : list Z) (c : console) : console :=
  mkConsole (con_lock c) (con_sem c) (con_buf c) (con_read_idx c) (con_write_idx c) (con_edit_idx c) o.

Definition acquire_cons : CM unit :=
  c ← gets id; if con_lock c then block else modify (con_set_lock true).
Definition release_cons : CM unit := modify (con_set_lock false).
Definition post_cons : CM unit := modify (fun c => con_set_sem (con_sem c + 1) c).
Definition wait_cons : CM unit :=
  c ← gets id; if con_sem c <=? 0 then block else modify (con_set_sem (con_sem c - 1)).

(** [console_init]: the buffer and the indices are zero, as static storage. *)
Definition console_init : console := mkConsole false 0 (replicate (Z.to_nat IBUF_SIZE) 0) 0 0 0 [].

(** ** Output *)

Definition uart_put_char (ch : Z) : CM unit := modify (fun c => con_set_out (ch :: con_out c) c).

Definition putc (c : Z) : CM unit :=
  if c =? BACKSPACE then uart_put_char 8;; uart_put_char 32;; uart_put_char 8
  else uart_put_char c.

(** The body of [console_write]; [buf] are the [n] bytes. *)
Definition cons_write (buf : list Z) : CM Z :=
  acquire_cons;;
  for_each buf putc;;
  release_cons;;
  mret (Z.of_nat (length buf)).

(** ** Input *)

(** The loop of [console_read] that waits for a committed character; [false]
    when the process is killed.  [n] is one more than the units of the semaphore. *)
Fixpoint cons_wait (n : nat) (killed : bool) : CM bool :=
  match n with
  | O => block
  | S n' =>
      c ← gets id;
      if con_read_idx c =? con_write_idx c then
        if killed then mret false else
        release_cons;; wait_cons;; cons_wait n' killed
      else mret true
  end.

(** The loop of [console_read] over the [n] characters still wanted; [got] is
    [n < m], whether one was already stored.  It gives the characters stored and
    whether the loop ended by itself, not because the process was killed. *)
Fixpoint cons_read_loop (n : nat) (got killed : bool) : CM (bool * list Z) :=
  match n with
  | O => mret (true, [])
  | S n' =>
      c ← gets id;
      ok ← cons_wait (S (Z.to_nat (con_sem c))) killed;
      if negb ok then mret (false, []) else
      c ← gets id;
      ch ← some_or_ub (con_buf c !! Z.to_nat (con_read_idx c mod IBUF_SIZE));
      modify (fun c => con_set_ring (con_buf c) (u64 (con_read_idx c + 1)) (con_write_idx c) (con_edit_idx c) c);;
      if ch =? ctrl_D then
        (if (got : bool) then
           modify (fun c => con_set_ring (con_buf c) (u64 (con_read_idx c - 1)) (con_write_idx c) (con_edit_idx c) c)
         else mret tt);;
        mret (true, [])
      else if ch =? NL then mret (true, [ch])
      else
        '(ok, l) ← cons_read_loop n' true killed;
        mret (ok, ch :: l)
  end.

(** The body of [console_read]: the result and the characters stored. *)
Definition cons_read (killed : bool) (n : Z) : CM (Z * list Z) :=
  acquire_cons;;
  '(ok, l) ← cons_read_loop (Z.to_nat n) false killed;
  release_cons;;
  mret (if (ok : bool) then Z.of_nat (length l) else -1, l).

(** ** The interrupt handler *)

(** The loop for Control-U; [n] is the distance from [write_idx] to [edit_idx]. *)
Fixpoint erase_line (n : nat) : CM unit :=
  match n with
  | O => mret tt
  | S n' =>
      c ← gets id;
      ch ← some_or_ub (con_buf c !! Z.to_nat (u64 (con_edit_idx c - 1) mod IBUF_SIZE));
      if ch =? NL then mret tt else
      modify (fun c => con_set_ring (con_buf c) (con_read_idx c) (con_write_idx c) (u64 (con_edit_idx c - 1)) c);;
      putc BACKSPACE;;
      erase_line n'
  end.

(** The last branch of [console_intr]: store the character and echo it. *)
Definition cons_insert (ch0 : Z) : CM unit :=
  c ← gets id;
  if u64 (con_edit_idx c - con_read_idx c) <? IBUF_SIZE then
    let ch := if ch0 =? CR then NL else ch0 in
    modify (con_set_ring (<[Z.to_nat (con_edit_idx c mod IBUF_SIZE) := ch]> (con_buf c))
              (con_read_idx c) (con_write_idx c) (u64 (con_edit_idx c + 1)));;
    putc ch;;
    c ← gets id;
    if (ch =? NL) || (ch =? ctrl_D) || (con_edit_idx c =? u64 (con_read_idx c + IBUF_SIZE)) then
      modify (con_set_ring (con_buf c) (con_read_idx c) (con_edit_idx c) (con_edit_idx c));;
      post_cons
    else mret tt
  else mret tt.

Section intr.
(** The process table and [kill(thisproc()->pid)] on it. *)
Context {P : Type} (kill_this : M P Z).

Definition on_console {A} : CM A -> M (console * P) A := zoom fst (fun c s => (c, snd s)).
Definition on_procs {A} : M P A -> M (console * P) A := zoom snd (fun p s => (fst s, p)).

(** [console_intr] between taking and releasing the lock. *)
Definition intr_char (ch : Z) : M (console * P) unit :=
  if ch =? 0 then mret tt
  else if ch =? ctrl_C then r ← on_procs kill_this; ASSERT (r =? 0)
  else if ch =? ctrl_U then
    c ← gets fst; on_console (erase_line (Z.to_nat (u64 (con_edit_idx c - con_write_idx c))))
  else if ch =? DEL then
    c ← gets fst;
    if con_edit_idx c =? con_write_idx c then mret tt else
    on_console (modify (fun c => con_set_ring (con_buf c) (con_read_idx c) (con_write_idx c) (u64 (con_edit_idx c - 1)) c);;
                putc BACKSPACE)
  else on_console (cons_insert ch).

Definition console_intr (ch : Z) : M (console * P) unit :=
  on_console acquire_cons;; intr_char ch;; on_console release_cons.
End intr.

(** ** The line discipline *)

(** The committed characters [q] that readers may take and the line [l] that is
    still being edited, which holds no line end. *)
Record con_rep (c : console) (q l : list Z) : Prop := {
  cr_ring : ring_rep IBUF_SIZE (con_buf c) (con_read_idx c) (q ++ l);
  cr_read : 0 <= con_read_idx c < 2 ^ 64;
  cr_write : con_write_idx c = u64 (con_read_idx c + Z.of_nat (length q));
  cr_edit : con_edit_idx c = u64 (con_read_idx c + Z.of_nat (length (q ++ l)));
  cr_line : NL ∉ l }.

(** What a character other than Control-C does: the new committed characters,
    the new line, and whether readers are notified. *)
Definition discipline (ch : Z) (q l : list Z) : list Z * list Z * bool :=
  if ch =? 0 then (q, l, false)
  else if ch =? ctrl_U then (q, [], false)
  else if ch =? DEL then (q, take (length l - 1) l, false)
  else if Z.of_nat (length (q ++ l)) <? IBUF_SIZE then
    let ch := if ch =? CR then NL else ch in
    if (ch =? NL) || (ch =? ctrl_D) || (Z.of_nat (length (q ++ l)) + 1 =? IBUF_SIZE)
    then (q ++ l ++ [ch], [], true) else (q, l ++ [ch], false)
  else (q, l, false).

(** The characters echoed, the newest first. *)
Definition rubout : list Z := [8; 32; 8].
Definition echo (ch : Z) (q l : list Z) : list Z :=
  if ch =? 0 then []
  else if ch =? ctrl_U then l ≫= (fun _ => rubout)
  else if ch =? DEL then match l with [] => [] | _ => rubout end
  else if Z.of_nat (length (q ++ l)) <? IBUF_SIZE then [if ch =? CR then NL else ch] else [].

Lemma con_cells : 0 < IBUF_SIZE /\ (IBUF_SIZE | 2 ^ 64).
Proof. split; [done|]. by exists (2 ^ 57). Qed.

Lemma con_room c q l : con_rep c q l -> Z.of_nat (length (q ++ l)) <= IBUF_SIZE.
Proof. intros [[] _ _ _ _]. done. Qed.

Lemma u64_add_l a b : u64 (u64 a + b) = u64 (a + b).
Proof. apply Zplus_mod_idemp_l. Qed.
Lemma u64_sub_l a b : u64 (u64 a - b) = u64 (a - b).
Proof. apply Zminus_mod_idemp_l. Qed.

Lemma con_used c q l : con_rep c q l -> u64 (con_edit_idx c - con_read_idx c) = Z.of_nat (length (q ++ l)).
Proof.
  intros H. pose proof (con_room c q l H) as Hr. rewrite (cr_edit c q l H), u64_sub_l.
  rewrite Z.add_simpl_l. apply u64_small. unfold IBUF_SIZE in Hr. lia.
Qed.

Lemma con_pending c q l : con_rep c q l -> u64 (con_edit_idx c - con_write_idx c) = Z.of_nat (length l).
Proof.
  intros H. pose proof (con_room c q l H) as Hr. rewrite (cr_edit c q l H), (cr_write c q l H). rewrite length_app in *.
  unfold u64. rewrite <-Zminus_mod. fold (u64 (con_read_idx c + Z.of_nat (length q + length l) - (con_read_idx c + Z.of_nat (length q)))).
  rewrite u64_small; unfold IBUF_SIZE in Hr; lia.
Qed.

Lemma con_line_empty c q l : con_rep c q l -> (con_edit_idx c =? con_write_idx c) = bool_decide (l = []).
Proof.
  intros H. pose proof (con_pending c q l H) as Hp. case_bool_decide as E.
  - subst. rewrite (cr_edit c q [] H), (cr_write c q [] H), app_nil_r. apply Z.eqb_refl.
  - apply Z.eqb_neq. intros E'. rewrite E', Z.sub_diag in Hp. destruct l; [done|]. cbn [length] in Hp. unfold u64 in Hp. rewrite Z.mod_0_l in Hp by done. lia.
Qed.

(** Taking back the last character of the line. *)
Lemma con_unput c q l ch :
  con_rep c q (l ++ [ch]) ->
  con_buf c !! Z.to_nat (u64 (con_edit_idx c - 1) mod IBUF_SIZE) = Some ch /\
  con_rep (con_set_ring (con_buf c) (con_read_idx c) (con_write_idx c) (u64 (con_edit_idx c - 1)) c) q l.
Proof.
  intros H. destruct con_cells as [H0 Hd]. destruct H as [Hr Hn Hw He Hl]. rewrite app_assoc in Hr, He.
  assert (u64 (con_edit_idx c - 1) = u64 (con_read_idx c + Z.of_nat (length (q ++ l)))) as E.
  { rewrite He, u64_sub_l. f_equal. rewrite (length_app _ [ch]). cbn [length]. lia. }
  split.
  - rewrite E. unfold u64. rewrite wrap_cell by done. by apply ring_final.
  - split; cbn [con_buf con_read_idx con_write_idx con_edit_idx con_set_ring]; try done; [by eapply ring_prefix|set_solver].
Qed.

Lemma con_put c q l ch : con_rep c q l -> Z.of_nat (length (q ++ l)) < IBUF_SIZE ->
  let c' := con_set_ring (<[Z.to_nat (con_edit_idx c mod IBUF_SIZE) := ch]> (con_buf c))
              (con_read_idx c) (con_write_idx c) (u64 (con_edit_idx c + 1)) c in
  ring_rep IBUF_SIZE (con_buf c') (con_read_idx c') (q ++ l ++ [ch]) /\
  con_edit_idx c' = u64 (con_read_idx c' + Z.of_nat (length (q ++ l ++ [ch]))).
Proof.
  intros [Hr Hn Hw He Hl] Hlt c'. destruct con_cells as [H0 Hd].
  subst c'. cbn [con_buf con_read_idx con_edit_idx con_set_ring]. rewrite app_assoc. split.
  - rewrite He. unfold u64. rewrite wrap_cell by done. by apply ring_push.
  - rewrite He, u64_add_l. f_equal. rewrite (length_app _ [ch]). cbn [length]. lia.
Qed.

Lemma con_rep_ext c c' q l :
  con_rep c q l -> con_buf c' = con_buf c -> con_read_idx c' = con_read_idx c ->
  con_write_idx c' = con_write_idx c -> con_edit_idx c' = con_edit_idx c -> con_rep c' q l.
Proof. intros [] H1 H2 H3 H4. split; rewrite ?H1, ?H2, ?H3, ?H4; done. Qed.

(** [putc(BACKSPACE)]. *)
Lemma putc_backspace c : putc BACKSPACE c = Ret (tt, con_set_out (rubout ++ con_out c) c).
Proof. done. Qed.

Lemma erase_line_run c q l : con_rep c q l ->
  exists c', erase_line (length l) c = Ret (tt, c') /\ con_rep c' q [] /\
    con_out c' = (l ≫= (fun _ => rubout)) ++ con_out c /\ con_sem c' = con_sem c /\ con_lock c' = con_lock c.
Proof.
  revert c. induction l as [|ch l IH] using rev_ind; intros c Hrep; [by exists c|].
  rewrite length_app, Nat.add_comm. cbn [length Nat.add erase_line]. rewrite (bind_ret (gets id) _ c c c) by done.
  destruct (con_unput c q l ch Hrep) as [Hch Hrep1]. rewrite Hch. rewrite (bind_ret (some_or_ub _) _ c ch c) by done.
  rewrite (proj2 (Z.eqb_neq ch NL)) by (intros ->; apply (cr_line _ _ _ Hrep); set_solver).
  set (c1 := con_set_ring (con_buf c) (con_read_idx c) (con_write_idx c) (u64 (con_edit_idx c - 1)) c) in *.
  rewrite (bind_ret (modify _) _ c tt c1) by done. rewrite (bind_ret _ _ _ _ _ (putc_backspace c1)).
  destruct (IH (con_set_out (rubout ++ con_out c1) c1)) as (c' & Hr & Hrep' & Ho & Hs & Hl); [by eapply con_rep_ext|].
  exists c'. split_and!; [done|done| |done|done]. rewrite Ho. cbn [con_out con_set_out]. change (con_out c1) with (con_out c).
  rewrite bind_app, <-!app_assoc. done.
Qed.

(** What a step of the discipline leaves in the console. *)
Definition disciplined (ch : Z) (q l : list Z) (c c' : console) : Prop :=
  let '(q', l', notified) := discipline ch q l in
  con_rep c' q' l' /\ con_out c' = echo ch q l ++ con_out c /\
  con_sem c' = con_sem c + (if notified then 1 else 0) /\ con_lock c' = con_lock c.

Lemma cons_insert_run ch c q l :
  con_rep c q l -> ch <> 0 -> ch <> ctrl_U -> ch <> DEL -> ch <> BACKSPACE ->
  exists c', cons_insert ch c = Ret (tt, c') /\ disciplined ch q l c c'.
Proof.
  intros Hrep H0 HU HD HB. pose proof (con_used c q l Hrep) as Hu. unfold disciplined, discipline, echo, cons_insert.
  rewrite !(proj2 (Z.eqb_neq _ _) H0), !(proj2 (Z.eqb_neq _ _) HU), !(proj2 (Z.eqb_neq _ _) HD).
  rewrite (bind_ret (gets id) _ c c c) by done. rewrite Hu.
  destruct (Z.ltb_spec (Z.of_nat (length (q ++ l))) IBUF_SIZE) as [Hlt|Hge].
  2: { exists c. rewrite Z.add_0_r. done. }
  set (ch' := if ch =? CR then NL else ch). destruct (con_put c q l ch' Hrep Hlt) as [Hring Hedit].
  set (c1 := con_set_ring _ _ _ _ c) in Hring, Hedit. rewrite (bind_ret (modify _) _ c tt c1) by done.
  assert (ch' <> BACKSPACE) as HB' by (unfold ch'; destruct (Z.eqb_spec ch CR); done).
  assert (putc ch' c1 = Ret (tt, con_set_out (ch' :: con_out c) c1)) as Hp.
  { unfold putc. by rewrite (proj2 (Z.eqb_neq _ _) HB'). }
  rewrite (bind_ret _ _ _ _ _ Hp). set (c2 := con_set_out (ch' :: con_out c) c1).
  rewrite (bind_ret (gets id) _ c2 c2 c2) by done.
  assert ((con_edit_idx c2 =? u64 (con_read_idx c2 + IBUF_SIZE)) = (Z.of_nat (length (q ++ l)) + 1 =? IBUF_SIZE)) as Hfull.
  { change (con_edit_idx c2) with (con_edit_idx c1). change (con_read_idx c2) with (con_read_idx c1). rewrite Hedit.
    rewrite app_assoc, (length_app _ [ch']). cbn [length]. rewrite Nat2Z.inj_add. change (Z.of_nat 1) with 1.
    destruct (Z.eqb_spec (Z.of_nat (length (q ++ l)) + 1) IBUF_SIZE) as [->|Hne]; [apply Z.eqb_refl|].
    apply Z.eqb_neq. intros E. apply Hne. unfold IBUF_SIZE in *. apply (wrap_inj (2 ^ 64) (con_read_idx c1)); [lia|lia|done]. }
  rewrite Hfull. destruct ((ch' =? NL) || (ch' =? ctrl_D) || (Z.of_nat (length (q ++ l)) + 1 =? IBUF_SIZE)) eqn:Ec.
  - eexists. split; [reflexivity|]. split_and!; [|done|done|done].
    split; cbn [con_buf con_read_idx con_write_idx con_edit_idx con_set_ring con_set_sem]; rewrite ?app_nil_r; try done.
    + apply Hrep.
    + set_solver.
  - exists c2. rewrite Z.add_0_r. split_and!; [done| |done|done|done].
    split; cbn [con_buf con_read_idx con_write_idx con_edit_idx c2 con_set_out]; try done; [apply Hrep|apply Hrep|].
    apply orb_false_iff in Ec as [[Ec _]%orb_false_iff _]. apply Z.eqb_neq in Ec.
    pose proof (cr_line _ _ _ Hrep). set_solver.
Qed.

(** ** Reading *)

(** The characters a read of up to [n] takes from [q], what it leaves, and
    whether it ended: at the [n]-th character, after a line end, or at a
    Control-D, which is consumed only when nothing was read before it. *)
Fixpoint take_line (n : nat) (got : bool) (q : list Z) : list Z * list Z * bool :=
  match n, q with
  | O, _ => ([], q, true)
  | S _, [] => ([], [], false)
  | S n', ch :: q' =>
      if ch =? ctrl_D then ([], if got then q else q', true)
      else if ch =? NL then ([ch], q', true)
      else let '(l, rest, fin) := take_line n' true q' in (ch :: l, rest, fin)
  end.

Lemma con_empty c q l : con_rep c q l -> (con_read_idx c =? con_write_idx c) = bool_decide (q = []).
Proof.
  intros H. pose proof (con_room c q l H) as Hr. rewrite (cr_write c q l H). pose proof (cr_read c q l H) as Hn.
  case_bool_decide as E.
  - subst. cbn [length]. rewrite Z.add_0_r, u64_small by done. apply Z.eqb_refl.
  - apply Z.eqb_neq. intros E'. apply E, length_zero_iff_nil, Nat2Z.inj. rewrite length_app in Hr. unfold IBUF_SIZE in *.
    apply (wrap_inj (2 ^ 64) (con_read_idx c)); [lia|lia|].
    change (u64 (con_read_idx c + Z.of_nat (length q)) = u64 (con_read_idx c + 0)). by rewrite <-E', Z.add_0_r, u64_small.
Qed.

Lemma cons_wait_ok n killed c : (con_read_idx c =? con_write_idx c) = false -> cons_wait (S n) killed c = Ret (true, c).
Proof. intros H. cbn [cons_wait]. rewrite (bind_ret (gets id) _ c c c) by done. by rewrite H. Qed.

Lemma cons_wait_empty n killed c : (con_read_idx c =? con_write_idx c) = true ->
  cons_wait (S n) killed c = if killed then Ret (false, c) else Block.
Proof.
  revert c. induction (S n) as [|m IH] eqn:En in n |- *; intros c H; [done|]. cbn [cons_wait].
  rewrite (bind_ret (gets id) _ c c c) by done. rewrite H. destruct killed; [done|]. unfold release_cons, wait_cons.
  rewrite (bind_ret (modify _) _ _ tt _ eq_refl). unfold mbind, M_bind, gets, modify, id. cbn [con_set_lock con_sem].
  destruct (con_sem c <=? 0); [done|]. destruct m as [|m]; [done|]. by rewrite (IH m eq_refl).
Qed.

Lemma con_take c q l ch : con_rep c (ch :: q) l ->
  con_buf c !! Z.to_nat (con_read_idx c mod IBUF_SIZE) = Some ch /\
  con_rep (con_set_ring (con_buf c) (u64 (con_read_idx c + 1)) (con_write_idx c) (con_edit_idx c) c) q l.
Proof.
  destruct con_cells as [H0 Hd]. intros [Hr Hn Hw He Hl]. destruct (ring_pop _ _ _ _ _ Hr) as [Hc Hr']. split; [done|].
  split; cbn [con_buf con_read_idx con_write_idx con_edit_idx con_set_ring].
  - by apply ring_wrap.
  - apply u64_range.
  - rewrite Hw, u64_add_l. f_equal. cbn [length]. lia.
  - rewrite He, u64_add_l. f_equal. cbn [length app]. lia.
  - done.
Qed.

(** What a reader leaves of the console. *)
Definition read_leaves (c c' : console) : Prop :=
  con_out c' = con_out c /\ con_sem c' = con_sem c /\ con_lock c' = con_lock c.

Lemma cons_read_loop_run n got killed c q l :
  con_rep c q l ->
  let '(bs, rest, fin) := take_line n got q in
  if fin || killed then exists c', cons_read_loop n got killed c = Ret ((fin, bs), c') /\ con_rep c' rest l /\ read_leaves c c'
  else cons_read_loop n got killed c = Block.
Proof.
  revert got c q. induction n as [|n IH]; intros got c q Hrep; cbn [take_line cons_read_loop]; [by exists c|].
  rewrite (bind_ret (gets id) _ c c c) by done. pose proof (con_empty c q l Hrep) as He. destruct q as [|ch q].
  - rewrite bool_decide_true in He by done. pose proof (cons_wait_empty (Z.to_nat (con_sem c)) killed c He) as Hw.
    destruct killed; cbn [orb].
    + rewrite (bind_ret _ _ _ _ _ Hw). by exists c.
    + unfold mbind, M_bind. by rewrite Hw.
  - rewrite bool_decide_false in He by done. rewrite (bind_ret _ _ _ _ _ (cons_wait_ok _ _ _ He)). cbn [negb].
    rewrite (bind_ret (gets id) _ c c c) by done. destruct (con_take c q l ch Hrep) as [Hch Hrep1].
    rewrite Hch. rewrite (bind_ret (some_or_ub _) _ c ch c) by done.
    set (c1 := con_set_ring (con_buf c) (u64 (con_read_idx c + 1)) (con_write_idx c) (con_edit_idx c) c) in *.
    rewrite (bind_ret (modify _) _ c tt c1) by done. destruct (ch =? ctrl_D); [|destruct (ch =? NL)].
    + destruct got; eexists; (split; [reflexivity|]); [|done]. split; [|done]. eapply con_rep_ext; [exact Hrep|done| |done|done].
      cbn [con_read_idx con_set_ring c1]. rewrite u64_sub_l, Z.add_simpl_r. apply u64_small, Hrep.
    + exists c1. done.
    + specialize (IH true c1 q Hrep1). destruct (take_line n true q) as [[bs rest] fin].
      destruct (fin || killed); [|unfold mbind, M_bind; by rewrite IH].
      destruct IH as (c' & Hr & H). rewrite (bind_ret _ _ _ _ _ Hr). by exists c'.
Qed.

(** The body of the interrupt handler. *)
Lemma intr_char_run {P} (kill_this : M P Z) ch c q l p :
  con_rep c q l -> ch <> ctrl_C -> 0 <= ch < 256 ->
  exists c', intr_char kill_this ch (c, p) = Ret (tt, (c', p)) /\ disciplined ch q l c c'.
Proof.
  intros Hrep HC Hch. unfold intr_char. destruct (Z.eqb_spec ch 0) as [->|H0].
  { exists c. split; [done|]. unfold disciplined. cbn. rewrite Z.add_0_r. done. }
  rewrite (proj2 (Z.eqb_neq _ _) HC). destruct (Z.eqb_spec ch ctrl_U) as [->|HU].
  { rewrite (bind_ret (gets fst) _ (c, p) c (c, p)) by done. rewrite (con_pending c q l Hrep), Nat2Z.id.
    destruct (erase_line_run c q l Hrep) as (c' & Hr & H1 & H2 & H3 & H4). exists c'. unfold on_console, zoom. cbn [fst]. rewrite Hr.
    split; [done|]. unfold disciplined. change (discipline ctrl_U q l) with (q, @nil Z, false).
    cbn beta iota. rewrite Z.add_0_r. done. }
  destruct (Z.eqb_spec ch DEL) as [->|HD].
  { rewrite (bind_ret (gets fst) _ (c, p) c (c, p)) by done. rewrite (con_line_empty c q l Hrep).
    destruct l as [|ch l _] using rev_ind.
    { exists c. split; [done|]. unfold disciplined. change (discipline DEL q []) with (q, @nil Z, false).
      cbn beta iota. rewrite Z.add_0_r. done. }
    rewrite bool_decide_false by (by destruct l). destruct (con_unput c q l ch Hrep) as [_ Hrep1].
    eexists. split; [reflexivity|]. unfold disciplined.
    change (discipline DEL q (l ++ [ch])) with (q, take (length (l ++ [ch]) - 1) (l ++ [ch]), false).
    rewrite length_app. cbn beta iota. cbn [length]. rewrite Nat.add_sub, take_app_length. split_and!; [by eapply con_rep_ext| |cbn; lia|done].
    by destruct l. }
  destruct (cons_insert_run ch c q l Hrep H0 HU HD) as (c' & Hr & H); [unfold BACKSPACE; lia|].
  exists c'. unfold on_console, zoom. cbn [fst]. by rewrite Hr.
Qed.

(** ** Properties *)

(** the interrupt handler implements the line discipline.  A character is
    appended to the line being edited and echoed while the ring has room, a
    carriage return as a line end; a line end, a Control-D or the last free cell
    commits the line and notifies the readers; DEL takes back one character and
    Control-U the whole line, never one that is committed, with their echoes.
    Control-C kills the current process and leaves the console as it is; the
    handler panics when that fails. *)
Theorem console_intr_discipline {P} (kill_this : M P Z) ch c q l p :
  con_rep c q l -> con_lock c = false -> 0 <= ch < 256 ->
  if ch =? ctrl_C then
    console_intr kill_this ch (c, p) =
      match kill_this p with
      | Ret (r, p') => if r =? 0 then Ret (tt, (con_set_lock false c, p')) else Panic
      | Panic => Panic
      | Block => Block
      | UB => UB
      end
  else exists c', console_intr kill_this ch (c, p) = Ret (tt, (c', p)) /\ disciplined ch q l c c'.
Proof.
  intros Hrep Hlk Hch. set (c0 := con_set_lock true c).
  assert (on_console (P := P) acquire_cons (c, p) = Ret (tt, (c0, p))) as Ha.
  { unfold on_console, zoom, acquire_cons, mbind, M_bind, gets, modify. cbn. by rewrite Hlk. }
  assert (con_rep c0 q l) as Hrep0 by by eapply con_rep_ext.
  unfold console_intr. rewrite (bind_ret _ _ _ _ _ Ha). destruct (Z.eqb_spec ch ctrl_C) as [->|HC].
  - change (intr_char kill_this ctrl_C) with (on_procs kill_this ≫= fun r => ASSERT (r =? 0)).
    unfold mbind, M_bind, on_procs, zoom. cbn [fst snd]. destruct (kill_this p) as [[r p']| | |]; try done.
    unfold ASSERT. destruct (r =? 0); done.
  - destruct (intr_char_run kill_this ch c0 q l p Hrep0 HC Hch) as (c1 & Hr & H). rewrite (bind_ret _ _ _ _ _ Hr).
    exists (con_set_lock false c1). split; [reflexivity|]. unfold disciplined in *.
    destruct (discipline ch q l) as [[q' l'] b]. destruct H as (H1 & H2 & H3 & H4).
    split_and!; [by eapply con_rep_ext|done|done|by rewrite Hlk].
Qed.

(** a read takes characters in the order they were typed, up to the number
    asked for, the end of a line or a Control-D, which marks the end of the file
    when nothing was read before it and is left for the next read otherwise.  It
    waits when it needs more characters than are committed, and gives -1 when
    the process is killed then. *)
Theorem console_read_line killed n c q l :
  con_rep c q l -> con_lock c = false ->
  let '(bs, rest, fin) := take_line (Z.to_nat n) false q in
  if fin || killed then
    exists c', cons_read killed n c = Ret ((if fin then Z.of_nat (length bs) else -1, bs), c') /\
      con_rep c' rest l /\ con_out c' = con_out c /\ con_lock c' = false
  else cons_read killed n c = Block.
Proof.
  intros Hrep Hlk. set (c0 := con_set_lock true c).
  assert (acquire_cons c = Ret (tt, c0)) as Ha by (unfold acquire_cons, mbind, M_bind, gets, modify; cbn; by rewrite Hlk).
  assert (con_rep c0 q l) as Hrep0 by by eapply con_rep_ext.
  pose proof (cons_read_loop_run (Z.to_nat n) false killed c0 q l Hrep0) as H.
  unfold cons_read. rewrite (bind_ret _ _ _ _ _ Ha). destruct (take_line (Z.to_nat n) false q) as [[bs rest] fin].
  destruct (fin || killed); [|unfold mbind at 1, M_bind at 1; by rewrite H].
  destruct H as (c1 & Hr & Hrep1 & Ho & _). rewrite (bind_ret _ _ _ _ _ Hr). eexists. split; [reflexivity|].
  split; [by eapply con_rep_ext|done].
Qed.

(** ** Typing a line and reading it *)

Lemma console_init_rep : con_rep console_init [] [].
Proof. split; [split; [done|done|intros i x H; discriminate H]|cbn; lia|done|done|set_solver]. Qed.

Lemma console_intr_discipline_witness :
  exists c', console_intr (P := unit) (mret 0) 104 (console_init, tt) = Ret (tt, (c', tt)) /\
    con_rep c' [] [104] /\ con_out c' = [104].
Proof.
  destruct (console_intr_discipline (P := unit) (mret 0) 104 console_init [] [] tt console_init_rep eq_refl ltac:(lia))
    as (c' & H1 & H2 & H3 & _). exists c'. split; [exact H1|]. split; [exact H2|exact H3].
Defined.

Lemma demo_line_rep : con_rep (mkConsole false 1 ([104; NL] ++ replicate 126 0) 0 2 2 []) [104; NL] [].
Proof.
  split; cbn [con_buf con_read_idx con_write_idx con_edit_idx]; [|lia|reflexivity|reflexivity|set_solver].
  split; [reflexivity|cbn; unfold IBUF_SIZE; lia|]. intros [|[|i]] x Hx; cbn in Hx; simplify_eq; reflexivity.
Qed.

Lemma console_read_line_witness :
  exists c', cons_read false 80 (mkConsole false 1 ([104; NL] ++ replicate 126 0) 0 2 2 []) = Ret ((2, [104; NL]), c') /\
    con_rep c' [] [].
Proof.
  destruct (console_read_line false 80 _ [104; NL] [] demo_line_rep eq_refl) as (c' & H1 & H2 & _).
  exists c'. split; [exact H1|exact H2].
Defined.
