(* ===== verification/BlockCache.v ===== *)
(** * The interface of the block cache: [BlockCache] of [fs/cache.h]

    The inode layer uses the cache only through the structure of function
    pointers [BlockCache].  [BlockCache] is that structure; [BlockCacheSpec] is
    what its functions promise to a client inside an atomic operation, in terms
    of an abstract view of the cache.  File [CacheInst] shows that [cache.c]
    keeps the promise. *)

From Stdlib Require Import ZArith Lia.
From stdpp Require Import base tactics numbers gmap list.
From S2P Require Import Prelude FsDefs.

Local Open Scope Z_scope.

(** [BlockCache], over the state [S] of an implementation.  [bc_data] and
    [bc_set_data] are the client's accesses to [block->data]. *)
Record BlockCache (S : Type) : Type := mkBlockCache {
  bc_acquire : Z -> M S Z;
  bc_release : Z -> M S unit;
  bc_begin_op : Z -> M S unit;
  bc_sync : Z -> Z -> M S unit;
  bc_end_op : Z -> M S unit;
  bc_alloc : Z -> M S Z;
  bc_free : Z -> Z -> M S unit;
  bc_data : Z -> M S (list Z);
  bc_set_data : Z -> list Z -> M S unit }.
Arguments bc_acquire {S}.
Arguments bc_release {S}.
Arguments bc_begin_op {S}.
Arguments bc_sync {S}.
Arguments bc_end_op {S}.
Arguments bc_alloc {S}.
Arguments bc_free {S}.
Arguments bc_data {S}.
Arguments bc_set_data {S}.

(** ** The abstract view *)

(** The contents of the blocks, which block numbers are marked as used, the
    blocks this client holds (number, and whether it was changed since the last
    [sync]) by address, the blocks in the log, and how many more blocks the
    operation may add to the log. *)
Record cview : Type := mkView {
  cv_content : Z -> list Z;
  cv_used : Z -> bool;
  cv_held : gmap Z (Z * bool);
  cv_logged : gset Z;
  cv_room : Z }.

Definition upd {A} (b : Z) (x : A) (f : Z -> A) : Z -> A := fun c => if c =? b then x else f c.

Lemma upd_eq {A} b (x : A) f : upd b x f b = x.
Proof. unfold upd. by rewrite Z.eqb_refl. Qed.
Lemma upd_ne {A} b (x : A) f c : c <> b -> upd b x f c = f c.
Proof. intros H. unfold upd. by rewrite (proj2 (Z.eqb_neq c b) H). Qed.

Definition v_hold (p b : Z) (dirty : bool) (v : cview) : cview :=
  mkView (cv_content v) (cv_used v) (<[p := (b, dirty)]> (cv_held v)) (cv_logged v) (cv_room v).
Definition v_drop (p : Z) (v : cview) : cview :=
  mkView (cv_content v) (cv_used v) (delete p (cv_held v)) (cv_logged v) (cv_room v).
Definition v_store (b : Z) (x : list Z) (v : cview) : cview :=
  mkView (upd b x (cv_content v)) (cv_used v) (cv_held v) (cv_logged v) (cv_room v).
Definition v_mark (b : Z) (u : bool) (v : cview) : cview :=
  mkView (cv_content v) (upd b u (cv_used v)) (cv_held v) (cv_logged v) (cv_room v).

(** What it costs to have block [b] in the log. *)
Definition log_cost (b : Z) (v : cview) : Z := if decide (b ∈ cv_logged v) then 0 else 1.
Definition v_log (b : Z) (v : cview) : cview :=
  mkView (cv_content v) (cv_used v) (cv_held v) ({[b]} ∪ cv_logged v) (cv_room v - log_cost b v).

Definition zero_block : list Z := replicate (Z.to_nat BLOCK_SIZE) 0.

(** A whole block of bytes. *)
Definition is_block (x : list Z) : Prop := length x = Z.to_nat BLOCK_SIZE /\ Forall is_byte x.

(** ** The promise *)

(** [bc_client b]: a block that clients may use.  [bc_bitmap b]: the block of
    the bitmap that holds the mark of [b]. *)
Class BlockCacheSpec {S} (bc : BlockCache S) (num_blocks ctx : Z) : Type := {
  bc_rep : cview -> S -> Prop;
  bc_client : Z -> Prop;
  bc_bitmap : Z -> Z;
  bc_ctx : ctx <> 0;
  bc_block : forall v s b, bc_rep v s -> bc_client b -> is_block (cv_content v b);
  bc_held_client : forall v s p b d, bc_rep v s -> cv_held v !! p = Some (b, d) -> bc_client b;
  acquire_spec : forall v s b, bc_rep v s -> bc_client b ->
    (forall p d, cv_held v !! p <> Some (b, d)) ->
    wp (bc_acquire bc b) (fun p s' => cv_held v !! p = None /\ bc_rep (v_hold p b false v) s') s;
  data_spec : forall v s p b d, bc_rep v s -> cv_held v !! p = Some (b, d) ->
    bc_data bc p s = Ret (cv_content v b, s);
  set_data_spec : forall v s p b d x, bc_rep v s -> cv_held v !! p = Some (b, d) -> is_block x ->
    wp (bc_set_data bc p x) (fun _ s' => bc_rep (v_store b x (v_hold p b true v)) s') s;
  sync_spec : forall v s p b d, bc_rep v s -> cv_held v !! p = Some (b, d) -> log_cost b v <= cv_room v ->
    wp (bc_sync bc ctx p) (fun _ s' => bc_rep (v_log b (v_hold p b false v)) s') s;
  release_spec : forall v s p b, bc_rep v s -> cv_held v !! p = Some (b, false) ->
    wp (bc_release bc p) (fun _ s' => bc_rep (v_drop p v) s' /\ bc_data bc p s' = Ret (cv_content v b, s')) s;
  alloc_spec : forall v s, bc_rep v s ->
    (exists b, 0 <= b < num_blocks /\ cv_used v b = false) ->
    (forall p b d, cv_held v !! p = Some (b, d) -> cv_used v b = true) ->
    (forall b, 0 <= b < num_blocks -> log_cost (bc_bitmap b) v + 1 <= cv_room v) ->
    wp (bc_alloc bc ctx) (fun b s' => 0 <= b < num_blocks /\ cv_used v b = false /\ bc_client b /\
      bc_rep (v_log b (v_log (bc_bitmap b) (v_store b zero_block (v_mark b true v)))) s') s;
  free_spec : forall v s b, bc_rep v s -> 0 <= b < num_blocks -> bc_client b -> cv_used v b = true ->
    log_cost (bc_bitmap b) v <= cv_room v ->
    wp (bc_free bc ctx b) (fun _ s' => bc_rep (v_log (bc_bitmap b) (v_mark b false v)) s') s;
}.

(** ** Views *)

Lemma log_cost_range b v : 0 <= log_cost b v <= 1.
Proof. unfold log_cost. case_decide; lia. Qed.

Lemma drop_hold p b d v : cv_held v !! p = None -> v_drop p (v_hold p b d v) = v.
Proof. intros H. destruct v. unfold v_drop, v_hold. cbn in *. by rewrite delete_insert_id. Qed.

Lemma hold_hold p b d d' v : v_hold p b d (v_hold p b d' v) = v_hold p b d v.
Proof. unfold v_hold. cbn. by rewrite insert_insert_eq. Qed.

(** Holding a block is independent of the other changes of a view. *)
Lemma drop_log p b v : v_drop p (v_log b v) = v_log b (v_drop p v).
Proof. done. Qed.
Lemma drop_store p b x v : v_drop p (v_store b x v) = v_store b x (v_drop p v).
Proof. done. Qed.
Lemma drop_mark p b u v : v_drop p (v_mark b u v) = v_mark b u (v_drop p v).
Proof. done. Qed.
Lemma hold_log p c d b v : v_hold p c d (v_log b v) = v_log b (v_hold p c d v).
Proof. done. Qed.
Lemma hold_store p c d b x v : v_hold p c d (v_store b x v) = v_store b x (v_hold p c d v).
Proof. done. Qed.
Lemma hold_mark p c d b u v : v_hold p c d (v_mark b u v) = v_mark b u (v_hold p c d v).
Proof. done. Qed.

Lemma log_cost_logged b v : b ∈ cv_logged v -> log_cost b v = 0.
Proof. intros H. unfold log_cost. by rewrite decide_True. Qed.

Lemma log_cost_log b c v : log_cost c (v_log b v) = if decide (c = b) then 0 else log_cost c v.
Proof. unfold log_cost, v_log. cbn [cv_logged]. repeat case_decide; set_solver. Qed.

Lemma log_cost_store c b x v : log_cost c (v_store b x v) = log_cost c v.
Proof. done. Qed.
Lemma log_cost_mark c b u v : log_cost c (v_mark b u v) = log_cost c v.
Proof. done. Qed.

Lemma zero_block_ok : is_block zero_block.
Proof. split; [done|]. apply Forall_replicate. unfold is_byte. lia. Qed.
