(* ===== verification/Inode.v ===== *)
(** * The inode layer: [fs/inode.c], [fs/inode.h]

    One definition per function of [inode.c], over any block cache: the cache is
    the parameter [bc], as in the C code, where it is the structure of function
    pointers given to [init_inodes].  Inodes in memory are found by address;
    [is_head] is the list of the addresses of the in-memory inodes.  A call runs
    alone to its end.

    Local [DirEntry] variables are not initialised by the C code: [junk] stands
    for the bytes they hold at first.  The current process appears as [is_killed]
    and [is_cwd], the fields of [thisproc()] that the file uses. *)

From Stdlib Require Import ZArith Lia.
From stdpp Require Import base tactics numbers gmap list.
From S2P Require Import Prelude FsDefs Strings Console BlockCache.

Local Open Scope Z_scope.

(** [Inode]; [i_lock] is the value of its sleep lock, 1 when free. *)
Record Inode : Type := mkInode {
  i_lock : Z;
  i_rc : Z;
  i_no : Z;
  i_valid : bool;
  i_entry : InodeEntry }.

(** The static variables of [inode.c], the inodes in memory, the console and
    the current process. *)
Record istate (S : Type) : Type := mkIstate {
  is_sblock : SuperBlock;
  is_cache : S;
  is_lock : bool;
  is_head : list Z;
  is_inodes : gmap Z Inode;
  is_root : Z;
  is_cons : console;
  is_killed : bool;
  is_cwd : Z }.
Arguments mkIstate {S}.
Arguments is_sblock {S}.
Arguments is_cache {S}.
Arguments is_lock {S}.
Arguments is_head {S}.
Arguments is_inodes {S}.
Arguments is_root {S}.
Arguments is_cons {S}.
Arguments is_killed {S}.
Arguments is_cwd {S}.

Definition i_with_lock (v : Z) (i : Inode) : Inode := mkInode v (i_rc i) (i_no i) (i_valid i) (i_entry i).
Definition i_with_rc (v : Z) (i : Inode) : Inode := mkInode (i_lock i) v (i_no i) (i_valid i) (i_entry i).
Definition i_with_entry (e : InodeEntry) (i : Inode) : Inode := mkInode (i_lock i) (i_rc i) (i_no i) (i_valid i) e.
Definition i_with_valid (b : bool) (i : Inode) : Inode := mkInode (i_lock i) (i_rc i) (i_no i) b (i_entry i).

Definition ie_with_type (t : Z) (e : InodeEntry) : InodeEntry :=
  mkEntry t (ie_major e) (ie_minor e) (ie_num_links e) (ie_num_bytes e) (ie_addrs e) (ie_indirect e).
Definition ie_with_num_bytes (n : Z) (e : InodeEntry) : InodeEntry :=
  mkEntry (ie_type e) (ie_major e) (ie_minor e) (ie_num_links e) n (ie_addrs e) (ie_indirect e).
Definition ie_with_addrs (l : list Z) (e : InodeEntry) : InodeEntry :=
  mkEntry (ie_type e) (ie_major e) (ie_minor e) (ie_num_links e) (ie_num_bytes e) l (ie_indirect e).
Definition ie_with_indirect (b : Z) (e : InodeEntry) : InodeEntry :=
  mkEntry (ie_type e) (ie_major e) (ie_minor e) (ie_num_links e) (ie_num_bytes e) (ie_addrs e) b.

(** An inode entry with every byte zero. *)
Definition zero_entry : InodeEntry := mkEntry 0 0 0 0 0 (replicate 12 0) 0.

(** [struct stat], the fields that [stati] fills in. *)
Record stat : Type := mkStat { st_dev : Z; st_ino : Z; st_nlink : Z; st_size : Z; st_mode : Z }.
Definition S_IFREG : Z := 32768.
Definition S_IFDIR : Z := 16384.

Section inode.
Context {S : Type} (bc : BlockCache S) (junk : list Z).

Abbreviation IM := (M (istate S)).

Definition is_with_cache (c : S) (s : istate S) : istate S :=
  mkIstate (is_sblock s) c (is_lock s) (is_head s) (is_inodes s) (is_root s) (is_cons s) (is_killed s) (is_cwd s).
Definition is_with_lock (b : bool) (s : istate S) : istate S :=
  mkIstate (is_sblock s) (is_cache s) b (is_head s) (is_inodes s) (is_root s) (is_cons s) (is_killed s) (is_cwd s).
Definition is_with_inodes (h : list Z) (m : gmap Z Inode) (s : istate S) : istate S :=
  mkIstate (is_sblock s) (is_cache s) (is_lock s) h m (is_root s) (is_cons s) (is_killed s) (is_cwd s).
Definition is_with_root (r : Z) (s : istate S) : istate S :=
  mkIstate (is_sblock s) (is_cache s) (is_lock s) (is_head s) (is_inodes s) r (is_cons s) (is_killed s) (is_cwd s).
Definition is_with_cons (c : console) (s : istate S) : istate S :=
  mkIstate (is_sblock s) (is_cache s) (is_lock s) (is_head s) (is_inodes s) (is_root s) c (is_killed s) (is_cwd s).

(** Calls into the block cache and the console. *)
Definition cache {A} : M S A -> IM A := zoom is_cache is_with_cache.
Definition cons {A} : CM A -> IM A := zoom is_cons is_with_cons.

Definition acquire_ilock : IM unit :=
  b ← gets is_lock; if (b : bool) then block else modify (is_with_lock true).
Definition release_ilock : IM unit := modify (is_with_lock false).

Definition load_ino (p : Z) : IM Inode := fun s => some_or_ub (is_inodes s !! p) s.
Definition store_ino (p : Z) (i : Inode) : IM unit :=
  modify (fun s => is_with_inodes (is_head s) (<[p := i]> (is_inodes s)) s).
Definition set_entry (p : Z) (e : InodeEntry) : IM unit := i ← load_ino p; store_ino p (i_with_entry e i).
Definition entry_of (p : Z) : IM InodeEntry := i ← load_ino p; mret (i_entry i).

(** [to_block_no(inode_no)]; the offset of [get_entry(block, inode_no)] and of
    [get_addrs(block)[i]] in [block->data]. *)
Definition to_block_no (sb : SuperBlock) (inode_no : Z) : Z := u64 (sb_inode_start sb + inode_no / INODE_PER_BLOCK).
Definition get_entry (inode_no : Z) : nat := Z.to_nat (inode_no mod INODE_PER_BLOCK * 64).
Definition get_addrs (i : Z) : nat := Z.to_nat (i * 4).

(** [init_inode]; [e] is the entry as [kalloc] returned it, which is read from
    the disk before any use. *)
Definition init_inode (e : InodeEntry) : Inode := mkInode 1 0 0 false e.

(** ** Locks *)

Definition inode_lock (p : Z) : IM unit :=
  i ← load_ino p;
  ASSERT (0 <? i_rc i);;
  if i_lock i <=? 0 then block else store_ino p (i_with_lock (i_lock i - 1) i).

Definition inode_unlock (p : Z) : IM unit :=
  i ← load_ino p;
  ASSERT (0 <? i_rc i);;
  store_ino p (i_with_lock (i_lock i + 1) i).

(** ** Between memory and the cache *)

Definition inode_sync (ctx : Z) (p : Z) (do_write : bool) : IM unit :=
  i ← load_ino p;
  sb ← gets is_sblock;
  if i_valid i && do_write then
    blk ← cache (bc_acquire bc (to_block_no sb (i_no i)));
    d ← cache (bc_data bc blk);
    cache (bc_set_data bc blk (splice (get_entry (i_no i)) (entry_bytes (i_entry i)) d));;
    cache (bc_sync bc ctx blk);;
    cache (bc_release bc blk)
  else if negb (i_valid i) then
    blk ← cache (bc_acquire bc (to_block_no sb (i_no i)));
    d ← cache (bc_data bc blk);
    store_ino p (i_with_valid true (i_with_entry (entry_of_bytes (drop (get_entry (i_no i)) d)) i));;
    cache (bc_release bc blk)
  else mret tt.

(** The loop of [inode_alloc]; [n] inodes from [i] on are left. *)
Fixpoint inode_alloc_loop (n : nat) (i ctx type : Z) : IM Z :=
  match n with
  | O => panic
  | Datatypes.S n' =>
      sb ← gets is_sblock;
      blk ← cache (bc_acquire bc (to_block_no sb i));
      d ← cache (bc_data bc blk);
      if read_le 2 (get_entry i) d =? INODE_INVALID then
        cache (bc_set_data bc blk (splice (get_entry i) (entry_bytes (ie_with_type type zero_entry)) d));;
        cache (bc_sync bc ctx blk);;
        cache (bc_release bc blk);;
        mret i
      else
        cache (bc_release bc blk);;
        inode_alloc_loop n' (i + 1) ctx type
  end.

Definition inode_alloc (ctx type : Z) : IM Z :=
  ASSERT (negb (type =? INODE_INVALID));;
  sb ← gets is_sblock;
  inode_alloc_loop (Z.to_nat (sb_num_inodes sb - 1)) 1 ctx type.

(** ** References *)

(** The search loop of [inode_get]. *)
Fixpoint find_inode (l : list Z) (inode_no : Z) : IM (option Z) :=
  match l with
  | [] => mret None
  | p :: l' => i ← load_ino p; if i_no i =? inode_no then mret (Some p) else find_inode l' inode_no
  end.

(** [kalloc(sizeof(Inode))]: an address that is not NULL and not in use. *)
Definition kalloc_inode : IM Z := gets (fun s => fresh ({[0]} ∪ dom (is_inodes s) : gset Z)).

Definition inode_get (inode_no : Z) : IM Z :=
  ASSERT (0 <? inode_no);;
  sb ← gets is_sblock;
  ASSERT (inode_no <? sb_num_inodes sb);;
  acquire_ilock;;
  l ← gets is_head;
  r ← find_inode l inode_no;
  match r with
  | Some p =>
      i ← load_ino p;
      store_ino p (i_with_rc (i_rc i + 1) i);;
      release_ilock;;
      mret p
  | None =>
      p ← kalloc_inode;
      store_ino p (init_inode zero_entry);;
      i ← load_ino p;
      store_ino p (mkInode (i_lock i) (i_rc i + 1) inode_no (i_valid i) (i_entry i));;
      inode_lock p;;
      inode_sync 0 p false;;
      inode_unlock p;;
      modify (fun s => is_with_inodes (p :: is_head s) (is_inodes s) s);;
      release_ilock;;
      mret p
  end.

(** One turn of the loops of [inode_clear]. *)
Definition clear_indirect (ctx blk i : Z) : IM unit :=
  d ← cache (bc_data bc blk);
  let a := read_le 4 (get_addrs i) d in
  if a =? 0 then mret tt else cache (bc_free bc ctx a).
Definition clear_direct (ctx p i : Z) : IM unit :=
  e ← entry_of p;
  a ← some_or_ub (ie_addrs e !! Z.to_nat i);
  if a =? 0 then mret tt else
  cache (bc_free bc ctx a);;
  set_entry p (ie_with_addrs (<[Z.to_nat i := 0]> (ie_addrs e)) e).

Definition inode_clear (ctx p : Z) : IM unit :=
  e ← entry_of p;
  (if ie_indirect e =? 0 then mret tt else
   blk ← cache (bc_acquire bc (ie_indirect e));
   for_each (seqZ 0 INODE_NUM_INDIRECT) (clear_indirect ctx blk);;
   cache (bc_release bc blk);;
   cache (bc_free bc ctx (ie_indirect e));;
   set_entry p (ie_with_indirect 0 e));;
  for_each (seqZ 0 INODE_NUM_DIRECT) (clear_direct ctx p);;
  e ← entry_of p;
  set_entry p (ie_with_num_bytes 0 e);;
  inode_sync ctx p true.

Definition inode_share (p : Z) : IM Z :=
  i ← load_ino p; store_ino p (i_with_rc (i_rc i + 1) i);; mret p.

Definition inode_put (ctx p : Z) : IM unit :=
  i ← load_ino p;
  (if i_lock i <=? 0 then block else store_ino p (i_with_rc (i_rc i - 1) (i_with_lock (i_lock i - 1) i)));;
  i ← load_ino p;
  if (i_rc i =? 0) && (ie_num_links (i_entry i) =? 0) then
    set_entry p (ie_with_type INODE_INVALID (i_entry i));;
    inode_clear ctx p;;
    inode_sync ctx p true;;
    acquire_ilock;;
    modify (fun s => is_with_inodes (filter (fun q => q <> p) (is_head s)) (is_inodes s) s);;
    release_ilock;;
    i ← load_ino p;
    store_ino p (i_with_lock (i_lock i + 1) i);;
    modify (fun s => is_with_inodes (is_head s) (delete p (is_inodes s)) s)
  else store_ino p (i_with_lock (i_lock i + 1) i).

(** ** File contents *)

(** The indirect part of [inode_map], from the test of [entry.indirect] on. *)
Definition map_indirect (ctx p n : Z) : IM (Z * bool) :=
  e ← entry_of p;
  if (ie_indirect e =? 0) && (ctx =? 0) then mret (0, false) else
  (if ie_indirect e =? 0 then
     b ← cache (bc_alloc bc ctx);
     set_entry p (ie_with_indirect (u32 b) e);;
     inode_sync ctx p true
   else mret tt);;
  e ← entry_of p;
  blk ← cache (bc_acquire bc (ie_indirect e));
  if negb (n <? INODE_NUM_INDIRECT) then ub else
  d ← cache (bc_data bc blk);
  if read_le 4 (get_addrs n) d =? 0 then
    if ctx =? 0 then cache (bc_release bc blk);; mret (0, false) else
    b ← cache (bc_alloc bc ctx);
    d ← cache (bc_data bc blk);
    cache (bc_set_data bc blk (splice (get_addrs n) (le_bytes 4 b) d));;
    cache (bc_sync bc ctx blk);;
    cache (bc_release bc blk);;
    d ← cache (bc_data bc blk);
    mret (read_le 4 (get_addrs n) d, true)
  else
    cache (bc_release bc blk);;
    d ← cache (bc_data bc blk);
    mret (read_le 4 (get_addrs n) d, false).

(** [inode_map]: the block number, and whether [*modified] was set. *)
Definition inode_map (ctx p num_block : Z) : IM (Z * bool) :=
  if num_block <? INODE_NUM_DIRECT then
    e ← entry_of p;
    a ← some_or_ub (ie_addrs e !! Z.to_nat num_block);
    if a =? 0 then
      if ctx =? 0 then mret (0, false) else
      b ← cache (bc_alloc bc ctx);
      set_entry p (ie_with_addrs (<[Z.to_nat num_block := u32 b]> (ie_addrs e)) e);;
      inode_sync ctx p true;;
      e ← entry_of p;
      a ← some_or_ub (ie_addrs e !! Z.to_nat num_block);
      mret (a, true)
    else mret (a, false)
  else map_indirect ctx p (num_block - INODE_NUM_DIRECT).

(** [console_read], [console_write] of [kernel/console.c]. *)
Definition console_read (p n : Z) : IM (Z * list Z) :=
  inode_unlock p;;
  killed ← gets is_killed;
  r ← cons (cons_read killed (i64 n));
  inode_lock p;;
  mret (u64 (fst r), snd r).
Definition console_write (p : Z) (buf : list Z) : IM Z :=
  inode_unlock p;;
  r ← cons (cons_write buf);
  inode_lock p;;
  mret r.

(** [MIN(end - i, BLOCK_SIZE - i % BLOCK_SIZE)], and the next [i] of the loops. *)
Definition piece (i end_ : Z) : Z := Z.min (end_ - i) (BLOCK_SIZE - i mod BLOCK_SIZE).
Definition next_i (i : Z) : Z := (i / BLOCK_SIZE + 1) * BLOCK_SIZE.

(** The loop of [inode_read]: the bytes stored at [dest].  [n] bounds the turns. *)
Fixpoint inode_read_loop (n : nat) (p i end_ : Z) : IM (list Z) :=
  if negb (i <? end_) then mret [] else
  match n with
  | O => block
  | Datatypes.S n' =>
      '(bno, _) ← inode_map 0 p (i / BLOCK_SIZE);
      blk ← cache (bc_acquire bc bno);
      d ← cache (bc_data bc blk);
      let bs := take (Z.to_nat (piece i end_)) (drop (Z.to_nat (i mod BLOCK_SIZE)) d) in
      cache (bc_release bc blk);;
      rest ← inode_read_loop n' p (next_i i) end_;
      mret (bs ++ rest)
  end.

(** [inode_read]: the result and the bytes stored at [dest]. *)
Definition inode_read (p offset count0 : Z) : IM (Z * list Z) :=
  e ← entry_of p;
  if ie_type e =? INODE_DEVICE then console_read p count0 else
  let count := if ie_num_bytes e <? u64 (count0 + offset) then u64 (ie_num_bytes e - offset) else count0 in
  let end_ := u64 (offset + count) in
  ASSERT (offset <=? ie_num_bytes e);;
  ASSERT (end_ <=? ie_num_bytes e);;
  ASSERT (offset <=? end_);;
  bs ← inode_read_loop (Z.to_nat (end_ - offset)) p offset end_;
  mret (count, bs).

(** The loop of [inode_write]; [src] are the bytes still to be written. *)
Fixpoint inode_write_loop (n : nat) (ctx p : Z) (src : list Z) (i end_ : Z) : IM unit :=
  if negb (i <? end_) then mret tt else
  match n with
  | O => block
  | Datatypes.S n' =>
      '(bno, _) ← inode_map ctx p (i / BLOCK_SIZE);
      blk ← cache (bc_acquire bc bno);
      d ← cache (bc_data bc blk);
      let len := Z.to_nat (piece i end_) in
      cache (bc_set_data bc blk (splice (Z.to_nat (i mod BLOCK_SIZE)) (take len src) d));;
      cache (bc_sync bc ctx blk);;
      cache (bc_release bc blk);;
      inode_write_loop n' ctx p (drop len src) (next_i i) end_
  end.

(** [inode_write]; [src] are the [count] bytes at [src]. *)
Definition inode_write (ctx p : Z) (src : list Z) (offset : Z) : IM Z :=
  let count := Z.of_nat (length src) in
  let end_ := u64 (offset + count) in
  e ← entry_of p;
  if ie_type e =? INODE_DEVICE then console_write p src else
  ASSERT (offset <=? ie_num_bytes e);;
  ASSERT (end_ <=? INODE_MAX_BYTES);;
  ASSERT (offset <=? end_);;
  (if ie_num_bytes e <? end_ then
     set_entry p (ie_with_num_bytes (u32 end_) e);;
     inode_sync ctx p true
   else mret tt);;
  inode_write_loop (Z.to_nat (end_ - offset)) ctx p src offset end_;;
  mret count.

(** ** Directories *)

(** [curr.inode_no && memcmp(name, curr.name, MAX(strlen(name), strlen(curr.name))) == 0];
    nothing when a read runs beyond a buffer. *)
Definition name_matches (name : list Z) (curr : DirEntry) : option bool :=
  if de_inode_no curr =? 0 then Some false else
  n1 ← buf_strlen name;
  n2 ← buf_strlen (de_name curr);
  r ← buf_memcmp name (de_name curr) (Z.to_nat (Z.max n1 n2));
  Some (r =? 0).

Definition DIRENT_SIZE : Z := 16.

(** [inode_read(inode, (u8* )&curr, i, sizeof(DirEntry))] into the buffer [curr]. *)
Definition read_dirent (p i : Z) (curr : list Z) : IM (list Z) :=
  r ← inode_read p i DIRENT_SIZE;
  mret (splice 0 (snd r) curr).

(** The loop of [inode_lookup]: the inode number, and the index of the entry. *)
Fixpoint lookup_loop (n : nat) (p : Z) (name : list Z) (i : Z) (curr : list Z) : IM (Z * option Z) :=
  e ← entry_of p;
  if negb (i <? ie_num_bytes e) then mret (0, None) else
  match n with
  | O => block
  | Datatypes.S n' =>
      curr ← read_dirent p i curr;
      hit ← some_or_ub (name_matches name (dirent_of_bytes curr));
      if (hit : bool) then mret (de_inode_no (dirent_of_bytes curr), Some i)
      else lookup_loop n' p name (i + DIRENT_SIZE) curr
  end.

(** The number of entries of a directory of [n] bytes, rounded up. *)
Definition dir_turns (n : Z) : nat := Z.to_nat (n / DIRENT_SIZE + 1).

Definition inode_lookup (p : Z) (name : list Z) : IM (Z * option Z) :=
  e ← entry_of p;
  ASSERT (ie_type e =? INODE_DIRECTORY);;
  lookup_loop (dir_turns (ie_num_bytes e)) p name 0 junk.

(** The loop of [inode_insert]: the offset of the first free entry, or nothing
    when the name is in use; and the buffer [curr]. *)
Fixpoint insert_loop (n : nat) (p : Z) (name : list Z) (i offset : Z) (curr : list Z) : IM (option Z * list Z) :=
  e ← entry_of p;
  if negb (i <? ie_num_bytes e) then mret (Some offset, curr) else
  match n with
  | O => block
  | Datatypes.S n' =>
      curr ← read_dirent p i curr;
      let offset := if (de_inode_no (dirent_of_bytes curr) =? 0) && (offset =? ie_num_bytes e) then i else offset in
      hit ← some_or_ub (name_matches name (dirent_of_bytes curr));
      if (hit : bool) then mret (None, curr)
      else insert_loop n' p name (i + DIRENT_SIZE) offset curr
  end.

Definition inode_insert (ctx p : Z) (name : list Z) (inode_no : Z) : IM Z :=
  e ← entry_of p;
  ASSERT (ie_type e =? INODE_DIRECTORY);;
  r ← insert_loop (dir_turns (ie_num_bytes e)) p name 0 (ie_num_bytes e) junk;
  match fst r with
  | None => mret (u64 (-1))
  | Some offset =>
      nm ← some_or_ub (buf_strncpy name (Z.to_nat FILE_NAME_MAX_LENGTH));
      inode_write ctx p (dirent_bytes (mkDirEntry (u16 inode_no) nm)) offset;;
      mret offset
  end.

Definition inode_remove (ctx p index : Z) : IM unit :=
  curr ← read_dirent p index junk;
  inode_write ctx p (dirent_bytes (mkDirEntry 0 (de_name (dirent_of_bytes curr)))) index;;
  mret tt.

(** ** Paths *)

Definition SLASH : Z := 47.

(** The loops of [skipelem] that skip slashes and that find the end of an
    element; nothing when the buffer ends before. *)
Fixpoint skip_slashes (path : list Z) : option (list Z) :=
  match path with
  | [] => None
  | c :: path' => if c =? SLASH then skip_slashes path' else Some path
  end.
Fixpoint take_elem (path : list Z) : option (list Z * list Z) :=
  match path with
  | [] => None
  | c :: path' =>
      if (c =? SLASH) || (c =? 0) then Some ([], path) else
      '(e, rest) ← take_elem path'; Some (c :: e, rest)
  end.

(** [skipelem]: the path that is left and the buffer [name], or [None] for NULL. *)
Definition skipelem (path name : list Z) : option (option (list Z * list Z)) :=
  path ← skip_slashes path;
  match path with
  | 0 :: _ => Some None
  | _ =>
      '(s, path) ← take_elem path;
      let name :=
        if FILE_NAME_MAX_LENGTH <=? Z.of_nat (length s)
        then splice 0 (take (Z.to_nat FILE_NAME_MAX_LENGTH) s) name
        else splice 0 (s ++ [0]) name in
      path ← skip_slashes path;
      Some (Some (path, name))
  end.

(** The loop of [namex]; [n] bounds the turns.  The result is the inode, 0 for
    NULL, and the buffer [name]. *)
Fixpoint namex_loop (n : nat) (ans : Z) (path : list Z) (nameiparent : bool) (name : list Z) (ctx : Z) : IM (Z * list Z) :=
  r ← some_or_ub (skipelem path name);
  match r with
  | None => if nameiparent then inode_put ctx ans;; mret (0, name) else mret (ans, name)
  | Some (path, name) =>
      match n with
      | O => block
      | Datatypes.S n' =>
          inode_lock ans;;
          e ← entry_of ans;
          if negb (ie_type e =? INODE_DIRECTORY) then inode_unlock ans;; inode_put ctx ans;; mret (0, name) else
          c ← some_or_ub (head path);
          if nameiparent && (c =? 0) then inode_unlock ans;; mret (ans, name) else
          '(inode_no, _) ← inode_lookup ans name;
          if inode_no =? 0 then inode_unlock ans;; inode_put ctx ans;; mret (0, name) else
          inode_unlock ans;;
          inode_put ctx ans;;
          ans ← inode_get inode_no;
          namex_loop n' ans path nameiparent name ctx
      end
  end.

Definition namex (path : list Z) (nameiparent : bool) (name : list Z) (ctx : Z) : IM (Z * list Z) :=
  c ← some_or_ub (head path);
  cwd ← gets is_cwd;
  ans ← (if c =? SLASH then inode_get ROOT_INODE_NO else inode_share cwd);
  namex_loop (length path) ans path nameiparent name ctx.

(** [char name[FILE_NAME_MAX_LENGTH]] of [namei] is not initialised. *)
Definition namei (path junk_name : list Z) (ctx : Z) : IM Z :=
  '(ip, _) ← namex path false junk_name ctx; mret ip.
Definition nameiparent (path name : list Z) (ctx : Z) : IM (Z * list Z) := namex path true name ctx.

Definition stati (p : Z) : IM stat :=
  i ← load_ino p;
  let e := i_entry i in
  mode ← (if ie_type e =? INODE_REGULAR then mret S_IFREG
          else if ie_type e =? INODE_DIRECTORY then mret S_IFDIR
          else if ie_type e =? INODE_DEVICE then mret 0
          else panic);
  mret (mkStat 1 (i_no i) (ie_num_links e) (ie_num_bytes e) mode).

(** [init_inodes]: without a root inode it prints a warning. *)
Definition init_inodes (sb : SuperBlock) (c : S) (con : console) (killed : bool) (cwd : Z) : result (unit * istate S) :=
  (if ROOT_INODE_NO <? sb_num_inodes sb then
     r ← inode_get ROOT_INODE_NO; modify (is_with_root r)
   else mret tt) (mkIstate sb c false [] ∅ 0 con killed cwd).
End inode.
