(* ===== verification/InodeProofs.v ===== *)
(** * Correctness of the inode layer: file contents

    The theorems are about any block cache that satisfies [BlockCacheSpec].  The
    content of a file is a sequence of bytes, found through the direct and the
    indirect block numbers of its inode; [inode_read] reads it, [inode_write]
    overwrites or extends it, allocates the blocks it needs and leaves every
    block of other files alone. *)

From Stdlib Require Import ZArith Lia.
From stdpp Require Import base tactics numbers gmap list.
From S2P Require Import Prelude FsDefs Strings Console BlockCache Inode.

Local Open Scope Z_scope.

Section inode_proofs.
Context {S : Type} (bc : BlockCache S) (sb : SuperBlock) (ctx : Z).
Context {Spec : BlockCacheSpec bc (sb_num_blocks sb) ctx}.

(** ** Steps on the inode at [p]

    [ist s0 p i v s]: the state [s] is [s0] with inode [i] at address [p] and a
    cache that shows [v]. *)
Definition ist (s0 : istate S) (p : Z) (i : Inode) (v : cview) (s : istate S) : Prop :=
  is_sblock s0 = sb /\ exists c, bc_rep v c /\ s = is_with_inodes (is_head s0) (<[p := i]> (is_inodes s0)) (is_with_cache c s0).

Section steps.
Context (s0 : istate S) (p : Z).

Lemma ist_load i v s : ist s0 p i v s -> load_ino p s = Ret (i, s).
Proof. intros (_ & c & _ & ->). unfold load_ino. cbn. by rewrite lookup_insert_eq. Qed.

Lemma ist_sblock i v s : ist s0 p i v s -> is_sblock s = sb.
Proof. intros (H & c & _ & ->). done. Qed.

Lemma wp_load_ino i v s (Q : Inode -> istate S -> Prop) : ist s0 p i v s -> Q i s -> wp (load_ino p) Q s.
Proof. intros H HQ. eapply wp_intro; [by eapply ist_load|done]. Qed.

Lemma wp_entry_of i v s (Q : InodeEntry -> istate S -> Prop) : ist s0 p i v s -> Q (i_entry i) s -> wp (entry_of p) Q s.
Proof. intros H HQ. unfold entry_of. wp_prim. eapply wp_load_ino; [done|]. by wp_prim. Qed.

Lemma wp_store_ino i i' v s (Q : unit -> istate S -> Prop) :
  ist s0 p i v s -> (forall s', ist s0 p i' v s' -> Q tt s') -> wp (store_ino p i') Q s.
Proof.
  intros (H & c & Hc & ->) HQ. unfold store_ino. wp_prim. apply HQ. split; [done|]. exists c. split; [done|].
  unfold is_with_inodes. cbn. by rewrite insert_insert_eq.
Qed.

Lemma wp_set_entry i e v s (Q : unit -> istate S -> Prop) :
  ist s0 p i v s -> (forall s', ist s0 p (i_with_entry e i) v s' -> Q tt s') -> wp (set_entry p e) Q s.
Proof. intros H HQ. unfold set_entry. wp_prim. eapply wp_load_ino; [done|]. by eapply wp_store_ino. Qed.

(** A call of the cache that gives [a] and a view [v'] with [V a v']. *)
Lemma wp_cache {A} (m : M S A) (V : A -> cview -> Prop) i v s (Q : A -> istate S -> Prop) :
  ist s0 p i v s -> (forall c, bc_rep v c -> wp m (fun a c' => exists v', V a v' /\ bc_rep v' c') c) ->
  (forall a v' s', V a v' -> ist s0 p i v' s' -> Q a s') -> wp (cache m) Q s.
Proof.
  intros (H & c & Hc & ->) Hm HQ. unfold cache. apply wp_zoom. cbn [is_cache is_with_inodes is_with_cache].
  eapply wp_mono; [by apply Hm|]. intros a c' (v' & HV & Hc'). apply (HQ a v'); [done|]. split; [done|]. by exists c'.
Qed.

Lemma wp_acquire b i v s (Q : Z -> istate S -> Prop) :
  ist s0 p i v s -> bc_client b -> (forall q d, cv_held v !! q <> Some (b, d)) ->
  (forall q s', cv_held v !! q = None -> ist s0 p i (v_hold q b false v) s' -> Q q s') -> wp (cache (bc_acquire bc b)) Q s.
Proof.
  intros H Hb Hh HQ. eapply (wp_cache _ (fun q v' => cv_held v !! q = None /\ v' = v_hold q b false v)); [done| |].
  - intros c Hc. eapply wp_mono; [by apply acquire_spec|]. naive_solver.
  - intros q v' s' [Hq ->]. by apply HQ.
Qed.

Lemma wp_data q b d i v s (Q : list Z -> istate S -> Prop) :
  ist s0 p i v s -> cv_held v !! q = Some (b, d) -> Q (cv_content v b) s -> wp (cache (bc_data bc q)) Q s.
Proof.
  intros (H & c & Hc & ->) Hq HQ. unfold cache. apply wp_zoom. cbn [is_cache is_with_inodes is_with_cache].
  eapply wp_intro; [by eapply data_spec|]. exact HQ.
Qed.

Lemma wp_set_data q b d x i v s (Q : unit -> istate S -> Prop) :
  ist s0 p i v s -> cv_held v !! q = Some (b, d) -> is_block x ->
  (forall s', ist s0 p i (v_store b x (v_hold q b true v)) s' -> Q tt s') -> wp (cache (bc_set_data bc q x)) Q s.
Proof.
  intros H Hq Hx HQ. eapply (wp_cache _ (fun _ v' => v' = v_store b x (v_hold q b true v))); [done| |].
  - intros c Hc. eapply wp_mono; [by eapply set_data_spec|]. naive_solver.
  - intros [] v' s' ->. by apply HQ.
Qed.

Lemma wp_sync q b d i v s (Q : unit -> istate S -> Prop) :
  ist s0 p i v s -> cv_held v !! q = Some (b, d) -> log_cost b v <= cv_room v ->
  (forall s', ist s0 p i (v_log b (v_hold q b false v)) s' -> Q tt s') -> wp (cache (bc_sync bc ctx q)) Q s.
Proof.
  intros H Hq Hr HQ. eapply (wp_cache _ (fun _ v' => v' = v_log b (v_hold q b false v))); [done| |].
  - intros c Hc. eapply wp_mono; [by eapply sync_spec|]. naive_solver.
  - intros [] v' s' ->. by apply HQ.
Qed.

(** Releasing a block, after which the C code may still look at its content. *)
Lemma wp_release q b i v s (Q : unit -> istate S -> Prop) :
  ist s0 p i v s -> cv_held v !! q = Some (b, false) ->
  (forall s', ist s0 p i (v_drop q v) s' -> cache (bc_data bc q) s' = Ret (cv_content v b, s') -> Q tt s') ->
  wp (cache (bc_release bc q)) Q s.
Proof.
  intros (H & c & Hc & ->) Hq HQ. unfold cache. apply wp_zoom. cbn [is_cache is_with_inodes is_with_cache].
  eapply wp_mono; [by eapply release_spec|]. intros [] c' [Hc' Hd]. apply HQ.
  - split; [done|]. by exists c'.
  - unfold cache, zoom. cbn [is_cache is_with_inodes is_with_cache]. by rewrite Hd.
Qed.

Lemma wp_alloc i v s (Q : Z -> istate S -> Prop) :
  ist s0 p i v s -> (exists b, 0 <= b < sb_num_blocks sb /\ cv_used v b = false) ->
  (forall q b d, cv_held v !! q = Some (b, d) -> cv_used v b = true) ->
  (forall b, 0 <= b < sb_num_blocks sb -> log_cost (bc_bitmap b) v + 1 <= cv_room v) ->
  (forall b s', 0 <= b < sb_num_blocks sb -> cv_used v b = false -> bc_client b ->
     ist s0 p i (v_log b (v_log (bc_bitmap b) (v_store b zero_block (v_mark b true v)))) s' -> Q b s') ->
  wp (cache (bc_alloc bc ctx)) Q s.
Proof.
  intros H Hf Hh Hr HQ. eapply (wp_cache _ (fun b v' => 0 <= b < sb_num_blocks sb /\ cv_used v b = false /\ bc_client b /\
    v' = v_log b (v_log (bc_bitmap b) (v_store b zero_block (v_mark b true v))))); [done| |].
  - intros c Hc. eapply wp_mono; [by apply alloc_spec|]. naive_solver.
  - intros b v' s' (? & ? & ? & ->). by apply HQ.
Qed.

Lemma wp_free b i v s (Q : unit -> istate S -> Prop) :
  ist s0 p i v s -> 0 <= b < sb_num_blocks sb -> bc_client b -> cv_used v b = true -> log_cost (bc_bitmap b) v <= cv_room v ->
  (forall s', ist s0 p i (v_log (bc_bitmap b) (v_mark b false v)) s' -> Q tt s') -> wp (cache (bc_free bc ctx b)) Q s.
Proof.
  intros H Hb Hc Hu Hr HQ. eapply (wp_cache _ (fun _ v' => v' = v_log (bc_bitmap b) (v_mark b false v))); [done| |].
  - intros c Hc'. eapply wp_mono; [by apply free_spec|]. naive_solver.
  - intros [] v' s' ->. by apply HQ.
Qed.

Lemma ist_block i v s b : ist s0 p i v s -> bc_client b -> is_block (cv_content v b).
Proof. intros (_ & c & Hc & _) Hb. by eapply bc_block. Qed.
End steps.

(** ** Blocks of bytes *)

Lemma splice_block off bs x : (off + length bs <= Z.to_nat BLOCK_SIZE)%nat -> Forall is_byte bs -> is_block x ->
  is_block (splice off bs x).
Proof.
  intros Hl Hb [Hx Hxb]. split; [rewrite length_splice; lia|].
  unfold splice. rewrite !Forall_app. split_and!; [by apply Forall_take|done|by apply Forall_drop].
Qed.

Lemma get_entry_bound no : (get_entry no + 64 <= Z.to_nat BLOCK_SIZE)%nat.
Proof.
  unfold get_entry. change INODE_PER_BLOCK with 8. change BLOCK_SIZE with 512.
  pose proof (Z.mod_pos_bound no 8 ltac:(lia)). lia.
Qed.

Lemma splice_entry_block no e x : length (ie_addrs e) = Z.to_nat INODE_NUM_DIRECT -> is_block x ->
  is_block (splice (get_entry no) (entry_bytes e) x).
Proof.
  intros Hl Hx. apply splice_block; [|apply entry_bytes_is_byte|done].
  rewrite length_entry_bytes by done. apply get_entry_bound.
Qed.

Lemma read_spliced_entry no e x : entry_ok e -> is_block x ->
  entry_of_bytes (drop (get_entry no) (splice (get_entry no) (entry_bytes e) x)) = e.
Proof.
  intros He [Hx _]. unfold splice. pose proof (get_entry_bound no).
  rewrite drop_app_length' by (rewrite length_take; lia). by apply entry_roundtrip.
Qed.

(** The view after a block was acquired, changed, synchronised and released. *)
Lemma updated_view q b x v : cv_held v !! q = None ->
  v_drop q (v_log b (v_hold q b false (v_store b x (v_hold q b true (v_hold q b false v))))) = v_log b (v_store b x v).
Proof.
  intros H. unfold v_drop, v_log, v_hold, v_store. cbn [cv_content cv_used cv_held cv_logged cv_room].
  rewrite !insert_insert_eq, delete_insert_id by done. done.
Qed.

(** ** The blocks of a file *)

(** The number of block [n] of the file, 0 when it has none, given the contents
    [C] of the blocks on disk. *)
Definition blk_at (e : InodeEntry) (C : Z -> list Z) (n : Z) : Z :=
  if n <? INODE_NUM_DIRECT then default 0 (ie_addrs e !! Z.to_nat n)
  else if ie_indirect e =? 0 then 0 else read_le 4 (get_addrs (n - INODE_NUM_DIRECT)) (C (ie_indirect e)).

(** [b] belongs to the file. *)
Definition owns (e : InodeEntry) (C : Z -> list Z) (b : Z) : Prop :=
  b <> 0 /\ (b = ie_indirect e \/ exists n, 0 <= n < INODE_MAX_BLOCKS /\ blk_at e C n = b).

Abbreviation iblock no := (to_block_no sb no).

(** The inode [i] in memory: its blocks are distinct, in use, and none of them
    is the block of the inode itself, which holds a copy of its entry. *)
Record ino_ok (v : cview) (i : Inode) : Prop := {
  io_valid : i_valid i = true;
  io_entry : entry_ok (i_entry i);
  io_client : bc_client (iblock (i_no i));
  io_used : cv_used v (iblock (i_no i)) = true;
  io_apart : ~ owns (i_entry i) (cv_content v) (iblock (i_no i));
  io_zero : cv_used v 0 = true;
  io_num : sb_num_blocks sb <= 2 ^ 32;
  io_owns : forall b, owns (i_entry i) (cv_content v) b -> 0 <= b < sb_num_blocks sb /\ bc_client b /\ cv_used v b = true;
  io_inj : forall n m, 0 <= n < INODE_MAX_BLOCKS -> 0 <= m < INODE_MAX_BLOCKS ->
    blk_at (i_entry i) (cv_content v) n = blk_at (i_entry i) (cv_content v) m ->
    blk_at (i_entry i) (cv_content v) n <> 0 -> n = m;
  io_indirect : forall n, 0 <= n < INODE_MAX_BLOCKS -> blk_at (i_entry i) (cv_content v) n <> 0 ->
    blk_at (i_entry i) (cv_content v) n <> ie_indirect (i_entry i);
  io_disk : entry_of_bytes (drop (get_entry (i_no i)) (cv_content v (iblock (i_no i)))) = i_entry i }.

(** From [v] and [e] to [v'] and [e'], the file only got more blocks, which were
    free before; blocks in use that are not its own are as they were. *)
Record grows (no : Z) (v : cview) (e : InodeEntry) (v' : cview) (e' : InodeEntry) : Prop := {
  g_used : forall b, cv_used v b = true -> cv_used v' b = true;
  g_owns : forall b, owns e' (cv_content v') b -> owns e (cv_content v) b \/ cv_used v b = false;
  g_frame : forall b, cv_used v b = true -> ~ owns e (cv_content v) b -> b <> iblock no -> cv_content v' b = cv_content v b;
  g_iblock : forall j, (j < get_entry no \/ get_entry no + 64 <= j)%nat ->
    cv_content v' (iblock no) !! j = cv_content v (iblock no) !! j;
  g_blk : forall n, 0 <= n < INODE_MAX_BLOCKS -> blk_at e (cv_content v) n <> 0 ->
    blk_at e' (cv_content v') n = blk_at e (cv_content v) n;
  g_held : cv_held v' = cv_held v;
  g_type : ie_type e' = ie_type e;
  g_major : ie_major e' = ie_major e;
  g_minor : ie_minor e' = ie_minor e;
  g_links : ie_num_links e' = ie_num_links e }.

Lemma grows_refl no v e : grows no v e v e.
Proof. split; try done. by left. Qed.

Lemma grows_trans no v e v1 e1 v2 e2 : grows no v e v1 e1 -> grows no v1 e1 v2 e2 -> grows no v e v2 e2.
Proof.
  intros G H. split.
  - intros b Hb. by apply (g_used _ _ _ _ _ H), (g_used _ _ _ _ _ G).
  - intros b [Hb|Hb]%(g_owns _ _ _ _ _ H); [by apply (g_owns _ _ _ _ _ G)|]. right.
    destruct (cv_used v b) eqn:E; [|done]. by rewrite (g_used _ _ _ _ _ G b E) in Hb.
  - intros b Hu Hn Hi. rewrite <-(g_frame _ _ _ _ _ G b Hu Hn Hi). apply (g_frame _ _ _ _ _ H); [by apply (g_used _ _ _ _ _ G)| |done].
    intros [?|?]%(g_owns _ _ _ _ _ G); congruence.
  - intros j Hj. by rewrite (g_iblock _ _ _ _ _ H j Hj), (g_iblock _ _ _ _ _ G j Hj).
  - intros n Hn Hb. pose proof (g_blk _ _ _ _ _ G n Hn Hb) as E. rewrite (g_blk _ _ _ _ _ H); [done|done|congruence].
  - by rewrite (g_held _ _ _ _ _ H), (g_held _ _ _ _ _ G).
  - by rewrite (g_type _ _ _ _ _ H), (g_type _ _ _ _ _ G).
  - by rewrite (g_major _ _ _ _ _ H), (g_major _ _ _ _ _ G).
  - by rewrite (g_minor _ _ _ _ _ H), (g_minor _ _ _ _ _ G).
  - by rewrite (g_links _ _ _ _ _ H), (g_links _ _ _ _ _ G).
Qed.

(** ** [inode_sync] *)

(** The view after the entry [e] was written to the block of the inode. *)
Definition v_synced (no : Z) (e : InodeEntry) (v : cview) : cview :=
  v_log (iblock no) (v_store (iblock no) (splice (get_entry no) (entry_bytes e) (cv_content v (iblock no))) v).

Lemma wp_inode_sync s0 p i v s (Q : unit -> istate S -> Prop) :
  ist s0 p i v s -> i_valid i = true -> length (ie_addrs (i_entry i)) = Z.to_nat INODE_NUM_DIRECT -> bc_client (iblock (i_no i)) ->
  (forall q d, cv_held v !! q <> Some (iblock (i_no i), d)) -> log_cost (iblock (i_no i)) v <= cv_room v ->
  (forall s', ist s0 p i (v_synced (i_no i) (i_entry i) v) s' -> Q tt s') -> wp (inode_sync bc ctx p true) Q s.
Proof.
  intros H Hv Hl Hc Hh Hr HQ. pose proof (ist_block _ _ _ _ _ _ H Hc) as Hblk.
  unfold inode_sync. wp_prim. eapply wp_load_ino; [done|]. wp_prim. wp_prim.
  rewrite (ist_sblock _ _ _ _ _ H), Hv. cbn [andb].
  wp_prim. eapply wp_acquire; [done|done|done|]. intros q s1 Hq H1.
  wp_prim. eapply wp_data; [done|by apply lookup_insert_eq|].
  wp_prim. eapply wp_set_data; [done|by apply lookup_insert_eq|by apply splice_entry_block|]. intros s2 H2.
  wp_prim. eapply wp_sync; [done|by apply lookup_insert_eq|exact Hr|]. intros s3 H3.
  eapply wp_release; [done|by apply lookup_insert_eq|]. intros s4 H4 _. apply HQ.
  unfold v_synced. rewrite <-(updated_view q) by done. exact H4.
Qed.

(** ** Adding a block to a file *)

(** A block number that [alloc] may return. *)
Definition is_free (v : cview) (b : Z) : Prop := 0 <= b < sb_num_blocks sb /\ cv_used v b = false /\ bc_client b.

Lemma free_facts v i b : ino_ok v i -> is_free v b ->
  b <> 0 /\ b <> iblock (i_no i) /\ ~ owns (i_entry i) (cv_content v) b /\ u32 b = b /\ 0 <= b < 2 ^ 32.
Proof.
  intros Hok (Hr & Hu & _). pose proof (io_zero _ _ Hok). pose proof (io_used _ _ Hok). pose proof (io_num _ _ Hok).
  split_and!; try lia; try congruence.
  - intros H'. apply (io_owns _ _ Hok) in H' as (_ & _ & ?). congruence.
  - apply u32_small. lia.
Qed.

Lemma owns_blk e C n : 0 <= n < INODE_MAX_BLOCKS -> blk_at e C n <> 0 -> owns e C (blk_at e C n).
Proof. intros Hn Hb. split; [done|]. right. by exists n. Qed.

Lemma owns_indirect e C : ie_indirect e <> 0 -> owns e C (ie_indirect e).
Proof. intros H. split; [done|by left]. Qed.

(** Block [b] becomes block [k] of the file or, when [k] is negative, its
    indirect block. *)
Lemma extend_ok v i v' e' b k :
  ino_ok v i -> is_free v b -> entry_ok e' ->
  ie_type e' = ie_type (i_entry i) -> ie_major e' = ie_major (i_entry i) -> ie_minor e' = ie_minor (i_entry i) ->
  ie_num_links e' = ie_num_links (i_entry i) ->
  (forall m, 0 <= m < INODE_MAX_BLOCKS ->
     blk_at e' (cv_content v') m = if m =? k then b else blk_at (i_entry i) (cv_content v) m) ->
  (0 <= k -> blk_at (i_entry i) (cv_content v) k = 0) ->
  ie_indirect e' = (if k <? 0 then b else ie_indirect (i_entry i)) ->
  (k < 0 -> ie_indirect (i_entry i) = 0) ->
  (forall c, cv_used v' c = if c =? b then true else cv_used v c) -> cv_held v' = cv_held v ->
  (forall c, cv_used v c = true -> ~ owns (i_entry i) (cv_content v) c -> c <> iblock (i_no i) ->
     cv_content v' c = cv_content v c) ->
  (forall j, (j < get_entry (i_no i) \/ get_entry (i_no i) + 64 <= j)%nat ->
     cv_content v' (iblock (i_no i)) !! j = cv_content v (iblock (i_no i)) !! j) ->
  entry_of_bytes (drop (get_entry (i_no i)) (cv_content v' (iblock (i_no i)))) = e' ->
  ino_ok v' (i_with_entry e' i) /\ grows (i_no i) v (i_entry i) v' e'.
Proof.
  intros Hok Hfree He Ht Hma Hmi Hln Hblk Hk Hind Hk0 Hused Hheld Hframe Hib Hdisk.
  destruct (free_facts v i b Hok Hfree) as (Hb0 & Hbi & Hbo & _ & _). destruct Hfree as (Hbr & Hbu & Hbc).
  assert (forall c, owns e' (cv_content v') c -> c = b \/ owns (i_entry i) (cv_content v) c) as Ho.
  { intros c [Hc [->|(m & Hm & <-)]].
    - rewrite Hind in *. destruct (k <? 0); [by left|]. right. by apply owns_indirect.
    - rewrite Hblk in * by done. destruct (m =? k); [by left|]. right. by apply owns_blk. }
  assert (forall m, 0 <= m < INODE_MAX_BLOCKS -> blk_at (i_entry i) (cv_content v) m <> b) as Hne.
  { intros m Hm E. apply Hbo. rewrite <-E. apply owns_blk; [done|congruence]. }
  assert (ie_indirect (i_entry i) <> b) as Hnei.
  { intros E. apply Hbo. rewrite <-E. apply owns_indirect. congruence. }
  assert (forall c, cv_used v c = true -> cv_used v' c = true) as Hmono by (intros c Hc; rewrite Hused, Hc; by destruct (c =? b)).
  split; split; cbn [i_no i_valid i_entry i_with_entry]; try done.
  - apply Hok.
  - apply Hok.
  - apply Hmono, Hok.
  - intros [E|H']%Ho; [done|by apply (io_apart _ _ Hok)].
  - apply Hmono, Hok.
  - apply Hok.
  - intros c [->|Hc]%Ho; [split; [done|]; split; [done|]; by rewrite Hused, Z.eqb_refl|].
    destruct (io_owns _ _ Hok c Hc) as (? & ? & ?). split; [done|]. split; [done|by apply Hmono].
  - intros n m Hn Hm. rewrite !Hblk by done. destruct (Z.eqb_spec n k) as [->|Hnk], (Z.eqb_spec m k) as [->|Hmk]; try done.
    + intros E. by destruct (Hne m Hm).
    + intros E. by destruct (Hne n Hn).
    + by apply (io_inj _ _ Hok).
  - intros m Hm. rewrite Hblk, Hind by done. destruct (Z.eqb_spec m k) as [->|Hmk], (Z.ltb_spec k 0) as [?|?]; try done; try lia.
    + intros _. by apply Hne.
    + by apply (io_indirect _ _ Hok).
  - intros c [->|Hc]%Ho; [by right|by left].
  - intros n Hn Hb. rewrite Hblk by done. destruct (Z.eqb_spec n k) as [->|]; [|done]. by rewrite Hk in Hb by lia.
Qed.

(** The view after [alloc] returned [b]. *)
Definition v_alloc (b : Z) (v : cview) : cview := v_log b (v_log (bc_bitmap b) (v_store b zero_block (v_mark b true v))).

Lemma blk_direct e C n : n < INODE_NUM_DIRECT -> blk_at e C n = default 0 (ie_addrs e !! Z.to_nat n).
Proof. intros H. unfold blk_at. by rewrite (proj2 (Z.ltb_lt _ _) H). Qed.

Lemma blk_table e C n : INODE_NUM_DIRECT <= n ->
  blk_at e C n = if ie_indirect e =? 0 then 0 else read_le 4 (get_addrs (n - INODE_NUM_DIRECT)) (C (ie_indirect e)).
Proof. intros H. unfold blk_at. by rewrite (proj2 (Z.ltb_ge _ _) H). Qed.

(** The entries of the block of the inode outside its own are kept by [v_synced]. *)
Lemma synced_iblock no e v j : is_block (cv_content v (iblock no)) -> length (ie_addrs e) = Z.to_nat INODE_NUM_DIRECT ->
  (j < get_entry no \/ get_entry no + 64 <= j)%nat -> cv_content (v_synced no e v) (iblock no) !! j = cv_content v (iblock no) !! j.
Proof.
  intros [Hl _] Ha Hj. unfold v_synced. cbn [v_log v_store cv_content]. rewrite upd_eq.
  pose proof (get_entry_bound no). apply lookup_splice_old; rewrite length_entry_bytes by done; lia.
Qed.

Lemma synced_disk no e v : entry_ok e -> is_block (cv_content v (iblock no)) ->
  entry_of_bytes (drop (get_entry no) (cv_content (v_synced no e v) (iblock no))) = e.
Proof. intros He Hb. unfold v_synced. cbn [v_log v_store cv_content]. rewrite upd_eq. by apply read_spliced_entry. Qed.

Lemma entry_ok_addr e n b : entry_ok e -> 0 <= b < 2 ^ 32 -> entry_ok (ie_with_addrs (<[n := b]> (ie_addrs e)) e).
Proof. intros [] Hb. split; cbn; try done; [by apply Forall_insert|by rewrite length_insert]. Qed.

Lemma entry_ok_indirect e b : entry_ok e -> 0 <= b < 2 ^ 32 -> entry_ok (ie_with_indirect b e).
Proof. by intros [] Hb. Qed.

Lemma add_direct v i n b (v' := v_synced (i_no i) (ie_with_addrs (<[Z.to_nat n := b]> (ie_addrs (i_entry i))) (i_entry i)) (v_alloc b v)) :
  ino_ok v i -> is_free v b -> is_block (cv_content v (iblock (i_no i))) ->
  0 <= n < INODE_NUM_DIRECT -> blk_at (i_entry i) (cv_content v) n = 0 ->
  ino_ok v' (i_with_entry (ie_with_addrs (<[Z.to_nat n := b]> (ie_addrs (i_entry i))) (i_entry i)) i) /\
  grows (i_no i) v (i_entry i) v' (ie_with_addrs (<[Z.to_nat n := b]> (ie_addrs (i_entry i))) (i_entry i)) /\
  (forall m, 0 <= m < INODE_MAX_BLOCKS -> blk_at (ie_with_addrs (<[Z.to_nat n := b]> (ie_addrs (i_entry i))) (i_entry i)) (cv_content v') m =
     if m =? n then b else blk_at (i_entry i) (cv_content v) m).
Proof.
  intros Hok Hfree Hblk Hn Hz. destruct (free_facts v i b Hok Hfree) as (Hb0 & Hbi & Hbo & _ & Hbr).
  pose proof (io_entry _ _ Hok) as He. pose proof (eo_len _ He) as Hlen.
  set (e' := ie_with_addrs (<[Z.to_nat n := b]> (ie_addrs (i_entry i))) (i_entry i)) in *.
  assert (entry_ok e') as He' by by apply entry_ok_addr.
  assert (cv_content (v_alloc b v) (iblock (i_no i)) = cv_content v (iblock (i_no i))) as Ei by (apply upd_ne; congruence).
  assert (forall m, 0 <= m < INODE_MAX_BLOCKS -> blk_at e' (cv_content v') m = if m =? n then b else blk_at (i_entry i) (cv_content v) m) as Hb.
  { intros m Hm. destruct (Z.lt_ge_cases m INODE_NUM_DIRECT) as [Hd|Hd].
    - rewrite !blk_direct by done. cbn [e' ie_with_addrs ie_addrs]. destruct (Z.eqb_spec m n) as [->|Hmn].
      + rewrite list_lookup_insert_eq; [done|]. rewrite Hlen. unfold INODE_NUM_DIRECT in *. lia.
      + rewrite list_lookup_insert_ne; [done|]. lia.
    - rewrite (proj2 (Z.eqb_neq m n)) by lia. rewrite !blk_table by done. change (ie_indirect e') with (ie_indirect (i_entry i)).
      destruct (Z.eqb_spec (ie_indirect (i_entry i)) 0) as [|Hi]; [done|]. f_equal.
      pose proof (owns_indirect (i_entry i) (cv_content v) Hi) as Hoi.
      unfold v', v_synced, v_alloc. cbn [v_log v_store v_mark cv_content]. rewrite !upd_ne; [done| |].
      + intros E. apply Hbo. by rewrite <-E.
      + intros E. apply (io_apart _ _ Hok). by rewrite <-E. }
  destruct (extend_ok v i v' e' b n) as [H1 H2]; try done.
  - rewrite (proj2 (Z.ltb_ge n 0)) by lia. done.
  - lia.
  - intros c Hc Hno Hci. unfold v', v_synced, v_alloc. cbn [v_log v_store v_mark cv_content]. rewrite !upd_ne; [done| |done].
    intros ->. destruct Hfree as (_ & ? & _). congruence.
  - intros j Hj. unfold v'. rewrite synced_iblock; [by rewrite Ei|by rewrite Ei| |done]. apply He'.
  - unfold v'. apply synced_disk; [done|by rewrite Ei].
Qed.

Lemma get_addrs_bound n : 0 <= n < INODE_NUM_INDIRECT -> (get_addrs n + 4 <= Z.to_nat BLOCK_SIZE)%nat.
Proof. unfold get_addrs. change INODE_NUM_INDIRECT with 128. change BLOCK_SIZE with 512. lia. Qed.

Lemma add_indirect v i b (e' := ie_with_indirect b (i_entry i)) (v' := v_synced (i_no i) e' (v_alloc b v)) :
  ino_ok v i -> is_free v b -> is_block (cv_content v (iblock (i_no i))) -> ie_indirect (i_entry i) = 0 ->
  ino_ok v' (i_with_entry e' i) /\ grows (i_no i) v (i_entry i) v' e' /\
  (forall m, 0 <= m < INODE_MAX_BLOCKS -> blk_at e' (cv_content v') m = blk_at (i_entry i) (cv_content v) m).
Proof.
  intros Hok Hfree Hblk Hz. destruct (free_facts v i b Hok Hfree) as (Hb0 & Hbi & Hbo & _ & Hbr).
  pose proof (io_entry _ _ Hok) as He. assert (entry_ok e') as He' by by apply entry_ok_indirect.
  assert (cv_content (v_alloc b v) (iblock (i_no i)) = cv_content v (iblock (i_no i))) as Ei by (apply upd_ne; congruence).
  assert (forall m, 0 <= m < INODE_MAX_BLOCKS -> blk_at e' (cv_content v') m = blk_at (i_entry i) (cv_content v) m) as Hb.
  { intros m Hm. destruct (Z.lt_ge_cases m INODE_NUM_DIRECT) as [Hd|Hd]; [by rewrite !blk_direct|].
    rewrite !blk_table, Hz by done. change (ie_indirect e') with b. rewrite (proj2 (Z.eqb_neq b 0)) by done. cbn [Z.eqb].
    unfold v', v_synced, v_alloc. cbn [v_log v_store v_mark cv_content]. rewrite upd_ne, upd_eq by congruence. apply read_le_zeros. }
  destruct (extend_ok v i v' e' b (-1)) as [H1 H2]; try done.
  - intros m Hm. rewrite (proj2 (Z.eqb_neq m (-1))) by lia. by apply Hb.
  - intros c Hc Hno Hci. unfold v', v_synced, v_alloc. cbn [v_log v_store v_mark cv_content]. rewrite !upd_ne; [done| |done].
    intros ->. destruct Hfree as (_ & ? & _). congruence.
  - intros j Hj. unfold v'. rewrite synced_iblock; [by rewrite Ei|by rewrite Ei| |done]. apply He'.
  - unfold v'. apply synced_disk; [done|by rewrite Ei].
Qed.

(** The view after the new block [b] was entered in the indirect block. *)
Definition v_table (e : InodeEntry) (n b : Z) (v : cview) : cview :=
  v_log (ie_indirect e) (v_store (ie_indirect e)
    (splice (get_addrs (n - INODE_NUM_DIRECT)) (le_bytes 4 b) (cv_content v (ie_indirect e))) (v_alloc b v)).

Lemma add_table v i n b (v' := v_table (i_entry i) n b v) :
  ino_ok v i -> is_free v b -> is_block (cv_content v (ie_indirect (i_entry i))) ->
  INODE_NUM_DIRECT <= n < INODE_MAX_BLOCKS -> ie_indirect (i_entry i) <> 0 -> blk_at (i_entry i) (cv_content v) n = 0 ->
  ino_ok v' i /\ grows (i_no i) v (i_entry i) v' (i_entry i) /\
  (forall m, 0 <= m < INODE_MAX_BLOCKS -> blk_at (i_entry i) (cv_content v') m =
     if m =? n then b else blk_at (i_entry i) (cv_content v) m).
Proof.
  intros Hok Hfree [Hlen _] Hn Hi Hz. destruct (free_facts v i b Hok Hfree) as (Hb0 & Hbi & Hbo & _ & Hbr).
  pose proof (owns_indirect (i_entry i) (cv_content v) Hi) as Hoi.
  assert (ie_indirect (i_entry i) <> b) as Hib by (intros E; apply Hbo; by rewrite <-E).
  assert (ie_indirect (i_entry i) <> iblock (i_no i)) as Hii by (intros E; apply (io_apart _ _ Hok); by rewrite <-E).
  assert (cv_content v' (iblock (i_no i)) = cv_content v (iblock (i_no i))) as Ei.
  { unfold v', v_table, v_alloc. cbn [v_log v_store v_mark cv_content]. by rewrite !upd_ne by congruence. }
  assert (0 <= n - INODE_NUM_DIRECT < INODE_NUM_INDIRECT) as Hk by (unfold INODE_MAX_BLOCKS in Hn; lia).
  pose proof (get_addrs_bound _ Hk) as Hkb.
  assert (forall m, 0 <= m < INODE_MAX_BLOCKS -> blk_at (i_entry i) (cv_content v') m = if m =? n then b else blk_at (i_entry i) (cv_content v) m) as Hb.
  { intros m Hm. destruct (Z.lt_ge_cases m INODE_NUM_DIRECT) as [Hd|Hd].
    { rewrite (proj2 (Z.eqb_neq m n)) by lia. by rewrite !blk_direct. }
    rewrite !blk_table by done. rewrite (proj2 (Z.eqb_neq (ie_indirect (i_entry i)) 0)) by done.
    unfold v', v_table. cbn [v_log v_store cv_content]. rewrite upd_eq. destruct (Z.eqb_spec m n) as [->|Hmn].
    - apply read_le_splice; [lia|exact Hbr].
    - apply read_le_splice_ne; rewrite length_le_bytes; [lia|]. unfold get_addrs. unfold INODE_MAX_BLOCKS in *. lia. }
  destruct (extend_ok v i v' (i_entry i) b n) as [H1 H2]; try done.
  - apply Hok.
  - rewrite (proj2 (Z.ltb_ge n 0)) by (unfold INODE_NUM_DIRECT in *; lia). done.
  - unfold INODE_NUM_DIRECT in *. lia.
  - intros c Hc Hno Hci. unfold v', v_table, v_alloc. cbn [v_log v_store v_mark cv_content]. rewrite !upd_ne; [done| |].
    + intros ->. destruct Hfree as (_ & ? & _). congruence.
    + intros ->. done.
  - intros j Hj. by rewrite Ei.
  - rewrite Ei. apply Hok.
  - by destruct i.
Qed.

(** ** Log space and free blocks *)

Section budget.
Context (bm : Z) (Hbm : forall b, 0 <= b < sb_num_blocks sb -> bc_bitmap b = bm).

(** The room in the log when the blocks that every allocation needs are set
    aside: the block of the inode, the bitmap and the indirect block. *)
Definition ind_cost (e : InodeEntry) (v : cview) : Z := if ie_indirect e =? 0 then 1 else log_cost (ie_indirect e) v.
Definition slack (no : Z) (e : InodeEntry) (v : cview) : Z :=
  cv_room v - log_cost (iblock no) v - log_cost bm v - ind_cost e v.

Definition free_count (v : cview) : Z :=
  Z.of_nat (length (filter (fun b => cv_used v b = false) (seqZ 0 (sb_num_blocks sb)))).
Definition fslack (e : InodeEntry) (v : cview) : Z := free_count v - (if ie_indirect e =? 0 then 1 else 0).

Lemma free_exists v : 0 < free_count v -> exists b, 0 <= b < sb_num_blocks sb /\ cv_used v b = false.
Proof.
  unfold free_count. destruct (filter _ _) as [|b l] eqn:E; [cbn; lia|]. intros _. exists b.
  assert (b ∈ b :: l) as Hb by left. rewrite <-E in Hb. apply list_elem_of_filter in Hb as [? Hb%elem_of_seqZ]. split; [lia|done].
Qed.

Lemma free_count_mark v b : free_count v - 1 <= free_count (v_mark b true v).
Proof.
  unfold free_count. set (l := seqZ 0 (sb_num_blocks sb)).
  enough (filter (fun c => cv_used v c = false) l ⊆+ b :: filter (fun c => cv_used (v_mark b true v) c = false) l) as H.
  { apply submseteq_length in H. cbn [length] in H. lia. }
  apply NoDup_submseteq; [apply NoDup_filter, NoDup_seqZ|]. intros c [Hu Hc]%list_elem_of_filter.
  rewrite elem_of_cons, list_elem_of_filter. cbn [v_mark cv_used]. unfold upd. destruct (Z.eqb_spec c b); naive_solver.
Qed.

(** ** [inode_map] *)

(** Block [n] of the file is [b]; a new one is clear, and the other blocks are
    as before.  One block of the log, and one free block, may have been used. *)
Record maps (no n b : Z) (v : cview) (e : InodeEntry) (v' : cview) (e' : InodeEntry) : Prop := {
  m_nz : b <> 0;
  m_blk : forall m, 0 <= m < INODE_MAX_BLOCKS ->
    blk_at e' (cv_content v') m = if m =? n then b else blk_at e (cv_content v) m;
  m_bytes : ie_num_bytes e' = ie_num_bytes e;
  m_data : forall m, 0 <= m < INODE_MAX_BLOCKS -> blk_at e (cv_content v) m <> 0 ->
    cv_content v' (blk_at e (cv_content v) m) = cv_content v (blk_at e (cv_content v) m);
  m_new : blk_at e (cv_content v) n = 0 -> cv_content v' b = zero_block;
  m_slack : slack no e v - 1 <= slack no e' v' - log_cost b v';
  m_fslack : fslack e v - 1 <= fslack e' v' }.

Lemma maps_present no n v e : 0 <= n < INODE_MAX_BLOCKS -> blk_at e (cv_content v) n <> 0 ->
  maps no n (blk_at e (cv_content v) n) v e v e.
Proof.
  intros Hn Hb. pose proof (log_cost_range (blk_at e (cv_content v) n) v). split; try done; try lia.
  intros m Hm. by destruct (Z.eqb_spec m n) as [->|].
Qed.

Lemma direct_slack no e e' b v : 0 <= b < sb_num_blocks sb -> ie_indirect e' = ie_indirect e ->
  slack no e v - 1 <= slack no e' (v_synced no e' (v_alloc b v)) - log_cost b (v_synced no e' (v_alloc b v)) /\
  (1 <= slack no e v -> log_cost (iblock no) (v_alloc b v) <= cv_room (v_alloc b v)).
Proof.
  intros Hb Hi. unfold slack, ind_cost, v_synced, v_alloc. rewrite Hi, (Hbm b Hb). cbn [v_log v_store v_mark cv_room].
  rewrite ?log_cost_log, ?log_cost_store, ?log_cost_log, ?log_cost_store, ?log_cost_log, ?log_cost_mark.
  pose proof (log_cost_range b v). pose proof (log_cost_range bm v). pose proof (log_cost_range (iblock no) v).
  pose proof (log_cost_range (ie_indirect e) v). destruct (ie_indirect e =? 0); repeat case_decide; subst; try congruence; lia.
Qed.

Lemma indirect_slack no e b v : 0 <= b < sb_num_blocks sb -> ie_indirect e = 0 -> b <> 0 ->
  let e' := ie_with_indirect b e in
  slack no e v <= slack no e' (v_synced no e' (v_alloc b v)) /\
  (1 <= slack no e v -> log_cost (iblock no) (v_alloc b v) <= cv_room (v_alloc b v)).
Proof.
  intros Hb Hi Hb0 e'. unfold slack, ind_cost, v_synced, v_alloc. change (ie_indirect e') with b.
  rewrite Hi, (Hbm b Hb), (proj2 (Z.eqb_neq b 0)) by done. cbn [v_log v_store v_mark cv_room Z.eqb].
  rewrite ?log_cost_log, ?log_cost_store, ?log_cost_log, ?log_cost_store, ?log_cost_log, ?log_cost_mark.
  pose proof (log_cost_range b v). pose proof (log_cost_range bm v). pose proof (log_cost_range (iblock no) v).
  repeat case_decide; subst; try congruence; lia.
Qed.

Lemma table_slack no e n b v : 0 <= b < sb_num_blocks sb -> ie_indirect e <> 0 ->
  slack no e v - 1 <= slack no e (v_table e n b v) - log_cost b (v_table e n b v) /\
  (1 <= slack no e v -> log_cost (ie_indirect e) (v_alloc b v) <= cv_room (v_alloc b v)).
Proof.
  intros Hb Hi. unfold slack, ind_cost, v_table, v_alloc. rewrite (Hbm b Hb), (proj2 (Z.eqb_neq (ie_indirect e) 0)) by done.
  cbn [v_log v_store v_mark cv_room].
  rewrite ?log_cost_log, ?log_cost_store, ?log_cost_log, ?log_cost_store, ?log_cost_log, ?log_cost_mark.
  pose proof (log_cost_range b v). pose proof (log_cost_range bm v). pose proof (log_cost_range (iblock no) v).
  pose proof (log_cost_range (ie_indirect e) v). repeat case_decide; subst; try congruence; lia.
Qed.

Lemma slack_alloc no e v : 1 <= slack no e v -> forall b, 0 <= b < sb_num_blocks sb -> log_cost (bc_bitmap b) v + 1 <= cv_room v.
Proof.
  intros H b Hb. rewrite (Hbm b Hb). unfold slack, ind_cost in H. pose proof (log_cost_range (iblock no) v).
  pose proof (log_cost_range (ie_indirect e) v). destruct (ie_indirect e =? 0); lia.
Qed.

(** What [inode_map] gives its caller. *)
Definition mapped (s0 : istate S) (p n : Z) (i : Inode) (v : cview) (r : Z * bool) (s' : istate S) : Prop :=
  exists e' v', ist s0 p (i_with_entry e' i) v' s' /\ ino_ok v' (i_with_entry e' i) /\
    grows (i_no i) v (i_entry i) v' e' /\ maps (i_no i) n (fst r) v (i_entry i) v' e'.

Lemma with_entry_id i : i_with_entry (i_entry i) i = i.
Proof. by destruct i. Qed.

Lemma map_present s0 p n i v s md : ist s0 p i v s -> ino_ok v i -> 0 <= n < INODE_MAX_BLOCKS ->
  blk_at (i_entry i) (cv_content v) n <> 0 -> mapped s0 p n i v (blk_at (i_entry i) (cv_content v) n, md) s.
Proof.
  intros H Hok Hn Hb. exists (i_entry i), v. rewrite with_entry_id.
  split_and!; [done|done|apply grows_refl|by apply maps_present].
Qed.

Lemma fslack_mark e e' v v' b : (forall c, cv_used v' c = cv_used (v_mark b true v) c) ->
  ie_indirect e' = ie_indirect e -> fslack e v - 1 <= fslack e' v'.
Proof.
  intros Hu Hi. unfold fslack. rewrite Hi. pose proof (free_count_mark v b).
  assert (free_count v' = free_count (v_mark b true v)) as ->; [|lia].
  unfold free_count. do 2 f_equal. apply list_filter_iff. intros c. by rewrite Hu.
Qed.

(** Data of the file is not touched when the block of the inode and a free block are. *)
Lemma data_kept v i b x y m : ino_ok v i -> is_free v b -> 0 <= m < INODE_MAX_BLOCKS ->
  blk_at (i_entry i) (cv_content v) m <> 0 ->
  upd (iblock (i_no i)) x (upd b y (cv_content v)) (blk_at (i_entry i) (cv_content v) m) =
  cv_content v (blk_at (i_entry i) (cv_content v) m).
Proof.
  intros Hok Hfree Hm Hb. destruct (free_facts v i b Hok Hfree) as (_ & _ & Hbo & _).
  pose proof (owns_blk _ _ m Hm Hb) as Ho. rewrite !upd_ne; [done| |]; intros E.
  - apply Hbo. by rewrite <-E.
  - apply (io_apart _ _ Hok). by rewrite <-E.
Qed.

Section map.
Context (s0 : istate S) (p : Z) (i : Inode) (v : cview).
Context (Hok : ino_ok v i) (Hheld : cv_held v = ∅).

Lemma none_held q b d : cv_held v !! q <> Some (b, d).
Proof. rewrite Hheld, lookup_empty. done. Qed.

Lemma wp_map_direct n s : ist s0 p i v s -> 0 <= n < INODE_NUM_DIRECT ->
  1 <= slack (i_no i) (i_entry i) v -> 1 <= fslack (i_entry i) v -> wp (inode_map bc ctx p n) (mapped s0 p n i v) s.
Proof.
  intros H Hn Hsl Hfs. assert (0 <= n < INODE_MAX_BLOCKS) as Hn' by (unfold INODE_MAX_BLOCKS, INODE_NUM_DIRECT in *; change INODE_NUM_INDIRECT with 128; lia).
  pose proof (io_entry _ _ Hok) as He. pose proof (ist_block _ _ _ _ _ _ H (io_client _ _ Hok)) as Hib.
  unfold inode_map. rewrite (proj2 (Z.ltb_lt n INODE_NUM_DIRECT)) by lia.
  wp_prim. eapply wp_entry_of; [done|]. wp_prim. apply wp_some_or_ub.
  destruct (proj2 (lookup_lt_is_Some (ie_addrs (i_entry i)) (Z.to_nat n))) as [a Ha].
  { rewrite (eo_len _ He). unfold INODE_NUM_DIRECT in *. lia. }
  exists a. split; [done|]. assert (blk_at (i_entry i) (cv_content v) n = a) as Eb by (rewrite blk_direct by lia; by rewrite Ha).
  destruct (Z.eqb_spec a 0) as [->|Ha0].
  2: { wp_prim. rewrite <-Eb. apply map_present; [done|done|done|congruence]. }
  rewrite (proj2 (Z.eqb_neq ctx 0)) by apply bc_ctx.
  wp_prim. eapply wp_alloc; [done| | | |].
  { apply free_exists. unfold fslack in Hfs. destruct (ie_indirect (i_entry i) =? 0); lia. }
  { intros q b d Hq. by destruct (none_held q b d). }
  { by eapply slack_alloc. }
  intros b s1 Hb Hu Hc H1. fold (v_alloc b v) in H1. assert (is_free v b) as Hfree by done.
  destruct (free_facts v i b Hok Hfree) as (Hb0 & Hbi & Hbo & Eu & Hbr). rewrite Eu.
  set (e' := ie_with_addrs (<[Z.to_nat n := b]> (ie_addrs (i_entry i))) (i_entry i)).
  destruct (direct_slack (i_no i) (i_entry i) e' b v Hb eq_refl) as [Hs1 Hs2].
  wp_prim. eapply wp_set_entry; [done|]. intros s2 H2.
  wp_prim. eapply wp_inode_sync; [done|apply Hok| |apply Hok| |by apply Hs2|].
  { cbn. rewrite length_insert. apply He. }
  { intros q d. apply none_held. }
  intros s3 H3. wp_prim. eapply wp_entry_of; [done|]. wp_prim. apply wp_some_or_ub. exists b. split.
  { cbn. apply list_lookup_insert_eq. by eapply lookup_lt_Some. }
  wp_prim. exists e', (v_synced (i_no i) e' (v_alloc b v)).
  destruct (add_direct v i n b Hok Hfree Hib Hn Eb) as (Hok' & Hg & Hblk). fold e' in Hok', Hg, Hblk.
  split_and!; [done|done|done|]. split; cbn [fst]; try done.
  - intros m Hm Hm0. by apply (data_kept v i b _ _ m).
  - intros _. cbn. rewrite upd_ne, upd_eq; done.
  - by eapply fslack_mark.
Qed.

(** The view after the indirect block was held while the new block was allocated. *)
Lemma table_view q n b : cv_held v !! q = None ->
  let ind := ie_indirect (i_entry i) in
  v_drop q (v_log ind (v_hold q ind false (v_store ind (splice (get_addrs (n - INODE_NUM_DIRECT)) (le_bytes 4 b) (cv_content v ind))
    (v_hold q ind true (v_alloc b (v_hold q ind false v)))))) = v_table (i_entry i) n b v.
Proof.
  intros Hq ind. unfold v_table, v_alloc. rewrite !drop_log, !hold_store, !hold_log, !hold_store, !hold_mark, !hold_hold.
  by rewrite drop_store, !drop_log, drop_store, drop_mark, drop_hold.
Qed.

(** [inode_map] once the indirect block exists. *)
Lemma wp_map_table n s :
  ist s0 p i v s -> INODE_NUM_DIRECT <= n < INODE_MAX_BLOCKS -> ie_indirect (i_entry i) <> 0 ->
  1 <= slack (i_no i) (i_entry i) v -> 1 <= fslack (i_entry i) v ->
  wp (e ← entry_of p;
      blk ← cache (bc_acquire bc (ie_indirect e));
      if negb (n - INODE_NUM_DIRECT <? INODE_NUM_INDIRECT) then ub else
      d ← cache (bc_data bc blk);
      if read_le 4 (get_addrs (n - INODE_NUM_DIRECT)) d =? 0 then
        if ctx =? 0 then cache (bc_release bc blk);; mret (0, false) else
        b ← cache (bc_alloc bc ctx);
        d ← cache (bc_data bc blk);
        cache (bc_set_data bc blk (splice (get_addrs (n - INODE_NUM_DIRECT)) (le_bytes 4 b) d));;
        cache (bc_sync bc ctx blk);;
        cache (bc_release bc blk);;
        d ← cache (bc_data bc blk);
        mret (read_le 4 (get_addrs (n - INODE_NUM_DIRECT)) d, true)
      else
        cache (bc_release bc blk);;
        d ← cache (bc_data bc blk);
        mret (read_le 4 (get_addrs (n - INODE_NUM_DIRECT)) d, false)) (mapped s0 p n i v) s.
Proof.
  intros H Hn Hi Hsl Hfs. set (ind := ie_indirect (i_entry i)) in *.
  pose proof (owns_indirect (i_entry i) (cv_content v) Hi) as Hoi.
  destruct (io_owns _ _ Hok ind Hoi) as (Hir & Hic & Hiu). pose proof (ist_block _ _ _ _ _ _ H Hic) as Hib.
  assert (0 <= n - INODE_NUM_DIRECT < INODE_NUM_INDIRECT) as Hk by (unfold INODE_MAX_BLOCKS in Hn; lia).
  pose proof (get_addrs_bound _ Hk) as Hkb. set (k := n - INODE_NUM_DIRECT) in *.
  assert (blk_at (i_entry i) (cv_content v) n = read_le 4 (get_addrs k) (cv_content v ind)) as Eb.
  { rewrite blk_table by lia. by rewrite (proj2 (Z.eqb_neq (ie_indirect (i_entry i)) 0)). }
  assert (0 <= n < INODE_MAX_BLOCKS) as Hn' by (unfold INODE_NUM_DIRECT in *; lia).
  wp_prim. eapply wp_entry_of; [done|]. fold ind. wp_prim. eapply wp_acquire; [done|done|intros; apply none_held|].
  intros q s1 Hq H1. rewrite (proj2 (Z.ltb_lt k INODE_NUM_INDIRECT)) by lia. cbn [negb].
  wp_prim. eapply wp_data; [done|by apply lookup_insert_eq|]. change (cv_content (v_hold q ind false v)) with (cv_content v).
  rewrite <-Eb. destruct (Z.eqb_spec (blk_at (i_entry i) (cv_content v) n) 0) as [E0|E0].
  - rewrite (proj2 (Z.eqb_neq ctx 0)) by apply bc_ctx. wp_prim. eapply wp_alloc; [done| | | |].
    { destruct (free_exists v) as (b & Hb); [unfold fslack in Hfs; destruct (ie_indirect (i_entry i) =? 0); lia|]. by exists b. }
    { intros q' b d. cbn [v_hold cv_held]. rewrite Hheld, lookup_insert. case_decide; [naive_solver|by rewrite lookup_empty]. }
    { intros b Hb. by apply (slack_alloc (i_no i) (i_entry i) v). }
    intros b s2 Hb Hu Hc H2. change (cv_used v b = false) in Hu. fold (v_alloc b (v_hold q ind false v)) in H2. assert (is_free v b) as Hfree by done.
    destruct (free_facts v i b Hok Hfree) as (Hb0 & Hbi & Hbo & Eu & Hbr).
    assert (ind <> b) as Hib' by (intros E; rewrite E in Hiu; congruence).
    destruct (table_slack (i_no i) (i_entry i) n b v Hb Hi) as [Hs1 Hs2].
    wp_prim. eapply wp_data; [done|by apply lookup_insert_eq|].
    assert (cv_content (v_alloc b (v_hold q ind false v)) ind = cv_content v ind) as Ec by (cbn; by rewrite upd_ne). rewrite Ec.
    wp_prim. eapply wp_set_data; [done|by apply lookup_insert_eq| |].
    { apply splice_block; [by rewrite length_le_bytes|apply le_bytes_is_byte|done]. }
    intros s3 H3. wp_prim. eapply wp_sync; [done|by apply lookup_insert_eq|by apply Hs2|]. intros s4 H4.
    wp_prim. eapply wp_release; [done|by apply lookup_insert_eq|]. intros s5 H5 Hd5. unfold k in H5. rewrite table_view in H5 by done.
    wp_prim. eapply wp_intro; [exact Hd5|]. wp_prim. cbn [v_log v_hold v_store cv_content]. rewrite upd_eq, read_le_splice; [|rewrite (proj1 Hib); lia|exact Hbr].
    destruct (add_table v i n b Hok Hfree Hib Hn Hi E0) as (Hok' & Hg & Hblk).
    exists (i_entry i), (v_table (i_entry i) n b v). rewrite with_entry_id. split_and!; [done|done|done|]. split; cbn [fst]; try done.
    + intros m Hm Hm0. pose proof (owns_blk _ _ m Hm Hm0) as Ho. unfold v_table, v_alloc. cbn [v_log v_store v_mark cv_content].
      rewrite !upd_ne; [done| |by apply (io_indirect _ _ Hok)]. intros E. apply Hbo. by rewrite <-E.
    + intros _. unfold v_table, v_alloc. cbn [v_log v_store v_mark cv_content]. by rewrite upd_ne, upd_eq by congruence.
    + by eapply fslack_mark.
  - wp_prim. eapply wp_release; [done|by apply lookup_insert_eq|]. intros s2 H2 Hd2. rewrite drop_hold in H2 by done.
    wp_prim. eapply wp_intro; [exact Hd2|]. wp_prim. cbn [v_hold cv_content]. rewrite <-Eb. by apply map_present.
Qed.
End map.

(** [inode_map] with an operation returns the number of the block, which it
    allocates when there is none. *)
Lemma wp_inode_map s0 p n i v s :
  ist s0 p i v s -> ino_ok v i -> cv_held v = ∅ -> 0 <= n < INODE_MAX_BLOCKS ->
  1 <= slack (i_no i) (i_entry i) v -> 1 <= fslack (i_entry i) v -> wp (inode_map bc ctx p n) (mapped s0 p n i v) s.
Proof.
  intros H Hok Hheld Hn Hsl Hfs. destruct (Z.lt_ge_cases n INODE_NUM_DIRECT) as [Hd|Hd].
  { apply wp_map_direct; [done|done|done|lia|done|done]. }
  unfold inode_map. rewrite (proj2 (Z.ltb_ge n INODE_NUM_DIRECT)) by lia. unfold map_indirect.
  wp_prim. eapply wp_entry_of; [done|]. rewrite (proj2 (Z.eqb_neq ctx 0)) at 1 by apply bc_ctx. rewrite andb_false_r.
  destruct (Z.eqb_spec (ie_indirect (i_entry i)) 0) as [Ei|Ei].
  2: { wp_prim. wp_prim. apply wp_map_table; try done; lia. }
  pose proof (ist_block _ _ _ _ _ _ H (io_client _ _ Hok)) as Hib. assert (2 <= free_count v) as Hfc by (unfold fslack in Hfs; rewrite Ei in Hfs; cbn in Hfs; lia).
  wp_prim. wp_prim. eapply wp_alloc; [done|apply free_exists; lia| |by eapply slack_alloc|].
  { intros q b d. by rewrite Hheld, lookup_empty. }
  intros b s1 Hb Hu Hc H1. fold (v_alloc b v) in H1. assert (is_free v b) as Hfree by done.
  destruct (free_facts v i b Hok Hfree) as (Hb0 & Hbi & Hbo & Eu & Hbr). rewrite Eu.
  destruct (indirect_slack (i_no i) (i_entry i) b v Hb Ei Hb0) as [Hs1 Hs2].
  set (e1 := ie_with_indirect b (i_entry i)) in *. set (v1 := v_synced (i_no i) e1 (v_alloc b v)) in *.
  destruct (add_indirect v i b Hok Hfree Hib Ei) as (Hok1 & Hg1 & Hblk1). fold e1 v1 in Hok1, Hg1, Hblk1.
  wp_prim. eapply wp_set_entry; [done|]. intros s2 H2. eapply wp_inode_sync; [done|apply Hok|apply Hok|apply Hok| |by apply Hs2|].
  { intros q d. cbn. by rewrite Hheld, lookup_empty. }
  intros s3 H3. change (v_synced _ _ _) with v1 in H3.
  assert (fslack (i_entry i) v <= fslack e1 v1) as Hf1.
  { unfold fslack. rewrite Ei. change (ie_indirect e1) with b. rewrite (proj2 (Z.eqb_neq b 0)) by done. cbn [Z.eqb].
    pose proof (free_count_mark v b). change (free_count v1) with (free_count (v_mark b true v)). lia. }
  eapply wp_mono; [apply (wp_map_table s0 p (i_with_entry e1 i) v1); try done; cbn [i_no i_entry i_with_entry]; lia|].
  intros r s4 (e2 & v2 & H4 & Hok2 & Hg2 & [M1 M2 M3 M4 M5 M6 M7]).
  cbn [i_no i_entry i_with_entry] in *. exists e2, v2. split; [done|]. split; [done|]. split; [by eapply grows_trans|].
  split; try done; try lia.
  - intros m Hm. rewrite M2 by done. by rewrite Hblk1.
  - intros m Hm Hm0. rewrite <-(Hblk1 m Hm), M4 by (rewrite ?Hblk1; done). rewrite Hblk1 by done.
    by apply (data_kept v i b _ _ m).
  - rewrite <-Hblk1 by done. done.
Qed.
End budget.

(** ** The content of a file *)

Definition file_byte (e : InodeEntry) (C : Z -> list Z) (j : Z) : Z :=
  default 0 (C (blk_at e C (j / BLOCK_SIZE)) !! Z.to_nat (j mod BLOCK_SIZE)).
Definition file_bytes (e : InodeEntry) (C : Z -> list Z) : list Z := file_byte e C <$> seqZ 0 (ie_num_bytes e).

(** Every byte of the file is in a block. *)
Definition no_holes (e : InodeEntry) (C : Z -> list Z) : Prop :=
  ie_num_bytes e <= INODE_MAX_BYTES /\ forall j, 0 <= j < ie_num_bytes e -> blk_at e C (j / BLOCK_SIZE) <> 0.

Lemma block_of j : 0 <= j < INODE_MAX_BYTES -> 0 <= j / BLOCK_SIZE < INODE_MAX_BLOCKS.
Proof.
  unfold INODE_MAX_BYTES. change INODE_MAX_BLOCKS with 140. change BLOCK_SIZE with 512. intros H.
  split; [apply Z.div_pos; lia|apply Z.div_lt_upper_bound; lia].
Qed.

(** A piece of a loop stays in one block and reaches the end of the block or of
    the range. *)
Lemma piece_spec i end_ : 0 <= i < end_ ->
  0 < piece i end_ /\ i + piece i end_ <= end_ /\ i mod BLOCK_SIZE + piece i end_ <= BLOCK_SIZE /\
  i + piece i end_ = Z.min end_ (next_i i) /\ i < next_i i.
Proof.
  intros H. unfold piece, next_i. change BLOCK_SIZE with 512. pose proof (Z.div_mod i 512 ltac:(lia)).
  pose proof (Z.mod_pos_bound i 512 ltac:(lia)). lia.
Qed.

Lemma same_block i j end_ : 0 <= i < end_ -> i <= j < i + piece i end_ ->
  j / BLOCK_SIZE = i / BLOCK_SIZE /\ j mod BLOCK_SIZE = i mod BLOCK_SIZE + (j - i).
Proof.
  intros Hi Hj. destruct (piece_spec i end_ Hi) as (_ & _ & Hp & _). change BLOCK_SIZE with 512 in *.
  pose proof (Z.div_mod i 512 ltac:(lia)). pose proof (Z.mod_pos_bound i 512 ltac:(lia)).
  split; [symmetry; apply (Z.div_unique _ _ _ (i mod 512 + (j - i))); lia|].
  symmetry. apply (Z.mod_unique _ _ (i / 512)); lia.
Qed.

(** The bytes of a piece. *)
Lemma piece_bytes e C i end_ : 0 <= i < end_ -> is_block (C (blk_at e C (i / BLOCK_SIZE))) ->
  take (Z.to_nat (piece i end_)) (drop (Z.to_nat (i mod BLOCK_SIZE)) (C (blk_at e C (i / BLOCK_SIZE)))) =
  file_byte e C <$> seqZ i (piece i end_).
Proof.
  intros Hi [Hl _]. destruct (piece_spec i end_ Hi) as (H1 & H2 & H3 & _). pose proof (Z.mod_pos_bound i BLOCK_SIZE ltac:(done)).
  apply list_eq. intros k. rewrite list_lookup_fmap. destruct (decide (k < Z.to_nat (piece i end_))%nat) as [Hk|Hk].
  - rewrite lookup_take_lt, lookup_drop by done. rewrite lookup_seqZ_lt by lia. cbn [fmap option_fmap option_map].
    unfold file_byte. destruct (same_block i (i + Z.of_nat k) end_ Hi) as [-> ->]; [lia|].
    replace (Z.to_nat (i mod BLOCK_SIZE + (i + Z.of_nat k - i))) with (Z.to_nat (i mod BLOCK_SIZE) + k)%nat by lia.
    destruct (lookup_lt_is_Some_2 (C (blk_at e C (i / BLOCK_SIZE))) (Z.to_nat (i mod BLOCK_SIZE) + k)) as [x Hx];
      [rewrite Hl; change BLOCK_SIZE with 512 in *; lia|]. by rewrite Hx.
  - rewrite lookup_take_ge by lia. by rewrite lookup_seqZ_ge by lia.
Qed.

Lemma wp_map_read s0 p i v n s (Q : Z * bool -> istate S -> Prop) :
  ist s0 p i v s -> ino_ok v i -> cv_held v = ∅ -> 0 <= n < INODE_MAX_BLOCKS -> blk_at (i_entry i) (cv_content v) n <> 0 ->
  (forall s', ist s0 p i v s' -> Q (blk_at (i_entry i) (cv_content v) n, false) s') -> wp (inode_map bc 0 p n) Q s.
Proof.
  intros H Hok Hheld Hn Hb HQ. pose proof (io_entry _ _ Hok) as He. unfold inode_map.
  destruct (Z.ltb_spec n INODE_NUM_DIRECT) as [Hd|Hd].
  - wp_prim. eapply wp_entry_of; [done|]. wp_prim. apply wp_some_or_ub.
    destruct (proj2 (lookup_lt_is_Some (ie_addrs (i_entry i)) (Z.to_nat n))) as [a Ha].
    { rewrite (eo_len _ He). unfold INODE_NUM_DIRECT in *. lia. }
    exists a. split; [done|]. assert (blk_at (i_entry i) (cv_content v) n = a) as Eb by (rewrite blk_direct by lia; by rewrite Ha).
    rewrite Eb in *. rewrite (proj2 (Z.eqb_neq a 0)) by done. wp_prim. by apply HQ.
  - unfold map_indirect. wp_prim. eapply wp_entry_of; [done|].
    assert (ie_indirect (i_entry i) <> 0) as Hi by (intros E; rewrite blk_table, E in Hb by done; done).
    rewrite (proj2 (Z.eqb_neq (ie_indirect (i_entry i)) 0)) by done. cbn [andb]. wp_prim. wp_prim.
    destruct (io_owns _ _ Hok _ (owns_indirect _ _ Hi)) as (_ & Hic & _). wp_prim. eapply wp_entry_of; [done|].
    wp_prim. eapply wp_acquire; [done|done|intros q d; by rewrite Hheld, lookup_empty|]. intros q s1 Hq H1.
    rewrite (proj2 (Z.ltb_lt _ INODE_NUM_INDIRECT)) by (unfold INODE_MAX_BLOCKS in Hn; lia). cbn [negb].
    wp_prim. eapply wp_data; [done|by apply lookup_insert_eq|]. cbn [v_hold cv_content].
    assert (blk_at (i_entry i) (cv_content v) n = read_le 4 (get_addrs (n - INODE_NUM_DIRECT)) (cv_content v (ie_indirect (i_entry i)))) as Eb
      by (rewrite blk_table by done; by rewrite (proj2 (Z.eqb_neq (ie_indirect (i_entry i)) 0))).
    rewrite <-Eb, (proj2 (Z.eqb_neq _ _) Hb). wp_prim. eapply wp_release; [done|by apply lookup_insert_eq|].
    intros s2 H2 Hd2. rewrite drop_hold in H2 by done. wp_prim. eapply wp_intro; [exact Hd2|]. wp_prim. cbn [v_hold cv_content].
    rewrite <-Eb. by apply HQ.
Qed.

Lemma wp_read_loop k s0 p i v j end_ s (Q : list Z -> istate S -> Prop) :
  ist s0 p i v s -> ino_ok v i -> cv_held v = ∅ -> no_holes (i_entry i) (cv_content v) ->
  0 <= j -> end_ <= ie_num_bytes (i_entry i) -> end_ - j <= Z.of_nat k ->
  (forall s', ist s0 p i v s' -> Q (file_byte (i_entry i) (cv_content v) <$> seqZ j (end_ - j)) s') ->
  wp (inode_read_loop bc k p j end_) Q s.
Proof.
  intros H Hok Hheld [Hmax Hm]. revert j s H Q. induction k as [|k IH]; intros j s H Q Hj He Hk HQ; cbn [inode_read_loop];
    destruct (Z.ltb_spec j end_) as [Hlt|Hge]; cbn [negb]; try (wp_prim; rewrite seqZ_nil in HQ by lia; by apply HQ); [lia|].
  destruct (piece_spec j end_ ltac:(lia)) as (P1 & P2 & P3 & P4 & P5).
  pose proof (Hm j ltac:(lia)) as Hb. pose proof (block_of j ltac:(lia)) as Hn.
  wp_prim. eapply wp_map_read; [done|done|done|done|done|]. intros s1 H1.
  destruct (io_owns _ _ Hok _ (owns_blk _ _ _ Hn Hb)) as (_ & Hc & _).
  wp_prim. eapply wp_acquire; [done|done|intros q d; by rewrite Hheld, lookup_empty|]. intros q s2 Hq H2.
  wp_prim. eapply wp_data; [done|by apply lookup_insert_eq|]. cbn [v_hold cv_content].
  wp_prim. eapply wp_release; [done|by apply lookup_insert_eq|]. intros s3 H3 _. rewrite drop_hold in H3 by done.
  wp_prim. eapply IH; [done|unfold next_i in *; lia|done|lia|]. intros s4 H4. wp_prim.
  rewrite piece_bytes by (lia || by eapply ist_block). rewrite <-fmap_app.
  replace (seqZ j (piece j end_) ++ seqZ (next_i j) (end_ - next_i j)) with (seqZ j (end_ - j)); [by apply HQ|].
  destruct (Z.lt_ge_cases (next_i j) end_) as [Hn1|Hn1].
  - replace (next_i j) with (j + piece j end_) by lia. rewrite <-seqZ_app by lia. f_equal. lia.
  - rewrite (seqZ_nil (next_i j)) by lia. rewrite app_nil_r. f_equal. lia.
Qed.

(** ** Writing *)

(** Changing the content of a data block of the file. *)
Lemma store_data_ok v i n x (b := blk_at (i_entry i) (cv_content v) n) (v' := v_log b (v_store b x v)) :
  ino_ok v i -> 0 <= n < INODE_MAX_BLOCKS -> b <> 0 ->
  ino_ok v' i /\ grows (i_no i) v (i_entry i) v' (i_entry i) /\
  (forall m, blk_at (i_entry i) (cv_content v') m = blk_at (i_entry i) (cv_content v) m).
Proof.
  intros Hok Hn Hb. pose proof (owns_blk _ _ n Hn Hb) as Ho. fold b in Ho.
  assert (b <> iblock (i_no i)) as Hbi by (intros E; apply (io_apart _ _ Hok); by rewrite <-E).
  pose proof (io_indirect _ _ Hok n Hn Hb) as Hind. fold b in Hind.
  assert (forall m, blk_at (i_entry i) (cv_content v') m = blk_at (i_entry i) (cv_content v) m) as Hblk.
  { intros m. destruct (Z.lt_ge_cases m INODE_NUM_DIRECT) as [Hd|Hd]; [by rewrite !blk_direct|].
    rewrite !blk_table by done. cbn [v' v_log v_store cv_content]. by rewrite upd_ne by congruence. }
  assert (forall c, owns (i_entry i) (cv_content v') c <-> owns (i_entry i) (cv_content v) c) as Hown.
  { intros c. unfold owns. by setoid_rewrite Hblk. }
  assert (cv_content v' (iblock (i_no i)) = cv_content v (iblock (i_no i))) as Ei by (cbn; by rewrite upd_ne by congruence).
  destruct Hok. split; [|split; [|done]]; split; try done; try (by rewrite Ei).
  - by rewrite Hown.
  - intros c. by rewrite Hown; auto.
  - intros m1 m2. rewrite !Hblk. auto.
  - intros m. rewrite !Hblk. auto.
  - intros c Hc. left. by apply Hown.
  - intros c _ Hc _. cbn. apply upd_ne. by intros ->.
Qed.

(** Writing back an entry that has the same blocks. *)
Lemma resync_ok v i e' (v' := v_synced (i_no i) e' v) :
  ino_ok v i -> is_block (cv_content v (iblock (i_no i))) -> entry_ok e' ->
  ie_addrs e' = ie_addrs (i_entry i) -> ie_indirect e' = ie_indirect (i_entry i) ->
  ie_type e' = ie_type (i_entry i) -> ie_major e' = ie_major (i_entry i) -> ie_minor e' = ie_minor (i_entry i) ->
  ie_num_links e' = ie_num_links (i_entry i) ->
  ino_ok v' (i_with_entry e' i) /\ grows (i_no i) v (i_entry i) v' e' /\
  (forall m, blk_at e' (cv_content v') m = blk_at (i_entry i) (cv_content v) m) /\
  (forall c, owns (i_entry i) (cv_content v) c -> cv_content v' c = cv_content v c).
Proof.
  intros Hok Hib He Ha Hi Ht Hma Hmi Hl.
  assert (forall c, owns (i_entry i) (cv_content v) c -> cv_content v' c = cv_content v c) as Hsame.
  { intros c Hc. cbn. apply upd_ne. intros ->. by apply (io_apart _ _ Hok). }
  assert (forall m, blk_at e' (cv_content v') m = blk_at (i_entry i) (cv_content v) m) as Hblk.
  { intros m. destruct (Z.lt_ge_cases m INODE_NUM_DIRECT) as [Hd|Hd]; [rewrite !blk_direct by done; by rewrite Ha|].
    rewrite !blk_table, Hi by done. destruct (Z.eqb_spec (ie_indirect (i_entry i)) 0) as [|Hne]; [done|]. f_equal.
    by apply Hsame, owns_indirect. }
  assert (forall c, owns e' (cv_content v') c <-> owns (i_entry i) (cv_content v) c) as Hown.
  { intros c. unfold owns. rewrite Hi. by setoid_rewrite Hblk. }
  pose proof (synced_disk (i_no i) e' v He Hib) as Hdisk.
  split; [|split; [|done]].
  - destruct Hok. split; cbn [i_no i_valid i_entry i_with_entry]; try done.
    + by rewrite Hown.
    + intros c. by rewrite Hown; auto.
    + intros m1 m2. rewrite !Hblk. auto.
    + intros m. rewrite !Hblk, Hi. auto.
  - split; try done.
    + intros c Hc. left. by apply Hown.
    + intros c _ _ Hc. cbn. by apply upd_ne.
    + intros j Hj. apply synced_iblock; [done|apply He|done].
Qed.

(** The number of blocks that the range from [i] to [end_] touches. *)
Definition blocks_in (i end_ : Z) : Z := if i <? end_ then (end_ - 1) / BLOCK_SIZE - i / BLOCK_SIZE + 1 else 0.

Lemma blocks_in_next i end_ : 0 <= i < end_ -> blocks_in i end_ = blocks_in (next_i i) end_ + 1 /\ 0 <= blocks_in (next_i i) end_.
Proof.
  intros H. unfold blocks_in, next_i. rewrite (proj2 (Z.ltb_lt i end_)) by lia. change BLOCK_SIZE with 512.
  pose proof (Z.div_le_mono i (end_ - 1) 512 ltac:(lia) ltac:(lia)).
  destruct (Z.ltb_spec ((i / 512 + 1) * 512) end_) as [Hlt|Hge].
  - rewrite Z.div_mul by lia. pose proof (Z.div_le_mono ((i / 512 + 1) * 512) (end_ - 1) 512 ltac:(lia) ltac:(lia)) as Hm.
    rewrite Z.div_mul in Hm by lia. lia.
  - pose proof (Z.div_lt_upper_bound (end_ - 1) 512 (i / 512 + 1) ltac:(lia) ltac:(lia)). lia.
Qed.

Lemma lookup_splice_ext {A} off (bs buf : list A) j : (off <= length buf)%nat ->
  splice off bs buf !! j = if decide (j < off)%nat then buf !! j else
    if decide (j < off + length bs)%nat then bs !! (j - off)%nat else buf !! j.
Proof.
  intros H. unfold splice. repeat case_decide.
  - rewrite lookup_app_l by (rewrite length_take; lia). by rewrite lookup_take_lt.
  - rewrite lookup_app_r by (rewrite length_take; lia). rewrite length_take, Nat.min_l by lia. by rewrite lookup_app_l by lia.
  - rewrite lookup_app_r by (rewrite length_take; lia). rewrite length_take, Nat.min_l by lia. rewrite lookup_app_r by lia.
    rewrite lookup_drop. f_equal. lia.
Qed.

(** The bytes from [j] to [end_] are those of [src], all other bytes in blocks of
    the file are as before. *)
Record written (src : list Z) (j end_ : Z) (v : cview) (e : InodeEntry) (v' : cview) (e' : InodeEntry) : Prop := {
  w_bytes : ie_num_bytes e' = ie_num_bytes e;
  w_mapped : forall k, j <= k < end_ -> blk_at e' (cv_content v') (k / BLOCK_SIZE) <> 0;
  w_new : forall k, j <= k < end_ -> file_byte e' (cv_content v') k = default 0 (src !! Z.to_nat (k - j));
  w_old : forall k, 0 <= k < INODE_MAX_BYTES -> blk_at e (cv_content v) (k / BLOCK_SIZE) <> 0 -> ~ (j <= k < end_) ->
    file_byte e' (cv_content v') k = file_byte e (cv_content v) k }.

(** One turn of the loop of [inode_write]. *)
Lemma written_piece no src j end_ b v e v1 e1
  (x := splice (Z.to_nat (j mod BLOCK_SIZE)) (take (Z.to_nat (piece j end_)) src) (cv_content v1 b)) (v2 := v_log b (v_store b x v1)) i bm :
  0 <= j < end_ -> end_ <= INODE_MAX_BYTES -> Z.of_nat (length src) = end_ - j -> ino_ok v1 i -> i_entry i = e1 ->
  grows no v e v1 e1 -> maps bm no (j / BLOCK_SIZE) b v e v1 e1 -> is_block (cv_content v1 b) ->
  written src j (j + piece j end_) v e v2 e1.
Proof.
  intros Hj Hmax Hlen Hok <- G M Hblk. destruct (piece_spec j end_ Hj) as (P1 & P2 & P3 & P4 & P5).
  pose proof (block_of j ltac:(lia)) as Hn. pose proof (m_blk _ _ _ _ _ _ _ _ M) as Mb.
  assert (blk_at (i_entry i) (cv_content v1) (j / BLOCK_SIZE) = b) as Eb by (rewrite Mb by done; by rewrite Z.eqb_refl).
  pose proof (m_nz _ _ _ _ _ _ _ _ M) as Hb0.
  destruct (store_data_ok v1 i (j / BLOCK_SIZE) x Hok Hn) as (Hok2 & _ & Hblk2); [by rewrite Eb|]. rewrite Eb in Hblk2. fold v2 in Hblk2.
  pose proof (Z.mod_pos_bound j BLOCK_SIZE ltac:(done)) as Hmod. destruct Hblk as [Hbl _].
  assert (length (take (Z.to_nat (piece j end_)) src) = Z.to_nat (piece j end_)) as Htl by (rewrite length_take; lia).
  assert (Z.to_nat (j mod BLOCK_SIZE) + length (take (Z.to_nat (piece j end_)) src) <= length (cv_content v1 b))%nat as Hfit.
  { rewrite Htl, Hbl. change BLOCK_SIZE with 512 in *. lia. }
  split.
  - apply M.
  - intros k Hk. destruct (same_block j k end_ Hj Hk) as [-> _]. rewrite Hblk2, Eb. done.
  - intros k Hk. destruct (same_block j k end_ Hj Hk) as [Ek Em]. unfold file_byte. rewrite Ek, Em, Hblk2, Eb.
    cbn [v2 v_log v_store cv_content]. rewrite upd_eq. f_equal. unfold x. rewrite lookup_splice_new by (try done; rewrite Htl; lia).
    rewrite lookup_take_lt by lia. f_equal. lia.
  - intros k Hk Hkb Hko. pose proof (block_of k Hk) as Hkn. unfold file_byte. rewrite Hblk2.
    pose proof (g_blk _ _ _ _ _ G _ Hkn Hkb) as Ek. rewrite Ek. rewrite <-(m_data _ _ _ _ _ _ _ _ M _ Hkn Hkb).
    cbn [v2 v_log v_store cv_content]. destruct (decide (blk_at e (cv_content v) (k / BLOCK_SIZE) = b)) as [E|E]; [|by rewrite upd_ne].
    rewrite E, upd_eq. f_equal. unfold x. assert (k / BLOCK_SIZE = j / BLOCK_SIZE) as Ekj.
    { apply (io_inj _ _ Hok); [done|done|congruence|congruence]. }
    pose proof (Z.mod_pos_bound k BLOCK_SIZE ltac:(done)) as Hmk. apply lookup_splice_old; [done|]. rewrite Htl.
    change BLOCK_SIZE with 512 in *. pose proof (Z.div_mod k 512 ltac:(lia)). pose proof (Z.div_mod j 512 ltac:(lia)). lia.
Qed.

Lemma written_trans no src j m end_ v e v1 e1 v2 e2 :
  0 <= j -> j <= m <= end_ -> end_ <= INODE_MAX_BYTES ->
  grows no v e v1 e1 -> grows no v1 e1 v2 e2 ->
  written src j m v e v1 e1 -> written (drop (Z.to_nat (m - j)) src) m end_ v1 e1 v2 e2 -> written src j end_ v e v2 e2.
Proof.
  intros Hj Hm Hmax G1 G2 [B1 M1 N1 O1] [B2 M2 N2 O2].
  split; [congruence|intros k Hk; destruct (Z.lt_ge_cases k m)|intros k Hk; destruct (Z.lt_ge_cases k m)|intros k Hk Hb Hko].
  - rewrite (g_blk _ _ _ _ _ G2) by (try apply block_of; try apply M1; lia). apply M1. lia.
  - apply M2. lia.
  - rewrite O2 by (try apply M1; lia). apply N1. lia.
  - rewrite N2 by lia. rewrite lookup_drop. do 2 f_equal. lia.
  - rewrite O2; [apply O1; [done|done|lia]|done| |lia]. by rewrite (g_blk _ _ _ _ _ G1) by (try apply block_of; done).
Qed.

Lemma written_nil src j end_ v e : end_ <= j -> written src j end_ v e v e.
Proof. intros H. split; try done; intros k Hk; lia. Qed.

Section write.
Context (bm : Z) (Hbm : forall b, 0 <= b < sb_num_blocks sb -> bc_bitmap b = bm).

Lemma store_slack no e b x v : slack bm no e v - log_cost b v <= slack bm no e (v_log b (v_store b x v)).
Proof.
  unfold slack, ind_cost. cbn [v_log v_store cv_room]. rewrite !log_cost_log, !log_cost_store.
  pose proof (log_cost_range b v). pose proof (log_cost_range bm v). pose proof (log_cost_range (iblock no) v).
  pose proof (log_cost_range (ie_indirect e) v). destruct (ie_indirect e =? 0); repeat case_decide; subst; lia.
Qed.

Lemma slack_room no e v b : log_cost b v <= slack bm no e v -> log_cost b v <= cv_room v.
Proof.
  unfold slack, ind_cost. pose proof (log_cost_range bm v). pose proof (log_cost_range (iblock no) v).
  pose proof (log_cost_range (ie_indirect e) v). destruct (ie_indirect e =? 0); lia.
Qed.

Lemma wp_write_loop n s0 p src j end_ i v s :
  ist s0 p i v s -> ino_ok v i -> cv_held v = ∅ -> 0 <= j -> j <= end_ -> end_ <= INODE_MAX_BYTES ->
  Z.of_nat (length src) = end_ - j -> Forall is_byte src -> end_ - j <= Z.of_nat n ->
  blocks_in j end_ <= slack bm (i_no i) (i_entry i) v -> blocks_in j end_ <= fslack (i_entry i) v ->
  wp (inode_write_loop bc n ctx p src j end_) (fun _ s' => exists e' v', ist s0 p (i_with_entry e' i) v' s' /\
    ino_ok v' (i_with_entry e' i) /\ grows (i_no i) v (i_entry i) v' e' /\ written src j end_ v (i_entry i) v' e') s.
Proof.
  revert i v j src s. induction n as [|n IH]; intros i v j src s H Hok Hheld Hj Hje Hmax Hlen Hbytes Hn Hsl Hfs; cbn [inode_write_loop];
    (destruct (Z.ltb_spec j end_) as [Hlt|Hge]; cbn [negb];
      [|wp_prim; exists (i_entry i), v; rewrite with_entry_id; split_and!; [done|done|apply grows_refl|apply written_nil; lia]]); [lia|].
  destruct (piece_spec j end_ ltac:(lia)) as (P1 & P2 & P3 & P4 & P5). destruct (blocks_in_next j end_ ltac:(lia)) as [Hbi Hbi0].
  pose proof (block_of j ltac:(lia)) as Hnb.
  wp_prim. eapply wp_mono; [apply (wp_inode_map bm Hbm s0 p (j / BLOCK_SIZE) i v); try done; lia|].
  intros [b md] s1 (e1 & v1 & H1 & Hok1 & G1 & M1). cbn [fst] in M1. set (i1 := i_with_entry e1 i) in *.
  pose proof (m_blk _ _ _ _ _ _ _ _ M1 _ Hnb) as Eb. rewrite Z.eqb_refl in Eb. pose proof (m_nz _ _ _ _ _ _ _ _ M1) as Hb0.
  assert (owns e1 (cv_content v1) b) as Hob by (rewrite <-Eb; apply owns_blk; [done|congruence]).
  destruct (io_owns _ _ Hok1 b Hob) as (_ & Hc & _). pose proof (ist_block _ _ _ _ _ _ H1 Hc) as Hblk1.
  assert (forall q d, cv_held v1 !! q <> Some (b, d)) as Hnh by (intros q d; by rewrite (g_held _ _ _ _ _ G1), Hheld, lookup_empty).
  pose proof (m_slack _ _ _ _ _ _ _ _ M1) as Ms. pose proof (m_fslack _ _ _ _ _ _ _ _ M1) as Mf.
  wp_prim. eapply wp_acquire; [done|done|done|]. intros q s2 Hq H2.
  wp_prim. eapply wp_data; [done|by apply lookup_insert_eq|]. cbn [v_hold cv_content].
  pose proof (Z.mod_pos_bound j BLOCK_SIZE ltac:(done)) as Hmod.
  wp_prim. eapply wp_set_data; [done|by apply lookup_insert_eq| |].
  { apply splice_block; [|by apply Forall_take|done]. rewrite length_take. change BLOCK_SIZE with 512 in *. lia. }
  intros s3 H3. wp_prim. eapply wp_sync; [done|by apply lookup_insert_eq| |].
  { apply (slack_room (i_no i) e1). change (log_cost b v1 <= slack bm (i_no i) e1 v1). lia. }
  intros s4 H4. wp_prim. eapply wp_release; [done|by apply lookup_insert_eq|]. intros s5 H5 _. rewrite updated_view in H5 by done.
  set (x := splice (Z.to_nat (j mod BLOCK_SIZE)) _ _) in H5. set (v2 := v_log b (v_store b x v1)) in H5.
  assert (written src j (j + piece j end_) v (i_entry i) v2 e1) as W1.
  { apply (written_piece (i_no i) src j end_ b v (i_entry i) v1 e1 i1 bm); done. }
  destruct (store_data_ok v1 i1 (j / BLOCK_SIZE) x Hok1 Hnb) as (Hok2 & G2 & _); [change (blk_at e1 (cv_content v1) (j / BLOCK_SIZE) <> 0); congruence|].
  cbn [i1 i_no i_entry i_with_entry] in Hok2, G2. rewrite Eb in Hok2, G2. fold v2 in Hok2, G2.
  assert (grows (i_no i) v (i_entry i) v2 e1) as G12 by by eapply grows_trans.
  pose proof (store_slack (i_no i) e1 b x v1) as Ss. fold v2 in Ss.
  destruct (Z.lt_ge_cases (next_i j) end_) as [Hnx|Hnx].
  - eapply wp_mono; [apply (IH i1 v2 (next_i j) (drop (Z.to_nat (piece j end_)) src))|]; try done; try lia.
    + rewrite (g_held _ _ _ _ _ G12). done.
    + rewrite length_drop. lia.
    + by apply Forall_drop.
    + change (blocks_in (next_i j) end_ <= slack bm (i_no i) e1 v2). lia.
    + change (blocks_in (next_i j) end_ <= fslack e1 v1). lia.
    + intros _ s6 (e' & v' & H6 & Hok6 & G6 & W6). exists e', v'. cbn [i1 i_no i_entry i_with_entry] in *. split_and!; [done|done|by eapply grows_trans|].
      eapply (written_trans (i_no i) src j (j + piece j end_)); try done; try lia.
      replace (j + piece j end_ - j) with (piece j end_) by lia. replace (j + piece j end_) with (next_i j) by lia. done.
  - assert (j + piece j end_ = end_) as Ep by lia. rewrite Ep in W1.
    destruct n as [|n]; cbn [inode_write_loop]; rewrite (proj2 (Z.ltb_ge (next_i j) end_)) by lia; cbn [negb]; wp_prim; exists e1, v2; done.
Qed.
End write.

(** ** Whole calls *)

Lemma ist_intro s p i v : is_sblock s = sb -> bc_rep v (is_cache s) -> is_inodes s !! p = Some i -> ist s p i v s.
Proof.
  intros H Hc Hi. split; [done|]. exists (is_cache s). split; [done|]. destruct s. unfold is_with_inodes, is_with_cache. cbn in *.
  by rewrite insert_id.
Qed.

Lemma ist_elim s0 p i v s : ist s0 p i v s -> is_inodes s = <[p := i]> (is_inodes s0) /\ bc_rep v (is_cache s) /\
  is_sblock s = sb /\ is_head s = is_head s0 /\ is_cwd s = is_cwd s0.
Proof. intros (H & c & Hc & ->). done. Qed.

Lemma lookup_file_bytes e C j : file_bytes e C !! j = if decide (Z.of_nat j < ie_num_bytes e) then Some (file_byte e C (Z.of_nat j)) else None.
Proof.
  unfold file_bytes. rewrite list_lookup_fmap. case_decide.
  - by rewrite lookup_seqZ_lt by lia.
  - by rewrite lookup_seqZ_ge by lia.
Qed.

Lemma length_file_bytes e C : length (file_bytes e C) = Z.to_nat (ie_num_bytes e).
Proof. unfold file_bytes. by rewrite length_fmap, length_seqZ. Qed.

Lemma slice_file_bytes e C off n : 0 <= off -> 0 <= n -> off + n <= ie_num_bytes e ->
  take (Z.to_nat n) (drop (Z.to_nat off) (file_bytes e C)) = file_byte e C <$> seqZ off n.
Proof.
  intros Ho Hn Hb. apply list_eq. intros k. rewrite list_lookup_fmap. destruct (decide (k < Z.to_nat n)%nat).
  - rewrite lookup_take_lt, lookup_drop, lookup_file_bytes by done. rewrite decide_True, lookup_seqZ_lt by lia. cbn. do 2 f_equal. lia.
  - by rewrite lookup_take_ge, lookup_seqZ_ge by lia.
Qed.

(** Overwriting or extending the content. *)
Lemma written_file_bytes src off v e v' e' : 0 <= off <= ie_num_bytes e -> no_holes e (cv_content v) ->
  off + Z.of_nat (length src) <= INODE_MAX_BYTES -> ie_num_bytes e' = Z.max (ie_num_bytes e) (off + Z.of_nat (length src)) ->
  (forall k, off <= k < off + Z.of_nat (length src) -> file_byte e' (cv_content v') k = default 0 (src !! Z.to_nat (k - off))) ->
  (forall k, 0 <= k < ie_num_bytes e -> ~ (off <= k < off + Z.of_nat (length src)) -> file_byte e' (cv_content v') k = file_byte e (cv_content v) k) ->
  file_bytes e' (cv_content v') = splice (Z.to_nat off) src (file_bytes e (cv_content v)).
Proof.
  intros Ho [Hmax Hmap] Hm En Hnew Hold. apply list_eq. intros j.
  rewrite lookup_splice_ext by (rewrite length_file_bytes; lia). rewrite !lookup_file_bytes, En. repeat case_decide; try lia; try done.
  - f_equal. apply Hold; lia.
  - destruct (lookup_lt_is_Some_2 src (j - Z.to_nat off)%nat) as [x Hx]; [lia|]. rewrite Hx. f_equal.
    rewrite Hnew by lia. replace (Z.to_nat (Z.of_nat j - off)) with (j - Z.to_nat off)%nat by lia. by rewrite Hx.
  - f_equal. apply Hold; lia.
Qed.

(** The first part of [inode_write]: the new size. *)
Definition grow_size (n : Z) (e : InodeEntry) : InodeEntry := if ie_num_bytes e <? n then ie_with_num_bytes n e else e.

Lemma wp_grow_size bm s0 p end_ i v s : ist s0 p i v s -> ino_ok v i -> cv_held v = ∅ -> 0 <= end_ <= INODE_MAX_BYTES ->
  0 <= slack bm (i_no i) (i_entry i) v ->
  wp (if ie_num_bytes (i_entry i) <? end_ then
        set_entry p (ie_with_num_bytes (u32 end_) (i_entry i));; inode_sync bc ctx p true
      else mret tt) (fun _ s' => let e' := grow_size end_ (i_entry i) in exists v', ist s0 p (i_with_entry e' i) v' s' /\
    ino_ok v' (i_with_entry e' i) /\ grows (i_no i) v (i_entry i) v' e' /\
    (forall m, blk_at e' (cv_content v') m = blk_at (i_entry i) (cv_content v) m) /\
    (forall c, owns (i_entry i) (cv_content v) c -> cv_content v' c = cv_content v c) /\
    slack bm (i_no i) (i_entry i) v <= slack bm (i_no i) e' v' /\ fslack (i_entry i) v <= fslack e' v') s.
Proof.
  intros H Hok Hheld Hend Hsl. unfold grow_size. destruct (ie_num_bytes (i_entry i) <? end_).
  2: { wp_prim. exists v. rewrite with_entry_id. split_and!; [done|done|apply grows_refl|done|done|lia|lia]. }
  pose proof (io_entry _ _ Hok) as He. rewrite u32_small by (unfold INODE_MAX_BYTES in Hend; change INODE_MAX_BLOCKS with 140 in Hend; change BLOCK_SIZE with 512 in Hend; lia).
  set (e' := ie_with_num_bytes end_ (i_entry i)).
  assert (entry_ok e') as He'.
  { destruct He. split; try done. cbn. unfold INODE_MAX_BYTES in Hend. change INODE_MAX_BLOCKS with 140 in Hend. change BLOCK_SIZE with 512 in Hend. lia. }
  pose proof (ist_block _ _ _ _ _ _ H (io_client _ _ Hok)) as Hib.
  assert (log_cost (iblock (i_no i)) v <= cv_room v) as Hroom.
  { unfold slack, ind_cost in Hsl. pose proof (log_cost_range bm v). pose proof (log_cost_range (ie_indirect (i_entry i)) v). destruct (ie_indirect (i_entry i) =? 0); lia. }
  wp_prim. eapply wp_set_entry; [done|]. intros s1 H1.
  eapply wp_inode_sync; [done|apply Hok|apply He'|apply Hok|intros q d; by rewrite Hheld, lookup_empty|done|]. intros s2 H2.
  destruct (resync_ok v i e' Hok Hib He' eq_refl eq_refl eq_refl eq_refl eq_refl eq_refl) as (Hok2 & G2 & Hblk & Hsame).
  exists (v_synced (i_no i) e' v). split_and!; [done|done|done|done|done| |done].
  unfold slack, ind_cost, v_synced. change (ie_indirect e') with (ie_indirect (i_entry i)). cbn [v_log v_store cv_room].
  rewrite !log_cost_log, !log_cost_store. pose proof (log_cost_range bm v). pose proof (log_cost_range (iblock (i_no i)) v).
  pose proof (log_cost_range (ie_indirect (i_entry i)) v). destruct (ie_indirect (i_entry i) =? 0); repeat case_decide; lia.
Qed.

Lemma wp_inode_write bm s p i v src off :
  (forall b, 0 <= b < sb_num_blocks sb -> bc_bitmap b = bm) ->
  ist s p i v s -> ino_ok v i -> no_holes (i_entry i) (cv_content v) -> cv_held v = ∅ -> ie_type (i_entry i) <> INODE_DEVICE ->
  0 <= off <= ie_num_bytes (i_entry i) -> off + Z.of_nat (length src) <= INODE_MAX_BYTES -> Forall is_byte src ->
  blocks_in off (off + Z.of_nat (length src)) <= slack bm (i_no i) (i_entry i) v ->
  blocks_in off (off + Z.of_nat (length src)) <= fslack (i_entry i) v ->
  wp (inode_write bc ctx p src off) (fun r s' => r = Z.of_nat (length src) /\ exists e' v', ist s p (i_with_entry e' i) v' s' /\
    ino_ok v' (i_with_entry e' i) /\ no_holes e' (cv_content v') /\ grows (i_no i) v (i_entry i) v' e' /\
    file_bytes e' (cv_content v') = splice (Z.to_nat off) src (file_bytes (i_entry i) (cv_content v))) s.
Proof.
  intros Hbm H Hok Hnh Hheld Ht Ho Hmax Hb Hsl Hfs. set (end_ := off + Z.of_nat (length src)) in *.
  assert (INODE_MAX_BYTES < 2 ^ 32) as Hm by done. assert (0 <= blocks_in off end_) as Hbi.
  { unfold blocks_in. destruct (Z.ltb_spec off end_); [|done]. pose proof (Z.div_le_mono off (end_ - 1) BLOCK_SIZE ltac:(done) ltac:(lia)). lia. }
  unfold inode_write. wp_prim. eapply wp_entry_of; [done|]. rewrite (proj2 (Z.eqb_neq _ _) Ht). fold end_. rewrite (u64_small end_) by lia.
  wp_prim. apply wp_ASSERT. split; [apply Z.leb_le; lia|]. wp_prim. apply wp_ASSERT. split; [apply Z.leb_le; lia|].
  wp_prim. apply wp_ASSERT. split; [apply Z.leb_le; lia|].
  wp_prim. eapply wp_mono; [apply (wp_grow_size bm s p end_ i v); try done; lia|].
  intros u s1 (v1 & H1 & Hok1 & G1 & Hblk1 & Hsame1 & Hs1 & Hf1). set (e1 := grow_size end_ (i_entry i)) in *.
  assert (ie_num_bytes e1 = Z.max (ie_num_bytes (i_entry i)) end_) as En.
  { unfold e1, grow_size. destruct (Z.ltb_spec (ie_num_bytes (i_entry i)) end_); cbn; lia. }
  assert (forall k, 0 <= k < ie_num_bytes (i_entry i) -> file_byte e1 (cv_content v1) k = file_byte (i_entry i) (cv_content v) k) as Hfb1.
  { intros k Hk. unfold file_byte. rewrite Hblk1, Hsame1; [done|]. apply owns_blk; [apply block_of; destruct Hnh; lia|by apply Hnh]. }
  wp_prim. eapply wp_mono; [apply (wp_write_loop bm Hbm (Z.to_nat (end_ - off)) s p src off end_ (i_with_entry e1 i) v1); try done; try lia|].
  - rewrite (g_held _ _ _ _ _ G1). done.
  - change (blocks_in off end_ <= slack bm (i_no i) e1 v1). lia.
  - change (blocks_in off end_ <= fslack e1 v1). lia.
  - intros u2 s2 (e2 & v2 & H2 & Hok2 & G2 & [W1 W2 W3 W4]). wp_prim. split; [done|]. exists e2, v2.
    cbn [i_no i_entry i_with_entry] in *. split_and!; [done|done| |by eapply grows_trans|].
    + split; [destruct Hnh; lia|]. intros j Hj. destruct (decide (off <= j < end_)) as [Hin|Hout]; [by apply W2|].
      rewrite (g_blk _ _ _ _ _ G2), Hblk1; [apply Hnh; lia|apply block_of; destruct Hnh; lia|]. rewrite Hblk1. apply Hnh. lia.
    + apply (written_file_bytes src off v (i_entry i) v2 e2); try done.
      * by rewrite W1.
      * intros k Hk Hko. rewrite W4, Hfb1; [done|done|destruct Hnh; lia|rewrite Hblk1; by apply Hnh|done].
Qed.

Lemma wp_inode_read s p i v off count :
  ist s p i v s -> ino_ok v i -> no_holes (i_entry i) (cv_content v) -> cv_held v = ∅ -> ie_type (i_entry i) <> INODE_DEVICE ->
  0 <= off <= ie_num_bytes (i_entry i) -> 0 <= count -> off + count < 2 ^ 64 ->
  let n := Z.min count (ie_num_bytes (i_entry i) - off) in
  wp (inode_read bc p off count) (fun r s' =>
    r = (n, take (Z.to_nat n) (drop (Z.to_nat off) (file_bytes (i_entry i) (cv_content v)))) /\ ist s p i v s') s.
Proof.
  intros H Hok Hnh Hheld Ht Ho Hc Hw n. assert (INODE_MAX_BYTES < 2 ^ 32) as Hm by done. pose proof (proj1 Hnh) as Hmax.
  unfold inode_read. wp_prim. eapply wp_entry_of; [done|]. rewrite (proj2 (Z.eqb_neq _ _) Ht). rewrite (u64_small (count + off)) by lia.
  rewrite (u64_small (ie_num_bytes (i_entry i) - off)) by lia.
  assert ((if ie_num_bytes (i_entry i) <? count + off then ie_num_bytes (i_entry i) - off else count) = n) as ->.
  { unfold n. destruct (Z.ltb_spec (ie_num_bytes (i_entry i)) (count + off)); lia. }
  rewrite (u64_small (off + n)) by lia. wp_prim. apply wp_ASSERT. split; [apply Z.leb_le; lia|]. wp_prim. apply wp_ASSERT. split; [apply Z.leb_le; lia|].
  wp_prim. apply wp_ASSERT. split; [apply Z.leb_le; lia|].
  wp_prim. eapply wp_read_loop; [done|done|done|done|lia|lia|lia|]. intros s1 H1. wp_prim. split; [|done]. f_equal.
  rewrite slice_file_bytes by lia. do 2 f_equal. lia.
Qed.

(** ** Properties *)

(** C6: [inode_write] inside an operation.  For an inode whose blocks are its
    own, with log space and free blocks for the blocks that the range touches
    (and for the bitmap, the indirect block and the inode), it returns the
    number of bytes given; the content of the file becomes the old content with
    the given bytes at [off], extended when they reach beyond its end.  The
    blocks the file gained were free, every block in use that is not the file's
    keeps its content, and the other inodes in the inode's block keep theirs. *)
Theorem inode_write_splices bm s p i v src off :
  (forall b, 0 <= b < sb_num_blocks sb -> bc_bitmap b = bm) ->
  is_sblock s = sb -> bc_rep v (is_cache s) -> is_inodes s !! p = Some i ->
  ino_ok v i -> no_holes (i_entry i) (cv_content v) -> cv_held v = ∅ -> ie_type (i_entry i) <> INODE_DEVICE ->
  0 <= off <= ie_num_bytes (i_entry i) -> off + Z.of_nat (length src) <= INODE_MAX_BYTES -> Forall is_byte src ->
  blocks_in off (off + Z.of_nat (length src)) <= slack bm (i_no i) (i_entry i) v ->
  blocks_in off (off + Z.of_nat (length src)) <= fslack (i_entry i) v ->
  exists s' e' v', inode_write bc ctx p src off s = Ret (Z.of_nat (length src), s') /\
    is_inodes s' = <[p := i_with_entry e' i]> (is_inodes s) /\ bc_rep v' (is_cache s') /\
    ino_ok v' (i_with_entry e' i) /\ no_holes e' (cv_content v') /\ grows (i_no i) v (i_entry i) v' e' /\
    file_bytes e' (cv_content v') = splice (Z.to_nat off) src (file_bytes (i_entry i) (cv_content v)).
Proof.
  intros Hbm Hsb Hc Hi Hok Hnh Hheld Ht Ho Hmax Hb Hsl Hfs.
  destruct (wp_run _ _ _ (wp_inode_write bm s p i v src off Hbm (ist_intro s p i v Hsb Hc Hi) Hok Hnh Hheld Ht Ho Hmax Hb Hsl Hfs))
    as (r & s' & Hr & -> & e' & v' & H' & H1 & H2 & H3 & H4).
  destruct (ist_elim _ _ _ _ _ H') as (E & Hc' & _). exists s', e', v'. done.
Qed.

(** C7: [inode_read] returns the bytes of the file from [off] on, as many as
    asked for or as there are, and changes neither the inode nor any block; it
    panics when [off] is beyond the end of the file. *)
Theorem inode_read_slice s p i v off count :
  is_sblock s = sb -> bc_rep v (is_cache s) -> is_inodes s !! p = Some i ->
  ino_ok v i -> no_holes (i_entry i) (cv_content v) -> cv_held v = ∅ -> ie_type (i_entry i) <> INODE_DEVICE ->
  0 <= off -> 0 <= count -> off + count < 2 ^ 64 ->
  if off <=? ie_num_bytes (i_entry i) then
    let n := Z.min count (ie_num_bytes (i_entry i) - off) in
    exists s', inode_read bc p off count s =
        Ret ((n, take (Z.to_nat n) (drop (Z.to_nat off) (file_bytes (i_entry i) (cv_content v)))), s') /\
      is_inodes s' = is_inodes s /\ bc_rep v (is_cache s')
  else inode_read bc p off count s = Panic.
Proof.
  intros Hsb Hc Hi Hok Hnh Hheld Ht Ho Hct Hw. pose proof (ist_intro s p i v Hsb Hc Hi) as H.
  destruct (Z.leb_spec off (ie_num_bytes (i_entry i))) as [Hle|Hgt].
  - destruct (wp_run _ _ _ (wp_inode_read s p i v off count H Hok Hnh Hheld Ht ltac:(lia) Hct Hw)) as (r & s' & Hr & -> & H').
    destruct (ist_elim _ _ _ _ _ H') as (E & Hc' & _). exists s'. rewrite E, insert_id by done. done.
  - unfold inode_read, entry_of. rewrite (bind_ret _ _ s (i_entry i) s).
    2: { by rewrite (bind_ret _ _ _ _ _ (ist_load _ _ _ _ _ H)). }
    rewrite (proj2 (Z.eqb_neq _ _) Ht). unfold mbind, M_bind, ASSERT. by rewrite (proj2 (Z.leb_gt off (ie_num_bytes (i_entry i)))).
Qed.
End inode_proofs.
