(* ===== verification/Cache.v ===== *)
(** * The block cache and its log: [fs/cache.c], [fs/cache.h]

    One definition per function of [cache.c].  A call runs to its end; when the
    C code would sleep on a semaphore or spin on a lock that nobody releases
    meanwhile, the outcome is [Block].  The calls of several threads interleave
    as sequences of calls on the shared state, each with its own [OpContext].

    [head], the list of cached blocks, is the sequence of the pointers to its
    [Block]s from [head.next] on: file [Lists] shows that the pointer code
    implements the sequence operations used here.  The device is a function
    from block numbers to contents; [c_writes] is the history of the writes it
    received, the newest first, so that every crash point of a call is the
    device after a prefix of its writes. *)

From Stdlib Require Import ZArith Lia.
From stdpp Require Import base tactics numbers gmap list.
From S2P Require Import Prelude FsDefs.

Local Open Scope Z_scope.

(** ** State *)

Definition EVICTION_THRESHOLD : Z := 20.

(** [Block]; [lock] is the value of its sleep lock, 1 when free. *)
Record Block : Type := mkBlock {
  block_no : Z;
  acquired : bool;
  pinned : bool;
  lock : Z;
  valid : bool;
  data : list Z }.

(** The static variables of [cache.c], the [Block]s in memory ([c_blk], by
    address), the contexts of the running operations ([c_ctx], the field [rm]
    by address) and the device. *)
Record bcache_state : Type := mkBcache {
  c_sblock : SuperBlock;
  c_disk : Z -> list Z;
  c_writes : list (Z * list Z);
  c_lock : bool;
  c_bitmap_lock : bool;
  c_blk : gmap Z Block;
  c_head : list Z;
  c_block_num : Z;
  c_header : LogHeader;
  c_log_lock : bool;
  c_log_sem : Z;
  c_iscommit : bool;
  c_outstanding : Z;
  c_ctx : gmap Z Z }.

Abbreviation BM := (M bcache_state).

(** Field updates of the state. *)
Definition set_device (d : Z -> list Z) (w : list (Z * list Z)) (s : bcache_state) : bcache_state :=
  mkBcache (c_sblock s) d w (c_lock s) (c_bitmap_lock s) (c_blk s) (c_head s) (c_block_num s)
    (c_header s) (c_log_lock s) (c_log_sem s) (c_iscommit s) (c_outstanding s) (c_ctx s).
Definition set_lock (b : bool) (s : bcache_state) : bcache_state :=
  mkBcache (c_sblock s) (c_disk s) (c_writes s) b (c_bitmap_lock s) (c_blk s) (c_head s) (c_block_num s)
    (c_header s) (c_log_lock s) (c_log_sem s) (c_iscommit s) (c_outstanding s) (c_ctx s).
Definition set_bitmap_lock (b : bool) (s : bcache_state) : bcache_state :=
  mkBcache (c_sblock s) (c_disk s) (c_writes s) (c_lock s) b (c_blk s) (c_head s) (c_block_num s)
    (c_header s) (c_log_lock s) (c_log_sem s) (c_iscommit s) (c_outstanding s) (c_ctx s).
Definition set_blk (m : gmap Z Block) (s : bcache_state) : bcache_state :=
  mkBcache (c_sblock s) (c_disk s) (c_writes s) (c_lock s) (c_bitmap_lock s) m (c_head s) (c_block_num s)
    (c_header s) (c_log_lock s) (c_log_sem s) (c_iscommit s) (c_outstanding s) (c_ctx s).
Definition set_head (l : list Z) (s : bcache_state) : bcache_state :=
  mkBcache (c_sblock s) (c_disk s) (c_writes s) (c_lock s) (c_bitmap_lock s) (c_blk s) l (c_block_num s)
    (c_header s) (c_log_lock s) (c_log_sem s) (c_iscommit s) (c_outstanding s) (c_ctx s).
Definition set_block_num (n : Z) (s : bcache_state) : bcache_state :=
  mkBcache (c_sblock s) (c_disk s) (c_writes s) (c_lock s) (c_bitmap_lock s) (c_blk s) (c_head s) n
    (c_header s) (c_log_lock s) (c_log_sem s) (c_iscommit s) (c_outstanding s) (c_ctx s).
Definition set_header (h : LogHeader) (s : bcache_state) : bcache_state :=
  mkBcache (c_sblock s) (c_disk s) (c_writes s) (c_lock s) (c_bitmap_lock s) (c_blk s) (c_head s)
    (c_block_num s) h (c_log_lock s) (c_log_sem s) (c_iscommit s) (c_outstanding s) (c_ctx s).
Definition set_log (lk : bool) (sem : Z) (ic : bool) (out : Z) (s : bcache_state) : bcache_state :=
  mkBcache (c_sblock s) (c_disk s) (c_writes s) (c_lock s) (c_bitmap_lock s) (c_blk s) (c_head s)
    (c_block_num s) (c_header s) lk sem ic out (c_ctx s).
Definition set_ctx (m : gmap Z Z) (s : bcache_state) : bcache_state :=
  mkBcache (c_sblock s) (c_disk s) (c_writes s) (c_lock s) (c_bitmap_lock s) (c_blk s) (c_head s)
    (c_block_num s) (c_header s) (c_log_lock s) (c_log_sem s) (c_iscommit s) (c_outstanding s) m.

(** ** Locks, pointers and the device *)

(** [acquire_spinlock(&lock)] and [release_spinlock(&lock)] on the three spin
    locks of the file. *)
Definition acquire_lock : BM unit :=
  b ← gets c_lock; if (b : bool) then block else modify (set_lock true).
Definition release_lock : BM unit := modify (set_lock false).
Definition acquire_bitmap_lock : BM unit :=
  b ← gets c_bitmap_lock; if (b : bool) then block else modify (set_bitmap_lock true).
Definition release_bitmap_lock : BM unit := modify (set_bitmap_lock false).
Definition acquire_log_lock : BM unit :=
  b ← gets c_log_lock;
  if (b : bool) then block
  else modify (fun s => set_log true (c_log_sem s) (c_iscommit s) (c_outstanding s) s).
Definition release_log_lock : BM unit :=
  modify (fun s => set_log false (c_log_sem s) (c_iscommit s) (c_outstanding s) s).

Definition load_blk (p : Z) : BM Block := fun s => some_or_ub (c_blk s !! p) s.
Definition store_blk (p : Z) (b : Block) : BM unit :=
  modify (fun s => set_blk (<[p := b]> (c_blk s)) s).

Definition upd_disk (b : Z) (d : list Z) (dk : Z -> list Z) : Z -> list Z :=
  fun n => if n =? b then d else dk n.

(** [device->write(block_no, buffer)]. *)
Definition dev_write (b : Z) (d : list Z) : BM unit :=
  modify (fun s => set_device (upd_disk b d (c_disk s)) ((b, d) :: c_writes s) s).

(** [device_read], [device_write]. *)
Definition device_read (p : Z) : BM unit :=
  b ← load_blk p;
  d ← gets (fun s => c_disk s (block_no b));
  store_blk p (mkBlock (block_no b) (acquired b) (pinned b) (lock b) (valid b) d).
Definition device_write (p : Z) : BM unit :=
  b ← load_blk p; dev_write (block_no b) (data b).

(** [read_header], [write_header]. *)
Definition read_header : BM unit :=
  modify (fun s => set_header (header_of_bytes (c_disk s (sb_log_start (c_sblock s)))) s).
Definition write_header : BM unit :=
  s ← gets id; dev_write (sb_log_start (c_sblock s)) (header_bytes (c_header s)).

(** [kalloc(sizeof(Block))]: an address that is not NULL and not in use. *)
Definition kalloc_block : BM Z := gets (fun s => fresh ({[0]} ∪ dom (c_blk s) : gset Z)).

Definition init_block (p : Z) : BM unit :=
  store_blk p (mkBlock 0 false false 1 false (replicate (Z.to_nat BLOCK_SIZE) 0)).

(** [wait_sem(&blk->lock)] and [post_sem(&blk->lock)] with nobody else running. *)
Definition wait_blk_lock (p : Z) : BM unit :=
  b ← load_blk p;
  if lock b <=? 0 then block
  else store_blk p (mkBlock (block_no b) (acquired b) (pinned b) (lock b - 1) (valid b) (data b)).
Definition post_blk_lock (p : Z) : BM unit :=
  b ← load_blk p;
  store_blk p (mkBlock (block_no b) (acquired b) (pinned b) (lock b + 1) (valid b) (data b)).

Definition set_acquired (p : Z) (v : bool) : BM unit :=
  b ← load_blk p; store_blk p (mkBlock (block_no b) v (pinned b) (lock b) (valid b) (data b)).
Definition set_pinned (p : Z) (v : bool) : BM unit :=
  b ← load_blk p; store_blk p (mkBlock (block_no b) (acquired b) v (lock b) (valid b) (data b)).

(** A client's stores into [block->data]. *)
Definition set_data (p : Z) (d : list Z) : BM unit :=
  b ← load_blk p; store_blk p (mkBlock (block_no b) (acquired b) (pinned b) (lock b) (valid b) d).

(** [_insert_into_list(&head, &blk->node)] and [_detach_from_list(&blk->node)]. *)
Definition insert_head (p : Z) : BM unit := modify (fun s => set_head (p :: c_head s) s).
Definition detach_head (p : Z) : BM unit :=
  modify (fun s => set_head (filter (fun q => q <> p) (c_head s)) s).

(** ** Acquire and release *)

Definition get_num_cached_blocks : BM Z := gets c_block_num.

(** The search loop of [cache_acquire]. *)
Fixpoint find_block (l : list Z) (bno : Z) : BM (option Z) :=
  match l with
  | [] => mret None
  | p :: l' =>
      b ← load_blk p;
      if block_no b =? bno then mret (Some p) else find_block l' bno
  end.

(** The eviction loop of [cache_acquire]; [l] is the rest of the list from the
    current node towards [head]. *)
Fixpoint evict (l : list Z) : BM unit :=
  match l with
  | [] => mret tt
  | p :: l' =>
      n ← gets c_block_num;
      if n <? EVICTION_THRESHOLD then mret tt else
      b ← load_blk p;
      (if negb (acquired b) && negb (pinned b) then
         modify (set_block_num (u64 (n - 1)));;
         detach_head p;;
         modify (fun s => set_blk (delete p (c_blk s)) s)
       else mret tt);;
      evict l'
  end.

(** [cache_acquire] when the block is in the cache. *)
Definition acquire_hit (p : Z) : BM Z :=
  set_acquired p true;;
  release_lock;;
  wait_blk_lock p;;
  acquire_lock;;
  detach_head p;;
  insert_head p;;
  release_lock;;
  mret p.

(** [cache_acquire] when the block is not in the cache; [l] is the list. *)
Definition acquire_miss (l : list Z) (bno : Z) : BM Z :=
  n ← gets c_block_num;
  (if EVICTION_THRESHOLD <=? n then evict (reverse l) else mret tt);;
  p ← kalloc_block;
  init_block p;;
  wait_blk_lock p;;
  modify (fun s => set_block_num (u64 (c_block_num s + 1)) s);;
  set_acquired p true;;
  (b ← load_blk p;
   store_blk p (mkBlock bno (acquired b) (pinned b) (lock b) true (data b)));;
  release_lock;;
  device_read p;;
  acquire_lock;;
  insert_head p;;
  release_lock;;
  mret p.

Definition cache_acquire (bno : Z) : BM Z :=
  acquire_lock;;
  l ← gets c_head;
  blk ← find_block l bno;
  match blk with
  | Some p => acquire_hit p
  | None => acquire_miss l bno
  end.

Definition cache_release (p : Z) : BM unit :=
  acquire_lock;;
  set_acquired p false;;
  post_blk_lock p;;
  release_lock.

(** ** The log *)

(** The entries [header.block_no[0 .. header.num_blocks - 1]]. *)
Definition header_entries : BM (list Z) :=
  h ← gets c_header;
  if Z.of_nat (length (hd_block_no h)) <? hd_num_blocks h then ub
  else mret (take (Z.to_nat (hd_num_blocks h)) (hd_block_no h)).

(** The condition under which [cache_begin_op] sleeps, in [usize] arithmetic. *)
Definition log_full (s : bcache_state) : bool :=
  LOG_MAX_SIZE <? u64 (hd_num_blocks (c_header s) + u64 (u64 (c_outstanding s + 1) * OP_MAX_NUM_BLOCKS)).

(** The waiting loop of [cache_begin_op].  Each turn takes one unit of
    [log.sem]; [n] is the number of turns after which none is left. *)
Fixpoint begin_wait (n : nat) : BM unit :=
  match n with
  | O => block
  | S n' =>
      s ← gets id;
      if c_iscommit s || log_full s then
        release_log_lock;;
        (if c_log_sem s <=? 0 then block
         else modify (fun s => set_log (c_log_lock s) (c_log_sem s - 1) (c_iscommit s) (c_outstanding s) s));;
        acquire_log_lock;;
        begin_wait n'
      else mret tt
  end.

Definition cache_begin_op (ctx : Z) : BM unit :=
  acquire_log_lock;;
  (if ctx =? 0 then ub else modify (fun s => set_ctx (<[ctx := 0]> (c_ctx s)) s));;
  s ← gets id;
  begin_wait (S (Z.to_nat (c_log_sem s)));;
  modify (fun s => set_log (c_log_lock s) (c_log_sem s) (c_iscommit s) (u64 (c_outstanding s + 1)) s);;
  release_log_lock.

Definition cache_sync (ctx : Z) (p : Z) : BM unit :=
  if ctx =? 0 then device_write p else
  acquire_log_lock;;
  set_pinned p true;;
  b ← load_blk p;
  es ← header_entries;
  if bool_decide (block_no b ∈ es) then release_log_lock else
  s ← gets id;
  rm ← some_or_ub (c_ctx s !! ctx);
  let h := c_header s in
  if (OP_MAX_NUM_BLOCKS <=? rm) || (LOG_MAX_SIZE <=? hd_num_blocks h) then panic else
  modify (set_header (mkLogHeader (u64 (hd_num_blocks h + 1))
                        (<[Z.to_nat (hd_num_blocks h) := block_no b]> (hd_block_no h))));;
  modify (set_ctx (<[ctx := rm + 1]> (c_ctx s)));;
  release_log_lock.

(** The body shared by the commit and the replay loops: the content of block
    [src] is copied to block [dst], which is written to the device. *)
Definition copy_block (src dst : Z) : BM unit :=
  from ← cache_acquire src;
  to ← cache_acquire dst;
  f ← load_blk from;
  set_data to (data f);;
  cache_sync 0 to;;
  cache_release from;;
  cache_release to.

(** [sblock->log_start + 1 + i]: a [u32] sum, then a [usize] one. *)
Definition log_block (sb : SuperBlock) (i : Z) : Z := u64 (u32 (sb_log_start sb + 1) + i).

(** One turn of the loop that copies a logged block to its log block. *)
Definition log_one (i : Z) (bno : Z) : BM unit :=
  release_log_lock;;
  sb ← gets c_sblock;
  copy_block bno (log_block sb i);;
  acquire_log_lock.

(** One turn of the loop that writes a logged block to its home. *)
Definition install_one (bno : Z) : BM unit :=
  curr ← cache_acquire bno;
  cache_sync 0 curr;;
  set_pinned curr false;;
  cache_release curr.

(** [post_all_sem(&log.sem)] with no sleeper: [_post_sem] increments the value,
    and asserts that there is a sleeper when the result is not positive; then
    [_get_sem] takes the unit back and the loop ends. *)
Definition post_all_log_sem : BM unit :=
  s ← gets id;
  ASSERT (negb (c_log_sem s + 1 <=? 0));;
  modify (fun s => set_log (c_log_lock s) (c_log_sem s + 1 - 1) (c_iscommit s) (c_outstanding s) s).

Definition cache_end_op (ctx : Z) : BM unit :=
  acquire_log_lock;;
  s ← gets id;
  if c_iscommit s then panic else
  modify (fun s => set_log (c_log_lock s) (c_log_sem s) (c_iscommit s) (u64 (c_outstanding s - 1)) s);;
  s ← gets id;
  if 0 <? c_outstanding s then
    modify (fun s => set_log (c_log_lock s) (c_log_sem s + 1) (c_iscommit s) (c_outstanding s) s);;
    release_log_lock
  else
  modify (fun s => set_log (c_log_lock s) (c_log_sem s) true (c_outstanding s) s);;
  es ← header_entries;
  for_each (imap (fun i b => (Z.of_nat i, b)) es) (fun e => log_one (fst e) (snd e));;
  release_log_lock;;
  write_header;;
  acquire_log_lock;;
  es ← header_entries;
  for_each es install_one;;
  modify (fun s => set_header (mkLogHeader 0 (hd_block_no (c_header s))) s);;
  release_log_lock;;
  write_header;;
  acquire_log_lock;;
  modify (fun s => set_log (c_log_lock s) (c_log_sem s) false (c_outstanding s) s);;
  post_all_log_sem;;
  release_log_lock.

(** ** Recovery *)

(** One turn of the replay loop of [init_bcache]. *)
Definition replay_one (i : Z) (bno : Z) : BM unit :=
  sb ← gets c_sblock;
  copy_block (log_block sb i) bno.

(** [memset(header.block_no, 0, LOG_MAX_SIZE)] clears that many bytes. *)
Definition memset_block_no (l : list Z) : list Z :=
  bytes_u64s (length l) (splice 0 (replicate (Z.to_nat LOG_MAX_SIZE) 0) (u64s_bytes l)).

(** The state of the file when [init_bcache] is entered at boot. *)
Definition boot_state (sb : SuperBlock) (dk : Z -> list Z) (w : list (Z * list Z)) : bcache_state :=
  mkBcache sb dk w false false ∅ [] 0 (mkLogHeader 0 []) false 0 false 0 ∅.

Definition init_bcache (sb : SuperBlock) : BM unit :=
  modify (fun s => mkBcache sb (c_disk s) (c_writes s) false false (c_blk s) [] 0
                     (mkLogHeader 0 (hd_block_no (c_header s))) false 0 false 0 (c_ctx s));;
  read_header;;
  es ← header_entries;
  for_each (imap (fun i b => (Z.of_nat i, b)) es) (fun e => replay_one (fst e) (snd e));;
  modify (fun s => set_header (mkLogHeader 0 (memset_block_no (hd_block_no (c_header s)))) s);;
  write_header.

(** ** The bitmap *)

(** The loop over [map_bit]: the first clear bit of [temp], if any, that belongs
    to a block number below [nb]. *)
Fixpoint scan_bits (n : nat) (temp base nb map_bit : Z) : option Z :=
  match n with
  | O => None
  | S n' =>
      if base + map_bit <? nb then
        if Z.land temp (Z.shiftl 1 map_bit) =? 0 then Some map_bit
        else scan_bits n' temp base nb (map_bit + 1)
      else None
  end.

(** The loop over [map_byte]. *)
Fixpoint scan_bytes (bytes : list Z) (block_start nb map_byte : Z) : option (Z * Z) :=
  match bytes with
  | [] => None
  | temp :: bytes' =>
      if block_start + map_byte * 8 <? nb then
        match scan_bits 8 temp (block_start + map_byte * 8) nb 0 with
        | Some map_bit => Some (map_byte, map_bit)
        | None => scan_bytes bytes' block_start nb (map_byte + 1)
        end
      else None
  end.

(** [p->data[i] = f(p->data[i])], in [u8]. *)
Definition upd_byte (p : Z) (i : Z) (f : Z -> Z) : BM unit :=
  b ← load_blk p;
  x ← some_or_ub (data b !! Z.to_nat i);
  set_data p (<[Z.to_nat i := u8 (f x)]> (data b)).

(** The bitmap block of a block number. *)
Definition bitmap_block (sb : SuperBlock) (bno : Z) : Z :=
  u64 (sb_bitmap_start sb + bno / BIT_PER_BLOCK).

Fixpoint alloc_loop (n : nat) (ctx block_start : Z) : BM Z :=
  match n with
  | O => release_bitmap_lock;; panic
  | S n' =>
      sb ← gets c_sblock;
      if block_start <? sb_num_blocks sb then
        map_blk ← cache_acquire (bitmap_block sb block_start);
        b ← load_blk map_blk;
        match scan_bytes (data b) block_start (sb_num_blocks sb) 0 with
        | Some (map_byte, map_bit) =>
            upd_byte map_blk map_byte (fun x => x + Z.shiftl 1 map_bit);;
            cache_sync ctx map_blk;;
            cache_release map_blk;;
            blk ← cache_acquire (block_start + map_byte * 8 + map_bit);
            set_data blk (replicate (Z.to_nat BLOCK_SIZE) 0);;
            cache_sync ctx blk;;
            cache_release blk;;
            release_bitmap_lock;;
            mret (block_start + map_byte * 8 + map_bit)
        | None =>
            cache_release map_blk;;
            alloc_loop n' ctx (block_start + BIT_PER_BLOCK)
        end
      else release_bitmap_lock;; panic
  end.

(** [cache_alloc]: [num_blocks / BIT_PER_BLOCK + 1] turns visit every bitmap block. *)
Definition cache_alloc (ctx : Z) : BM Z :=
  acquire_bitmap_lock;;
  sb ← gets c_sblock;
  alloc_loop (S (Z.to_nat (sb_num_blocks sb / BIT_PER_BLOCK + 1))) ctx 0.

Definition cache_free (ctx : Z) (bno : Z) : BM unit :=
  acquire_bitmap_lock;;
  sb ← gets c_sblock;
  map_blk ← cache_acquire (bitmap_block sb bno);
  let map_byte := (bno mod BIT_PER_BLOCK) / 8 in
  let map_bit := (bno mod BIT_PER_BLOCK) mod 8 in
  upd_byte map_blk map_byte (fun x => x - Z.shiftl 1 map_bit);;
  cache_sync ctx map_blk;;
  cache_release map_blk;;
  release_bitmap_lock.
