(* ===== verification/CacheProofs.v ===== *)
(** * Correctness of the block cache

    The invariant of the cache, its preservation by every operation, and the
    effect of each operation on the contents a client sees. *)

From Stdlib Require Import ZArith Lia.
From stdpp Require Import base tactics numbers gmap list.
From S2P Require Import Prelude FsDefs Cache.

Local Open Scope Z_scope.


(** ** The invariant *)

(** [B] is the block at address [p], and it is on the list of cached blocks. *)
Definition inlist (hd : list Z) (m : gmap Z Block) (p : Z) (B : Block) : Prop :=
  p ∈ hd /\ m !! p = Some B.

(** No cached block has number [b]. *)
Definition absent (hd : list Z) (m : gmap Z Block) (b : Z) : Prop :=
  forall p B, inlist hd m p B -> block_no B <> b.

(** A block that nobody holds: its lock is free and, unless it is pinned by the
    log, its content is that of the device. *)
Definition block_ok (d : Z -> list Z) (B : Block) : Prop :=
  lock B = (if acquired B then 0 else 1) /\
  (acquired B = false -> pinned B = false -> data B = d (block_no B)).

Record core_wf (hd : list Z) (m : gmap Z Block) (n : Z) (d : Z -> list Z) : Prop := {
  wf_nodup : NoDup hd;
  wf_alloc : forall p, p ∈ hd -> is_Some (m !! p);
  wf_uniq : forall p q B C, inlist hd m p B -> inlist hd m q C -> block_no B = block_no C -> p = q;
  wf_num : n = u64 (Z.of_nat (length hd));
  wf_ok : forall p B, inlist hd m p B -> block_ok d B }.

Definition cache_wf (s : bcache_state) : Prop :=
  core_wf (c_head s) (c_blk s) (c_block_num s) (c_disk s).

Abbreviation mem s p B := (inlist (c_head s) (c_blk s) p B).
Abbreviation uncached s b := (absent (c_head s) (c_blk s) b).

(** The content of block [b] for the clients of the cache. *)
Fixpoint find_no (hd : list Z) (m : gmap Z Block) (b : Z) : option Block :=
  match hd with
  | [] => None
  | p :: hd' =>
      match m !! p with
      | Some B => if block_no B =? b then Some B else find_no hd' m b
      | None => find_no hd' m b
      end
  end.

Definition view (s : bcache_state) (b : Z) : list Z :=
  match find_no (c_head s) (c_blk s) b with
  | Some B => data B
  | None => c_disk s b
  end.

(** What no operation on blocks touches. *)
Definition same_rest (s s' : bcache_state) : Prop :=
  c_sblock s' = c_sblock s /\ c_bitmap_lock s' = c_bitmap_lock s /\ c_lock s' = c_lock s /\
  c_header s' = c_header s /\ c_log_lock s' = c_log_lock s /\ c_log_sem s' = c_log_sem s /\
  c_iscommit s' = c_iscommit s /\ c_outstanding s' = c_outstanding s /\ c_ctx s' = c_ctx s.

Definition same_dev (s s' : bcache_state) : Prop :=
  c_disk s' = c_disk s /\ c_writes s' = c_writes s.

(** Blocks other than number [b] are the same, or dropped because nobody holds
    them and the log does not pin them. *)
Definition others_kept (b : Z) (s s' : bcache_state) : Prop :=
  (forall q B, mem s' q B -> block_no B <> b -> mem s q B) /\
  (forall q B, mem s q B -> block_no B <> b ->
     mem s' q B \/ (acquired B = false /\ pinned B = false /\ uncached s' (block_no B))).

(** ** Lemmas on the list of blocks *)

Lemma find_no_Some hd m b B : find_no hd m b = Some B -> exists p, inlist hd m p B /\ block_no B = b.
Proof.
  unfold inlist. induction hd as [|p l IH]; cbn; [done|].
  destruct (m !! p) as [C|] eqn:E; [destruct (Z.eqb_spec (block_no C) b)|]; intros H; simplify_eq.
  - exists p. set_solver.
  - destruct (IH H) as (q & [? ?] & ?). exists q. set_solver.
  - destruct (IH H) as (q & [? ?] & ?). exists q. set_solver.
Qed.

Lemma find_no_None hd m b : find_no hd m b = None -> absent hd m b.
Proof.
  unfold absent, inlist. induction hd as [|p l IH]; cbn; [set_solver|].
  intros H q C [Hq Hm]. apply elem_of_cons in Hq as [->|Hq].
  - rewrite Hm in H. by destruct (Z.eqb_spec (block_no C) b).
  - destruct (m !! p) as [C'|]; [destruct (Z.eqb_spec (block_no C') b); [done|]|]; by apply (IH H q).
Qed.

Lemma inlist_insert hd m p B B' q C :
  inlist hd m p B -> inlist hd (<[p := B']> m) q C <-> (q = p /\ C = B') \/ (q <> p /\ inlist hd m q C).
Proof.
  intros [Hp Hm]. unfold inlist. rewrite lookup_insert. case_decide; subst; naive_solver.
Qed.

Lemma inlist_drop hd m p q C :
  inlist (filter (fun r => r <> p) hd) (delete p m) q C <-> q <> p /\ inlist hd m q C.
Proof.
  unfold inlist. rewrite list_elem_of_filter, lookup_delete. case_decide; naive_solver.
Qed.

Section core.
Context (hd : list Z) (m : gmap Z Block) (n : Z) (d : Z -> list Z).
Hypothesis W : core_wf hd m n d.

Lemma find_no_mem p B : inlist hd m p B -> find_no hd m (block_no B) = Some B.
Proof.
  intros Hp. destruct (find_no hd m (block_no B)) as [C|] eqn:E.
  - apply find_no_Some in E as (q & Hq & Hb).
    pose proof (wf_uniq _ _ _ _ W _ _ _ _ Hp Hq (eq_sym Hb)) as ->.
    destruct Hp as [_ Hp], Hq as [_ Hq]. congruence.
  - by apply find_no_None in E as ?%(fun f => f p B Hp).
Qed.

(** Updating a cached block in place. *)
Lemma core_update p B B' :
  inlist hd m p B -> block_no B' = block_no B -> block_ok d B' ->
  core_wf hd (<[p := B']> m) n d.
Proof.
  intros Hp Hno Hok. destruct W as [w1 w2 w3 w4 w5]. split; try done.
  - intros q Hq. rewrite lookup_insert. case_decide; eauto.
  - intros q r C D HC HD Heq. rewrite (inlist_insert hd m p B) in HC, HD by done.
    destruct HC as [[-> ->]|[? HC]], HD as [[-> ->]|[? HD]]; [done| | |by eapply w3].
    + eapply w3; [exact Hp|exact HD|congruence].
    + eapply w3; [exact HC|exact Hp|congruence].
  - intros q C HC. rewrite (inlist_insert hd m p B) in HC by done. destruct HC as [[-> ->]|[_ HC]]; eauto.
Qed.

(** Moving a cached block to the front of the list. *)
Lemma core_front p :
  p ∈ hd -> core_wf (p :: filter (fun r => r <> p) hd) m n d.
Proof.
  intros Hp. destruct W as [w1 w2 w3 w4 w5]. pose proof (front_perm hd p w1 Hp) as Hperm.
  split.
  - by rewrite Hperm.
  - intros q Hq. apply w2. by rewrite <-Hperm.
  - intros q r C D [Hq HC] [Hr HD]. rewrite Hperm in Hq, Hr. by apply w3.
  - by rewrite Hperm.
  - intros q C [Hq HC]. rewrite Hperm in Hq. by apply (w5 q).
Qed.

(** Dropping a block. *)
Lemma core_drop p :
  p ∈ hd -> core_wf (filter (fun r => r <> p) hd) (delete p m) (u64 (n - 1)) d.
Proof.
  intros Hp. destruct W as [w1 w2 w3 w4 w5]. pose proof (front_perm hd p w1 Hp) as Hperm.
  assert (forall q C, inlist (filter (fun r => r <> p) hd) (delete p m) q C -> inlist hd m q C) as Hin.
  { intros q C [Hq HC]. apply list_elem_of_filter in Hq as [? ?].
    rewrite lookup_delete_ne in HC by done. done. }
  split.
  - by apply NoDup_filter.
  - intros q [? ?]%list_elem_of_filter. rewrite lookup_delete_ne by done. by apply w2.
  - intros q r C D HC HD. apply w3; by apply Hin.
  - rewrite w4. apply Permutation_length in Hperm. cbn [length] in Hperm.
    unfold u64. rewrite Zminus_mod_idemp_l. f_equal. lia.
  - intros q C HC. eapply w5. by apply Hin.
Qed.

(** Adding a block. *)
Lemma core_add p B :
  m !! p = None -> absent hd m (block_no B) -> block_ok d B ->
  core_wf (p :: hd) (<[p := B]> m) (u64 (n + 1)) d.
Proof.
  intros Hp Hab Hok. destruct W as [w1 w2 w3 w4 w5].
  assert (p ∉ hd) as Hpn by (intros Hin; destruct (w2 p Hin); congruence).
  assert (forall q C, inlist (p :: hd) (<[p := B]> m) q C -> (q = p /\ C = B) \/ (q <> p /\ inlist hd m q C)) as Hin.
  { intros q C [Hq HC]. rewrite lookup_insert in HC. unfold inlist.
    apply elem_of_cons in Hq. case_decide; naive_solver. }
  split.
  - by apply NoDup_cons.
  - intros q Hq. rewrite lookup_insert. case_decide; [eauto|]. apply w2. set_solver.
  - intros q r C D HC HD Heq.
    destruct (Hin _ _ HC) as [[-> ->]|[? HC']], (Hin _ _ HD) as [[-> ->]|[? HD']]; [done| | |by eapply w3].
    + by destruct (Hab _ _ HD').
    + by destruct (Hab _ _ HC').
  - rewrite w4. cbn [length]. unfold u64. rewrite Zplus_mod_idemp_l. f_equal. lia.
  - intros q C HC. destruct (Hin _ _ HC) as [[-> ->]|[? HC']]; eauto.
Qed.

Lemma inlist_add p B q C :
  m !! p = None -> inlist (p :: hd) (<[p := B]> m) q C <-> (q = p /\ C = B) \/ (q <> p /\ inlist hd m q C).
Proof.
  intros Hp. destruct W as [w1 w2 w3 w4 w5]. unfold inlist. rewrite elem_of_cons, lookup_insert.
  case_decide; naive_solver.
Qed.

(** Writing the content of a held block to the device. *)
Lemma core_disk p B :
  inlist hd m p B -> acquired B = true -> core_wf hd m n (upd_disk (block_no B) (data B) d).
Proof.
  intros Hp Hacq. destruct W as [w1 w2 w3 w4 w5]. split; try done.
  intros q C HC. destruct (w5 q C HC) as [Hl Hc]. split; [done|]. intros Ha Hpin.
  unfold upd_disk. destruct (Z.eqb_spec (block_no C) (block_no B)) as [E|E]; [|by apply Hc].
  pose proof (w3 _ _ _ _ HC Hp E) as ->. destruct HC as [_ HC], Hp as [_ Hp]. congruence.
Qed.
End core.

(** ** The client's view *)

(** Is block [b] pinned by the log, held by a client? *)
Definition is_pinned (s : bcache_state) (b : Z) : bool :=
  match find_no (c_head s) (c_blk s) b with Some B => pinned B | None => false end.
Definition is_held (s : bcache_state) (b : Z) : bool :=
  match find_no (c_head s) (c_blk s) b with Some B => acquired B | None => false end.

(** The client holds block [b], at address [p], with content [x]. *)
Definition holds (s : bcache_state) (p b : Z) (pin : bool) (x : list Z) : Prop :=
  exists B, mem s p B /\ block_no B = b /\ acquired B = true /\ pinned B = pin /\ data B = x.

Lemma find_no_absent hd m b : absent hd m b -> find_no hd m b = None.
Proof.
  intros H. destruct (find_no hd m b) as [B|] eqn:E; [|done].
  apply find_no_Some in E as (p & Hp & Hb). by destruct (H p B Hp).
Qed.

(** Two states that show the same block number [b]. *)
Lemma find_no_same s s' b :
  cache_wf s -> cache_wf s' ->
  (forall q B, mem s' q B -> block_no B = b -> mem s q B) ->
  (forall q B, mem s q B -> block_no B = b -> mem s' q B) ->
  find_no (c_head s') (c_blk s') b = find_no (c_head s) (c_blk s) b.
Proof.
  intros W W' H1 H2. destruct (find_no (c_head s) (c_blk s) b) as [B|] eqn:E.
  - apply find_no_Some in E as (p & Hp & <-). eapply find_no_mem; [exact W'|by apply H2].
  - apply find_no_absent. intros q C HC Hb. apply find_no_None in E. by apply (E q C); [apply H1|].
Qed.

Lemma find_no_kept s s' b b' :
  cache_wf s -> cache_wf s' -> others_kept b s s' -> b' <> b ->
  find_no (c_head s') (c_blk s') b' = find_no (c_head s) (c_blk s) b' \/
  (exists B, find_no (c_head s) (c_blk s) b' = Some B /\ find_no (c_head s') (c_blk s') b' = None /\
             acquired B = false /\ pinned B = false /\ data B = c_disk s b').
Proof.
  intros W W' [K1 K2] Hne. destruct (find_no (c_head s) (c_blk s) b') as [B|] eqn:E.
  - apply find_no_Some in E as (p & Hp & Hb). destruct (K2 p B Hp) as [Hk|(Ha & Hpin & Hun)]; [congruence| |].
    + left. rewrite <-Hb. by eapply find_no_mem.
    + right. exists B. split_and!; [done| |done|done|].
      * apply find_no_absent. by rewrite <-Hb.
      * rewrite <-Hb. by apply (wf_ok _ _ _ _ W p B Hp).
  - left. apply find_no_absent. intros q C HC Hb. apply find_no_None in E.
    apply (E q C); [|done]. apply K1; [done|congruence].
Qed.

Lemma view_kept s s' b b' :
  cache_wf s -> cache_wf s' -> others_kept b s s' -> b' <> b -> c_disk s' b' = c_disk s b' ->
  view s' b' = view s b' /\ is_pinned s' b' = is_pinned s b' /\ is_held s' b' = is_held s b'.
Proof.
  intros W W' K Hne Hd. unfold view, is_pinned, is_held.
  destruct (find_no_kept s s' b b' W W' K Hne) as [->|(B & -> & -> & -> & -> & ->)].
  - by rewrite Hd.
  - done.
Qed.

Lemma view_mem s p B : cache_wf s -> mem s p B ->
  view s (block_no B) = data B /\ is_pinned s (block_no B) = pinned B /\ is_held s (block_no B) = acquired B.
Proof. intros W Hp. unfold view, is_pinned, is_held. by rewrite (find_no_mem _ _ _ _ W p B Hp). Qed.

Lemma holds_view s p b pin x : cache_wf s -> holds s p b pin x ->
  view s b = x /\ is_pinned s b = pin /\ is_held s b = true.
Proof.
  intros W (B & Hp & <- & <- & <- & <-). by apply (view_mem s p B).
Qed.

Lemma holds_kept s s' b p b' pin x :
  others_kept b s s' -> b' <> b -> holds s p b' pin x -> holds s' p b' pin x.
Proof.
  intros [_ K] Hne (B & Hp & Hb & Ha & Hpin & Hd).
  destruct (K p B Hp) as [Hk|(Ha' & _)]; [congruence| |congruence]. exists B. done.
Qed.

(** ** Primitives *)

Lemma wp_load_blk p B (Q : Block -> bcache_state -> Prop) s :
  c_blk s !! p = Some B -> Q B s -> wp (load_blk p) Q s.
Proof. intros H HQ. unfold load_blk, wp, some_or_ub. by rewrite H. Qed.

Lemma wp_acquire_lock (Q : unit -> bcache_state -> Prop) s :
  c_lock s = false -> Q tt (set_lock true s) -> wp acquire_lock Q s.
Proof. intros H HQ. unfold acquire_lock. wp_prims. by rewrite H. Qed.

Lemma wp_acquire_bitmap_lock (Q : unit -> bcache_state -> Prop) s :
  c_bitmap_lock s = false -> Q tt (set_bitmap_lock true s) -> wp acquire_bitmap_lock Q s.
Proof. intros H HQ. unfold acquire_bitmap_lock. wp_prims. by rewrite H. Qed.

Lemma wp_acquire_log_lock (Q : unit -> bcache_state -> Prop) s :
  c_log_lock s = false ->
  Q tt (set_log true (c_log_sem s) (c_iscommit s) (c_outstanding s) s) -> wp acquire_log_lock Q s.
Proof. intros H HQ. unfold acquire_log_lock. wp_prims. by rewrite H. Qed.

Lemma find_block_run s l b :
  (forall p, p ∈ l -> is_Some (c_blk s !! p)) ->
  (exists p B, find_block l b s = Ret (Some p, s) /\ inlist l (c_blk s) p B /\ block_no B = b) \/
  (find_block l b s = Ret (None, s) /\ absent l (c_blk s) b).
Proof.
  intros Hl. unfold inlist, absent. induction l as [|p l IH]; cbn.
  { right. split; [done|]. unfold inlist. set_solver. }
  destruct (Hl p) as [B HB]; [left|]. unfold mbind, M_bind, load_blk, some_or_ub. rewrite HB. cbn.
  destruct (Z.eqb_spec (block_no B) b) as [Hb|Hb].
  - left. exists p, B. split_and!; [done|left|done|done].
  - destruct IH as [(q & C & Hr & [Hq HC] & Hb')|[Hr Hab]]; [intros q Hq; apply Hl; by right| |].
    + left. exists q, C. split_and!; [done|by right|done|done].
    + right. split; [done|]. unfold inlist in *. intros q C [[->|Hq]%elem_of_cons HC]; [congruence|by eapply Hab].
Qed.

Lemma same_rest_refl s : same_rest s s.
Proof. done. Qed.
Lemma same_rest_trans s1 s2 s3 : same_rest s1 s2 -> same_rest s2 s3 -> same_rest s1 s3.
Proof. unfold same_rest. intuition congruence. Qed.

(** The eviction loop only drops blocks that nobody holds and nothing pins. *)
Lemma evict_wp l s :
  cache_wf s -> NoDup l -> (forall p, p ∈ l -> p ∈ c_head s) ->
  wp (evict l) (fun _ s' => cache_wf s' /\ same_rest s s' /\ same_dev s s' /\
    (forall q B, mem s' q B -> mem s q B) /\
    (forall q B, mem s q B -> mem s' q B \/
       (acquired B = false /\ pinned B = false /\ q ∉ c_head s'))) s.
Proof.
  revert s. induction l as [|p l IH]; intros s W Hnd Hin; cbn [evict].
  { wp_prim. split_and!; eauto; done. }
  apply NoDup_cons in Hnd as [Hp Hnd]. wp_prim. wp_prim. case_match.
  { wp_prim. split_and!; eauto; done. }
  destruct (wf_alloc _ _ _ _ W p) as [B HB]; [apply Hin; left|].
  wp_prim. eapply wp_load_blk; [done|]. wp_prim.
  destruct (acquired B) eqn:Ha; [|destruct (pinned B) eqn:Hpin]; cbn [negb andb].
  1-2: wp_prim; apply IH; [done|done|intros q Hq; apply Hin; by right].
  unfold detach_head. wp_prims.
  match goal with |- wp (evict l) _ ?t => set (s1 := t) end.
  assert (cache_wf s1) as W1 by (apply (core_drop _ _ _ _ W); apply Hin; left).
  eapply wp_mono; [apply (IH s1); [done|done|]|].
  { intros q Hq. cbn. apply list_elem_of_filter. split; [congruence|apply Hin; by right]. }
  cbn. intros _ s' (W' & Hr & Hd & H1 & H2). split_and!; [done|done|done| |].
  - intros q C HC. apply H1, inlist_drop in HC. tauto.
  - intros q C HC. destruct (decide (q = p)) as [->|Hne].
    + right. destruct HC as [_ HC]. split_and!; [congruence|congruence|].
      intros Hq. destruct (wf_alloc _ _ _ _ W' p Hq) as [C' HC'].
      pose proof (H1 p C' (conj Hq HC')) as HC''. apply inlist_drop in HC''. tauto.
    + apply H2. by apply inlist_drop.
Qed.

(** Reduces the projections of an updated state. *)
Ltac st_simpl :=
  cbn [id c_sblock c_disk c_writes c_lock c_bitmap_lock c_blk c_head c_block_num c_header c_log_lock
       c_log_sem c_iscommit c_outstanding c_ctx set_device set_lock set_bitmap_lock set_blk set_head
       set_block_num set_header set_log set_ctx].

(** Steps through accesses to the block at a known address and to the locks. *)
Ltac bstep :=
  first
    [ wp_prim
    | eapply wp_load_blk; [first [eassumption | apply lookup_insert_eq]|]
    | apply wp_acquire_lock; [done|]
    | apply wp_acquire_log_lock; [done|]
    | apply wp_acquire_bitmap_lock; [done|]
    | progress unfold release_lock, release_bitmap_lock, release_log_lock, store_blk, set_acquired,
        set_pinned, set_data, wait_blk_lock, post_blk_lock, detach_head, insert_head, init_block,
        kalloc_block, device_read, device_write, dev_write ].
Ltac bsteps := repeat bstep.

(** An update of one cached block keeps the others. *)
Lemma update_kept s s' p B B' :
  (forall q C, mem s' q C <-> (q = p /\ C = B') \/ (q <> p /\ mem s q C)) ->
  mem s p B -> block_no B' = block_no B -> others_kept (block_no B) s s'.
Proof.
  intros H Hp Hb. split; intros q C HC Hne.
  - apply H in HC as [[-> ->]|[_ HC]]; congruence.
  - left. apply H. right. split; [|done]. intros ->. destruct HC, Hp. congruence.
Qed.

(** What [cache_acquire] guarantees. *)
Definition acquire_post (bno : Z) (s : bcache_state) (p : Z) (s' : bcache_state) : Prop :=
  cache_wf s' /\ same_rest s s' /\ same_dev s s' /\ others_kept bno s s' /\
  holds s' p bno (is_pinned s bno) (view s bno).

Lemma acquire_hit_wp p B s :
  cache_wf s -> mem s p B -> acquired B = false ->
  wp (acquire_hit p) (acquire_post (block_no B) (set_lock false s)) s.
Proof.
  intros W Hp Ha. pose proof (wf_ok _ _ _ _ W p B Hp) as [Hlock _].
  rewrite Ha in Hlock. pose proof Hp as [Hin HB].
  unfold acquire_hit. bsteps. cbn. rewrite Hlock. change (1 <=? 0) with false. bsteps.
  st_simpl. rewrite insert_insert_eq. match goal with |- context [<[p := ?b]> _] => set (B' := b) end.
  match goal with |- acquire_post _ _ _ ?t => set (s' := t) end.
  assert (cache_wf s') as W'.
  { apply core_front; [|done]. eapply core_update; [exact W|exact Hp|done|done]. }
  assert (forall q C, mem s' q C <-> (q = p /\ C = B') \/ (q <> p /\ mem s q C)) as Hmem.
  { intros q C. unfold inlist. cbn. rewrite elem_of_front by done.
    apply (inlist_insert _ _ p B B' q C Hp). }
  split_and!; [done|done|done|by eapply (update_kept _ _ p B B')|].
  exists B'. destruct (view_mem s p B W Hp) as (Hv & Hpin & _).
  split_and!; [by apply Hmem; left|done|done|exact (eq_sym Hpin)|exact (eq_sym Hv)].
Qed.

Lemma acquire_miss_wp bno s :
  cache_wf s -> uncached s bno ->
  wp (acquire_miss (c_head s) bno) (acquire_post bno (set_lock false s)) s.
Proof.
  intros W Hab. unfold acquire_miss. do 3 bstep.
  eapply (wp_mono _ (fun _ s' => cache_wf s' /\ same_rest s s' /\ same_dev s s' /\
    (forall q B, mem s' q B -> mem s q B) /\
    (forall q B, mem s q B -> mem s' q B \/ (acquired B = false /\ pinned B = false /\ q ∉ c_head s')))).
  { case_match; [|bsteps; split_and!; eauto; done]. apply evict_wp; [done| |].
    - rewrite reverse_Permutation. apply (wf_nodup _ _ _ _ W).
    - intros p. by rewrite elem_of_reverse. }
  intros _ s1 (W1 & Hr & Hd & H1 & H2). do 3 bstep.
  set (p := fresh _). assert (c_blk s1 !! p = None) as Hp.
  { apply not_elem_of_dom. pose proof (is_fresh ({[0]} ∪ dom (c_blk s1) : gset Z)) as Hf.
    fold p in Hf. set_solver. }
  bsteps. cbn [lock]. change (1 <=? 0) with false. bsteps.
  st_simpl. rewrite !insert_insert_eq. match goal with |- context [<[p := ?b]> _] => set (B' := b) end.
  match goal with |- acquire_post _ _ _ ?t => set (s' := t) end.
  assert (uncached s1 bno) as Hab1 by (intros q C HC; apply (Hab q C), H1, HC).
  assert (cache_wf s') as W' by (apply core_add; done).
  assert (forall q C, mem s' q C <-> (q = p /\ C = B') \/ (q <> p /\ mem s1 q C)) as Hmem
    by (intros q C; by apply (inlist_add _ _ _ _ W1)).
  assert (view s bno = c_disk s bno /\ is_pinned s bno = false) as [Hv Hpin]
    by (unfold view, is_pinned; by rewrite find_no_absent).
  split_and!; [done|unfold same_rest in *; cbn; naive_solver|exact Hd| |].
  - split; intros q C HC Hne.
    + apply Hmem in HC as [[-> ->]|[_ HC]]; [done|by apply H1].
    + destruct (H2 q C HC) as [HC'|(Ha & Hpn & Hq)].
      * left. apply Hmem. right. split; [|done]. intros ->. destruct HC'. congruence.
      * right. split_and!; [done|done|]. intros r D HD Hb.
        apply Hmem in HD as [[-> ->]|[Hrp HD]]; [done|].
        pose proof (wf_uniq _ _ _ _ W _ _ _ _ (H1 _ _ HD) HC Hb) as ->. by destruct HD.
  - exists B'. split_and!; [by apply Hmem; left|done|done|done|].
    change (view (set_lock false s) bno) with (view s bno). rewrite Hv.
    destruct Hd as [Hd _]. cbn. by rewrite Hd.
Qed.

Lemma cache_acquire_wp bno s :
  cache_wf s -> c_lock s = false -> is_held s bno = false ->
  wp (cache_acquire bno) (acquire_post bno s) s.
Proof.
  intros W Hlk Hh. unfold cache_acquire. do 4 bstep.
  assert (set_lock false (set_lock true s) = s) as Hs by (destruct s; cbn in *; by subst).
  destruct (find_block_run (set_lock true s) (c_head s) bno) as [(p & B & Hr & Hp & Hb)|[Hr Hab]].
  - apply (wf_alloc _ _ _ _ W).
  - wp_prim. eapply wp_intro; [exact Hr|]. cbn beta iota.
    eapply wp_mono; [apply (acquire_hit_wp p B); [exact W|exact Hp|]|].
    + destruct (view_mem s p B W Hp) as (_ & _ & Hx). by rewrite <-Hx, Hb.
    + rewrite Hs, Hb. done.
  - wp_prim. eapply wp_intro; [exact Hr|]. cbn beta iota.
    eapply wp_mono; [apply (acquire_miss_wp bno (set_lock true s)); [exact W|exact Hab]|].
    rewrite Hs. done.
Qed.

(** In-place update of a held block. *)
Lemma holds_update s p b pin x (B' : Block) :
  cache_wf s -> holds s p b pin x -> block_no B' = b -> block_ok (c_disk s) B' ->
  let s' := set_blk (<[p := B']> (c_blk s)) s in
  cache_wf s' /\ mem s' p B' /\ others_kept b s s'.
Proof.
  intros W (B & Hp & Hb & _) Hb' Hok s'.
  assert (forall q C, mem s' q C <-> (q = p /\ C = B') \/ (q <> p /\ mem s q C)) as Hmem
    by (intros q C; by apply (inlist_insert _ _ p B)).
  split_and!.
  - eapply core_update; [exact W|exact Hp|congruence|done].
  - apply Hmem. by left.
  - rewrite <-Hb. eapply (update_kept _ _ p B B'); [done|done|congruence].
Qed.

Lemma holds_blk s p b pin x :
  cache_wf s -> holds s p b pin x ->
  exists B, c_blk s !! p = Some B /\ block_no B = b /\ acquired B = true /\ pinned B = pin /\
            data B = x /\ lock B = 0.
Proof.
  intros W (B & Hp & Hb & Ha & Hpin & Hd). exists B.
  pose proof (wf_ok _ _ _ _ W p B Hp) as [Hl _]. rewrite Ha in Hl. by destruct Hp.
Qed.

Lemma set_data_wp p b pin x y s :
  cache_wf s -> holds s p b pin x ->
  wp (set_data p y) (fun _ s' => cache_wf s' /\ same_rest s s' /\ same_dev s s' /\
    others_kept b s s' /\ holds s' p b pin y) s.
Proof.
  intros W Hh. destruct (holds_blk _ _ _ _ _ W Hh) as (B & HB & Hb & Ha & Hpin & Hd & Hl).
  bsteps. match goal with |- context [<[p := ?c]> _] => set (B' := c) end.
  destruct (holds_update s p b pin x B' W Hh) as (W' & Hm & Hk); [done| |].
  { split; cbn; rewrite Ha; [done|discriminate]. }
  split_and!; [done|done|done|done|]. by exists B'.
Qed.

Lemma set_pinned_wp p b pin x v s :
  cache_wf s -> holds s p b pin x ->
  wp (set_pinned p v) (fun _ s' => cache_wf s' /\ same_rest s s' /\ same_dev s s' /\
    others_kept b s s' /\ holds s' p b v x) s.
Proof.
  intros W Hh. destruct (holds_blk _ _ _ _ _ W Hh) as (B & HB & Hb & Ha & Hpin & Hd & Hl).
  bsteps. match goal with |- context [<[p := ?c]> _] => set (B' := c) end.
  destruct (holds_update s p b pin x B' W Hh) as (W' & Hm & Hk); [done| |].
  { split; cbn; rewrite Ha; [done|discriminate]. }
  split_and!; [done|done|done|done|]. by exists B'.
Qed.

(** A released block is pinned, or its content is on the device. *)
Lemma cache_release_wp p b pin x s :
  cache_wf s -> c_lock s = false -> holds s p b pin x -> (pin = false -> x = c_disk s b) ->
  wp (cache_release p) (fun _ s' => cache_wf s' /\ same_rest s s' /\ same_dev s s' /\
    others_kept b s s' /\ view s' b = x /\ is_pinned s' b = pin /\ is_held s' b = false) s.
Proof.
  intros W Hlk Hh Hx. destruct (holds_blk _ _ _ _ _ W Hh) as (B & HB & Hb & Ha & Hpin & Hd & Hl).
  unfold cache_release. bsteps. st_simpl. rewrite insert_insert_eq. cbn [lock]. rewrite Hl.
  match goal with |- context [<[p := ?c]> _] => set (B' := c) end.
  destruct (holds_update s p b pin x B' W Hh) as (W' & Hm & Hk); [done| |].
  { split; [done|]. cbn. rewrite Hpin, Hd, Hb. auto. }
  destruct (view_mem _ p B' W' Hm) as (Hv & Hpn & Hhd). cbn in Hv, Hpn, Hhd. rewrite Hb in *.
  split_and!; [exact W'|unfold same_rest; cbn; naive_solver|done|exact Hk| | |].
  - rewrite <-Hd. exact Hv.
  - rewrite <-Hpin. exact Hpn.
  - exact Hhd.
Qed.

(** [cache_sync(NULL, block)] writes the block to the device. *)
Lemma cache_sync0_wp p b pin x s (Q : unit -> bcache_state -> Prop) :
  cache_wf s -> holds s p b pin x ->
  (let s' := set_device (upd_disk b x (c_disk s)) ((b, x) :: c_writes s) s in
   cache_wf s' -> Q tt s') ->
  wp (cache_sync 0 p) Q s.
Proof.
  intros W Hh HQ. destruct (holds_blk _ _ _ _ _ W Hh) as (B & HB & Hb & Ha & Hpin & Hd & Hl).
  unfold cache_sync. rewrite Z.eqb_refl. bsteps. rewrite Hb, Hd. apply HQ.
  destruct Hh as (B2 & Hm & _). destruct Hm as [Hin HB2]. simplify_eq.
  by apply (core_disk _ _ _ _ W p).
Qed.

(** ** Quiescent states *)

(** No lock is held and no block is in use. *)
Definition quiet (s : bcache_state) : Prop :=
  cache_wf s /\ c_lock s = false /\ forall b, is_held s b = false.

Lemma others_kept_refl b s : others_kept b s s.
Proof. split; auto. Qed.

(** The blocks other than [a] and [b], across a step that may touch both. *)
Lemma view_kept' s s' b b' :
  cache_wf s -> cache_wf s' -> others_kept b s s' -> same_dev s s' -> b' <> b ->
  view s' b' = view s b' /\ is_pinned s' b' = is_pinned s b' /\ is_held s' b' = is_held s b'.
Proof. intros W W' K [Hd _] Hne. eapply view_kept; try done. by rewrite Hd. Qed.

Lemma unheld_clean s b : cache_wf s -> is_held s b = false -> is_pinned s b = false -> view s b = c_disk s b.
Proof.
  intros W Hh Hpin. unfold view, is_pinned, is_held in *.
  destruct (find_no (c_head s) (c_blk s) b) as [B|] eqn:E; [|done].
  apply find_no_Some in E as (p & Hp & <-). by apply (wf_ok _ _ _ _ W p B Hp).
Qed.

Lemma quiet_clean s b : quiet s -> is_pinned s b = false -> view s b = c_disk s b.
Proof. intros (W & _ & Hh). by apply unheld_clean. Qed.

(** The visible part of a step on block [b]: the other blocks look the same. *)
Definition step_on (b : Z) (s s' : bcache_state) : Prop :=
  cache_wf s' /\ same_rest s s' /\
  (forall b', b' <> b -> view s' b' = view s b' /\ is_pinned s' b' = is_pinned s b' /\
                        is_held s' b' = is_held s b') /\
  (forall p b' pin x, b' <> b -> holds s p b' pin x -> holds s' p b' pin x) /\
  (forall b', b' <> b -> uncached s b' -> uncached s' b').

Lemma step_on_kept b s s' :
  cache_wf s -> cache_wf s' -> same_rest s s' -> same_dev s s' -> others_kept b s s' -> step_on b s s'.
Proof.
  intros W W' Hr Hd K. split_and!; [done|done| | |].
  - intros b' Hb. by eapply view_kept'.
  - intros p b' pin x Hb. by eapply holds_kept.
  - intros b' Hb Hu q B HB E. apply (Hu q B); [|done]. apply K; [done|congruence].
Qed.

Lemma acquire_step bno s :
  cache_wf s -> c_lock s = false -> is_held s bno = false ->
  wp (cache_acquire bno) (fun p s' => step_on bno s s' /\ same_dev s s' /\
    holds s' p bno (is_pinned s bno) (view s bno)) s.
Proof.
  intros W Hl Hh. eapply wp_mono; [by apply cache_acquire_wp|].
  intros p s' (W' & Hr & Hd & K & H). split_and!; try done; try by apply Hd. by apply step_on_kept.
Qed.

Lemma set_data_step p b pin x y s :
  cache_wf s -> holds s p b pin x ->
  wp (set_data p y) (fun _ s' => step_on b s s' /\ same_dev s s' /\ holds s' p b pin y) s.
Proof.
  intros W Hh. eapply wp_mono; [by eapply set_data_wp|].
  intros _ s' (W' & Hr & Hd & K & H). split_and!; try done; try by apply Hd. by apply step_on_kept.
Qed.

Lemma set_pinned_step p b pin x v s :
  cache_wf s -> holds s p b pin x ->
  wp (set_pinned p v) (fun _ s' => step_on b s s' /\ same_dev s s' /\ holds s' p b v x) s.
Proof.
  intros W Hh. eapply wp_mono; [by eapply set_pinned_wp|].
  intros _ s' (W' & Hr & Hd & K & H). split_and!; try done; try by apply Hd. by apply step_on_kept.
Qed.

Lemma release_step p b pin x s :
  cache_wf s -> c_lock s = false -> holds s p b pin x -> (pin = false -> x = c_disk s b) ->
  wp (cache_release p) (fun _ s' => step_on b s s' /\ same_dev s s' /\
    view s' b = x /\ is_pinned s' b = pin /\ is_held s' b = false) s.
Proof.
  intros W Hl Hh Hx. eapply wp_mono; [by eapply cache_release_wp|].
  intros _ s' (W' & Hr & Hd & K & H). split_and!; try done; try by apply Hd. 2-4: naive_solver.
  by apply step_on_kept.
Qed.

Lemma sync0_step p b pin x s :
  cache_wf s -> holds s p b pin x ->
  wp (cache_sync 0 p) (fun _ s' => step_on b s s' /\ holds s' p b pin x /\
    c_disk s' = upd_disk b x (c_disk s) /\ c_writes s' = (b, x) :: c_writes s) s.
Proof.
  intros W Hh. eapply cache_sync0_wp; [done|done|]. intros s' W'.
  split_and!; try done. split_and!; try done.
  intros b' Hb. eapply (view_kept s s' b); [done|done|by split; auto|done|].
  cbn. unfold upd_disk. by rewrite (proj2 (Z.eqb_neq _ _)).
Qed.

(** ** Copying a block *)

Lemma step_on_lock b s s' : step_on b s s' -> c_lock s = false -> c_lock s' = false.
Proof. intros (_ & R & _) H. destruct R as (_ & _ & -> & _). done. Qed.

Lemma upd_disk_ne b b' x d : b' <> b -> upd_disk b x d b' = d b'.
Proof. intros H. unfold upd_disk. by rewrite (proj2 (Z.eqb_neq _ _)). Qed.
Lemma upd_disk_eq b x d : upd_disk b x d b = x.
Proof. unfold upd_disk. by rewrite Z.eqb_refl. Qed.

(** What [copy_block] does from a quiescent state. *)
Definition copied (F T : Z) (s s' : bcache_state) : Prop :=
  quiet s' /\ same_rest s s' /\
  c_disk s' = upd_disk T (view s F) (c_disk s) /\ c_writes s' = (T, view s F) :: c_writes s /\
  (forall b, view s' b = if b =? T then view s F else view s b) /\
  (forall b, is_pinned s' b = is_pinned s b) /\
  (forall b, b <> F -> b <> T -> uncached s b -> uncached s' b).

Lemma copy_block_wp F T s : quiet s -> F <> T -> wp (copy_block F T) (fun _ s' => copied F T s s') s.
Proof.
  intros Hq Hne. pose proof Hq as (W & Hl & Hh). unfold copy_block.
  wp_prim. eapply wp_mono; [by apply acquire_step|].
  intros pf s1 (S1 & D1 & HF). pose proof (step_on_lock _ _ _ S1 Hl) as L1.
  destruct S1 as (W1 & R1 & V1 & K1 & U1).
  wp_prim. eapply wp_mono; [apply acquire_step; [done|done|]|].
  { destruct (V1 T) as (_ & _ & ->); [congruence|done]. }
  intros pt s2 (S2 & D2 & HT). pose proof (step_on_lock _ _ _ S2 L1) as L2.
  destruct S2 as (W2 & R2 & V2 & K2 & U2). apply K2 in HF; [|done].
  destruct (holds_blk _ _ _ _ _ W2 HF) as (B & HB & _ & _ & _ & HdB & _).
  wp_prim. eapply wp_load_blk; [done|]. rewrite HdB.
  wp_prim. eapply wp_mono; [by eapply set_data_step|].
  intros [] s3 (S3 & D3 & HT3). pose proof (step_on_lock _ _ _ S3 L2) as L3.
  destruct S3 as (W3 & R3 & V3 & K3 & U3). apply K3 in HF; [|done].
  wp_prim. eapply wp_mono; [by eapply sync0_step|].
  intros [] s4 (S4 & HT4 & D4 & Wr4). pose proof (step_on_lock _ _ _ S4 L3) as L4.
  destruct S4 as (W4 & R4 & V4 & K4 & U4). apply K4 in HF; [|done].
  assert (c_disk s3 = c_disk s) as Hd3 by (destruct D1, D2, D3; congruence).
  assert (c_writes s3 = c_writes s) as Hw3 by (destruct D1, D2, D3; congruence).
  wp_prim. eapply wp_mono; [eapply release_step; [done|done|exact HF|]|].
  { intros Hpin. rewrite D4, upd_disk_ne, Hd3 by done. by apply quiet_clean. }
  intros [] s5 (S5 & D5 & HvF & HpF & HhF). pose proof (step_on_lock _ _ _ S5 L4) as L5.
  destruct S5 as (W5 & R5 & V5 & K5 & U5). apply K5 in HT4; [|done].
  eapply wp_mono; [eapply release_step; [done|done|exact HT4|]|].
  { intros _. destruct D5 as [-> _]. by rewrite D4, upd_disk_eq. }
  intros [] s6 (S6 & D6 & HvT & HpT & HhT). pose proof (step_on_lock _ _ _ S6 L5) as L6.
  destruct S6 as (W6 & R6 & V6 & K6 & U6).
  assert (forall b, view s6 b = (if b =? T then view s F else view s b) /\
            is_pinned s6 b = is_pinned s b /\ is_held s6 b = false) as Hall.
  { intros b. destruct (Z.eqb_spec b T) as [->|HbT].
    - destruct (V1 T) as (_ & E & _); [congruence|]. rewrite <-E. done.
    - destruct (V6 b HbT) as (-> & -> & ->). destruct (decide (b = F)) as [->|HbF].
      + done.
      + destruct (V5 b HbF) as (-> & -> & ->). destruct (V4 b HbT) as (-> & -> & ->).
        destruct (V3 b HbT) as (-> & -> & ->). destruct (V2 b HbT) as (-> & -> & ->).
        destruct (V1 b HbF) as (-> & -> & ->). done. }
  unfold copied. split_and!.
  - split_and!; [done|done|]. intros b. apply Hall.
  - eauto 10 using same_rest_trans.
  - destruct D6 as [-> _], D5 as [-> _]. by rewrite D4, Hd3.
  - destruct D6 as [_ ->], D5 as [_ ->]. by rewrite Wr4, Hw3.
  - apply Hall.
  - apply Hall.
  - intros b HF' HT' Hu. auto 10.
Qed.

Lemma install_one_wp b s :
  quiet s ->
  wp (install_one b) (fun _ s' => quiet s' /\ same_rest s s' /\
    c_disk s' = upd_disk b (view s b) (c_disk s) /\ c_writes s' = (b, view s b) :: c_writes s /\
    (forall b', view s' b' = view s b') /\
    (forall b', is_pinned s' b' = if b' =? b then false else is_pinned s b') /\
    (forall b', b' <> b -> uncached s b' -> uncached s' b')) s.
Proof.
  intros Hq. pose proof Hq as (W & Hl & Hh). unfold install_one.
  wp_prim. eapply wp_mono; [by apply acquire_step|].
  intros p s1 (S1 & D1 & H1). pose proof (step_on_lock _ _ _ S1 Hl) as L1. destruct S1 as (W1 & R1 & V1 & _ & U1).
  wp_prim. eapply wp_mono; [by eapply sync0_step|].
  intros [] s2 (S2 & H2 & D2 & Wr2). pose proof (step_on_lock _ _ _ S2 L1) as L2.
  destruct S2 as (W2 & R2 & V2 & _ & U2).
  wp_prim. eapply wp_mono; [by eapply set_pinned_step|].
  intros [] s3 (S3 & D3 & H3). pose proof (step_on_lock _ _ _ S3 L2) as L3. destruct S3 as (W3 & R3 & V3 & _ & U3).
  eapply wp_mono; [eapply release_step; [done|done|exact H3|]|].
  { intros _. destruct D3 as [-> _]. by rewrite D2, upd_disk_eq. }
  intros [] s4 (S4 & D4 & Hv & Hp & Hhd). pose proof (step_on_lock _ _ _ S4 L3) as L4.
  destruct S4 as (W4 & R4 & V4 & _ & U4).
  assert (forall b', view s4 b' = view s b' /\
            is_pinned s4 b' = (if b' =? b then false else is_pinned s b') /\ is_held s4 b' = false) as Hall.
  { intros b'. destruct (Z.eqb_spec b' b) as [->|Hb]; [done|].
    destruct (V4 b' Hb) as (-> & -> & ->), (V3 b' Hb) as (-> & -> & ->),
      (V2 b' Hb) as (-> & -> & ->), (V1 b' Hb) as (-> & -> & ->). done. }
  split_and!.
  - split_and!; [done|done|]. intros b'. apply Hall.
  - eauto 10 using same_rest_trans.
  - destruct D4 as [-> _], D3 as [-> _], D1 as [<- _]. done.
  - destruct D4 as [_ ->], D3 as [_ ->], D1 as [_ <-]. done.
  - apply Hall.
  - apply Hall.
  - auto 10.
Qed.
