(* ===== verification/CacheCrash.v ===== *)
(** * Commit, crash and recovery of the block cache

    [cache_end_op] and [init_bcache] as sequences of device writes: the exact
    writes of a commit, the disk after a crash between any two of them, and the
    disk that recovery then produces. *)

From Stdlib Require Import ZArith Lia.
From stdpp Require Import base tactics numbers gmap list.
From S2P Require Import Prelude FsDefs Cache CacheProofs.

Local Open Scope Z_scope.

(** ** Disks as write histories *)

(** The disk after the writes [ws], the newest first. *)
Definition apply_writes (ws : list (Z * list Z)) (d : Z -> list Z) : Z -> list Z :=
  foldr (fun w d => upd_disk (fst w) (snd w) d) d ws.

Lemma apply_writes_app ws1 ws2 d : apply_writes (ws1 ++ ws2) d = apply_writes ws1 (apply_writes ws2 d).
Proof. apply foldr_app. Qed.

Lemma apply_writes_cons b x ws d : apply_writes ((b, x) :: ws) d = upd_disk b x (apply_writes ws d).
Proof. done. Qed.

Lemma apply_writes_out ws d b : b ∉ ws.*1 -> apply_writes ws d b = d b.
Proof.
  induction ws as [|[b' x] ws IH]; [done|]. rewrite apply_writes_cons, fmap_cons. intros [Hb Hws]%not_elem_of_cons.
  by rewrite upd_disk_ne, IH.
Qed.

(** Writes of distinct blocks: the block has the content written to it. *)
Lemma apply_writes_in ws d b x : NoDup ws.*1 -> (b, x) ∈ ws -> apply_writes ws d b = x.
Proof.
  induction ws as [|[b' x'] ws IH]; [set_solver|]. rewrite apply_writes_cons, fmap_cons. intros [Hb Hnd]%NoDup_cons [H|H]%elem_of_cons.
  - simplify_eq. apply upd_disk_eq.
  - rewrite upd_disk_ne; [by apply IH|]. intros ->. apply Hb. apply list_elem_of_fmap. by exists (b', x).
Qed.

(** ** Loops of copies *)

(** The writes of a loop over [l] that stores [v x] in block [tgt x]. *)
Definition loop_writes {A} (tgt : A -> Z) (v : A -> list Z) (l : list A) : list (Z * list Z) :=
  reverse ((fun x => (tgt x, v x)) <$> l).

Lemma loop_writes_snoc {A} (tgt : A -> Z) v l x :
  loop_writes tgt v (l ++ [x]) = (tgt x, v x) :: loop_writes tgt v l.
Proof. unfold loop_writes. by rewrite fmap_app, reverse_app. Qed.

Lemma loop_writes_blocks {A} (tgt : A -> Z) v l b : b ∈ (loop_writes tgt v l).*1 <-> b ∈ tgt <$> l.
Proof.
  unfold loop_writes. rewrite fmap_reverse, elem_of_reverse, <-list_fmap_compose. done.
Qed.

Lemma loop_writes_nodup {A} (tgt : A -> Z) v l : NoDup (tgt <$> l) -> NoDup (loop_writes tgt v l).*1.
Proof.
  unfold loop_writes. rewrite fmap_reverse, reverse_Permutation, <-list_fmap_compose. done.
Qed.

Lemma loop_writes_in {A} (tgt : A -> Z) v l x : x ∈ l -> (tgt x, v x) ∈ loop_writes tgt v l.
Proof. intros H. unfold loop_writes. apply elem_of_reverse, list_elem_of_fmap. by exists x. Qed.

Lemma loop_writes_ext {A} (tgt : A -> Z) v v' l :
  (forall x, x ∈ l -> v x = v' x) -> loop_writes tgt v l = loop_writes tgt v' l.
Proof.
  intros H. unfold loop_writes. f_equal. apply list_fmap_ext. intros i x Hx. f_equal.
  apply H. by eapply list_elem_of_lookup_2.
Qed.

(** The state after a loop of copies from [src x] to [tgt x] for [x] in [l]. *)
Definition copies_post {A} (src tgt : A -> Z) (s : bcache_state) (l : list A) (s' : bcache_state) : Prop :=
  quiet s' /\ same_rest s s' /\
  c_writes s' = loop_writes tgt (fun x => view s (src x)) l ++ c_writes s /\
  c_disk s' = apply_writes (loop_writes tgt (fun x => view s (src x)) l) (c_disk s) /\
  (forall b, b ∉ tgt <$> l -> view s' b = view s b) /\
  (forall b, is_pinned s' b = is_pinned s b) /\
  (forall b, b ∉ src <$> l -> b ∉ tgt <$> l -> uncached s b -> uncached s' b).

Lemma copies_wp {A} (f : A -> BM unit) (src tgt : A -> Z) l s :
  quiet s -> (forall x y, x ∈ l -> y ∈ l -> src x <> tgt y) ->
  (forall x s', x ∈ l -> quiet s' -> same_rest s s' -> wp (f x) (fun _ s'' => copied (src x) (tgt x) s' s'') s') ->
  wp (for_each l f) (fun _ s' => copies_post src tgt s l s') s.
Proof.
  intros Hq Hd Hf. apply (wp_for_each (copies_post src tgt s)).
  { split_and!; done. }
  intros l1 x l2 s' Hl (Q' & R' & W' & D' & V' & P' & U').
  assert (x ∈ l) as Hx by (rewrite Hl, elem_of_app, elem_of_cons; auto).
  eapply wp_mono; [by apply Hf|]. intros _ s'' (Q2 & R2 & D2 & W2 & V2 & P2 & U2).
  assert (view s' (src x) = view s (src x)) as Hv.
  { apply V'. intros (y & Hy & Hy')%list_elem_of_fmap. apply (Hd x y); [done| |done].
    rewrite Hl, elem_of_app. by left. }
  split_and!.
  - done.
  - by eapply same_rest_trans.
  - by rewrite loop_writes_snoc, W2, W', Hv.
  - by rewrite loop_writes_snoc, D2, D', Hv.
  - intros b Hb. rewrite fmap_app, not_elem_of_app in Hb. destruct Hb as [Hb Hbx].
    rewrite V2, (proj2 (Z.eqb_neq _ _)) by (intros ->; apply Hbx; left). by apply V'.
  - intros b. by rewrite P2, P'.
  - intros b. rewrite !fmap_app, !not_elem_of_app. cbn [fmap list_fmap]. rewrite !not_elem_of_cons.
    intros (Hs & Hsx & _) (Ht & Htx & _) Hu. auto.
Qed.

(** ** The log *)

(** The blocks of the log area: the header and its [LOG_MAX_SIZE] slots. *)
Definition log_area (sb : SuperBlock) (b : Z) : Prop :=
  sb_log_start sb <= b <= sb_log_start sb + LOG_MAX_SIZE.

Definition log_layout (sb : SuperBlock) : Prop :=
  0 <= sb_log_start sb /\ sb_log_start sb + LOG_MAX_SIZE < 2 ^ 32.

Definition entries (h : LogHeader) : list Z := take (Z.to_nat (hd_num_blocks h)) (hd_block_no h).

(** A header the cache can work with: its entries are distinct blocks outside
    the log. *)
Record header_ok (sb : SuperBlock) (h : LogHeader) : Prop := {
  ho_length : length (hd_block_no h) = Z.to_nat LOG_MAX_SIZE;
  ho_num : 0 <= hd_num_blocks h <= LOG_MAX_SIZE;
  ho_u64 : Forall is_u64 (hd_block_no h);
  ho_nodup : NoDup (entries h);
  ho_home : forall b, b ∈ entries h -> ~ log_area sb b }.

Definition disk_header (sb : SuperBlock) (d : Z -> list Z) : LogHeader :=
  header_of_bytes (d (sb_log_start sb)).

Lemma log_block_eq sb i : log_layout sb -> 0 <= i < LOG_MAX_SIZE -> log_block sb i = sb_log_start sb + 1 + i.
Proof.
  intros [H1 H2] Hi. change LOG_MAX_SIZE with 63 in *. unfold log_block.
  rewrite (u32_small (sb_log_start sb + 1)) by lia. rewrite u64_small; lia.
Qed.

Lemma header_entries_run s : header_ok (c_sblock s) (c_header s) -> header_entries s = Ret (entries (c_header s), s).
Proof.
  intros [H1 H2 _ _ _]. unfold header_entries, gets, mbind, M_bind. rewrite H1.
  destruct (Z.ltb_spec (Z.of_nat (Z.to_nat LOG_MAX_SIZE)) (hd_num_blocks (c_header s))); [|done].
  change LOG_MAX_SIZE with 63 in *. lia.
Qed.

Lemma length_entries sb h : header_ok sb h -> length (entries h) = Z.to_nat (hd_num_blocks h).
Proof. intros [H1 H2 _ _ _]. unfold entries. rewrite length_take, H1. change LOG_MAX_SIZE with 63 in *. lia. Qed.

(** The entries with their slots, as the loops number them. *)
Definition slots (es : list Z) : list (Z * Z) := imap (fun i b => (Z.of_nat i, b)) es.

Lemma elem_of_slots es i b : (i, b) ∈ slots es <-> exists n, i = Z.of_nat n /\ es !! n = Some b.
Proof.
  unfold slots. rewrite elem_of_lookup_imap. split.
  - intros (n & y & H & Hn). simplify_eq. eauto.
  - intros (n & -> & Hn). eauto.
Qed.

Section slots.
Context (sb : SuperBlock) (h : LogHeader).
Hypothesis Hsb : log_layout sb.
Hypothesis Hh : header_ok sb h.

(** Slot [i] of the log. *)
Abbreviation slot := (fun e : Z * Z => log_block sb (fst e)).

Lemma slots_spec e : e ∈ slots (entries h) ->
  slot e = sb_log_start sb + 1 + fst e /\ 0 <= fst e < LOG_MAX_SIZE /\ snd e ∈ entries h.
Proof.
  destruct e as [i b]. intros (n & -> & Hn)%elem_of_slots. cbn [fst snd].
  pose proof (lookup_lt_Some _ _ _ Hn) as Hlt. rewrite (length_entries sb) in Hlt by done.
  pose proof (ho_num _ _ Hh). rewrite log_block_eq by (done || lia).
  split_and!; [done|lia|lia|]. by eapply list_elem_of_lookup_2.
Qed.

Lemma slot_in_log e : e ∈ slots (entries h) -> log_area sb (slot e) /\ slot e <> sb_log_start sb.
Proof. intros (-> & H & _)%slots_spec. change LOG_MAX_SIZE with 63 in H. unfold log_area. change LOG_MAX_SIZE with 63. lia. Qed.

Lemma slots_nodup : NoDup (slot <$> slots (entries h)).
Proof.
  apply NoDup_fmap_2_strong.
  - intros [i b] [j c] Hi Hj. pose proof (slots_spec _ Hi) as (-> & _). pose proof (slots_spec _ Hj) as (-> & _).
    apply elem_of_slots in Hi as (n & -> & Hn), Hj as (k & -> & Hk). cbn. intros.
    replace k with n in * by lia. congruence.
  - unfold slots. apply NoDup_alt. intros i j [a b]. rewrite !list_lookup_imap.
    destruct (entries h !! i), (entries h !! j); cbn; try done. intros. simplify_eq. lia.
Qed.

Lemma home_not_slot b e : b ∈ entries h -> e ∈ slots (entries h) -> b <> slot e.
Proof. intros Hb He ->. apply slot_in_log in He as [He _]. by apply (ho_home _ _ Hh) in Hb. Qed.
End slots.

(** ** The commit *)

(** The writes of a commit, the newest first: the blocks to their slots, the
    header, the blocks to their homes, the empty header. *)
Definition slot_writes (sb : SuperBlock) (h : LogHeader) (v : Z -> list Z) : list (Z * list Z) :=
  loop_writes (fun e => log_block sb (fst e)) (fun e => v (snd e)) (slots (entries h)).
Definition home_writes (h : LogHeader) (v : Z -> list Z) : list (Z * list Z) :=
  loop_writes id v (entries h).
Definition empty_header (h : LogHeader) : LogHeader := mkLogHeader 0 (hd_block_no h).
Definition commit_writes (sb : SuperBlock) (h : LogHeader) (v : Z -> list Z) : list (Z * list Z) :=
  [(sb_log_start sb, header_bytes (empty_header h))] ++ home_writes h v ++
  [(sb_log_start sb, header_bytes h)] ++ slot_writes sb h v.

(** The states between operations: nobody holds a block, the log pins only the
    blocks of its header, and the header on the disk, which is never cached, is
    empty. *)
Record log_ready (s : bcache_state) : Prop := {
  lr_quiet : quiet s;
  lr_layout : log_layout (c_sblock s);
  lr_header : header_ok (c_sblock s) (c_header s);
  lr_pinned : forall b, is_pinned s b = true -> b ∈ entries (c_header s);
  lr_uncached : uncached s (sb_log_start (c_sblock s));
  lr_disk : header_ok (c_sblock s) (disk_header (c_sblock s) (c_disk s)) /\
            hd_num_blocks (disk_header (c_sblock s) (c_disk s)) = 0 }.

(** The view and the pins only depend on the blocks and the disk. *)
Definition set_log_lock (b : bool) (s : bcache_state) : bcache_state :=
  set_log b (c_log_sem s) (c_iscommit s) (c_outstanding s) s.

Lemma log_one_wp e s :
  quiet s -> c_log_lock s = true -> snd e <> log_block (c_sblock s) (fst e) ->
  wp (log_one (fst e) (snd e)) (fun _ s' => copied (snd e) (log_block (c_sblock s) (fst e)) s s') s.
Proof.
  intros Hq Hl Hne. unfold log_one, release_log_lock. wp_prims.
  eapply wp_mono; [apply copy_block_wp; [exact Hq|exact Hne]|].
  intros [] s' (Q & R & D & W & V & P & U). unfold same_rest in R; cbn in R.
  apply wp_acquire_log_lock; [naive_solver|]. split_and!; try done.
  unfold same_rest; cbn. rewrite Hl. naive_solver.
Qed.

Lemma installs_wp es s :
  quiet s -> NoDup es ->
  wp (for_each es install_one) (fun _ s' => quiet s' /\ same_rest s s' /\
    c_writes s' = loop_writes id (view s) es ++ c_writes s /\
    c_disk s' = apply_writes (loop_writes id (view s) es) (c_disk s) /\
    (forall b, view s' b = view s b) /\
    (forall b, is_pinned s' b = true -> is_pinned s b = true /\ b ∉ es) /\
    (forall b, b ∉ es -> uncached s b -> uncached s' b)) s.
Proof.
  intros Hq Hnd. eapply (wp_for_each (fun l s' => quiet s' /\ same_rest s s' /\
    c_writes s' = loop_writes id (view s) l ++ c_writes s /\
    c_disk s' = apply_writes (loop_writes id (view s) l) (c_disk s) /\
    (forall b, view s' b = view s b) /\
    (forall b, is_pinned s' b = true -> is_pinned s b = true /\ b ∉ l) /\
    (forall b, b ∉ l -> uncached s b -> uncached s' b))).
  { split_and!; try done. intros b Hb. split; [done|set_solver]. }
  intros l1 x l2 s' Hl (Q' & R' & W' & D' & V' & P' & U').
  eapply wp_mono; [by apply install_one_wp|]. intros _ s'' (Q2 & R2 & D2 & W2 & V2 & P2 & U2). split_and!.
  - done.
  - by eapply same_rest_trans.
  - by rewrite loop_writes_snoc, W2, W', V'.
  - by rewrite loop_writes_snoc, D2, D', V'.
  - intros b. by rewrite V2, V'.
  - intros b. rewrite P2. destruct (Z.eqb_spec b x) as [->|Hb]; [done|]. intros [? ?]%P'. set_solver.
  - intros b [Hb Hbx]%not_elem_of_app Hu. apply not_elem_of_cons in Hbx as [Hbx _]. auto.
Qed.

(** The state after the last operation of a group has ended. *)
Definition committed (s s' : bcache_state) : Prop :=
  let ws := commit_writes (c_sblock s) (c_header s) (view s) in
  quiet s' /\ c_writes s' = ws ++ c_writes s /\ c_disk s' = apply_writes ws (c_disk s) /\
  (forall b, ~ log_area (c_sblock s) b -> view s' b = view s b) /\
  (forall b, is_pinned s' b = false) /\ uncached s' (sb_log_start (c_sblock s)) /\
  c_header s' = empty_header (c_header s) /\ c_sblock s' = c_sblock s /\
  c_log_lock s' = false /\ c_log_sem s' = c_log_sem s /\ c_iscommit s' = false /\
  c_outstanding s' = 0 /\ c_bitmap_lock s' = c_bitmap_lock s /\ c_ctx s' = c_ctx s.

(** Writing the header changes no cached block. *)
Lemma write_header_wp s (Q : unit -> bcache_state -> Prop) :
  quiet s -> uncached s (sb_log_start (c_sblock s)) ->
  (let b := sb_log_start (c_sblock s) in
   let x := header_bytes (c_header s) in
   let s' := set_device (upd_disk b x (c_disk s)) ((b, x) :: c_writes s) s in
   quiet s' -> (forall b', b' <> b -> view s' b' = view s b') ->
   (forall b', is_pinned s' b' = is_pinned s b') -> Q tt s') ->
  wp write_header Q s.
Proof.
  intros (W & Hl & Hh) Hu HQ. unfold write_header, dev_write. wp_prims. apply HQ.
  - split_and!; [|done|done]. destruct W as [w1 w2 w3 w4 w5]. split; try done.
    intros p B HB. destruct (w5 p B HB) as [H1 H2]. split; [done|]. intros Ha Hp.
    st_simpl. rewrite upd_disk_ne by (by apply (Hu p)). by apply H2.
  - intros b' Hb. unfold view. cbn. rewrite upd_disk_ne; done.
  - done.
Qed.

Lemma log_loop_wp s :
  quiet s -> c_log_lock s = true -> log_layout (c_sblock s) -> header_ok (c_sblock s) (c_header s) ->
  wp (for_each (slots (entries (c_header s))) (fun e => log_one (fst e) (snd e)))
    (fun _ s' => copies_post snd (fun e => log_block (c_sblock s) (fst e)) s (slots (entries (c_header s))) s') s.
Proof.
  intros Hq Hl Hsb Hh. apply copies_wp; [done| |].
  - intros x y Hx Hy. apply (home_not_slot _ _ Hsb Hh); [|done]. by apply (slots_spec _ _ Hsb Hh).
  - intros x s' Hx Q' R'. unfold same_rest in R'. destruct R' as (Esb & _ & _ & _ & Ell & _).
    rewrite <-Esb. apply log_one_wp; [done|congruence|]. rewrite Esb.
    apply (home_not_slot _ _ Hsb Hh); [|done]. by apply (slots_spec _ _ Hsb Hh).
Qed.

Lemma log_start_in_log sb : log_area sb (sb_log_start sb).
Proof. unfold log_area. change LOG_MAX_SIZE with 63. lia. Qed.

Lemma log_start_not_home s : header_ok (c_sblock s) (c_header s) -> sb_log_start (c_sblock s) ∉ entries (c_header s).
Proof.
  intros Hh Hin. apply (ho_home _ _ Hh) in Hin. apply Hin, log_start_in_log.
Qed.

Lemma log_start_not_slot s : log_layout (c_sblock s) -> header_ok (c_sblock s) (c_header s) ->
  sb_log_start (c_sblock s) ∉ (fun e => log_block (c_sblock s) (fst e)) <$> slots (entries (c_header s)).
Proof.
  intros Hsb Hh (e & He & Hin)%list_elem_of_fmap. by apply (slot_in_log _ _ Hsb Hh) in Hin as [_ Hin].
Qed.

Lemma slots_homes es : snd <$> slots es = es.
Proof.
  apply list_eq. intros i. unfold slots. rewrite list_lookup_fmap, list_lookup_imap. by destruct (es !! i).
Qed.

Lemma slots_snd es b : b ∈ (snd <$> slots es) -> b ∈ es.
Proof. by rewrite slots_homes. Qed.

(** The whole of [cache_end_op] when the last operation ends. *)
Lemma end_op_wp ctx s :
  log_ready s -> c_outstanding s = 1 -> c_iscommit s = false -> c_log_lock s = false -> 0 <= c_log_sem s ->
  wp (cache_end_op ctx) (fun _ s' => committed s s') s.
Proof.
  intros [Hq Hsb Hh Hp Hu Hd] Ho Hic Hll Hsem. unfold cache_end_op.
  wp_prim. apply wp_acquire_log_lock; [done|]. wp_prims. st_simpl. rewrite Hic.
  cbn beta iota. wp_prims. st_simpl. rewrite Ho. change (0 <? u64 (1 - 1)) with false.
  cbn beta iota. wp_prims. st_simpl.
  match goal with |- wp _ _ ?t => set (s1 := t) end.
  eapply wp_intro; [by apply (header_entries_run s1)|]. cbn beta.
  wp_prim. eapply wp_mono; [by apply (log_loop_wp s1)|].
  intros [] s2 (Q2 & R2 & W2 & D2 & V2 & P2 & U2). unfold same_rest in R2; cbn in R2.
  destruct R2 as (Rsb & Rbl & Rlk & Rh & Rll & Rsem & Ric & Rout & Rctx).
  unfold release_log_lock. wp_prims.
  assert (uncached s2 (sb_log_start (c_sblock s))) as Hu2.
  { apply U2; [|by apply (log_start_not_slot s)|done].
    intros Hin%slots_snd. by apply (log_start_not_home s) in Hin. }
  apply write_header_wp; [exact Q2|st_simpl; by rewrite Rsb|]. intros ls x s3 Q3 V3 P3.
  wp_prim. apply wp_acquire_log_lock; [done|]. wp_prim.
  match goal with |- wp _ _ ?t => set (s4 := t) end.
  assert (c_header s4 = c_header s) as Eh by exact Rh.
  eapply wp_intro; [apply header_entries_run; rewrite Eh; cbn; by rewrite Rsb|]. cbn beta. rewrite Eh.
  wp_prim. eapply wp_mono; [apply (installs_wp _ s4); [exact Q3|apply Hh]|].
  intros [] s5 (Q5 & R5 & W5 & D5 & V5 & P5 & U5). unfold same_rest in R5; cbn in R5.
  rewrite Rsb, Rbl, Rh, Rsem, Ric, Rout, Rctx in R5.
  destruct R5 as (R5sb & R5bl & R5lk & R5h & R5ll & R5sem & R5ic & R5out & R5ctx).
  wp_prims. apply write_header_wp; [exact Q5|st_simpl; rewrite R5sb; by apply (U5 _ (log_start_not_home s Hh))|].
  intros ls' x' s6 Q6 V6 P6. wp_prim. apply wp_acquire_log_lock; [done|]. wp_prims.
  unfold post_all_log_sem. wp_prims. unfold s6. st_simpl. rewrite R5sem, R5out. split.
  { apply negb_true_iff, Z.leb_gt. lia. }
  wp_prims.
  assert (forall b, ~ log_area (c_sblock s) b -> view s4 b = view s b) as V4.
  { intros b Hb. transitivity (view s3 b); [done|]. rewrite V3; [apply V2|].
    - intros (e & -> & He)%list_elem_of_fmap. by apply (slot_in_log _ _ Hsb Hh) in He as [He _].
    - intros ->. apply Hb. unfold ls; cbn. rewrite Rsb. apply log_start_in_log. }
  assert (loop_writes id (view s4) (entries (c_header s)) = home_writes (c_header s) (view s)) as Ew.
  { apply loop_writes_ext. intros x0 Hx0. by apply V4, (ho_home _ _ Hh). }
  assert (c_writes s4 = (sb_log_start (c_sblock s), header_bytes (c_header s)) ::
            slot_writes (c_sblock s) (c_header s) (view s) ++ c_writes s) as W4.
  { unfold s4, s3, ls, x. st_simpl. by rewrite W2, Rsb, Rh. }
  assert (c_disk s4 = upd_disk (sb_log_start (c_sblock s)) (header_bytes (c_header s))
            (apply_writes (slot_writes (c_sblock s) (c_header s) (view s)) (c_disk s))) as D4.
  { unfold s4, s3, ls, x. st_simpl. by rewrite D2, Rsb, Rh. }
  rewrite Ew, W4 in W5. rewrite Ew, D4 in D5.
  assert (ls' = sb_log_start (c_sblock s)) as Els by exact (f_equal sb_log_start R5sb).
  assert (x' = header_bytes (empty_header (c_header s))) as Ex by (unfold x'; cbn; by rewrite R5h).
  unfold committed, commit_writes. st_simpl. split_and!; try done.
  - rewrite W5, Els, Ex. unfold commit_writes. by rewrite <-!app_assoc.
  - rewrite D5, Els, Ex. unfold commit_writes. by rewrite !apply_writes_app.
  - intros b Hb. rewrite <-(V4 b Hb), <-(V5 b). apply V6. intros ->. apply Hb. rewrite Els. apply log_start_in_log.
  - intros b. destruct (is_pinned s5 b) eqn:E; [|done]. apply P5 in E as [E Hb]. destruct Hb. apply Hp.
    rewrite <-E. symmetry. apply (P2 b).
  - intros p B HB. by apply (U5 _ (log_start_not_home s Hh) Hu2 p B).
  - by rewrite R5h.
  - lia.
Qed.

(** ** Recovery *)

(** The writes of recovery, the newest first. *)
Definition replay_writes (sb : SuperBlock) (d : Z -> list Z) : list (Z * list Z) :=
  loop_writes snd (fun e => d (log_block sb (fst e))) (slots (entries (disk_header sb d))).
Definition recovery_header (sb : SuperBlock) (d : Z -> list Z) : LogHeader :=
  mkLogHeader 0 (memset_block_no (hd_block_no (disk_header sb d))).
Definition recovery_writes (sb : SuperBlock) (d : Z -> list Z) : list (Z * list Z) :=
  [(sb_log_start sb, header_bytes (recovery_header sb d))] ++ replay_writes sb d.

Lemma boot_quiet sb d w : quiet (boot_state sb d w).
Proof.
  split_and!; [|done|done]. split; cbn; [constructor|set_solver| |done|].
  - intros p q B C [H _]. set_solver.
  - intros p B [H _]. set_solver.
Qed.

Lemma replay_loop_wp s :
  quiet s -> log_layout (c_sblock s) -> header_ok (c_sblock s) (c_header s) ->
  wp (for_each (slots (entries (c_header s))) (fun e => replay_one (fst e) (snd e)))
    (fun _ s' => copies_post (fun e => log_block (c_sblock s) (fst e)) snd s (slots (entries (c_header s))) s') s.
Proof.
  intros Hq Hsb Hh. apply copies_wp; [done| |].
  - intros x y Hx Hy ?. apply (home_not_slot _ _ Hsb Hh (snd y) x); [|done|done]. by apply (slots_spec _ _ Hsb Hh).
  - intros x s' Hx Q' R'. unfold same_rest in R'. destruct R' as (Esb & _).
    unfold replay_one. wp_prims. rewrite Esb. apply copy_block_wp; [done|]. intros ?.
    apply (home_not_slot _ _ Hsb Hh (snd x) x); [|done|done]. by apply (slots_spec _ _ Hsb Hh).
Qed.

Lemma init_bcache_wp sb d w :
  log_layout sb -> header_ok sb (disk_header sb d) ->
  wp (init_bcache sb) (fun _ s' => quiet s' /\ c_sblock s' = sb /\
    c_writes s' = recovery_writes sb d ++ w /\ c_disk s' = apply_writes (recovery_writes sb d) d /\
    (forall b, is_pinned s' b = false) /\ uncached s' (sb_log_start sb) /\
    c_header s' = recovery_header sb d /\ c_log_lock s' = false /\ c_bitmap_lock s' = false /\
    c_outstanding s' = 0 /\ c_iscommit s' = false /\ c_log_sem s' = 0 /\ c_ctx s' = ∅) (boot_state sb d w).
Proof.
  intros Hsb Hh. unfold init_bcache, read_header. wp_prims.
  match goal with |- wp _ _ ?t => set (s1 := t) end.
  assert (quiet s1) as Q1 by apply (boot_quiet sb d w).
  eapply wp_intro; [by apply (header_entries_run s1)|]. cbn beta.
  wp_prim. eapply wp_mono; [by apply (replay_loop_wp s1)|].
  intros [] s2 (Q2 & R2 & W2 & D2 & V2 & P2 & U2). unfold same_rest in R2; cbn in R2.
  destruct R2 as (Rsb & Rbl & Rlk & Rh & Rll & Rsem & Ric & Rout & Rctx).
  assert (uncached s2 (sb_log_start sb)) as Hu.
  { apply U2; [by apply (log_start_not_slot s1)| |intros p B [HB _]; set_solver].
    intros Hin%slots_snd. by apply (log_start_not_home s1) in Hin. }
  wp_prims. apply write_header_wp; [exact Q2|st_simpl; by rewrite Rsb|]. intros ls x s3 Q3 V3 P3.
  assert (ls = sb_log_start sb) as Els by exact (f_equal sb_log_start Rsb).
  assert (x = header_bytes (recovery_header sb d)) as Ex by (unfold x; cbn; by rewrite Rh).
  unfold s3. st_simpl. rewrite Els, Ex, D2, W2, Rh. split_and!; try done.
  - unfold s3 in Q3. st_simpl. rewrite <-D2, <-W2, <-Els, <-Ex. unfold x in *. exact Q3.
Qed.

(** What recovery makes of a disk. *)
Lemma recovery_home sb d i b :
  log_layout sb -> header_ok sb (disk_header sb d) -> (i, b) ∈ slots (entries (disk_header sb d)) ->
  apply_writes (recovery_writes sb d) d b = d (log_block sb i).
Proof.
  intros Hsb Hh Hin. unfold recovery_writes. rewrite apply_writes_app. cbn [apply_writes foldr fst snd].
  pose proof (slots_spec _ _ Hsb Hh _ Hin) as (_ & _ & Hb). cbn [snd] in Hb.
  rewrite upd_disk_ne by (intros ->; by apply (ho_home _ _ Hh) in Hb; apply Hb, log_start_in_log).
  apply apply_writes_in.
  - apply loop_writes_nodup. rewrite slots_homes. apply Hh.
  - by apply (loop_writes_in snd (fun e => d (log_block sb (fst e))) _ (i, b)).
Qed.

Lemma recovery_other sb d b :
  b ∉ entries (disk_header sb d) -> b <> sb_log_start sb -> apply_writes (recovery_writes sb d) d b = d b.
Proof.
  intros Hb Hls. unfold recovery_writes. rewrite apply_writes_app. cbn [apply_writes foldr fst snd].
  rewrite upd_disk_ne by done. apply apply_writes_out. unfold replay_writes. rewrite loop_writes_blocks.
  by intros ?%slots_snd.
Qed.

(** Headers read back from the disk. *)
Lemma disk_header_write sb h d :
  header_ok sb h -> disk_header sb (upd_disk (sb_log_start sb) (header_bytes h) d) = h.
Proof.
  intros Hh. unfold disk_header. rewrite upd_disk_eq. apply header_roundtrip; [|apply Hh|apply Hh].
  destruct (ho_num _ _ Hh). unfold is_u64. change LOG_MAX_SIZE with 63 in *. lia.
Qed.

Lemma empty_header_ok sb l :
  length l = Z.to_nat LOG_MAX_SIZE -> Forall is_u64 l -> header_ok sb (mkLogHeader 0 l).
Proof.
  intros H1 H2. split; cbn; [done|by change LOG_MAX_SIZE with 63|done|constructor|]. intros b Hb.
  unfold entries in Hb. cbn in Hb. set_solver.
Qed.

Lemma memset_block_no_u64 l :
  length l = Z.to_nat LOG_MAX_SIZE ->
  length (memset_block_no l) = Z.to_nat LOG_MAX_SIZE /\ Forall is_u64 (memset_block_no l).
Proof.
  intros Hl. unfold memset_block_no. split; [by rewrite length_bytes_u64s|].
  apply bytes_u64s_u64. unfold splice. rewrite !Forall_app. split_and!.
  - by apply Forall_take, u64s_bytes_is_byte.
  - apply Forall_replicate. unfold is_byte. lia.
  - apply Forall_drop, u64s_bytes_is_byte.
Qed.

(** Recovery leaves the cache ready. *)
Lemma init_bcache_ready sb d w :
  log_layout sb -> header_ok sb (disk_header sb d) ->
  wp (init_bcache sb) (fun _ s' => log_ready s' /\ c_sblock s' = sb /\
    (forall b, view s' b = apply_writes (recovery_writes sb d) d b) /\
    c_writes s' = recovery_writes sb d ++ w /\ c_log_lock s' = false /\
    c_outstanding s' = 0 /\ c_iscommit s' = false /\ c_log_sem s' = 0) (boot_state sb d w).
Proof.
  intros Hsb Hh. eapply wp_mono; [by apply init_bcache_wp|].
  intros [] s' (Q & Esb & W & D & P & U & Eh & Hl & _ & Ho & Hi & Hse & _).
  destruct (memset_block_no_u64 (hd_block_no (disk_header sb d))) as [M1 M2]; [apply Hh|].
  pose proof (empty_header_ok sb _ M1 M2) as Hok.
  split_and!; try done.
  - split; rewrite ?Esb, ?Eh; [done|done|done| |done|].
    + intros b Hb. by rewrite P in Hb.
    + rewrite D. unfold recovery_writes. rewrite apply_writes_app. cbn [apply_writes foldr fst snd].
      rewrite disk_header_write by done. done.
  - intros b. rewrite <-D. by apply quiet_clean.
Qed.

(** ** Crashes during a commit *)

Section crash.
Context (s : bcache_state).
Hypothesis Hs : log_ready s.

Abbreviation sb := (c_sblock s).
Abbreviation h := (c_header s).
Abbreviation d := (c_disk s).

(** Outside the log area, recovery from the disk [cd] shows the contents [v]. *)
Definition recovers_to (cd : Z -> list Z) (v : Z -> list Z) : Prop :=
  header_ok sb (disk_header sb cd) /\
  forall b, ~ log_area sb b -> apply_writes (recovery_writes sb cd) cd b = v b.

Lemma not_log_start b : ~ log_area sb b -> b <> sb_log_start sb.
Proof. intros H ->. apply H, log_start_in_log. Qed.

Lemma slot_writes_log b : b ∈ (slot_writes sb h (view s)).*1 -> log_area sb b /\ b <> sb_log_start sb.
Proof.
  intros Hb. apply loop_writes_blocks, list_elem_of_fmap in Hb as (e & -> & He).
  apply (slot_in_log _ _ (lr_layout _ Hs) (lr_header _ Hs) _ He).
Qed.

Lemma home_writes_home b : b ∈ (home_writes h (view s)).*1 -> b ∈ entries h.
Proof. intros Hb. apply loop_writes_blocks in Hb. by rewrite list_fmap_id in Hb. Qed.

(** Before the header is written, the homes are old and the log is empty. *)
Lemma crash_before newer older :
  slot_writes sb h (view s) = newer ++ older -> recovers_to (apply_writes older d) d.
Proof.
  intros E. assert (forall b, b ∈ older.*1 -> log_area sb b /\ b <> sb_log_start sb) as Ho.
  { intros b Hb. apply slot_writes_log. rewrite E, fmap_app, elem_of_app. by right. }
  assert (disk_header sb (apply_writes older d) = disk_header sb d) as Eh.
  { unfold disk_header. rewrite apply_writes_out; [done|]. intros Hb. by apply Ho in Hb as [_ Hb]. }
  destruct (lr_disk _ Hs) as [Hok Hn]. split; [by rewrite Eh|]. intros b Hb.
  rewrite recovery_other; [| |by apply not_log_start].
  - apply apply_writes_out. intros Hin. by apply Ho in Hin as [Hin _].
  - rewrite Eh. unfold entries. rewrite Hn. apply not_elem_of_nil.
Qed.

(** Once the header is written, the log has the contents of every home. *)
Lemma crash_after newer older :
  home_writes h (view s) = newer ++ older ->
  recovers_to (apply_writes (older ++ [(sb_log_start sb, header_bytes h)] ++ slot_writes sb h (view s)) d) (view s).
Proof.
  intros E. destruct Hs as [Hq Hsb Hh Hp _ _]. rewrite !apply_writes_app. cbn [apply_writes foldr fst snd].
  assert (forall b, b ∉ entries h -> b ∉ older.*1) as Ho.
  { intros b Hb Hin. apply Hb, home_writes_home. rewrite E, fmap_app, elem_of_app. by right. }
  set (d1 := apply_writes (slot_writes sb h (view s)) d). set (cd := apply_writes older _).
  assert (disk_header sb cd = h) as Eh.
  { unfold disk_header, cd. rewrite apply_writes_out by (by apply Ho, log_start_not_home).
    by apply disk_header_write. }
  split; [by rewrite Eh|]. intros b Hb. destruct (decide (b ∈ entries h)) as [Hin|Hin].
  - apply list_elem_of_lookup in Hin as [n Hn].
    assert ((Z.of_nat n, b) ∈ slots (entries h)) as Hsl by (apply elem_of_slots; eauto).
    rewrite (recovery_home _ _ (Z.of_nat n)) by (by rewrite ?Eh).
    destruct (slot_in_log _ _ Hsb Hh _ Hsl) as [Hlog Hls]. cbn [fst] in Hlog, Hls.
    unfold cd. rewrite apply_writes_out, upd_disk_ne.
    + apply apply_writes_in; [by apply loop_writes_nodup, slots_nodup|].
      by apply (loop_writes_in (fun e => log_block sb (fst e)) (fun e => view s (snd e)) _ (Z.of_nat n, b)).
    + done.
    + apply Ho. by intros ?%(ho_home _ _ Hh).
  - rewrite recovery_other by (rewrite ?Eh; by auto using not_log_start). unfold cd.
    rewrite apply_writes_out, upd_disk_ne by (auto using not_log_start). unfold d1.
    rewrite apply_writes_out by (by intros [? _]%slot_writes_log). symmetry. apply quiet_clean; [done|].
    destruct (is_pinned s b) eqn:Ep; [|done]. by apply Hp in Ep.
Qed.

(** After the last write, the homes are new and the log is empty. *)
Lemma crash_done : recovers_to (apply_writes (commit_writes sb h (view s)) d) (view s).
Proof.
  destruct (crash_after [] (home_writes h (view s)) eq_refl) as [Hok0 Hv]. destruct Hs as [Hq Hsb Hh Hp _ _].
  unfold commit_writes. rewrite (apply_writes_app [_]). cbn [apply_writes foldr fst snd].
  set (cd1 := apply_writes (home_writes h (view s) ++ _) d) in *.
  assert (header_ok sb (empty_header h)) as Hok by (apply empty_header_ok; apply Hh).
  split; [by rewrite disk_header_write|]. intros b Hb.
  rewrite recovery_other; [|rewrite disk_header_write by done; apply not_elem_of_nil|by apply not_log_start].
  rewrite upd_disk_ne by by apply not_log_start. unfold cd1.
  rewrite !apply_writes_app. cbn [apply_writes foldr fst snd].
  destruct (decide (b ∈ entries h)) as [Hin|Hin].
  - apply apply_writes_in; [apply loop_writes_nodup; rewrite list_fmap_id; apply Hh|].
    by apply (loop_writes_in id (view s)).
  - rewrite apply_writes_out, upd_disk_ne by (auto using not_log_start, home_writes_home).
    rewrite apply_writes_out by (by intros [? _]%slot_writes_log). symmetry. apply quiet_clean; [done|].
    destruct (is_pinned s b) eqn:Ep; [|done]. by apply Hp in Ep.
Qed.
End crash.

(** Every crash point of a commit. *)
Lemma crash_points s newer older :
  log_ready s -> commit_writes (c_sblock s) (c_header s) (view s) = newer ++ older ->
  recovers_to s (apply_writes older (c_disk s))
    (if bool_decide (length older <= length (entries (c_header s)))%nat then c_disk s else view s).
Proof.
  intros Hs E. unfold commit_writes in E.
  assert (length (slot_writes (c_sblock s) (c_header s) (view s)) = length (entries (c_header s))) as L.
  { unfold slot_writes, loop_writes, slots. by rewrite length_reverse, length_fmap, length_imap. }
  apply app_eq_inv in E as [(k & E & ->)|(k & -> & E)].
  { rewrite bool_decide_false by (rewrite !length_app; cbn; lia).
    destruct newer as [|w newer]; cbn in E; [subst k|injection E as <- E].
    - by apply crash_done.
    - symmetry in E. apply app_nil in E as [-> ->]. by apply (crash_after s Hs []). }
  apply app_eq_inv in E as [(k' & E & ->)|(k' & -> & E)].
  { rewrite bool_decide_false by (rewrite !length_app; cbn; lia). by apply (crash_after s Hs k). }
  apply app_eq_inv in E as [(k2 & E & ->)|(k2 & -> & E)].
  - destruct k' as [|w k']; cbn in E; [subst k2|injection E as <- E].
    + rewrite bool_decide_false by (rewrite !length_app; cbn; lia).
      by apply (crash_after s Hs (home_writes (c_header s) (view s)) []); rewrite app_nil_r.
    + symmetry in E. apply app_nil in E as [-> ->]. rewrite bool_decide_true by (cbn; lia).
      by apply (crash_before s Hs []).
  - rewrite bool_decide_true; [by apply (crash_before s Hs k2)|]. apply (f_equal length) in E.
    rewrite length_app in E. lia.
Qed.

Lemma committed_header s s' :
  log_ready s -> committed s s' ->
  header_ok (c_sblock s) (empty_header (c_header s)) /\
  disk_header (c_sblock s) (c_disk s') = empty_header (c_header s).
Proof.
  intros Hs (_ & _ & Hd & _). assert (header_ok (c_sblock s) (empty_header (c_header s))) as Hok
    by (apply empty_header_ok; apply (lr_header _ Hs)). split; [done|].
  rewrite Hd. unfold commit_writes. rewrite apply_writes_app. by apply disk_header_write.
Qed.

Lemma committed_ready s s' : log_ready s -> committed s s' -> log_ready s'.
Proof.
  intros Hs H. destruct (committed_header s s' Hs H) as [Hok Edh].
  destruct H as (Q & Hw & Hd & Hv & Hp & Hu & Hh & Hsb & _).
  split; rewrite ?Hsb, ?Hh, ?Edh; [done|apply Hs|done| |done|done]. intros b Hb. by rewrite Hp in Hb.
Qed.

(** Every crash point of recovery itself. *)
Lemma recovery_points sb d newer older b :
  log_layout sb -> header_ok sb (disk_header sb d) -> recovery_writes sb d = newer ++ older ->
  let cd := apply_writes older d in
  header_ok sb (disk_header sb cd) /\
  (~ log_area sb b -> apply_writes (recovery_writes sb cd) cd b = apply_writes (recovery_writes sb d) d b).
Proof.
  intros Hsb Hh E cd. unfold recovery_writes in E.
  destruct newer as [|w newer]; cbn [app] in E; [subst older|injection E as <- E].
  - assert (disk_header sb cd = recovery_header sb d) as Eh.
    { apply disk_header_write, empty_header_ok; apply memset_block_no_u64, Hh. }
    split; [rewrite Eh; apply empty_header_ok; apply memset_block_no_u64, Hh|]. intros Hb.
    rewrite recovery_other; [done|rewrite Eh; apply not_elem_of_nil|].
    intros ->. apply Hb, log_start_in_log.
  - assert (forall b', b' ∉ entries (disk_header sb d) -> cd b' = d b') as Ho.
    { intros b' Hb'. apply apply_writes_out. intros Hin. apply Hb', slots_snd.
      apply (loop_writes_blocks snd (fun e => d (log_block sb (fst e)))). fold (replay_writes sb d).
      rewrite E, fmap_app, elem_of_app. by right. }
    assert (disk_header sb cd = disk_header sb d) as Eh.
    { unfold disk_header. rewrite Ho; [done|]. intros Hin%(ho_home _ _ Hh). apply Hin, log_start_in_log. }
    split; [by rewrite Eh|]. intros Hb. destruct (decide (b ∈ entries (disk_header sb d))) as [Hin|Hin].
    + apply list_elem_of_lookup in Hin as [n Hn].
      assert ((Z.of_nat n, b) ∈ slots (entries (disk_header sb d))) as Hsl by (apply elem_of_slots; eauto).
      rewrite !(recovery_home _ _ (Z.of_nat n)) by (by rewrite ?Eh). apply Ho. intros Hin%(ho_home _ _ Hh).
      apply Hin. by apply (slot_in_log _ _ Hsb Hh _ Hsl).
    + assert (b <> sb_log_start sb) by (intros ->; apply Hb, log_start_in_log).
      rewrite !recovery_other by (by rewrite ?Eh). by apply Ho.
Qed.

(** ** Properties *)

(** C1: a commit is atomic with respect to crashes.  When the last operation of
    a group ends, [cache_end_op] returns; if the machine stops after any number
    of its device writes ([older], the newest first), then [init_bcache] on the
    disk left behind returns, and outside the log area the recovered contents
    are all old when the log header was not written yet, and all new otherwise. *)
Theorem commit_crash_atomic ctx s :
  log_ready s -> c_outstanding s = 1 -> c_iscommit s = false -> c_log_lock s = false -> 0 <= c_log_sem s ->
  exists s' ws, cache_end_op ctx s = Ret (tt, s') /\ c_writes s' = ws ++ c_writes s /\
    forall newer older w, ws = newer ++ older ->
    exists s'', init_bcache (c_sblock s) (boot_state (c_sblock s) (apply_writes older (c_disk s)) w) = Ret (tt, s'') /\
      log_ready s'' /\
      forall b, ~ log_area (c_sblock s) b ->
        view s'' b = if bool_decide (length older <= length (entries (c_header s)))%nat then c_disk s b else view s b.
Proof.
  intros Hs Ho Hic Hll Hsem.
  destruct (wp_run _ _ _ (end_op_wp ctx s Hs Ho Hic Hll Hsem)) as ([] & s' & Hr & (_ & Hw & _)).
  exists s', (commit_writes (c_sblock s) (c_header s) (view s)). split_and!; [done|done|].
  intros newer older w E. destruct (crash_points s newer older Hs E) as [Hok Hv].
  destruct (wp_run _ _ _ (init_bcache_ready (c_sblock s) (apply_writes older (c_disk s)) w (lr_layout _ Hs) Hok))
    as ([] & s'' & Hr' & Hready & _ & Hview & _).
  exists s''. split_and!; [done|done|]. intros b Hb. rewrite Hview, Hv by done. by case_bool_decide.
Qed.

(** C3: recovery survives crashes.  [init_bcache] on a disk with a valid log
    header returns; if the machine stops after any number of its writes and
    [init_bcache] runs again, the contents outside the log area are the same as
    if the first recovery had not been interrupted. *)
Theorem recovery_crash_idempotent sb d w :
  log_layout sb -> header_ok sb (disk_header sb d) ->
  exists s1 ws, init_bcache sb (boot_state sb d w) = Ret (tt, s1) /\ c_writes s1 = ws ++ w /\
    forall newer older w', ws = newer ++ older ->
    exists s2, init_bcache sb (boot_state sb (apply_writes older d) w') = Ret (tt, s2) /\
      forall b, ~ log_area sb b -> view s2 b = view s1 b.
Proof.
  intros Hsb Hh. destruct (wp_run _ _ _ (init_bcache_ready sb d w Hsb Hh)) as ([] & s1 & Hr & _ & _ & Hv & Hw & _).
  exists s1, (recovery_writes sb d). split_and!; [done|done|]. intros newer older w' E.
  destruct (recovery_points sb d newer older 0 Hsb Hh E) as [Hok _].
  destruct (wp_run _ _ _ (init_bcache_ready sb _ w' Hsb Hok)) as ([] & s2 & Hr2 & _ & _ & Hv2 & _).
  exists s2. split; [done|]. intros b Hb. rewrite Hv, Hv2.
  by apply (recovery_points sb d newer older b Hsb Hh E).
Qed.

(** C4: the commit installs the transaction.  After the last [cache_end_op]
    every block outside the log area is on the device with the contents the
    clients saw, the log is empty on the device and in memory, nothing is
    pinned, and the cache is ready for the next group. *)
Theorem end_op_installs ctx s :
  log_ready s -> c_outstanding s = 1 -> c_iscommit s = false -> c_log_lock s = false -> 0 <= c_log_sem s ->
  exists s', cache_end_op ctx s = Ret (tt, s') /\ log_ready s' /\
    (forall b, ~ log_area (c_sblock s) b -> c_disk s' b = view s b /\ view s' b = view s b) /\
    (forall b, is_pinned s' b = false) /\ hd_num_blocks (c_header s') = 0 /\
    hd_num_blocks (disk_header (c_sblock s') (c_disk s')) = 0 /\
    c_outstanding s' = 0 /\ c_iscommit s' = false /\ c_log_lock s' = false.
Proof.
  intros Hs Ho Hic Hll Hsem.
  destruct (wp_run _ _ _ (end_op_wp ctx s Hs Ho Hic Hll Hsem)) as ([] & s' & Hr & H).
  destruct (committed_header s s' Hs H) as [_ Edh]. exists s'. split; [done|].
  split; [by apply (committed_ready s)|]. destruct H as (Q & Hw & Hd & Hv & Hp & Hu & Hh & Hsb & Hl & Hse & Hi & Hout & _).
  split; [|by rewrite Hh, Hsb, Edh]. intros b Hb. rewrite <-(Hv b Hb). split; [|done].
  symmetry. by apply quiet_clean.
Qed.

(** ** A concrete group of operations *)

Definition demo_sb : SuperBlock := mkSuperBlock 1000 900 200 64 2 66 92.
Definition demo_disk : Z -> list Z := fun _ => replicate 512 0.
Definition demo_block : Block := mkBlock 100 false true 1 true (replicate 512 7).
Definition demo_state : bcache_state :=
  mkBcache demo_sb demo_disk [] false false {[ 1 := demo_block ]} [1] 1
    (mkLogHeader 1 (100 :: replicate 62 0)) false 0 false 1 {[ 5 := 1 ]}.

Lemma demo_disk_header : disk_header demo_sb demo_disk = mkLogHeader 0 (replicate 63 0).
Proof. vm_compute. reflexivity. Qed.

Lemma demo_header_ok : header_ok demo_sb (disk_header demo_sb demo_disk).
Proof.
  rewrite demo_disk_header. apply empty_header_ok; [done|]. apply Forall_replicate. unfold is_u64. lia.
Qed.

Lemma demo_find b :
  find_no (c_head demo_state) (c_blk demo_state) b = if 100 =? b then Some demo_block else None.
Proof. cbn [demo_state c_head c_blk find_no]. by rewrite lookup_singleton_eq. Qed.

Lemma demo_ready : log_ready demo_state.
Proof.
  assert (forall p B, mem demo_state p B -> p = 1 /\ B = demo_block) as Hm.
  { intros p B [Hp HB]. cbn in Hp, HB. apply list_elem_of_singleton in Hp as ->.
    rewrite lookup_singleton_eq in HB. by simplify_eq. }
  split.
  - split_and!; [|done|].
    + split; cbn; [apply NoDup_singleton| | |done|].
      * intros p ->%list_elem_of_singleton. rewrite lookup_singleton_eq. eauto.
      * intros p q B C HB HC _. apply Hm in HB as [-> _], HC as [-> _]. done.
      * intros p B HB. apply Hm in HB as [-> ->]. split; [done|]. discriminate.
    + intros b. unfold is_held. rewrite demo_find. by destruct (100 =? b).
  - split; vm_compute; [discriminate|reflexivity].
  - split; cbn [demo_state c_sblock c_header hd_num_blocks hd_block_no]; [done|by change LOG_MAX_SIZE with 63| | |].
    + apply Forall_cons. split; [unfold is_u64; lia|apply Forall_replicate; unfold is_u64; lia].
    + apply NoDup_singleton.
    + intros b ->%list_elem_of_singleton. unfold log_area. change LOG_MAX_SIZE with 63. cbn. lia.
  - intros b. unfold is_pinned. rewrite demo_find. destruct (Z.eqb_spec 100 b) as [<-|]; [|done]. intros _. left.
  - intros p B HB. apply Hm in HB as [_ ->]. done.
  - split; [apply demo_header_ok|]. change (c_sblock demo_state) with demo_sb. 
    change (c_disk demo_state) with demo_disk. by rewrite demo_disk_header.
Qed.

Lemma commit_crash_atomic_witness :
  log_ready demo_state /\ exists s' ws, cache_end_op 5 demo_state = Ret (tt, s') /\ c_writes s' = ws ++ [].
Proof.
  split; [exact demo_ready|].
  destruct (commit_crash_atomic 5 demo_state demo_ready eq_refl eq_refl eq_refl (Z.le_refl 0)) as (s' & ws & H1 & H2 & _).
  exists s', ws. split; [exact H1|exact H2].
Defined.

(** A disk with a committed log of one block: recovery makes two writes, and is
    cut after the first. *)
Definition committed_disk : Z -> list Z := fun b =>
  if b =? 2 then header_bytes (mkLogHeader 1 (100 :: replicate 62 0)) else if b =? 3 then replicate 512 7 else replicate 512 0.
Lemma committed_disk_header : disk_header demo_sb committed_disk = mkLogHeader 1 (100 :: replicate 62 0).
Proof. vm_compute. reflexivity. Qed.
Lemma committed_header_ok : header_ok demo_sb (disk_header demo_sb committed_disk).
Proof. rewrite committed_disk_header. exact (lr_header _ demo_ready). Qed.

Lemma recovery_crash_idempotent_witness :
  exists s1 s2 x y, init_bcache demo_sb (boot_state demo_sb committed_disk []) = Ret (tt, s1) /\ c_writes s1 = [x; y] /\
    init_bcache demo_sb (boot_state demo_sb (apply_writes [y] committed_disk) []) = Ret (tt, s2) /\ view s2 100 = view s1 100.
Proof.
  destruct (recovery_crash_idempotent demo_sb committed_disk [] (lr_layout _ demo_ready) committed_header_ok) as (s1 & ws & H1 & H2 & H3).
  assert (length ws = 2%nat) as Hl.
  { assert (match init_bcache demo_sb (boot_state demo_sb committed_disk []) with Ret (_, s) => length (c_writes s) = 2%nat | _ => False end) as H by (vm_compute; reflexivity).
    rewrite H1, H2, app_nil_r in H. exact H. }
  destruct ws as [|x [|y [|z ws]]]; try discriminate Hl. destruct (H3 [x] [y] [] eq_refl) as (s2 & H4 & H5).
  exists s1, s2, x, y. split; [exact H1|]. split; [rewrite H2; reflexivity|]. split; [exact H4|]. apply H5. intros [_ H]. apply H. reflexivity.
Defined.

Lemma end_op_installs_witness :
  exists s', cache_end_op 5 demo_state = Ret (tt, s') /\ c_disk s' 100 = replicate 512 7.
Proof.
  destruct (end_op_installs 5 demo_state demo_ready eq_refl eq_refl eq_refl (Z.le_refl 0)) as (s' & H1 & _ & H2 & _).
  exists s'. split; [exact H1|]. destruct (H2 100) as [H3 _].
  - intros [_ H]. apply H. reflexivity.
  - rewrite H3. reflexivity.
Defined.
