(* ===== verification/CacheClient.v ===== *)
(** * The protocol of the cache's clients

    The calls that several operations make on the shared cache, one after the
    other in any order, as a step relation on the cache and the list of the
    contexts between their [cache_begin_op] and their [cache_end_op]; the
    invariant of the log holds in every reachable state. *)

From Stdlib Require Import ZArith Lia.
From stdpp Require Import base tactics numbers gmap list.
From S2P Require Import Prelude FsDefs Cache CacheProofs CacheCrash.

Local Open Scope Z_scope.

(** ** The invariant of the log *)

(** The log entries the operation [ctx] may still add. *)
Definition remaining (m : gmap Z Z) (ctx : Z) : Z := OP_MAX_NUM_BLOCKS - default 0 (m !! ctx).

Definition reserved (m : gmap Z Z) (A : list Z) : Z := foldr (fun c n => remaining m c + n) 0 A.

Record log_inv (A : list Z) (s : bcache_state) : Prop := {
  li_wf : cache_wf s;
  li_lock : c_lock s = false;
  li_log_lock : c_log_lock s = false;
  li_iscommit : c_iscommit s = false;
  li_sem : 0 <= c_log_sem s;
  li_layout : log_layout (c_sblock s);
  li_header : header_ok (c_sblock s) (c_header s);
  li_pinned : forall b, is_pinned s b = true -> b ∈ entries (c_header s);
  li_uncached : uncached s (sb_log_start (c_sblock s));
  li_disk : header_ok (c_sblock s) (disk_header (c_sblock s) (c_disk s)) /\
            hd_num_blocks (disk_header (c_sblock s) (c_disk s)) = 0;
  li_active : NoDup A;
  li_outstanding : c_outstanding s = Z.of_nat (length A);
  li_ctx : forall c, c ∈ A -> exists rm, c_ctx s !! c = Some rm /\ 0 <= rm <= OP_MAX_NUM_BLOCKS;
  li_space : hd_num_blocks (c_header s) + reserved (c_ctx s) A <= LOG_MAX_SIZE }.

(** A state with no block in use is ready for a commit. *)
Lemma log_inv_ready A s : log_inv A s -> (forall b, is_held s b = false) -> log_ready s.
Proof. intros [] Hh. split; try done. Qed.

Lemma log_ready_inv s :
  log_ready s -> c_log_lock s = false -> c_iscommit s = false -> 0 <= c_log_sem s ->
  c_outstanding s = 0 -> log_inv [] s.
Proof.
  intros [(W & Hl & _) H1 H2 H3 H4 H5] ? ? ? ?. split; try done.
  - constructor.
  - set_solver.
  - cbn. pose proof (ho_num _ _ H2). lia.
Qed.

Lemma committed_inv s s' : log_ready s -> 0 <= c_log_sem s -> committed s s' -> log_inv [] s'.
Proof.
  intros Hs Hsem H. pose proof (committed_ready s s' Hs H) as Hs'.
  destruct H as (_ & _ & _ & _ & _ & _ & _ & _ & Hl & Hse & Hi & Ho & _). apply log_ready_inv; try done. by rewrite Hse.
Qed.

Lemma reserved_ext m m' A : (forall c, c ∈ A -> m !! c = m' !! c) -> reserved m A = reserved m' A.
Proof.
  induction A as [|c A IH]; [done|]. intros H. cbn [reserved foldr]. fold (reserved m A) (reserved m' A).
  rewrite IH by (intros c' Hc'; apply H; by right). unfold remaining. by rewrite (H c) by left.
Qed.

Lemma reserved_perm m A A' : A ≡ₚ A' -> reserved m A = reserved m A'.
Proof. induction 1 as [| | |]; cbn in *; unfold reserved in *; cbn; lia. Qed.

Lemma reserved_cons m c A : reserved m (c :: A) = remaining m c + reserved m A.
Proof. done. Qed.

Lemma reserved_nonneg m A :
  (forall c, c ∈ A -> exists rm, m !! c = Some rm /\ 0 <= rm <= OP_MAX_NUM_BLOCKS) ->
  0 <= reserved m A <= OP_MAX_NUM_BLOCKS * Z.of_nat (length A).
Proof.
  induction A as [|c A IH]; intros H; [cbn; lia|]. rewrite reserved_cons. cbn [length].
  destruct (H c) as (rm & Hrm & Hr); [left|]. unfold remaining. rewrite Hrm. cbn.
  specialize (IH (fun c' Hc' => H c' (list_elem_of_further _ _ _ Hc'))). change OP_MAX_NUM_BLOCKS with 10 in *. lia.
Qed.

(** What a step on the blocks other than their pins and the log preserves. *)
Lemma log_inv_step A b s s' :
  log_inv A s -> step_on b s s' -> same_dev s s' -> ~ log_area (c_sblock s) b ->
  (is_pinned s' b = true -> b ∈ entries (c_header s)) -> log_inv A s'.
Proof.
  intros [] (W & R & V & _ & U) [D _] Hb Hp.
  destruct R as (Rsb & Rbl & Rlk & Rh & Rll & Rsem & Ric & Rout & Rctx).
  split; rewrite ?Rsb, ?Rlk, ?Rh, ?Rll, ?Rsem, ?Ric, ?Rout, ?Rctx, ?D; try done.
  - intros b' Hb'. destruct (decide (b' = b)) as [->|Hne]; [by apply Hp|].
    destruct (V b' Hne) as (_ & E & _). apply li_pinned0. congruence.
  - apply U; [|done]. intros E. apply Hb. rewrite <-E. apply log_start_in_log.
Qed.

(** ** Synchronisation *)

(** The header after [header.block_no[header.num_blocks++] = b]. *)
Definition header_add (h : LogHeader) (b : Z) : LogHeader :=
  mkLogHeader (u64 (hd_num_blocks h + 1)) (<[Z.to_nat (hd_num_blocks h) := b]> (hd_block_no h)).

Lemma header_add_num sb h b : header_ok sb h -> hd_num_blocks (header_add h b) = hd_num_blocks h + 1.
Proof. intros []. cbn. change LOG_MAX_SIZE with 63 in *. by rewrite u64_small by lia. Qed.

Lemma header_add_entries sb h b :
  header_ok sb h -> hd_num_blocks h < LOG_MAX_SIZE -> entries (header_add h b) = entries h ++ [b].
Proof.
  intros Hok Hlt. unfold entries. rewrite (header_add_num sb) by done. destruct Hok as [Hl Hn _ _ _].
  change LOG_MAX_SIZE with 63 in *.
  replace (Z.to_nat (hd_num_blocks h + 1)) with (S (Z.to_nat (hd_num_blocks h))) by lia. cbn [header_add hd_block_no].
  rewrite (take_S_r _ _ b) by (apply list_lookup_insert_eq; lia). by rewrite take_insert_ge by lia.
Qed.

Lemma header_add_ok sb h b :
  header_ok sb h -> hd_num_blocks h < LOG_MAX_SIZE -> b ∉ entries h -> ~ log_area sb b -> is_u64 b ->
  header_ok sb (header_add h b).
Proof.
  intros Hok Hlt Hb Hlog Hu. pose proof (header_add_entries sb h b Hok Hlt) as E.
  pose proof (header_add_num sb h b Hok) as En. destruct Hok as [Hl Hn Hu64 Hnd Hh].
  split; rewrite ?E, ?En.
  - cbn. by rewrite length_insert.
  - lia.
  - cbn. by apply Forall_insert.
  - apply NoDup_app. split_and!; [done| |apply NoDup_singleton]. intros c Hc ->%list_elem_of_singleton. done.
  - intros c [Hc| ->%list_elem_of_singleton]%elem_of_app; auto.
Qed.

(** The log invariant when block [b] enters the log on behalf of [ctx]. *)
Lemma log_inv_add A ctx rm b s s1 :
  log_inv A s -> step_on b s s1 -> same_dev s s1 -> is_u64 b -> ~ log_area (c_sblock s) b ->
  b ∉ entries (c_header s) -> ctx ∈ A -> c_ctx s !! ctx = Some rm -> rm < OP_MAX_NUM_BLOCKS ->
  hd_num_blocks (c_header s) < LOG_MAX_SIZE /\
  log_inv A (set_ctx (<[ctx := rm + 1]> (c_ctx s)) (set_header (header_add (c_header s) b) s1)).
Proof.
  intros Hinv (W & R & V & _ & U) [D _] Hu Hlog Hb HA Hrm Hlt.
  pose proof (li_space _ _ Hinv) as Hsp. pose proof (li_active _ _ Hinv) as Hnd.
  pose proof (reserved_nonneg _ _ (li_ctx _ _ Hinv)) as Hrn.
  apply elem_of_Permutation in HA as [A' HA].
  assert (forall c, c ∈ A' -> exists rm, c_ctx s !! c = Some rm /\ 0 <= rm <= OP_MAX_NUM_BLOCKS) as HA'.
  { intros c Hc. apply (li_ctx _ _ Hinv). rewrite HA. by right. }
  rewrite HA in Hnd. apply NoDup_cons in Hnd as [Hc Hnd'].
  assert (reserved (c_ctx s) A = OP_MAX_NUM_BLOCKS - rm + reserved (c_ctx s) A') as Hr.
  { rewrite (reserved_perm _ _ _ HA), reserved_cons. unfold remaining. by rewrite Hrm. }
  pose proof (reserved_nonneg _ _ HA') as Hrn'.
  assert (hd_num_blocks (c_header s) < LOG_MAX_SIZE) as Hnum by lia. split; [done|].
  pose proof (header_add_entries _ _ b (li_header _ _ Hinv) Hnum) as He.
  destruct (li_ctx _ _ Hinv ctx) as (rm' & Hrm' & Hrange); [rewrite HA; left|]. simplify_eq.
  destruct R as (Rsb & Rbl & Rlk & Rh & Rll & Rsem & Ric & Rout & Rctx). destruct Hinv.
  split; st_simpl; rewrite ?Rsb, ?Rlk, ?Rll, ?Rsem, ?Ric, ?Rout, ?D; try done.
  - by apply header_add_ok.
  - intros b' Hb'. rewrite He, elem_of_app. destruct (decide (b' = b)) as [->|Hne]; [right; left|left].
    destruct (V b' Hne) as (_ & E & _). apply li_pinned0. rewrite <-E. exact Hb'.
  - apply U; [|done]. intros E. apply Hlog. rewrite <-E. apply log_start_in_log.
  - intros c HcA. destruct (decide (c = ctx)) as [->|Hne].
    + exists (rm + 1). rewrite lookup_insert_eq. split; [done|]. lia.
    + rewrite lookup_insert_ne by done. by apply li_ctx0.
  - rewrite (header_add_num (c_sblock s)) by done. rewrite (reserved_perm _ _ _ HA), reserved_cons.
    unfold remaining. rewrite lookup_insert_eq. cbn [from_option id].
    rewrite (reserved_ext _ (c_ctx s) A'); [lia|]. intros c HcA'. rewrite lookup_insert_ne; [done|]. congruence.
Qed.

(** Block [b] is in the log after a step that [ctx] made, which was charged for
    it when it was not there before. *)
Definition logs (ctx b : Z) (s s' : bcache_state) : Prop :=
  if decide (b ∈ entries (c_header s))
  then entries (c_header s') = entries (c_header s) /\ c_ctx s' !! ctx = c_ctx s !! ctx
  else entries (c_header s') = entries (c_header s) ++ [b] /\
       c_ctx s' !! ctx = (fun rm => rm + 1) <$> c_ctx s !! ctx.

Definition can_log (ctx b : Z) (s : bcache_state) : Prop :=
  b ∈ entries (c_header s) \/ exists rm, c_ctx s !! ctx = Some rm /\ rm < OP_MAX_NUM_BLOCKS.

Lemma logs_elem ctx b c s s' : logs ctx b s s' -> c ∈ entries (c_header s') <-> c = b \/ c ∈ entries (c_header s).
Proof. unfold logs. case_decide; intros [-> _]; [|set_solver]. split; [by right|]. by intros [->|]. Qed.

Lemma cache_sync_wp ctx p b pin x A s :
  log_inv A s -> ctx <> 0 -> ctx ∈ A -> holds s p b pin x -> is_u64 b -> ~ log_area (c_sblock s) b ->
  can_log ctx b s ->
  wp (cache_sync ctx p) (fun _ s' => log_inv A s' /\ holds s' p b true x /\ logs ctx b s s' /\
    same_dev s s' /\ c_sblock s' = c_sblock s /\ c_bitmap_lock s' = c_bitmap_lock s /\
    (forall q b' pin' y, b' <> b -> holds s q b' pin' y -> holds s' q b' pin' y) /\
    (forall b', b' <> b -> view s' b' = view s b' /\ is_held s' b' = is_held s b')) s.
Proof.
  intros Hinv Hctx HA Hh Hu Hlog Hrm. pose proof (li_header _ _ Hinv) as Hok.
  unfold cache_sync. rewrite (proj2 (Z.eqb_neq _ _) Hctx).
  wp_prim. apply wp_acquire_log_lock; [apply Hinv|]. set (s0 := set_log true _ _ _ s).
  wp_prim. eapply wp_mono; [apply (set_pinned_step p b pin x true s0); [apply Hinv|exact Hh]|].
  intros [] s1 ((W1 & R1 & V1 & K1 & U1) & D1 & H1).
  destruct R1 as (Rsb & Rbl & Rlk & Rh & Rll & Rsem & Ric & Rout & Rctx). cbn in Rsb, Rh, Rsem, Ric, Rout, Rctx.
  destruct (holds_blk _ _ _ _ _ W1 H1) as (B & HB & HbB & _).
  set (s2 := set_log false (c_log_sem s1) (c_iscommit s1) (c_outstanding s1) s1).
  assert (step_on b s s2) as S2.
  { split_and!; [done| |done|done|done]. unfold same_rest, s2; cbn. rewrite (li_log_lock _ _ Hinv). naive_solver. }
  wp_prim. eapply wp_load_blk; [done|]. wp_prim.
  eapply wp_intro; [apply header_entries_run; by rewrite Rsb, Rh|]. cbn beta. rewrite HbB, Rh.
  case_bool_decide as Hin.
  - unfold release_log_lock. wp_prims. split; [|split; [done|split; [|split_and!; [exact D1|done|done|exact K1|intros b' Hb'; split; by apply V1]]]].
    2: { unfold logs. rewrite decide_True by done. st_simpl. by rewrite Rh, Rctx. }
    apply (log_inv_step A b s s2 Hinv S2 D1 Hlog). done.
  - destruct Hrm as [Hrm|(rm & Hrm & Hlt)]; [done|].
    destruct (log_inv_add A ctx rm b s s2 Hinv S2 D1 Hu Hlog Hin HA Hrm Hlt) as [Hnum Hinv'].
    wp_prims. apply wp_some_or_ub. exists rm. cbn [id]. rewrite Rctx. split; [done|]. rewrite Rh.
    rewrite (proj2 (Z.leb_gt _ _) Hlt), (proj2 (Z.leb_gt _ _) Hnum). cbn [orb]. unfold release_log_lock. wp_prims.
    split; [exact Hinv'|split; [done|split; [|split_and!; [exact D1|done|done|exact K1|intros b' Hb'; split; by apply V1]]]].
    unfold logs. rewrite decide_False by done. st_simpl. rewrite lookup_insert_eq, Hrm. split; [|done].
    exact (header_add_entries _ _ b Hok Hnum).
Qed.

(** ** Beginning and ending an operation *)

Lemma log_full_spec A s :
  log_inv A s -> Z.of_nat (length A) < 2 ^ 32 ->
  log_full s = (LOG_MAX_SIZE <? hd_num_blocks (c_header s) + (Z.of_nat (length A) + 1) * OP_MAX_NUM_BLOCKS).
Proof.
  intros Hinv Hlen. unfold log_full. rewrite (li_outstanding _ _ Hinv).
  pose proof (ho_num _ _ (li_header _ _ Hinv)). change LOG_MAX_SIZE with 63 in *. change OP_MAX_NUM_BLOCKS with 10.
  rewrite (u64_small (Z.of_nat (length A) + 1)) by lia.
  rewrite (u64_small (_ * 10)) by lia. by rewrite u64_small by lia.
Qed.

Lemma log_inv_len A s : log_inv A s -> log_full s = false -> Z.of_nat (length A) < 2 ^ 32 ->
  hd_num_blocks (c_header s) + (Z.of_nat (length A) + 1) * OP_MAX_NUM_BLOCKS <= LOG_MAX_SIZE.
Proof. intros Hinv Hf Hlen. rewrite (log_full_spec A s Hinv Hlen) in Hf. lia. Qed.

Lemma begin_op_wp ctx A s :
  log_inv A s -> ctx <> 0 -> ctx ∉ A -> Z.of_nat (length A) < 2 ^ 32 -> log_full s = false ->
  wp (cache_begin_op ctx) (fun _ s' => log_inv (ctx :: A) s' /\ c_ctx s' !! ctx = Some 0 /\
    c_header s' = c_header s /\ c_sblock s' = c_sblock s /\
    c_blk s' = c_blk s /\ c_head s' = c_head s /\ same_dev s s') s.
Proof.
  intros Hinv Hc HA Hlen Hfull. pose proof (log_inv_len A s Hinv Hfull Hlen) as Hsp.
  pose proof (reserved_nonneg _ _ (li_ctx _ _ Hinv)) as Hres.
  unfold cache_begin_op. wp_prim. apply wp_acquire_log_lock; [apply Hinv|].
  rewrite (proj2 (Z.eqb_neq _ _) Hc). wp_prims. cbn [begin_wait id]. wp_prims. st_simpl.
  rewrite (li_iscommit _ _ Hinv). cbn [orb]. change (log_full (set_ctx _ _)) with (log_full s). rewrite Hfull.
  unfold release_log_lock. wp_prims. st_simpl.
  destruct Hinv. split_and!; [|by rewrite lookup_insert_eq|done|done|done|done|done].
  split; st_simpl; try done.
  - by apply NoDup_cons.
  - rewrite li_outstanding0. cbn [length]. rewrite u64_small by lia. lia.
  - intros c [->|Hin]%elem_of_cons.
    + exists 0. rewrite lookup_insert_eq. change OP_MAX_NUM_BLOCKS with 10. split; [done|lia].
    + rewrite lookup_insert_ne by congruence. by apply li_ctx0.
  - rewrite reserved_cons. unfold remaining. rewrite lookup_insert_eq. cbn [from_option id].
    rewrite (reserved_ext _ (c_ctx s)); [|intros c Hin; rewrite lookup_insert_ne; [done|congruence]].
    change OP_MAX_NUM_BLOCKS with 10 in *. change LOG_MAX_SIZE with 63 in *. lia.
Qed.

(** The end of an operation that is not the last of its group. *)
Lemma end_op_not_last_wp ctx A s :
  log_inv (ctx :: A) s -> A <> [] -> Z.of_nat (length A) < 2 ^ 32 ->
  wp (cache_end_op ctx) (fun _ s' => log_inv A s' /\ c_log_sem s' = c_log_sem s + 1 /\
    c_header s' = c_header s /\ c_sblock s' = c_sblock s /\
    c_blk s' = c_blk s /\ c_head s' = c_head s /\ same_dev s s') s.
Proof.
  intros Hinv HA Hlen. assert (0 < Z.of_nat (length A)) as Hpos by (destruct A; cbn; [done|lia]).
  unfold cache_end_op. wp_prim. apply wp_acquire_log_lock; [apply Hinv|]. wp_prims. st_simpl.
  rewrite (li_iscommit _ _ Hinv). cbn beta iota. wp_prims. st_simpl.
  assert (u64 (c_outstanding s - 1) = Z.of_nat (length A)) as Eo.
  { rewrite (li_outstanding _ _ Hinv). cbn [length]. rewrite u64_small; lia. }
  rewrite Eo, (proj2 (Z.ltb_lt _ _) Hpos). unfold release_log_lock. wp_prims. st_simpl.
  pose proof (reserved_nonneg (c_ctx s) [ctx]) as Hc. destruct Hinv.
  split_and!; try done. split; st_simpl; try done.
  - lia.
  - by apply NoDup_cons in li_active0 as [_ ?].
  - intros c Hin. apply li_ctx0. by right.
  - rewrite reserved_cons in li_space0. destruct (li_ctx0 ctx) as (rm & Hrm & Hr); [left|].
    unfold remaining in li_space0. rewrite Hrm in li_space0. cbn in li_space0. lia.
Qed.

(** ** The protocol *)

(** The contexts form a set: the order of the list does not matter. *)
Lemma log_inv_perm A A' s : A ≡ₚ A' -> log_inv A s -> log_inv A' s.
Proof.
  intros HP []. split; try done.
  - by rewrite <-HP.
  - by rewrite <-HP.
  - intros c Hc. apply li_ctx0. by rewrite HP.
  - by rewrite <-(reserved_perm _ _ _ HP).
Qed.

(** One call of a client, with [A] the operations that run.  Any of them can end
    at any time.  The clients follow [cache.h]: a block is written while it is
    held, and written blocks are handed to [cache_sync] before they are released;
    when the last operation ends, and commits, no block is held. *)
Inductive client_step : list Z * bcache_state -> list Z * bcache_state -> Prop :=
| step_begin ctx A s s' :
    ctx <> 0 -> ctx ∉ A -> Z.of_nat (length A) < 2 ^ 32 ->
    cache_begin_op ctx s = Ret (tt, s') -> client_step (A, s) (ctx :: A, s')
| step_acquire b p A s s' :
    ~ log_area (c_sblock s) b -> is_held s b = false ->
    cache_acquire b s = Ret (p, s') -> client_step (A, s) (A, s')
| step_write p b pin x y A s s' :
    holds s p b pin x -> ~ log_area (c_sblock s) b ->
    set_data p y s = Ret (tt, s') -> client_step (A, s) (A, s')
| step_sync ctx p b pin x A s s' :
    ctx ∈ A -> ctx <> 0 -> holds s p b pin x -> is_u64 b -> ~ log_area (c_sblock s) b ->
    cache_sync ctx p s = Ret (tt, s') -> client_step (A, s) (A, s')
| step_release p b pin x A s s' :
    holds s p b pin x -> ~ log_area (c_sblock s) b -> (pin = false -> x = c_disk s b) ->
    cache_release p s = Ret (tt, s') -> client_step (A, s) (A, s')
| step_end ctx A A' s s' :
    A ≡ₚ ctx :: A' -> Z.of_nat (length A') < 2 ^ 32 -> (A' = [] -> forall b, is_held s b = false) ->
    cache_end_op ctx s = Ret (tt, s') -> client_step (A, s) (A', s').

(** With a full log, [cache_begin_op] waits. *)
Lemma begin_wait_full n s : c_log_lock s = true -> log_full s = true -> begin_wait n s = Prelude.Block.
Proof.
  revert s. induction n as [|n IH]; intros s Hl Hf; [done|]. cbn [begin_wait].
  rewrite (bind_ret _ _ s (id s) s) by done. cbn [id]. rewrite Hf, orb_true_r.
  unfold release_log_lock. rewrite (bind_ret _ _ s tt _ eq_refl).
  destruct (c_log_sem s <=? 0); [done|].
  set (s1 := set_log false _ _ _ s).
  rewrite (bind_ret _ _ s1 tt (set_log false (c_log_sem s - 1) (c_iscommit s) (c_outstanding s) s1)) by done.
  rewrite (bind_ret acquire_log_lock _ _ tt (set_log true (c_log_sem s - 1) (c_iscommit s) (c_outstanding s) s1)) by done.
  by apply IH.
Qed.

Lemma begin_op_full ctx A s : log_inv A s -> ctx <> 0 -> log_full s = true -> cache_begin_op ctx s = Prelude.Block.
Proof.
  intros Hinv Hc Hf. unfold cache_begin_op.
  rewrite (bind_ret acquire_log_lock _ s tt (set_log true (c_log_sem s) (c_iscommit s) (c_outstanding s) s))
    by (unfold acquire_log_lock, mbind, M_bind, gets; by rewrite (li_log_lock _ _ Hinv)).
  rewrite (proj2 (Z.eqb_neq _ _) Hc).
  set (s1 := set_log true _ _ _ s). set (s2 := set_ctx (<[ctx := 0]> (c_ctx s)) s1).
  rewrite (bind_ret (modify _) _ s1 tt s2) by done. rewrite (bind_ret (gets id) _ s2 s2 s2) by done.
  unfold mbind at 1, M_bind at 1. by rewrite begin_wait_full.
Qed.

(** Beyond its budget, an operation that touches a new block panics. *)
Lemma cache_sync_over ctx p b pin x rm A s :
  log_inv A s -> ctx <> 0 -> holds s p b pin x -> b ∉ entries (c_header s) ->
  c_ctx s !! ctx = Some rm -> OP_MAX_NUM_BLOCKS <= rm -> cache_sync ctx p s = Panic.
Proof.
  intros Hinv Hc Hh Hb Hrm Hle. unfold cache_sync. rewrite (proj2 (Z.eqb_neq _ _) Hc).
  set (s0 := set_log true (c_log_sem s) (c_iscommit s) (c_outstanding s) s).
  rewrite (bind_ret acquire_log_lock _ s tt s0)
    by (unfold acquire_log_lock, mbind, M_bind, gets; by rewrite (li_log_lock _ _ Hinv)).
  destruct (wp_run _ _ _ (set_pinned_step p b pin x true s0 (li_wf _ _ Hinv) Hh))
    as ([] & s1 & Hr & (W1 & R1 & _) & _ & H1).
  destruct R1 as (Rsb & _ & _ & Rh & _ & _ & _ & _ & Rctx). cbn in Rsb, Rh, Rctx.
  destruct (holds_blk _ _ _ _ _ W1 H1) as (B & HB & HbB & _).
  rewrite (bind_ret _ _ _ _ _ Hr), (bind_ret (load_blk p) _ s1 B s1)
    by (unfold load_blk, some_or_ub; by rewrite HB).
  rewrite (bind_ret header_entries _ s1 (entries (c_header s)) s1)
    by (rewrite <-Rh; apply header_entries_run; rewrite Rsb, Rh; apply Hinv).
  rewrite HbB, bool_decide_false by done. rewrite (bind_ret (gets id) _ s1 s1 s1) by done. rewrite Rctx, Hrm.
  rewrite (bind_ret (some_or_ub (Some rm)) _ s1 rm s1) by done.
  by rewrite (proj2 (Z.leb_le _ _) Hle).
Qed.

(** Every step preserves the invariant of the log. *)
Lemma client_step_inv A s A' s' : client_step (A, s) (A', s') -> log_inv A s -> log_inv A' s'.
Proof.
  intros Hstep Hinv. remember (A, s) as st eqn:Est. remember (A', s') as st' eqn:Est'.
  destruct Hstep as [ctx A0 s0 s1 Hc HA Hlen Hr|b p A0 s0 s1 Hlog Hh Hr|p b pin x y A0 s0 s1 Hh Hlog Hr
    |ctx p b pin x A0 s0 s1 HA Hc Hh Hu Hlog Hr|p b pin x A0 s0 s1 Hh Hlog Hx Hr|ctx A0 A1 s0 s1 HP Hlen Hq Hr]; simplify_eq.
  - destruct (log_full s) eqn:Hf; [by rewrite (begin_op_full ctx A) in Hr|].
    pose proof (begin_op_wp ctx A s Hinv Hc HA Hlen Hf) as H. unfold wp in H. rewrite Hr in H. apply H.
  - pose proof (acquire_step b s (li_wf _ _ Hinv) (li_lock _ _ Hinv) Hh) as H.
    unfold wp in H. rewrite Hr in H. destruct H as (S & D & H). apply (log_inv_step A b s s' Hinv S D Hlog).
    destruct (holds_view _ _ _ _ _ (proj1 S) H) as (_ & -> & _). apply Hinv.
  - pose proof (set_data_step p b pin x y s (li_wf _ _ Hinv) Hh) as H.
    unfold wp in H. rewrite Hr in H. destruct H as (S & D & H). apply (log_inv_step A b s s' Hinv S D Hlog).
    destruct (holds_view _ _ _ _ _ (proj1 S) H) as (_ & -> & _).
    destruct (holds_view _ _ _ _ _ (li_wf _ _ Hinv) Hh) as (_ & <- & _). apply Hinv.
  - assert (b ∈ entries (c_header s) \/ exists rm, c_ctx s !! ctx = Some rm /\ rm < OP_MAX_NUM_BLOCKS) as Hb.
    { destruct (decide (b ∈ entries (c_header s))); [by left|right].
      destruct (li_ctx _ _ Hinv ctx HA) as (rm & Hrm & _). exists rm. split; [done|].
      destruct (Z.lt_ge_cases rm OP_MAX_NUM_BLOCKS); [done|].
      by rewrite (cache_sync_over ctx p b pin x rm A) in Hr. }
    pose proof (cache_sync_wp ctx p b pin x A s Hinv Hc HA Hh Hu Hlog Hb) as H.
    unfold wp in H. rewrite Hr in H. apply H.
  - pose proof (release_step p b pin x s (li_wf _ _ Hinv) (li_lock _ _ Hinv) Hh Hx) as H.
    unfold wp in H. rewrite Hr in H. destruct H as (S & D & _ & Hp & _).
    apply (log_inv_step A b s s' Hinv S D Hlog). rewrite Hp.
    destruct (holds_view _ _ _ _ _ (li_wf _ _ Hinv) Hh) as (_ & <- & _). apply Hinv.
  - apply (log_inv_perm _ _ _ HP) in Hinv. destruct A' as [|c A'].
    + pose proof (log_inv_ready _ _ Hinv (Hq eq_refl)) as Hready.
      pose proof (li_outstanding _ _ Hinv) as Ho. cbn in Ho.
      pose proof (end_op_wp ctx s Hready Ho (li_iscommit _ _ Hinv) (li_log_lock _ _ Hinv) (li_sem _ _ Hinv)) as H.
      unfold wp in H. rewrite Hr in H. apply (committed_inv s s'); [done|apply Hinv|done].
    + pose proof (end_op_not_last_wp ctx (c :: A') s Hinv ltac:(done) Hlen) as H.
      unfold wp in H. rewrite Hr in H. apply H.
Qed.

Lemma client_steps_inv st st' :
  rtc client_step st st' -> log_inv (fst st) (snd st) -> log_inv (fst st') (snd st').
Proof.
  induction 1 as [|[A1 s1] [A2 s2] st3 Hstep _ IH]; [done|]. intros H. apply IH. by eapply client_step_inv.
Qed.

(** ** Properties *)

(** C2: the invariant of the log holds in every state that any interleaving of
    client calls reaches from a recovered disk.  Operations begin and end in any
    order; clients hand what they wrote to [cache_sync] before they release it,
    and hold no block when the last operation ends.  The invariant: the cached blocks are distinct
    and those nobody holds agree with the device unless the log pins them,
    every pinned block is in the header, the header's entries are distinct
    blocks outside the log, and the log has room for everything the running
    operations may still add. *)
Theorem reachable_log_inv sb d w s0 A s :
  log_layout sb -> header_ok sb (disk_header sb d) ->
  init_bcache sb (boot_state sb d w) = Ret (tt, s0) ->
  rtc client_step ([], s0) (A, s) -> log_inv A s.
Proof.
  intros Hsb Hh Hr Hsteps. pose proof (init_bcache_ready sb d w Hsb Hh) as H. unfold wp in H. rewrite Hr in H.
  destruct H as (Hs & _ & _ & _ & Hl & Ho & Hi & Hse).
  assert (log_inv [] s0) as H0 by (apply log_ready_inv; try done; lia).
  by apply (client_steps_inv _ _ Hsteps).
Qed.

(** [cache_sync] with a context.  A block already in the log, or a new one
    within the operation's budget, is always logged: the log never overflows,
    and the block is pinned with its content unchanged.  A new block beyond the
    budget of [OP_MAX_NUM_BLOCKS] panics. *)
Theorem sync_within_budget ctx p b pin x A s :
  log_inv A s -> ctx <> 0 -> ctx ∈ A -> holds s p b pin x -> is_u64 b -> ~ log_area (c_sblock s) b ->
  if bool_decide (b ∈ entries (c_header s) \/ default 0 (c_ctx s !! ctx) < OP_MAX_NUM_BLOCKS) then
    exists s', cache_sync ctx p s = Ret (tt, s') /\ log_inv A s' /\ holds s' p b true x /\
      b ∈ entries (c_header s') /\ same_dev s s'
  else cache_sync ctx p s = Panic.
Proof.
  intros Hinv Hc HA Hh Hu Hlog. destruct (li_ctx _ _ Hinv ctx HA) as (rm & Hrm & _). rewrite Hrm. cbn [from_option id].
  case_bool_decide as Hd.
  - destruct (wp_run _ _ _ (cache_sync_wp ctx p b pin x A s Hinv Hc HA Hh Hu Hlog ltac:(unfold can_log; naive_solver)))
      as ([] & s' & Hr & H1 & H2 & H3 & H4 & _). exists s'. split; [done|]. split; [done|]. split; [done|]. split; [|done].
    apply (logs_elem ctx b b s s' H3). by left.
  - eapply (cache_sync_over ctx p b pin x rm A); [done|done|done| |done|]; [tauto|]. lia.
Qed.

(** C28: [cache_begin_op] admits an operation exactly when the log has room for
    its whole budget beside the running ones, and waits otherwise. *)
Theorem begin_op_admits ctx A s :
  log_inv A s -> ctx <> 0 -> ctx ∉ A -> Z.of_nat (length A) < 2 ^ 32 ->
  if LOG_MAX_SIZE <? hd_num_blocks (c_header s) + (Z.of_nat (length A) + 1) * OP_MAX_NUM_BLOCKS then
    cache_begin_op ctx s = Prelude.Block
  else exists s', cache_begin_op ctx s = Ret (tt, s') /\ log_inv (ctx :: A) s' /\
    c_ctx s' !! ctx = Some 0 /\ c_blk s' = c_blk s /\ c_header s' = c_header s.
Proof.
  intros Hinv Hc HA Hlen. pose proof (log_full_spec A s Hinv Hlen) as Hf.
  destruct (LOG_MAX_SIZE <? _); [by apply (begin_op_full ctx A)|].
  destruct (wp_run _ _ _ (begin_op_wp ctx A s Hinv Hc HA Hlen Hf)) as ([] & s' & Hr & H). exists s'. naive_solver.
Qed.

(** [cache_acquire] of a block nobody holds returns, in every state of the
    invariant, a block with that number, held by the caller, whose content is
    what the clients of the cache last stored in it; every other block that is
    held or pinned stays in the cache, and no block changes its content. *)
Theorem acquire_returns_view b A s :
  log_inv A s -> is_held s b = false -> ~ log_area (c_sblock s) b ->
  exists p s', cache_acquire b s = Ret (p, s') /\ log_inv A s' /\
    holds s' p b (is_pinned s b) (view s b) /\ same_dev s s' /\
    forall b', view s' b' = view s b' /\ is_pinned s' b' = is_pinned s b' /\
      (b' <> b -> is_held s' b' = is_held s b').
Proof.
  intros Hinv Hh Hlog.
  destruct (wp_run _ _ _ (acquire_step b s (li_wf _ _ Hinv) (li_lock _ _ Hinv) Hh)) as (p & s' & Hr & S & D & H).
  destruct (holds_view _ _ _ _ _ (proj1 S) H) as (Hv & Hp & _).
  exists p, s'. split_and!; [done| |done|done|].
  - apply (log_inv_step A b s s' Hinv S D Hlog). rewrite Hp. apply Hinv.
  - intros b'. destruct (decide (b' = b)) as [->|Hne]; [done|]. destruct S as (_ & _ & V & _). naive_solver.
Qed.

(** an operation that is not the last of its group ends at once: its
    [cache_end_op] makes no device write and leaves its blocks in the log, so
    that it returns before they are on the disk; it only wakes one waiter. *)
Theorem end_op_not_last ctx A s :
  log_inv (ctx :: A) s -> A <> [] -> Z.of_nat (length A) < 2 ^ 32 ->
  exists s', cache_end_op ctx s = Ret (tt, s') /\ log_inv A s' /\ c_log_sem s' = c_log_sem s + 1 /\
    c_writes s' = c_writes s /\ c_disk s' = c_disk s /\ c_header s' = c_header s /\ c_blk s' = c_blk s.
Proof.
  intros Hinv HA Hlen. destruct (wp_run _ _ _ (end_op_not_last_wp ctx A s Hinv HA Hlen)) as ([] & s' & Hr & H).
  exists s'. unfold same_dev in H. naive_solver.
Qed.

(** ** Concrete runs *)

Lemma demo_inv : log_inv [5] demo_state.
Proof.
  destruct demo_ready as [(W & Hl & _) H1 H2 H3 H4 H5]. split; try done.
  - apply NoDup_singleton.
  - intros c ->%list_elem_of_singleton. exists 1. split; [done|]. change OP_MAX_NUM_BLOCKS with 10. lia.
Qed.

(** From a recovered disk: operation 5 begins, then 6, then 5 ends before 6. *)
Lemma reachable_log_inv_witness :
  exists s0 s1 s2 s3, init_bcache demo_sb (boot_state demo_sb demo_disk []) = Ret (tt, s0) /\ cache_begin_op 5 s0 = Ret (tt, s1) /\
    cache_begin_op 6 s1 = Ret (tt, s2) /\ cache_end_op 5 s2 = Ret (tt, s3) /\ log_inv [6] s3.
Proof.
  destruct (wp_run _ _ _ (init_bcache_ready demo_sb demo_disk [] (lr_layout _ demo_ready) demo_header_ok))
    as ([] & s0 & Hr & Hs & _ & _ & _ & Hl & Ho & Hi & Hse).
  assert (log_inv [] s0) as H0 by (apply log_ready_inv; try done; lia).
  assert (hd_num_blocks (c_header s0) = 0) as Hn.
  { pose proof (init_bcache_wp demo_sb demo_disk [] (lr_layout _ demo_ready) demo_header_ok) as H. unfold wp in H. rewrite Hr in H.
    by destruct H as (_ & _ & _ & _ & _ & _ & -> & _). }
  assert (log_full s0 = false) as Hf0 by (rewrite (log_full_spec [] s0 H0) by done; rewrite Hn; reflexivity).
  destruct (wp_run _ _ _ (begin_op_wp 5 [] s0 H0 ltac:(lia) ltac:(set_solver) ltac:(done) Hf0)) as ([] & s1 & Hr1 & H1 & _ & Eh1 & _).
  assert (log_full s1 = false) as Hf1 by (rewrite (log_full_spec [5] s1 H1) by done; rewrite Eh1, Hn; reflexivity).
  destruct (wp_run _ _ _ (begin_op_wp 6 [5] s1 H1 ltac:(lia) ltac:(set_solver) ltac:(done) Hf1)) as ([] & s2 & Hr2 & H2 & _).
  assert (log_inv [5; 6] s2) as H2' by (apply (log_inv_perm [6; 5]); [by apply perm_swap|done]).
  destruct (wp_run _ _ _ (end_op_not_last_wp 5 [6] s2 H2' ltac:(done) ltac:(done))) as ([] & s3 & Hr3 & _).
  exists s0, s1, s2, s3. split; [exact Hr|]. split; [exact Hr1|]. split; [exact Hr2|]. split; [exact Hr3|].
  apply (reachable_log_inv demo_sb demo_disk [] s0 [6] s3 (lr_layout _ demo_ready) demo_header_ok Hr).
  eapply rtc_l; [apply step_begin; [| | |exact Hr1]; [lia|set_solver|done]|]. eapply rtc_l; [apply step_begin; [| | |exact Hr2]; [lia|set_solver|done]|].
  eapply rtc_once, (step_end 5 [6; 5] [6]); [by apply perm_swap|done|done|exact Hr3].
Defined.

(** Block 100 of the group, once acquired again. *)
Definition demo_held : bcache_state :=
  mkBcache demo_sb demo_disk [] false false {[ 1 := mkBlock 100 true true 0 true (replicate 512 7) ]} [1] 1
    (mkLogHeader 1 (100 :: replicate 62 0)) false 0 false 1 {[ 5 := 1 ]}.

Lemma demo_acquire : cache_acquire 100 demo_state = Ret (1, demo_held).
Proof. vm_compute. reflexivity. Qed.

Lemma demo_100 : ~ log_area demo_sb 100.
Proof. intros [_ H]. apply H. reflexivity. Qed.

Lemma demo_held_inv : log_inv [5] demo_held /\ holds demo_held 1 100 true (replicate 512 7).
Proof.
  pose proof (acquire_step 100 demo_state (li_wf _ _ demo_inv) (li_lock _ _ demo_inv) eq_refl) as H.
  unfold wp in H. rewrite demo_acquire in H. destruct H as (S & D & H). split; [|exact H].
  apply (log_inv_step [5] 100 _ _ demo_inv S D demo_100). intros _. left.
Qed.

Lemma sync_within_budget_witness :
  exists s', cache_sync 5 1 demo_held = Ret (tt, s') /\ log_inv [5] s'.
Proof.
  pose proof (sync_within_budget 5 1 100 true (replicate 512 7) [5] demo_held (proj1 demo_held_inv) ltac:(lia)
    ltac:(left) (proj2 demo_held_inv) ltac:(unfold is_u64; lia) demo_100) as H.
  rewrite bool_decide_true in H by (left; left). destruct H as (s' & H1 & H2 & _). exists s'. split; [exact H1|exact H2].
Defined.

Lemma begin_op_admits_witness :
  exists s', cache_begin_op 6 demo_state = Ret (tt, s') /\ log_inv [6; 5] s'.
Proof.
  destruct (begin_op_admits 6 [5] demo_state demo_inv ltac:(lia) ltac:(set_solver) ltac:(cbn; lia)) as (s' & H1 & H2 & _).
  exists s'. split; [exact H1|exact H2].
Defined.

Lemma acquire_returns_view_witness :
  exists p s', cache_acquire 100 demo_state = Ret (p, s') /\ holds s' p 100 true (replicate 512 7).
Proof.
  destruct (acquire_returns_view 100 [5] demo_state demo_inv eq_refl demo_100) as (p & s' & H1 & _ & H2 & _).
  exists p, s'. split; [exact H1|exact H2].
Defined.

Lemma end_op_not_last_witness :
  exists s s', cache_end_op 6 s = Ret (tt, s') /\ log_inv [5] s' /\ c_writes s' = c_writes s.
Proof.
  destruct (wp_run _ _ _ (begin_op_wp 6 [5] demo_state demo_inv ltac:(lia) ltac:(set_solver) ltac:(cbn; lia) eq_refl))
    as ([] & s & _ & H & _).
  destruct (end_op_not_last 6 [5] s H ltac:(discriminate) ltac:(cbn; lia)) as (s' & H1 & H2 & _ & H3 & _).
  exists s, s'. split; [exact H1|]. split; [exact H2|exact H3].
Defined.
