(* ===== verification/CacheBitmap.v ===== *)
(** * The block bitmap: [cache_alloc] and [cache_free]

    The scan of the bitmap, the arithmetic on its bytes, and the effect of
    allocating and freeing a block on the bitmap and on the blocks. *)

From Stdlib Require Import ZArith Lia.
From stdpp Require Import base tactics numbers gmap list.
From S2P Require Import Prelude FsDefs Cache CacheProofs CacheCrash CacheClient.

Local Open Scope Z_scope.

(** ** Bits of bytes *)

Lemma land_bit x j : 0 <= j -> (Z.land x (Z.shiftl 1 j) =? 0) = negb (Z.testbit x j).
Proof.
  intros Hj. rewrite Z.shiftl_1_l. destruct (Z.testbit x j) eqn:E; cbn.
  - apply Z.eqb_neq. intros H. apply (f_equal (fun z => Z.testbit z j)) in H.
    by rewrite Z.land_spec, E, Z.pow2_bits_true, Z.bits_0 in H by done.
  - apply Z.eqb_eq, Z.bits_inj'. intros k Hk. rewrite Z.land_spec, Z.bits_0, Z.pow2_bits_eqb by done.
    destruct (Z.eqb_spec j k) as [<-|]; [by rewrite E|by rewrite andb_false_r].
Qed.

Lemma byte_bits x k : is_byte x -> 8 <= k -> Z.testbit x k = false.
Proof.
  intros [H0 H1] Hk. destruct (Z.eq_dec x 0) as [->|Hx]; [apply Z.bits_0|].
  apply Z.bits_above_log2; [done|]. apply Z.log2_lt_pow2; [lia|].
  apply Z.lt_le_trans with (2 ^ 8); [done|]. apply Z.pow_le_mono_r; lia.
Qed.

Lemma byte_of_bits x : 0 <= x -> (forall k, 8 <= k -> Z.testbit x k = false) -> is_byte x.
Proof.
  intros H0 H. split; [done|]. destruct (Z.eq_dec x 0) as [->|Hx]; [lia|].
  apply (Z.log2_lt_cancel x 256). change (Z.log2 256) with 8.
  destruct (Z.lt_ge_cases (Z.log2 x) 8) as [|Hge]; [done|].
  specialize (H _ Hge). by rewrite Z.bit_log2 in H by lia.
Qed.

Lemma setbit_byte x j : is_byte x -> 0 <= j < 8 -> is_byte (Z.setbit x j).
Proof.
  intros Hx Hj. apply byte_of_bits.
  - unfold Z.setbit. apply Z.lor_nonneg. split; [apply Hx|]. apply Z.shiftl_nonneg. lia.
  - intros k Hk. rewrite Z.setbit_neq by lia. by apply byte_bits.
Qed.

Lemma clearbit_byte x j : is_byte x -> 0 <= j -> is_byte (Z.clearbit x j).
Proof.
  intros Hx Hj. apply byte_of_bits.
  - unfold Z.clearbit. apply Z.ldiff_nonneg. left. apply Hx.
  - intros k Hk. rewrite Z.clearbit_eqb. by rewrite byte_bits.
Qed.

(** [+=] on a clear bit sets it; [-=] on a set bit clears it. *)
Lemma add_clear_bit x j : is_byte x -> 0 <= j < 8 -> Z.testbit x j = false -> u8 (x + Z.shiftl 1 j) = Z.setbit x j.
Proof.
  intros Hx Hj Hb. rewrite Z.add_nocarry_lxor.
  - rewrite Z.lxor_lor; [fold (Z.setbit x j)|].
    + pose proof (setbit_byte x j Hx Hj) as H. apply u8_small. exact H.
    + apply Z.eqb_eq. by rewrite land_bit, Hb by lia.
  - apply Z.eqb_eq. by rewrite land_bit, Hb by lia.
Qed.

Lemma sub_set_bit x j : is_byte x -> 0 <= j < 8 -> Z.testbit x j = true -> u8 (x - Z.shiftl 1 j) = Z.clearbit x j.
Proof.
  intros Hx Hj Hb. assert (x = Z.setbit (Z.clearbit x j) j) as E.
  { apply Z.bits_inj'. intros k Hk. rewrite Z.setbit_eqb, Z.clearbit_eqb by lia.
    destruct (Z.eqb_spec j k) as [<-|]; [by rewrite Hb|]. by rewrite andb_true_r. }
  assert (Z.testbit (Z.clearbit x j) j = false) as Hc by apply Z.clearbit_eq.
  pose proof (clearbit_byte x j Hx ltac:(lia)) as Hcb.
  pose proof (add_clear_bit _ j Hcb Hj Hc) as H. rewrite <-E in H.
  assert (is_byte (Z.clearbit x j + Z.shiftl 1 j)) as Hs.
  { rewrite Z.add_nocarry_lxor, Z.lxor_lor by (apply Z.eqb_eq; by rewrite land_bit, Hc by lia).
    apply (setbit_byte (Z.clearbit x j) j Hcb Hj). }
  rewrite u8_small in H by exact Hs.
  replace (x - Z.shiftl 1 j) with (Z.clearbit x j) by lia. apply u8_small. exact Hcb.
Qed.

(** [-=] on a clear bit borrows from the next one. *)
Lemma sub_clear_bit x j :
  is_byte x -> 0 <= j < 7 -> Z.testbit x j = false -> Z.testbit x (j + 1) = true ->
  u8 (x - Z.shiftl 1 j) = Z.setbit (Z.clearbit x (j + 1)) j.
Proof.
  intros Hx Hj Hb Hb1. pose proof (clearbit_byte x (j + 1) Hx ltac:(lia)) as Hc.
  pose proof (sub_set_bit x (j + 1) Hx ltac:(lia) Hb1) as H1.
  assert (Z.shiftl 1 (j + 1) = Z.shiftl 1 j + Z.shiftl 1 j) as E
    by (rewrite !Z.shiftl_1_l, Z.add_1_r, Z.pow_succ_r by lia; lia).
  rewrite <-(add_clear_bit (Z.clearbit x (j + 1)) j) by (done || lia || (rewrite Z.clearbit_neq by lia; done)).
  rewrite <-H1. unfold u8. rewrite Zplus_mod_idemp_l. f_equal. lia.
Qed.

(** ** The scan *)

Lemma scan_bits_Some n temp base nb i j :
  0 <= i -> scan_bits n temp base nb i = Some j ->
  i <= j < i + Z.of_nat n /\ base + j < nb /\ Z.testbit temp j = false /\
  forall k, i <= k < j -> Z.testbit temp k = true.
Proof.
  revert i. induction n as [|n IH]; intros i Hi H; cbn in H; [done|].
  destruct (Z.ltb_spec (base + i) nb); [|done]. rewrite land_bit in H by done.
  destruct (Z.testbit temp i) eqn:E; cbn in H.
  - apply IH in H as (H1 & H2 & H3 & H4); [|lia]. split_and!; try lia; [done|].
    intros k Hk. destruct (Z.eq_dec k i) as [->|]; [done|]. apply H4. lia.
  - simplify_eq. split_and!; try lia. done.
Qed.

Lemma scan_bits_None n temp base nb i :
  0 <= i -> scan_bits n temp base nb i = None ->
  forall k, i <= k < i + Z.of_nat n -> base + k < nb -> Z.testbit temp k = true.
Proof.
  revert i. induction n as [|n IH]; intros i Hi H k Hk Hlt; cbn in H; [lia|].
  destruct (Z.ltb_spec (base + i) nb); [|lia]. rewrite land_bit in H by done.
  destruct (Z.testbit temp i) eqn:E; cbn in H; [|done].
  destruct (Z.eq_dec k i) as [->|]; [done|]. apply (IH (i + 1)); [lia|done|lia|done].
Qed.

(** Bit [i] of a bitmap block. *)
Definition bitmap_bit (bytes : list Z) (i : Z) : bool :=
  Z.testbit (default 0 (bytes !! Z.to_nat (i / 8))) (i mod 8).

Lemma scan_bytes_spec bytes bs nb m :
  0 <= m ->
  match scan_bytes bytes bs nb m with
  | Some (mb, j) =>
      m <= mb < m + Z.of_nat (length bytes) /\ 0 <= j < 8 /\ bs + mb * 8 + j < nb /\
      bitmap_bit bytes ((mb - m) * 8 + j) = false /\
      forall i, 0 <= i < (mb - m) * 8 + j -> bitmap_bit bytes i = true
  | None =>
      forall i, 0 <= i < Z.of_nat (length bytes) * 8 -> bs + m * 8 + i < nb -> bitmap_bit bytes i = true
  end.
Proof.
  revert m. induction bytes as [|t bytes IH]; intros m Hm; cbn [scan_bytes].
  { cbn. lia. }
  assert (forall i, 8 <= i -> bitmap_bit (t :: bytes) i = bitmap_bit bytes (i - 8)) as Hshift.
  { intros i Hi. unfold bitmap_bit. replace i with (i - 8 + 1 * 8) at 1 2 by lia.
    rewrite Z.div_add, Z.mod_add by lia. rewrite (Z.add_comm _ 1).
    pose proof (Z.div_pos (i - 8) 8 ltac:(lia) ltac:(lia)).
    by replace (Z.to_nat (1 + (i - 8) / 8)) with (S (Z.to_nat ((i - 8) / 8))) by lia. }
  assert (forall i, 0 <= i < 8 -> bitmap_bit (t :: bytes) i = Z.testbit t i) as H0.
  { intros i Hi. unfold bitmap_bit. by rewrite Z.div_small, Z.mod_small by lia. }
  destruct (Z.ltb_spec (bs + m * 8) nb); [|intros; lia].
  destruct (scan_bits 8 t (bs + m * 8) nb 0) as [j|] eqn:E.
  - apply scan_bits_Some in E as (H1 & H2 & H3 & H4); [|lia]. cbn [length]. split_and!; try lia.
    + rewrite H0 by lia. by replace ((m - m) * 8 + j) with j by lia.
    + intros i Hi. rewrite H0 by lia. apply H4. lia.
  - pose proof (scan_bits_None _ _ _ _ _ (Z.le_refl 0) E) as Hn. specialize (IH (m + 1) ltac:(lia)).
    destruct (scan_bytes bytes bs nb (m + 1)) as [[mb j]|].
    + destruct IH as (H1 & H2 & H3 & H4 & H5). cbn [length]. split_and!; try lia.
      * rewrite Hshift by lia. by replace ((mb - m) * 8 + j - 8) with ((mb - (m + 1)) * 8 + j) by lia.
      * intros i Hi. destruct (Z.lt_ge_cases i 8); [rewrite H0 by lia; apply Hn; lia|].
        rewrite Hshift by lia. apply H5. lia.
    + intros i Hi Hlt. cbn [length] in Hi. destruct (Z.lt_ge_cases i 8); [rewrite H0 by lia; apply Hn; lia|].
      rewrite Hshift by lia. apply IH; lia.
Qed.

(** ** Reading and updating a block in an operation *)

(** A state of the invariant in which exactly the blocks of [held] are in use. *)
Definition steady (held : Z -> bool) (A : list Z) (s : bcache_state) : Prop :=
  log_inv A s /\ forall b, is_held s b = held b.
Definition idle : list Z -> bcache_state -> Prop := steady (fun _ => false).

(** The caller acquired block [b] in the state [s]. *)
Definition acquired_from (A : list Z) (s : bcache_state) (b p : Z) (s1 : bcache_state) : Prop :=
  log_inv A s1 /\ step_on b s s1 /\ same_dev s s1 /\ holds s1 p b (is_pinned s b) (view s b).

(** Whoever held a block still holds it. *)
Definition keeps (s s' : bcache_state) : Prop := forall q c pin x, holds s q c pin x -> holds s' q c pin x.

Section steady.
Context (held : Z -> bool) (A : list Z).

Lemma steady_apart b s q c pin x : steady held A s -> held b = false -> holds s q c pin x -> c <> b.
Proof. intros [Hinv Hh] Hb Hq ->. destruct (holds_view _ _ _ _ _ (li_wf _ _ Hinv) Hq) as (_ & _ & E). rewrite Hh in E. congruence. Qed.

Lemma acquire_steady_wp b s :
  steady held A s -> held b = false -> ~ log_area (c_sblock s) b -> wp (cache_acquire b) (acquired_from A s b) s.
Proof.
  intros [Hinv Hh] Hb Hlog. eapply wp_mono; [apply acquire_step; [apply Hinv|apply Hinv|by rewrite Hh]|].
  intros p s1 (S & D & H). split_and!; [|done|done|done].
  apply (log_inv_step A b s s1 Hinv S D Hlog). destruct (holds_view _ _ _ _ _ (proj1 S) H) as (_ & -> & _). apply Hinv.
Qed.

(** Nothing a client sees has changed. *)
Definition unchanged (s s' : bcache_state) : Prop :=
  same_rest s s' /\ same_dev s s' /\ keeps s s' /\ forall b, view s' b = view s b /\ is_pinned s' b = is_pinned s b.

Lemma release_steady_wp b p s s1 :
  steady held A s -> held b = false -> ~ log_area (c_sblock s) b -> acquired_from A s b p s1 ->
  wp (cache_release p) (fun _ s2 => steady held A s2 /\ unchanged s s2) s1.
Proof.
  intros Hst Hb Hlog (Hinv1 & (_ & R1 & V1 & K1 & _) & D1 & H1). pose proof Hst as [Hinv Hh].
  assert (is_pinned s b = false -> view s b = c_disk s1 b) as Hx.
  { intros Hp. destruct D1 as [-> _]. apply unheld_clean; [apply Hinv|by rewrite Hh|done]. }
  eapply wp_mono; [eapply release_step; [apply Hinv1|apply Hinv1|exact H1|exact Hx]|].
  intros _ s2 (S2 & D2 & Hv & Hp & Hhd). pose proof S2 as (_ & R2 & V2 & K2 & _).
  assert (log_inv A s2) as Hinv2.
  { eapply (log_inv_step A b s1); [done|done|done| |].
    - destruct R1 as (-> & _). done.
    - rewrite Hp. destruct R1 as (_ & _ & _ & -> & _). apply Hinv. }
  split; [split; [done|]|split; [by eapply same_rest_trans|split; [destruct D1, D2; split; congruence|split]]].
  - intros b'. destruct (decide (b' = b)) as [->|Hne]; [by rewrite Hhd|].
    destruct (V2 b' Hne) as (_ & _ & ->), (V1 b' Hne) as (_ & _ & ->). done.
  - intros q c pin x Hq. pose proof (steady_apart b s q c pin x Hst Hb Hq) as Hne. by apply K2, K1.
  - intros b'. destruct (decide (b' = b)) as [->|Hne]; [done|].
    destruct (V2 b' Hne) as (-> & -> & _), (V1 b' Hne) as (-> & -> & _). done.
Qed.

(** Block [b] has content [y] and is in the log, everything else is as before. *)
Definition stored (b : Z) (y : list Z) (ctx : Z) (s s' : bcache_state) : Prop :=
  view s' b = y /\ (forall b', b' <> b -> view s' b' = view s b') /\
  c_sblock s' = c_sblock s /\ c_bitmap_lock s' = c_bitmap_lock s /\ same_dev s s' /\ logs ctx b s s' /\ keeps s s'.

Lemma store_steady_wp {X} b p y ctx s s1 (k : BM X) (Q : X -> bcache_state -> Prop) :
  steady held A s -> held b = false -> ~ log_area (c_sblock s) b -> is_u64 b -> ctx <> 0 -> ctx ∈ A ->
  can_log ctx b s -> acquired_from A s b p s1 ->
  (forall s2, steady held A s2 -> stored b y ctx s s2 -> wp k Q s2) ->
  wp (set_data p y) (fun _ s' => wp (cache_sync ctx p;; cache_release p;; k) Q s') s1.
Proof.
  intros Hst Hb Hlog Hu Hc HA Hcan (Hinv1 & (_ & R1 & V1 & K1 & _) & D1 & H1) HQ. pose proof Hst as [Hinv Hh].
  assert (~ log_area (c_sblock s1) b) as Hlog1 by (destruct R1 as (-> & _); done).
  eapply wp_mono; [eapply set_data_step; [apply Hinv1|exact H1]|].
  intros _ s2 (S2 & D2 & H2). pose proof S2 as (W2 & R2 & V2 & K2 & _).
  assert (log_inv A s2) as Hinv2.
  { eapply (log_inv_step A b s1); [done|done|done|done|].
    destruct (holds_view _ _ _ _ _ W2 H2) as (_ & -> & _). destruct R1 as (_ & _ & _ & -> & _). apply Hinv. }
  pose proof (same_rest_trans _ _ _ R1 R2) as (Esb2 & Ebl2 & _ & Eh2 & _ & _ & _ & _ & Ectx2).
  wp_prim. eapply wp_mono; [eapply (cache_sync_wp ctx p b); [done|done|done|exact H2|done|by rewrite Esb2|]|].
  { unfold can_log. by rewrite Eh2, Ectx2. }
  intros _ s3 (Hinv3 & H3 & Hl3 & D3 & Esb3 & Ebl3 & K3 & V3).
  assert (~ log_area (c_sblock s3) b) as Hlog3 by (by rewrite Esb3, Esb2).
  wp_prim. eapply wp_mono; [eapply release_step; [apply Hinv3|apply Hinv3|exact H3|discriminate]|].
  intros _ s4 (S4 & D4 & Hv4 & Hp4 & Hh4). pose proof S4 as (_ & R4 & V4 & K4 & _).
  assert (log_inv A s4) as Hinv4.
  { eapply (log_inv_step A b s3); [done|done|done|done|]. intros _. apply (logs_elem ctx b b s2 s3 Hl3). by left. }
  destruct R4 as (Esb4 & Ebl4 & _ & Eh4 & _ & _ & _ & _ & Ectx4). apply HQ.
  - split; [done|]. intros b'. destruct (decide (b' = b)) as [->|Hne]; [by rewrite Hh4|].
    destruct (V4 b' Hne) as (_ & _ & ->), (V3 b' Hne) as (_ & ->), (V2 b' Hne) as (_ & _ & ->), (V1 b' Hne) as (_ & _ & ->). done.
  - split; [done|]. split; [|split; [congruence|split; [congruence|split; [|split]]]].
    + intros b' Hne. destruct (V4 b' Hne) as (-> & _), (V3 b' Hne) as (-> & _), (V2 b' Hne) as (-> & _), (V1 b' Hne) as (-> & _). done.
    + destruct D1, D2, D3, D4. split; congruence.
    + unfold logs in *. by rewrite Eh4, Ectx4, <-Eh2, <-Ectx2.
    + intros q c pin x Hq. pose proof (steady_apart b s q c pin x Hst Hb Hq) as Hne. by apply K4, K3, K2, K1.
Qed.
End steady.

(** ** Allocation *)

(** Is block [b] marked in the bitmap? *)
Definition used (s : bcache_state) (b : Z) : bool :=
  bitmap_bit (view s (bitmap_block (c_sblock s) b)) (b mod BIT_PER_BLOCK).

(** The bitmap as [mkfs] lays it out: whole blocks of bytes outside the log, in
    which the blocks of the log and of the bitmap itself are marked. *)
Record bitmap_ok (s : bcache_state) : Prop := {
  bo_num : 0 <= sb_num_blocks (c_sblock s) < 2 ^ 32;
  bo_start : 0 <= sb_bitmap_start (c_sblock s) < 2 ^ 32;
  bo_bytes : forall b, 0 <= b < sb_num_blocks (c_sblock s) ->
    length (view s (bitmap_block (c_sblock s) b)) = Z.to_nat BLOCK_SIZE /\
    Forall is_byte (view s (bitmap_block (c_sblock s) b));
  bo_log : forall b, 0 <= b < sb_num_blocks (c_sblock s) -> ~ log_area (c_sblock s) (bitmap_block (c_sblock s) b);
  bo_marked : forall b, 0 <= b < sb_num_blocks (c_sblock s) ->
    log_area (c_sblock s) b \/ (exists c, 0 <= c < sb_num_blocks (c_sblock s) /\ b = bitmap_block (c_sblock s) c) ->
    used s b = true }.

Lemma bitmap_block_eq s b : bitmap_ok s -> 0 <= b < 2 ^ 32 ->
  bitmap_block (c_sblock s) b = sb_bitmap_start (c_sblock s) + b / BIT_PER_BLOCK.
Proof.
  intros [_ H _ _ _] Hb. unfold bitmap_block. change BIT_PER_BLOCK with 4096.
  pose proof (Z.div_pos b 4096 ltac:(lia) ltac:(lia)). pose proof (Z.div_le_upper_bound b 4096 (2 ^ 32) ltac:(lia) ltac:(lia)).
  apply u64_small. lia.
Qed.

Lemma bitmap_block_u64 s b : bitmap_ok s -> 0 <= b < 2 ^ 32 -> is_u64 (bitmap_block (c_sblock s) b).
Proof. intros _ _. unfold bitmap_block. apply u64_range. Qed.

Lemma bitmap_block_same sb bs i : bs mod BIT_PER_BLOCK = 0 -> 0 <= i < BIT_PER_BLOCK ->
  bitmap_block sb (bs + i) = bitmap_block sb bs /\ (bs + i) mod BIT_PER_BLOCK = i.
Proof.
  intros Hbs Hi. change BIT_PER_BLOCK with 4096 in *. apply Z.mod_divide in Hbs as [k ->]; [|lia].
  unfold bitmap_block. change BIT_PER_BLOCK with 4096. rewrite (Z.add_comm (k * 4096)), Z.div_add, Z.mod_add, Z.div_mul by lia.
  by rewrite (Z.div_small i), (Z.mod_small i) by lia.
Qed.

Lemma bitmap_block_inj s b c :
  bitmap_ok s -> 0 <= b < 2 ^ 32 -> 0 <= c < 2 ^ 32 ->
  bitmap_block (c_sblock s) c = bitmap_block (c_sblock s) b ->
  (c mod BIT_PER_BLOCK =? b mod BIT_PER_BLOCK) = (c =? b).
Proof.
  intros Hok Hb Hc. rewrite !bitmap_block_eq by done. intros E.
  destruct (Z.eqb_spec (c mod BIT_PER_BLOCK) (b mod BIT_PER_BLOCK)) as [E'|E'], (Z.eqb_spec c b) as [->|Hne]; try done.
  destruct Hne. rewrite (Z.div_mod c BIT_PER_BLOCK), (Z.div_mod b BIT_PER_BLOCK) by done. rewrite E'. f_equal. f_equal. lia.
Qed.

(** One bit of an updated byte. *)
Lemma bitmap_bit_update bytes mb y m :
  0 <= mb < Z.of_nat (length bytes) -> 0 <= m ->
  bitmap_bit (<[Z.to_nat mb := y]> bytes) m = if m / 8 =? mb then Z.testbit y (m mod 8) else bitmap_bit bytes m.
Proof.
  intros Hmb Hm. unfold bitmap_bit. pose proof (Z.div_pos m 8 Hm ltac:(lia)).
  destruct (Z.eqb_spec (m / 8) mb) as [->|Hne].
  - by rewrite list_lookup_insert_eq by lia.
  - rewrite list_lookup_insert_ne; [done|]. lia.
Qed.

Lemma bit_index mb j m : 0 <= j < 8 -> m = mb * 8 + j <-> m / 8 = mb /\ m mod 8 = j.
Proof. intros Hj. pose proof (Z.div_mod m 8 ltac:(lia)). pose proof (Z.mod_pos_bound m 8 ltac:(lia)). lia. Qed.

(** A byte of the bitmap whose bit [j] is set or cleared. *)
Lemma bitmap_set bytes mb j x m :
  Forall is_byte bytes -> bytes !! Z.to_nat mb = Some x -> 0 <= mb -> 0 <= j < 8 -> 0 <= m ->
  bitmap_bit bytes (mb * 8 + j) = false ->
  bitmap_bit (<[Z.to_nat mb := u8 (x + Z.shiftl 1 j)]> bytes) m = (m =? mb * 8 + j) || bitmap_bit bytes m.
Proof.
  intros Hb Hx Hmb Hj Hm Hbit. pose proof (lookup_lt_Some _ _ _ Hx) as Hlt.
  pose proof (Forall_lookup_1 _ _ _ _ Hb Hx) as Hxb.
  destruct (proj1 (bit_index mb j (mb * 8 + j) Hj) eq_refl) as [E1 E2].
  unfold bitmap_bit in Hbit. rewrite E1, E2, Hx in Hbit. cbn in Hbit.
  rewrite bitmap_bit_update by lia. rewrite add_clear_bit by done.
  destruct (Z.eqb_spec m (mb * 8 + j)) as [->|Hne].
  - rewrite E1, E2, Z.eqb_refl. by rewrite Z.setbit_eq by lia.
  - destruct (Z.eqb_spec (m / 8) mb) as [E|]; [|done]. rewrite Z.setbit_neq.
    + unfold bitmap_bit. by rewrite E, Hx.
    + lia.
    + intros E'. by apply Hne, bit_index.
Qed.

Lemma bitmap_clear bytes mb j x m :
  Forall is_byte bytes -> bytes !! Z.to_nat mb = Some x -> 0 <= mb -> 0 <= j < 8 -> 0 <= m ->
  bitmap_bit bytes (mb * 8 + j) = true ->
  bitmap_bit (<[Z.to_nat mb := u8 (x - Z.shiftl 1 j)]> bytes) m = negb (m =? mb * 8 + j) && bitmap_bit bytes m.
Proof.
  intros Hb Hx Hmb Hj Hm Hbit. pose proof (lookup_lt_Some _ _ _ Hx) as Hlt.
  pose proof (Forall_lookup_1 _ _ _ _ Hb Hx) as Hxb.
  destruct (proj1 (bit_index mb j (mb * 8 + j) Hj) eq_refl) as [E1 E2].
  unfold bitmap_bit in Hbit. rewrite E1, E2, Hx in Hbit. cbn in Hbit.
  rewrite bitmap_bit_update by lia. rewrite sub_set_bit by done.
  destruct (Z.eqb_spec m (mb * 8 + j)) as [->|Hne].
  - rewrite E1, E2, Z.eqb_refl. by rewrite Z.clearbit_eq.
  - destruct (Z.eqb_spec (m / 8) mb) as [E|]; [|done]. rewrite Z.clearbit_neq.
    + unfold bitmap_bit. by rewrite E, Hx.
    + intros E'. by apply Hne, bit_index.
Qed.

(** What it costs an operation to have the bitmap block of [b] in the log. *)
Definition bm_cost (s : bcache_state) (b : Z) : Z :=
  if decide (bitmap_block (c_sblock s) b ∈ entries (c_header s)) then 0 else 1.

(** What a successful allocation does. *)
Record allocated (held : Z -> bool) (ctx : Z) (A : list Z) (s : bcache_state) (b : Z) (s' : bcache_state) : Prop := {
  al_range : 0 <= b < sb_num_blocks (c_sblock s);
  al_free : used s b = false;
  al_first : forall c, 0 <= c < b -> used s c = true;
  al_steady : steady held A s';
  al_zero : view s' b = replicate (Z.to_nat BLOCK_SIZE) 0;
  al_used : forall c, 0 <= c < sb_num_blocks (c_sblock s) -> used s' c = (c =? b) || used s c;
  al_same : forall c, c <> b -> c <> bitmap_block (c_sblock s) b -> view s' c = view s c;
  al_lock : c_bitmap_lock s' = false;
  al_sblock : c_sblock s' = c_sblock s;
  al_bitmap : bitmap_ok s';
  al_dev : same_dev s s';
  al_keeps : keeps s s';
  al_logs : exists s1, logs ctx (bitmap_block (c_sblock s) b) s s1 /\ logs ctx b s1 s' }.

Lemma used_unchanged s s' b : unchanged s s' -> used s' b = used s b.
Proof. intros (R & _ & _ & V). unfold used. destruct R as (-> & _). by rewrite (proj1 (V _)). Qed.

Lemma bitmap_ok_unchanged s s' : unchanged s s' -> bitmap_ok s -> bitmap_ok s'.
Proof.
  intros U []. pose proof U as (R & _ & _ & V). destruct R as (Esb & _).
  split; rewrite ?Esb; try done; intros b; rewrite ?(proj1 (V _)), ?(used_unchanged s s' _ U); auto.
Qed.

Lemma allocated_unchanged held ctx A s s1 b s' : unchanged s s1 -> allocated held ctx A s1 b s' -> allocated held ctx A s b s'.
Proof.
  intros U [? ? ? ? ? ? ? ? ? ? [D1 D2] ? ?]. pose proof U as (R & [D3 D4] & K & V). destruct R as (Esb & _ & _ & Eh & _ & _ & _ & _ & Ec).
  rewrite Esb in *. split; try done.
  - by rewrite <-(used_unchanged s s1).
  - intros c Hc. rewrite <-(used_unchanged s s1) by done. auto.
  - intros c Hc. rewrite <-(used_unchanged s s1 c) by done. auto.
  - intros c H1 H2. rewrite <-(proj1 (V c)). auto.
  - split; congruence.
  - intros q c pin x Hq. by apply al_keeps0, K.
  - destruct al_logs0 as (s2 & L1 & L2). exists s2. split; [|done]. unfold logs in *. by rewrite Eh, Ec in L1.
Qed.

(** A bitmap whose marks only grew, or lost the mark of a block of a client. *)
Lemma bitmap_ok_kept s s' :
  bitmap_ok s -> c_sblock s' = c_sblock s ->
  (forall b, 0 <= b < sb_num_blocks (c_sblock s) ->
     length (view s' (bitmap_block (c_sblock s) b)) = Z.to_nat BLOCK_SIZE /\
     Forall is_byte (view s' (bitmap_block (c_sblock s) b))) ->
  (forall b, 0 <= b < sb_num_blocks (c_sblock s) ->
     log_area (c_sblock s) b \/ (exists c, 0 <= c < sb_num_blocks (c_sblock s) /\ b = bitmap_block (c_sblock s) c) ->
     used s b = true -> used s' b = true) -> bitmap_ok s'.
Proof. intros [] E H1 H2. split; rewrite ?E; auto. Qed.

(** A byte of a bitmap block is replaced. *)
Lemma bytes_kept s s' bm k y :
  bitmap_ok s -> view s' bm = <[k := u8 y]> (view s bm) ->
  (forall c, 0 <= c < sb_num_blocks (c_sblock s) -> bitmap_block (c_sblock s) c <> bm ->
     view s' (bitmap_block (c_sblock s) c) = view s (bitmap_block (c_sblock s) c)) ->
  forall b, 0 <= b < sb_num_blocks (c_sblock s) ->
    length (view s' (bitmap_block (c_sblock s) b)) = Z.to_nat BLOCK_SIZE /\
    Forall is_byte (view s' (bitmap_block (c_sblock s) b)).
Proof.
  intros Hok Hbm Hne b Hb. destruct (bo_bytes _ Hok b Hb) as [Hl Hby].
  destruct (decide (bitmap_block (c_sblock s) b = bm)) as [E|E]; [|by rewrite Hne].
  rewrite E, Hbm in *. rewrite length_insert. split; [done|]. apply Forall_insert; [done|]. apply u8_range.
Qed.

Section alloc.
Context (held : Z -> bool) (A : list Z) (ctx : Z).
Hypothesis Hctx : ctx <> 0.
Hypothesis HA : ctx ∈ A.

Lemma bitmap_lock_steady v s : steady held A s -> steady held A (set_bitmap_lock v s).
Proof. intros [[] Hh]. split; [|done]. split; try done. Qed.

(** The part of [cache_alloc] after a clear bit has been found. *)
Definition alloc_found (p bs mb j : Z) : BM Z :=
  upd_byte p mb (fun x => x + Z.shiftl 1 j);;
  cache_sync ctx p;;
  cache_release p;;
  blk ← cache_acquire (bs + mb * 8 + j);
  set_data blk (replicate (Z.to_nat BLOCK_SIZE) 0);;
  cache_sync ctx blk;;
  cache_release blk;;
  release_bitmap_lock;;
  mret (bs + mb * 8 + j).

Lemma can_log_cost s b rm : c_ctx s !! ctx = Some rm -> rm + bm_cost s b <= OP_MAX_NUM_BLOCKS -> can_log ctx (bitmap_block (c_sblock s) b) s.
Proof. intros Hrm. unfold bm_cost, can_log. case_decide; [by left|]. right. exists rm. split; [done|lia]. Qed.

Lemma logs_cost s s' b rm : c_ctx s !! ctx = Some rm -> logs ctx (bitmap_block (c_sblock s) b) s s' ->
  c_ctx s' !! ctx = Some (rm + bm_cost s b).
Proof. intros Hrm. unfold logs, bm_cost. case_decide; intros [_ ->]; rewrite Hrm; cbn; f_equal; lia. Qed.

Lemma alloc_found_wp p bs mb j rm s s1 :
  steady held A s -> bitmap_ok s -> c_ctx s !! ctx = Some rm ->
  bs mod BIT_PER_BLOCK = 0 -> 0 <= bs -> 0 <= mb < BLOCK_SIZE -> 0 <= j < 8 ->
  let b := bs + mb * 8 + j in
  rm + bm_cost s b + 1 <= OP_MAX_NUM_BLOCKS -> held (bitmap_block (c_sblock s) bs) = false -> held b = false ->
  b < sb_num_blocks (c_sblock s) -> used s b = false -> (forall c, 0 <= c < b -> used s c = true) ->
  acquired_from A s (bitmap_block (c_sblock s) bs) p s1 ->
  wp (alloc_found p bs mb j) (fun r s' => r = b /\ allocated held ctx A s b s') s1.
Proof.
  intros Hidle Hok Hrm Hbs Hbs0 Hmb Hj b Hbud Hhbm Hhb Hb Hfree Hfirst Hacq.
  set (bm := bitmap_block (c_sblock s) bs) in *.
  assert (0 <= mb * 8 + j < BIT_PER_BLOCK) as Hi
    by (change BIT_PER_BLOCK with 4096; change BLOCK_SIZE with 512 in *; lia).
  destruct (bitmap_block_same (c_sblock s) bs (mb * 8 + j) Hbs Hi) as [Ebm Ei].
  replace (bs + (mb * 8 + j)) with b in Ebm, Ei by (unfold b; lia). fold bm in Ebm.
  destruct (bo_bytes _ Hok b) as [Hlen Hbytes]; [unfold b in *; lia|]. rewrite Ebm in Hlen, Hbytes.
  pose proof (bo_log _ Hok b ltac:(unfold b in *; lia)) as Hlogbm. rewrite Ebm in Hlogbm.
  pose proof (bo_num _ Hok) as Hnum. pose proof (bitmap_block_u64 s bs Hok ltac:(lia)) as Hubm.
  assert (~ log_area (c_sblock s) b /\ b <> bm) as [Hlogb Hnebm].
  { pose proof (bo_marked _ Hok b ltac:(unfold b in *; lia)) as Hm. rewrite Hfree in Hm. split.
    - intros Hl. discriminate Hm. by left.
    - intros E. discriminate Hm. right. exists b. split; [unfold b in *; lia|]. congruence. }
  destruct (proj2 (lookup_lt_is_Some (view s bm) (Z.to_nat mb))) as [x Hx];
    [rewrite Hlen; change BLOCK_SIZE with 512 in *; lia|].
  pose proof Hacq as (Hinv1 & _ & _ & H1).
  destruct (holds_blk _ _ _ _ _ (li_wf _ _ Hinv1) H1) as (B & HB & _ & _ & _ & HdB & _).
  pose proof (can_log_cost s b rm Hrm ltac:(lia)) as Hcan. rewrite Ebm in Hcan.
  unfold alloc_found, upd_byte. wp_prim. wp_prim. eapply wp_load_blk; [done|].
  wp_prim. apply wp_some_or_ub. exists x. rewrite HdB. split; [done|].
  eapply (store_steady_wp held A bm p _ ctx s); try done.
  intros s2 Hst2 (Hv2 & Ho2 & Esb2 & _ & D2 & L2 & K2). rewrite <-Ebm in L2. pose proof (logs_cost s s2 b rm Hrm L2) as Hrm2.
  wp_prim. eapply wp_mono; [apply (acquire_steady_wp held A b s2); [done|done|by rewrite Esb2]|]. intros q s3 Hacq3.
  wp_prim. eapply (store_steady_wp held A b q _ ctx s2); try done; [by rewrite Esb2| | |].
  { unfold is_u64, b in *. lia. }
  { right. eexists. split; [exact Hrm2|lia]. }
  intros s4 Hst4 (Hv4 & Ho4 & Esb4 & _ & D4 & L4 & K4). unfold release_bitmap_lock. wp_prims. split; [done|].
  assert (forall c, 0 <= c < sb_num_blocks (c_sblock s) -> bitmap_block (c_sblock s) c <> b) as Hcb.
  { intros c Hc E. pose proof (bo_marked _ Hok b ltac:(unfold b in *; lia)) as Hm. rewrite Hfree in Hm. discriminate Hm. right. eauto. }
  assert (forall c, 0 <= c < sb_num_blocks (c_sblock s) -> used (set_bitmap_lock false s4) c = (c =? b) || used s c) as Hused.
  { intros c Hc. unfold used. st_simpl. change (view (set_bitmap_lock false s4)) with (view s4). rewrite Esb4, Esb2.
    rewrite Ho4 by by apply Hcb. destruct (decide (bitmap_block (c_sblock s) c = bm)) as [Ec|Ec].
    + rewrite Ec, Hv2. rewrite bitmap_set; try done; [|lia|apply Z.mod_pos_bound; done|].
      * rewrite <-Ei. rewrite <-Ebm in Ec. f_equal. apply (bitmap_block_inj s); try done; unfold b in *; lia.
      * rewrite <-Ei. unfold used in Hfree. by rewrite Ebm in Hfree.
    + rewrite Ho2 by done. destruct (Z.eqb_spec c b) as [->|]; [|done]. congruence. }
  split; st_simpl; try done; [unfold b in *; lia|by apply bitmap_lock_steady| |congruence| | | |].
  - intros c Hc1 Hc2. change (view (set_bitmap_lock false s4) c) with (view s4 c). rewrite Ebm in Hc2. by rewrite Ho4, Ho2.
  - apply (bitmap_ok_kept s); [done|st_simpl; congruence| |].
    + apply (bytes_kept s _ bm (Z.to_nat mb) (x + Z.shiftl 1 j)); [done| |].
      * change (view (set_bitmap_lock false s4) bm) with (view s4 bm). by rewrite Ho4 by congruence.
      * intros c Hc Hne. change (view (set_bitmap_lock false s4)) with (view s4). rewrite Ho4, Ho2; [done|done|by apply Hcb].
    + intros c Hc _ Hu. rewrite Hused, Hu by done. apply orb_true_r.
  - destruct D2, D4. split; st_simpl; congruence.
  - intros q' c pin y Hq. apply K2, K4 in Hq. exact Hq.
  - exists s2. done.
Qed.

Lemma alloc_loop_wp n bs rm s :
  steady held A s -> bitmap_ok s -> c_ctx s !! ctx = Some rm ->
  (forall c, 0 <= c < sb_num_blocks (c_sblock s) -> rm + bm_cost s c + 1 <= OP_MAX_NUM_BLOCKS /\
     held (bitmap_block (c_sblock s) c) = false /\ (used s c = false -> held c = false)) ->
  bs mod BIT_PER_BLOCK = 0 -> 0 <= bs -> sb_num_blocks (c_sblock s) < bs + BIT_PER_BLOCK * Z.of_nat n ->
  (forall c, 0 <= c < bs -> c < sb_num_blocks (c_sblock s) -> used s c = true) ->
  wp_or_panic (alloc_loop n ctx bs) (allocated held ctx A s)
    (forall c, 0 <= c < sb_num_blocks (c_sblock s) -> used s c = true) s.
Proof.
  revert bs s. induction n as [|n IH]; intros bs s Hidle Hok Hrm Hbud Hbs Hbs0 Hn Hlow; cbn [alloc_loop].
  { cbn. intros c Hc. apply Hlow; lia. }
  apply wpp_bind. wp_prim. destruct (Z.ltb_spec bs (sb_num_blocks (c_sblock s))) as [Hlt|Hge].
  2: { cbn. intros c Hc. apply Hlow; lia. }
  pose proof (bo_log _ Hok bs ltac:(lia)) as Hlog. destruct (bo_bytes _ Hok bs ltac:(lia)) as [Hlen _].
  destruct (Hbud bs ltac:(lia)) as (_ & Hhbm & _).
  apply wpp_bind. eapply wp_mono; [by apply (acquire_steady_wp held A)|]. intros p s1 Hacq.
  pose proof Hacq as (Hinv1 & _ & _ & H1).
  destruct (holds_blk _ _ _ _ _ (li_wf _ _ Hinv1) H1) as (B & HB & _ & _ & _ & HdB & _).
  apply wpp_bind. eapply wp_load_blk; [done|]. rewrite HdB.
  assert (forall i, 0 <= i < BIT_PER_BLOCK ->
    bitmap_bit (view s (bitmap_block (c_sblock s) bs)) i = used s (bs + i)) as Hu.
  { intros i Hi. unfold used. by destruct (bitmap_block_same (c_sblock s) bs i Hbs Hi) as [-> ->]. }
  assert (Z.of_nat (length (view s (bitmap_block (c_sblock s) bs))) = 512) as Hlen' by by rewrite Hlen.
  pose proof (scan_bytes_spec (view s (bitmap_block (c_sblock s) bs)) bs (sb_num_blocks (c_sblock s)) 0 (Z.le_refl 0)) as Hscan.
  destruct (scan_bytes _ bs _ 0) as [[mb j]|].
  - destruct Hscan as (Hmb & Hj & Hb & Hfree & Hfirst). rewrite Z.sub_0_r, Hlen' in *. apply wpp_wp.
    assert (used s (bs + mb * 8 + j) = false) as Hf
      by (rewrite <-Z.add_assoc, <-Hu; [done|]; change BIT_PER_BLOCK with 4096; lia).
    destruct (Hbud (bs + mb * 8 + j) ltac:(lia)) as (Hbud1 & _ & Hhb).
    eapply wp_mono; [eapply (alloc_found_wp p bs mb j rm s); try done; try (change BLOCK_SIZE with 512; lia)|].
    + by apply Hhb.
    + intros c Hc. destruct (Z.lt_ge_cases c bs); [apply Hlow; lia|].
      replace c with (bs + (c - bs)) by lia. rewrite <-Hu by (change BIT_PER_BLOCK with 4096; lia). apply Hfirst. lia.
    + by intros r s' [-> H].
  - apply wpp_bind. eapply wp_mono; [by apply (release_steady_wp held A (bitmap_block (c_sblock s) bs) p s)|].
    intros _ s2 [Hidle2 U]. pose proof U as (R & _ & _). pose proof R as (Esb & _ & _ & Eh & _ & _ & _ & _ & Ectx).
    eapply wpp_mono; [apply IH| |].
    + done.
    + by eapply bitmap_ok_unchanged.
    + by rewrite Ectx.
    + rewrite Esb. intros c Hc. unfold bm_cost. rewrite Esb, Eh, (used_unchanged s s2) by done. by apply Hbud.
    + change BIT_PER_BLOCK with 4096 in *. rewrite <-Z.add_mod_idemp_l, Hbs by lia. done.
    + change BIT_PER_BLOCK with 4096 in *. lia.
    + rewrite Esb. change BIT_PER_BLOCK with 4096 in *. lia.
    + intros c Hc Hc'. rewrite (used_unchanged s s2) by done. rewrite Esb in Hc'.
      destruct (Z.lt_ge_cases c bs); [apply Hlow; lia|].
      replace c with (bs + (c - bs)) by lia. rewrite <-Hu by lia. change BIT_PER_BLOCK with 4096 in *. apply Hscan; lia.
    + intros b s'. by apply allocated_unchanged.
    + rewrite Esb. intros H c Hc. rewrite <-(used_unchanged s s2) by done. auto.
Qed.

Lemma cache_alloc_wp rm s :
  steady held A s -> bitmap_ok s -> c_bitmap_lock s = false -> c_ctx s !! ctx = Some rm ->
  (forall c, 0 <= c < sb_num_blocks (c_sblock s) -> rm + bm_cost s c + 1 <= OP_MAX_NUM_BLOCKS /\
     held (bitmap_block (c_sblock s) c) = false /\ (used s c = false -> held c = false)) ->
  wp_or_panic (cache_alloc ctx) (allocated held ctx A s)
    (forall c, 0 <= c < sb_num_blocks (c_sblock s) -> used s c = true) s.
Proof.
  intros Hst Hok Hl Hrm Hbud. pose proof (bo_num _ Hok) as Hnum.
  unfold cache_alloc. apply wpp_bind, wp_acquire_bitmap_lock; [done|]. apply wpp_bind. wp_prim. st_simpl.
  eapply wpp_mono; [apply (alloc_loop_wp _ 0 rm (set_bitmap_lock true s))| |]; try done.
  - by apply bitmap_lock_steady.
  - by destruct Hok.
  - st_simpl. change BIT_PER_BLOCK with 4096.
    pose proof (Z.div_mod (sb_num_blocks (c_sblock s)) 4096 ltac:(lia)).
    pose proof (Z.mod_pos_bound (sb_num_blocks (c_sblock s)) 4096 ltac:(lia)).
    pose proof (Z.div_pos (sb_num_blocks (c_sblock s)) 4096 ltac:(lia) ltac:(lia)). lia.
  - intros; lia.
  - by intros b s' [].
Qed.
End alloc.

(** ** Freeing *)

(** The byte of the bitmap that holds the mark of [b]. *)
Lemma freed_byte s b :
  bitmap_ok s -> 0 <= b < sb_num_blocks (c_sblock s) ->
  let i := b mod BIT_PER_BLOCK in
  exists x, view s (bitmap_block (c_sblock s) b) !! Z.to_nat (i / 8) = Some x /\ i = i / 8 * 8 + i mod 8 /\
    Forall is_byte (view s (bitmap_block (c_sblock s) b)) /\ 0 <= i / 8.
Proof.
  intros Hok Hb i. assert (0 <= i < BIT_PER_BLOCK) as Hi by (apply Z.mod_pos_bound; done).
  change BIT_PER_BLOCK with 4096 in Hi. pose proof (Z.div_mod i 8 ltac:(lia)).
  pose proof (Z.mod_pos_bound i 8 ltac:(lia)). destruct (bo_bytes _ Hok b Hb) as [Hlen Hbytes].
  destruct (proj2 (lookup_lt_is_Some (view s (bitmap_block (c_sblock s) b)) (Z.to_nat (i / 8)))) as [x Hx];
    [rewrite Hlen; change BLOCK_SIZE with 512; lia|].
  exists x. split_and!; [done|lia|done|lia].
Qed.

(** The bit after that of [b] when it is in the same byte. *)
Lemma next_bit s b :
  b mod 8 < 7 -> 0 <= b ->
  bitmap_block (c_sblock s) (b + 1) = bitmap_block (c_sblock s) b /\
  (b + 1) mod BIT_PER_BLOCK / 8 = b mod BIT_PER_BLOCK / 8 /\
  ((b + 1) mod BIT_PER_BLOCK) mod 8 = (b mod BIT_PER_BLOCK) mod 8 + 1.
Proof.
  intros Hlt Hb. unfold bitmap_block. change BIT_PER_BLOCK with (8 * 512).
  rewrite !Z.rem_mul_r by lia. rewrite <-!Z.div_div by lia.
  pose proof (Z.div_mod b 8 ltac:(lia)). pose proof (Z.mod_pos_bound b 8 ltac:(lia)).
  assert ((b + 1) / 8 = b / 8) as E1 by (symmetry; apply (Z.div_unique _ _ _ (b mod 8 + 1)); lia).
  assert ((b + 1) mod 8 = b mod 8 + 1) as E2 by (symmetry; apply (Z.mod_unique _ _ (b / 8)); lia).
  rewrite E1, E2. split; [done|]. rewrite !(Z.mul_comm 8), !Z.div_add, !Z.mod_add by lia.
  rewrite (Z.div_small (b mod 8)), (Z.div_small (b mod 8 + 1)), (Z.mod_small (b mod 8 + 1)), (Z.mod_small (b mod 8)) by lia. done.
Qed.

Lemma cache_free_wp held A ctx b s :
  steady held A s -> bitmap_ok s -> ctx <> 0 -> ctx ∈ A -> c_bitmap_lock s = false ->
  0 <= b < sb_num_blocks (c_sblock s) ->
  let i := b mod BIT_PER_BLOCK in
  let bm := bitmap_block (c_sblock s) b in
  can_log ctx bm s -> held bm = false ->
  wp (cache_free ctx b) (fun _ s' => steady held A s' /\ c_bitmap_lock s' = false /\ c_sblock s' = c_sblock s /\
    view s' bm = <[Z.to_nat (i / 8) := u8 (default 0 (view s bm !! Z.to_nat (i / 8)) - Z.shiftl 1 (i mod 8))]> (view s bm) /\
    (forall c, c <> bm -> view s' c = view s c) /\ same_dev s s' /\ logs ctx bm s s' /\ keeps s s') s.
Proof.
  intros Hst Hok Hc HA Hl Hb i bm Hcan Hhbm.
  destruct (freed_byte s b Hok Hb) as (x & Hx & _). fold i bm in Hx.
  pose proof (bo_log _ Hok b Hb) as Hlog. pose proof (bo_num _ Hok) as Hnum.
  pose proof (bitmap_block_u64 s b Hok ltac:(lia)) as Hubm. fold bm in Hubm, Hlog.
  unfold cache_free. wp_prim. apply wp_acquire_bitmap_lock; [done|]. wp_prim. wp_prim. st_simpl. fold bm i.
  pose proof (bitmap_lock_steady held A true s Hst) as Hst0. set (s0 := set_bitmap_lock true s) in *.
  wp_prim. eapply wp_mono; [by apply (acquire_steady_wp held A bm s0)|]. intros p s1 Hacq. pose proof Hacq as (Hinv1 & _ & _ & H1).
  destruct (holds_blk _ _ _ _ _ (li_wf _ _ Hinv1) H1) as (B & HB & _ & _ & _ & HdB & _).
  unfold upd_byte. wp_prim. wp_prim. eapply wp_load_blk; [done|].
  wp_prim. apply wp_some_or_ub. exists x. rewrite HdB. split; [done|].
  eapply (store_steady_wp held A bm p _ ctx s0); try done.
  intros s2 Hst2 (Hv2 & Ho2 & Esb2 & _ & D2 & L2 & K2). unfold release_bitmap_lock. wp_prims.
  split; [by apply bitmap_lock_steady|]. split; [done|]. split; [done|]. split; [by rewrite Hx|]. split; [done|]. done.
Qed.

(** The marks after freeing [b]. *)
Lemma freed_used s s' b (i := b mod BIT_PER_BLOCK) (bm := bitmap_block (c_sblock s) b) c :
  c_sblock s' = c_sblock s ->
  view s' bm = <[Z.to_nat (i / 8) := u8 (default 0 (view s bm !! Z.to_nat (i / 8)) - Z.shiftl 1 (i mod 8))]> (view s bm) ->
  (forall d, d <> bm -> view s' d = view s d) ->
  used s' c = if decide (bitmap_block (c_sblock s) c = bm)
       then bitmap_bit (<[Z.to_nat (i / 8) := u8 (default 0 (view s bm !! Z.to_nat (i / 8)) - Z.shiftl 1 (i mod 8))]> (view s bm))
              (c mod BIT_PER_BLOCK)
       else used s c.
Proof. intros Esb Hv Ho. unfold used. rewrite Esb. case_decide as E; [by rewrite E, Hv|by rewrite Ho]. Qed.

Lemma freed_marked s s' b (i := b mod BIT_PER_BLOCK) (bm := bitmap_block (c_sblock s) b) c :
  bitmap_ok s -> 0 <= b < sb_num_blocks (c_sblock s) -> used s b = true -> 0 <= c < sb_num_blocks (c_sblock s) ->
  c_sblock s' = c_sblock s ->
  view s' bm = <[Z.to_nat (i / 8) := u8 (default 0 (view s bm !! Z.to_nat (i / 8)) - Z.shiftl 1 (i mod 8))]> (view s bm) ->
  (forall d, d <> bm -> view s' d = view s d) -> used s' c = negb (c =? b) && used s c.
Proof.
  intros Hok Hb Hused Hcr Esb Hv Ho. rewrite (freed_used s s' b c Esb Hv Ho). fold i bm.
  destruct (freed_byte s b Hok Hb) as (x & Hx & Hi & Hbytes & Hj). fold i bm in Hx, Hi, Hbytes, Hj. case_decide as Ec.
  - rewrite Hx. cbn [from_option id]. rewrite bitmap_clear; try done; try (apply Z.mod_pos_bound; done).
    + rewrite <-Hi. unfold used. rewrite Ec. f_equal. f_equal. pose proof (bo_num _ Hok).
      apply (bitmap_block_inj s); try done; lia.
    + rewrite <-Hi. done.
  - destruct (Z.eqb_spec c b) as [->|]; [|done]. by destruct Ec.
Qed.

(** ** Properties *)

(** C5: [cache_alloc].  In an operation with room for two more log entries,
    it returns the lowest unmarked block number, marks it and nothing else in
    the bitmap, clears its content and leaves every other block as it was; it
    panics exactly when every block is marked. *)
Theorem alloc_first_free A ctx rm s :
  idle A s -> bitmap_ok s -> ctx <> 0 -> ctx ∈ A -> c_bitmap_lock s = false ->
  c_ctx s !! ctx = Some rm -> rm + 2 <= OP_MAX_NUM_BLOCKS ->
  match cache_alloc ctx s with
  | Ret (b, s') => allocated (fun _ => false) ctx A s b s'
  | Panic => forall c, 0 <= c < sb_num_blocks (c_sblock s) -> used s c = true
  | _ => False
  end.
Proof.
  intros Hidle Hok Hc HA Hl Hrm Hbud. apply (cache_alloc_wp (fun _ => false) A ctx Hc HA rm s); try done.
  intros c _. split; [|done]. unfold bm_cost. case_decide; lia.
Qed.

(** [cache_free] of a marked block clears its mark and nothing else in the
    bitmap, and leaves every other block as it was. *)
Theorem free_clears_mark A ctx rm b s :
  idle A s -> bitmap_ok s -> ctx <> 0 -> ctx ∈ A -> c_bitmap_lock s = false ->
  c_ctx s !! ctx = Some rm -> rm < OP_MAX_NUM_BLOCKS ->
  0 <= b < sb_num_blocks (c_sblock s) -> used s b = true ->
  exists s', cache_free ctx b s = Ret (tt, s') /\ idle A s' /\ c_bitmap_lock s' = false /\
    (forall c, 0 <= c < sb_num_blocks (c_sblock s) -> used s' c = negb (c =? b) && used s c) /\
    (forall c, c <> bitmap_block (c_sblock s) b -> view s' c = view s c).
Proof.
  intros Hidle Hok Hc HA Hl Hrm Hbud Hb Hused. assert (can_log ctx (bitmap_block (c_sblock s) b) s) as Hcan by (right; eauto).
  destruct (wp_run _ _ _ (cache_free_wp _ A ctx b s Hidle Hok Hc HA Hl Hb Hcan eq_refl))
    as ([] & s' & Hr & Hidle' & Hl' & Esb & Hv & Ho & _).
  exists s'. split; [done|]. split; [done|]. split; [done|]. split; [|done]. intros c Hcr. by apply (freed_marked s s' b c).
Qed.

(** C29: [cache_free] of a block that is not marked is not harmless: when the
    block after it is in the same byte of the bitmap and marked, the subtraction
    borrows, so that the freed block becomes marked and the block after it, in
    use, becomes free. *)
Theorem double_free_corrupts A ctx rm b s :
  idle A s -> bitmap_ok s -> ctx <> 0 -> ctx ∈ A -> c_bitmap_lock s = false ->
  c_ctx s !! ctx = Some rm -> rm < OP_MAX_NUM_BLOCKS ->
  0 <= b < sb_num_blocks (c_sblock s) -> b + 1 < sb_num_blocks (c_sblock s) -> b mod 8 < 7 ->
  used s b = false -> used s (b + 1) = true ->
  exists s', cache_free ctx b s = Ret (tt, s') /\ used s' b = true /\ used s' (b + 1) = false.
Proof.
  intros Hidle Hok Hc HA Hl Hrm Hbud Hb Hb1 Hlt Hu0 Hu1.
  assert (can_log ctx (bitmap_block (c_sblock s) b) s) as Hcan by (right; eauto).
  destruct (wp_run _ _ _ (cache_free_wp _ A ctx b s Hidle Hok Hc HA Hl Hb Hcan eq_refl))
    as ([] & s' & Hr & _ & _ & Esb & Hv & Ho & _). pose proof (fun c => freed_used s s' b c Esb Hv Ho) as Hu.
  destruct (freed_byte s b Hok Hb) as (x & Hx & Hi & Hbytes & Hmb). set (i := b mod BIT_PER_BLOCK) in *.
  destruct (next_bit s b Hlt ltac:(lia)) as (Ebm & Ediv & Emod). fold i in Ediv, Emod.
  assert (i mod 8 = b mod 8) as Eim.
  { unfold i. change BIT_PER_BLOCK with (8 * 512). rewrite Z.rem_mul_r, (Z.mul_comm 8), Z.mod_add by lia. by rewrite Z.mod_mod. }
  pose proof (Z.mod_pos_bound b 8 ltac:(lia)) as Hj. pose proof (Forall_lookup_1 _ _ _ _ Hbytes Hx) as Hxb.
  assert (Z.testbit x (i mod 8) = false) as T0 by (unfold used, bitmap_bit in Hu0; fold i in Hu0; by rewrite Hx in Hu0).
  assert (Z.testbit x (i mod 8 + 1) = true) as T1.
  { unfold used, bitmap_bit in Hu1. by rewrite Ebm, Ediv, Emod, Hx in Hu1. }
  pose proof (lookup_lt_Some _ _ _ Hx) as Hl8.
  exists s'. split; [done|]. rewrite !Hu, Ebm, !decide_True, Hx by (done || lia). cbn [from_option id].
  fold i. pose proof (Z.mod_pos_bound b BIT_PER_BLOCK ltac:(done)). pose proof (Z.mod_pos_bound (b + 1) BIT_PER_BLOCK ltac:(done)).
  rewrite !bitmap_bit_update, Ediv, Emod, Z.eqb_refl by lia. rewrite sub_clear_bit by (done || lia).
  rewrite Z.setbit_eq, Z.setbit_neq, Z.clearbit_eq by lia. done.
Qed.

(** ** A concrete bitmap: blocks 0 to 95 and 97 are in use *)

Definition demo_bitmap : list Z := replicate 12 255 ++ [2] ++ replicate 499 0.
Definition demo_bitmap_disk : Z -> list Z := fun b => if b =? 92 then demo_bitmap else replicate 512 0.
Definition demo_op : bcache_state :=
  mkBcache demo_sb demo_bitmap_disk [] false false ∅ [] 0 (mkLogHeader 0 (replicate 63 0)) false 0 false 1 {[ 5 := 0 ]}.

Lemma demo_op_idle : idle [5] demo_op.
Proof.
  assert (header_ok demo_sb (mkLogHeader 0 (replicate 63 0))) as Hok.
  { apply empty_header_ok; [done|]. apply Forall_replicate. unfold is_u64. lia. }
  assert (disk_header demo_sb demo_bitmap_disk = mkLogHeader 0 (replicate 63 0)) as Ed by (vm_compute; reflexivity).
  split; [|done]. split; try done.
  - apply (boot_quiet demo_sb demo_bitmap_disk []).
  - intros p B [H _]. by apply elem_of_nil in H.
  - apply NoDup_singleton.
  - intros c ->%list_elem_of_singleton. exists 0. split; [done|]. change OP_MAX_NUM_BLOCKS with 10. lia.
Qed.

Lemma demo_bitmap_block c : 0 <= c < 1000 -> bitmap_block demo_sb c = 92.
Proof. intros Hc. unfold bitmap_block. cbn. change BIT_PER_BLOCK with 4096. rewrite Z.div_small by lia. done. Qed.

Lemma demo_op_bitmap : bitmap_ok demo_op.
Proof.
  assert (forallb (used demo_op) (seqZ 0 96) = true) as Hused by (vm_compute; reflexivity).
  rewrite forallb_forall in Hused.
  assert (forall c, 0 <= c < 96 -> used demo_op c = true) as Hu.
  { intros c Hc. apply Hused, list_elem_of_In, elem_of_seqZ. lia. }
  split; change (c_sblock demo_op) with demo_sb; change (sb_num_blocks demo_sb) with 1000.
  - lia.
  - cbn. lia.
  - intros b Hb. rewrite demo_bitmap_block by done. change (view demo_op 92) with demo_bitmap. split; [done|].
    unfold demo_bitmap. rewrite !Forall_app. split_and!; [|apply Forall_singleton|]; try apply Forall_replicate; unfold is_byte; lia.
  - intros b Hb. rewrite demo_bitmap_block by done. intros [_ H]. apply H. reflexivity.
  - intros b Hb [[H1 H2]|(c & Hc & ->)]; apply Hu.
    + change LOG_MAX_SIZE with 63 in H2. cbn in H1, H2. lia.
    + rewrite demo_bitmap_block by done. lia.
Qed.

Lemma alloc_first_free_witness : exists s', cache_alloc 5 demo_op = Ret (96, s') /\ allocated (fun _ => false) 5 [5] demo_op 96 s'.
Proof.
  pose proof (alloc_first_free [5] 5 0 demo_op demo_op_idle demo_op_bitmap ltac:(lia) ltac:(left) eq_refl eq_refl
    ltac:(vm_compute; discriminate)) as H.
  destruct (cache_alloc 5 demo_op) as [[b s']| | |] eqn:E; [|vm_compute in E; discriminate E|destruct H|destruct H].
  assert (b = 96) as -> by (apply (f_equal (fun r => match r with Ret (x, _) => x | _ => 0 end)) in E; vm_compute in E; congruence).
  exists s'. split; [reflexivity|exact H].
Defined.

Lemma free_clears_mark_witness : exists s', cache_free 5 97 demo_op = Ret (tt, s') /\ used s' 97 = false.
Proof.
  destruct (free_clears_mark [5] 5 0 97 demo_op demo_op_idle demo_op_bitmap ltac:(lia) ltac:(left) eq_refl eq_refl
    ltac:(vm_compute; reflexivity) ltac:(cbn; lia) ltac:(vm_compute; reflexivity)) as (s' & H1 & _ & _ & H2 & _).
  exists s'. split; [exact H1|]. rewrite H2 by (cbn; lia). reflexivity.
Defined.

Lemma double_free_corrupts_witness :
  exists s', cache_free 5 96 demo_op = Ret (tt, s') /\ used s' 96 = true /\ used s' 97 = false.
Proof.
  apply (double_free_corrupts [5] 5 0 96 demo_op demo_op_idle demo_op_bitmap ltac:(lia) ltac:(left) eq_refl eq_refl
    ltac:(vm_compute; reflexivity) ltac:(cbn; lia) ltac:(cbn; lia) ltac:(vm_compute; reflexivity)
    ltac:(vm_compute; reflexivity) ltac:(vm_compute; reflexivity)).
Defined.
