(* ===== verification/CacheInst.v ===== *)
(** * [cache.c] keeps the promise of [fs/cache.h]

    [cache_bc] is [bcache], the structure of function pointers that [cache.c]
    exports, and [cache_spec] is the proof that it satisfies the interface
    [BlockCacheSpec] against which the inode layer is verified. *)

From Stdlib Require Import ZArith Lia.
From stdpp Require Import base tactics numbers gmap list.
From S2P Require Import Prelude FsDefs BlockCache Cache CacheProofs CacheCrash CacheClient CacheBitmap.

Local Open Scope Z_scope.

(** [bcache]. *)
Definition cache_bc : BlockCache bcache_state :=
  mkBlockCache _ cache_acquire cache_release cache_begin_op cache_sync cache_end_op cache_alloc cache_free
    (fun p => b ← load_blk p; mret (data b)) set_data.

(** ** The abstract view of the cache *)

Section rep.
Context (sb : SuperBlock) (A : list Z) (ctx : Z).

(** A block that is neither part of the log nor of the bitmap. *)
Definition client_block (b : Z) : Prop :=
  0 <= b < sb_num_blocks sb /\ ~ log_area sb b /\ forall c, 0 <= c < sb_num_blocks sb -> b <> bitmap_block sb c.

Record crep (v : cview) (s : bcache_state) : Prop := {
  cr_inv : log_inv A s;
  cr_sb : c_sblock s = sb;
  cr_lock : c_bitmap_lock s = false;
  cr_bitmap : bitmap_ok s;
  cr_content : forall b, client_block b -> view s b = cv_content v b /\ is_block (view s b);
  cr_used : forall b, 0 <= b < sb_num_blocks sb -> used s b = cv_used v b;
  cr_held : forall p b d, cv_held v !! p = Some (b, d) -> client_block b /\
    exists pin, holds s p b pin (view s b) /\ (d = false -> pin = false -> view s b = c_disk s b);
  cr_only : forall b, is_held s b = true -> exists p d, cv_held v !! p = Some (b, d);
  cr_logged : forall b, b ∈ cv_logged v <-> b ∈ entries (c_header s);
  cr_room : c_ctx s !! ctx = Some (OP_MAX_NUM_BLOCKS - cv_room v) }.

(** What a step on the client's block [b] that leaves the log alone must show. *)
Record on_block (b : Z) (v v' : cview) (s s' : bcache_state) : Prop := {
  ob_block : is_block (view s' b);
  ob_pinned : is_pinned s' b = true -> is_pinned s b = true;
  ob_content : forall c, client_block c -> cv_content v' c = if decide (c = b) then view s' b else cv_content v c;
  ob_used : cv_used v' = cv_used v;
  ob_logged : cv_logged v' = cv_logged v;
  ob_room : cv_room v' = cv_room v;
  ob_other : forall p c d, c <> b -> cv_held v' !! p = Some (c, d) <-> cv_held v !! p = Some (c, d);
  ob_held : forall p d, cv_held v' !! p = Some (b, d) ->
    exists pin, holds s' p b pin (view s' b) /\ (d = false -> pin = false -> view s' b = c_disk s' b);
  ob_only : is_held s' b = true -> exists p d, cv_held v' !! p = Some (b, d) }.

Lemma crep_step b v v' s s' :
  crep v s -> client_block b -> step_on b s s' -> same_dev s s' -> on_block b v v' s s' -> crep v' s'.
Proof.
  intros [] Hb S D []. pose proof S as (W & R & V & K & _). pose proof Hb as (_ & Hlog & Hbm).
  pose proof R as (Esb & Ebl & _ & Eh & _ & _ & _ & _ & Ec). rewrite cr_sb0 in Esb.
  assert (forall c, 0 <= c < sb_num_blocks sb -> view s' (bitmap_block sb c) = view s (bitmap_block sb c)) as Vb.
  { intros c Hc. apply V. intros E. by apply (Hbm c). }
  assert (forall c, 0 <= c < sb_num_blocks sb -> used s' c = used s c) as Hu.
  { intros c Hc. unfold used. by rewrite Esb, cr_sb0, Vb. }
  split; rewrite ?Esb, ?Eh, ?Ec, ?ob_used0, ?ob_logged0, ?ob_room0; try done.
  - apply (log_inv_step A b s s'); try done; [by rewrite cr_sb0|]. intros H. by apply cr_inv0, ob_pinned0.
  - congruence.
  - apply (bitmap_ok_kept s); try done; rewrite ?cr_sb0 in *; try done.
    + intros c Hc. rewrite Vb by done. pose proof (bo_bytes _ cr_bitmap0 c) as H. rewrite cr_sb0 in H. auto.
    + intros c Hc _ H. by rewrite Hu.
  - intros c Hc. rewrite ob_content0 by done. destruct (decide (c = b)) as [->|Hne]; [done|].
    destruct (V c Hne) as (-> & _). auto.
  - intros c Hc. rewrite Hu by done. auto.
  - intros p c d Hp. destruct (decide (c = b)) as [->|Hne]; [split; [done|]; eauto|].
    apply ob_other0 in Hp; [|done]. destruct (cr_held0 p c d Hp) as (Hc & pin & H1 & H2). split; [done|].
    exists pin. destruct (V c Hne) as (-> & _). destruct D as [-> _]. split; [|done]. by apply K.
  - intros c Hc. destruct (decide (c = b)) as [->|Hne]; [auto|]. destruct (V c Hne) as (_ & _ & E). rewrite E in Hc.
    destruct (cr_only0 c Hc) as (p & d & H). exists p, d. by apply ob_other0.
Qed.

Lemma crep_steady v s : crep v s -> steady (is_held s) A s.
Proof. intros []. done. Qed.

(** A block the client does not hold. *)
Lemma crep_unheld v s b : crep v s -> (forall p d, cv_held v !! p <> Some (b, d)) -> is_held s b = false.
Proof.
  intros [] H. destruct (is_held s b) eqn:E; [|done]. destruct (cr_only0 b E) as (p & d & Hp). by destruct (H p d).
Qed.

Lemma holds_fun s p b b' pin pin' x x' : holds s p b pin x -> holds s p b' pin' x' -> b = b'.
Proof. intros (B & [_ H1] & <- & _) (B' & [_ H2] & <- & _). congruence. Qed.

(** Only one address holds a block. *)
Lemma crep_held_uniq v s p q b d d' : crep v s -> cv_held v !! p = Some (b, d) -> cv_held v !! q = Some (b, d') -> p = q.
Proof.
  intros [] H1 H2. destruct (cr_held0 p b d H1) as (_ & pin & (B & HB & EB & _) & _).
  destruct (cr_held0 q b d' H2) as (_ & pin' & (C & HC & EC & _) & _).
  apply (wf_uniq _ _ _ _ (li_wf _ _ cr_inv0) p q B C); congruence.
Qed.

(** ** The operations *)

Lemma crep_acquire v s b : crep v s -> client_block b -> (forall p d, cv_held v !! p <> Some (b, d)) ->
  wp (cache_acquire b) (fun p s' => cv_held v !! p = None /\ crep (v_hold p b false v) s') s.
Proof.
  intros H Hb Hn. pose proof (crep_unheld v s b H Hn) as Hh. pose proof (cr_content v s H b Hb) as [Hv Hblk].
  eapply wp_mono; [apply acquire_step; [apply H|apply H|done]|]. intros p s' (S & D & Hp).
  pose proof S as (W & _ & _ & K & _). destruct (holds_view _ _ _ _ _ W Hp) as (Ev & Epin & Eh).
  assert (cv_held v !! p = None) as Hp0.
  { destruct (cv_held v !! p) as [[c d]|] eqn:E; [|done]. destruct (cr_held v s H p c d E) as (_ & pin & Hc & _).
    assert (c <> b) as Hne by (intros ->; by apply (Hn p d)). apply (K p c pin _ Hne) in Hc.
    destruct Hne. by eapply holds_fun. }
  split; [done|]. apply (crep_step b v _ s s' H Hb S D). split; try done; cbn [v_hold cv_content cv_held].
  - by rewrite Ev.
  - by rewrite Epin.
  - intros c Hc. case_decide; [subst; by rewrite Ev|done].
  - intros q c d Hne. destruct (decide (q = p)) as [->|Hq]; [|by rewrite lookup_insert_ne].
    rewrite lookup_insert_eq, Hp0. naive_solver.
  - intros q d Hq. destruct (decide (q = p)) as [->|Hqp]; [|rewrite lookup_insert_ne in Hq by done; by apply Hn in Hq].
    exists (is_pinned s b). rewrite Ev. split; [done|]. intros _ Hpin. destruct D as [-> _]. apply unheld_clean; [apply H|done|done].
  - intros _. exists p, false. by rewrite lookup_insert_eq.
Qed.

Lemma crep_data v s p b d : crep v s -> cv_held v !! p = Some (b, d) ->
  bc_data cache_bc p s = Ret (cv_content v b, s).
Proof.
  intros H Hp. destruct (cr_held v s H p b d Hp) as (Hb & pin & Hh & _).
  destruct (holds_blk _ _ _ _ _ (li_wf _ _ (cr_inv v s H)) Hh) as (B & HB & _ & _ & _ & Hd & _).
  cbn. unfold mbind, M_bind, load_blk, some_or_ub. rewrite HB. cbn. rewrite Hd.
  by rewrite (proj1 (cr_content v s H b Hb)).
Qed.

Lemma crep_set_data v s p b d x : crep v s -> cv_held v !! p = Some (b, d) -> is_block x ->
  wp (set_data p x) (fun _ s' => crep (v_store b x (v_hold p b true v)) s') s.
Proof.
  intros H Hp Hx. destruct (cr_held v s H p b d Hp) as (Hb & pin & Hh & _).
  pose proof (li_wf _ _ (cr_inv v s H)) as W0. destruct (holds_view _ _ _ _ _ W0 Hh) as (_ & Epin0 & _).
  eapply wp_mono; [by apply (set_data_step p b pin (view s b) x)|]. intros _ s' (S & D & H').
  pose proof S as (W & _). destruct (holds_view _ _ _ _ _ W H') as (Ev & Epin & Eh).
  apply (crep_step b v _ s s' H Hb S D). split; try done; cbn [v_hold v_store cv_content cv_held].
  - by rewrite Ev.
  - by rewrite Epin, Epin0.
  - intros c Hc. case_decide; [subst; by rewrite upd_eq|by rewrite upd_ne].
  - intros q c d' Hne. destruct (decide (q = p)) as [->|Hq]; [|by rewrite lookup_insert_ne].
    rewrite lookup_insert_eq, Hp. naive_solver.
  - intros q d' Hq. destruct (decide (q = p)) as [->|Hqp].
    + rewrite lookup_insert_eq in Hq. injection Hq as <-. exists pin. by rewrite Ev.
    + rewrite lookup_insert_ne in Hq by done. destruct Hqp. by eapply crep_held_uniq.
  - intros _. exists p, true. by rewrite lookup_insert_eq.
Qed.

(** [cache_release] leaves the block where it is. *)
Lemma release_data p s B : c_lock s = false -> c_blk s !! p = Some B ->
  exists s', cache_release p s = Ret (tt, s') /\ bc_data cache_bc p s' = Ret (data B, s').
Proof.
  intros Hl HB. unfold cache_release, acquire_lock, set_acquired, post_blk_lock, release_lock, load_blk, store_blk, gets,
    modify, mbind, M_bind, some_or_ub. rewrite Hl. cbn. rewrite HB. cbn. rewrite lookup_insert_eq. cbn.
  eexists. split; [done|]. unfold mbind, M_bind, load_blk, some_or_ub. cbn. by rewrite !lookup_insert_eq.
Qed.

Lemma crep_release v s p b : crep v s -> cv_held v !! p = Some (b, false) ->
  wp (cache_release p) (fun _ s' => crep (v_drop p v) s' /\ bc_data cache_bc p s' = Ret (cv_content v b, s')) s.
Proof.
  intros H Hp. destruct (cr_held v s H p b false Hp) as (Hb & pin & Hh & Hclean).
  pose proof (li_wf _ _ (cr_inv v s H)) as W0. destruct (holds_view _ _ _ _ _ W0 Hh) as (_ & Epin0 & _).
  pose proof (cr_content v s H b Hb) as [Hv Hblk].
  destruct (holds_blk _ _ _ _ _ W0 Hh) as (B & HB & _ & _ & _ & Hd & _).
  destruct (release_data p s B) as (s' & Hr & Hdata); [apply H|done|].
  destruct (wp_run _ _ _ (release_step p b pin (view s b) s W0 (li_lock _ _ (cr_inv v s H)) Hh (fun E => Hclean eq_refl E)))
    as ([] & s2 & Hr2 & S & D & Ev & Epin & Eh). rewrite Hr in Hr2. simplify_eq.
  eapply wp_intro; [exact Hr|]. split; [|by rewrite Hdata, Hd, Hv].
  apply (crep_step b v _ s s2 H Hb S D). split; try done; cbn [v_drop cv_content cv_held].
  - by rewrite Ev.
  - by rewrite Epin.
  - intros c Hc. case_decide; [subst; by rewrite Ev|done].
  - intros q c d' Hne. destruct (decide (q = p)) as [->|Hq]; [|by rewrite lookup_delete_ne].
    rewrite lookup_delete_eq, Hp. naive_solver.
  - intros q d' Hq. apply lookup_delete_Some in Hq as [Hqp Hq]. destruct Hqp. by eapply crep_held_uniq.
  - by rewrite Eh.
Qed.

(** The accounting of the log. *)
Definition accounts (v : cview) (s : bcache_state) : Prop :=
  (forall b, b ∈ cv_logged v <-> b ∈ entries (c_header s)) /\ c_ctx s !! ctx = Some (OP_MAX_NUM_BLOCKS - cv_room v).

Lemma accounts_cost v s b : accounts v s -> log_cost b v = if decide (b ∈ entries (c_header s)) then 0 else 1.
Proof. intros [H _]. unfold log_cost. pose proof (H b). repeat case_decide; tauto. Qed.

Lemma accounts_can v s b : accounts v s -> log_cost b v <= cv_room v -> can_log ctx b s.
Proof.
  intros H. rewrite (accounts_cost v s b H). destruct H as [_ Hr]. unfold can_log. case_decide; [by left|].
  intros Hle. right. eexists. split; [exact Hr|]. lia.
Qed.

Lemma accounts_log v s s' b : accounts v s -> logs ctx b s s' -> accounts (v_log b v) s'.
Proof.
  intros H L. pose proof (accounts_cost v s b H) as Ec. destruct H as [H Hr]. split.
  - intros c. rewrite (logs_elem ctx b c s s' L). cbn [v_log cv_logged]. rewrite <-H. set_solver.
  - cbn [v_log cv_room]. rewrite Ec. unfold logs in L. revert L. case_decide; intros [_ ->]; rewrite Hr; [|cbn]; f_equal; lia.
Qed.

Lemma crep_accounts v s : crep v s -> accounts v s.
Proof. intros []. by split. Qed.

Context (Hctx : ctx <> 0) (HA : ctx ∈ A).

Lemma client_u64 v s b : crep v s -> client_block b -> is_u64 b.
Proof. intros H [Hb _]. pose proof (bo_num _ (cr_bitmap v s H)) as Hn. rewrite (cr_sb v s H) in Hn. unfold is_u64. lia. Qed.

Lemma crep_sync v s p b d : crep v s -> cv_held v !! p = Some (b, d) -> log_cost b v <= cv_room v ->
  wp (cache_sync ctx p) (fun _ s' => crep (v_log b (v_hold p b false v)) s') s.
Proof.
  intros H Hp Hc. destruct (cr_held v s H p b d Hp) as (Hb & pin & Hh & _). pose proof (crep_accounts v s H) as Ha.
  pose proof (accounts_can v s b Ha Hc) as Hcan. pose proof Hb as (Hbr & Hlog & Hbm).
  assert (~ log_area (c_sblock s) b) as Hlog' by (by rewrite (cr_sb v s H)).
  eapply wp_mono; [exact (cache_sync_wp ctx p b pin _ A s (cr_inv v s H) Hctx HA Hh (client_u64 v s b H Hb) Hlog' Hcan)|].
  intros _ s' (Hinv & Hh' & L & [D _] & Esb & Ebl & K & V).
  assert (accounts (v_log b (v_hold p b false v)) s') as [Ha1 Ha2] by (apply (accounts_log _ s); done).
  destruct (holds_view _ _ _ _ _ (li_wf _ _ Hinv) Hh') as (Ev & _ & Eheld).
  assert (forall c, view s' c = view s c) as Vw.
  { intros c. destruct (decide (c = b)) as [->|Hne]; [done|]. by apply V. }
  destruct H. rewrite cr_sb0 in *.
  assert (forall c, used s' c = used s c) as Hu by (intros c; unfold used; by rewrite Esb, cr_sb0, Vw).
  split; try done.
  - congruence.
  - apply (bitmap_ok_kept s); try done; [congruence| |]; intros c Hc'; [rewrite Vw; by apply cr_bitmap0|by rewrite Hu].
  - intros c Hc'. rewrite Vw. by apply cr_content0.
  - intros c Hc'. rewrite Hu. by apply cr_used0.
  - intros q c d'. cbn [v_log v_hold cv_held]. destruct (decide (q = p)) as [->|Hq].
    + rewrite lookup_insert_eq. intros [= <- <-]. split; [done|]. exists true. by rewrite Vw.
    + rewrite lookup_insert_ne by done. intros Hq'. destruct (cr_held0 q c d' Hq') as (Hcc & pin' & H1 & H2).
      assert (c <> b) as Hne. { intros ->. destruct Hq. eapply (crep_held_uniq v s); [by split|done|done]. }
      split; [done|]. exists pin'. rewrite Vw, D. split; [|done]. by apply K.
  - intros c Hc'. cbn [v_log v_hold cv_held]. destruct (decide (c = b)) as [->|Hne].
    + exists p, false. by rewrite lookup_insert_eq.
    + destruct (V c Hne) as (_ & E). rewrite E in Hc'. destruct (cr_only0 c Hc') as (q & d' & Hq).
      exists q, d'. rewrite lookup_insert_ne; [done|]. intros ->. rewrite Hp in Hq. congruence.
Qed.

(** Steps on the bitmap: what stays of the rest. *)
Lemma crep_bitmap_step v v' s s' :
  crep v s -> steady (is_held s) A s' -> c_sblock s' = c_sblock s -> c_bitmap_lock s' = false -> bitmap_ok s' ->
  same_dev s s' -> keeps s s' -> cv_held v' = cv_held v -> accounts v' s' ->
  (forall b, client_block b -> view s' b = cv_content v' b /\ is_block (view s' b)) ->
  (forall p b d, cv_held v !! p = Some (b, d) -> view s' b = view s b) ->
  (forall b, 0 <= b < sb_num_blocks sb -> used s' b = cv_used v' b) -> crep v' s'.
Proof.
  intros [] [Hinv Hh] Esb Ebl Hok [D _] K Eh [A1 A2] Hv Hheld Hu. split; try done; [congruence| |].
  - intros p b d Hp. rewrite Eh in Hp. destruct (cr_held0 p b d Hp) as (Hb & pin & H1 & H2). split; [done|].
    exists pin. rewrite (Hheld p b d Hp), D. split; [by apply K|done].
  - intros b Hb. rewrite Hh in Hb. rewrite Eh. by apply cr_only0.
Qed.

(** Bitmap blocks are not the client's, so that the client holds none. *)
Lemma bitmap_unheld v s c : crep v s -> 0 <= c < sb_num_blocks sb -> is_held s (bitmap_block sb c) = false.
Proof.
  intros H Hc. apply (crep_unheld v); [done|]. intros p d Hp. destruct (cr_held v s H p _ d Hp) as ((_ & _ & Hn) & _). by apply (Hn c).
Qed.

Lemma crep_alloc v s : crep v s ->
  (exists b, 0 <= b < sb_num_blocks sb /\ cv_used v b = false) ->
  (forall p b d, cv_held v !! p = Some (b, d) -> cv_used v b = true) ->
  (forall b, 0 <= b < sb_num_blocks sb -> log_cost (bitmap_block sb b) v + 1 <= cv_room v) ->
  wp (cache_alloc ctx) (fun b s' => 0 <= b < sb_num_blocks sb /\ cv_used v b = false /\ client_block b /\
    crep (v_log b (v_log (bitmap_block sb b) (v_store b zero_block (v_mark b true v)))) s') s.
Proof.
  intros H (b0 & Hb0 & Hf0) Hheld Hroom. pose proof (crep_accounts v s H) as Ha. pose proof (cr_sb v s H) as Esb.
  pose proof (cache_alloc_wp (is_held s) A ctx Hctx HA (OP_MAX_NUM_BLOCKS - cv_room v) s (crep_steady v s H)
    (cr_bitmap v s H) (cr_lock v s H) (proj2 Ha)) as Hal.
  unfold wp. unfold wp_or_panic in Hal. rewrite Esb in Hal. specialize (Hal ltac:(intros c Hc; split_and!;
    [specialize (Hroom c Hc); unfold bm_cost; rewrite Esb; rewrite (accounts_cost v s _ Ha) in Hroom; revert Hroom; case_decide; lia
    |by apply (bitmap_unheld v)
    |intros Hu; apply (crep_unheld v); [done|]; intros p d Hp; rewrite (cr_used v s H c Hc) in Hu; rewrite (Hheld p c d Hp) in Hu; done])).
  destruct (cache_alloc ctx s) as [[b s']| | |]; [|specialize (Hal b0 Hb0); rewrite (cr_used v s H b0 Hb0) in Hal; congruence|done|done].
  destruct Hal as [Hr Hf _ Hst Hz Hu Hs Hl Esb' Hok D K (s1 & L1 & L2)]. rewrite Esb in *.
  assert (client_block b) as Hcb.
  { pose proof (bo_marked _ (cr_bitmap v s H) b) as Hm. rewrite Esb, Hf in Hm. split; [done|]. split.
    - intros Hlog. specialize (Hm Hr (or_introl Hlog)). done.
    - intros c Hc Ec. specialize (Hm Hr (or_intror (ex_intro _ c (conj Hc Ec)))). done. }
  split; [done|]. split; [by rewrite <-(cr_used v s H b Hr)|]. split; [done|].
  apply (crep_bitmap_step v _ s s'); try done; [congruence| | | |].
  - apply (accounts_log _ s1); [|done]. by apply (accounts_log _ s).
  - intros c Hc. cbn [v_log v_store v_mark cv_content]. destruct (decide (c = b)) as [->|Hne].
    + rewrite upd_eq, Hz. split; [done|]. apply zero_block_ok.
    + rewrite upd_ne, Hs by (try done; by apply Hc). by apply (cr_content v s H).
  - intros p c d Hp. destruct (cr_held v s H p c d Hp) as (Hc & _). apply Hs; [|by apply Hc].
    intros ->. rewrite (cr_used v s H b Hr), (Hheld p b d Hp) in Hf. done.
  - intros c Hc. rewrite Hu by done. cbn [v_log v_store v_mark cv_used]. unfold upd. rewrite (cr_used v s H c Hc). by destruct (c =? b).
Qed.

Lemma crep_free v s b : crep v s -> 0 <= b < sb_num_blocks sb -> client_block b -> cv_used v b = true ->
  log_cost (bitmap_block sb b) v <= cv_room v ->
  wp (cache_free ctx b) (fun _ s' => crep (v_log (bitmap_block sb b) (v_mark b false v)) s') s.
Proof.
  intros H Hb Hcb Hub Hroom. pose proof (crep_accounts v s H) as Ha. pose proof (cr_sb v s H) as Esb.
  pose proof (accounts_can v s _ Ha Hroom) as Hcan.
  pose proof (cache_free_wp (is_held s) A ctx b s (crep_steady v s H) (cr_bitmap v s H) Hctx HA (cr_lock v s H)) as Hfr.
  rewrite Esb in Hfr. specialize (Hfr Hb Hcan (bitmap_unheld v s b H Hb)).
  eapply wp_mono; [exact Hfr|]. clear Hfr. intros [] s' (Hst & Hl & Esb' & Hbm & Ho & D & L & K).
  assert (forall c, 0 <= c < sb_num_blocks sb -> used s' c = negb (c =? b) && used s c) as Hu.
  { intros c Hc. apply (freed_marked s s' b c); rewrite ?Esb; try done; [apply (cr_bitmap v s H)|by rewrite (cr_used v s H)]. }
  assert (forall c, client_block c -> view s' c = view s c) as Hs by (intros c (_ & _ & Hc); apply Ho; by apply Hc).
  apply (crep_bitmap_step v _ s s'); try done; [congruence| | | | |].
  - apply (bitmap_ok_kept s); rewrite ?Esb; try done; [apply (cr_bitmap v s H)| |].
    + pose proof (bytes_kept s s' (bitmap_block sb b)) as Hby. rewrite Esb in Hby. eapply Hby; [apply (cr_bitmap v s H)|exact Hbm|auto].
    + intros c Hc Hres Huc. rewrite Hu, Huc by done. destruct (Z.eqb_spec c b) as [->|]; [|done].
      destruct Hcb as (_ & Hn1 & Hn2). destruct Hres as [Hres|(e & He & ->)]; [done|]. by destruct (Hn2 e).
  - by apply (accounts_log _ s).
  - intros c Hc. rewrite Hs by done. by apply (cr_content v s H).
  - intros p c d Hp. apply Hs. by apply (cr_held v s H p c d).
  - intros c Hc. rewrite Hu by done. cbn [v_log v_mark cv_used]. unfold upd. rewrite (cr_used v s H c Hc). by destruct (c =? b).
Qed.

(** ** The promise *)

#[export] Instance cache_spec : BlockCacheSpec cache_bc (sb_num_blocks sb) ctx := {
  bc_rep := crep;
  bc_client := client_block;
  bc_bitmap := bitmap_block sb;
  bc_ctx := Hctx;
  bc_block v s b H Hb := eq_ind _ is_block (proj2 (cr_content v s H b Hb)) _ (proj1 (cr_content v s H b Hb));
  bc_held_client v s p b d H Hp := proj1 (cr_held v s H p b d Hp);
  acquire_spec := crep_acquire;
  data_spec := crep_data;
  set_data_spec := crep_set_data;
  sync_spec := crep_sync;
  release_spec := crep_release;
  alloc_spec := crep_alloc;
  free_spec := crep_free }.
End rep.
