(* ===== verification/InodeDemo.v ===== *)
(** * A file on a concrete disk

    The inode layer over [cache.c] on a small disk: inode 1 is a regular file
    of five bytes in block 95.  The theorems about files apply to it. *)

From Stdlib Require Import ZArith Lia.
From stdpp Require Import base tactics numbers gmap list.
From S2P Require Import Prelude FsDefs Console BlockCache Inode InodeProofs Cache CacheProofs CacheCrash CacheClient CacheBitmap CacheInst.

Local Open Scope Z_scope.

Section content.
(** The bytes of the file. *)
Context (c : list Z).
Definition entry_with : InodeEntry := mkEntry INODE_REGULAR 0 0 1 (Z.of_nat (length c)) (95 :: replicate 11 0) 0.
Definition disk_with : Z -> list Z := fun b =>
  if b =? 92 then demo_bitmap else if b =? 95 then splice 0 c (replicate 512 0) else if b =? 66 then splice 64 (entry_bytes entry_with) (replicate 512 0) else replicate 512 0.
Definition cache_with : bcache_state :=
  mkBcache demo_sb disk_with [] false false ∅ [] 0 (mkLogHeader 0 (replicate 63 0)) false 0 false 1 {[ 5 := 0 ]}.
Definition inode_with (lock rc : Z) : Inode := mkInode lock rc 1 true entry_with.
Definition view_with : cview := mkView disk_with (fun b => bitmap_bit demo_bitmap (b mod BIT_PER_BLOCK)) ∅ ∅ 10.
End content.

Definition hello : list Z := [104; 101; 108; 108; 111].
Definition file_entry : InodeEntry := entry_with hello.
Definition file_cache : bcache_state := cache_with hello.
Definition file_inode : Inode := inode_with hello 0 1.
Definition file_state : istate bcache_state :=
  mkIstate demo_sb file_cache false [7] {[ 7 := file_inode ]} 0 console_init false 0.
Definition file_view : cview := view_with hello.

(** ** The disk satisfies the invariants *)

Lemma demo_bitmap_is_block : is_block demo_bitmap.
Proof.
  split; [done|]. unfold demo_bitmap. rewrite !Forall_app. split_and!; [|apply Forall_singleton|]; try apply Forall_replicate; unfold is_byte; lia.
Qed.

Lemma bytes_check l : forallb (fun b => (0 <=? b) && (b <? 256)) l = true -> Forall is_byte l.
Proof.
  intros H. apply Forall_forall. intros x Hx. rewrite forallb_forall in H. specialize (H x (proj1 (list_elem_of_In _ _) Hx)).
  unfold is_byte. lia.
Qed.

Lemma file_client b : 0 <= b < 1000 -> ~ (2 <= b <= 65) -> b <> 92 -> client_block demo_sb b.
Proof.
  intros H1 H2 H3. split; [done|]. split.
  - intros [Ha Hb]. change LOG_MAX_SIZE with 63 in Hb. cbn in Ha, Hb. lia.
  - intros c Hc. by rewrite demo_bitmap_block.
Qed.

#[local] Instance file_spec : BlockCacheSpec cache_bc (sb_num_blocks demo_sb) 5 :=
  cache_spec demo_sb [5] 5 ltac:(lia) ltac:(left).

Section content.
Context (c : list Z).
Hypothesis Hlen : (length c <= 512)%nat.
Hypothesis Hbytes : Forall is_byte c.

Lemma demo_used_below b : 0 <= b < 96 -> cv_used (view_with c) b = true.
Proof.
  assert (forallb (fun b => bitmap_bit demo_bitmap (b mod BIT_PER_BLOCK)) (seqZ 0 96) = true) as H by (vm_compute; reflexivity).
  rewrite forallb_forall in H. intros Hb. apply H, list_elem_of_In, elem_of_seqZ. lia.
Qed.

Lemma cache_used b : 0 <= b < 1000 -> used (cache_with c) b = cv_used (view_with c) b.
Proof. intros Hb. unfold used. change (c_sblock (cache_with c)) with demo_sb. by rewrite demo_bitmap_block. Qed.

Lemma entry_with_ok : entry_ok (entry_with c).
Proof. split; cbn [entry_with ie_type ie_major ie_minor ie_num_links ie_num_bytes ie_addrs ie_indirect]; try done; try lia. constructor; [lia|]. apply (Forall_replicate _ 11). lia. Qed.
Lemma length_entry_with : length (entry_bytes (entry_with c)) = 64%nat.
Proof. by apply length_entry_bytes. Qed.

Lemma disk_block b : is_block (disk_with c b).
Proof.
  assert (Forall is_byte (replicate 512 0)) as Hz by (apply Forall_replicate; unfold is_byte; lia).
  unfold disk_with. destruct (b =? 92); [apply demo_bitmap_is_block|].
  destruct (b =? 95); [apply splice_block; [exact Hlen|exact Hbytes|by split]|].
  destruct (b =? 66); [|by split]. apply splice_block; [rewrite length_entry_with; change (Z.to_nat BLOCK_SIZE) with 512%nat; lia|apply entry_bytes_is_byte|by split].
Qed.

Lemma cache_with_inv : log_inv [5] (cache_with c).
Proof.
  assert (header_ok demo_sb (mkLogHeader 0 (replicate 63 0))) as Hok.
  { apply empty_header_ok; [done|]. apply Forall_replicate. unfold is_u64. lia. }
  assert (disk_header demo_sb (disk_with c) = mkLogHeader 0 (replicate 63 0)) as Ed by (unfold disk_header; change (disk_with c _) with (replicate 512 0); vm_compute; reflexivity).
  split; try done.
  - apply (boot_quiet demo_sb (disk_with c) []).
  - intros p B [H _]. by apply elem_of_nil in H.
  - apply NoDup_singleton.
  - intros x ->%list_elem_of_singleton. exists 0. split; [done|]. change OP_MAX_NUM_BLOCKS with 10. lia.
Qed.

Lemma cache_with_bitmap : bitmap_ok (cache_with c).
Proof.
  split; change (c_sblock (cache_with c)) with demo_sb; change (sb_num_blocks demo_sb) with 1000.
  - lia.
  - cbn. lia.
  - intros b Hb. rewrite demo_bitmap_block by done. apply demo_bitmap_is_block.
  - intros b Hb. rewrite demo_bitmap_block by done. intros [_ H]. apply H. reflexivity.
  - intros b Hb H. rewrite cache_used by done. apply demo_used_below. destruct H as [[H1 H2]|(x & Hx & ->)].
    + change LOG_MAX_SIZE with 63 in H2. cbn in H1, H2. lia.
    + rewrite demo_bitmap_block by done. lia.
Qed.

Lemma rep_with : crep demo_sb [5] 5 (view_with c) (cache_with c).
Proof.
  split; try done.
  - apply cache_with_inv.
  - apply cache_with_bitmap.
  - intros b _. split; [done|]. apply disk_block.
  - intros b Hb. by apply cache_used.
  - intros b. cbn. set_solver.
Qed.

Lemma blk_with n : 0 <= n < INODE_MAX_BLOCKS -> blk_at (entry_with c) (disk_with c) n = if n =? 0 then 95 else 0.
Proof.
  intros Hn. unfold blk_at. change (ie_indirect (entry_with c) =? 0) with true. cbn iota. destruct (Z.eqb_spec n 0) as [->|Hne]; [done|].
  destruct (n <? INODE_NUM_DIRECT); [|done]. change (ie_addrs (entry_with c)) with (95 :: replicate 11 0).
  destruct (Z.to_nat n) as [|k] eqn:E; [lia|]. cbn [lookup list_lookup]. fold (replicate 11 0 !! k).
  destruct (replicate 11 0 !! k) as [x|] eqn:Ex; [|done]. by apply lookup_replicate in Ex as [-> _].
Qed.

Lemma owns_with b : owns (entry_with c) (disk_with c) b -> b = 95.
Proof.
  intros [Hb [->|(n & Hn & E)]]; [done|]. rewrite blk_with in E by done. destruct (n =? 0); congruence.
Qed.

Lemma ok_with lock rc : ino_ok (Spec := file_spec) cache_bc demo_sb 5 (view_with c) (inode_with c lock rc).
Proof.
  assert (to_block_no demo_sb 1 = 66) as E66 by reflexivity.
  split; cbn [inode_with i_valid i_entry i_no view_with cv_content]; rewrite ?E66; try done.
  - apply entry_with_ok.
  - apply file_client; lia.
  - by intros H%owns_with.
  - intros b ->%owns_with. split; [done|]. split; [apply file_client; lia|by apply demo_used_below].
  - intros n m Hn Hm. rewrite !blk_with by done. destruct (Z.eqb_spec n 0), (Z.eqb_spec m 0); congruence.
  - change (disk_with c 66) with (splice 64 (entry_bytes (entry_with c)) (replicate 512 0)). change (get_entry 1) with 64%nat. unfold splice.
    rewrite drop_app_length' by done. apply entry_roundtrip, entry_with_ok.
Qed.

Lemma no_holes_with : no_holes (entry_with c) (disk_with c).
Proof.
  split; [change (Z.of_nat (length c) <= 71680); lia|].
  intros j Hj. change (ie_num_bytes (entry_with c)) with (Z.of_nat (length c)) in Hj. change BLOCK_SIZE with 512. rewrite Z.div_small by lia. by rewrite blk_with by done.
Qed.
End content.

Lemma hello_len : (length hello <= 512)%nat.
Proof. cbn. lia. Qed.
Lemma hello_bytes : Forall is_byte hello.
Proof. by apply bytes_check. Qed.
Definition file_rep := rep_with hello hello_len hello_bytes.
Definition file_ok := ok_with hello hello_len 0 1.
Definition file_no_holes := no_holes_with hello hello_len.

(** ** The theorems at this file *)

(** Writing two bytes at the end of the file extends it. *)
Lemma inode_write_splices_witness :
  exists s' e' v', inode_write cache_bc 5 7 [33; 10] 5 file_state = Ret (2, s') /\
    file_bytes e' (cv_content v') = hello ++ [33; 10].
Proof.
  destruct (inode_write_splices (Spec := file_spec) cache_bc demo_sb 5 92 file_state 7 file_inode file_view [33; 10] 5
    demo_bitmap_block eq_refl file_rep eq_refl file_ok file_no_holes eq_refl ltac:(done) ltac:(cbn; lia)
    ltac:(vm_compute; discriminate) ltac:(apply bytes_check; reflexivity) ltac:(vm_compute; discriminate)
    ltac:(vm_compute; discriminate)) as (s' & e' & v' & H1 & _ & _ & _ & _ & _ & H2).
  exists s', e', v'. split; [exact H1|]. rewrite H2. vm_compute. reflexivity.
Defined.

(** Reading ten bytes from offset 1 gives the four that are there. *)
Lemma inode_read_slice_witness :
  exists s', inode_read cache_bc 7 1 10 file_state = Ret ((4, [101; 108; 108; 111]), s').
Proof.
  destruct (inode_read_slice (Spec := file_spec) cache_bc demo_sb 5 file_state 7 file_inode file_view 1 10
    eq_refl file_rep eq_refl file_ok file_no_holes eq_refl ltac:(done) ltac:(lia) ltac:(lia) ltac:(lia)) as (s' & H & _).
  exists s'. rewrite H. vm_compute. reflexivity.
Defined.
