(* ===== verification/Exec.v ===== *)
(** * Program loading: [kernel/exec.c]

    [execve] over the inode layer (file [Inode], with any block cache), the pages
    and tables (files [Mem], [PageTable]) and user memory (file [UserMem]).  The
    state has the directory of the process and the fields of its user context that
    the call sets.  The strings of [argv] and [envp], which are in the old address
    space, are arguments; the list of pointers ends with NULL.  The offsets of the
    fields of an ELF header are those of [elf.h].  The new directory is its table:
    its sections are left out, which [execve] does not read, and [kalloc] has found
    memory for the structure, to which [init_pgdir] stores before the test for
    NULL. *)

From Stdlib Require Import ZArith Lia.
From stdpp Require Import base tactics numbers gmap list.
From S2P Require Import Prelude Mem PageTable Paging Fork UserMem BlockCache Inode.

Local Open Scope Z_scope.

Definition MAXARG : nat := 10.

(** ** The new address space *)

(** The loop of [allocuvm] from address [a] on; [n] bounds its turns. *)
Fixpoint allocuvm_loop (n : nat) (pt a newsz : Z) : KM Z :=
  if negb (a <? newsz) then mret pt else
  match n with
  | O => block
  | S n' =>
      p ← kalloc_page;
      ASSERT (negb (p =? 0));;
      r ← get_pte pt a true;
      store64 (snd r) (Z.lor (K2P p) PTE_USER_DATA);;
      allocuvm_loop n' (fst r) (u64 (a + PAGE_SIZE)) newsz
  end.
(** The new value of [pgdir->pt] and the result, an [int]. *)
Definition allocuvm (pt stksz oldsz newsz : Z) : KM (Z * Z) :=
  ASSERT (stksz mod PAGE_SIZE =? 0);;
  pt ← allocuvm_loop (Z.to_nat (newsz / PAGE_SIZE + 1)) pt (u64 (oldsz + PAGE_SIZE - 1) / PAGE_SIZE * PAGE_SIZE) newsz;
  mret (pt, i32 newsz).

(** ** The stack *)

(** The loop that copies the strings [l] down from [sp]: the table, the new [sp]
    and the number of strings. *)
Fixpoint push_strings (n : nat) (pt sp : Z) (l : list (list Z)) (cnt : Z) : KM (Z * Z * Z) :=
  match n, l with
  | S n', s :: l' =>
      let len := Z.of_nat (length s) + 1 in
      let sp := u64 (sp - len) in
      r ← copyout pt sp (Some (s ++ [0])) len;
      push_strings n' (fst r) sp l' (cnt + 1)
  | _, _ => mret (pt, sp, cnt)
  end.
Definition push_vector (pt sp : Z) (v : option (list (list Z))) : KM (Z * Z * Z) :=
  match v with Some l => push_strings MAXARG pt sp l 0 | None => mret (pt, sp, 0) end.

(** [for (; *sp; sp++); sp++]; user memory ends at [USERTOP]. *)
Fixpoint skip_string (n : nat) (sp : Z) : KM Z :=
  match n with
  | O => block
  | S n' => b ← user_load sp; if b =? 0 then mret (sp + 1) else skip_string n' (sp + 1)
  end.

(** The loop that stores the addresses of the strings from [sp] on, the last
    entry of the vector first. *)
Fixpoint fill_vector (n : nat) (vec sp : Z) : KM Z :=
  match n with
  | O => mret sp
  | S i =>
      user_store (vec + Z.of_nat i * 8) (le_bytes 8 sp);;
      sp ← skip_string (Z.to_nat (USERTOP - sp)) sp;
      fill_vector i vec sp
  end.

(** The two vectors and [argc]. *)
Definition fill_vectors (newsp sp argc envc : Z) : KM unit :=
  let newargv := newsp + 8 in
  let newenvp := newargv + (argc + 1) * 8 in
  sp ← fill_vector (Z.to_nat envc) newenvp sp;
  fill_vector (Z.to_nat argc) newargv sp;;
  user_store newsp (le_bytes 8 argc).

(** From the copying of [argv] to the assertion: the table and the stack pointer. *)
Definition exec_stack (invalid_pt pt : Z) (argv envp : option (list (list Z))) : KM (Z * Z) :=
  '(pt, sp, argc) ← push_vector pt USERTOP argv;
  '(pt, sp, envc) ← push_vector pt sp envp;
  let newsp := u64 (sp - (envc + argc + 4) * 8) / 16 * 16 in
  r ← copyout pt newsp None (sp - newsp);
  let pt := fst r in
  attach_pgdir invalid_pt pt;;
  fill_vectors newsp sp argc envc;;
  let stksz := (USERTOP - newsp + 10 * PAGE_SIZE - 1) / (10 * PAGE_SIZE) * (10 * PAGE_SIZE) in
  r ← copyout pt (USERTOP - stksz) None (stksz - (USERTOP - newsp));
  ASSERT (USERTOP - stksz <? newsp);;
  mret (fst r, newsp).

(** ** The file *)

Record Elf64_Ehdr : Type := mkEhdr { e_ident : list Z; e_entry : Z; e_phoff : Z; e_phnum : Z }.
Definition EHDR_SIZE : Z := 64.
Definition read_ehdr (b : list Z) : Elf64_Ehdr := mkEhdr (take 16 b) (read_le 8 24 b) (read_le 8 32 b) (read_le 2 56 b).
Record Elf64_Phdr : Type := mkPhdr { ph_type : Z; ph_offset : Z; ph_vaddr : Z; ph_filesz : Z; ph_memsz : Z }.
Definition PHDR_SIZE : Z := 56.
Definition read_phdr (b : list Z) : Elf64_Phdr := mkPhdr (read_le 4 0 b) (read_le 8 8 b) (read_le 8 16 b) (read_le 8 32 b) (read_le 8 40 b).
Definition PT_LOAD : Z := 1.
Definition ELFCLASS64 : Z := 2.
Definition elf_magic (h : Elf64_Ehdr) : bool := bool_decide (take 4 (e_ident h) = [127; 69; 76; 70]).
Definition elf_class (h : Elf64_Ehdr) : Z := nth 4 (e_ident h) 0.

Record estate (S : Type) : Type := mkEstate {
  ex_ino : istate S;
  ex_mem : kmem;
  ex_pt : Z;
  ex_sp : Z;
  ex_elr : Z }.
Arguments mkEstate {S}.
Arguments ex_ino {S}.
Arguments ex_mem {S}.
Arguments ex_pt {S}.
Arguments ex_sp {S}.
Arguments ex_elr {S}.

Section exec.
Context {S : Type} (bc : BlockCache S) (junk junk_name : list Z) (ctx invalid_pt : Z).
Abbreviation EM := (M (estate S)).

Definition ex_set_ino (i : istate S) (s : estate S) : estate S := mkEstate i (ex_mem s) (ex_pt s) (ex_sp s) (ex_elr s).
Definition ex_set_mem (m : kmem) (s : estate S) : estate S := mkEstate (ex_ino s) m (ex_pt s) (ex_sp s) (ex_elr s).
Definition ex_set_pt (p : Z) (s : estate S) : estate S := mkEstate (ex_ino s) (ex_mem s) p (ex_sp s) (ex_elr s).
Definition ex_set_ctx (sp elr : Z) (s : estate S) : estate S := mkEstate (ex_ino s) (ex_mem s) (ex_pt s) sp elr.

Definition ino {A} : M (istate S) A -> EM A := zoom ex_ino ex_set_ino.
Definition mem {A} : KM A -> EM A := zoom ex_mem ex_set_mem.

(** [init_pgdir] on the new directory: its table. *)
Definition new_dir : EM Z := fun s =>
  match init_pgdir (mkVm (ex_mem s) 0 []) with
  | Ret (_, v) => Ret (vm_pt v, ex_set_mem (vm_mem v) s)
  | Panic => Panic
  | Block => Block
  | UB => UB
  end.

(** A segment of the file [ip] at its place in memory. *)
Definition load_segment (ip pt sz : Z) (ph : Elf64_Phdr) : EM (Z * Z) :=
  r ← mem (allocuvm pt 0 sz (u64 (ph_vaddr ph + ph_memsz ph)));
  let sz := u64 (snd r) in
  if sz =? 0 then panic else
  mem (attach_pgdir invalid_pt (fst r));;
  b ← ino (inode_read bc ip (ph_offset ph) (ph_filesz ph));
  mem (user_store (ph_vaddr ph) (snd b));;
  if negb (fst b =? ph_filesz ph) then panic else
  mem (user_store (u64 (ph_vaddr ph + ph_filesz ph)) (replicate (Z.to_nat (ph_memsz ph - ph_filesz ph)) 0));;
  mret (fst r, sz).

(** The loop over the program headers; [temp] until the first segment. *)
Fixpoint load_segments (n : nat) (ip pt off sz : Z) (temp : bool) : EM Z :=
  match n with
  | O => mret pt
  | Datatypes.S n' =>
      b ← ino (inode_read bc ip off PHDR_SIZE);
      if negb (fst b =? PHDR_SIZE) then panic else
      let ph := read_phdr (snd b) in
      if negb (ph_type ph =? PT_LOAD) then load_segments n' ip pt (u64 (off + PHDR_SIZE)) sz temp else
      if (ph_memsz ph <? ph_filesz ph) || (u64 (ph_vaddr ph + ph_memsz ph) <? ph_vaddr ph) then panic else
      if temp && negb (ph_vaddr ph mod PAGE_SIZE =? 0) then panic else
      r ← load_segment ip pt (if temp then ph_vaddr ph else sz) ph;
      load_segments n' ip (fst r) (u64 (off + PHDR_SIZE)) (snd r) false
  end.

(** The label [bad]. *)
Definition exec_bad (pt ip old : Z) : EM Z :=
  (if pt =? 0 then mret 0 else mem (free_pgdir pt));;
  (if ip =? 0 then mret tt else
   ino (inode_unlock ip);; ino (inode_put bc ctx ip);; ino (cache (bc_end_op bc ctx)));;
  modify (ex_set_pt old);;
  mret (-1).

Definition execve (path : list Z) (argv envp : option (list (list Z))) : EM Z :=
  old ← gets ex_pt;
  pt ← new_dir;
  ino (cache (bc_begin_op bc ctx));;
  ip ← ino (namei bc junk path junk_name ctx);
  if ip =? 0 then ino (cache (bc_end_op bc ctx));; exec_bad pt 0 old else
  ino (inode_lock ip);;
  b ← ino (inode_read bc ip 0 EHDR_SIZE);
  if negb (fst b =? EHDR_SIZE) then exec_bad pt ip old else
  let elf := read_ehdr (snd b) in
  if negb (elf_magic elf) then exec_bad pt ip old else
  if negb (elf_class elf =? ELFCLASS64) then exec_bad pt ip old else
  modify (ex_set_pt pt);;
  pt ← load_segments (Z.to_nat (e_phnum elf)) ip pt (e_phoff elf) 0 true;
  ino (inode_unlock ip);;
  ino (inode_put bc ctx ip);;
  ino (cache (bc_end_op bc ctx));;
  mem (attach_pgdir invalid_pt old);;
  r ← mem (exec_stack invalid_pt pt argv envp);
  modify (ex_set_ctx (snd r) (e_entry elf));;
  modify (ex_set_pt (fst r));;
  mem (attach_pgdir invalid_pt (fst r));;
  mem (free_pgdir old);;
  mret 0.
End exec.
