(* ===== verification/ExecProofs.v ===== *)
(** * The stack and the segments of a new program *)

From Stdlib Require Import ZArith Lia.
From stdpp Require Import base tactics numbers gmap list.
From S2P Require Import Prelude Mem PageTable Paging PagingProofs Fork ForkProofs UserMem BlockCache Inode Exec.

Local Open Scope Z_scope.

(** ** Blocks of user memory *)

(** The bytes [bs] are at user address [a]. *)
Definition ublock (m : kmem) (U : gmap Z Z) (a : Z) (bs : list Z) : Prop :=
  forall i, (i < length bs)%nat -> ubyte m U (a + Z.of_nat i) = bs !! i.
(** The 64-bit words [ws]. *)
Definition words (ws : list Z) : list Z := concat (le_bytes 8 <$> ws).
(** The string [s] with its NUL. *)
Definition ustring (m : kmem) (U : gmap Z Z) (a : Z) (s : list Z) : Prop := ublock m U a (s ++ [0]).

Lemma ublock_app m U a x y : ublock m U a (x ++ y) <-> ublock m U a x /\ ublock m U (a + Z.of_nat (length x)) y.
Proof.
  unfold ublock. rewrite length_app. split.
  - intros H. split; intros i Hi.
    + rewrite H by lia. by apply lookup_app_l.
    + replace (a + Z.of_nat (length x) + Z.of_nat i) with (a + Z.of_nat (length x + i)) by lia. rewrite H by lia. rewrite lookup_app_r by lia. f_equal. lia.
  - intros [H1 H2] i Hi. destruct (decide (i < length x)%nat).
    + rewrite H1 by lia. symmetry. by apply lookup_app_l.
    + replace (a + Z.of_nat i) with (a + Z.of_nat (length x) + Z.of_nat (i - length x)) by lia. rewrite H2 by lia. by rewrite lookup_app_r by lia.
Qed.

Lemma ublock_mapped m U a bs x : ublock m U a bs -> a <= x < a + Z.of_nat (length bs) -> is_Some (U !! (x / PAGE_SIZE)).
Proof.
  intros H Hx. destruct (lookup_lt_is_Some_2 bs (Z.to_nat (x - a)) ltac:(lia)) as [b Hb]. eapply ubyte_mapped.
  replace x with (a + Z.of_nat (Z.to_nat (x - a))) by lia. rewrite H by lia. exact Hb.
Qed.

Section wrote.
Context (own : gmap Z (nat * Z)) (F : list Z) (m : kmem) (U : gmap Z Z) (va : Z) (bs : list Z).
Context (own' : gmap Z (nat * Z)) (F' : list Z) (m' : kmem) (U' : gmap Z Z).
Hypothesis HW : wrote own F m U va bs own' F' m' U'.

Lemma ublock_new : ublock m' U' va bs.
Proof. intros i Hi. rewrite (wr_new _ _ _ _ _ _ _ _ _ _ HW) by lia. f_equal. lia. Qed.

Lemma ublock_kept a x : ublock m U a x -> a + Z.of_nat (length x) <= va \/ va + Z.of_nat (length bs) <= a -> ublock m' U' a x.
Proof.
  intros H Hd i Hi. rewrite (wr_old _ _ _ _ _ _ _ _ _ _ HW); [by apply H|lia|]. eapply ublock_mapped; [exact H|lia].
Qed.
End wrote.

(** Pages are added to the space and pages outside it are left alone; what is
    mapped below [lim] keeps its bytes. *)
Record evolves (lim : Z) (own : gmap Z (nat * Z)) (F : list Z) (m : kmem) (U : gmap Z Z) (own' : gmap Z (nat * Z)) (F' : list Z) (m' : kmem) (U' : gmap Z Z) : Prop := {
  ev_free : F' ⊆ F;
  ev_foreign : forall x, foreign own U F x -> foreign own' U' F' x /\ km_page m' !! (x * PAGE_SIZE) = km_page m !! (x * PAGE_SIZE) /\ ref_of m' x = ref_of m x;
  ev_kept : forall a x, ublock m U a x -> a + Z.of_nat (length x) <= lim -> ublock m' U' a x }.

Lemma evolves_trans lim own F m U own1 F1 m1 U1 own2 F2 m2 U2 :
  evolves lim own F m U own1 F1 m1 U1 -> evolves lim own1 F1 m1 U1 own2 F2 m2 U2 -> evolves lim own F m U own2 F2 m2 U2.
Proof.
  intros [S1 X1 K1] [S2 X2 K2]. split; [by etrans| |auto]. intros x Hx. destruct (X1 x Hx) as (Y1 & E1 & R1). destruct (X2 x Y1) as (Y2 & E2 & R2).
  split; [done|]. by rewrite E2, R2.
Qed.
Lemma evolves_mono lim lim' own F m U own' F' m' U' : lim <= lim' -> evolves lim' own F m U own' F' m' U' -> evolves lim own F m U own' F' m' U'.
Proof. intros Hl [S X K]. split; [done|done|]. intros a x Hx Ha. apply K; [done|lia]. Qed.
Lemma evolves_refl lim own F m U : evolves lim own F m U own F m U.
Proof. done. Qed.
Lemma evolves_wrote lim own F m U va bs own' F' m' U' : wrote own F m U va bs own' F' m' U' -> F' ⊆ F -> lim <= va -> evolves lim own F m U own' F' m' U'.
Proof. intros H HF Hl. split; [done|apply H|]. intros a x Hx Ha. eapply ublock_kept; [exact H|exact Hx|lia]. Qed.
(** Only the register TTBR0 and the like change. *)
Lemma evolves_same lim own F m U m' : km_page m' = km_page m -> ref_of m' = ref_of m -> evolves lim own F m U own F m' U.
Proof. intros E R. split; [done|by rewrite E, R|]. intros a x Hx _. unfold ublock, ubyte. by rewrite E. Qed.

(** A bound on the pages of a store. *)
Definition page_bound (len : Z) : Z := len / PAGE_SIZE + 2.
Lemma npages_bound va len : 0 <= len -> 0 <= npages va len <= page_bound len.
Proof. intros Hl. unfold npages, page_bound, PAGE_SIZE. destruct (Z.leb_spec len 0); Z.div_mod_to_equations; lia. Qed.

(** ** The strings *)

(** What the strings [l] look like in memory after they are pushed in order. *)
Definition pushed (l : list (list Z)) : list Z := concat (reverse ((.++ [0]) <$> l)).
Definition strings_cost (l : list (list Z)) : Z := foldr (fun s n => page_bound (Z.of_nat (length s) + 1) + n) 0 l.

Lemma pushed_cons s l : pushed (s :: l) = pushed l ++ s ++ [0].
Proof. unfold pushed. rewrite fmap_cons, reverse_cons, concat_app. cbn. by rewrite app_nil_r. Qed.
Lemma strings_cost_pos l : 0 <= strings_cost l.
Proof.
  induction l as [|s l IH]; [done|]. cbn [strings_cost foldr]. fold (strings_cost l). pose proof (npages_bound 0 (Z.of_nat (length s) + 1) ltac:(lia)). lia.
Qed.

Lemma push_strings_wp r n : forall l cnt sp own F m U rest,
  space own r F m U -> ublock m U sp rest -> sp <= USERTOP -> Z.of_nat (length (pushed (take n l))) <= sp -> 4 * strings_cost (take n l) <= Z.of_nat (length F) ->
  wp (push_strings n (kpage r) sp l cnt) (fun res m' => let l' := take n l in
    let sp' := sp - Z.of_nat (length (pushed l')) in res = (kpage r, sp', cnt + Z.of_nat (length l')) /\
    exists own' F' U', space own' r F' m' U' /\ ublock m' U' sp' (pushed l' ++ rest) /\ evolves sp' own F m U own' F' m' U' /\
      Z.of_nat (length F) <= Z.of_nat (length F') + 4 * strings_cost l') m.
Proof.
  assert (forall sp cnt own F m U rest, space own r F m U -> ublock m U sp rest ->
    wp (mret (kpage r, sp, cnt)) (fun res m' => let sp' := sp - Z.of_nat (length (pushed [])) in res = (kpage r, sp', cnt + Z.of_nat (length (@nil (list Z)))) /\
    exists own' F' U', space own' r F' m' U' /\ ublock m' U' sp' (pushed [] ++ rest) /\ evolves sp' own F m U own' F' m' U' /\
      Z.of_nat (length F) <= Z.of_nat (length F') + 4 * strings_cost []) m) as Hnil.
  { intros sp cnt own F m U rest HS HB. change (pushed []) with (@nil Z). wp_prim. cbn [length strings_cost foldr app]. rewrite Z.sub_0_r, Z.add_0_r. split; [done|].
    exists own, F, U. split_and!; try done; lia. }
  induction n as [|n IH]; intros l cnt sp own F m U rest HS HB Htop Hsp HF; [by apply Hnil|].
  destruct l as [|s l]; [by apply Hnil|].
  cbn [take push_strings] in *. rewrite pushed_cons, length_app, length_app in *. cbn [length strings_cost foldr] in *. fold (strings_cost (take n l)) in *.
  set (len := Z.of_nat (length s) + 1) in *. pose proof (strings_cost_pos (take n l)) as Hc. destruct (npages_bound (sp - len) len ltac:(lia)) as [_ Hnp].
  assert (0 <= sp - len) as Hsl by lia. assert (u64 (sp - len) = sp - len) as -> by (apply u64_small; unfold USERTOP in Htop; lia).
  wp_prim. eapply wp_mono; [apply (copyout_wp own r F m U (sp - len) (Some (s ++ [0])) len HS); [lia|lia|lia|cbn; rewrite length_app; cbn; lia|lia]|].
  intros res m1 [-> (own1 & F1 & U1 & S1 & W1 & HF1 & HlF1)]. cbn [fst source] in *. rewrite take_ge in W1, HlF1 by (rewrite length_app; cbn; lia).
  assert (Z.of_nat (length (s ++ [0])) = len) as Elen by (rewrite length_app; cbn; lia). rewrite Elen in HlF1.
  eapply wp_mono; [apply (IH l (cnt + 1) (sp - len) own1 F1 m1 U1 ((s ++ [0]) ++ rest) S1); [|lia|lia|lia]|].
  { apply ublock_app. split; [eapply ublock_new; exact W1|]. rewrite Elen. replace (sp - len + len) with sp by lia. eapply ublock_kept; [exact W1|exact HB|lia]. }
  intros res m2 [-> (own2 & F2 & U2 & S2 & B2 & V2 & HlF2)]. split; [f_equal; [f_equal|]; lia|]. exists own2, F2, U2. split; [done|].
  replace (sp - Z.of_nat (length (pushed (take n l)) + (length s + 1))) with (sp - len - Z.of_nat (length (pushed (take n l)))) by lia.
  rewrite <-!app_assoc in *. split; [done|]. split; [|lia]. eapply evolves_trans; [eapply evolves_wrote; [exact W1|done|lia]|exact V2].
Qed.

(** ** The vectors *)

(** The addresses of strings that lie one after the other from [sp] on. *)
Fixpoint addrs (sp : Z) (rs : list (list Z)) : list Z :=
  match rs with [] => [] | s :: rs' => sp :: addrs (sp + Z.of_nat (length s) + 1) rs' end.
Definition zstrings (rs : list (list Z)) : list Z := concat ((.++ [0]) <$> rs).
Definition no_nul (s : list Z) : Prop := Forall (fun b => b <> 0) s.

Lemma length_words ws : length (words ws) = (8 * length ws)%nat.
Proof. unfold words. induction ws as [|w ws IH]; [done|]. rewrite fmap_cons. cbn [concat length]. rewrite length_app, IH, length_le_bytes. lia. Qed.
Lemma words_app x y : words (x ++ y) = words x ++ words y.
Proof. unfold words. by rewrite fmap_app, concat_app. Qed.
Lemma length_addrs sp rs : length (addrs sp rs) = length rs.
Proof. revert sp. induction rs as [|s rs IH]; intros sp; cbn; [done|]. by rewrite IH. Qed.

Lemma skip_string_wp own r F U m s : forall n sp, attached own r F U m -> ublock m U sp (s ++ [0]) -> no_nul s -> (length s < n)%nat ->
  wp (skip_string n sp) (fun sp' m' => sp' = sp + Z.of_nat (length s) + 1 /\ m' = m) m.
Proof.
  induction s as [|b s IH]; intros [|n] sp Hat HB Hs Hn; [cbn in Hn; lia| |cbn in Hn; lia|]; cbn [skip_string].
  - wp_prim. eapply user_load_wp; [exact Hat| |].
    + rewrite <-(Z.add_0_r sp). apply (HB 0%nat). cbn. lia.
    + cbn. split; [lia|done].
  - apply Forall_cons in Hs as [Hb Hs]. wp_prim. eapply user_load_wp; [exact Hat| |].
    + rewrite <-(Z.add_0_r sp). apply (HB 0%nat). cbn. lia.
    + rewrite (proj2 (Z.eqb_neq b 0) Hb). eapply wp_mono; [apply (IH n (sp + 1)); [done| |done|cbn in Hn; lia]|].
      * change ((b :: s) ++ [0]) with ([b] ++ (s ++ [0])) in HB. apply ublock_app in HB as [_ HB]. exact HB.
      * cbn [length]. intros sp' m' [-> ->]. split; [lia|done].
Qed.

Lemma fill_vector_wp own r F U rs : forall vec sp m,
  attached own r F U m -> ublock m U sp (zstrings rs) -> sp + Z.of_nat (length (zstrings rs)) <= USERTOP -> Forall no_nul rs ->
  vec + 8 * Z.of_nat (length rs) <= sp -> (forall x, vec <= x < vec + 8 * Z.of_nat (length rs) -> is_Some (U !! (x / PAGE_SIZE))) ->
  wp (fill_vector (length rs) vec sp) (fun sp' m' => sp' = sp + Z.of_nat (length (zstrings rs)) /\ attached own r F U m' /\
    ublock m' U vec (words (reverse (addrs sp rs))) /\ evolves vec own F m U own F m' U /\
    forall a x, ublock m U a x -> a + Z.of_nat (length x) <= vec \/ vec + 8 * Z.of_nat (length rs) <= a -> ublock m' U a x) m.
Proof.
  induction rs as [|s rs IH]; intros vec sp m Hat HB Htop Hs Hvec Hmap.
  { cbn [fill_vector length]. wp_prim. change (zstrings []) with (@nil Z). change (words (reverse (addrs sp []))) with (@nil Z). cbn [length].
    split; [lia|]. split; [done|]. split; [intros i Hi; cbn in Hi; lia|]. split; [apply evolves_refl|done]. }
  change (zstrings (s :: rs)) with ((s ++ [0]) ++ zstrings rs) in *. rewrite length_app in *. apply ublock_app in HB as [HB1 HB2]. apply Forall_cons in Hs as [Hs1 Hs].
  assert (Z.of_nat (length (s ++ [0])) = Z.of_nat (length s) + 1) as El by (rewrite length_app; cbn; lia). rewrite El in HB2. cbn [fill_vector length addrs] in *.
  wp_prim. eapply wp_mono; [apply (user_store_wp own r F U (le_bytes 8 sp)); [exact Hat|intros x Hx; apply Hmap; rewrite length_le_bytes in Hx; lia]|].
  intros [] m1 [Hat1 W1]. rewrite Z.mul_comm in W1. assert (Z.of_nat (length (le_bytes 8 sp)) = 8) as E8 by (by rewrite length_le_bytes).
  wp_prim. eapply wp_mono; [apply (skip_string_wp own r F U m1 s); [done| |done|lia]|].
  { eapply ublock_kept; [exact W1|exact HB1|lia]. }
  intros sp' m' [-> ->]. eapply wp_mono; [apply (IH vec (sp + Z.of_nat (length s) + 1) m1 Hat1); [|lia|done|lia|intros x Hx; apply Hmap; lia]|].
  { rewrite <-Z.add_assoc. eapply ublock_kept; [exact W1|exact HB2|lia]. }
  intros sp' m2 (-> & Hat2 & HB3 & V2 & K2). split; [lia|]. split; [done|]. rewrite reverse_cons, words_app. split_and!.
  - apply ublock_app. split; [done|]. rewrite length_words, length_reverse, length_addrs. cbn [words fmap list_fmap concat]. rewrite app_nil_r.
    apply K2; [|rewrite E8; lia]. replace (vec + Z.of_nat (8 * length rs)) with (vec + 8 * Z.of_nat (length rs)) by lia. eapply ublock_new. exact W1.
  - eapply evolves_trans; [eapply evolves_wrote; [exact W1|done|lia]|exact V2].
  - intros a x Hx Hd. apply K2; [|lia]. eapply ublock_kept; [exact W1|exact Hx|lia].
Qed.

(** ** The whole stack *)

Lemma pushed_zstrings l : pushed l = zstrings (reverse l).
Proof. unfold pushed, zstrings. by rewrite fmap_reverse. Qed.

(** [a] points to the string [s], at or above [lo]. *)
Definition points_to (m : kmem) (U : gmap Z Z) (lo a : Z) (s : list Z) : Prop := lo <= a /\ ustring m U a s.

Lemma addrs_strings m U lo rs : forall sp, lo <= sp -> ublock m U sp (zstrings rs) -> Forall2 (points_to m U lo) (addrs sp rs) rs.
Proof.
  induction rs as [|s rs IH]; intros sp Hlo HB; [constructor|]. change (zstrings (s :: rs)) with ((s ++ [0]) ++ zstrings rs) in HB.
  apply ublock_app in HB as [H1 H2]. constructor; [done|]. apply IH; [lia|]. rewrite length_app in H2. cbn in H2.
  by replace (sp + Z.of_nat (length s) + 1) with (sp + Z.of_nat (length s + 1)) by lia.
Qed.

Lemma ublock_zeros m U a n k j : ublock m U a (replicate n 0) -> (k + j <= n)%nat -> ublock m U (a + Z.of_nat k) (replicate j 0).
Proof.
  intros H Hk i Hi. rewrite length_replicate in Hi. replace (a + Z.of_nat k + Z.of_nat i) with (a + Z.of_nat (k + i)) by lia.
  rewrite H by (rewrite length_replicate; lia). by rewrite !lookup_replicate_2 by lia.
Qed.

(** The strings that a vector passes on. *)
Definition vector (v : option (list (list Z))) : list (list Z) := take MAXARG (default [] v).

Lemma push_vector_wp r v sp own F m U rest :
  space own r F m U -> ublock m U sp rest -> sp <= USERTOP -> Z.of_nat (length (pushed (vector v))) <= sp -> 4 * strings_cost (vector v) <= Z.of_nat (length F) ->
  wp (push_vector (kpage r) sp v) (fun res m' => let sp' := sp - Z.of_nat (length (pushed (vector v))) in res = (kpage r, sp', Z.of_nat (length (vector v))) /\
    exists own' F' U', space own' r F' m' U' /\ ublock m' U' sp' (pushed (vector v) ++ rest) /\ evolves sp' own F m U own' F' m' U' /\
      Z.of_nat (length F) <= Z.of_nat (length F') + 4 * strings_cost (vector v)) m.
Proof.
  intros HS HB Htop Hsp HF. unfold push_vector, vector in *. destruct v as [l|]; cbn [default from_option] in *.
  - apply (push_strings_wp r MAXARG l 0 sp own F m U rest); done.
  - apply (push_strings_wp r MAXARG [] 0 sp own F m U rest); done.
Qed.

Lemma space_ttbr own r F m U t : space own r F m U -> space own r F (set_ttbr0 t m) U.
Proof. intros [[[] ? ? ?] ? ? ?]. split; [split; [by split|done..]|done..]. Qed.

Lemma attach_wp own r F m U invalid_pt (Q : unit -> kmem -> Prop) :
  space own r F m U -> (forall m', attached own r F U m' -> km_page m' = km_page m -> ref_of m' = ref_of m -> Q tt m') -> wp (attach_pgdir invalid_pt (kpage r)) Q m.
Proof.
  intros HS HQ. assert (page_no r) as Hr by (pose proof (us_tables _ _ _ _ _ HS) as I; apply (pt_own _ _ _ _ I r _ _ (pt_root _ _ _ _ I))).
  unfold attach_pgdir. wp_prim. rewrite kpage_eqb, K2P_page by done. apply HQ; [|done|done]. split; [by apply space_ttbr|done].
Qed.

(** The size of the vectors and the stack pointer. *)
Definition stack_pointer (args envs : list (list Z)) : Z :=
  (USERTOP - Z.of_nat (length (pushed args)) - Z.of_nat (length (pushed envs)) - (Z.of_nat (length envs) + Z.of_nat (length args) + 4) * 8) / 16 * 16.

(** [argc], the vectors with their NULL and the strings, from [newsp] on. *)
Record stack_layout (m : kmem) (U : gmap Z Z) (newsp : Z) (args envs : list (list Z)) : Prop := {
  sl_align : newsp mod 16 = 0;
  sl_vectors : exists ap ep, ublock m U newsp (words (Z.of_nat (length args) :: ap ++ [0] ++ ep ++ [0])) /\
    Forall2 (points_to m U newsp) ap args /\ Forall2 (points_to m U newsp) ep envs;
  sl_mapped : forall x, newsp <= x < USERTOP -> is_Some (U !! (x / PAGE_SIZE)) }.

Lemma fill_vectors_wp own r F U m newsp sp args envs :
  attached own r F U m -> newsp mod 16 = 0 -> newsp + (Z.of_nat (length args) + Z.of_nat (length envs) + 3) * 8 <= sp ->
  sp + Z.of_nat (length (pushed envs ++ pushed args)) = USERTOP -> Forall no_nul args -> Forall no_nul envs ->
  ublock m U newsp (replicate (Z.to_nat (sp - newsp)) 0 ++ (pushed envs ++ pushed args)) ->
  wp (fill_vectors newsp sp (Z.of_nat (length args)) (Z.of_nat (length envs))) (fun _ m' => attached own r F U m' /\ evolves newsp own F m U own F m' U /\
    stack_layout m' U newsp args envs) m.
Proof.
  intros Hat Hal Hsp Htop Ha He HB. set (argc := Z.of_nat (length args)) in *. set (envc := Z.of_nat (length envs)) in *.
  assert (forall x, newsp <= x < USERTOP -> is_Some (U !! (x / PAGE_SIZE))) as Hmap.
  { intros x Hx. eapply ublock_mapped; [exact HB|]. rewrite length_app, length_replicate. lia. }
  apply ublock_app in HB as [HZ HS]. rewrite length_replicate in HS. replace (newsp + Z.of_nat (Z.to_nat (sp - newsp))) with sp in HS by lia. rewrite length_app in Htop.
  pose proof HS as [HE HA]%ublock_app. rewrite (pushed_zstrings envs) in HE, HA. rewrite (pushed_zstrings args) in HA. unfold fill_vectors.
  replace (Z.to_nat argc) with (length args) by lia. replace (Z.to_nat envc) with (length envs) by lia.
  assert (ublock m U (newsp + 8 + argc * 8) (words [0])) as Z1.
  { pose proof (ublock_zeros _ _ _ _ (Z.to_nat (8 + argc * 8)) 8 HZ ltac:(lia)) as H. by replace (newsp + 8 + argc * 8) with (newsp + Z.of_nat (Z.to_nat (8 + argc * 8))) by lia. }
  assert (ublock m U (newsp + 8 + (argc + 1) * 8 + envc * 8) (words [0])) as Z2.
  { pose proof (ublock_zeros _ _ _ _ (Z.to_nat (8 + (argc + 1) * 8 + envc * 8)) 8 HZ ltac:(lia)) as H.
    by replace (newsp + 8 + (argc + 1) * 8 + envc * 8) with (newsp + Z.of_nat (Z.to_nat (8 + (argc + 1) * 8 + envc * 8))) by lia. }
  rewrite <-(length_reverse envs). wp_prim. eapply wp_mono; [apply (fill_vector_wp own r F U (reverse envs) _ sp m Hat HE);
    [rewrite <-pushed_zstrings; lia|by apply Forall_reverse|rewrite length_reverse; lia|intros x Hx; rewrite length_reverse in Hx; apply Hmap; lia]|].
  rewrite length_reverse. intros sp1 m1 (-> & Hat1 & VE & V1 & K1). rewrite <-(length_reverse args) at 1.
  wp_prim. eapply wp_mono; [apply (fill_vector_wp own r F U (reverse args) (newsp + 8) _ m1 Hat1);
    [apply K1; [exact HA|lia]|rewrite <-!pushed_zstrings; lia|by apply Forall_reverse|rewrite length_reverse; lia
    |intros x Hx; rewrite length_reverse in Hx; apply Hmap; lia]|].
  rewrite length_reverse. intros sp2 m2 (-> & Hat2 & VA & V2 & K2).
  eapply wp_mono; [apply (user_store_wp own r F U (le_bytes 8 argc) newsp m2 Hat2); intros x Hx; rewrite length_le_bytes in Hx; apply Hmap; lia|].
  intros [] m3 [Hat3 W3]. assert (Z.of_nat (length (le_bytes 8 argc)) = 8) as E8 by (by rewrite length_le_bytes).
  split; [done|]. split; [eapply evolves_trans; [eapply evolves_mono; [|exact V1]; lia|eapply evolves_trans; [eapply evolves_mono; [|exact V2]; lia|eapply evolves_wrote; [exact W3|done|lia]]]|].
  assert (forall a x, ublock m2 U a x -> newsp + 8 <= a -> ublock m3 U a x) as K3 by (intros a x Hx Hd; eapply ublock_kept; [exact W3|exact Hx|lia]).
  split; [done| |exact Hmap]. set (es := reverse (addrs sp (reverse envs))) in *. set (ar := reverse (addrs _ (reverse args))) in *.
  assert (length es = length envs) as Les by (unfold es; by rewrite length_reverse, length_addrs, length_reverse).
  assert (length ar = length args) as Lar by (unfold ar; by rewrite length_reverse, length_addrs, length_reverse).
  exists ar, es. split_and!.
  - change (ublock m3 U newsp (words ([argc] ++ (ar ++ [0] ++ es ++ [0])))). rewrite !words_app, !ublock_app, !length_words, Les, Lar. cbn [length].
    split_and!.
    + cbn [words fmap list_fmap concat]. rewrite app_nil_r. eapply ublock_new. exact W3.
    + apply K3; [|lia]. replace (newsp + Z.of_nat (8 * 1)) with (newsp + 8) by lia. exact VA.
    + apply K3; [|lia]. replace (newsp + Z.of_nat (8 * 1) + Z.of_nat (8 * length args)) with (newsp + 8 + argc * 8) by lia.
      apply K2; [|lia]. apply K1; [exact Z1|]. rewrite length_words. cbn [length]. lia.
    + apply K3; [|lia]. replace (newsp + Z.of_nat (8 * 1) + Z.of_nat (8 * length args) + Z.of_nat (8 * 1)) with (newsp + 8 + (argc + 1) * 8) by lia.
      apply K2; [exact VE|lia].
    + apply K3; [|lia]. replace (newsp + Z.of_nat (8 * 1) + Z.of_nat (8 * length args) + Z.of_nat (8 * 1) + Z.of_nat (8 * length envs)) with (newsp + 8 + (argc + 1) * 8 + envc * 8) by lia.
      apply K2; [|lia]. apply K1; [exact Z2|lia].
  - rewrite <-(reverse_involutive args). apply Forall2_reverse, addrs_strings; [lia|]. apply K3; [|lia]. apply K2; [|lia]. apply K1; [|lia]. exact HA.
  - rewrite <-(reverse_involutive envs). apply Forall2_reverse, addrs_strings; [lia|]. apply K3; [|lia]. apply K2; [|lia]. apply K1; [exact HE|lia].
Qed.
