(* ===== verification/ExecProps.v ===== *)
(** * What [execve] puts into the new address space *)

From Stdlib Require Import ZArith Lia.
From stdpp Require Import base tactics numbers gmap list.
From S2P Require Import Prelude Mem PageTable Paging PagingProofs PagingDemo Fork ForkProofs UserMem BlockCache Inode Exec ExecProofs.

Local Open Scope Z_scope.

(** The pages that the stack can need. *)
Definition stack_cost (args envs : list (list Z)) : Z := strings_cost args + strings_cost envs + 14.

Lemma layout_kept own F m U va bs own' F' m' U' newsp args envs :
  wrote own F m U va bs own' F' m' U' -> va + Z.of_nat (length bs) <= newsp -> stack_layout m U newsp args envs -> stack_layout m' U' newsp args envs.
Proof.
  intros W Hd [H1 (ap & ep & H2 & H3 & H4) H5].
  assert (forall a s, points_to m U newsp a s -> points_to m' U' newsp a s) as K.
  { intros a s [Ha Hs]. split; [done|]. eapply ublock_kept; [exact W|exact Hs|lia]. }
  split; [done| |].
  - exists ap, ep. split; [eapply ublock_kept; [exact W|exact H2|lia]|]. split; (eapply Forall2_impl; [eassumption|exact K]).
  - intros x Hx. destruct (H5 x Hx) as [k Hk]. exists k. eapply lookup_weaken; [exact Hk|apply W].
Qed.

(** The lowest address of the stack: its size is a multiple of ten pages. *)
Definition stack_bottom (newsp : Z) : Z := USERTOP - (USERTOP - newsp + 10 * PAGE_SIZE - 1) / (10 * PAGE_SIZE) * (10 * PAGE_SIZE).

(** ** Arithmetic of the stack pointer *)

Section numbers.
Context (args envs : list (list Z)).
Hypothesis Hlen : Z.of_nat (length (pushed args) + length (pushed envs)) <= 2 ^ 40.
Hypothesis Hargs : (length args <= 10 /\ length envs <= 10)%nat.
Let sp : Z := USERTOP - Z.of_nat (length (pushed args)) - Z.of_nat (length (pushed envs)).
Let newsp : Z := stack_pointer args envs.
Let stksz : Z := (USERTOP - newsp + 10 * PAGE_SIZE - 1) / (10 * PAGE_SIZE) * (10 * PAGE_SIZE).

Lemma stack_pointer_code : u64 (sp - (Z.of_nat (length envs) + Z.of_nat (length args) + 4) * 8) / 16 * 16 = newsp.
Proof. rewrite u64_small; [reflexivity|]. unfold sp, USERTOP. lia. Qed.

Lemma stack_pointer_bounds : newsp mod 16 = 0 /\ 0 <= newsp /\ newsp + (Z.of_nat (length args) + Z.of_nat (length envs) + 4) * 8 <= sp /\
  npages newsp (sp - newsp) <= 2.
Proof.
  assert (newsp mod 16 = 0 /\ 0 <= newsp /\ newsp + (Z.of_nat (length args) + Z.of_nat (length envs) + 4) * 8 <= sp /\ sp - newsp <= 207) as (N1 & N2 & N3 & N4)
    by (unfold newsp, stack_pointer; fold sp; unfold sp, USERTOP in *; split_and!; Z.div_mod_to_equations; lia).
  split_and!; try done. etrans; [apply npages_bound; lia|]. unfold page_bound, PAGE_SIZE. rewrite Z.div_small by lia. lia.
Qed.

Lemma stack_size_bounds : 0 <= stksz - (USERTOP - newsp) /\ stksz <= USERTOP /\ npages (USERTOP - stksz) (stksz - (USERTOP - newsp)) <= 11.
Proof.
  destruct stack_pointer_bounds as (_ & N2 & N3 & _).
  assert (0 <= stksz - (USERTOP - newsp) < 10 * PAGE_SIZE /\ stksz <= USERTOP) as [K1 K2].
  { assert (USERTOP - newsp <= 2 ^ 40 + 400) as Hb by (unfold newsp, stack_pointer, USERTOP; clear - Hlen Hargs; Z.div_mod_to_equations; lia).
    unfold stksz, PAGE_SIZE. clear - Hb N2. unfold USERTOP in *. split; Z.div_mod_to_equations; lia. }
  split_and!; [lia..|]. etrans; [apply npages_bound; lia|]. unfold page_bound, PAGE_SIZE in *. clear - K1. Z.div_mod_to_equations. lia.
Qed.

(** The assertion of [execve]. *)
Lemma stack_size_assert : (USERTOP - stksz <? newsp) = negb ((USERTOP - newsp) mod (10 * PAGE_SIZE) =? 0).
Proof.
  unfold stksz, PAGE_SIZE. generalize newsp. clear. intros n.
  destruct (Z.ltb_spec (USERTOP - (USERTOP - n + 10 * 4096 - 1) / (10 * 4096) * (10 * 4096)) n), (Z.eqb_spec ((USERTOP - n) mod (10 * 4096)) 0);
    cbn; try done; exfalso; Z.div_mod_to_equations; lia.
Qed.
End numbers.

(** Both vectors of strings. *)
Lemma push_vectors_wp own r F m U argv envp :
  let args := vector argv in let envs := vector envp in
  let sp1 := USERTOP - Z.of_nat (length (pushed args)) in let sp := sp1 - Z.of_nat (length (pushed envs)) in
  space own r F m U -> 0 <= sp -> 4 * (strings_cost args + strings_cost envs) <= Z.of_nat (length F) ->
  wp (push_vector (kpage r) USERTOP argv) (fun x m1 => x = (kpage r, sp1, Z.of_nat (length args)) /\
    wp (push_vector (kpage r) sp1 envp) (fun y m2 => y = (kpage r, sp, Z.of_nat (length envs)) /\
      exists own2 F2 U2, space own2 r F2 m2 U2 /\ ublock m2 U2 sp (pushed envs ++ pushed args) /\ evolves sp own F m U own2 F2 m2 U2 /\
        Z.of_nat (length F) <= Z.of_nat (length F2) + 4 * (strings_cost args + strings_cost envs)) m1) m.
Proof.
  intros args envs sp1 sp HS Hsp HF. pose proof (strings_cost_pos args) as C1. pose proof (strings_cost_pos envs) as C2.
  eapply wp_mono; [apply (push_vector_wp r argv USERTOP own F m U [] HS); [intros i Hi; cbn in Hi; lia|lia|fold args; lia|fold args; lia]|].
  fold args. intros res m1 [-> (own1 & F1 & U1 & S1 & B1 & V1 & L1)]. split; [done|]. rewrite app_nil_r in B1.
  eapply wp_mono; [apply (push_vector_wp r envp _ own1 F1 m1 U1 (pushed args) S1 B1); [lia|fold envs; lia|fold envs; lia]|].
  fold envs. intros res m2 [-> (own2 & F2 & U2 & S2 & B2 & V2 & L2)]. split; [done|]. exists own2, F2, U2. split; [done|]. split; [done|]. split; [|lia]. eapply evolves_trans; [eapply evolves_mono; [|exact V1]; lia|exact V2].
Qed.

(** The stack is there, or the assertion fails. *)
Lemma exec_stack_wpp own r F m U invalid_pt argv envp :
  let args := vector argv in let envs := vector envp in let newsp := stack_pointer args envs in
  space own r F m U -> Forall no_nul args -> Forall no_nul envs -> Z.of_nat (length (pushed args) + length (pushed envs)) <= 2 ^ 40 ->
  4 * stack_cost args envs <= Z.of_nat (length F) ->
  wp_or_panic (exec_stack invalid_pt (kpage r) argv envp) (fun res m' => (USERTOP - newsp) mod (10 * PAGE_SIZE) <> 0 /\ exists own' F' U', res = (kpage r, newsp) /\
    space own' r F' m' U' /\ stack_layout m' U' newsp args envs /\ (forall x, stack_bottom newsp <= x < USERTOP -> is_Some (U' !! (x / PAGE_SIZE))) /\
    evolves (stack_bottom newsp) own F m U own' F' m' U') ((USERTOP - newsp) mod (10 * PAGE_SIZE) = 0) m.
Proof.
  intros args envs newsp HS Ha He Hlen HF.
  unfold stack_cost in HF. assert (length args <= 10 /\ length envs <= 10)%nat as HL by (unfold args, envs, vector, MAXARG; rewrite !length_take; lia).
  destruct (stack_pointer_bounds args envs Hlen HL) as (N1 & N2 & N3 & P3). destruct (stack_size_bounds args envs Hlen HL) as (K1 & K2 & P6).
  pose proof (stack_pointer_code args envs Hlen HL) as En. pose proof (stack_size_assert args envs) as EA. fold newsp in N1, N2, N3, P3, K1, K2, P6, En, EA.
  unfold exec_stack. apply wpp_bind. eapply wp_mono; [apply (push_vectors_wp own r F m U argv envp HS); fold args envs; lia|]. fold args envs.
  intros res m1 [-> W1]. apply wpp_bind. eapply wp_mono; [exact W1|]. intros res m2 [-> (own2 & F2 & U2 & S2 & B2 & V2 & L2)]. cbn beta iota.
  set (sp := USERTOP - Z.of_nat (length (pushed args)) - Z.of_nat (length (pushed envs))) in *.
  assert (sp + Z.of_nat (length (pushed envs ++ pushed args)) = USERTOP) as Etop by (rewrite length_app; lia). rewrite En. clear En.
  apply wpp_bind. eapply wp_mono; [apply (copyout_wp own2 r F2 m2 U2 newsp None (sp - newsp) S2); [done|lia|lia|done|lia]|].
  intros res m3 [-> (own3 & F3 & U3 & S3 & W3 & HF3 & L3)]. cbn [fst source] in *. rewrite length_replicate, Z2Nat.id in L3 by lia.
  assert (ublock m3 U3 newsp (replicate (Z.to_nat (sp - newsp)) 0 ++ (pushed envs ++ pushed args))) as B3.
  { apply ublock_app. split; [eapply ublock_new; exact W3|]. rewrite length_replicate. replace (newsp + Z.of_nat (Z.to_nat (sp - newsp))) with sp by lia.
    eapply ublock_kept; [exact W3|exact B2|rewrite length_replicate; lia]. }
  apply wpp_bind. apply (attach_wp own3 r F3 m3 U3 invalid_pt _ S3). intros m4 A4 E4 R4.
  pose proof (evolves_same (stack_bottom newsp) own3 F3 m3 U3 m4 E4 R4) as V4.
  assert (ublock m4 U3 newsp (replicate (Z.to_nat (sp - newsp)) 0 ++ (pushed envs ++ pushed args))) as B4 by (unfold ublock, ubyte; rewrite E4; exact B3).
  apply wpp_bind. eapply wp_mono; [apply (fill_vectors_wp own3 r F3 U3 m4 newsp sp args envs A4 N1); [lia|done|done|done|exact B4]|].
  intros [] m5 ([S5 _] & V5 & LY5). set (stksz := (USERTOP - newsp + 10 * PAGE_SIZE - 1) / (10 * PAGE_SIZE) * (10 * PAGE_SIZE)) in *.
  apply wpp_bind. eapply wp_mono; [apply (copyout_wp own3 r F3 m5 U3 (USERTOP - stksz) None (stksz - (USERTOP - newsp)) S5); [lia|lia|lia|done|lia]|].
  intros res m6 [-> (own6 & F6 & U6 & S6 & W6 & HF6 & _)]. cbn [fst source] in *.
  assert (stack_layout m6 U6 newsp args envs) as LY6 by (eapply layout_kept; [exact W6|rewrite length_replicate; lia|exact LY5]).
  rewrite EA. destruct (Z.eqb_spec ((USERTOP - newsp) mod (10 * PAGE_SIZE)) 0) as [Hm|Hm]; [exact Hm|].
  cbn [negb]. apply wpp_wp. unfold ASSERT. wp_prims. split; [exact Hm|]. exists own6, F6, U6. split; [done|]. split; [done|]. split; [done|]. split.
  - intros x Hx. unfold stack_bottom in Hx. fold stksz in Hx. destruct (Z.lt_ge_cases x newsp) as [Hc|Hc]; [|by apply LY6; lia].
    eapply ublock_mapped; [eapply ublock_new; exact W6|rewrite length_replicate; lia].
  - assert (stack_bottom newsp <= newsp) as Hbot by (unfold stack_bottom; fold stksz; lia).
    eapply evolves_trans; [eapply evolves_mono; [|exact V2]; lia|]. eapply evolves_trans; [eapply evolves_wrote; [exact W3|done|lia]|].
    eapply evolves_trans; [exact V4|]. eapply evolves_trans; [eapply evolves_mono; [exact Hbot|exact V5]|]. eapply evolves_wrote; [exact W6|done|unfold stack_bottom; fold stksz; lia].
Qed.

(** C20: the stack of a new program, from any address space with pages enough: if
    [USERTOP - newsp] is no multiple of ten pages, it returns the stack pointer
    [newsp], a multiple of 16, at which a process finds [argc], the addresses of
    the arguments and NULL, the addresses of the environment and NULL, with each
    string ended by NUL; everything from ten-page boundary to [USERTOP] has a
    page, what was mapped below keeps its bytes, and pages outside the space are as
    they were.  If it is a multiple, the
    assertion at the end stops the kernel. *)
Theorem exec_stack_layout own r F m U invalid_pt argv envp :
  let args := vector argv in let envs := vector envp in let newsp := stack_pointer args envs in
  space own r F m U -> Forall no_nul args -> Forall no_nul envs -> Z.of_nat (length (pushed args) + length (pushed envs)) <= 2 ^ 40 ->
  4 * stack_cost args envs <= Z.of_nat (length F) ->
  if (USERTOP - newsp) mod (10 * PAGE_SIZE) =? 0 then exec_stack invalid_pt (kpage r) argv envp m = Panic else
  exists m' own' F' U', exec_stack invalid_pt (kpage r) argv envp m = Ret ((kpage r, newsp), m') /\ space own' r F' m' U' /\
    stack_layout m' U' newsp args envs /\ (forall x, stack_bottom newsp <= x < USERTOP -> is_Some (U' !! (x / PAGE_SIZE))) /\ evolves (stack_bottom newsp) own F m U own' F' m' U'.
Proof.
  intros args envs newsp HS Ha He Hlen HF. pose proof (exec_stack_wpp own r F m U invalid_pt argv envp HS Ha He Hlen HF) as H. fold args envs newsp in H.
  unfold wp_or_panic in H. destruct (exec_stack invalid_pt (kpage r) argv envp m) as [[res m']| | |]; try done.
  - destruct H as [Hm (own' & F' & U' & -> & H)]. rewrite (proj2 (Z.eqb_neq _ 0) Hm). by exists m', own', F', U'.
  - by rewrite (proj2 (Z.eqb_eq _ 0) H).
Qed.

(** ** The process of file [PagingDemo] *)

Lemma demo_space : space vm_demo_own 9 free_pages vm_demo_mem {[ 0 := 13 ]}.
Proof.
  split; [apply vm_demo_inv| | |].
  - intros v Hv. rewrite demo_pte, Z.div_mul by (done || by apply vpage_range). case_decide as E.
    + subst v. rewrite lookup_singleton_eq. split; [vm_compute; discriminate|vm_compute; reflexivity].
    + rewrite lookup_singleton_ne by done. apply not_valid_0.
  - intros v n [<- <-]%lookup_singleton_Some. split; [lia|]. split; [unfold page_no; rewrite NPAGES_eq; lia|]. split; [apply not_free; lia|]. split; [reflexivity|].
    exists (demo_page 7). split; [rewrite demo_table by lia; reflexivity|reflexivity].
  - intros v v' n [<- _]%lookup_singleton_Some [<- _]%lookup_singleton_Some. done.
Qed.

(** One argument, "hi". *)
Lemma exec_stack_layout_witness : exists m' U', exec_stack 0 (kpage 9) (Some [[104; 105]]) None vm_demo_mem = Ret ((kpage 9, USERTOP - 48), m') /\
  stack_layout m' U' (USERTOP - 48) [[104; 105]] [].
Proof.
  destruct (exec_stack_layout vm_demo_own 9 free_pages vm_demo_mem {[ 0 := 13 ]} 0 (Some [[104; 105]]) None demo_space) as (m' & own' & F' & U' & H1 & _ & H2 & _).
  - repeat constructor; discriminate.
  - constructor.
  - vm_compute. discriminate.
  - vm_compute. discriminate.
  - exists m', U'. split; [exact H1|exact H2].
Defined.

(** One argument of 40919 characters makes the stack exactly ten pages. *)
Lemma ten_page_argument s : length s = Z.to_nat 40919 -> (USERTOP - stack_pointer [s] []) mod (10 * PAGE_SIZE) = 0.
Proof.
  intros Hs. unfold stack_pointer. rewrite pushed_cons. change (pushed []) with (@nil Z). cbn [app length]. rewrite length_app, Hs, Nat2Z.inj_add, Z2Nat.id by lia. reflexivity.
Qed.
