(* ===== verification/ExecLoad.v ===== *)
(** * Loading the segments of a program *)

From Stdlib Require Import ZArith Lia.
From stdpp Require Import base tactics numbers gmap list.
From S2P Require Import Prelude FsDefs Mem PageTable Paging PagingProofs Fork ForkProofs UserMem BlockCache Inode InodeProofs Exec ExecProofs.

Local Open Scope Z_scope.

(** ** [allocuvm] *)

(** A turn of the loop adds a page. *)
Lemma allocuvm_turn_wp {A} own r F m U v (c : Z * Z -> KM A) (Q : A -> kmem -> Prop) :
  space own r F m U -> 0 <= v < 2 ^ 36 -> U !! v = None -> (4 <= length F)%nat ->
  (forall pte n own' F' m' U', paged own r F m U v n own' F' m' U' -> wp (c (kpage r, pte)) Q m') ->
  wp (p ← kalloc_page; ASSERT (negb (p =? 0));; res ← get_pte (kpage r) (v * PAGE_SIZE) true; store64 (snd res) (Z.lor (K2P p) PTE_USER_DATA);; c res) Q m.
Proof.
  intros HS Hv HU HF HQ. pose proof (us_tables _ _ _ _ _ HS) as I0. pose proof (pt_pages _ _ _ _ I0) as P0. destruct F as [|n F1]; [cbn in HF; lia|].
  pose proof (pi_nodup _ _ P0) as [HnF _]%NoDup_cons. assert (page_no n) as Hn by (apply (pi_range _ _ P0); left). destruct (pi_stack _ _ P0) as (_ & pgn & Hpgn & _).
  assert (own !! n = None) as Hno. { destruct (own !! n) as [l|] eqn:E; [|done]. destruct (own_not_free _ _ _ _ _ _ I0 E). left. }
  wp_prim. eapply wp_mono; [by apply (kalloc_page_wp n F1)|]. intros p m1 (-> & P1 & Rn & Rk & Em1 & _). rewrite kpage_eqb by done. cbn [negb]. wp_prims. split; [done|].
  destruct (pt_frame own r (n :: F1) m F1 m1 I0 P1) as (I1 & _ & K1).
  { intros x l pre Hx. pose proof (own_not_free _ _ _ _ _ _ I0 Hx) as Hf. split; [intros Hin; apply Hf; by right|by rewrite Em1]. }
  wp_prim. eapply wp_mono; [apply (get_pte_alloc_wp own r F1 m1 (v * PAGE_SIZE) I1); cbn in HF; lia|].
  intros res m2 (own2 & F2 & t3 & -> & I2 & Ht3 & Hw & K2 & HF2 & HlF & V2 & T2). cbn [fst snd]. destruct (pt_own _ _ _ _ I2 _ _ _ Ht3) as (Hno3 & _ & Ht3F & pg3 & Hpg3).
  destruct (VA_PART_range (v * PAGE_SIZE)) as (_ & _ & _ & R3). rewrite K2P_page by done. wp_prim. eapply wp_store_entry; [done|done|exact Hpg3|].
  destruct (T2 n HnF) as [En Epn]. rewrite Hno in En. assert (km_page m2 !! (n * PAGE_SIZE) = km_page m !! (n * PAGE_SIZE)) as Epn' by (by rewrite Epn, Em1).
  assert (forall x, x ∉ n :: F1 -> x ∉ F1) as Hsub by (intros x Hx Hin; apply Hx; by right).
  destruct (space_map own r (n :: F1) m U HS v n (Z.lor (n * PAGE_SIZE) PTE_USER_DATA) t3 pg3 own2 F2 m2) as [S3 Hfr]; try done.
  - left.
  - intros Hin. by apply HnF, HF2.
  - intros x Hx. right. by apply HF2.
  - exists pgn. unfold page_at. by rewrite Epn'.
  - intros va'. by rewrite (K2 va'), (K1 va').
  - intros x Hx. destruct (T2 x (Hsub x Hx)) as [E1 E2]. split; [done|]. intros Hxo. by rewrite E2, Em1.
  - apply pte_value_u64; [done|apply PTE_USER_DATA_flags].
  - apply user_data_valid.
  - apply PTE_ADDRESS_small; [done|apply PTE_USER_DATA_flags].
  - eapply HQ. apply (paged_new own r (n :: F1) m U HS); [done|exact S3|left|intros x Hx; right; by apply HF2|cbn [length]; lia|].
    intros x HxF Hxo. destruct (T2 x (Hsub x HxF)) as [E1 _]. split; [by rewrite E1|]. split; [by apply Hfr|].
    match goal with |- ref_of ?s x = _ => change (ref_of s x) with (ref_of m2 x) end. rewrite V2, Rk; [done|by intros ->; apply HxF; left|by apply Hsub].
Qed.

(** Pages are added from [a] to [b]. *)
Record grown (own : gmap Z (nat * Z)) (F : list Z) (m : kmem) (U : gmap Z Z) (lo hi : Z) (own' : gmap Z (nat * Z)) (F' : list Z) (m' : kmem) (U' : gmap Z Z) : Prop := {
  gr_grow : U ⊆ U';
  gr_dom : forall v, is_Some (U' !! v) <-> is_Some (U !! v) \/ lo <= v < hi;
  gr_same : forall x, is_Some (U !! (x / PAGE_SIZE)) -> ubyte m' U' x = ubyte m U x;
  gr_evolves : forall lim, evolves lim own F m U own' F' m' U';
  gr_free : Z.of_nat (length F) <= Z.of_nat (length F') + 4 * Z.max 0 (hi - lo) }.

Lemma grown_nothing own F m U lo hi : hi <= lo -> grown own F m U lo hi own F m U.
Proof. intros H. split; try done; [intros v; split; [by left|intros [?|?]; [done|lia]]|lia]. Qed.

Lemma grown_step own r F m U lo hi n own1 F1 m1 U1 own2 F2 m2 U2 :
  lo < hi -> paged own r F m U lo n own1 F1 m1 U1 -> grown own1 F1 m1 U1 (lo + 1) hi own2 F2 m2 U2 -> grown own F m U lo hi own2 F2 m2 U2.
Proof.
  intros Hlt [_ A1 G1 D1 S1 [HF1 L1] X1] [G2 D2 S2 V2 L2]. split; [by etrans| | | |lia].
  - intros v. rewrite D2. split.
    + intros [Hv|Hv]; [|right; lia]. destruct (D1 v Hv) as [?| ->]; [by left|right; lia].
    + intros [[k Hk]|Hv]; [left; exists k; by eapply lookup_weaken|]. destruct (decide (v = lo)) as [->|]; [left; by exists n|right; lia].
  - intros x [k Hk]. rewrite S2, S1; [done|by exists k|]. exists k. by eapply lookup_weaken.
  - intros lim. eapply evolves_trans; [|apply V2]. split; [done|done|]. intros a x Hx _ j Hj. rewrite S1; [by apply Hx|]. eapply ublock_mapped; [exact Hx|lia].
Qed.

Lemma allocuvm_loop_wp r n : forall a newsz own F m U,
  space own r F m U -> 0 <= a -> a <= 2 ^ 36 -> newsz <= 2 ^ 48 -> (forall v, a <= v -> v * PAGE_SIZE < newsz -> U !! v = None) ->
  4 * Z.max 0 ((newsz + PAGE_SIZE - 1) / PAGE_SIZE - a) <= Z.of_nat (length F) -> newsz <= (a + Z.of_nat n) * PAGE_SIZE ->
  wp (allocuvm_loop n (kpage r) (a * PAGE_SIZE) newsz) (fun pt m' => pt = kpage r /\ exists own' F' U', space own' r F' m' U' /\
    grown own F m U a ((newsz + PAGE_SIZE - 1) / PAGE_SIZE) own' F' m' U') m.
Proof.
  induction n as [|n IH]; intros a newsz own F m U HS Ha Ha2 Hnew Hfree HF Hn; cbn [allocuvm_loop]; set (hi := (newsz + PAGE_SIZE - 1) / PAGE_SIZE) in *;
    assert (a * PAGE_SIZE < newsz <-> a < hi) as Hhi by (subst hi; unfold PAGE_SIZE; clear; split; Z.div_mod_to_equations; lia).
  { rewrite (proj2 (Z.ltb_ge _ _)) by lia. cbn [negb]. wp_prim. split; [done|]. exists own, F, U. split; [done|]. apply grown_nothing. lia. }
  destruct (Z.ltb_spec (a * PAGE_SIZE) newsz) as [Hlt|Hge]; cbn [negb].
  2: { wp_prim. split; [done|]. exists own, F, U. split; [done|]. apply grown_nothing. lia. }
  apply (allocuvm_turn_wp own r F m U a); [done|unfold PAGE_SIZE in *; lia|by apply Hfree|lia|].
  intros pte pn own1 F1 m1 U1 HP. cbn [fst]. pose proof HP as [S1 _ _ D1 _ [_ L1] _].
  assert (u64 (a * PAGE_SIZE + PAGE_SIZE) = (a + 1) * PAGE_SIZE) as -> by (rewrite u64_small; unfold PAGE_SIZE in *; lia).
  eapply wp_mono; [apply (IH (a + 1) newsz own1 F1 m1 U1 S1); [lia|unfold PAGE_SIZE in *; lia|done| |fold hi; lia|lia]|].
  - intros v Hv1 Hv2. destruct (U1 !! v) as [k|] eqn:E; [|done]. destruct (D1 v ltac:(eauto)) as [[? Hk]| ->]; [|lia]. rewrite Hfree in Hk by (done || lia). done.
  - fold hi. intros pt m2 [-> (own2 & F2 & U2 & S2 & G2)]. split; [done|]. exists own2, F2, U2. split; [done|]. eapply grown_step; [lia|exact HP|exact G2].
Qed.

(** The number of pages below [x], rounded up. *)
Definition rup (x : Z) : Z := (x + PAGE_SIZE - 1) / PAGE_SIZE.

Lemma allocuvm_wp own r F m U oldsz newsz :
  space own r F m U -> 0 <= oldsz < 2 ^ 31 -> 0 <= newsz < 2 ^ 31 -> (forall v, is_Some (U !! v) -> v < rup oldsz) -> 4 * Z.max 0 (rup newsz - rup oldsz) <= Z.of_nat (length F) ->
  wp (allocuvm (kpage r) 0 oldsz newsz) (fun res m' => res = (kpage r, newsz) /\ exists own' F' U', space own' r F' m' U' /\
    grown own F m U (rup oldsz) (rup newsz) own' F' m' U') m.
Proof.
  intros HS Ho Hn HU HF. unfold allocuvm. change (0 mod PAGE_SIZE =? 0) with true. wp_prims. split; [done|]. wp_prim.
  rewrite u64_small by (unfold PAGE_SIZE; lia). fold (rup oldsz). assert (0 <= rup oldsz <= 2 ^ 20) as Hr by (unfold rup, PAGE_SIZE; Z.div_mod_to_equations; lia).
  eapply wp_mono; [apply (allocuvm_loop_wp r _ (rup oldsz) newsz own F m U HS); [lia|lia|lia| |done|]|].
  - intros v Hv _. destruct (U !! v) as [k|] eqn:E; [|done]. specialize (HU v ltac:(eauto)). lia.
  - rewrite Z2Nat.id by (unfold PAGE_SIZE; Z.div_mod_to_equations; lia). unfold PAGE_SIZE in *. Z.div_mod_to_equations. lia.
  - intros pt m' [-> H]. wp_prims. split; [|exact H]. f_equal. unfold i32. rewrite Z.mod_small by lia. lia.
Qed.

(** ** The segments of a file *)

(** A segment that fits into the file of [size] bytes and below two gigabytes. *)
Definition seg_end (ph : Elf64_Phdr) : Z := ph_vaddr ph + ph_memsz ph.
Record seg_ok (size : Z) (ph : Elf64_Phdr) : Prop := {
  so_file : 0 <= ph_offset ph /\ 0 <= ph_filesz ph <= ph_memsz ph /\ ph_offset ph + ph_filesz ph <= size;
  so_mem : 0 <= ph_vaddr ph /\ 0 < seg_end ph < 2 ^ 31 }.
(** Segments in the order of their addresses, from [sz] on. *)
Fixpoint ascending (size sz : Z) (l : list Elf64_Phdr) : Prop :=
  match l with [] => True | ph :: l' => seg_ok size ph /\ sz <= ph_vaddr ph /\ ascending size (seg_end ph) l' end.
(** The end of the last segment. *)
Definition image_end (sz : Z) (l : list Elf64_Phdr) : Z := foldl (fun _ ph => seg_end ph) sz l.

Lemma ascending_end size l : forall sz, ascending size sz l -> sz <= image_end sz l.
Proof.
  induction l as [|ph l IH]; intros sz; cbn; [lia|]. intros ([(_ & ? & _) _] & Hs & Ha). etrans; [|exact (IH _ Ha)]. unfold seg_end. lia.
Qed.
Lemma rup_mono x y : x <= y -> rup x <= rup y.
Proof. intros H. unfold rup, PAGE_SIZE. apply Z.div_le_mono; lia. Qed.
Lemma rup_page x : x / PAGE_SIZE <= rup x /\ forall y, y < x -> y / PAGE_SIZE < rup x.
Proof. unfold rup, PAGE_SIZE. split; [|intros y Hy]; Z.div_mod_to_equations; lia. Qed.

(** Exactly the pages from [b0] up to address [sz] are mapped. *)
Definition image (b0 sz : Z) (U : gmap Z Z) : Prop := forall v, is_Some (U !! v) <-> b0 <= v < rup sz.

Section load.
Context {S : Type} (bc : BlockCache S) (sb : SuperBlock) (ctx : Z) {Spec : BlockCacheSpec bc (sb_num_blocks sb) ctx}.
Context (invalid_pt r ip : Z) (i : Inode) (v : cview) (inos : gmap Z Inode).
Hypothesis Hi : inos !! ip = Some i.
Hypothesis Hok : ino_ok bc sb ctx v i.
Hypothesis Hnh : no_holes (i_entry i) (cv_content v).
Hypothesis Hheld : cv_held v = ∅.
Hypothesis Ht : ie_type (i_entry i) <> INODE_DEVICE.

(** The inodes are [inos] and the cache shows [v]. *)
Definition open_file (s : istate S) : Prop := is_sblock s = sb /\ bc_rep v (is_cache s) /\ is_inodes s = inos.
Definition exec_file : list Z := file_bytes (i_entry i) (cv_content v).
Definition file_size : Z := ie_num_bytes (i_entry i).
Definition slice (off n : Z) : list Z := take (Z.to_nat n) (drop (Z.to_nat off) exec_file).

Lemma length_slice off n : 0 <= off -> 0 <= n -> off + n <= file_size -> length (slice off n) = Z.to_nat n.
Proof. intros H1 H2 H3. unfold slice, exec_file. rewrite length_take, length_drop, length_file_bytes. unfold file_size in H3. lia. Qed.

Lemma read_wp off count s (Q : Z * list Z -> istate S -> Prop) :
  open_file s -> 0 <= off -> 0 <= count -> off + count <= file_size -> (forall s', open_file s' -> Q (count, slice off count) s') -> wp (inode_read bc ip off count) Q s.
Proof.
  intros (H1 & H2 & H3) Ho Hc Hb HQ. unfold file_size in Hb. pose proof (proj1 Hnh) as Hmax. assert (INODE_MAX_BYTES < 2 ^ 32) as Hm by done.
  eapply wp_mono; [apply (wp_inode_read bc sb ctx s ip i v off count); [apply ist_intro; [done|done|by rewrite H3]|done|done|done|done|lia|lia|lia]|].
  intros res s' [-> H]. rewrite Z.min_l by lia. apply HQ. destruct (ist_elim _ _ _ _ _ _ _ _ H) as (E1 & E2 & E3 & _).
  split; [done|]. split; [done|]. by rewrite E1, H3, insert_id.
Qed.

(** The bytes of a segment in memory. *)
Definition segment (ph : Elf64_Phdr) : list Z := slice (ph_offset ph) (ph_filesz ph) ++ replicate (Z.to_nat (ph_memsz ph - ph_filesz ph)) 0.
Definition seg_loaded (m : kmem) (U : gmap Z Z) (ph : Elf64_Phdr) : Prop := ublock m U (ph_vaddr ph) (segment ph).

Lemma length_segment ph : seg_ok file_size ph -> Z.of_nat (length (segment ph)) = ph_memsz ph.
Proof. intros [(H1 & H2 & H3) _]. unfold segment. rewrite length_app, length_replicate, length_slice by lia. lia. Qed.

(** The state during the loop: the table of [r] maps exactly the pages from [b0] to [sz]. *)
Record building (b0 sz : Z) (own : gmap Z (nat * Z)) (F : list Z) (U : gmap Z Z) (s : estate S) : Prop := {
  bd_file : open_file (ex_ino s);
  bd_space : space own r F (ex_mem s) U;
  bd_image : image b0 sz U }.

(** From [s] to [s']: bytes below [lim] are kept, and so are the fields of the process. *)
Record built (lim cost : Z) (own : gmap Z (nat * Z)) (F : list Z) (U : gmap Z Z) (s : estate S) (own' : gmap Z (nat * Z)) (F' : list Z) (U' : gmap Z Z) (s' : estate S) : Prop := {
  bt_evolves : evolves lim own F (ex_mem s) U own' F' (ex_mem s') U';
  bt_free : Z.of_nat (length F) <= Z.of_nat (length F') + 4 * cost;
  bt_proc : ex_pt s' = ex_pt s /\ ex_sp s' = ex_sp s /\ ex_elr s' = ex_elr s }.

Lemma built_refl lim own F U s : built lim 0 own F U s own F U s.
Proof. split; [done|lia|done]. Qed.
Lemma built_trans lim lim' c c' own F U s own1 F1 U1 s1 own2 F2 U2 s2 :
  lim <= lim' -> built lim c own F U s own1 F1 U1 s1 -> built lim' c' own1 F1 U1 s1 own2 F2 U2 s2 -> built lim (c + c') own F U s own2 F2 U2 s2.
Proof.
  intros Hl [E1 L1 (P1 & P2 & P3)] [E2 L2 (Q1 & Q2 & Q3)]. split; [|lia|by rewrite Q1, Q2, Q3].
  eapply evolves_trans; [exact E1|by eapply evolves_mono].
Qed.

Lemma load_segment_wp b0 sz own F U ph s :
  building b0 sz own F U s -> seg_ok file_size ph -> 0 <= sz < 2 ^ 31 -> sz <= ph_vaddr ph -> b0 * PAGE_SIZE <= sz ->
  4 * (rup (seg_end ph) - rup sz) <= Z.of_nat (length F) ->
  wp (load_segment bc invalid_pt ip (kpage r) sz ph) (fun res s' => res = (kpage r, seg_end ph) /\ exists own' F' U', building b0 (seg_end ph) own' F' U' s' /\
    built sz (rup (seg_end ph) - rup sz) own F U s own' F' U' s' /\ seg_loaded (ex_mem s') U' ph) s.
Proof.
  intros [B1 B2 B3] [(Ho & Hf & Hfs) [Hv He]] Hsz Hle Hb0 HF. assert (rup sz <= rup (seg_end ph)) as Hru by (apply rup_mono; unfold seg_end in *; lia).
  unfold load_segment. fold (seg_end ph). rewrite (u64_small (seg_end ph)) by lia. wp_prim. apply wp_zoom.
  eapply wp_mono; [apply (allocuvm_wp own r F (ex_mem s) U sz (seg_end ph) B2); [done|lia| |lia]|].
  { intros w Hw. apply B3 in Hw. lia. }
  intros res m1 [-> (own1 & F1 & U1 & S1 & G1)]. cbn [fst snd]. rewrite (u64_small (seg_end ph)), (proj2 (Z.eqb_neq (seg_end ph) 0)) by lia.
  assert (image b0 (seg_end ph) U1) as I1.
  { intros w. rewrite (gr_dom _ _ _ _ _ _ _ _ _ _ G1), (B3 w). destruct (rup_page sz) as [Hr _]. assert (b0 <= rup sz) by (etrans; [|exact Hr]; apply Z.div_le_lower_bound; unfold PAGE_SIZE in *; lia). lia. }
  wp_prim. apply wp_zoom. apply (attach_wp own1 r F1 m1 U1 invalid_pt _ S1). intros m2 A2 E2 R2.
  wp_prim. apply wp_zoom. apply read_wp; [done|done|lia|done|]. intros s3 Hs3. cbn [fst snd]. pose proof (length_slice (ph_offset ph) (ph_filesz ph) Ho ltac:(lia) Hfs) as Ls.
  assert (forall x, ph_vaddr ph <= x < seg_end ph -> is_Some (U1 !! (x / PAGE_SIZE))) as Hmap.
  { intros x Hx. apply I1. split; [apply Z.div_le_lower_bound; unfold PAGE_SIZE in *; lia|apply rup_page; lia]. }
  unfold seg_end in *. wp_prim. apply wp_zoom. eapply wp_mono; [apply (user_store_wp own1 r F1 U1 (slice (ph_offset ph) (ph_filesz ph))); [exact A2|]|].
  { intros x Hx. apply Hmap. lia. }
  intros [] m4 [A4 W4]. rewrite Z.eqb_refl. cbn [negb]. wp_prim. rewrite (u64_small (ph_vaddr ph + ph_filesz ph)) by lia. apply wp_zoom.
  eapply wp_mono; [apply (user_store_wp own1 r F1 U1 (replicate (Z.to_nat (ph_memsz ph - ph_filesz ph)) 0)); [exact A4|]|].
  { intros x Hx. rewrite length_replicate in Hx. apply Hmap. lia. }
  intros [] m5 [[S5 _] W5]. replace (ph_vaddr ph + ph_filesz ph) with (ph_vaddr ph + Z.of_nat (length (slice (ph_offset ph) (ph_filesz ph)))) in W5 by lia.
  pose proof (wrote_app _ _ _ _ _ _ _ _ _ _ _ _ _ _ _ W4 W5) as W. fold (segment ph) in W. wp_prims. cbn. split; [done|]. exists own1, F1, U1.
  split; [by split|]. split; [|eapply ublock_new; exact W]. split; cbn.
  - eapply evolves_trans; [apply G1|]. eapply evolves_trans; [apply (evolves_same _ own1 F1 m1 U1 m2 E2 R2)|]. eapply evolves_wrote; [exact W|done|lia].
  - pose proof (gr_free _ _ _ _ _ _ _ _ _ _ G1). lia.
  - done.
Qed.

(** ** All program headers *)

(** The [n] program headers from [off] on, and those of type [PT_LOAD]. *)
Fixpoint phdrs (n : nat) (off : Z) : list Elf64_Phdr :=
  match n with O => [] | Datatypes.S n' => read_phdr (slice off PHDR_SIZE) :: phdrs n' (off + PHDR_SIZE) end.
Definition segs (n : nat) (off : Z) : list Elf64_Phdr := filter (fun ph => ph_type ph = PT_LOAD) (phdrs n off).

Lemma segs_S n off : let ph := read_phdr (slice off PHDR_SIZE) in
  segs (Datatypes.S n) off = if ph_type ph =? PT_LOAD then ph :: segs n (off + PHDR_SIZE) else segs n (off + PHDR_SIZE).
Proof.
  intros ph. unfold segs. cbn [phdrs]. fold ph. destruct (Z.eqb_spec (ph_type ph) PT_LOAD); [by rewrite filter_cons_True|by rewrite filter_cons_False].
Qed.

(** A header is read. *)
Lemma read_header_wp {A} n off (c : Z * list Z -> M (estate S) A) (Q : A -> estate S -> Prop) s :
  open_file (ex_ino s) -> 0 <= off -> off + PHDR_SIZE * Z.of_nat (Datatypes.S n) <= file_size ->
  (forall i', open_file i' -> u64 (off + PHDR_SIZE) = off + PHDR_SIZE -> wp (c (PHDR_SIZE, slice off PHDR_SIZE)) Q (ex_set_ino i' s)) ->
  wp (b ← ino (inode_read bc ip off PHDR_SIZE); c b) Q s.
Proof.
  intros Hs Ho Hn HQ. pose proof (proj1 Hnh) as Hmax. assert (INODE_MAX_BYTES < 2 ^ 32) as Hm by done. unfold file_size, PHDR_SIZE in *.
  wp_prim. apply wp_zoom. apply read_wp; [done|done|lia|unfold file_size; lia|]. intros i' Hi'. apply HQ; [done|]. apply u64_small. lia.
Qed.

Lemma building_ino b0 sz own F U s i' : open_file i' -> building b0 sz own F U s -> building b0 sz own F U (ex_set_ino i' s).
Proof. intros H [B1 B2 B3]. by split. Qed.
Lemma built_ino lim c own F U s own' F' U' s' i' : built lim c own F U (ex_set_ino i' s) own' F' U' s' -> built lim c own F U s own' F' U' s'.
Proof. intros [B1 B2 B3]. by split. Qed.

(** The tests on a segment pass. *)
Lemma seg_checks ph : seg_ok file_size ph -> (ph_memsz ph <? ph_filesz ph) || (u64 (ph_vaddr ph + ph_memsz ph) <? ph_vaddr ph) = false.
Proof.
  intros [(_ & Hf & _) [Hv He]]. unfold seg_end in He. rewrite u64_small by lia. rewrite (proj2 (Z.ltb_ge (ph_memsz ph) _)), (proj2 (Z.ltb_ge _ (ph_vaddr ph))) by lia. done.
Qed.

(** The result of the loop over the segments [l]. *)
Definition loads (b0 sz : Z) (l : list Elf64_Phdr) (own : gmap Z (nat * Z)) (F : list Z) (U : gmap Z Z) (s s' : estate S) : Prop :=
  exists own' F' U', building b0 (image_end sz l) own' F' U' s' /\ built sz (rup (image_end sz l) - rup sz) own F U s own' F' U' s' /\
    Forall (seg_loaded (ex_mem s') U') l.

(** A segment, then the others. *)
Lemma load_one_wp n b0 sz own F U ph l off s :
  (forall sz own F U s, building b0 sz own F U s -> ascending file_size sz l -> 0 <= sz < 2 ^ 31 -> b0 * PAGE_SIZE <= sz ->
     4 * (rup (image_end sz l) - rup sz) <= Z.of_nat (length F) ->
     wp (load_segments bc invalid_pt n ip (kpage r) off sz false) (fun pt s' => pt = kpage r /\ loads b0 sz l own F U s s') s) ->
  building b0 sz own F U s -> ascending file_size sz (ph :: l) -> 0 <= sz < 2 ^ 31 -> b0 * PAGE_SIZE <= sz ->
  4 * (rup (image_end sz (ph :: l)) - rup sz) <= Z.of_nat (length F) ->
  wp (res ← load_segment bc invalid_pt ip (kpage r) sz ph; load_segments bc invalid_pt n ip (fst res) off (snd res) false)
    (fun pt s' => pt = kpage r /\ loads b0 sz (ph :: l) own F U s s') s.
Proof.
  intros IH HB (Hph & Hsz & Ha) Hs Hb HF. change (image_end sz (ph :: l)) with (image_end (seg_end ph) l) in *.
  pose proof (ascending_end _ _ _ Ha) as Hend. pose proof (rup_mono _ _ Hend) as Hr. assert (sz <= seg_end ph) as Hse by (destruct Hph as [(_ & ? & _) _]; unfold seg_end; lia).
  pose proof (so_mem _ _ Hph) as [_ He].
  wp_prim. eapply wp_mono; [apply (load_segment_wp b0 sz own F U ph s); [done|done|done|done|done|lia]|].
  intros res s1 [-> (own1 & F1 & U1 & B1 & T1 & L1)]. cbn [fst snd]. pose proof (bt_free _ _ _ _ _ _ _ _ _ _ T1) as HF1.
  eapply wp_mono; [apply (IH (seg_end ph) own1 F1 U1 s1 B1); [done|lia|lia|lia]|]. intros pt s2 [-> (own2 & F2 & U2 & B2 & T2 & L2)]. split; [done|].
  exists own2, F2, U2. change (image_end sz (ph :: l)) with (image_end (seg_end ph) l). split; [done|]. split.
  - replace (rup (image_end (seg_end ph) l) - rup sz) with ((rup (seg_end ph) - rup sz) + (rup (image_end (seg_end ph) l) - rup (seg_end ph))) by lia.
    eapply built_trans; [exact Hse|exact T1|exact T2].
  - constructor; [|done]. apply (ev_kept _ _ _ _ _ _ _ _ _ (bt_evolves _ _ _ _ _ _ _ _ _ _ T2)); [exact L1|]. rewrite length_segment by done. unfold seg_end. lia.
Qed.

Lemma load_rest_wp n : forall off b0 sz own F U s,
  0 <= off -> off + PHDR_SIZE * Z.of_nat n <= file_size ->
  building b0 sz own F U s -> ascending file_size sz (segs n off) -> 0 <= sz < 2 ^ 31 -> b0 * PAGE_SIZE <= sz ->
  4 * (rup (image_end sz (segs n off)) - rup sz) <= Z.of_nat (length F) ->
  wp (load_segments bc invalid_pt n ip (kpage r) off sz false) (fun pt s' => pt = kpage r /\ loads b0 sz (segs n off) own F U s s') s.
Proof.
  induction n as [|n IH]; intros off b0 sz own F U s Ho Hn HB Ha Hs Hb HF; cbn [load_segments].
  { wp_prim. split; [done|]. exists own, F, U. split; [done|]. split; [|constructor]. cbn. rewrite Z.sub_diag. apply built_refl. }
  apply (read_header_wp n); [apply HB|done|done|]. intros i' Hi' Eo. cbn [fst snd]. rewrite Z.eqb_refl, Eo. cbn [negb].
  assert (off + PHDR_SIZE + PHDR_SIZE * Z.of_nat n <= file_size) as Hn' by lia. assert (0 <= off + PHDR_SIZE) as Ho' by (unfold PHDR_SIZE; lia).
  rewrite segs_S in *. pose proof (building_ino _ _ _ _ _ _ _ Hi' HB) as HB'. destruct (ph_type _ =? PT_LOAD); cbn [negb].
  - pose proof (seg_checks _ (proj1 Ha)) as ->. cbn [andb].
    eapply wp_mono; [eapply load_one_wp; [intros; by apply IH|exact HB'|done..]|]. intros pt s' [-> (own' & F' & U' & B & T & L)]. split; [done|].
    exists own', F', U'. split; [done|]. split; [by eapply built_ino|done].
  - eapply wp_mono; [by eapply IH|]. intros pt s' [-> (own' & F' & U' & B & T & L)]. split; [done|].
    exists own', F', U'. split; [done|]. split; [by eapply built_ino|done].
Qed.

(** The page of the first segment, which must begin on a page boundary. *)
Definition image_start (l : list Elf64_Phdr) : Z := match l with [] => 0 | ph :: _ => ph_vaddr ph / PAGE_SIZE end.
Definition aligned (l : list Elf64_Phdr) : Prop := match l with [] => True | ph :: _ => ph_vaddr ph mod PAGE_SIZE = 0 end.

Lemma rup_aligned x : x mod PAGE_SIZE = 0 -> rup x = x / PAGE_SIZE /\ x / PAGE_SIZE * PAGE_SIZE = x.
Proof. unfold rup, PAGE_SIZE. intros H. split; Z.div_mod_to_equations; lia. Qed.

Lemma load_segments_wp n : forall off own F s,
  0 <= off -> off + PHDR_SIZE * Z.of_nat n <= file_size ->
  building 0 0 own F ∅ s -> ascending file_size 0 (segs n off) -> aligned (segs n off) ->
  4 * (rup (image_end 0 (segs n off)) - image_start (segs n off)) <= Z.of_nat (length F) ->
  wp (load_segments bc invalid_pt n ip (kpage r) off 0 true) (fun pt s' => pt = kpage r /\ exists own' F' U',
    building (image_start (segs n off)) (image_end 0 (segs n off)) own' F' U' s' /\
    built 0 (rup (image_end 0 (segs n off)) - image_start (segs n off)) own F ∅ s own' F' U' s' /\ Forall (seg_loaded (ex_mem s') U') (segs n off)) s.
Proof.
  induction n as [|n IH]; intros off own F s Ho Hn HB Ha Hal HF; cbn [load_segments].
  { wp_prim. split; [done|]. exists own, F, ∅. split; [done|]. split; [apply built_refl|constructor]. }
  apply (read_header_wp n); [apply HB|done|done|]. intros i' Hi' Eo. cbn [fst snd]. rewrite Z.eqb_refl, Eo. cbn [negb].
  assert (off + PHDR_SIZE + PHDR_SIZE * Z.of_nat n <= file_size) as Hn' by lia. assert (0 <= off + PHDR_SIZE) as Ho' by (unfold PHDR_SIZE; lia).
  rewrite segs_S in *. pose proof (building_ino _ _ _ _ _ _ _ Hi' HB) as HB'. destruct (ph_type _ =? PT_LOAD); cbn [negb].
  - set (ph := read_phdr _) in *. pose proof (seg_checks _ (proj1 Ha)) as ->. cbn [aligned image_start] in *. rewrite Hal. cbn [andb negb Z.eqb].
    destruct (rup_aligned _ Hal) as [E1 E2]. destruct Ha as (Hph & Hv & Ha). change (image_end 0 (ph :: ?l)) with (image_end (ph_vaddr ph) (ph :: l)) in *.
    pose proof (so_mem _ _ Hph) as [_ He]. pose proof (so_file _ _ Hph) as (_ & Hf & _).
    eapply wp_mono; [eapply (load_one_wp n (ph_vaddr ph / PAGE_SIZE) (ph_vaddr ph) own F ∅ ph)|].
    + intros; by apply load_rest_wp.
    + destruct HB' as [C1 C2 _]. split; [done|done|]. intros w. rewrite lookup_empty, E1. split; [by intros [? ?]|lia].
    + done.
    + unfold seg_end in He. lia.
    + lia.
    + rewrite E1. exact HF.
    + intros pt s' [-> (own' & F' & U' & B & T & L)]. split; [done|]. exists own', F', U'. split; [done|]. split; [|done]. apply built_ino in T as [T1 T2 T3].
      rewrite E1 in T2. split; [|done|done]. eapply evolves_mono; [|exact T1]. lia.
  - eapply wp_mono; [by eapply IH|]. intros pt s' [-> (own' & F' & U' & B & T & L)]. split; [done|].
    exists own', F', U'. split; [done|]. split; [by eapply built_ino|done].
Qed.
End load.
