(* ===== verification/ExecImage.v ===== *)
(** * The image of a program in a new address space

    [execve] makes an empty page table and loads the segments of the file into
    it; the theorem is about both steps, with any block cache that satisfies its
    specification. *)

From Stdlib Require Import ZArith Lia.
From stdpp Require Import base tactics numbers gmap list.
From S2P Require Import Prelude FsDefs Mem PageTable Paging PagingProofs PagingDemo Fork ForkProofs UserMem BlockCache Inode InodeProofs Cache CacheProofs CacheCrash CacheClient CacheBitmap CacheInst InodeDemo Exec ExecProofs ExecLoad.

Local Open Scope Z_scope.

(** An empty space. *)
Lemma empty_space r F m : page_inv F m -> page_no r -> (r ∉ F) -> km_page m !! (r * PAGE_SIZE) = Some zero_page -> space {[ r := (0%nat, 0) ]} r F m ∅.
Proof.
  intros HP Hr HF Hz. destruct (empty_root r F m HP Hr HF Hz) as [I E0]. split; [done| | |].
  - intros v Hv. rewrite lookup_empty, E0. apply not_valid_0.
  - intros v n H. by rewrite lookup_empty in H.
  - intros v v' n H. by rewrite lookup_empty in H.
Qed.

Section image.
Context {S : Type} (bc : BlockCache S) (sb : SuperBlock) (ctx : Z) {Spec : BlockCacheSpec bc (sb_num_blocks sb) ctx}.
Context (invalid_pt : Z).

(** The new table. *)
Lemma new_dir_wp r F (s : estate S) : page_inv (r :: F) (ex_mem s) ->
  wp new_dir (fun pt s' => pt = kpage r /\ exists m', s' = ex_set_mem m' s /\ space {[ r := (0%nat, 0) ]} r F m' ∅ /\
    forall x, x ∉ r :: F -> foreign {[ r := (0%nat, 0) ]} ∅ F x /\ km_page m' !! (x * PAGE_SIZE) = km_page (ex_mem s) !! (x * PAGE_SIZE) /\ ref_of m' x = ref_of (ex_mem s) x) s.
Proof.
  intros HP. assert (page_no r) as Hr by (apply (pi_range _ _ HP); left). pose proof (pi_nodup _ _ HP) as [HrF _]%NoDup_cons.
  destruct (wp_run _ _ _ (init_pgdir_wp r F (mkVm (ex_mem s) 0 []) HP)) as ([] & w & Hw & Hpt & P1 & Em & R1). cbn [vm_mem] in *.
  unfold wp, new_dir. rewrite Hw. split; [done|]. exists (vm_mem w). split; [done|]. split.
  - apply empty_space; [done|done|done|]. by rewrite Em, lookup_insert_eq.
  - intros x [Hne HxF]%not_elem_of_cons. split; [split; [done|]; split; [by apply lookup_singleton_ne|intros v; by rewrite lookup_empty]|].
    split; [rewrite Em; apply lookup_insert_ne; unfold PAGE_SIZE; lia|by apply R1].
Qed.

(** loading a program.  Let [ip] be a regular file without holes whose [n]
    program headers at [off] name segments in the order of their addresses, each
    inside the file and below two gigabytes, the first on a page boundary.  With
    pages enough, [execve]'s new table and its loop over the headers return, no
    test stops the kernel, and then: every segment is in memory at its address,
    bytes of the file followed by zeros; exactly the pages from the first segment
    to the end of the last one are mapped; pages that were in use, the old
    address space among them, keep content and reference count; the inodes and
    the process are as before. *)
Theorem exec_loads_image ip i v inos r F s n off :
  let l := segs i v n off in
  page_inv (r :: F) (ex_mem s) -> open_file bc sb ctx v inos (ex_ino s) ->
  inos !! ip = Some i -> ino_ok bc sb ctx v i -> no_holes (i_entry i) (cv_content v) -> cv_held v = ∅ -> ie_type (i_entry i) <> INODE_DEVICE ->
  0 <= off -> off + PHDR_SIZE * Z.of_nat n <= file_size i ->
  ascending (file_size i) 0 l -> aligned l -> 4 * (rup (image_end 0 l) - image_start l) <= Z.of_nat (length F) ->
  exists s' own' F' U', (pt ← new_dir; load_segments bc invalid_pt n ip pt off 0 true) s = Ret (kpage r, s') /\
    space own' r F' (ex_mem s') U' /\ image (image_start l) (image_end 0 l) U' /\ Forall (seg_loaded i v (ex_mem s') U') l /\
    (forall x, x ∉ r :: F -> foreign own' U' F' x /\ km_page (ex_mem s') !! (x * PAGE_SIZE) = km_page (ex_mem s) !! (x * PAGE_SIZE) /\ ref_of (ex_mem s') x = ref_of (ex_mem s) x) /\
    open_file bc sb ctx v inos (ex_ino s') /\ ex_pt s' = ex_pt s /\ ex_sp s' = ex_sp s /\ ex_elr s' = ex_elr s.
Proof.
  intros l HP Ho Hi Hok Hnh Hheld Ht Hoff Hn Ha Hal HF.
  enough (wp (pt ← new_dir; load_segments bc invalid_pt n ip pt off 0 true) (fun pt s' => pt = kpage r /\ exists own' F' U',
    space own' r F' (ex_mem s') U' /\ image (image_start l) (image_end 0 l) U' /\ Forall (seg_loaded i v (ex_mem s') U') l /\
    (forall x, x ∉ r :: F -> foreign own' U' F' x /\ km_page (ex_mem s') !! (x * PAGE_SIZE) = km_page (ex_mem s) !! (x * PAGE_SIZE) /\ ref_of (ex_mem s') x = ref_of (ex_mem s) x) /\
    open_file bc sb ctx v inos (ex_ino s') /\ ex_pt s' = ex_pt s /\ ex_sp s' = ex_sp s /\ ex_elr s' = ex_elr s) s) as W.
  { destruct (wp_run _ _ _ W) as (pt & s' & E & -> & own' & F' & U' & H). by exists s', own', F', U'. }
  wp_prim. eapply wp_mono; [by apply (new_dir_wp r F)|]. intros pt s1 [-> (m1 & -> & S1 & X1)].
  eapply wp_mono; [apply (load_segments_wp bc sb ctx invalid_pt r ip i v inos Hi Hok Hnh Hheld Ht n off {[ r := (0%nat, 0) ]} F); try done|].
  { split; [done|done|]. intros w. rewrite lookup_empty. split; [by intros [? ?]|]. change (rup 0) with 0. lia. }
  intros pt s2 [-> (own2 & F2 & U2 & [B1 B2 B3] & [[_ V2 _] _ T2] & L2)]. split; [done|]. exists own2, F2, U2. split_and!; try done; [|by apply T2..].
  intros x Hx. destruct (X1 x Hx) as (Y1 & E1 & R1). destruct (V2 x Y1) as (Y2 & E2 & R2). cbn [ex_mem ex_set_mem] in *. split; [done|]. by rewrite E2, R2.
Qed.
End image.

(** ** A small program *)

(** A header for three bytes at offset 61 of the file, to be loaded at address
    4096 and followed by two zeros, and the three bytes. *)
Definition program : list Z :=
  le_bytes 4 PT_LOAD ++ le_bytes 4 5 ++ le_bytes 8 61 ++ le_bytes 8 4096 ++ le_bytes 8 4096 ++ le_bytes 8 3 ++ le_bytes 8 5 ++ le_bytes 8 4096 ++ [1; 2; 3].

(** It is written behind the five bytes of the file of [InodeDemo]. *)
Lemma program_file : exists s i v, open_file (Spec := file_spec) cache_bc demo_sb 5 v {[ 7 := i ]} s /\ ino_ok (Spec := file_spec) cache_bc demo_sb 5 v i /\
  no_holes (i_entry i) (cv_content v) /\ cv_held v = ∅ /\ ie_type (i_entry i) = INODE_REGULAR /\ exec_file i v = hello ++ program.
Proof.
  destruct (wp_run _ _ _ (wp_inode_write (Spec := file_spec) cache_bc demo_sb 5 92 file_state 7 file_inode file_view program 5
    demo_bitmap_block (ist_intro (Spec := file_spec) cache_bc demo_sb 5 file_state 7 file_inode file_view eq_refl file_rep eq_refl) file_ok file_no_holes eq_refl ltac:(done) ltac:(cbn; lia)
    ltac:(vm_compute; discriminate) ltac:(apply bytes_check; reflexivity) ltac:(vm_compute; discriminate) ltac:(vm_compute; discriminate)))
    as (res & s & _ & _ & e & v & H1 & H2 & H3 & H4 & H5).
  destruct (ist_elim _ _ _ _ _ _ _ _ H1) as (E1 & E2 & E3 & _). exists s, (i_with_entry e file_inode), v.
  split; [split; [done|]; split; [done|]; rewrite E1; apply insert_singleton_eq|]. split; [done|]. split; [done|].
  split; [by rewrite (g_held _ _ _ _ _ _ H4)|]. split; [etrans; [exact (g_type _ _ _ _ _ _ H4)|done]|]. unfold exec_file. cbn [i_entry i_with_entry]. rewrite H5. vm_compute. reflexivity.
Qed.

Definition program_segs : list Elf64_Phdr := [mkPhdr PT_LOAD 61 4096 3 5].
Lemma program_segs_eq i v : exec_file i v = hello ++ program -> segs i v 1 5 = program_segs.
Proof. intros E. unfold segs, phdrs, slice. rewrite E. vm_compute. reflexivity. Qed.

Lemma exec_loads_image_witness : exists s s' : estate bcache_state, exists U' v i, ex_mem s = vm_demo_mem /\ exec_file i v = hello ++ program /\
  (pt ← new_dir; load_segments cache_bc 0 1 7 pt 5 0 true) s = Ret (kpage 100, s') /\ image 1 4101 U' /\
  ublock (ex_mem s') U' 4096 [1; 2; 3; 0; 0].
Proof.
  destruct program_file as (si & i & v & H1 & H2 & H3 & H4 & H5 & H6). pose proof (program_segs_eq _ _ H6) as Es.
  assert (file_size i = 64) as Ef.
  { pose proof (length_file_bytes (i_entry i) (cv_content v)) as L. unfold exec_file in H6. rewrite H6 in L. change (length (hello ++ program)) with 64%nat in L. unfold file_size. lia. }
  destruct (exec_loads_image (Spec := file_spec) cache_bc demo_sb 5 0 7 i v {[ 7 := i ]} 100 (seqZ 101 1099) (mkEstate si vm_demo_mem (kpage 9) 0 0) 1 5
    demo_page_inv H1 (lookup_singleton_eq _ _) H2 H3 H4 ltac:(by rewrite H5) ltac:(lia) ltac:(by rewrite Ef)
    ltac:(rewrite Ef, Es; split; [split; unfold seg_end; cbn; lia|split; [cbn; lia|exact I]]) ltac:(by rewrite Es) ltac:(rewrite Es; vm_compute; discriminate))
    as (s' & own' & F' & U' & K1 & _ & K2 & K3 & _).
  exists (mkEstate si vm_demo_mem (kpage 9) 0 0), s', U', v, i. rewrite Es in K2, K3. split; [done|]. split; [done|]. split; [exact K1|]. split; [exact K2|].
  inversion K3 as [|ph l K4 _ Eph]. subst. unfold seg_loaded, segment, slice in K4. rewrite H6 in K4. exact K4.
Defined.
