(* ===== verification/ExecKeep.v ===== *)
(** * What [execve] leaves alone

    The number of pages in the machine, and an address space while pages outside
    it are freed. *)

From Stdlib Require Import ZArith Lia.
From stdpp Require Import base tactics numbers gmap list.
From S2P Require Import Prelude Mem PageTable Paging PagingProofs Fork ForkProofs UserMem BlockCache Inode Exec ExecProofs.

Local Open Scope Z_scope.

(** ** A part of the state that never changes *)

Definition steady {S A} (f : S -> Z) (m : M S A) : Prop := forall s a s', m s = Ret (a, s') -> f s' = f s.

Section steady.
Context {S : Type} (f : S -> Z).
Lemma steady_ret {A} (a : A) : steady f (mret a).
Proof. by intros s b s' [= _ <-]. Qed.
Lemma steady_bind {A B} (m : M S A) (g : A -> M S B) : steady f m -> (forall a, steady f (g a)) -> steady f (m ≫= g).
Proof.
  intros Hm Hg s b s'. unfold mbind, M_bind. destruct (m s) as [[a s1]| | |] eqn:E; try done. intros H. etrans; [by eapply Hg|by eapply Hm].
Qed.
Lemma steady_gets {A} (g : S -> A) : steady f (gets g).
Proof. by intros s b s' [= _ <-]. Qed.
Lemma steady_modify (g : S -> S) : (forall s, f (g s) = f s) -> steady f (modify g).
Proof. intros H s b s' [= _ <-]. apply H. Qed.
Lemma steady_stop {A} : steady f (panic (A := A)) /\ steady f (block (A := A)) /\ steady f (ub (A := A)).
Proof. done. Qed.
Lemma steady_assert b : steady f (ASSERT b).
Proof. destruct b; [apply steady_ret|done]. Qed.
Lemma steady_some {A} (o : option A) : steady f (some_or_ub o).
Proof. destruct o; [apply steady_ret|done]. Qed.
Lemma steady_zoom {T A} (h : T -> Z) (get : T -> S) (set : S -> T -> T) (m : M S A) : (forall t s, f s = f (get t) -> h (set s t) = h t) -> steady f m -> steady h (zoom get set m).
Proof. intros H Hm t a t'. unfold zoom. destruct (m (get t)) as [[b s]| | |] eqn:E; try done. intros [= <- <-]. apply H. by eapply Hm. Qed.
Lemma wp_steady {A} (m : M S A) (Q : A -> S -> Prop) s : steady f m -> wp m Q s -> wp m (fun a s' => Q a s' /\ f s' = f s) s.
Proof. intros Hm. unfold wp. destruct (m s) as [[a s']| | |] eqn:E; try done. intros HQ. split; [done|by eapply Hm]. Qed.
End steady.

Create HintDb steady.
#[export] Hint Resolve steady_ret steady_gets steady_assert steady_some : steady.

(** Straight-line code, and code proved before. *)
Ltac steady :=
  repeat first
    [ progress intros
    | lazymatch goal with |- steady _ (_ ≫= _) => apply steady_bind end
    | lazymatch goal with |- steady _ (modify _) => by apply steady_modify end
    | lazymatch goal with |- steady _ panic => done | |- steady _ block => done | |- steady _ ub => done end
    | solve [auto with steady]
    | match goal with |- steady _ (if ?b then _ else _) => destruct b end
    | match goal with |- steady _ (match ?o with _ => _ end) => destruct o end
    | match goal with |- steady _ (let _ := _ in _) => cbv zeta end ].

(** ** Memory *)

Abbreviation num := (steady km_pagenum).

Lemma num_load_page pa : num (load_page pa).
Proof. intros s a s'. unfold load_page. by destruct (km_page s !! pa); intros [= _ <-]. Qed.
#[export] Hint Resolve num_load_page : steady.
Lemma num_write ka bs : num (write_bytes ka bs).
Proof. unfold write_bytes. steady. Qed.
Lemma num_read ka n : num (read_bytes ka n).
Proof. unfold read_bytes. steady. Qed.
#[export] Hint Resolve num_write num_read : steady.
Lemma num_load64 ka : num (load64 ka).
Proof. unfold load64. steady. Qed.
Lemma num_store64 ka v : num (store64 ka v).
Proof. unfold store64. steady. Qed.
Lemma num_ref i : num (increment_ref i).
Proof. unfold increment_ref, put_ref, get_ref. steady. Qed.
#[export] Hint Resolve num_load64 num_store64 num_ref : steady.
Lemma num_kalloc : num kalloc_page.
Proof. unfold kalloc_page, fetch_page. steady. Qed.
#[export] Hint Resolve num_kalloc : steady.
Lemma num_alloc_table : num alloc_table.
Proof. unfold alloc_table, clear_page. steady. Qed.
#[export] Hint Resolve num_alloc_table : steady.
Lemma num_next_table t i alloc : num (next_table t i alloc).
Proof. unfold next_table. steady. Qed.
#[export] Hint Resolve num_next_table : steady.
Lemma num_get_pte pt va alloc : num (get_pte pt va alloc).
Proof. unfold get_pte. steady. Qed.
Lemma num_attach i pt : num (attach_pgdir i pt).
Proof. unfold attach_pgdir. steady. Qed.
#[export] Hint Resolve num_get_pte num_attach : steady.
Lemma num_copyout_page pte : num (copyout_page pte).
Proof. unfold copyout_page. steady. Qed.
#[export] Hint Resolve num_copyout_page : steady.
Lemma num_copyout_loop n : forall pt va p len, num (copyout_loop n pt va p len).
Proof. induction n as [|n IH]; intros; cbn [copyout_loop]; steady. Qed.
#[export] Hint Resolve num_copyout_loop : steady.
Lemma num_copyout pt va p len : num (copyout pt va p len).
Proof. unfold copyout. steady. Qed.
Lemma num_user_page va : num (user_page va).
Proof.
  intros s a s'. unfold user_page. cbv zeta.
  lazymatch goal with |- (if ?b then _ else Ret (?x, _)) = _ -> _ => generalize b x end.
  intros [] x H; [discriminate H|]. by injection H as _ <-.
Qed.
#[export] Hint Resolve num_copyout num_user_page : steady.
Lemma num_user_store bs : forall va, num (user_store va bs).
Proof. induction bs as [|b bs IH]; intros; cbn [user_store]; steady. Qed.
Lemma num_user_load va : num (user_load va).
Proof. unfold user_load. steady. Qed.
#[export] Hint Resolve num_user_store num_user_load : steady.

(** ** The parts of [execve] *)

Lemma num_allocuvm_loop n : forall pt a newsz, num (allocuvm_loop n pt a newsz).
Proof. induction n as [|n IH]; intros; cbn [allocuvm_loop]; steady. Qed.
#[export] Hint Resolve num_allocuvm_loop : steady.
Lemma num_allocuvm pt stksz oldsz newsz : num (allocuvm pt stksz oldsz newsz).
Proof. unfold allocuvm. steady. Qed.
Lemma num_push_strings n : forall pt sp l cnt, num (push_strings n pt sp l cnt).
Proof. induction n as [|n IH]; intros pt sp [|x l] cnt; cbn [push_strings]; steady. Qed.
#[export] Hint Resolve num_allocuvm num_push_strings : steady.
Lemma num_push_vector pt sp v : num (push_vector pt sp v).
Proof. unfold push_vector. steady. Qed.
Lemma num_skip_string n : forall sp, num (skip_string n sp).
Proof. induction n as [|n IH]; intros; cbn [skip_string]; steady. Qed.
#[export] Hint Resolve num_push_vector num_skip_string : steady.
Lemma num_fill_vector n : forall vec sp, num (fill_vector n vec sp).
Proof. induction n as [|n IH]; intros; cbn [fill_vector]; steady. Qed.
#[export] Hint Resolve num_fill_vector : steady.
Lemma num_exec_stack i pt argv envp : num (exec_stack i pt argv envp).
Proof. unfold exec_stack, fill_vectors. steady. Qed.

Section estate.
Context {S : Type} (bc : BlockCache S) (invalid_pt : Z).
Abbreviation enum := (steady (fun s : estate S => km_pagenum (ex_mem s))).

Lemma enum_mem {A} (c : KM A) : num c -> enum (mem c).
Proof. apply steady_zoom. by intros t s H. Qed.
Lemma enum_ino {A} (c : M (istate S) A) : enum (ino c).
Proof. intros s a s'. unfold ino, zoom. destruct (c (ex_ino s)) as [[b i]| | |]; try done. by intros [= _ <-]. Qed.
#[local] Hint Resolve enum_mem enum_ino : steady.

Lemma enum_new_dir : enum new_dir.
Proof.
  assert (steady (fun v => km_pagenum (vm_mem v)) init_pgdir) as H.
  { assert (forall A (c : KM A), num c -> steady (fun v => km_pagenum (vm_mem v)) (Paging.mem c)) as Hm by (intros A c; apply steady_zoom; by intros t s H).
    unfold init_pgdir, init_sections. repeat (apply steady_bind; [|intros]); try (by apply steady_modify); apply Hm; [apply num_kalloc|unfold clear_page; auto with steady]. }
  intros s a s'. unfold new_dir. destruct (init_pgdir _) as [[u v]| | |] eqn:E; try done. intros [= _ <-]. exact (H _ _ _ E).
Qed.
Lemma enum_load_segment ip pt sz ph : enum (load_segment bc invalid_pt ip pt sz ph).
Proof. unfold load_segment. steady. Qed.
#[local] Hint Resolve enum_load_segment : steady.
Lemma enum_load_segments n : forall ip pt off sz temp, enum (load_segments bc invalid_pt n ip pt off sz temp).
Proof. induction n as [|n IH]; intros; cbn [load_segments]; steady. Qed.
End estate.

(** ** An address space and the pages outside *)

Lemma space_frame own r F m U F' m' : space own r F m U -> page_inv F' m' ->
  (forall x, is_Some (own !! x) \/ (exists v, U !! v = Some x) -> (x ∉ F') /\ km_page m' !! (x * PAGE_SIZE) = km_page m !! (x * PAGE_SIZE)) ->
  space own r F' m' U /\ forall a bs, ublock m U a bs -> ublock m' U a bs.
Proof.
  intros HS HP Hx. pose proof HS as [I1 I2 I3 I4]. destruct (pt_frame own r F m F' m' I1 HP) as (J & _ & K); [intros n l pre Hn; apply Hx; left; by eexists|].
  assert (forall x, ubyte m' U x = ubyte m U x) as Hb.
  { intros x. unfold ubyte. destruct (U !! (x / PAGE_SIZE)) as [n|] eqn:E; [|done]. cbn. by rewrite (proj2 (Hx n (or_intror (ex_intro _ _ E)))). }
  split; [|intros a bs H i Hi; rewrite Hb; by apply H]. split; [done| | |done].
  - intros v Hv. rewrite (K (v * PAGE_SIZE)). by apply I2.
  - intros v n Hn. destruct (I3 v n Hn) as (H1 & H2 & _ & H3 & pg & H4). destruct (Hx n (or_intror (ex_intro _ _ Hn))) as [H5 H6].
    split_and!; try done; [lia..|]. exists pg. unfold page_at. by rewrite H6.
Qed.

Lemma layout_same m m' U newsp args envs : (forall a bs, ublock m U a bs -> ublock m' U a bs) -> stack_layout m U newsp args envs -> stack_layout m' U newsp args envs.
Proof.
  intros K [H1 (ap & ep & H2 & H3 & H4) H5]. assert (forall a s, points_to m U newsp a s -> points_to m' U newsp a s) as K' by (intros a s [Ha Hs]; split; [done|by apply K]).
  split; [done| |done]. exists ap, ep. split; [by apply K|]. split; (eapply Forall2_impl; [eassumption|exact K']).
Qed.
