(* ===== verification/ExecCall.v ===== *)
(** * The whole of [execve] *)

From Stdlib Require Import ZArith Lia.
From stdpp Require Import base tactics numbers gmap list.
From S2P Require Import Prelude FsDefs Mem PageTable Paging PagingProofs PagingDemo FreePt Fork ForkProofs UserMem BlockCache Console Inode InodeProofs Cache CacheProofs CacheCrash CacheClient CacheBitmap CacheInst InodeDemo Exec ExecProofs ExecProps ExecLoad ExecImage ExecKeep.

Local Open Scope Z_scope.

Section call.
Context {S : Type} (bc : BlockCache S) (sb : SuperBlock) (ctx : Z) {Spec : BlockCacheSpec bc (sb_num_blocks sb) ctx}.
Context (invalid_pt : Z) (junk junk_name : list Z).






(** ** The file *)










(** [end_op] returns when the operation holds no block. *)
Hypothesis Hend : forall v c, bc_rep v c -> cv_held v = ∅ -> exists c', bc_end_op bc ctx c = Ret (tt, c').


End call.

(** ** A process that executes a file *)









