(* ===== verification/Mkfs.v ===== *)
(** * The builder of the disk image: [user/mkfs/main.c]

    One definition per function.  The state has the image (its blocks by number),
    [freeinode] and [freeblock].  [exit(1)] and failed assertions are [Panic]; the
    file operations of the host succeed, except that reading beyond the end of the
    image fails.  The host is little-endian.  A file to be stored is its path with
    the pieces in which [read] returns its bytes, or [None] if it cannot be
    opened. *)

From Stdlib Require Import ZArith Lia.
From stdpp Require Import base tactics numbers gmap list.
From S2P Require Import Prelude FsDefs Inode.

Local Open Scope Z_scope.

Definition FSSIZE : Z := 1000.
Definition NINODES : Z := 200.
Definition nbitmap : Z := FSSIZE / (BLOCK_SIZE * 8) + 1.
Definition ninodeblocks : Z := NINODES / INODE_PER_BLOCK + 1.
Definition num_log_blocks : Z := LOG_MAX_SIZE.
Definition nmeta : Z := 2 + num_log_blocks + ninodeblocks + nbitmap.
Definition num_data_blocks : Z := FSSIZE - nmeta.

(** [xshort] and [xint]: the integer whose bytes are stored. *)
Definition xshort (x : Z) : Z := le_val (le_bytes 2 x).
Definition xint (x : Z) : Z := le_val (le_bytes 4 x).

Definition sb : SuperBlock :=
  mkSuperBlock (xint FSSIZE) (xint num_data_blocks) (xint NINODES) (xint num_log_blocks) (xint 2) (xint (2 + num_log_blocks)) (xint (2 + num_log_blocks + ninodeblocks)).
Definition sb_bytes (s : SuperBlock) : list Z :=
  ints_bytes 4 [sb_num_blocks s; sb_num_data_blocks s; sb_num_inodes s; sb_num_log_blocks s; sb_log_start s; sb_inode_start s; sb_bitmap_start s].

Record mkstate : Type := mkMk { mk_img : gmap Z (list Z); mk_freeinode : Z; mk_freeblock : Z }.
Abbreviation KM := (M mkstate).

Definition zeroes : list Z := replicate 512 0.
Definition wsect (sec : Z) (buf : list Z) : KM unit := modify (fun s => mkMk (<[sec := buf]> (mk_img s)) (mk_freeinode s) (mk_freeblock s)).
Definition rsect (sec : Z) : KM (list Z) := img ← gets mk_img; match img !! sec with Some b => mret b | None => panic end.

Definition IBLOCK (i : Z) : Z := i / INODE_PER_BLOCK + sb_inode_start sb.
Definition winode (inum : Z) (ip : InodeEntry) : KM unit :=
  buf ← rsect (IBLOCK inum);
  wsect (IBLOCK inum) (splice (get_entry inum) (entry_bytes ip) buf).
Definition rinode (inum : Z) : KM InodeEntry :=
  buf ← rsect (IBLOCK inum);
  mret (entry_of_bytes (take 64 (drop (get_entry inum) buf))).

Definition ialloc (type : Z) : KM Z :=
  inum ← gets mk_freeinode;
  modify (fun s => mkMk (mk_img s) (u32 (mk_freeinode s + 1)) (mk_freeblock s));;
  winode inum (mkEntry (xshort type) 0 0 (xshort 1) (xint 0) (replicate 12 0) 0);;
  mret inum.

(** [freeblock++]. *)
Definition next_block : KM Z :=
  b ← gets mk_freeblock;
  modify (fun s => mkMk (mk_img s) (mk_freeinode s) (u32 (mk_freeblock s + 1)));;
  mret b.

(** The block of the file that holds the bytes from [fbn * BSIZE]. *)
Definition iappend_block (fbn : Z) (din : InodeEntry) : KM (Z * InodeEntry) :=
  if fbn <? INODE_NUM_DIRECT then
    din ← (if xint (default 0 (ie_addrs din !! Z.to_nat fbn)) =? 0 then
             b ← next_block; mret (ie_with_addrs (<[Z.to_nat fbn := xint b]> (ie_addrs din)) din)
           else mret din);
    mret (xint (default 0 (ie_addrs din !! Z.to_nat fbn)), din)
  else
    din ← (if xint (ie_indirect din) =? 0 then b ← next_block; mret (ie_with_indirect (xint b) din) else mret din);
    indirect ← rsect (xint (ie_indirect din));
    indirect ← (if read_le 4 (get_addrs (fbn - INODE_NUM_DIRECT)) indirect =? 0 then
                  b ← next_block;
                  let indirect := splice (get_addrs (fbn - INODE_NUM_DIRECT)) (le_bytes 4 (xint b)) indirect in
                  wsect (xint (ie_indirect din)) indirect;;
                  mret indirect
                else mret indirect);
    mret (xint (read_le 4 (get_addrs (fbn - INODE_NUM_DIRECT)) indirect), din).

(** The loop of [iappend] over the bytes [p] that are left; [n] bounds the turns. *)
Fixpoint iappend_loop (n : nat) (p : list Z) (off : Z) (din : InodeEntry) : KM (Z * InodeEntry) :=
  if decide (p = []) then mret (off, din) else
  match n with
  | O => block
  | S n' =>
      let fbn := off / BLOCK_SIZE in
      if negb (fbn <? INODE_MAX_BLOCKS) then panic else
      '(x, din) ← iappend_block fbn din;
      let n1 := Z.min (Z.of_nat (length p)) ((fbn + 1) * BLOCK_SIZE - off) in
      buf ← rsect x;
      wsect x (splice (Z.to_nat (off - fbn * BLOCK_SIZE)) (take (Z.to_nat n1) p) buf);;
      iappend_loop n' (drop (Z.to_nat n1) p) (off + n1) din
  end.
Definition iappend (inum : Z) (p : list Z) : KM unit :=
  din ← rinode inum;
  '(off, din) ← iappend_loop (length p) p (xint (ie_num_bytes din)) din;
  winode inum (ie_with_num_bytes (xint off) din).

(** The bytes of the bitmap with the first [used] bits set. *)
Fixpoint set_bits (used : nat) (buf : list Z) : list Z :=
  match used with
  | O => buf
  | S i => let buf := set_bits i buf in
           let k := Z.to_nat (Z.of_nat i / 8) in
           <[k := Z.lor (default 0 (buf !! k)) (Z.shiftl 1 (Z.of_nat i mod 8))]> buf
  end.
Definition balloc (used : Z) : KM unit :=
  ASSERT (used <? BLOCK_SIZE * 8);;
  wsect (sb_bitmap_start sb) (set_bits (Z.to_nat used) zeroes).

(** [strncpy(de.name, s, DIRSIZ)] into a cleared entry. *)
Definition dir_name (s : list Z) : list Z := take 14 s ++ replicate (14 - length s) 0.
Definition dirent (inum : Z) (name : list Z) : list Z := dirent_bytes (mkDirEntry (xshort inum) (dir_name name)).

(** What follows the last '/' of a path; then a leading '_' is skipped. *)
Definition base_name (path : list Z) : list Z :=
  foldl (fun acc c => if c =? 47 then [] else acc ++ [c]) [] path.
Definition skip_underscore (s : list Z) : list Z := match s with c :: s' => if c =? 95 then s' else s | [] => s end.

Record infile : Type := mkIn { f_path : list Z; f_data : option (list (list Z)) }.

(** The loop over the arguments. *)
Definition add_file (rootino : Z) (f : infile) : KM unit :=
  let name := base_name (f_path f) in
  ASSERT (negb (existsb (Z.eqb 47) name));;
  match f_data f with
  | None => panic
  | Some pieces =>
      let name := skip_underscore name in
      inum ← ialloc INODE_REGULAR;
      iappend rootino (dirent inum name);;
      for_each pieces (iappend inum)
  end.

Definition mkfs (files : list infile) : KM unit :=
  modify (fun s => mkMk (mk_img s) 1 nmeta);;
  for_each (seqZ 0 FSSIZE) (fun i => wsect i zeroes);;
  wsect 1 (splice 0 (sb_bytes sb) zeroes);;
  rootino ← ialloc INODE_DIRECTORY;
  ASSERT (rootino =? ROOT_INODE_NO);;
  iappend rootino (dirent rootino [46]);;
  iappend rootino (dirent rootino [46; 46]);;
  for_each files (add_file rootino);;
  din ← rinode rootino;
  let off := xint (ie_num_bytes din) in
  let off := (off / BLOCK_SIZE + 1) * BLOCK_SIZE in
  winode rootino (ie_with_num_bytes (xint off) din);;
  used ← gets mk_freeblock;
  balloc used.
