(* ===== verification/MkfsProofs.v ===== *)
(** * Files of the image under construction

    What [mkfs] has stored of a file: the blocks of its bytes, in order, and its
    table of indirect blocks. *)

From Stdlib Require Import ZArith Lia.
From stdpp Require Import base tactics numbers gmap list.
From S2P Require Import Prelude FsDefs Inode Mkfs.

Local Open Scope Z_scope.

Record mfile : Type := mkMF { mf_e : InodeEntry; mf_bl : list Z; mf_ind : Z; mf_data : list Z }.
Definition mf_table (f : mfile) : list Z := if (length (mf_bl f) <=? 12)%nat then [] else [mf_ind f].
Definition mf_owned (f : mfile) : list Z := mf_bl f ++ mf_table f.

(** Blocks that [n] bytes take. *)
Definition nblocks (n : nat) : nat := (n + 511) / 512.
Definition ncost (k : nat) : nat := if (k <=? 12)%nat then k else S k.

Definition content (img : gmap Z (list Z)) (b : Z) : list Z := default [] (img !! b).
Abbreviation zeros n := (replicate n 0).

(** The entry and the blocks of the file hold [mf_data], with zeros up to the
    end of the last block. *)
Record frep (C : Z -> list Z) (f : mfile) : Prop := mkFrep {
  fr_addrs : ie_addrs (mf_e f) = take 12 (mf_bl f) ++ zeros (12 - length (mf_bl f));
  fr_ind : ie_indirect (mf_e f) = if (length (mf_bl f) <=? 12)%nat then 0 else mf_ind f;
  fr_tab : (12 < length (mf_bl f))%nat -> C (mf_ind f) = ints_bytes 4 (drop 12 (mf_bl f)) ++ zeros (512 - 4 * (length (mf_bl f) - 12));
  fr_max : (length (mf_bl f) <= 140)%nat;
  fr_data : concat (C <$> mf_bl f) = mf_data f ++ zeros (512 * length (mf_bl f) - length (mf_data f));
  fr_blk : Forall (fun b => length (C b) = 512%nat) (mf_bl f);
  fr_size : (length (mf_data f) <= 512 * length (mf_bl f) <= length (mf_data f) + 512)%nat }.

(** ** Lists of integers in a block *)

Lemma ints_bytes_app k l1 l2 : ints_bytes k (l1 ++ l2) = ints_bytes k l1 ++ ints_bytes k l2.
Proof. unfold ints_bytes. apply bind_app. Qed.
Lemma ints_lookup l n i x : Forall (fun b => 0 <= b < 2 ^ 32) l -> l !! i = Some x -> read_le 4 (i * 4) (ints_bytes 4 l ++ zeros n) = x.
Proof.
  intros Hl Hi. apply list_elem_of_split_length in Hi as (l1 & l2 & -> & ->). rewrite ints_bytes_app, <-app_assoc.
  replace (length l1 * 4)%nat with (length (ints_bytes 4 l1) + 0)%nat by (rewrite length_ints_bytes; lia). rewrite read_le_app_skip.
  change (ints_bytes 4 (x :: l2)) with (le_bytes 4 x ++ ints_bytes 4 l2). rewrite <-app_assoc, read_le_app_here by apply length_le_bytes. apply le_val_bytes.
  rewrite Forall_app, Forall_cons in Hl. lia.
Qed.
Lemma table_end l n : read_le 4 (length l * 4) (ints_bytes 4 l ++ zeros n) = 0.
Proof.
  replace (length l * 4)%nat with (length (ints_bytes 4 l) + 0)%nat by (rewrite length_ints_bytes; lia). rewrite read_le_app_skip. apply read_le_zeros.
Qed.
Lemma splice_zeros (l p : list Z) n : (length p <= n)%nat -> splice (length l) p (l ++ zeros n) = (l ++ p) ++ zeros (n - length p).
Proof.
  intros Hn. unfold splice. rewrite take_app_length, drop_app_ge by lia. rewrite drop_replicate, <-app_assoc. do 3 f_equal. lia.
Qed.
Lemma table_push l n b : (4 <= n)%nat -> splice (length l * 4) (le_bytes 4 b) (ints_bytes 4 l ++ zeros n) = ints_bytes 4 (l ++ [b]) ++ zeros (n - 4).
Proof.
  intros Hn. replace (length l * 4)%nat with (length (ints_bytes 4 l)) by (rewrite length_ints_bytes; lia). rewrite splice_zeros by (rewrite length_le_bytes; lia).
  rewrite length_le_bytes, ints_bytes_app. unfold ints_bytes at 3. cbn [mbind list_bind]. by rewrite app_nil_r.
Qed.

(** ** What a file depends on *)

Lemma frep_ext C C' f : (forall b, b ∈ mf_owned f -> C' b = C b) -> frep C f -> frep C' f.
Proof.
  intros He [H1 H2 H3 H4 H5 H6 H7]. unfold mf_owned in He. assert (C' <$> mf_bl f = C <$> mf_bl f) as E.
  { apply list_fmap_ext. intros i x Hx. apply He, elem_of_app. left. by eapply list_elem_of_lookup_2. }
  constructor; try done.
  - intros Hl. rewrite He; [by apply H3|]. apply elem_of_app. right. unfold mf_table. rewrite (proj2 (Nat.leb_gt _ _)) by done. by left.
  - by rewrite E.
  - rewrite Forall_forall in *. intros b Hb. rewrite He; [by apply H6|]. apply elem_of_app. by left.
Qed.

Lemma concat_length (C : Z -> list Z) bl : Forall (fun b => length (C b) = 512%nat) bl -> length (concat (C <$> bl)) = (512 * length bl)%nat.
Proof. induction 1 as [|b bl Hb _ IH]; [done|]. cbn [fmap list_fmap concat]. rewrite length_app, Hb, IH. cbn [length]. lia. Qed.

(** The last block, when the bytes do not fill all of them. *)
Lemma frep_last C f : frep C f -> (length (mf_data f) < 512 * length (mf_bl f))%nat -> exists full x d1,
  mf_bl f = full ++ [x] /\ mf_data f = concat (C <$> full) ++ d1 /\ C x = d1 ++ zeros (512 - length d1) /\ length (concat (C <$> full)) = (512 * length full)%nat /\ (length d1 < 512)%nat.
Proof.
  destruct f as [e bl ind data]. intros [_ _ _ _ H5 H6 H7] Hlt. cbn [mf_bl mf_data] in *. destruct bl as [|x full _] using rev_ind; [cbn in Hlt; lia|].
  apply Forall_app in H6 as [Hf [Hx _]%Forall_cons]. rewrite fmap_app, concat_app in H5. cbn [fmap list_fmap concat] in H5. rewrite app_nil_r in H5.
  rewrite length_app in *. cbn [length] in *. pose proof (concat_length C full Hf) as Hl. exists full, x, (drop (512 * length full) data).
  assert (take (512 * length full) data = concat (C <$> full)) as Et.
  { pose proof (take_app_length (concat (C <$> full)) (C x)) as E. rewrite H5, take_app_le, Hl in E by lia. exact E. }
  split; [done|]. split; [by rewrite <-Et, take_drop|]. rewrite length_drop. split; [|split; [done|lia]].
  pose proof (drop_app_length (concat (C <$> full)) (C x)) as E. rewrite H5, drop_app_le, Hl in E by lia. rewrite <-E. do 2 f_equal. lia.
Qed.

(** More bytes into the last block. *)
Lemma frep_write C C' f full x d1 p : frep C f -> mf_bl f = full ++ [x] -> mf_data f = concat (C <$> full) ++ d1 -> C x = d1 ++ zeros (512 - length d1) ->
  length (concat (C <$> full)) = (512 * length full)%nat -> (length d1 + length p <= 512)%nat -> NoDup (mf_owned f) ->
  C' x = (d1 ++ p) ++ zeros (512 - length (d1 ++ p)) -> (forall b, b <> x -> C' b = C b) ->
  frep C' (mkMF (mf_e f) (mf_bl f) (mf_ind f) (mf_data f ++ p)).
Proof.
  destruct f as [e bl ind data]. intros [H1 H2 H3 H4 H5 H6 H7] Ebl Edata Hx Hl Hp Hnd Hx' Ho. unfold mf_owned, mf_table in Hnd. cbn [mf_bl mf_data mf_e mf_ind] in *. subst bl data.
  assert (x ∉ full) as Hxf by (apply NoDup_app in Hnd as ((_ & Hnd & _)%NoDup_app & _ & _); intros Hin; apply (Hnd x Hin); by left).
  assert (C' <$> full = C <$> full) as Ef. { apply list_fmap_ext. intros i b Hb. apply Ho. intros ->. apply Hxf. by eapply list_elem_of_lookup_2. }
  rewrite !length_app in *. cbn [length] in *. constructor; cbn [mf_bl mf_data mf_e mf_ind]; rewrite ?length_app; cbn [length]; try done.
  - intros Hlen. rewrite Ho; [by apply H3|]. intros ->. rewrite (proj2 (Nat.leb_gt _ _)) in Hnd by done. apply NoDup_app in Hnd as (_ & Hnd & _). apply (Hnd x); [apply elem_of_app; right; by left|by left].
  - rewrite fmap_app, concat_app. cbn [fmap list_fmap concat]. rewrite app_nil_r, Ef, Hx', <-!app_assoc. do 3 f_equal; rewrite ?length_app; f_equal; lia.
  - apply Forall_app in H6 as [Hf Hx6]. apply Forall_app. split.
    + eapply Forall_impl; [apply Forall_and; split; [exact Hf|]|]; [|intros b [Hb Hne]; rewrite Ho by exact Hne; exact Hb]. rewrite Forall_forall. intros b Hb ->. done.
    + apply Forall_singleton. rewrite Hx', !length_app, length_replicate. lia.
  - lia.
Qed.

(** ** The image *)

Record dinv (s : mkstate) (fs : list mfile) : Prop := mkDinv {
  di_pres : forall b, 0 <= b < FSSIZE -> exists x, mk_img s !! b = Some x /\ length x = 512%nat;
  di_rep : Forall (frep (content (mk_img s))) fs;
  di_nodup : NoDup (concat (mf_owned <$> fs));
  di_range : Forall (fun b => nmeta <= b < mk_freeblock s) (concat (mf_owned <$> fs));
  di_free : mk_freeblock s = nmeta + Z.of_nat (length (concat (mf_owned <$> fs)));
  di_le : mk_freeblock s <= FSSIZE;
  di_zero : forall b, mk_freeblock s <= b < FSSIZE -> mk_img s !! b = Some zeroes }.

(** Nothing but blocks of files was changed, and only the block numbers of the
    entry. *)
Definition same_meta (s s' : mkstate) : Prop := mk_freeinode s' = mk_freeinode s /\ forall b, b < nmeta -> mk_img s' !! b = mk_img s !! b.
Definition same_entry (e e' : InodeEntry) : Prop :=
  ie_type e' = ie_type e /\ ie_major e' = ie_major e /\ ie_minor e' = ie_minor e /\ ie_num_links e' = ie_num_links e /\ ie_num_bytes e' = ie_num_bytes e.
Lemma same_meta_refl s : same_meta s s.
Proof. done. Qed.
Lemma same_meta_trans s1 s2 s3 : same_meta s1 s2 -> same_meta s2 s3 -> same_meta s1 s3.
Proof. intros [H1 H2] [H3 H4]. split; [congruence|]. intros b Hb. rewrite H4 by done. by apply H2. Qed.
Lemma same_entry_trans e1 e2 e3 : same_entry e1 e2 -> same_entry e2 e3 -> same_entry e1 e3.
Proof. unfold same_entry. intuition congruence. Qed.

Lemma xint_small z : 0 <= z < 2 ^ 32 -> xint z = z.
Proof. intros H. unfold xint. by apply le_val_bytes. Qed.
Lemma wp_rsect b x s (Q : list Z -> mkstate -> Prop) : mk_img s !! b = Some x -> Q x s -> wp (rsect b) Q s.
Proof. intros Hb HQ. unfold wp, rsect, mbind, M_bind, gets. by rewrite Hb. Qed.

Lemma owned_new f f' new rest : mf_owned f' ≡ₚ mf_owned f ++ new -> concat (mf_owned <$> (f' :: rest)) ≡ₚ new ++ concat (mf_owned <$> (f :: rest)).
Proof. intros H. cbn [fmap list_fmap concat]. rewrite H, app_assoc. apply Permutation_app_tail. apply Permutation_app_comm. Qed.

(** New blocks for a file. *)
Lemma dinv_new s s' f f' new rest : dinv s (f :: rest) -> mf_owned f' ≡ₚ mf_owned f ++ new -> new ≡ₚ seqZ (mk_freeblock s) (Z.of_nat (length new)) ->
  mk_freeblock s' = mk_freeblock s + Z.of_nat (length new) -> mk_freeblock s' <= FSSIZE -> frep (content (mk_img s')) f' ->
  (forall b, b ∉ mf_owned f' -> mk_img s' !! b = mk_img s !! b) -> (forall b, 0 <= b < FSSIZE -> exists x, mk_img s' !! b = Some x /\ length x = 512%nat) -> dinv s' (f' :: rest).
Proof.
  intros [H1 H2 H3 H4 H5 H6 H7] Ho Hn Hf Hle Hrep Hrest Hpres. pose proof (owned_new _ _ _ rest Ho) as Hp. apply Forall_cons in H2 as [_ H2].
  assert (forall b, b ∈ new -> mk_freeblock s <= b < mk_freeblock s') as Hrange by (intros b Hb; rewrite Hn in Hb; apply elem_of_seqZ in Hb; lia).
  assert (NoDup (concat (mf_owned <$> (f' :: rest)))) as Hnd.
  { rewrite Hp. apply NoDup_app. split; [rewrite Hn; apply NoDup_seqZ|]. split; [|done]. intros b Hb Hin. rewrite Forall_forall in H4. apply H4 in Hin. apply Hrange in Hb. lia. }
  constructor; try done.
  - apply Forall_cons. split; [done|]. rewrite Forall_forall in *. intros g Hg. apply (frep_ext (content (mk_img s))); [|by apply H2]. intros b Hb. unfold content. rewrite Hrest; [done|].
    cbn [fmap list_fmap concat] in Hnd. apply NoDup_app in Hnd as (_ & Hd & _). intros Hb'. apply (Hd b Hb'). clear -Hg Hb. induction rest as [|g' rest IH]; [by apply not_elem_of_nil in Hg|].
    cbn [fmap list_fmap concat]. apply elem_of_app. apply elem_of_cons in Hg as [->|Hg]; [by left|right; auto].
  - rewrite Hp. apply Forall_app. split; [rewrite Forall_forall; intros b Hb; apply Hrange in Hb; lia|]. eapply Forall_impl; [exact H4|]. cbn beta. intros b Hb. lia.
  - rewrite Hp, length_app, Hf, H5. lia.
  - intros b Hb. rewrite Hrest; [apply H7; lia|]. rewrite Ho, elem_of_app. intros [Hin|Hin]; [|apply Hrange in Hin; lia].
    cbn [fmap list_fmap concat] in H4. apply Forall_app in H4 as [H4 _]. rewrite Forall_forall in H4. apply H4 in Hin. lia.
Qed.

(** ** A block for the next bytes *)

Lemma frep_push C C' f e' ind' b : frep C f -> length (mf_data f) = (512 * length (mf_bl f))%nat -> (length (mf_bl f) < 140)%nat ->
  ie_addrs e' = take 12 (mf_bl f ++ [b]) ++ zeros (12 - S (length (mf_bl f))) -> ie_indirect e' = (if (S (length (mf_bl f)) <=? 12)%nat then 0 else ind') ->
  ((12 < S (length (mf_bl f)))%nat -> C' ind' = ints_bytes 4 (drop 12 (mf_bl f ++ [b])) ++ zeros (512 - 4 * (S (length (mf_bl f)) - 12))) ->
  (forall x, x ∈ mf_bl f -> C' x = C x) -> C' b = zeroes -> frep C' (mkMF e' (mf_bl f ++ [b]) ind' (mf_data f)).
Proof.
  destruct f as [e bl ind data]. intros [_ _ _ _ H5 H6 H7] Hd Hl E1 E2 E3 Hc Hb. cbn [mf_bl mf_data mf_e mf_ind] in *.
  assert (C' <$> bl = C <$> bl) as Ef. { apply list_fmap_ext. intros i x Hx. apply Hc. by eapply list_elem_of_lookup_2. }
  constructor; cbn [mf_bl mf_data mf_e mf_ind]; rewrite ?length_app; cbn [length]; rewrite ?Nat.add_1_r; try done; try lia.
  - rewrite fmap_app, concat_app. cbn [fmap list_fmap concat]. rewrite app_nil_r, Ef, H5, Hb, <-app_assoc. f_equal. unfold zeroes. rewrite <-replicate_add. f_equal. lia.
  - apply Forall_app. split; [|apply Forall_singleton; by rewrite Hb]. rewrite Forall_forall in *. intros x Hx. rewrite Hc by done. by apply H6.
Qed.

(** The bytes of the file end within a block it has. *)
Definition has_block (f : mfile) (x : Z) : Prop := (length (mf_data f) < 512 * length (mf_bl f))%nat /\ exists full, mf_bl f = full ++ [x].
Definition got_block (s : mkstate) (f : mfile) (rest : list mfile) (r : Z * InodeEntry) (s' : mkstate) : Prop := exists f',
  mf_e f' = r.2 /\ mf_data f' = mf_data f /\ has_block f' r.1 /\ dinv s' (f' :: rest) /\ same_entry (mf_e f) r.2 /\ same_meta s s'.

Lemma addrs_lookup C f k : frep C f -> (k < 12)%nat -> default 0 (ie_addrs (mf_e f) !! k) = default 0 (mf_bl f !! k).
Proof.
  intros [H1 _ _ _ _ _ _] Hk. rewrite H1. destruct (decide (k < length (mf_bl f))%nat) as [Hl|Hl].
  - rewrite lookup_app_l, lookup_take_lt by (rewrite ?length_take; lia). done.
  - rewrite lookup_app_r by (rewrite length_take; lia). rewrite (proj2 (lookup_ge_None (mf_bl f) k)) by lia. rewrite length_take. rewrite lookup_replicate_2 by lia. done.
Qed.
Lemma owned_range s f rest b : dinv s (f :: rest) -> b ∈ mf_owned f -> nmeta <= b < mk_freeblock s.
Proof. intros [_ _ _ H _ _ _] Hb. cbn [fmap list_fmap concat] in H. apply Forall_app in H as [H _]. rewrite Forall_forall in H. by apply H. Qed.
Lemma owned_bl f b : b ∈ mf_bl f -> b ∈ mf_owned f.
Proof. intros H. apply elem_of_app. by left. Qed.
Lemma nmeta_pos : nmeta = 92.
Proof. reflexivity. Qed.

(** It has one already. *)
Lemma wp_block_present s f rest : dinv s (f :: rest) -> (length (mf_data f) < 512 * length (mf_bl f))%nat ->
  wp (iappend_block (Z.of_nat (length (mf_data f)) / BLOCK_SIZE) (mf_e f)) (got_block s f rest) s.
Proof.
  intros Hi Hlt. pose proof (di_rep _ _ Hi) as Hr. apply Forall_cons in Hr as [Hr _]. destruct (frep_last _ _ Hr Hlt) as (full & x & d1 & Eb & Ed & _ & Hl & Hd).
  assert (Z.of_nat (length (mf_data f)) / BLOCK_SIZE = Z.of_nat (length full)) as ->.
  { rewrite Ed, length_app, Hl. change BLOCK_SIZE with 512. symmetry. apply (Z.div_unique _ _ _ (Z.of_nat (length d1))); lia. }
  assert (nmeta <= x < mk_freeblock s) as Hx by (apply (owned_range s f rest); [done|]; apply owned_bl; rewrite Eb; apply elem_of_app; right; by left).
  pose proof (di_le _ _ Hi) as Hle. change FSSIZE with 1000 in Hle. rewrite nmeta_pos in Hx.
  assert (mf_bl f !! length full = Some x) as Ex by (rewrite Eb; by rewrite list_lookup_middle). pose proof (fr_max _ _ Hr) as Hm. rewrite Eb, length_app in Hm. cbn in Hm.
  assert (got_block s f rest (x, mf_e f) s) as Hgot.
  { exists f. split; [done|]. split; [done|]. split; [split; [done|by exists full]|]. split; [done|]. split; [done|apply same_meta_refl]. }
  unfold iappend_block. change INODE_NUM_DIRECT with 12. destruct (Z.ltb_spec (Z.of_nat (length full)) 12) as [H12|H12].
  - rewrite Nat2Z.id, (addrs_lookup _ _ _ Hr), Ex by lia. change (default 0 (Some x)) with x. rewrite xint_small by lia. rewrite (proj2 (Z.eqb_neq x 0)) by lia. wp_prims.
    rewrite (addrs_lookup _ _ _ Hr), Ex by lia. change (default 0 (Some x)) with x. rewrite xint_small by lia. done.
  - assert (12 < length (mf_bl f))%nat as Hb12 by (rewrite Eb, length_app; cbn; lia). pose proof (fr_ind _ _ Hr) as Ei. rewrite (proj2 (Nat.leb_gt _ _)) in Ei by done.
    pose proof (fr_tab _ _ Hr Hb12) as Et. assert (nmeta <= mf_ind f < mk_freeblock s) as Hind.
    { apply (owned_range s f rest); [done|]. apply elem_of_app. right. unfold mf_table. rewrite (proj2 (Nat.leb_gt _ _)) by done. by left. }
    rewrite nmeta_pos in Hind. rewrite Ei, xint_small by lia. rewrite (proj2 (Z.eqb_neq (mf_ind f) 0)) by lia. wp_prims. rewrite Ei, xint_small by lia.
    destruct (di_pres _ _ Hi (mf_ind f)) as (tab & Htab & Hlt'); [change FSSIZE with 1000; lia|]. eapply wp_rsect; [exact Htab|]. unfold content in Et. rewrite Htab in Et. cbn in Et. subst tab.
    unfold get_addrs. replace (Z.to_nat ((Z.of_nat (length full) - 12) * 4)) with ((length full - 12) * 4)%nat by lia.
    assert (drop 12 (mf_bl f) !! (length full - 12)%nat = Some x) as Ex' by (rewrite lookup_drop; by replace (12 + (length full - 12))%nat with (length full) by lia).
    rewrite (ints_lookup _ _ _ x); [|rewrite Forall_forall; intros b Hb; assert (nmeta <= b < mk_freeblock s); [|rewrite nmeta_pos in *; lia]|exact Ex'].
    2: { apply (owned_range s f rest); [done|]. apply owned_bl. rewrite <-(take_drop 12 (mf_bl f)). apply elem_of_app. by right. }
    rewrite (proj2 (Z.eqb_neq x 0)) by lia. wp_prims. rewrite (ints_lookup _ _ _ x); [|rewrite Forall_forall; intros b Hb; assert (nmeta <= b < mk_freeblock s); [|rewrite nmeta_pos in *; lia]|exact Ex'].
    2: { apply (owned_range s f rest); [done|]. apply owned_bl. rewrite <-(take_drop 12 (mf_bl f)). apply elem_of_app. by right. }
    rewrite xint_small by lia. done.
Qed.

Lemma wp_next_block s (Q : Z -> mkstate -> Prop) : 0 <= mk_freeblock s < FSSIZE -> Q (mk_freeblock s) (mkMk (mk_img s) (mk_freeinode s) (mk_freeblock s + 1)) -> wp next_block Q s.
Proof. intros Hf HQ. unfold next_block. wp_prims. rewrite u32_small by (change FSSIZE with 1000 in Hf; lia). exact HQ. Qed.

Lemma take_snoc_lt (l : list Z) b n : (length l < n)%nat -> take n (l ++ [b]) = l ++ [b].
Proof. intros H. apply take_ge. rewrite length_app. cbn. lia. Qed.

(** It gets a direct block. *)
Lemma wp_block_direct s f rest : dinv s (f :: rest) -> length (mf_data f) = (512 * length (mf_bl f))%nat -> (length (mf_bl f) < 12)%nat -> mk_freeblock s + 1 <= FSSIZE ->
  wp (iappend_block (Z.of_nat (length (mf_bl f))) (mf_e f)) (got_block s f rest) s.
Proof.
  intros Hi Hd Hl Hc. pose proof (di_rep _ _ Hi) as Hr. apply Forall_cons in Hr as [Hr _]. set (b := mk_freeblock s).
  pose proof (di_free _ _ Hi) as Hf. rewrite nmeta_pos in Hf. unfold FSSIZE in Hc. assert (0 <= b < 1000) as Hb by (unfold b; lia).
  unfold iappend_block. change INODE_NUM_DIRECT with 12. rewrite (proj2 (Z.ltb_lt _ _)) by lia. rewrite Nat2Z.id, (addrs_lookup _ _ _ Hr) by lia.
  rewrite (proj2 (lookup_ge_None (mf_bl f) _)) by lia. change (xint (default 0 None) =? 0) with true. cbv iota. apply wp_bind, wp_bind. apply wp_next_block; [change FSSIZE with 1000; fold b; lia|].
  fold b. wp_prims. pose proof (fr_addrs _ _ Hr) as Ea. rewrite take_ge in Ea by lia. assert (length (ie_addrs (mf_e f)) = 12%nat) as La by (rewrite Ea, length_app, length_replicate; lia).
  cbn [ie_addrs ie_with_addrs]. rewrite list_lookup_insert_eq by lia. change (default 0 (Some (xint b))) with (xint b). rewrite !(xint_small b) by lia.
  set (e' := ie_with_addrs (<[length (mf_bl f) := b]> (ie_addrs (mf_e f))) (mf_e f)). set (f' := mkMF e' (mf_bl f ++ [b]) (mf_ind f) (mf_data f)).
  assert (mf_table f = []) as Et by (unfold mf_table; by rewrite (proj2 (Nat.leb_le _ _)) by lia).
  assert (mf_owned f' ≡ₚ mf_owned f ++ [b]) as Ho by (unfold mf_owned; rewrite Et; unfold mf_table; cbn [mf_bl f']; rewrite length_app; cbn [length]; rewrite (proj2 (Nat.leb_le _ _)) by lia; by rewrite !app_nil_r).
  exists f'. split; [done|]. split; [done|]. split; [split; [cbn [mf_bl mf_data f']; rewrite length_app; cbn [length]; lia|by exists (mf_bl f)]|]. split; [|split; [done|done]].
  apply (dinv_new s _ f f' [b]); [done|done|done|done|cbn [mk_freeblock]; change FSSIZE with 1000; fold b; lia| |done|apply (di_pres _ _ Hi)].
  apply (frep_push (content (mk_img s)) _ f e' (mf_ind f) b); [done|done|lia| | | |done|].
  - cbn [e' ie_addrs ie_with_addrs]. rewrite Ea, take_snoc_lt by lia. rewrite insert_app_r_alt, Nat.sub_diag by lia. rewrite <-app_assoc. f_equal.
    replace (12 - length (mf_bl f))%nat with (S (12 - S (length (mf_bl f)))) by lia. done.
  - change (ie_indirect e') with (ie_indirect (mf_e f)). rewrite (fr_ind _ _ Hr). destruct (Nat.leb_spec (length (mf_bl f)) 12); [|lia]. destruct (Nat.leb_spec (S (length (mf_bl f))) 12); [done|lia].
  - lia.
  - cbn [mk_img]. unfold content. rewrite (di_zero _ _ Hi) by (change FSSIZE with 1000; fold b; lia). done.
Qed.

(** The new table [tab] with the block [b] in it. *)
Lemma frep_table s f rest ind b img' e' :
  dinv s (f :: rest) -> length (mf_data f) = (512 * length (mf_bl f))%nat -> (12 <= length (mf_bl f) < 140)%nat ->
  (forall x, x ∈ mf_bl f -> content img' x = content (mk_img s) x) -> content img' b = zeroes ->
  content img' ind = ints_bytes 4 (drop 12 (mf_bl f) ++ [b]) ++ zeros (512 - 4 * (length (mf_bl f) - 12) - 4) ->
  ie_addrs e' = ie_addrs (mf_e f) -> ie_indirect e' = ind -> frep (content img') (mkMF e' (mf_bl f ++ [b]) ind (mf_data f)).
Proof.
  intros Hi Hd Hl Hx Hb Ht Ea Ei. pose proof (di_rep _ _ Hi) as Hr. apply Forall_cons in Hr as [Hr _].
  apply (frep_push (content (mk_img s)) _ f e' ind b); [done|done|lia| | | |done|done].
  - rewrite Ea, (fr_addrs _ _ Hr), take_app_le by lia. f_equal. f_equal. lia.
  - by rewrite (proj2 (Nat.leb_gt _ _)) by lia.
  - intros _. rewrite Ht, drop_app_le by lia. f_equal. f_equal. lia.
Qed.

(** It gets an entry of the table. *)
Lemma wp_table_entry s din l n (Q : Z * InodeEntry -> mkstate -> Prop) : 0 <= ie_indirect din < 2 ^ 32 -> 0 <= mk_freeblock s < FSSIZE ->
  mk_img s !! ie_indirect din = Some (ints_bytes 4 l ++ zeros n) -> (4 <= n)%nat ->
  Q (mk_freeblock s, din) (mkMk (<[ie_indirect din := ints_bytes 4 (l ++ [mk_freeblock s]) ++ zeros (n - 4)]> (mk_img s)) (mk_freeinode s) (mk_freeblock s + 1)) ->
  wp (indirect ← rsect (xint (ie_indirect din));
      indirect ← (if read_le 4 (get_addrs (Z.of_nat (12 + length l) - INODE_NUM_DIRECT)) indirect =? 0 then
                  b ← next_block;
                  let indirect := splice (get_addrs (Z.of_nat (12 + length l) - INODE_NUM_DIRECT)) (le_bytes 4 (xint b)) indirect in
                  wsect (xint (ie_indirect din)) indirect;;
                  mret indirect
                else mret indirect);
      mret (xint (read_le 4 (get_addrs (Z.of_nat (12 + length l) - INODE_NUM_DIRECT)) indirect), din)) Q s.
Proof.
  intros Hd Hf Ht Hn HQ. unfold FSSIZE in Hf. rewrite xint_small by lia. apply wp_bind. eapply wp_rsect; [exact Ht|]. unfold get_addrs. change INODE_NUM_DIRECT with 12.
  replace (Z.to_nat ((Z.of_nat (12 + length l) - 12) * 4)) with (length l * 4)%nat by lia. rewrite table_end. cbn [Z.eqb]. apply wp_bind, wp_bind. apply wp_next_block; [exact Hf|]. cbv zeta.
  rewrite xint_small by lia. rewrite table_push by done. unfold wsect. wp_prims.
  rewrite ints_bytes_app, <-app_assoc. replace (length l * 4)%nat with (length (ints_bytes 4 l) + 0)%nat by (rewrite length_ints_bytes; lia). rewrite read_le_app_skip.
  change (ints_bytes 4 [mk_freeblock s]) with (le_bytes 4 (mk_freeblock s) ++ []). rewrite app_nil_r, read_le_app_here by apply length_le_bytes. rewrite le_val_bytes by (cbn; lia).
  rewrite xint_small by lia. rewrite app_assoc.
  rewrite ints_bytes_app in HQ. change (ints_bytes 4 [mk_freeblock s]) with (le_bytes 4 (mk_freeblock s) ++ []) in HQ. rewrite app_nil_r in HQ. exact HQ.
Qed.

Lemma content_insert img b x c : content (<[b := x]> img) c = if decide (c = b) then x else content img c.
Proof. unfold content. destruct (decide (c = b)) as [->|Hne]; [by rewrite lookup_insert_eq|by rewrite lookup_insert_ne]. Qed.
Lemma insert_pres (img : gmap Z (list Z)) i (x : list Z) : length x = 512%nat -> (forall b, 0 <= b < FSSIZE -> exists y, img !! b = Some y /\ length y = 512%nat) ->
  forall b, 0 <= b < FSSIZE -> exists y, <[i := x]> img !! b = Some y /\ length y = 512%nat.
Proof. intros Hx H b Hb. destruct (decide (b = i)) as [->|Hne]; [exists x; by rewrite lookup_insert_eq|rewrite lookup_insert_ne by done; by apply H]. Qed.

Lemma wp_block_table s f rest : dinv s (f :: rest) -> length (mf_data f) = (512 * length (mf_bl f))%nat -> (12 < length (mf_bl f) < 140)%nat -> mk_freeblock s + 1 <= FSSIZE ->
  wp (iappend_block (Z.of_nat (length (mf_bl f))) (mf_e f)) (got_block s f rest) s.
Proof.
  intros Hi Hd Hl Hc. pose proof (di_rep _ _ Hi) as Hr. apply Forall_cons in Hr as [Hr _]. pose proof (di_free _ _ Hi) as Hf. rewrite nmeta_pos in Hf. unfold FSSIZE in Hc.
  pose proof (fr_ind _ _ Hr) as Ei. rewrite (proj2 (Nat.leb_gt _ _)) in Ei by lia. pose proof (fr_tab _ _ Hr ltac:(lia)) as Et.
  assert (mf_table f = [mf_ind f]) as Etab by (unfold mf_table; by rewrite (proj2 (Nat.leb_gt _ _)) by lia).
  assert (nmeta <= mf_ind f < mk_freeblock s) as Hind by (apply (owned_range s f rest); [done|]; unfold mf_owned; rewrite Etab; apply elem_of_app; right; by left).
  assert (mf_ind f ∉ mf_bl f) as Hnin.
  { pose proof (di_nodup _ _ Hi) as Hnd. cbn [fmap list_fmap concat] in Hnd. apply NoDup_app in Hnd as (Hnd & _ & _). unfold mf_owned in Hnd. rewrite Etab in Hnd. apply NoDup_app in Hnd as (_ & Hnd & _).
    intros Hin. apply (Hnd _ Hin). by left. }
  rewrite nmeta_pos in Hind. destruct (di_pres _ _ Hi (mf_ind f)) as (tab & Htab & _); [change FSSIZE with 1000; lia|]. unfold content in Et. rewrite Htab in Et. cbn in Et. subst tab.
  unfold iappend_block. rewrite (proj2 (Z.ltb_ge _ INODE_NUM_DIRECT)) by (change INODE_NUM_DIRECT with 12; lia). apply wp_bind. rewrite Ei, xint_small by lia. rewrite (proj2 (Z.eqb_neq (mf_ind f) 0)) by lia. apply wp_ret.
  replace (length (mf_bl f)) with (12 + length (drop 12 (mf_bl f)))%nat by (rewrite length_drop; lia).
  eapply wp_table_entry; [rewrite Ei; lia|change FSSIZE with 1000; lia|rewrite Ei; exact Htab|lia|]. rewrite Ei. set (b := mk_freeblock s). set (f' := mkMF (mf_e f) (mf_bl f ++ [b]) (mf_ind f) (mf_data f)).
  assert (mf_owned f' ≡ₚ mf_owned f ++ [b]) as Ho.
  { unfold mf_owned. rewrite Etab. unfold mf_table. cbn [mf_bl mf_ind f']. rewrite length_app. cbn [length]. rewrite (proj2 (Nat.leb_gt _ _)) by lia. rewrite <-!app_assoc. apply Permutation_app_head. apply Permutation_app_comm. }
  exists f'. split; [done|]. split; [done|]. split; [split; [cbn [mf_bl mf_data f']; rewrite length_app; cbn [length]; lia|by exists (mf_bl f)]|]. split; [|split; [done|split; [done|]]].
  2: { intros c Hcn. rewrite nmeta_pos in Hcn. cbn [mk_img]. rewrite lookup_insert_ne by lia. done. }
  apply (dinv_new s _ f f' [b]); [done|done|done|done|cbn [mk_freeblock]; change FSSIZE with 1000; fold b; lia| | |].
  - apply (frep_table s f rest); [done|done|lia| | | |done|done]; cbn [mk_img].
    + intros x Hx. rewrite content_insert, decide_False; [done|]. by intros ->.
    + rewrite content_insert, decide_False by (unfold b; lia). unfold content. rewrite (di_zero _ _ Hi) by (change FSSIZE with 1000; unfold b; lia). done.
    + rewrite content_insert, decide_True by done. done.
  - intros c Hcn. cbn [mk_img]. rewrite lookup_insert_ne; [done|]. intros <-. apply Hcn. rewrite Ho. apply elem_of_app. left. unfold mf_owned. rewrite Etab. apply elem_of_app. right. by left.
  - cbn [mk_img]. apply insert_pres; [|apply (di_pres _ _ Hi)]. rewrite length_app, length_ints_bytes, length_app, length_drop, length_replicate. cbn [length]. lia.
Qed.

(** It gets a table and the first entry of it. *)
Lemma wp_block_first s f rest : dinv s (f :: rest) -> length (mf_data f) = (512 * length (mf_bl f))%nat -> length (mf_bl f) = 12%nat -> mk_freeblock s + 2 <= FSSIZE ->
  wp (iappend_block (Z.of_nat (length (mf_bl f))) (mf_e f)) (got_block s f rest) s.
Proof.
  intros Hi Hd Hl Hc. pose proof (di_rep _ _ Hi) as Hr. apply Forall_cons in Hr as [Hr _]. pose proof (di_free _ _ Hi) as Hf. rewrite nmeta_pos in Hf. unfold FSSIZE in Hc.
  pose proof (fr_ind _ _ Hr) as Ei. rewrite (proj2 (Nat.leb_le _ _)) in Ei by lia. assert (mf_table f = []) as Etab by (unfold mf_table; by rewrite (proj2 (Nat.leb_le _ _)) by lia).
  set (ind := mk_freeblock s). set (b := mk_freeblock s + 1). set (e' := ie_with_indirect ind (mf_e f)). set (f' := mkMF e' (mf_bl f ++ [b]) ind (mf_data f)).
  assert (forall x, x ∈ mf_bl f -> x <> ind /\ x <> b) as Hnin by (intros x Hx%owned_bl%(owned_range s f rest _ Hi); unfold ind, b; lia).
  unfold iappend_block. rewrite (proj2 (Z.ltb_ge _ INODE_NUM_DIRECT)) by (change INODE_NUM_DIRECT with 12; lia). apply wp_bind. rewrite Ei. change (xint 0 =? 0) with true. cbv iota. apply wp_bind.
  apply wp_next_block; [change FSSIZE with 1000; lia|]. apply wp_ret. fold ind. rewrite xint_small by (unfold ind; lia). fold e'. rewrite Hl. change (Z.of_nat 12) with (Z.of_nat (12 + length (@nil Z))).
  eapply (wp_table_entry _ e' [] 512); [cbn; unfold ind; lia|cbn [mk_freeblock]; change FSSIZE with 1000; unfold ind; lia| |lia|].
  { cbn [mk_img]. change (ie_indirect e') with ind. rewrite (di_zero _ _ Hi) by (change FSSIZE with 1000; unfold ind; lia). done. }
  cbn [mk_freeblock mk_img mk_freeinode]. change (ie_indirect e') with ind. change (ind + 1) with b.
  assert ([ind; b] ≡ₚ seqZ (mk_freeblock s) (Z.of_nat (length [ind; b]))) as Hseq by (replace b with (1 + ind) by (unfold b, ind; lia); done).
  assert (mf_owned f' ≡ₚ mf_owned f ++ [ind; b]) as Ho.
  { unfold mf_owned. rewrite Etab. unfold mf_table. cbn [mf_bl mf_ind f']. rewrite length_app. cbn [length]. rewrite (proj2 (Nat.leb_gt _ _)) by lia. rewrite app_nil_r, <-!app_assoc. apply Permutation_app_head. apply perm_swap. }
  exists f'. split; [done|]. split; [done|]. split; [split; [cbn [mf_bl mf_data f']; rewrite length_app; cbn [length]; lia|by exists (mf_bl f)]|]. split; [|split; [done|split; [done|]]].
  2: { intros c Hcn. rewrite nmeta_pos in Hcn. cbn [mk_img]. rewrite lookup_insert_ne by (unfold ind; lia). done. }
  apply (dinv_new s _ f f' [ind; b]); [done|done|exact Hseq|cbn [mk_freeblock length]; unfold b, ind; lia|cbn [mk_freeblock]; change FSSIZE with 1000; unfold b, ind; lia| | |].
  - apply (frep_table s f rest); [done|done|lia| | | |done|done]; cbn [mk_img].
    + intros x Hx. rewrite content_insert, decide_False; [done|]. by apply Hnin.
    + rewrite content_insert, decide_False by (unfold b, ind; lia). unfold content. rewrite (di_zero _ _ Hi) by (change FSSIZE with 1000; unfold b; lia). done.
    + rewrite content_insert, decide_True by done. rewrite drop_ge by lia. rewrite Hl. done.
  - intros c Hcn. cbn [mk_img]. rewrite lookup_insert_ne; [done|]. intros <-. apply Hcn. rewrite Ho. apply elem_of_app. right. by left.
  - cbn [mk_img]. apply insert_pres; [|apply (di_pres _ _ Hi)]. done.
Qed.

(** ** Appending *)

(** At rest a file has no block beyond its bytes. *)
Definition tight (f : mfile) : Prop := length (mf_bl f) = nblocks (length (mf_data f)).
Lemma nblocks_spec n : (n <= 512 * nblocks n < n + 512)%nat.
Proof. unfold nblocks. pose proof (Nat.div_mod (n + 511) 512 ltac:(lia)). pose proof (Nat.mod_upper_bound (n + 511) 512 ltac:(lia)). lia. Qed.
Lemma nblocks_mono n m : (n <= m)%nat -> (nblocks n <= nblocks m)%nat.
Proof. intros H. unfold nblocks. apply Nat.Div0.div_le_mono. lia. Qed.
Lemma ncost_mono k l : (k <= l)%nat -> (ncost k <= ncost l)%nat.
Proof. intros H. unfold ncost. destruct (Nat.leb_spec k 12), (Nat.leb_spec l 12); lia. Qed.
Lemma owned_cost f : length (mf_owned f) = ncost (length (mf_bl f)).
Proof. unfold mf_owned, mf_table, ncost. rewrite length_app. destruct (Nat.leb_spec (length (mf_bl f)) 12); cbn [length]; lia. Qed.

(** What the other files take. *)
Definition taken (fs : list mfile) : Z := Z.of_nat (length (concat (mf_owned <$> fs))).
Lemma dinv_freeblock s f rest : dinv s (f :: rest) -> mk_freeblock s = nmeta + Z.of_nat (ncost (length (mf_bl f))) + taken rest.
Proof. intros H. rewrite (di_free _ _ H). cbn [fmap list_fmap concat]. rewrite length_app, owned_cost. unfold taken. lia. Qed.

Lemma wp_block s f rest : dinv s (f :: rest) -> tight f -> (length (mf_data f) < 512 * 140)%nat ->
  nmeta + Z.of_nat (ncost (S (length (mf_data f) / 512))) + taken rest <= FSSIZE ->
  wp (iappend_block (Z.of_nat (length (mf_data f)) / BLOCK_SIZE) (mf_e f)) (got_block s f rest) s.
Proof.
  intros Hi Ht Hm Hc. pose proof (nblocks_spec (length (mf_data f))) as Hn. rewrite <-Ht in Hn. pose proof (dinv_freeblock _ _ _ Hi) as Hf.
  destruct (decide (length (mf_data f) < 512 * length (mf_bl f))%nat) as [Hlt|Hge]; [by apply wp_block_present|].
  assert (length (mf_data f) = (512 * length (mf_bl f))%nat) as Ed by lia.
  assert (length (mf_data f) / 512 = length (mf_bl f))%nat as Ek by (rewrite Ed, Nat.mul_comm; apply Nat.div_mul; lia). rewrite Ek in Hc.
  replace (Z.of_nat (length (mf_data f)) / BLOCK_SIZE) with (Z.of_nat (length (mf_bl f))) by (rewrite <-Ek, Nat2Z.inj_div; done).
  assert (mk_freeblock s + Z.of_nat (ncost (S (length (mf_bl f))) - ncost (length (mf_bl f))) <= FSSIZE) as Hc' by (pose proof (ncost_mono (length (mf_bl f)) (S (length (mf_bl f)))); lia).
  unfold ncost in Hc'. destruct (Nat.leb_spec (length (mf_bl f)) 12) as [H12|H12], (Nat.leb_spec (S (length (mf_bl f))) 12) as [H13|H13].
  - apply wp_block_direct; [done|done|lia|lia].
  - apply wp_block_first; [done|done|lia|lia].
  - lia.
  - apply wp_block_table; [done|done|lia|lia].
Qed.

Lemma nblocks_unique n k : (n <= 512 * k < n + 512)%nat -> nblocks n = k.
Proof. intros H. pose proof (nblocks_spec n). lia. Qed.

(** A piece of the bytes into the last block. *)
Lemma dinv_write s f rest x q full d1 : dinv s (f :: rest) -> mf_bl f = full ++ [x] -> mf_data f = concat (content (mk_img s) <$> full) ++ d1 ->
  content (mk_img s) x = d1 ++ zeros (512 - length d1) -> length (concat (content (mk_img s) <$> full)) = (512 * length full)%nat -> (length d1 + length q <= 512)%nat ->
  dinv (mkMk (<[x := (d1 ++ q) ++ zeros (512 - length (d1 ++ q))]> (mk_img s)) (mk_freeinode s) (mk_freeblock s)) (mkMF (mf_e f) (mf_bl f) (mf_ind f) (mf_data f ++ q) :: rest).
Proof.
  intros Hi Eb Ed Ex Hl Hq. pose proof (di_rep _ _ Hi) as Hr. apply Forall_cons in Hr as [Hr _]. pose proof (di_nodup _ _ Hi) as Hnd. cbn [fmap list_fmap concat] in Hnd. apply NoDup_app in Hnd as (Hnd & _ & _).
  apply (dinv_new s _ f _ []); [done|by rewrite app_nil_r|done|cbn; lia|apply (di_le _ _ Hi)| | |]; cbn [mk_img].
  - eapply (frep_write (content (mk_img s)) _ f full x d1 q); try done.
    + rewrite content_insert, decide_True by done. done.
    + intros b Hb. by rewrite content_insert, decide_False.
  - intros b Hb. rewrite lookup_insert_ne; [done|]. intros <-. apply Hb. apply owned_bl. cbn [mf_bl]. rewrite Eb. apply elem_of_app. right. by left.
  - apply insert_pres; [|apply (di_pres _ _ Hi)]. rewrite !length_app, length_replicate. lia.
Qed.

Definition appended (s : mkstate) (f : mfile) (rest : list mfile) (p : list Z) (r : Z * InodeEntry) (s' : mkstate) : Prop := exists f',
  mf_e f' = r.2 /\ mf_data f' = mf_data f ++ p /\ r.1 = Z.of_nat (length (mf_data f')) /\ tight f' /\ dinv s' (f' :: rest) /\ same_entry (mf_e f) r.2 /\ same_meta s s'.

Lemma wp_append_loop n p s f rest : dinv s (f :: rest) -> tight f -> (length p <= n)%nat -> (length (mf_data f) + length p <= 512 * 140)%nat ->
  nmeta + Z.of_nat (ncost (nblocks (length (mf_data f) + length p))) + taken rest <= FSSIZE ->
  wp (iappend_loop n p (Z.of_nat (length (mf_data f))) (mf_e f)) (appended s f rest p) s.
Proof.
  revert p s f. induction n as [|n IH]; intros p s f Hi Ht Hn Hm Hc; cbn [iappend_loop]; (destruct (decide (p = [])) as [->|Hp]; [apply wp_ret; exists f; rewrite app_nil_r; done|]).
  { destruct p; [done|cbn in Hn; lia]. }
  assert (0 < length p)%nat as Hp0 by (destruct p; [done|cbn; lia]). assert (Z.of_nat (length (mf_data f)) / BLOCK_SIZE = Z.of_nat (length (mf_data f) / 512)) as Efbn by (by rewrite Nat2Z.inj_div).
  assert (length (mf_data f) / 512 < 140)%nat as Hfbn by (apply Nat.Div0.div_lt_upper_bound; lia).
  cbv zeta. rewrite (proj2 (Z.ltb_lt _ INODE_MAX_BLOCKS)) by (rewrite Efbn; change INODE_MAX_BLOCKS with 140; lia). cbn [negb]. apply wp_bind.
  assert (S (length (mf_data f) / 512) <= nblocks (length (mf_data f) + length p))%nat as Hs.
  { pose proof (nblocks_spec (length (mf_data f) + length p)). pose proof (Nat.div_mod (length (mf_data f)) 512 ltac:(lia)). pose proof (Nat.mod_upper_bound (length (mf_data f)) 512 ltac:(lia)). lia. }
  eapply wp_mono; [apply (wp_block s f rest Hi Ht); [lia|pose proof (ncost_mono _ _ Hs); lia]|]. intros [x e'] s1 (f1 & E1 & Ed1 & [Hlt [full0 Eb0]] & Hi1 & He1 & Hm1). cbn [fst snd] in *.
  pose proof (di_rep _ _ Hi1) as Hr. apply Forall_cons in Hr as [Hr _]. destruct (frep_last _ _ Hr Hlt) as (full & y & d1 & Eb & Ed & Ex & Hl & Hd).
  rewrite Eb in Eb0. apply app_inj_2 in Eb0 as [<- [= ->]]; [|done]. assert (length (mf_data f) = 512 * length full + length d1)%nat as El by (rewrite <-Ed1, Ed, length_app; lia).
  assert (length (mf_data f) / 512 = length full)%nat as Ek by (rewrite El; symmetry; apply (Nat.div_unique _ _ _ (length d1)); lia).
  rewrite Efbn, Ek. change BLOCK_SIZE with 512. set (q := take (Z.to_nat (Z.min (Z.of_nat (length p)) ((Z.of_nat (length full) + 1) * 512 - Z.of_nat (length (mf_data f))))) p).
  assert (length q = Nat.min (length p) (512 - length d1)) as Hq by (unfold q; rewrite length_take; lia).
  assert (p = q ++ drop (Z.to_nat (Z.min (Z.of_nat (length p)) ((Z.of_nat (length full) + 1) * 512 - Z.of_nat (length (mf_data f))))) p) as Epq by (unfold q; by rewrite take_drop). set (p' := drop _ p) in *.
  assert (mk_img s1 !! x = Some (content (mk_img s1) x)) as Hx.
  { destruct (di_pres _ _ Hi1 x) as (w & Hw & _); [|unfold content; by rewrite Hw]. assert (nmeta <= x < mk_freeblock s1) as Hxr by (apply (owned_range s1 f1 rest x Hi1), owned_bl; rewrite Eb; apply elem_of_app; right; by left).
    pose proof (di_le _ _ Hi1). rewrite nmeta_pos in Hxr. lia. }
  apply wp_bind. eapply wp_rsect; [exact Hx|]. rewrite Ex. replace (Z.to_nat (Z.of_nat (length (mf_data f)) - Z.of_nat (length full) * 512)) with (length d1) by lia.
  rewrite splice_zeros by lia. apply wp_bind. unfold wsect. apply wp_modify. replace (512 - length d1 - length q)%nat with (512 - length (d1 ++ q))%nat by (rewrite length_app; lia).
  pose proof (dinv_write s1 f1 rest x q full d1 Hi1 Eb Ed Ex Hl ltac:(lia)) as Hi2. set (f2 := mkMF (mf_e f1) (mf_bl f1) (mf_ind f1) (mf_data f1 ++ q)) in *. set (s2 := mkMk _ _ _) in *.
  assert (length (mf_data f2) = length (mf_data f) + length q)%nat as El2 by (unfold f2; cbn [mf_data]; rewrite length_app, Ed1; lia).
  replace (Z.of_nat (length (mf_data f)) + Z.min (Z.of_nat (length p)) ((Z.of_nat (length full) + 1) * 512 - Z.of_nat (length (mf_data f)))) with (Z.of_nat (length (mf_data f2))) by lia.
  assert (length p = length q + length p')%nat as Elp by (rewrite Epq at 1; by rewrite length_app). rewrite <-E1. change (mf_e f1) with (mf_e f2).
  eapply wp_mono; [apply (IH p' s2 f2 Hi2)|].
  - unfold tight. symmetry. apply nblocks_unique. change (mf_bl f2) with (mf_bl f1). rewrite Eb, El2, length_app. cbn [length]. lia.
  - lia.
  - lia.
  - rewrite El2. replace (length (mf_data f) + length q + length p')%nat with (length (mf_data f) + length p)%nat by lia. exact Hc.
  - intros [off e2] s' (f' & A1 & A2 & A3 & A4 & A5 & A6 & A7). exists f'. split; [done|]. split; [rewrite A2; unfold f2; cbn [mf_data]; rewrite Ed1, <-app_assoc, <-Epq; done|]. split; [done|]. split; [done|]. split; [done|].
    split; [eapply same_entry_trans; [exact He1|]; rewrite <-E1; exact A6|]. eapply same_meta_trans; [exact Hm1|]. eapply same_meta_trans; [|exact A7]. split; [done|].
    intros b Hb. unfold s2. cbn [mk_img]. rewrite lookup_insert_ne; [done|]. intros <-. assert (nmeta <= x < mk_freeblock s1) by (apply (owned_range s1 f1 rest x Hi1), owned_bl; rewrite Eb; apply elem_of_app; right; by left). lia.
Qed.
