(* ===== verification/MkfsInv.v ===== *)
(** * The image with its inodes *)

From Stdlib Require Import ZArith Lia.
From stdpp Require Import base tactics numbers gmap list.
From S2P Require Import Prelude FsDefs Inode Mkfs MkfsProofs.

Local Open Scope Z_scope.

#[global] Instance owned_perm : Proper ((≡ₚ) ==> (≡ₚ)) (fun fs => concat (mf_owned <$> fs)).
Proof.
  intros es es' H. induction H as [|e es es' _ IH|e e' es|es1 es2 es3 _ IH1 _ IH2]; cbn [fmap list_fmap concat] in *.
  - done.
  - by rewrite IH.
  - rewrite !app_assoc. apply Permutation_app_tail. apply Permutation_app_comm.
  - by rewrite IH1.
Qed.
Lemma dinv_perm s fs fs' : fs ≡ₚ fs' -> dinv s fs -> dinv s fs'.
Proof.
  intros E [H1 H2 H3 H4 H5 H6 H7]. pose proof (owned_perm _ _ E) as Ep. cbn beta in Ep. constructor; try done.
  - by rewrite <-E.
  - by rewrite <-Ep.
  - by rewrite <-Ep.
  - rewrite H5. by rewrite (Permutation_length Ep).
Qed.
(** Blocks below the data do not matter to the files. *)
Lemma dinv_meta s s' fs : dinv s fs -> mk_freeblock s' = mk_freeblock s -> (forall b, nmeta <= b -> mk_img s' !! b = mk_img s !! b) ->
  (forall b, 0 <= b < FSSIZE -> exists x, mk_img s' !! b = Some x /\ length x = 512%nat) -> dinv s' fs.
Proof.
  intros [H1 H2 H3 H4 H5 H6 H7] Hf Hb Hp. assert (forall b, b ∈ concat (mf_owned <$> fs) -> content (mk_img s') b = content (mk_img s) b) as Hc.
  { intros b Hin. rewrite Forall_forall in H4. unfold content. rewrite Hb; [done|]. apply H4 in Hin. lia. }
  constructor; rewrite ?Hf; try done.
  - rewrite Forall_forall in *. intros f Hin. apply (frep_ext (content (mk_img s))); [|by apply H2]. intros b Hb'. apply Hc. clear -Hin Hb'.
    induction fs as [|g fs IH]; [by apply not_elem_of_nil in Hin|]. cbn [fmap list_fmap concat]. apply elem_of_app. apply elem_of_cons in Hin as [->|Hin]; [by left|right; auto].
  - intros b Hr. rewrite Hb; [by apply H7|]. rewrite H5 in Hr. lia.
Qed.

(** ** The inode area *)

(** The file is the [j]-th, with inode number [j + 1]. *)
Definition ino (j : nat) : Z := Z.of_nat j + 1.
Definition on_disk (img : gmap Z (list Z)) (j : nat) (e : InodeEntry) : Prop := take 64 (drop (get_entry (ino j)) (content img (IBLOCK (ino j)))) = entry_bytes e.

Record finv (s : mkstate) (fs : list mfile) : Prop := mkFinv {
  fi_d : dinv s fs;
  fi_tight : Forall tight fs;
  fi_no : mk_freeinode s = Z.of_nat (length fs) + 1;
  fi_max : (length fs <= 207)%nat;
  fi_entry : Forall (fun f => entry_ok (mf_e f) /\ ie_num_bytes (mf_e f) = Z.of_nat (length (mf_data f))) fs;
  fi_area : forall j f, fs !! j = Some f -> on_disk (mk_img s) j (mf_e f);
  fi_super : mk_img s !! 1 = Some (splice 0 (sb_bytes sb) zeroes);
  fi_log : forall b, b = 0 \/ 2 <= b < sb_inode_start sb -> mk_img s !! b = Some zeroes }.

Lemma iblock_range j : (j < 207)%nat -> sb_inode_start sb <= IBLOCK (ino j) < sb_bitmap_start sb.
Proof.
  intros Hj. unfold IBLOCK, ino. change (sb_inode_start sb) with 65. change (sb_bitmap_start sb) with 91. change INODE_PER_BLOCK with 8.
  pose proof (Z.div_pos (Z.of_nat j + 1) 8 ltac:(lia) ltac:(lia)). assert ((Z.of_nat j + 1) / 8 < 26) by (apply Z.div_lt_upper_bound; lia). lia.
Qed.
Lemma get_entry_le j : (get_entry (ino j) + 64 <= 512)%nat.
Proof. unfold get_entry. change INODE_PER_BLOCK with 8. pose proof (Z.mod_pos_bound (ino j) 8 ltac:(lia)). lia. Qed.
(** Distinct inodes have distinct places. *)
Lemma places_disjoint j k : j <> k -> IBLOCK (ino j) = IBLOCK (ino k) -> (get_entry (ino j) + 64 <= get_entry (ino k) \/ get_entry (ino k) + 64 <= get_entry (ino j))%nat.
Proof.
  intros Hne E. unfold IBLOCK in E. unfold get_entry. change INODE_PER_BLOCK with 8 in *. pose proof (Z.div_mod (ino j) 8 ltac:(lia)). pose proof (Z.div_mod (ino k) 8 ltac:(lia)).
  pose proof (Z.mod_pos_bound (ino j) 8 ltac:(lia)). pose proof (Z.mod_pos_bound (ino k) 8 ltac:(lia)). unfold ino in *. lia.
Qed.
Lemma take_drop_splice_ne {A} n off off' (bs buf : list A) : (off + length bs <= length buf)%nat -> (off' + n <= off \/ off + length bs <= off')%nat ->
  take n (drop off' (splice off bs buf)) = take n (drop off' buf).
Proof.
  intros H Hd. apply list_eq. intros i. destruct (decide (i < n)%nat).
  - rewrite !lookup_take_lt, !lookup_drop by done. apply lookup_splice_old; [done|]. lia.
  - by rewrite !lookup_take_ge by lia.
Qed.

(** [winode] of a file whose entry has changed. *)
Lemma wp_winode s j e (Q : unit -> mkstate -> Prop) : (j < 207)%nat -> (forall b, 0 <= b < FSSIZE -> exists x, mk_img s !! b = Some x /\ length x = 512%nat) ->
  length (ie_addrs e) = Z.to_nat INODE_NUM_DIRECT ->
  (forall img', on_disk img' j e -> (forall k e', k <> j -> on_disk (mk_img s) k e' -> on_disk img' k e') -> (forall b, b <> IBLOCK (ino j) -> img' !! b = mk_img s !! b) ->
     (forall b, 0 <= b < FSSIZE -> exists x, img' !! b = Some x /\ length x = 512%nat) -> Q tt (mkMk img' (mk_freeinode s) (mk_freeblock s))) ->
  wp (winode (ino j) e) Q s.
Proof.
  intros Hj Hp Hl HQ. pose proof (iblock_range j Hj) as Hr. change (sb_inode_start sb) with 65 in Hr. change (sb_bitmap_start sb) with 91 in Hr.
  destruct (Hp (IBLOCK (ino j))) as (x & Hx & Hlx); [change FSSIZE with 1000; lia|]. pose proof (get_entry_le j) as Hg. pose proof (length_entry_bytes e Hl) as Hle.
  unfold winode. apply wp_bind. eapply wp_rsect; [exact Hx|]. unfold wsect. apply wp_modify. apply HQ.
  - unfold on_disk. rewrite content_insert, decide_True by done. rewrite <-Hle at 1. apply take_drop_splice. lia.
  - intros k e' Hk Hd. unfold on_disk in *. rewrite content_insert. destruct (decide (IBLOCK (ino k) = IBLOCK (ino j))) as [E|]; [|done].
    rewrite take_drop_splice_ne; [|lia|]. { rewrite <-Hd, E. unfold content. by rewrite Hx. } rewrite Hle. destruct (places_disjoint k j Hk E); lia.
  - intros b Hb. by rewrite lookup_insert_ne.
  - apply insert_pres; [|done]. rewrite length_splice by lia. done.
Qed.

Lemma wp_rinode s fs j f (Q : InodeEntry -> mkstate -> Prop) : finv s fs -> fs !! j = Some f -> Q (mf_e f) s -> wp (rinode (ino j)) Q s.
Proof.
  intros Hi Hf HQ. pose proof (fi_max _ _ Hi) as Hm. pose proof (lookup_lt_Some _ _ _ Hf) as Hj. pose proof (iblock_range j ltac:(lia)) as Hr. change (sb_inode_start sb) with 65 in Hr. change (sb_bitmap_start sb) with 91 in Hr.
  destruct (di_pres _ _ (fi_d _ _ Hi) (IBLOCK (ino j))) as (x & Hx & _); [change FSSIZE with 1000; lia|]. unfold rinode. apply wp_bind. eapply wp_rsect; [exact Hx|]. apply wp_ret.
  pose proof (fi_area _ _ Hi j f Hf) as Ha. unfold on_disk, content in Ha. rewrite Hx in Ha. change (default [] (Some x)) with x in Ha. rewrite Ha.
  pose proof (fi_entry _ _ Hi) as He. rewrite Forall_lookup in He. destruct (He j f Hf) as [He1 _]. rewrite <-(app_nil_r (entry_bytes (mf_e f))), (entry_roundtrip _ _ He1). exact HQ.
Qed.

(** The entry of a file of the image is in range. *)
Lemma entry_ok_file s f rest e' : dinv s (f :: rest) -> entry_ok e' -> same_entry e' (mf_e f) -> forall n, 0 <= n < 2 ^ 32 -> entry_ok (ie_with_num_bytes n (mf_e f)).
Proof.
  intros Hi [] (S1 & S2 & S3 & S4 & S5) n Hn. pose proof (di_rep _ _ Hi) as Hr. apply Forall_cons in Hr as [Hr _]. pose proof (di_le _ _ Hi) as Hle. change FSSIZE with 1000 in Hle.
  assert (forall b, b ∈ mf_owned f -> 0 <= b < 2 ^ 32) as Hrange by (intros b Hb%(owned_range s f rest b Hi); rewrite nmeta_pos in Hb; lia).
  constructor; cbn [ie_type ie_major ie_minor ie_num_links ie_num_bytes ie_addrs ie_indirect ie_with_num_bytes]; try (rewrite ?S1, ?S2, ?S3, ?S4; done).
  - rewrite (fr_addrs _ _ Hr). apply Forall_app. split; [|apply Forall_replicate; lia]. rewrite Forall_forall. intros b Hb. apply Hrange, owned_bl. rewrite <-(take_drop 12 (mf_bl f)). apply elem_of_app. by left.
  - rewrite (fr_addrs _ _ Hr), length_app, length_take, length_replicate. change (Z.to_nat INODE_NUM_DIRECT) with 12%nat. lia.
  - rewrite (fr_ind _ _ Hr). destruct (Nat.leb_spec (length (mf_bl f)) 12) as [|H12]; [lia|]. apply Hrange. apply elem_of_app. right. unfold mf_table. rewrite (proj2 (Nat.leb_gt _ _)) by done. by left.
Qed.

(** ** Room for files of given sizes *)

Definition size_cost (n : nat) : nat := ncost (nblocks n).
Definition sizes_cost (ns : list nat) : Z := Z.of_nat (sum_list_with size_cost ns).
Definition sizes (fs : list mfile) : list nat := (fun f => length (mf_data f)) <$> fs.
Lemma sizes_cost_cons n ns : sizes_cost (n :: ns) = Z.of_nat (size_cost n) + sizes_cost ns.
Proof. unfold sizes_cost. cbn. lia. Qed.
Lemma sizes_cost_app ns ms : sizes_cost (ns ++ ms) = sizes_cost ns + sizes_cost ms.
Proof. unfold sizes_cost. rewrite sum_list_with_app. lia. Qed.
Lemma taken_sizes fs : Forall tight fs -> taken fs = sizes_cost (sizes fs).
Proof.
  induction 1 as [|f fs Hf _ IH]; [done|]. unfold sizes. rewrite fmap_cons, sizes_cost_cons. change ((fun f => length (mf_data f)) <$> fs) with (sizes fs). rewrite <-IH.
  unfold taken, size_cost. cbn [fmap list_fmap concat]. rewrite length_app, owned_cost, Hf. lia.
Qed.

(** The entry of a file is written after its blocks. *)
Lemma finv_winode s s1 l1 f l2 f2 img' : finv s (l1 ++ f :: l2) -> dinv s1 (f2 :: l1 ++ l2) -> tight f2 -> entry_ok (mf_e f2) -> ie_num_bytes (mf_e f2) = Z.of_nat (length (mf_data f2)) -> same_meta s s1 ->
  on_disk img' (length l1) (mf_e f2) -> (forall k e', k <> length l1 -> on_disk (mk_img s1) k e' -> on_disk img' k e') -> (forall b, b <> IBLOCK (ino (length l1)) -> img' !! b = mk_img s1 !! b) ->
  (forall b, 0 <= b < FSSIZE -> exists x, img' !! b = Some x /\ length x = 512%nat) -> finv (mkMk img' (mk_freeinode s1) (mk_freeblock s1)) (l1 ++ f2 :: l2).
Proof.
  intros Hi Hd2 Ht2 Hok2 Hnb2 [Hsm1 Hsm2] Hon Hoth Hout Hpres. pose proof (fi_max _ _ Hi) as Hmax. rewrite length_app in Hmax. cbn [length] in Hmax.
  pose proof (iblock_range (length l1) ltac:(lia)) as Hib. change (sb_inode_start sb) with 65 in Hib. change (sb_bitmap_start sb) with 91 in Hib.
  pose proof (fi_tight _ _ Hi) as Ht. apply Forall_app in Ht as [Ht1 [_ Ht3]%Forall_cons].
  constructor; cbn [mk_freeinode mk_img].
  - apply (dinv_meta s1); [|done| |done]. 2: { intros b Hb. apply Hout. rewrite nmeta_pos in Hb. lia. }
    apply (dinv_perm _ (f2 :: l1 ++ l2)); [by rewrite Permutation_middle|done].
  - apply Forall_app. split; [done|]. apply Forall_cons. split; [exact Ht2|done].
  - rewrite Hsm1, (fi_no _ _ Hi), !length_app. done.
  - rewrite length_app. cbn [length]. lia.
  - pose proof (fi_entry _ _ Hi) as Hes. apply Forall_app in Hes as [Hes1 [_ Hes2]%Forall_cons]. apply Forall_app. split; [done|]. apply Forall_cons. by split.
  - intros k g Hg. destruct (decide (k = length l1)) as [->|Hk]; [rewrite list_lookup_middle in Hg by done; injection Hg as <-; exact Hon|].
    apply Hoth; [done|]. unfold on_disk, content. assert ((l1 ++ f :: l2) !! k = Some g) as Hg'.
    { rewrite <-Hg. rewrite !lookup_app. destruct (l1 !! k) eqn:E; [done|]. apply lookup_ge_None in E. destruct (k - length l1)%nat eqn:Ek; [lia|done]. }
    assert (k < 207)%nat as Hk207 by (apply lookup_lt_Some in Hg'; rewrite length_app in Hg'; cbn [length] in Hg'; lia). pose proof (iblock_range k Hk207) as Hib'. change (sb_bitmap_start sb) with 91 in Hib'.
    rewrite Hsm2 by (rewrite nmeta_pos; lia). by apply (fi_area _ _ Hi).
  - rewrite Hout by lia. rewrite Hsm2 by (rewrite nmeta_pos; lia). apply (fi_super _ _ Hi).
  - intros b Hb. change (sb_inode_start sb) with 65 in Hb. rewrite Hout by lia. rewrite Hsm2 by (rewrite nmeta_pos; lia). by apply (fi_log _ _ Hi).
Qed.

(** ** [iappend] *)

Definition same_kind (e e' : InodeEntry) : Prop := ie_type e' = ie_type e /\ ie_major e' = ie_major e /\ ie_minor e' = ie_minor e /\ ie_num_links e' = ie_num_links e.
Definition grown (fs : list mfile) (j : nat) (f : mfile) (p : list Z) (s' : mkstate) : Prop := exists f',
  finv s' (<[j := f']> fs) /\ mf_data f' = mf_data f ++ p /\ same_kind (mf_e f) (mf_e f').

Lemma wp_iappend s fs j f p : finv s fs -> fs !! j = Some f -> (length (mf_data f) + length p <= 512 * 140)%nat ->
  nmeta + sizes_cost (<[j := (length (mf_data f) + length p)%nat]> (sizes fs)) <= FSSIZE -> wp (iappend (ino j) p) (fun _ s' => grown fs j f p s') s.
Proof.
  intros Hi Hf Hm Hc. pose proof (fi_max _ _ Hi) as Hmax. pose proof (lookup_lt_Some _ _ _ Hf) as Hj. unfold iappend. apply wp_bind. eapply wp_rinode; [done|done|].
  pose proof (fi_entry _ _ Hi) as He. rewrite Forall_lookup in He. destruct (He j f Hf) as [Hok Hnb]. apply list_elem_of_split_length in Hf as (l1 & l2 & -> & ->).
  assert (forall f', <[length l1 := f']> (l1 ++ f :: l2) = l1 ++ f' :: l2) as Eins by (intros f'; rewrite insert_app_r_alt, Nat.sub_diag by lia; done).
  assert (<[length l1 := (length (mf_data f) + length p)%nat]> (sizes (l1 ++ f :: l2)) = sizes l1 ++ (length (mf_data f) + length p)%nat :: sizes l2) as Es.
  { unfold sizes. rewrite fmap_app, fmap_cons, insert_app_r_alt by (rewrite length_fmap; lia). rewrite length_fmap, Nat.sub_diag. done. }
  rewrite Es, sizes_cost_app, sizes_cost_cons in Hc. pose proof (fi_tight _ _ Hi) as Ht. apply Forall_app in Ht as [Ht1 [Ht Ht2]%Forall_cons].
  assert (dinv s (f :: l1 ++ l2)) as Hd by (apply (dinv_perm s (l1 ++ f :: l2)); [by rewrite Permutation_middle|apply (fi_d _ _ Hi)]).
  rewrite Hnb, xint_small by lia. apply wp_bind. eapply wp_mono; [apply (wp_append_loop (length p) p s f (l1 ++ l2)); [done|done|lia|done|]|].
  { rewrite taken_sizes by (by apply Forall_app). unfold sizes. rewrite fmap_app. change ((fun f => length (mf_data f)) <$> l1) with (sizes l1). change ((fun f => length (mf_data f)) <$> l2) with (sizes l2).
    rewrite sizes_cost_app. unfold size_cost in Hc. lia. }
  intros [off e'] s1 (f1 & Ee & Ed & Eo & Ht1' & Hd1 & Hse & Hsm1 & Hsm2). cbn [fst snd] in *. subst off e'. rewrite Ed, length_app, xint_small by lia. rewrite length_app in Hj. cbn [length] in Hj. rewrite length_app in Hmax. cbn [length] in Hmax.
  set (n := Z.of_nat (length (mf_data f) + length p)). set (f2 := mkMF (ie_with_num_bytes n (mf_e f1)) (mf_bl f1) (mf_ind f1) (mf_data f1)).
  assert (entry_ok (mf_e f2)) as Hok2 by (apply (entry_ok_file s1 f1 (l1 ++ l2) (mf_e f)); [done|done|done|unfold n; lia]).
  apply wp_winode; [lia|apply (di_pres _ _ Hd1)|apply (eo_len _ Hok2)|]. intros img' Hon Hoth Hout Hpres. exists f2. split; [|split; [done|]].
  2: { destruct Hse as (A1 & A2 & A3 & A4 & _). done. }
  rewrite Eins.
  assert (dinv s1 (f2 :: l1 ++ l2)) as Hd2.
  { apply (dinv_new s1 s1 f1 f2 []); [done|by rewrite app_nil_r|done|cbn; lia|apply (di_le _ _ Hd1)| |done|apply (di_pres _ _ Hd1)].
    pose proof (di_rep _ _ Hd1) as Hr. apply Forall_cons in Hr as [[R1 R2 R3 R4 R5 R6 R7] _]. by constructor. }
  apply (finv_winode s s1 l1 f l2 f2); try done. cbn [f2 mf_e mf_data ie_num_bytes ie_with_num_bytes]. unfold n. by rewrite Ed, length_app.
Qed.

(** ** [ialloc] *)

Definition new_file (type : Z) : mfile := mkMF (mkEntry type 0 0 1 0 (replicate 12 0) 0) [] 0 [].
Lemma wp_ialloc s fs type (Q : Z -> mkstate -> Prop) : finv s fs -> (length fs < 207)%nat -> 0 <= type < 2 ^ 16 ->
  (forall s', finv s' (fs ++ [new_file type]) -> Q (ino (length fs)) s') -> wp (ialloc type) Q s.
Proof.
  intros Hi Hl Ht HQ. unfold ialloc. apply wp_bind, wp_gets. apply wp_bind, wp_modify. rewrite (fi_no _ _ Hi). fold (ino (length fs)). unfold xshort. rewrite !le_val_bytes by (cbn; lia).
  change (xint 0) with 0. rewrite u32_small by (unfold ino; lia). apply wp_bind. pose proof (fi_d _ _ Hi) as Hd. apply wp_winode; [done|apply (di_pres _ _ Hd)|done|]. cbn [mk_img mk_freeinode mk_freeblock].
  intros img' Hon Hoth Hout Hpres. apply wp_ret, HQ. pose proof (iblock_range (length fs) Hl) as Hib. change (sb_inode_start sb) with 65 in Hib. change (sb_bitmap_start sb) with 91 in Hib.
  assert (concat (mf_owned <$> (fs ++ [new_file type])) = concat (mf_owned <$> fs)) as Eo by (rewrite fmap_app, concat_app; apply app_nil_r).
  constructor; cbn [mk_freeinode mk_img].
  - apply (dinv_meta (mkMk (mk_img s) (mk_freeinode s) (mk_freeblock s))); [|done| |done]. 2: { intros b Hb. apply Hout. rewrite nmeta_pos in Hb. lia. }
    destruct Hd as [D1 D2 D3 D4 D5 D6 D7]. constructor; rewrite ?Eo; try done. apply Forall_app. split; [done|]. apply Forall_singleton. constructor; cbn; try done; try lia.
  - apply Forall_app. split; [apply (fi_tight _ _ Hi)|]. by apply Forall_singleton.
  - rewrite length_app. cbn [length]. unfold ino. lia.
  - rewrite length_app. cbn [length]. lia.
  - apply Forall_app. split; [apply (fi_entry _ _ Hi)|]. apply Forall_singleton. split; [|done]. constructor; cbn; try lia; try done. repeat (constructor; [lia|]). constructor.
  - intros k g Hg. destruct (decide (k = length fs)) as [->|Hk]; [rewrite list_lookup_middle in Hg by done; injection Hg as <-; exact Hon|].
    assert (fs !! k = Some g) as Hg'. { rewrite lookup_app in Hg. destruct (fs !! k) eqn:E; [done|]. apply lookup_ge_None in E. destruct (k - length fs)%nat eqn:Ek; [lia|done]. }
    apply Hoth; [done|]. by apply (fi_area _ _ Hi).
  - rewrite Hout by lia. apply (fi_super _ _ Hi).
  - intros b Hb. change (sb_inode_start sb) with 65 in Hb. rewrite Hout by lia. by apply (fi_log _ _ Hi).
Qed.

(** ** The pieces of a file *)

Lemma size_cost_mono n m : (n <= m)%nat -> (size_cost n <= size_cost m)%nat.
Proof. intros H. by apply ncost_mono, nblocks_mono. Qed.
Lemma sizes_cost_insert ns j n m : (n <= m)%nat -> sizes_cost (<[j := n]> ns) <= sizes_cost (<[j := m]> ns).
Proof.
  intros H. revert j. induction ns as [|k ns IH]; intros j; [done|]. destruct j as [|j].
  - change (<[0%nat:=n]> (k :: ns)) with (n :: ns). change (<[0%nat:=m]> (k :: ns)) with (m :: ns). rewrite !sizes_cost_cons. pose proof (size_cost_mono _ _ H). lia.
  - specialize (IH j). change (<[S j:=n]> (k :: ns)) with (k :: <[j:=n]> ns). change (<[S j:=m]> (k :: ns)) with (k :: <[j:=m]> ns). rewrite !sizes_cost_cons. lia.
Qed.

Lemma wp_pieces ps s fs j f : finv s fs -> fs !! j = Some f -> (length (mf_data f) + length (concat ps) <= 512 * 140)%nat ->
  nmeta + sizes_cost (<[j := (length (mf_data f) + length (concat ps))%nat]> (sizes fs)) <= FSSIZE -> wp (for_each ps (iappend (ino j))) (fun _ s' => grown fs j f (concat ps) s') s.
Proof.
  revert s fs f. induction ps as [|p ps IH]; intros s fs f Hi Hf Hm Hc; cbn [for_each concat] in *.
  - apply wp_ret. exists f. rewrite list_insert_id, app_nil_r by done. done.
  - rewrite length_app in *. apply wp_bind. eapply wp_mono; [apply (wp_iappend s fs j f p); [done|done|lia|]|].
    { etrans; [|exact Hc]. apply Z.add_le_mono_l, sizes_cost_insert. lia. }
    intros [] s1 (f1 & Hi1 & Ed1 & Hk1). pose proof (lookup_lt_Some _ _ _ Hf) as Hj.
    assert (sizes (<[j := f1]> fs) = <[j := length (mf_data f1)]> (sizes fs)) as Es by (unfold sizes; by rewrite list_fmap_insert).
    eapply wp_mono; [apply (IH s1 (<[j := f1]> fs) f1); [done|by rewrite list_lookup_insert_eq|rewrite Ed1, length_app; lia|]|].
    { rewrite Es, list_insert_insert_eq, Ed1, length_app, <-Nat.add_assoc. done. }
    intros [] s2 (f2 & Hi2 & Ed2 & Hk2). exists f2. rewrite list_insert_insert_eq in Hi2. split; [done|]. split; [by rewrite Ed2, Ed1, app_assoc|]. unfold same_kind in *. intuition congruence.
Qed.
