(* ===== verification/MkfsProps.v ===== *)
(** * The image that [mkfs] builds *)

From Stdlib Require Import ZArith Lia.
From stdpp Require Import base tactics numbers gmap list.
From S2P Require Import Prelude FsDefs Inode InodeProofs CacheBitmap Mkfs MkfsProofs MkfsInv.

Local Open Scope Z_scope.

(** ** The files as the kernel reads them *)

Lemma table_beyond l n i : (length l <= i)%nat -> read_le 4 (i * 4) (ints_bytes 4 l ++ zeros n) = 0.
Proof.
  intros H. unfold read_le. rewrite drop_app_ge by (rewrite length_ints_bytes; lia). by rewrite drop_replicate, take_replicate, le_val_zeros.
Qed.
Lemma frep_blk C f n : frep C f -> Forall (fun b => 0 < b < 2 ^ 32) (mf_owned f) -> 0 <= n < INODE_MAX_BLOCKS -> blk_at (mf_e f) C n = default 0 (mf_bl f !! Z.to_nat n).
Proof.
  intros Hr Ho Hn. unfold blk_at. change INODE_NUM_DIRECT with 12. change INODE_MAX_BLOCKS with 140 in Hn. destruct (Z.ltb_spec n 12) as [H12|H12]; [apply (addrs_lookup _ _ _ Hr); lia|].
  rewrite (fr_ind _ _ Hr). destruct (Nat.leb_spec (length (mf_bl f)) 12) as [Hl|Hl].
  - cbn [Z.eqb]. by rewrite (proj2 (lookup_ge_None (mf_bl f) (Z.to_nat n))) by lia.
  - unfold mf_owned, mf_table in Ho. rewrite (proj2 (Nat.leb_gt _ _)) in Ho by done. apply Forall_app in Ho as [Hb [Hi _]%Forall_cons]. rewrite (proj2 (Z.eqb_neq (mf_ind f) 0)) by lia. rewrite (fr_tab _ _ Hr Hl).
    unfold get_addrs. replace (Z.to_nat ((n - 12) * 4)) with ((Z.to_nat n - 12) * 4)%nat by lia. destruct (mf_bl f !! Z.to_nat n) as [x|] eqn:Ex.
    + apply ints_lookup; [|by rewrite lookup_drop; replace (12 + (Z.to_nat n - 12))%nat with (Z.to_nat n) by lia]. rewrite <-(take_drop 12 (mf_bl f)) in Hb. apply Forall_app in Hb as [_ Hb].
      eapply Forall_impl; [exact Hb|]. cbn beta. intros b Hb'. lia.
    + apply table_beyond. apply lookup_ge_None in Ex. rewrite length_drop. lia.
Qed.
Lemma concat_lookup (C : Z -> list Z) bl j : Forall (fun b => length (C b) = 512%nat) bl -> (j < 512 * length bl)%nat -> concat (C <$> bl) !! j = C (default 0 (bl !! (j / 512)%nat)) !! (j mod 512)%nat.
Proof.
  intros H. revert j. induction H as [|b bl Hb _ IH]; intros j Hj; [cbn in Hj; lia|]. cbn [fmap list_fmap concat length] in *. destruct (decide (j < 512)%nat) as [Hlt|Hge].
  - rewrite lookup_app_l, Nat.div_small, Nat.mod_small by lia. done.
  - rewrite lookup_app_r by lia. rewrite Hb, IH by lia. replace j with ((j - 512) + 1 * 512)%nat at 3 4 by lia. rewrite Nat.div_add, Nat.Div0.mod_add by lia. by rewrite Nat.add_1_r.
Qed.
Lemma frep_bytes C f : frep C f -> Forall (fun b => 0 < b < 2 ^ 32) (mf_owned f) -> ie_num_bytes (mf_e f) = Z.of_nat (length (mf_data f)) ->
  file_bytes (mf_e f) C = mf_data f /\ no_holes (mf_e f) C.
Proof.
  intros Hr Ho Hn. pose proof (fr_size _ _ Hr) as Hs. pose proof (fr_max _ _ Hr) as Hm.
  assert (forall j, (j < length (mf_data f))%nat -> blk_at (mf_e f) C (Z.of_nat j / BLOCK_SIZE) = default 0 (mf_bl f !! (j / 512)%nat) /\ (j / 512 < length (mf_bl f))%nat) as Hblk.
  { intros j Hj. assert (j / 512 < length (mf_bl f))%nat as Hd by (apply Nat.Div0.div_lt_upper_bound; lia). split; [|done].
    change BLOCK_SIZE with (Z.of_nat 512). rewrite <-Nat2Z.inj_div. rewrite (frep_blk _ _ _ Hr Ho) by (change INODE_MAX_BLOCKS with 140; lia). by rewrite Nat2Z.id. }
  split.
  - apply list_eq. intros j. rewrite lookup_file_bytes, Hn. destruct (decide (Z.of_nat j < Z.of_nat (length (mf_data f)))) as [Hj|Hj]; [|symmetry; apply lookup_ge_None; lia].
    destruct (Hblk j ltac:(lia)) as [Eb Hd]. unfold file_byte. rewrite Eb. change BLOCK_SIZE with (Z.of_nat 512). rewrite <-Nat2Z.inj_mod, Nat2Z.id.
    pose proof (concat_lookup C (mf_bl f) j (fr_blk _ _ Hr) ltac:(lia)) as Ec. rewrite (fr_data _ _ Hr), lookup_app_l in Ec by lia. rewrite <-Ec.
    destruct (lookup_lt_is_Some_2 (mf_data f) j ltac:(lia)) as [x Hx]. by rewrite Hx.
  - split; [rewrite Hn; change INODE_MAX_BYTES with 71680; lia|]. intros j Hj. rewrite Hn in Hj. destruct (Hblk (Z.to_nat j) ltac:(lia)) as [Eb Hd]. rewrite Z2Nat.id in Eb by lia. rewrite Eb.
    destruct (lookup_lt_is_Some_2 _ _ Hd) as [x Hx]. rewrite Hx. change (default 0 (Some x)) with x. rewrite Forall_forall in Ho. assert (0 < x < 2 ^ 32); [|lia]. apply Ho, owned_bl. by eapply list_elem_of_lookup_2.
Qed.
Lemma frep_owns C f b : frep C f -> Forall (fun b => 0 < b < 2 ^ 32) (mf_owned f) -> owns (mf_e f) C b -> b ∈ mf_owned f.
Proof.
  intros Hr Ho [Hb [->|(n & Hn & E)]].
  - rewrite (fr_ind _ _ Hr) in *. apply elem_of_app. right. unfold mf_table. destruct (length (mf_bl f) <=? 12)%nat; [done|]. by left.
  - rewrite (frep_blk _ _ _ Hr Ho Hn) in E. apply owned_bl. destruct (mf_bl f !! Z.to_nat n) as [x|] eqn:Ex; [|done]. cbn in E. subst x. by eapply list_elem_of_lookup_2.
Qed.

(** ** Names *)

Lemma length_dirent inum name : length (dirent inum name) = 16%nat.
Proof. unfold dirent, dirent_bytes, dir_name. cbn [de_inode_no de_name]. rewrite !length_app, length_le_bytes, length_take, length_replicate. lia. Qed.
Lemma base_name_slash path : existsb (Z.eqb 47) (base_name path) = false.
Proof.
  unfold base_name. assert (forall acc, existsb (Z.eqb 47) acc = false -> existsb (Z.eqb 47) (foldl (fun acc c => if c =? 47 then [] else acc ++ [c]) acc path) = false) as H by
    (induction path as [|c path IH]; intros acc Ha; cbn [foldl]; [done|]; apply IH; destruct (Z.eqb_spec c 47) as [->|Hc]; [done|]; rewrite existsb_app, Ha; cbn [existsb orb]; rewrite (proj2 (Z.eqb_neq 47 c)) by congruence; done).
  by apply H.
Qed.

(** ** One file *)

Definition f_bytes (i : infile) : list Z := concat (default [] (f_data i)).
Definition f_name (i : infile) : list Z := skip_underscore (base_name (f_path i)).
Definition is_kind (type : Z) (e : InodeEntry) : Prop := ie_type e = type /\ ie_num_links e = 1.
Lemma is_kind_same type e e' : is_kind type e -> same_kind e e' -> is_kind type e'.
Proof. unfold is_kind, same_kind. intuition congruence. Qed.

Lemma sizes_cons f fs : sizes (f :: fs) = length (mf_data f) :: sizes fs.
Proof. done. Qed.
Lemma sizes_app fs gs : sizes (fs ++ gs) = sizes fs ++ sizes gs.
Proof. apply fmap_app. Qed.
Lemma length_sizes fs : length (sizes fs) = length fs.
Proof. apply length_fmap. Qed.
Lemma insert_zero {A} (x y : A) l : <[0%nat := x]> (y :: l) = x :: l.
Proof. done. Qed.

Lemma wp_add_file s root fs i : finv s (root :: fs) -> (S (length fs) < 207)%nat -> is_Some (f_data i) -> (length (mf_data root) + 16 <= 512 * 140)%nat -> (length (f_bytes i) <= 512 * 140)%nat ->
  nmeta + sizes_cost ((length (mf_data root) + 16)%nat :: sizes fs ++ [length (f_bytes i)]) <= FSSIZE ->
  wp (add_file (ino 0) i) (fun _ s' => exists root' g, finv s' (root' :: fs ++ [g]) /\ mf_data root' = mf_data root ++ dirent (ino (S (length fs))) (f_name i) /\ same_kind (mf_e root) (mf_e root') /\
    mf_data g = f_bytes i /\ is_kind INODE_REGULAR (mf_e g)) s.
Proof.
  intros Hi Hn [ps Hps] Hr Hb Hc. unfold f_bytes in *. rewrite Hps in *. change (default [] (Some ps)) with ps in *. unfold add_file. rewrite base_name_slash. apply wp_bind, wp_ASSERT. split; [done|]. rewrite Hps.
  apply wp_bind. eapply wp_ialloc; [exact Hi|done|done|]. intros s1 Hi1. change (length (root :: fs)) with (S (length fs)) in *. cbn [app] in Hi1. set (g0 := new_file INODE_REGULAR) in *.
  apply wp_bind. eapply wp_mono; [apply (wp_iappend s1 (root :: fs ++ [g0]) 0 root); [exact Hi1|reflexivity|rewrite length_dirent; exact Hr|]|].
  { rewrite length_dirent, sizes_cons, sizes_app, insert_zero. etrans; [|exact Hc]. rewrite !sizes_cost_cons, !sizes_cost_app. cbn [sizes fmap list_fmap]. rewrite !sizes_cost_cons.
    pose proof (size_cost_mono 0 (length (concat ps)) ltac:(lia)). cbn [g0 new_file mf_data length] in *. lia. }
  intros [] s2 (root' & Hi2 & Ed2 & Hk2). rewrite insert_zero in Hi2.
  eapply wp_mono; [apply (wp_pieces ps s2 (root' :: fs ++ [g0]) (S (length fs)) g0); [exact Hi2| |change (length (mf_data g0)) with 0%nat; exact Hb|]|].
  { change ((root' :: fs ++ [g0]) !! S (length fs)) with ((fs ++ [g0]) !! length fs). by rewrite list_lookup_middle. }
  { rewrite sizes_cons, sizes_app. change (<[S (length fs) := ?x]> (?y :: ?l)) with (y :: <[length fs := x]> l). rewrite Ed2, length_app, length_dirent.
    rewrite insert_app_r_alt by (rewrite length_sizes; lia). rewrite length_sizes, Nat.sub_diag. etrans; [|exact Hc]. reflexivity. }
  intros [] s3 (g & Hi3 & Ed3 & Hk3). exists root', g. change (<[S (length fs) := g]> (root' :: fs ++ [g0])) with (root' :: <[length fs := g]> (fs ++ [g0])) in Hi3.
  rewrite insert_app_r_alt, Nat.sub_diag in Hi3 by lia. split; [exact Hi3|]. split; [done|]. split; [done|]. split; [done|]. apply (is_kind_same _ (mf_e g0)); [split; reflexivity|exact Hk3].
Qed.

(** ** All files *)

(** The entries of the directory for files from inode [n] on. *)
Definition dirents (n : nat) (fs : list infile) : list Z := concat (imap (fun k i => dirent (ino (n + k)) (f_name i)) fs).
Lemma dirents_cons n i fs : dirents n (i :: fs) = dirent (ino n) (f_name i) ++ dirents (S n) fs.
Proof. unfold dirents. rewrite imap_cons. cbn [concat]. rewrite Nat.add_0_r. do 2 f_equal. apply imap_ext. intros k x _. cbn. by replace (n + S k)%nat with (S (n + k)) by lia. Qed.
Lemma length_dirents n fs : length (dirents n fs) = (16 * length fs)%nat.
Proof. revert n. induction fs as [|i fs IH]; intros n; [done|]. rewrite dirents_cons, length_app, length_dirent, IH. cbn [length]. lia. Qed.

Definition stored (i : infile) (f : mfile) : Prop := mf_data f = f_bytes i /\ is_kind INODE_REGULAR (mf_e f).

Lemma wp_add_files inps s root fs : finv s (root :: fs) -> (S (length fs) + length inps <= 207)%nat -> Forall (fun i => is_Some (f_data i)) inps -> (length (mf_data root) + 16 * length inps <= 512 * 140)%nat ->
  Forall (fun i => (length (f_bytes i) <= 512 * 140)%nat) inps ->
  nmeta + sizes_cost ((length (mf_data root) + 16 * length inps)%nat :: sizes fs ++ ((fun i => length (f_bytes i)) <$> inps)) <= FSSIZE ->
  wp (for_each inps (add_file (ino 0))) (fun _ s' => exists root' gs, finv s' (root' :: fs ++ gs) /\ mf_data root' = mf_data root ++ dirents (S (length fs)) inps /\ same_kind (mf_e root) (mf_e root') /\
    Forall2 stored inps gs) s.
Proof.
  revert s root fs. induction inps as [|i inps IH]; intros s root fs Hi Hn Hd Hr Hb Hc; cbn [for_each].
  { apply wp_ret. exists root, []. rewrite app_nil_r. split; [exact Hi|]. split; [by rewrite app_nil_r|]. split; [done|constructor]. }
  apply Forall_cons in Hd as [Hd1 Hd]. apply Forall_cons in Hb as [Hb1 Hb]. cbn [length] in *. rewrite fmap_cons, sizes_cost_cons, sizes_cost_app, sizes_cost_cons in Hc.
  apply wp_bind. eapply wp_mono; [apply (wp_add_file s root fs i); [exact Hi|lia|exact Hd1|lia|exact Hb1|]|].
  { rewrite sizes_cost_cons, sizes_cost_app, sizes_cost_cons. change (sizes_cost []) with 0. pose proof (size_cost_mono (length (mf_data root) + 16) (length (mf_data root) + 16 * S (length inps)) ltac:(lia)).
    assert (0 <= sizes_cost ((fun i => length (f_bytes i)) <$> inps)) by (unfold sizes_cost; lia). lia. }
  intros [] s1 (root1 & g & Hi1 & Ed1 & Hk1 & Hg). assert (length (mf_data root1) = length (mf_data root) + 16)%nat as El by (rewrite Ed1, length_app, length_dirent; lia).
  eapply wp_mono; [apply (IH s1 root1 (fs ++ [g]) Hi1)|].
  - rewrite length_app. cbn [length]. lia.
  - exact Hd.
  - lia.
  - exact Hb.
  - rewrite El, sizes_app, <-app_assoc, sizes_cost_cons, sizes_cost_app. cbn [sizes fmap list_fmap app]. rewrite sizes_cost_cons. destruct Hg as [-> _].
    replace (length (mf_data root) + 16 + 16 * length inps)%nat with (length (mf_data root) + 16 * S (length inps))%nat by lia. lia.
  - intros [] s2 (root2 & gs & Hi2 & Ed2 & Hk2 & Hgs). exists root2, (g :: gs). rewrite <-app_assoc in Hi2. split; [exact Hi2|]. split; [|split; [unfold same_kind in *; intuition congruence|by constructor]].
    rewrite Ed2, Ed1, dirents_cons, <-app_assoc, length_app. cbn [length]. by rewrite Nat.add_1_r.
Qed.

(** ** The bitmap *)

Lemma length_set_bits n buf : length (set_bits n buf) = length buf.
Proof. induction n as [|n IH]; [done|]. cbn [set_bits]. by rewrite length_insert. Qed.
Lemma set_bits_spec n b : (n < 4096)%nat -> 0 <= b < 4096 -> bitmap_bit (set_bits n zeroes) b = (b <? Z.of_nat n).
Proof.
  intros Hn Hb. induction n as [|n IH].
  - unfold bitmap_bit. cbn [set_bits]. unfold zeroes. rewrite lookup_replicate_2 by (pose proof (Z.div_pos b 8); assert (b / 8 < 512) by (apply Z.div_lt_upper_bound; lia); lia). cbn [default from_option id]. rewrite Z.testbit_0_l. symmetry. apply Z.ltb_ge. lia.
  - specialize (IH ltac:(lia)). unfold bitmap_bit in *. cbn [set_bits]. assert (0 <= Z.of_nat n / 8 < 512) as Hk by (split; [apply Z.div_pos; lia|apply Z.div_lt_upper_bound; lia]). assert (0 <= b / 8) as Hb8 by (apply Z.div_pos; lia).
    pose proof (Z.mod_pos_bound b 8 ltac:(lia)). pose proof (Z.mod_pos_bound (Z.of_nat n) 8 ltac:(lia)). pose proof (Z.div_mod b 8 ltac:(lia)). pose proof (Z.div_mod (Z.of_nat n) 8 ltac:(lia)).
    destruct (decide (b / 8 = Z.of_nat n / 8)) as [E|E].
    + rewrite E. rewrite list_lookup_insert_eq by (rewrite length_set_bits; cbn [zeroes]; unfold zeroes; rewrite length_replicate; lia). change (default 0 (Some ?x)) with x. rewrite Z.lor_spec. rewrite E in IH. rewrite IH.
      rewrite Z.shiftl_1_l, Z.pow2_bits_eqb by lia. destruct (Z.eqb_spec (Z.of_nat n mod 8) (b mod 8)), (Z.ltb_spec b (Z.of_nat n)), (Z.ltb_spec b (Z.of_nat (S n))); cbn; lia.
    + rewrite list_lookup_insert_ne by lia. rewrite IH. destruct (Z.ltb_spec b (Z.of_nat n)), (Z.ltb_spec b (Z.of_nat (S n))); lia.
Qed.

(** ** The start *)

Lemma wp_start s (Q : unit -> mkstate -> Prop) : (forall s', finv s' [] -> Q tt s') ->
  wp (modify (fun s => mkMk (mk_img s) 1 nmeta);; for_each (seqZ 0 FSSIZE) (fun i => wsect i zeroes);; wsect 1 (splice 0 (sb_bytes sb) zeroes)) Q s.
Proof.
  intros HQ. apply wp_bind, wp_modify. apply wp_bind.
  eapply wp_mono; [apply (wp_for_each (fun d s' => mk_freeinode s' = 1 /\ mk_freeblock s' = nmeta /\ forall b, b ∈ d -> mk_img s' !! b = Some zeroes))|].
  - split; [done|]. split; [done|]. intros b Hb. by apply not_elem_of_nil in Hb.
  - intros d x rest s1 _ (H1 & H2 & H3). unfold wsect. apply wp_modify. cbn [mk_freeinode mk_freeblock mk_img]. split; [done|]. split; [done|]. intros b Hb.
    destruct (decide (b = x)) as [->|Hne]; [by rewrite lookup_insert_eq|]. rewrite lookup_insert_ne by done. apply H3. apply elem_of_app in Hb as [Hb|Hb%list_elem_of_singleton]; done.
  - intros [] s1 (H1 & H2 & H3). assert (forall b, 0 <= b < 1000 -> mk_img s1 !! b = Some zeroes) as Hz by (intros b Hb; apply H3, elem_of_seqZ; change FSSIZE with 1000; lia).
    unfold wsect. apply wp_modify. apply HQ. constructor; cbn [mk_freeinode mk_freeblock mk_img].
    + constructor; cbn [mk_freeinode mk_freeblock mk_img fmap list_fmap concat]; rewrite ?H2.
      * apply insert_pres; [reflexivity|]. intros b Hb. exists zeroes. split; [by apply Hz|reflexivity].
      * constructor.
      * constructor.
      * constructor.
      * reflexivity.
      * rewrite nmeta_pos. change FSSIZE with 1000. lia.
      * intros b Hb. rewrite nmeta_pos in Hb. rewrite lookup_insert_ne by lia. apply Hz. change FSSIZE with 1000 in Hb. lia.
    + constructor.
    + done.
    + cbn. lia.
    + constructor.
    + intros j f Hf. done.
    + by rewrite lookup_insert_eq.
    + intros b Hb. change (sb_inode_start sb) with 65 in Hb. rewrite lookup_insert_ne by lia. apply Hz. lia.
Qed.

(** ** The end: the size of the root directory and the bitmap *)

Lemma wp_round_root s root fs : finv s (root :: fs) -> (length (mf_data root) mod 512 <> 0)%nat ->
  wp (din ← rinode (ino 0); let off := xint (ie_num_bytes din) in let off := (off / BLOCK_SIZE + 1) * BLOCK_SIZE in winode (ino 0) (ie_with_num_bytes (xint off) din))
    (fun _ s' => exists root', finv s' (root' :: fs) /\ mf_data root' = mf_data root ++ zeros (512 * nblocks (length (mf_data root)) - length (mf_data root)) /\ same_kind (mf_e root) (mf_e root')) s.
Proof.
  intros Hi Hm. apply wp_bind. eapply wp_rinode; [exact Hi|reflexivity|]. pose proof (fi_entry _ _ Hi) as He. apply Forall_cons in He as [[Hok Hnb] _]. pose proof (fi_tight _ _ Hi) as Ht. apply Forall_cons in Ht as [Ht _].
  pose proof (di_rep _ _ (fi_d _ _ Hi)) as Hr. apply Forall_cons in Hr as [Hr _]. pose proof (nblocks_spec (length (mf_data root))) as Hn. pose proof (fr_max _ _ Hr) as Hmax. rewrite Ht in Hmax. set (k := nblocks (length (mf_data root))) in *.
  rewrite Hnb, xint_small by lia. cbv zeta. assert ((Z.of_nat (length (mf_data root)) / BLOCK_SIZE + 1) * BLOCK_SIZE = Z.of_nat (512 * k)) as ->.
  { change BLOCK_SIZE with (Z.of_nat 512). rewrite <-Nat2Z.inj_div. pose proof (Nat.div_mod (length (mf_data root)) 512 ltac:(lia)). pose proof (Nat.mod_upper_bound (length (mf_data root)) 512 ltac:(lia)). lia. }
  rewrite xint_small by lia. set (root' := mkMF (ie_with_num_bytes (Z.of_nat (512 * k)) (mf_e root)) (mf_bl root) (mf_ind root) (mf_data root ++ zeros (512 * k - length (mf_data root)))).
  assert (length (mf_data root') = (512 * k)%nat) as El by (unfold root'; cbn [mf_data]; rewrite length_app, length_replicate; lia).
  assert (dinv s (root' :: fs)) as Hd.
  { apply (dinv_new s s root root' []); [apply (fi_d _ _ Hi)|by rewrite app_nil_r|done|cbn; lia|apply (di_le _ _ (fi_d _ _ Hi))| |done|apply (di_pres _ _ (fi_d _ _ Hi))].
    destruct Hr as [R1 R2 R3 R4 R5 R6 R7]. constructor; try done.
    - rewrite El. cbn [root' mf_bl mf_data]. rewrite R5, Ht. fold k. rewrite Nat.sub_diag, app_nil_r. done.
    - rewrite El. cbn [root' mf_bl]. rewrite Ht. fold k. lia. }
  assert (entry_ok (mf_e root')) as Hok'. { apply (entry_ok_file s root fs (mf_e root) (fi_d _ _ Hi) Hok); [done|lia]. }
  apply wp_winode; [lia|apply (di_pres _ _ Hd)|apply (eo_len _ Hok')|]. intros img' Hon Hoth Hout Hpres. exists root'. split; [|split; [done|done]].
  apply (finv_winode s s [] root fs root'); [exact Hi|exact Hd| |exact Hok'|by rewrite El|apply same_meta_refl|exact Hon|exact Hoth|exact Hout|exact Hpres].
  unfold tight. rewrite El. cbn [root' mf_bl]. rewrite Ht. fold k. symmetry. apply nblocks_unique. lia.
Qed.

Lemma finv_bitmap s fs x : finv s fs -> length x = 512%nat -> finv (mkMk (<[sb_bitmap_start sb := x]> (mk_img s)) (mk_freeinode s) (mk_freeblock s)) fs.
Proof.
  intros [D1 D2 D3 D4 D5 D6 D7 D8] Hx. change (sb_bitmap_start sb) with 91. constructor; cbn [mk_img mk_freeinode]; try done.
  - apply (dinv_meta s); [done|done| |cbn [mk_img]; apply insert_pres; [done|apply (di_pres _ _ D1)]]. intros b Hb. cbn [mk_img]. rewrite nmeta_pos in Hb. by rewrite lookup_insert_ne by lia.
  - intros j f Hf. pose proof (lookup_lt_Some _ _ _ Hf) as Hj. pose proof (iblock_range j ltac:(lia)) as Hib. change (sb_bitmap_start sb) with 91 in Hib. unfold on_disk. rewrite content_insert, decide_False by lia. by apply D6.
  - by rewrite lookup_insert_ne by lia.
  - intros b Hb. change (sb_inode_start sb) with 65 in Hb. rewrite lookup_insert_ne by lia. apply D8. change (sb_inode_start sb) with 65. lia.
Qed.

(** ** What the image holds *)

(** The inode on the image, read as the kernel does. *)
Definition entry_at (C : Z -> list Z) (no : Z) : InodeEntry := entry_of_bytes (drop (get_entry no) (C (to_block_no sb no))).
Record file_at (C : Z -> list Z) (used no type : Z) (bytes : list Z) : Prop := mkFileAt {
  fa_ok : entry_ok (entry_at C no);
  fa_kind : is_kind type (entry_at C no);
  fa_bytes : file_bytes (entry_at C no) C = bytes;
  fa_holes : no_holes (entry_at C no) C;
  fa_owns : forall b, owns (entry_at C no) C b -> nmeta <= b < used;
  fa_inj : forall n m, 0 <= n < INODE_MAX_BLOCKS -> 0 <= m < INODE_MAX_BLOCKS -> blk_at (entry_at C no) C n = blk_at (entry_at C no) C m -> blk_at (entry_at C no) C n <> 0 -> n = m;
  fa_indirect : forall n, 0 <= n < INODE_MAX_BLOCKS -> blk_at (entry_at C no) C n <> 0 -> blk_at (entry_at C no) C n <> ie_indirect (entry_at C no) }.

Lemma finv_entry_at s fs j f : finv s fs -> fs !! j = Some f -> entry_at (content (mk_img s)) (ino j) = mf_e f.
Proof.
  intros Hi Hf. pose proof (fi_max _ _ Hi) as Hm. pose proof (lookup_lt_Some _ _ _ Hf) as Hj. pose proof (fi_entry _ _ Hi) as He. rewrite Forall_lookup in He. destruct (He j f Hf) as [Hok _].
  assert (to_block_no sb (ino j) = IBLOCK (ino j)) as Eb. { pose proof (iblock_range j ltac:(lia)) as Hr. change (sb_bitmap_start sb) with 91 in Hr. change (sb_inode_start sb) with 65 in Hr. unfold to_block_no. unfold IBLOCK in *. rewrite u64_small; lia. }
  unfold entry_at. rewrite Eb. rewrite <-(take_drop 64 (drop (get_entry (ino j)) (content (mk_img s) (IBLOCK (ino j))))). rewrite (fi_area _ _ Hi j f Hf). by apply entry_roundtrip.
Qed.
Lemma finv_owned s fs j f : finv s fs -> fs !! j = Some f -> Forall (fun b => nmeta <= b < mk_freeblock s) (mf_owned f) /\ NoDup (mf_owned f) /\ frep (content (mk_img s)) f /\ Forall (fun b => 0 < b < 2 ^ 32) (mf_owned f).
Proof.
  intros Hi Hf. apply list_elem_of_split_length in Hf as (l1 & l2 & -> & ->). pose proof (dinv_perm s _ (f :: l1 ++ l2) ltac:(by rewrite Permutation_middle) (fi_d _ _ Hi)) as Hd.
  assert (Forall (fun b => nmeta <= b < mk_freeblock s) (mf_owned f)) as Hr by (rewrite Forall_forall; intros b Hb; by apply (owned_range s f (l1 ++ l2))). split; [done|]. split; [|split].
  - pose proof (di_nodup _ _ Hd) as Hn. cbn [fmap list_fmap concat] in Hn. by apply NoDup_app in Hn as [Hn _].
  - pose proof (di_rep _ _ Hd) as Hp. by apply Forall_cons in Hp as [Hp _].
  - eapply Forall_impl; [exact Hr|]. cbn beta. intros b Hb. pose proof (di_le _ _ Hd) as Hle. change FSSIZE with 1000 in Hle. rewrite nmeta_pos in Hb. lia.
Qed.
Lemma finv_file_at s fs j f type : finv s fs -> fs !! j = Some f -> is_kind type (mf_e f) -> file_at (content (mk_img s)) (mk_freeblock s) (ino j) type (mf_data f).
Proof.
  intros Hi Hf Hk. destruct (finv_owned _ _ _ _ Hi Hf) as (Hr & Hn & Hrep & Hpos). pose proof (fi_entry _ _ Hi) as He. rewrite Forall_lookup in He. destruct (He j f Hf) as [Hok Hnb].
  destruct (frep_bytes _ _ Hrep Hpos Hnb) as [Hby Hho]. unfold mf_owned in Hn. apply NoDup_app in Hn as (Hnd & Hdis & _).
  constructor; rewrite (finv_entry_at _ _ _ _ Hi Hf); try done.
  - intros b Hb%(frep_owns _ _ _ Hrep Hpos). rewrite Forall_forall in Hr. by apply Hr.
  - intros n m Hn Hm. rewrite !(frep_blk _ _ _ Hrep Hpos) by done. destruct (mf_bl f !! Z.to_nat n) as [x|] eqn:Ex; [|done]. destruct (mf_bl f !! Z.to_nat m) as [y|] eqn:Ey; cbn; [|done].
    intros -> _. pose proof (NoDup_lookup _ _ _ _ Hnd Ex Ey). lia.
  - intros n Hn. rewrite (frep_blk _ _ _ Hrep Hpos) by done. rewrite (fr_ind _ _ Hrep). destruct (mf_bl f !! Z.to_nat n) as [x|] eqn:Ex; [|done]. cbn. intros Hx. unfold mf_table in Hdis.
    destruct (length (mf_bl f) <=? 12)%nat; [done|]. intros ->. apply (Hdis (mf_ind f)); [by eapply list_elem_of_lookup_2|by left].
Qed.

(** No block belongs to two files. *)
Lemma concat_disjoint {A B} (g : A -> list B) (l : list A) j k x y b : NoDup (concat (g <$> l)) -> l !! j = Some x -> l !! k = Some y -> b ∈ g x -> b ∈ g y -> j = k.
Proof.
  revert j k. induction l as [|a l IH]; intros j k Hn Hx Hy Hbx Hby; [done|]. cbn [fmap list_fmap concat] in Hn. apply NoDup_app in Hn as (_ & Hd & Hn).
  assert (forall i z, l !! i = Some z -> b ∈ g z -> b ∈ concat (g <$> l)) as Hin.
  { intros i z Hz Hb. clear -Hz Hb. revert i Hz. induction l as [|c l IH]; intros i Hz; [done|]. cbn [fmap list_fmap concat]. apply elem_of_app. destruct i as [|i]; [injection Hz as ->; by left|right; by eapply IH]. }
  destruct j as [|j], k as [|k]; [done|injection Hx as ->; exfalso; eapply Hd; [exact Hbx|by eapply Hin]|injection Hy as ->; exfalso; eapply Hd; [exact Hby|by eapply Hin]|]. f_equal. by apply IH.
Qed.

Definition root_bytes (inps : list infile) : list Z := dirent 1 [46] ++ dirent 1 [46; 46] ++ dirents 1 inps.
(** The blocks that the files need. *)
Definition blocks_needed (inps : list infile) : Z := sizes_cost (length (root_bytes inps) :: ((fun i => length (f_bytes i)) <$> inps)).

Lemma length_root_bytes inps : length (root_bytes inps) = (16 * (length inps + 2))%nat.
Proof. unfold root_bytes. rewrite !length_app, !length_dirent, length_dirents. lia. Qed.

(** The files of [inps] are on the image with its root directory. *)
Definition holds_files (inps : list infile) (C : Z -> list Z) (used : Z) : Prop :=
  file_at C used ROOT_INODE_NO INODE_DIRECTORY (root_bytes inps ++ zeros (512 * nblocks (length (root_bytes inps)) - length (root_bytes inps))) /\
  (forall k i, inps !! k = Some i -> file_at C used (Z.of_nat k + 2) INODE_REGULAR (f_bytes i)) /\
  (forall n m b, 1 <= n <= Z.of_nat (length inps) + 1 -> 1 <= m <= Z.of_nat (length inps) + 1 -> owns (entry_at C n) C b -> owns (entry_at C m) C b -> n = m).

Lemma wp_mkfs inps s : Forall (fun i => is_Some (f_data i)) inps -> (length inps <= 206)%nat -> ((length inps + 2) mod 32 <> 0)%nat -> Forall (fun i => (length (f_bytes i) <= 512 * 140)%nat) inps ->
  nmeta + blocks_needed inps <= FSSIZE ->
  wp (mkfs inps) (fun _ s' => let C := content (mk_img s') in exists root gs, finv s' (root :: gs) /\ is_kind INODE_DIRECTORY (mf_e root) /\
    mf_data root = root_bytes inps ++ zeros (512 * nblocks (length (root_bytes inps)) - length (root_bytes inps)) /\ Forall2 stored inps gs /\
    C (sb_bitmap_start sb) = set_bits (Z.to_nat (mk_freeblock s')) zeroes /\ mk_freeblock s' = nmeta + blocks_needed inps) s.
Proof.
  intros Hd Hn Hm Hb Hc. unfold blocks_needed in Hc. rewrite length_root_bytes in Hc. unfold mkfs. rewrite sizes_cost_cons in Hc. assert (0 <= sizes_cost ((fun i => length (f_bytes i)) <$> inps)) as Hpos by (unfold sizes_cost; lia).
  assert (wp (modify (fun s => mkMk (mk_img s) 1 nmeta);; for_each (seqZ 0 FSSIZE) (fun i => wsect i zeroes);; wsect 1 (splice 0 (sb_bytes sb) zeroes)) (fun _ s1 => finv s1 []) s) as Hs by (by apply wp_start).
  apply wp_bind. apply wp_bind in Hs. eapply wp_mono; [exact Hs|]. clear s Hs. intros [] s Hs. apply wp_bind. apply wp_bind in Hs. eapply wp_mono; [exact Hs|]. clear s Hs. intros [] s Hs.
  apply wp_bind. eapply wp_mono; [exact Hs|]. clear s Hs. intros [] s Hi.
  apply wp_bind. eapply wp_ialloc; [exact Hi|cbn; lia|done|]. clear s Hi. intros s Hi. cbn [app length] in *. set (r0 := new_file INODE_DIRECTORY) in *. change (ino 0) with 1 at 1 2.
  apply wp_bind, wp_ASSERT. split; [done|]. pose proof (size_cost_mono 32 (16 * (length inps + 2)) ltac:(lia)) as Hm32. pose proof (size_cost_mono 16 32 ltac:(lia)) as Hm16.
  apply wp_bind. eapply wp_mono; [apply (wp_iappend s [r0] 0 r0); [exact Hi|reflexivity|rewrite length_dirent; change (length (mf_data r0)) with 0%nat; lia|]|].
  { rewrite length_dirent, sizes_cons, insert_zero, sizes_cost_cons. change (sizes_cost (sizes [])) with 0. change (length (mf_data r0) + 16)%nat with 16%nat. lia. }
  clear s Hi. intros [] s (r1 & Hi & Ed1 & Hk1). rewrite insert_zero in Hi. assert (length (mf_data r1) = 16%nat) as El1 by (rewrite Ed1; apply length_dirent).
  apply wp_bind. eapply wp_mono; [apply (wp_iappend s [r1] 0 r1); [exact Hi|reflexivity|rewrite length_dirent, El1; lia|]|].
  { rewrite length_dirent, El1, sizes_cons, insert_zero, sizes_cost_cons. change (sizes_cost (sizes [])) with 0. change (16 + 16)%nat with 32%nat. lia. }
  clear s Hi. intros [] s (r2 & Hi & Ed2 & Hk2). rewrite insert_zero in Hi. assert (length (mf_data r2) = 32%nat) as El2 by (rewrite Ed2, length_app, El1, length_dirent; done).
  apply wp_bind. eapply wp_mono; [apply (wp_add_files inps s r2 []); [exact Hi|cbn [length]; lia|exact Hd|rewrite El2; lia|exact Hb|]|].
  { rewrite El2, sizes_cost_cons. cbn [sizes fmap list_fmap app]. replace (32 + 16 * length inps)%nat with (16 * (length inps + 2))%nat by lia. lia. }
  clear s Hi. intros [] s (r3 & gs & Hi & Ed3 & Hk3 & Hgs). cbn [app length] in *.
  assert (mf_data r3 = root_bytes inps) as Er by (rewrite Ed3, Ed2, Ed1; unfold root_bytes; change (mf_data r0) with (@nil Z); rewrite <-!app_assoc; done).
  assert (wp (din ← rinode (ino 0); let off := xint (ie_num_bytes din) in let off := (off / BLOCK_SIZE + 1) * BLOCK_SIZE in winode (ino 0) (ie_with_num_bytes (xint off) din))
    (fun _ s' => exists root', finv s' (root' :: gs) /\ mf_data root' = mf_data r3 ++ zeros (512 * nblocks (length (mf_data r3)) - length (mf_data r3)) /\ same_kind (mf_e r3) (mf_e root')) s) as Hs.
  { apply wp_round_root; [exact Hi|]. rewrite Er, length_root_bytes. replace 512%nat with (16 * 32)%nat by reflexivity. rewrite Nat.Div0.mul_mod_distr_l. lia. }
  apply wp_bind. apply wp_bind in Hs. eapply wp_mono; [exact Hs|]. clear s Hi Hs. intros din s Hs. cbv zeta in *. apply wp_bind. eapply wp_mono; [exact Hs|]. clear s Hs. intros [] s (root & Hi & Edr & Hkr).
  apply wp_bind, wp_gets. unfold balloc. pose proof (di_le _ _ (fi_d _ _ Hi)) as Hle. change FSSIZE with 1000 in Hle. apply wp_bind, wp_ASSERT. split; [apply Z.ltb_lt; change BLOCK_SIZE with 512; lia|].
  unfold wsect. apply wp_modify. cbv zeta. exists root, gs. split; [apply finv_bitmap; [exact Hi|]; by rewrite length_set_bits|]. rewrite <-Er. cbn [mk_img mk_freeblock].
  split; [|split; [exact Edr|split; [exact Hgs|split]]].
  - apply (is_kind_same _ (mf_e r0)); [split; reflexivity|]. unfold same_kind in *. intuition congruence.
  - unfold content. by rewrite lookup_insert_eq.
  - rewrite (di_free _ _ (fi_d _ _ Hi)). fold (taken (root :: gs)). rewrite (taken_sizes _ (fi_tight _ _ Hi)), sizes_cons. unfold blocks_needed. rewrite <-Er, !sizes_cost_cons.
    assert (size_cost (length (mf_data root)) = size_cost (length (mf_data r3))) as ->.
    { unfold size_cost. f_equal. pose proof (nblocks_spec (length (mf_data r3))). apply nblocks_unique. rewrite Edr, length_app, length_replicate. lia. }
    do 3 f_equal. clear -Hgs. induction Hgs as [|i g inps gs [Hg _] _ IH]; [done|]. rewrite fmap_cons, <-IH, <-Hg. done.
Qed.

(** C40: given files that can be opened, at most 206, none larger than an inode can address, and which fit on the
    disk together, and whose entries in the root directory, with the two of the
    directory itself, do not fill its blocks exactly (their number is not a
    multiple of 32: with 30 files and the like [main] rounds the size of the
    directory up to a block that it does not have), [mkfs] returns and the kernel
    finds them on the image: each
    file under its inode number with exactly its bytes, the root directory with
    an entry for each, no block shared between two files or twice in one, the
    bitmap marking the blocks that are used and no others, the super block, and
    an empty log. *)
Theorem mkfs_image inps s : Forall (fun i => is_Some (f_data i)) inps -> (length inps <= 206)%nat -> ((length inps + 2) mod 32 <> 0)%nat -> Forall (fun i => (length (f_bytes i) <= 512 * 140)%nat) inps ->
  nmeta + blocks_needed inps <= FSSIZE ->
  exists s', mkfs inps s = Ret (tt, s') /\ let C := content (mk_img s') in let used := nmeta + blocks_needed inps in
    holds_files inps C used /\
    (forall b, 0 <= b < BIT_PER_BLOCK -> bitmap_bit (C (sb_bitmap_start sb)) b = (b <? used)) /\
    C 1 = splice 0 (sb_bytes sb) zeroes /\ C (sb_log_start sb) = zeroes.
Proof.
  intros Hd Hn Hm Hb Hc. destruct (wp_run _ _ _ (wp_mkfs inps s Hd Hn Hm Hb Hc)) as ([] & s' & Hr & root & gs & Hi & Hk & Ed & Hgs & Hbm & Hf). exists s'. split; [exact Hr|]. cbv zeta in *. rewrite <-Hf.
  assert (length gs = length inps) as Hl by (symmetry; by eapply Forall2_length). split; [|split; [|split]].
  - split; [|split].
    + rewrite <-Ed. exact (finv_file_at s' _ 0 root _ Hi eq_refl Hk).
    + intros k i Hki. destruct (Forall2_lookup_l _ _ _ _ _ Hgs Hki) as (g & Hg & Eg & Hkg). rewrite <-Eg. replace (Z.of_nat k + 2) with (ino (S k)) by (unfold ino; lia). exact (finv_file_at s' _ (S k) g _ Hi Hg Hkg).
    + intros n m b Hn' Hm' Ho1 Ho2. assert (forall n, 1 <= n <= Z.of_nat (length inps) + 1 -> exists j f, n = ino j /\ (root :: gs) !! j = Some f) as Hex.
      { intros k Hk'. destruct (lookup_lt_is_Some_2 (root :: gs) (Z.to_nat (k - 1))) as [f Hf']; [cbn [length]; lia|]. exists (Z.to_nat (k - 1)), f. split; [unfold ino; lia|done]. }
      destruct (Hex n Hn') as (j & f & -> & Hj), (Hex m Hm') as (j' & f' & -> & Hj'). rewrite (finv_entry_at _ _ _ _ Hi Hj) in Ho1. rewrite (finv_entry_at _ _ _ _ Hi Hj') in Ho2.
      destruct (finv_owned _ _ _ _ Hi Hj) as (_ & _ & F1 & F2), (finv_owned _ _ _ _ Hi Hj') as (_ & _ & F1' & F2'). f_equal.
      eapply (concat_disjoint mf_owned (root :: gs)); [apply (di_nodup _ _ (fi_d _ _ Hi))|exact Hj|exact Hj'|by eapply frep_owns|by eapply frep_owns].
  - intros b Hb'. change BIT_PER_BLOCK with 4096 in Hb'. rewrite Hbm. pose proof (di_le _ _ (fi_d _ _ Hi)) as Hle. change FSSIZE with 1000 in Hle. pose proof (di_free _ _ (fi_d _ _ Hi)) as Hfree. rewrite nmeta_pos in Hfree.
    rewrite set_bits_spec by lia. by rewrite Z2Nat.id by lia.
  - unfold content. by rewrite (fi_super _ _ Hi).
  - unfold content. rewrite (fi_log _ _ Hi); [done|]. change (sb_log_start sb) with 2. change (sb_inode_start sb) with 65. lia.
Qed.

(** "build/_sh" with three bytes and "hello" with 600, read in two pieces. *)
Definition demo_files : list infile :=
  [mkIn [98; 117; 105; 108; 100; 47; 95; 115; 104] (Some [[1; 2; 3]]); mkIn [104; 101; 108; 108; 111] (Some [replicate 512 7; replicate 88 8])].
Lemma mkfs_image_witness : exists s', mkfs demo_files (mkMk ∅ 0 0) = Ret (tt, s') /\ let C := content (mk_img s') in
  f_name (mkIn [98; 117; 105; 108; 100; 47; 95; 115; 104] None) = [115; 104] /\ nmeta + blocks_needed demo_files = 96 /\ file_at C 96 3 INODE_REGULAR (replicate 512 7 ++ replicate 88 8 ++ []) /\ bitmap_bit (C (sb_bitmap_start sb)) 95 = true.
Proof.
  assert (nmeta + blocks_needed demo_files = 96) as E96 by (vm_compute; reflexivity).
  destruct (mkfs_image demo_files (mkMk ∅ 0 0)) as (s' & Hr & (_ & Hf & _) & Hb & _).
  - constructor; [eexists; reflexivity|]. constructor; [eexists; reflexivity|constructor].
  - cbn. lia.
  - vm_compute. discriminate.
  - constructor; [apply Nat.leb_le; vm_compute; reflexivity|]. constructor; [apply Nat.leb_le; vm_compute; reflexivity|constructor].
  - rewrite E96. change FSSIZE with 1000. lia.
  - cbv zeta in *. rewrite E96 in Hf, Hb. exists s'. split; [exact Hr|]. split; [vm_compute; reflexivity|]. split; [exact E96|]. split; [exact (Hf 1%nat _ eq_refl)|]. rewrite Hb by (change BIT_PER_BLOCK with 4096; lia). reflexivity.
Defined.
