(* ===== verification/Virtio.v ===== *)
(** * The block device: [driver/virtio_blk.c], [driver/virtio.h] and
      [fs/block_device.c]

    The queue shared with the device, its descriptors and their free list, the two
    parts of [virtio_blk_rw] around its wait, the interrupt handler, and the steps
    that requests and the device take.  A request is named by its [Buf], which
    lives on the stack of its caller with the header of the request; an address
    that the driver gives to the device names the object it points to.  Fences, the
    notification of the device and the acknowledgement of the interrupt have no
    effect here: the device may look at the queue at any time.  A semaphore is its value. *)

From Stdlib Require Import ZArith Lia.
From stdpp Require Import base tactics numbers gmap list.
From S2P Require Import Prelude FsDefs.

Local Open Scope Z_scope.

Definition NQUEUE : nat := 8.
Definition VIRTQ_DESC_F_NEXT : Z := 1.
Definition VIRTQ_DESC_F_WRITE : Z := 2.
Definition VIRTIO_BLK_T_IN : Z := 0.
Definition VIRTIO_BLK_T_OUT : Z := 1.
Definition VIRTIO_BLK_S_OK : Z := 0.
Definition B_VALID : Z := 2.
Definition B_DIRTY : Z := 4.
Definition BLOCKNO_OFFSET : Z := 133120.

Inductive paddr : Type :=
  | PNull
  | PHdr (b : nat)
  | PData (b : nat)
  | PStatus (i : nat).

Record virtq_desc : Type := mkDesc { d_addr : paddr; d_len : Z; d_flags : Z; d_next : Z }.
Record virtio_blk_req_hdr : Type := mkHdr { h_type : Z; h_reserved : Z; h_sector : Z }.
Record vinfo : Type := mkInfo { i_status : Z; i_done : Z; i_buf : option nat }.
Record Buf : Type := mkBuf { b_flags : Z; b_data : list Z; b_block_no : Z; b_sem : Z }.

(** [struct virtq] with the three pages it points to; the length in an element of
    the used ring is not read by the driver. *)
Record virtq : Type := mkVq {
  q_desc : list virtq_desc;
  q_avail_idx : Z;
  q_avail : list Z;
  q_used_idx : Z;
  q_used : list Z;
  q_free_head : Z;
  q_nfree : Z;
  q_last_used : Z;
  q_info : list vinfo }.

(** The disk with the stacks of the callers: [k_frames] has the local variable
    [d0] of each call that waits. *)
Record dstate : Type := mkD {
  k_lk : bool;
  k_vq : virtq;
  k_bufs : gmap nat Buf;
  k_hdrs : gmap nat virtio_blk_req_hdr;
  k_frames : gmap nat Z }.

Abbreviation DM := (M dstate).

Definition with_desc (f : list virtq_desc -> list virtq_desc) (q : virtq) : virtq :=
  mkVq (f (q_desc q)) (q_avail_idx q) (q_avail q) (q_used_idx q) (q_used q) (q_free_head q) (q_nfree q) (q_last_used q) (q_info q).
Definition with_free (h n : Z) (q : virtq) : virtq :=
  mkVq (q_desc q) (q_avail_idx q) (q_avail q) (q_used_idx q) (q_used q) h n (q_last_used q) (q_info q).
Definition with_avail (i : Z) (r : list Z) (q : virtq) : virtq :=
  mkVq (q_desc q) i r (q_used_idx q) (q_used q) (q_free_head q) (q_nfree q) (q_last_used q) (q_info q).
Definition with_used (i : Z) (r : list Z) (q : virtq) : virtq :=
  mkVq (q_desc q) (q_avail_idx q) (q_avail q) i r (q_free_head q) (q_nfree q) (q_last_used q) (q_info q).
Definition with_last (i : Z) (q : virtq) : virtq :=
  mkVq (q_desc q) (q_avail_idx q) (q_avail q) (q_used_idx q) (q_used q) (q_free_head q) (q_nfree q) i (q_info q).
Definition with_info (f : list vinfo -> list vinfo) (q : virtq) : virtq :=
  mkVq (q_desc q) (q_avail_idx q) (q_avail q) (q_used_idx q) (q_used q) (q_free_head q) (q_nfree q) (q_last_used q) (f (q_info q)).

Definition upd_vq (f : virtq -> virtq) : DM unit := modify (fun s => mkD (k_lk s) (f (k_vq s)) (k_bufs s) (k_hdrs s) (k_frames s)).
Definition upd_bufs (f : gmap nat Buf -> gmap nat Buf) : DM unit := modify (fun s => mkD (k_lk s) (k_vq s) (f (k_bufs s)) (k_hdrs s) (k_frames s)).
Definition upd_hdrs (f : gmap nat virtio_blk_req_hdr -> gmap nat virtio_blk_req_hdr) : DM unit := modify (fun s => mkD (k_lk s) (k_vq s) (k_bufs s) (f (k_hdrs s)) (k_frames s)).
Definition upd_frames (f : gmap nat Z -> gmap nat Z) : DM unit := modify (fun s => mkD (k_lk s) (k_vq s) (k_bufs s) (k_hdrs s) (f (k_frames s))).
Definition lock_disk : DM unit := b ← gets k_lk; if (b : bool) then block else modify (fun s => mkD true (k_vq s) (k_bufs s) (k_hdrs s) (k_frames s)).
Definition unlock_disk : DM unit := modify (fun s => mkD false (k_vq s) (k_bufs s) (k_hdrs s) (k_frames s)).

(** [desc[i]] and the fields of it that are written. *)
Definition get_desc (i : Z) : DM virtq_desc := q ← gets k_vq; some_or_ub (q_desc q !! Z.to_nat i).
Definition put_desc (i : Z) (f : virtq_desc -> virtq_desc) : DM unit := d ← get_desc i; upd_vq (with_desc (<[Z.to_nat i := f d]>)).
Definition set_d_addr (a : paddr) (n : Z) (d : virtq_desc) : virtq_desc := mkDesc a n (d_flags d) (d_next d).
Definition set_d_flags (x : Z) (d : virtq_desc) : virtq_desc := mkDesc (d_addr d) (d_len d) x (d_next d).
Definition set_d_next (n : Z) (d : virtq_desc) : virtq_desc := mkDesc (d_addr d) (d_len d) (d_flags d) n.
Definition has_next (d : virtq_desc) : bool := negb (Z.land (d_flags d) VIRTQ_DESC_F_NEXT =? 0).
Definition get_info (i : Z) : DM vinfo := q ← gets k_vq; some_or_ub (q_info q !! Z.to_nat i).
Definition put_info (i : Z) (f : vinfo -> vinfo) : DM unit := x ← get_info i; upd_vq (with_info (<[Z.to_nat i := f x]>)).

(** ** The free list of descriptors *)

Definition desc_init : DM unit :=
  for_each (seq 0 NQUEUE) (fun i =>
    if (i =? NQUEUE - 1)%nat then mret tt
    else put_desc (Z.of_nat i) (fun d => set_d_next (Z.of_nat i + 1) (set_d_flags VIRTQ_DESC_F_NEXT d))).

Definition alloc_desc : DM Z :=
  q ← gets k_vq;
  if q_nfree q =? 0 then panic else
  let d := q_free_head q in
  x ← get_desc d;
  upd_vq (fun q => with_free (if has_next x then d_next x else q_free_head q) (u16 (q_nfree q - 1)) q);;
  mret d.

(** The loop of [free_desc]; [n] bounds the turns. *)
Fixpoint free_walk (n : nat) (i : Z) : DM Z :=
  upd_vq (fun q => with_free (q_free_head q) (u16 (q_nfree q + 1)) q);;
  x ← get_desc i;
  if has_next x then match n with O => block | S n' => free_walk n' (d_next x) end
  else mret i.
Definition free_desc (n : Z) : DM unit :=
  q ← gets k_vq;
  let empty := q_nfree q =? 0 in
  l ← free_walk NQUEUE n;
  put_desc l (set_d_flags VIRTQ_DESC_F_NEXT);;
  (if (empty : bool) then mret tt else q ← gets k_vq; put_desc l (set_d_next (q_free_head q)));;
  upd_vq (fun q => with_free n (q_nfree q) q).

(** ** Requests *)

(** [virtio_blk_rw] up to [release_spinlock] before the wait; gives [d0]. *)
Definition rw_submit (b : nat) : DM Z :=
  bufs ← gets k_bufs;
  x ← some_or_ub (bufs !! b);
  let write := negb (Z.land (b_flags x) B_DIRTY =? 0) in
  upd_bufs <[b := mkBuf (b_flags x) (b_data x) (b_block_no x) 0]>;;
  upd_hdrs <[b := mkHdr (if write then VIRTIO_BLK_T_OUT else VIRTIO_BLK_T_IN) 0 (b_block_no x)]>;;
  lock_disk;;
  d0 ← alloc_desc;
  put_desc d0 (fun d => set_d_flags VIRTQ_DESC_F_NEXT (set_d_addr (PHdr b) 16 d));;
  d1 ← alloc_desc;
  put_desc d0 (set_d_next d1);;
  put_desc d1 (fun d => set_d_flags VIRTQ_DESC_F_NEXT (set_d_addr (PData b) 512 d));;
  (if write then mret tt else put_desc d1 (fun d => set_d_flags (Z.lor (d_flags d) VIRTQ_DESC_F_WRITE) d));;
  d2 ← alloc_desc;
  put_desc d1 (set_d_next d2);;
  put_desc d2 (fun d => set_d_next 0 (set_d_flags VIRTQ_DESC_F_WRITE (set_d_addr (PStatus (Z.to_nat d0)) 1 d)));;
  upd_vq (fun q => with_avail (u16 (q_avail_idx q + 1)) (<[Z.to_nat (q_avail_idx q mod Z.of_nat NQUEUE) := d0]> (q_avail q)) q);;
  put_info d0 (fun i => mkInfo (i_status i) (i_done i) (Some b));;
  unlock_disk;;
  mret d0.

(** The rest of it, after the wait. *)
Definition rw_finish (d0 : Z) : DM unit :=
  lock_disk;;
  put_info d0 (fun i => mkInfo (i_status i) 0 (i_buf i));;
  free_desc d0;;
  unlock_disk.

Definition post_buf_sem (b : nat) : DM unit :=
  bufs ← gets k_bufs;
  x ← some_or_ub (bufs !! b);
  upd_bufs <[b := mkBuf (b_flags x) (b_data x) (b_block_no x) (b_sem x + 1)]>.

(** The loop of the interrupt handler; [n] bounds the turns. *)
Fixpoint intr_loop (n : nat) : DM unit :=
  q ← gets k_vq;
  if q_last_used q =? q_used_idx q then mret tt else
  match n with
  | O => block
  | S n' =>
      d0 ← some_or_ub (q_used q !! Z.to_nat (q_last_used q mod Z.of_nat NQUEUE));
      i ← get_info d0;
      if negb (i_status i =? 0) then panic else
      b ← some_or_ub (i_buf i);
      post_buf_sem b;;
      put_info d0 (fun i => mkInfo (i_status i) (i_done i) None);;
      upd_vq (fun q => with_last (u16 (q_last_used q + 1)) q);;
      intr_loop n'
  end.
Definition virtio_blk_intr : DM unit := lock_disk;; intr_loop NQUEUE;; unlock_disk.

(** [virtq_init] on the cleared pages. *)
Definition virtq_zero : virtq := mkVq (replicate NQUEUE (mkDesc PNull 0 0 0)) 0 (replicate NQUEUE 0) 0 (replicate NQUEUE 0) 0 (Z.of_nat NQUEUE) 0 (replicate NQUEUE (mkInfo 0 0 None)).
Definition virtq_init : DM unit := upd_vq (fun _ => virtq_zero);; desc_init.

(** [sd_read] and [sd_write]: the buffer that they pass to [virtio_blk_rw]; the
    data of a read is not initialised. *)
Definition sd_read_buf (block_no : Z) (junk : list Z) : Buf := mkBuf 0 junk (u32 (u32 block_no + BLOCKNO_OFFSET)) 0.
Definition sd_write_buf (block_no : Z) (buffer : list Z) : Buf := mkBuf (Z.lor B_DIRTY B_VALID) buffer (u32 (u32 block_no + BLOCKNO_OFFSET)) 0.
