(* ===== verification/VirtioProofs.v ===== *)
(** * The driver of the block device and the device

    The steps of the callers of [virtio_blk_rw], of the interrupt handler and of
    the device; the invariant of the queue. *)

From Stdlib Require Import ZArith Lia.
From stdpp Require Import base tactics numbers gmap list.
From S2P Require Import Prelude FsDefs Virtio.

Local Open Scope Z_scope.

(** ** The driver with its device *)

Abbreviation Disk := (Z -> list Z).
(** The disk with a sector replaced. *)
Definition disk_write (D : Disk) (s : Z) (data : list Z) : Disk := fun s' => if decide (s' = s) then data else D s'.

(** [c_seen]: the entries of the available ring that the device has taken,
    modulo 2^16; [c_taken]: the requests it works on. *)
Record cfg : Type := mkCfg { c_st : dstate; c_seen : Z; c_taken : list Z; c_disk : Disk }.

(** The buffers of the request at the descriptor [h]: header, data, whether the
    device may write the data, and status. *)
Definition request_at (ds : list virtq_desc) (h : Z) : option (nat * nat * bool * nat) :=
  d0 ← ds !! Z.to_nat h;
  if negb (has_next d0) then None else
  d1 ← ds !! Z.to_nat (d_next d0);
  if negb (has_next d1) then None else
  d2 ← ds !! Z.to_nat (d_next d1);
  match d_addr d0, d_addr d1, d_addr d2 with
  | PHdr a, PData b, PStatus i => Some (a, b, negb (Z.land (d_flags d1) VIRTQ_DESC_F_WRITE =? 0), i)
  | _, _, _ => None
  end.

Definition with_sem (f : Z -> Z) (x : Buf) : Buf := mkBuf (b_flags x) (b_data x) (b_block_no x) (f (b_sem x)).
Definition with_data (d : list Z) (x : Buf) : Buf := mkBuf (b_flags x) d (b_block_no x) (b_sem x).
Definition is_write (x : Buf) : bool := negb (Z.land (b_flags x) B_DIRTY =? 0).

(** What callers see. *)
Inductive event : Type :=
  | ECall (b : nat) (write : bool) (sector : Z) (data : list Z)
  | EReturn (b : nat) (data : list Z).

Section device.
(** What the device does for a request: the data it gives, its status and the
    contents after it. *)
Context (serve : virtio_blk_req_hdr -> list Z -> Disk -> list Z * Z * Disk).

Inductive step : cfg -> list event -> cfg -> Prop :=
  | step_call b x s s' d0 seen taken D :
      k_bufs s !! b = None ->
      rw_submit b (mkD (k_lk s) (k_vq s) (<[b := x]> (k_bufs s)) (k_hdrs s) (k_frames s)) = Ret (d0, s') ->
      step (mkCfg s seen taken D) [ECall b (is_write x) (b_block_no x) (b_data x)]
        (mkCfg (mkD (k_lk s') (k_vq s') (k_bufs s') (k_hdrs s') (<[b := d0]> (k_frames s'))) seen taken D)
  | step_take s seen taken D h :
      seen <> q_avail_idx (k_vq s) ->
      q_avail (k_vq s) !! Z.to_nat (seen mod Z.of_nat NQUEUE) = Some h ->
      step (mkCfg s seen taken D) [] (mkCfg s (u16 (seen + 1)) (taken ++ [h]) D)
  | step_serve s seen t1 h t2 D a b wr i hdr x data status D' inf :
      request_at (q_desc (k_vq s)) h = Some (a, b, wr, i) ->
      k_hdrs s !! a = Some hdr -> k_bufs s !! b = Some x -> q_info (k_vq s) !! i = Some inf ->
      serve hdr (b_data x) D = (data, status, D') ->
      step (mkCfg s seen (t1 ++ h :: t2) D) []
        (mkCfg (mkD (k_lk s)
                  (with_info <[i := mkInfo status (i_done inf) (i_buf inf)]>
                     (with_used (u16 (q_used_idx (k_vq s) + 1)) (<[Z.to_nat (q_used_idx (k_vq s) mod Z.of_nat NQUEUE) := h]> (q_used (k_vq s))) (k_vq s)))
                  (<[b := if (wr : bool) then with_data data x else x]> (k_bufs s)) (k_hdrs s) (k_frames s))
           seen (t1 ++ t2) D')
  | step_intr s s' seen taken D :
      virtio_blk_intr s = Ret (tt, s') ->
      step (mkCfg s seen taken D) [] (mkCfg s' seen taken D)
  | step_return b d0 x s s' seen taken D :
      k_frames s !! b = Some d0 -> k_bufs s !! b = Some x -> 0 < b_sem x ->
      rw_finish d0 (mkD (k_lk s) (k_vq s) (<[b := with_sem Z.pred x]> (k_bufs s)) (k_hdrs s) (k_frames s)) = Ret (tt, s') ->
      step (mkCfg s seen taken D) [EReturn b (b_data x)]
        (mkCfg (mkD (k_lk s') (k_vq s') (delete b (k_bufs s')) (delete b (k_hdrs s')) (delete b (k_frames s'))) seen taken D).

Inductive run : cfg -> list event -> cfg -> Prop :=
  | run_nil c : run c [] c
  | run_step c tr c' tr' c'' : run c tr c' -> step c' tr' c'' -> run c (tr ++ tr') c''.
End device.

(** ** The contract: an array of sectors *)

(** Requests that have been called, with their answer once they have taken
    effect. *)
Record acfg : Type := mkA { a_disk : Disk; a_calls : gmap nat (bool * Z * list Z * option (list Z)) }.

Inductive astep : acfg -> list event -> acfg -> Prop :=
  | astep_call D m b w sec data : m !! b = None ->
      astep (mkA D m) [ECall b w sec data] (mkA D (<[b := (w, sec, data, None)]> m))
  | astep_read D m b sec data : m !! b = Some (false, sec, data, None) ->
      astep (mkA D m) [] (mkA D (<[b := (false, sec, data, Some (D sec))]> m))
  | astep_write D m b sec data : m !! b = Some (true, sec, data, None) ->
      astep (mkA D m) [] (mkA (disk_write D sec data) (<[b := (true, sec, data, Some data)]> m))
  | astep_return D m b w sec data ans : m !! b = Some (w, sec, data, Some ans) ->
      astep (mkA D m) [EReturn b ans] (mkA D (delete b m)).
Inductive arun : acfg -> list event -> acfg -> Prop :=
  | arun_nil a : arun a [] a
  | arun_step a tr a' tr' a'' : arun a tr a' -> astep a' tr' a'' -> arun a (tr ++ tr') a''.

(** ** Rules for the queue *)

Section rules.
Context (lk : bool) (ds : list virtq_desc) (ai : Z) (av : list Z) (ui : Z) (us : list Z) (fh nf lu : Z) (inf : list vinfo)
  (bufs : gmap nat Buf) (hdrs : gmap nat virtio_blk_req_hdr) (fr : gmap nat Z).
Abbreviation st ds' ai' av' fh' nf' lu' inf' := (mkD lk (mkVq ds' ai' av' ui us fh' nf' lu' inf') bufs hdrs fr).

Lemma wpp_put_desc i f d (Q : unit -> dstate -> Prop) P : ds !! i = Some d ->
  Q tt (st (<[i := f d]> ds) ai av fh nf lu inf) -> wp_or_panic (put_desc (Z.of_nat i) f) Q P (st ds ai av fh nf lu inf).
Proof. intros Hd HQ. unfold wp_or_panic, put_desc, get_desc, mbind, M_bind, gets, upd_vq, modify. cbn. rewrite Nat2Z.id, Hd. exact HQ. Qed.
Lemma wpp_put_info i f x (Q : unit -> dstate -> Prop) P : inf !! i = Some x ->
  Q tt (st ds ai av fh nf lu (<[i := f x]> inf)) -> wp_or_panic (put_info (Z.of_nat i) f) Q P (st ds ai av fh nf lu inf).
Proof. intros Hd HQ. unfold wp_or_panic, put_info, get_info, mbind, M_bind, gets, upd_vq, modify. cbn. rewrite Nat2Z.id, Hd. exact HQ. Qed.
Lemma wpp_alloc_desc i d (Q : Z -> dstate -> Prop) (P : Prop) : fh = Z.of_nat i -> ds !! i = Some d ->
  (nf = 0 -> P) ->
  (nf <> 0 -> Q fh (st ds ai av (if has_next d then d_next d else fh) (u16 (nf - 1)) lu inf)) ->
  wp_or_panic alloc_desc Q P (st ds ai av fh nf lu inf).
Proof.
  intros Hf Hd HP HQ. unfold wp_or_panic, alloc_desc, get_desc, mbind, M_bind, gets, upd_vq, modify. cbn. destruct (Z.eqb_spec nf 0) as [->|Hn]; [by apply HP|].
  cbn. rewrite Hf, Nat2Z.id, Hd. cbn. rewrite <-Hf. by apply HQ.
Qed.
End rules.

(** ** The invariant *)

(** A request: its buffer and its three descriptors. *)
Record entry : Type := mkE { e_b : nat; e_0 : nat; e_1 : nat; e_2 : nat }.
Definition e_ds (e : entry) : list nat := [e_0 e; e_1 e; e_2 e].
Inductive phase : Type := Wait | Used | Done.

Definition req_desc (w : bool) (e : entry) : list (nat * virtq_desc) :=
  [(e_0 e, mkDesc (PHdr (e_b e)) 16 1 (Z.of_nat (e_1 e))); (e_1 e, mkDesc (PData (e_b e)) 512 (if w then 1 else 3) (Z.of_nat (e_2 e)));
   (e_2 e, mkDesc (PStatus (e_0 e)) 1 2 0)].

Abbreviation calls := (gmap nat (bool * Z * list Z * option (list Z))).
Definition eok (ph : phase) (s : dstate) (m : calls) (e : entry) : Prop := exists x i,
  k_bufs s !! e_b e = Some x /\
  k_hdrs s !! e_b e = Some (mkHdr (if is_write x then VIRTIO_BLK_T_OUT else VIRTIO_BLK_T_IN) 0 (b_block_no x)) /\
  k_frames s !! e_b e = Some (Z.of_nat (e_0 e)) /\
  Forall (fun p => q_desc (k_vq s) !! p.1 = Some p.2) (req_desc (is_write x) e) /\
  q_info (k_vq s) !! e_0 e = Some i /\
  b_sem x = (match ph with Done => 1 | _ => 0 end) /\
  (match ph with Done => True | _ => i_buf i = Some (e_b e) end) /\
  (match ph with Used => i_status i = 0 | _ => True end) /\
  (match ph with
   | Wait => m !! e_b e = Some (is_write x, b_block_no x, b_data x, None)
   | _ => exists d, m !! e_b e = Some (is_write x, b_block_no x, d, Some (b_data x))
   end).

(** The free descriptors from [h] on, up to the last one, which is never taken. *)
Fixpoint linked (ds : list virtq_desc) (h : Z) (l : list nat) : Prop :=
  match l with
  | [] => h = 7
  | x :: l' => h = Z.of_nat x /\ exists d, ds !! x = Some d /\ has_next d = true /\ linked ds (d_next d) l'
  end.

(** The entries of a ring of eight from index [i] on are [hs]. *)
Definition in_ring (r : list Z) (i j : Z) (hs : list entry) : Prop :=
  length r = NQUEUE /\ 0 <= i < 2 ^ 16 /\ j = u16 (i + Z.of_nat (length hs)) /\
  forall k e, hs !! k = Some e -> r !! Z.to_nat ((i + Z.of_nat k) mod 8) = Some (Z.of_nat (e_0 e)).

Record inv (c : cfg) (m : calls) (P T U D : list entry) (l : list nat) : Prop := mkInv {
  inv_lk : k_lk (c_st c) = false;
  inv_len : length (q_desc (k_vq (c_st c))) = NQUEUE /\ length (q_info (k_vq (c_st c))) = NQUEUE;
  inv_link : linked (q_desc (k_vq (c_st c))) (q_free_head (k_vq (c_st c))) l;
  inv_last : exists d, q_desc (k_vq (c_st c)) !! 7%nat = Some d /\ has_next d = false;
  inv_nfree : q_nfree (k_vq (c_st c)) = Z.of_nat (length l) + 1;
  inv_perm : 7%nat :: l ++ concat (e_ds <$> (P ++ T ++ U ++ D)) ≡ₚ seq 0 8;
  inv_bs : NoDup (e_b <$> (P ++ T ++ U ++ D));
  inv_dom : forall b, b ∉ (e_b <$> (P ++ T ++ U ++ D)) -> k_bufs (c_st c) !! b = None /\ k_frames (c_st c) !! b = None /\ m !! b = None;
  inv_P : Forall (eok Wait (c_st c) m) P;
  inv_T : Forall (eok Wait (c_st c) m) T;
  inv_U : Forall (eok Used (c_st c) m) U;
  inv_D : Forall (eok Done (c_st c) m) D;
  inv_avail : in_ring (q_avail (k_vq (c_st c))) (c_seen c) (q_avail_idx (k_vq (c_st c))) P;
  inv_taken : c_taken c = (Z.of_nat ∘ e_0) <$> T;
  inv_used : in_ring (q_used (k_vq (c_st c))) (q_last_used (k_vq (c_st c))) (q_used_idx (k_vq (c_st c))) U }.

(** ** Consequences *)

Lemma e_ds_length es : length (concat (e_ds <$> es)) = (3 * length es)%nat.
Proof. induction es as [|e es IH]; [done|]. cbn [fmap list_fmap concat]. rewrite length_app, IH. cbn [e_ds length]. lia. Qed.
Lemma inv_count c m P T U D l : inv c m P T U D l -> (length l + 3 * length (P ++ T ++ U ++ D) = 7)%nat.
Proof. intros H. apply inv_perm in H. apply Permutation_length in H. cbn [length] in H. rewrite length_app, e_ds_length, length_seq in H. lia. Qed.

(** A request is not affected by what is done elsewhere. *)
Lemma eok_frame ph s s' m m' e : eok ph s m e ->
  k_bufs s' !! e_b e = k_bufs s !! e_b e -> k_hdrs s' !! e_b e = k_hdrs s !! e_b e -> k_frames s' !! e_b e = k_frames s !! e_b e -> m' !! e_b e = m !! e_b e ->
  (forall d, d ∈ e_ds e -> q_desc (k_vq s') !! d = q_desc (k_vq s) !! d) -> q_info (k_vq s') !! e_0 e = q_info (k_vq s) !! e_0 e -> eok ph s' m' e.
Proof.
  intros (x & i & H1 & H2 & H3 & H4 & H5 & H6) E1 E2 E3 E4 E5 E6. exists x, i. rewrite E1, E2, E3, E4, E6. split; [done|]. split; [done|]. split; [done|]. split; [|done].
  eapply Forall_impl; [apply Forall_and; split; [exact H4|]|]. 2: { intros p [Hp He]. rewrite E5 by exact He. exact Hp. }
  unfold req_desc, e_ds. repeat constructor; cbn [fst]; set_solver.
Qed.

(** Where the descriptors are. *)
Lemma perm_nodup (l : list nat) (es : list entry) : 7%nat :: l ++ concat (e_ds <$> es) ≡ₚ seq 0 8 -> NoDup (7%nat :: l ++ concat (e_ds <$> es)).
Proof. intros ->. apply NoDup_seq. Qed.
Lemma perm_lt (l : list nat) (es : list entry) x : 7%nat :: l ++ concat (e_ds <$> es) ≡ₚ seq 0 8 -> x ∈ 7%nat :: l ++ concat (e_ds <$> es) -> (x < 8)%nat.
Proof. intros Hp Hx. rewrite Hp in Hx. apply elem_of_seq in Hx. lia. Qed.
Lemma elem_concat_ds e es d : e ∈ es -> d ∈ e_ds e -> d ∈ concat (e_ds <$> es).
Proof.
  intros He Hd. induction es as [|e' es IH]; [by apply not_elem_of_nil in He|]. cbn [fmap list_fmap concat]. apply elem_of_app. apply elem_of_cons in He as [->|He]; [by left|right; auto].
Qed.

Lemma linked_frame ds ds' h l : linked ds h l -> (forall x, x ∈ l -> ds' !! x = ds !! x) -> linked ds' h l.
Proof.
  revert h. induction l as [|x l IH]; intros h; cbn [linked]; [done|]. intros (-> & d & Hd & Hn & Hl) He. split; [done|]. exists d. rewrite He by left. split; [done|]. split; [done|].
  apply IH; [done|]. intros y Hy. apply He. by right.
Qed.

(** ** Rings *)

Lemma u16_mod8 z : u16 z mod 8 = z mod 8.
Proof. unfold u16. change (2 ^ 16) with (8 * 8192). rewrite Z.rem_mul_r by lia. rewrite Z.mul_comm, Z.mod_add by lia. apply Z.mod_mod. lia. Qed.
Lemma ring_empty r i j hs : in_ring r i j hs -> (length hs < 8)%nat -> i = j <-> hs = [].
Proof.
  intros (_ & Hi & -> & _) Hl. unfold u16. split; [|intros ->; cbn [length Z.of_nat]; rewrite Z.add_0_r, Z.mod_small; lia].
  intros E. destruct hs as [|e hs]; [done|]. exfalso. cbn [length] in *. destruct (decide (i + Z.of_nat (S (length hs)) < 2 ^ 16)).
  - rewrite Z.mod_small in E by lia. lia.
  - rewrite <-(Z_mod_plus_full _ (-1)), Z.mod_small in E by lia. lia.
Qed.
Lemma vring_push r i j hs e : in_ring r i j hs -> (length hs < 8)%nat ->
  in_ring (<[Z.to_nat (j mod Z.of_nat NQUEUE) := Z.of_nat (e_0 e)]> r) i (u16 (j + 1)) (hs ++ [e]).
Proof.
  intros (Hr & Hi & -> & Hk) Hl. change (Z.of_nat NQUEUE) with 8. rewrite u16_mod8. split; [by rewrite length_insert|]. split; [done|]. split.
  - rewrite length_app. cbn [length]. unfold u16. rewrite Zplus_mod_idemp_l. f_equal. lia.
  - intros k e' He. pose proof (Z.mod_pos_bound (i + Z.of_nat (length hs)) 8 ltac:(lia)). destruct (decide (k = length hs)) as [->|Hne].
    + rewrite lookup_app_r, Nat.sub_diag in He by lia. injection He as <-. rewrite list_lookup_insert_eq; [done|]. rewrite Hr. unfold NQUEUE. lia.
    + assert (k < length hs)%nat as Hlt. { apply lookup_lt_Some in He. rewrite length_app in He. cbn in He. lia. }
      rewrite lookup_app_l in He by done. rewrite list_lookup_insert_ne; [by apply Hk|]. pose proof (Z.mod_pos_bound (i + Z.of_nat k) 8 ltac:(lia)).
      intros E%Z2Nat.inj; [|lia|lia]. assert ((Z.of_nat (length hs) - Z.of_nat k) mod 8 = 0) as E0.
      { replace (Z.of_nat (length hs) - Z.of_nat k) with ((i + Z.of_nat (length hs)) - (i + Z.of_nat k)) by lia. rewrite Zminus_mod, E, Z.sub_diag. done. }
      rewrite Z.mod_small in E0 by lia. lia.
Qed.
Lemma vring_pop r i j e hs : in_ring r i j (e :: hs) -> r !! Z.to_nat (i mod Z.of_nat NQUEUE) = Some (Z.of_nat (e_0 e)) /\ in_ring r (u16 (i + 1)) j hs.
Proof.
  intros (Hr & Hi & -> & Hk). split; [rewrite <-(Hk 0%nat e) by done; by rewrite Z.add_0_r|]. split; [done|]. split; [apply u16_range|]. split.
  - cbn [length]. unfold u16. rewrite Zplus_mod_idemp_l. f_equal. lia.
  - intros k e' He. rewrite <-(Hk (S k) e') by done. f_equal. f_equal. rewrite <-Zplus_mod_idemp_l, u16_mod8, Zplus_mod_idemp_l. f_equal. lia.
Qed.
