(* ===== verification/VirtioSteps.v ===== *)
(** * The operations of the driver keep the queue consistent *)

From Stdlib Require Import ZArith Lia.
From stdpp Require Import base tactics numbers gmap list.
From S2P Require Import Prelude FsDefs Virtio VirtioProofs.

Local Open Scope Z_scope.

Ltac vq_simpl := cbn [k_lk k_vq k_bufs k_hdrs k_frames q_desc q_avail_idx q_avail q_used_idx q_used q_free_head q_nfree q_last_used q_info with_desc with_free with_avail with_used with_last with_info c_st c_seen c_taken c_disk] in *.

(** ** The loop of [free_desc] *)

Section walk.
Context (ds : list virtq_desc) (ai : Z) (av : list Z) (ui : Z) (us : list Z) (fh nf lu : Z) (inf : list vinfo)
  (bufs : gmap nat Buf) (hdrs : gmap nat virtio_blk_req_hdr) (fr : gmap nat Z).
Lemma wpp_walk_next n i d (Q : Z -> dstate -> Prop) P : ds !! i = Some d -> has_next d = true ->
  wp_or_panic (free_walk n (d_next d)) Q P (mkD true (mkVq ds ai av ui us fh (u16 (nf + 1)) lu inf) bufs hdrs fr) ->
  wp_or_panic (free_walk (S n) (Z.of_nat i)) Q P (mkD true (mkVq ds ai av ui us fh nf lu inf) bufs hdrs fr).
Proof.
  intros Hd Hn H. cbn [free_walk]. apply wpp_seq. eapply wpp_run; [done|]. apply wpp_seq. eapply wpp_run; [unfold get_desc, mbind, M_bind, gets; cbn; by rewrite Nat2Z.id, Hd|].
  by rewrite Hn.
Qed.
Lemma wpp_walk_end n i d (Q : Z -> dstate -> Prop) P : ds !! i = Some d -> has_next d = false ->
  Q (Z.of_nat i) (mkD true (mkVq ds ai av ui us fh (u16 (nf + 1)) lu inf) bufs hdrs fr) ->
  wp_or_panic (free_walk n (Z.of_nat i)) Q P (mkD true (mkVq ds ai av ui us fh nf lu inf) bufs hdrs fr).
Proof.
  intros Hd Hn H. destruct n; cbn [free_walk]; apply wpp_seq; (eapply wpp_run; [done|]); apply wpp_seq; (eapply wpp_run; [unfold get_desc, mbind, M_bind, gets; cbn; by rewrite Nat2Z.id, Hd|]);
    by rewrite Hn.
Qed.
End walk.

(** ** [virtio_blk_rw] up to the wait *)

Section submit.
Context (ds : list virtq_desc) (ai : Z) (av : list Z) (ui : Z) (us : list Z) (fh nf lu : Z) (inf : list vinfo)
  (bufs : gmap nat Buf) (hdrs : gmap nat virtio_blk_req_hdr) (fr : gmap nat Z).
Abbreviation start := (mkD false (mkVq ds ai av ui us fh nf lu inf) bufs hdrs fr).

Lemma wpp_lock s (Q : unit -> dstate -> Prop) P : k_lk s = false -> Q tt (mkD true (k_vq s) (k_bufs s) (k_hdrs s) (k_frames s)) -> wp_or_panic lock_disk Q P s.
Proof. destruct s. cbn. intros ->. done. Qed.

(** With fewer than three free descriptors it panics. *)
Lemma rw_submit_run b x e l i :
  bufs !! b = Some x -> linked ds fh (e_0 e :: e_1 e :: e_2 e :: l) -> NoDup (e_0 e :: e_1 e :: e_2 e :: l) -> e_b e = b ->
  nf = Z.of_nat (length l) + 4 -> (length l < 5)%nat -> inf !! e_0 e = Some i ->
  wp_or_panic (rw_submit b) (fun d0 s' => d0 = Z.of_nat (e_0 e) /\ exists ds' fh',
     s' = mkD false (mkVq ds' (u16 (ai + 1)) (<[Z.to_nat (ai mod Z.of_nat NQUEUE) := Z.of_nat (e_0 e)]> av) ui us fh' (Z.of_nat (length l) + 1) lu (<[e_0 e := mkInfo (i_status i) (i_done i) (Some b)]> inf))
            (<[b := with_sem (fun _ => 0) x]> bufs) (<[b := mkHdr (if is_write x then VIRTIO_BLK_T_OUT else VIRTIO_BLK_T_IN) 0 (b_block_no x)]> hdrs) fr /\
     linked ds' fh' l /\ Forall (fun p => ds' !! p.1 = Some p.2) (req_desc (is_write x) e) /\ length ds' = length ds /\
     forall d, d ∉ e_ds e -> ds' !! d = ds !! d) False start.
Proof.
  intros Hb (-> & c0 & H0 & N0 & E1 & c1 & H1 & N1 & E2 & c2 & H2 & N2 & Hl) Hnd <- Hnf Hlen Hi.
  assert (e_0 e <> e_1 e /\ e_0 e <> e_2 e /\ e_1 e <> e_2 e /\ (e_0 e ∉ l) /\ (e_1 e ∉ l) /\ (e_2 e ∉ l)) as (N01 & N02 & N12 & L0 & L1 & L2).
  { rewrite !NoDup_cons in Hnd. set_solver. }
  pose proof (lookup_lt_Some _ _ _ H0). pose proof (lookup_lt_Some _ _ _ H1). pose proof (lookup_lt_Some _ _ _ H2).
  unfold rw_submit. apply wpp_seq. eapply wpp_run; [done|]. cbn [k_bufs]. rewrite Hb. cbn [some_or_ub]. apply wpp_seq, wpp_ret. fold (is_write x). cbv zeta.
  apply wpp_seq. eapply wpp_run; [done|]. cbn beta. apply wpp_seq. eapply wpp_run; [done|]. apply wpp_seq. apply wpp_lock; [done|]. cbn [k_vq k_bufs k_hdrs k_frames].
  apply wpp_seq. eapply wpp_alloc_desc; [done|exact H0|lia|intros _]. rewrite N0, E1. apply wpp_seq. eapply wpp_put_desc; [exact H0|].
  apply wpp_seq. eapply wpp_alloc_desc; [done|rewrite list_lookup_insert_ne by done; exact H1|unfold u16; rewrite Z.mod_small by lia; lia|intros _]. rewrite N1, E2.
  apply wpp_seq. eapply wpp_put_desc; [by rewrite list_lookup_insert_eq|]. apply wpp_seq. eapply wpp_put_desc; [rewrite !list_lookup_insert_ne by done; exact H1|].
  set (w := is_write x) in *. apply wpp_seq.
  eapply (wpp_post _ (fun _ s' => s' = mkD true (mkVq (<[e_1 e := mkDesc (PData (e_b e)) 512 (if w then 1 else 3) (d_next c1)]> (<[e_0 e := mkDesc (PHdr (e_b e)) 16 1 (Z.of_nat (e_1 e))]> ds))
            ai av ui us (Z.of_nat (e_2 e)) (Z.of_nat (length l) + 2) lu inf) (<[e_b e := with_sem (fun _ => 0) x]> bufs) (<[e_b e := mkHdr (if w then VIRTIO_BLK_T_OUT else VIRTIO_BLK_T_IN) 0 (b_block_no x)]> hdrs) fr)).
  { replace (u16 (u16 (nf - 1) - 1)) with (Z.of_nat (length l) + 2) by (rewrite (u16_small (nf - 1)), u16_small by lia; lia). destruct w.
    - apply wpp_ret. by rewrite list_insert_insert_eq.
    - eapply wpp_put_desc; [rewrite list_lookup_insert_eq; [done|by rewrite !length_insert]|]. by rewrite !list_insert_insert_eq. }
  intros [] s' ->. apply wpp_seq. eapply wpp_alloc_desc; [done|rewrite !list_lookup_insert_ne by done; exact H2|lia|intros _]. rewrite N2.
  apply wpp_seq. eapply wpp_put_desc; [rewrite list_lookup_insert_eq; [done|by rewrite length_insert]|]. apply wpp_seq. eapply wpp_put_desc; [rewrite !list_lookup_insert_ne by done; exact H2|].
  apply wpp_seq. eapply wpp_run; [done|]. apply wpp_seq. eapply wpp_put_info; [exact Hi|]. apply wpp_seq. eapply wpp_run; [done|]. vq_simpl. apply wpp_ret. split; [done|].
  replace (u16 (Z.of_nat (length l) + 2 - 1)) with (Z.of_nat (length l) + 1) by (rewrite u16_small by lia; lia). rewrite Nat2Z.id, list_insert_insert_eq. eexists _, _. split; [reflexivity|].
  split; [|split; [|split]].
  - apply (linked_frame ds); [exact Hl|]. intros y Hy. rewrite !list_lookup_insert_ne by set_solver. done.
  - repeat constructor; cbn [fst snd].
    + rewrite !list_lookup_insert_ne by done. by rewrite list_lookup_insert_eq.
    + rewrite list_lookup_insert_ne by done. rewrite list_lookup_insert_eq; [done|by rewrite length_insert].
    + rewrite list_lookup_insert_eq; [done|by rewrite !length_insert].
  - by rewrite !length_insert.
  - intros d Hd. unfold e_ds in Hd. rewrite !list_lookup_insert_ne by set_solver. done.
Qed.

(** With two free descriptors left it panics. *)
Lemma rw_submit_panics b x y z d : bufs !! b = Some x -> linked ds fh [y] -> ds !! 7%nat = Some z -> has_next z = false -> ds !! y = Some d -> y <> 7%nat -> nf = 2 ->
  rw_submit b start = Panic.
Proof.
  intros Hb Hf Hz Hzn Hd Hy Hnf.
  assert (wp_or_panic (rw_submit b) (fun _ _ => False) True start) as H; [|unfold wp_or_panic in H; by destruct (rw_submit b start) as [[? ?]| | |]].
  destruct Hf as (-> & d' & Hd' & Hn & E). rewrite Hd in Hd'. injection Hd' as <-. subst nf.
  unfold rw_submit. apply wpp_seq. eapply wpp_run; [done|]. cbn [k_bufs]. rewrite Hb. cbn [some_or_ub]. apply wpp_seq, wpp_ret. cbv zeta.
  apply wpp_seq. eapply wpp_run; [done|]. cbn beta. apply wpp_seq. eapply wpp_run; [done|]. apply wpp_seq. apply wpp_lock; [done|]. vq_simpl.
  apply wpp_seq. eapply wpp_alloc_desc; [done|exact Hd|done|intros _]. rewrite Hn, E. apply wpp_seq. eapply wpp_put_desc; [exact Hd|].
  apply wpp_seq. eapply (wpp_alloc_desc _ _ _ _ _ _ _ _ _ _ _ _ _ 7%nat); [done|rewrite list_lookup_insert_ne by done; exact Hz|done|intros _]. rewrite Hzn.
  pose proof (lookup_lt_Some _ _ _ Hd). apply wpp_seq. eapply wpp_put_desc; [by rewrite list_lookup_insert_eq|].
  apply wpp_seq. eapply (wpp_put_desc _ _ _ _ _ _ _ _ _ _ _ _ _ 7%nat); [rewrite !list_lookup_insert_ne by done; exact Hz|].
  apply wpp_seq. destruct (negb _).
  - apply wpp_ret. apply wpp_seq. eapply (wpp_alloc_desc _ _ _ _ _ _ _ _ _ _ _ _ _ 7%nat); [done|apply list_lookup_insert_eq; rewrite !length_insert; by eapply lookup_lt_Some|done|done].
  - eapply (wpp_put_desc _ _ _ _ _ _ _ _ _ _ _ _ _ 7%nat); [apply list_lookup_insert_eq; rewrite !length_insert; by eapply lookup_lt_Some|].
    apply wpp_seq. eapply (wpp_alloc_desc _ _ _ _ _ _ _ _ _ _ _ _ _ 7%nat); [done|apply list_lookup_insert_eq; rewrite !length_insert; by eapply lookup_lt_Some|done|done].
Qed.

(** ** The rest of it after the wait *)

Lemma rw_finish_run w e l i : linked ds fh l -> NoDup (e_0 e :: e_1 e :: e_2 e :: l) -> Forall (fun p => ds !! p.1 = Some p.2) (req_desc w e) ->
  nf = Z.of_nat (length l) + 1 -> (length l < 5)%nat -> inf !! e_0 e = Some i ->
  exists ds', rw_finish (Z.of_nat (e_0 e)) start =
    Ret (tt, mkD false (mkVq ds' ai av ui us (Z.of_nat (e_0 e)) (Z.of_nat (length l) + 4) lu (<[e_0 e := mkInfo (i_status i) 0 (i_buf i)]> inf)) bufs hdrs fr) /\
    linked ds' (Z.of_nat (e_0 e)) (e_0 e :: e_1 e :: e_2 e :: l) /\ length ds' = length ds /\ forall d, d ∉ e_ds e -> ds' !! d = ds !! d.
Proof.
  intros Hl Hnd Hr Hnf Hlen Hi. unfold req_desc in Hr. rewrite !Forall_cons in Hr. destruct Hr as (H0 & H1 & H2 & _). cbn [fst snd] in H0, H1, H2.
  assert (e_0 e <> e_1 e /\ e_0 e <> e_2 e /\ e_1 e <> e_2 e /\ (e_0 e ∉ l) /\ (e_1 e ∉ l) /\ (e_2 e ∉ l)) as (N01 & N02 & N12 & L0 & L1 & L2).
  { rewrite !NoDup_cons in Hnd. set_solver. }
  pose proof (lookup_lt_Some _ _ _ H2). exists (<[e_2 e := mkDesc (PStatus (e_0 e)) 1 1 fh]> ds). split; [|split; [|split]].
  - assert (has_next (mkDesc (PData (e_b e)) 512 (if w then 1 else 3) (Z.of_nat (e_2 e))) = true) as Hw by by destruct w.
    match goal with |- _ = Ret (tt, ?f) => assert (wp_or_panic (rw_finish (Z.of_nat (e_0 e))) (fun _ s' => s' = f) False start) as Hf end.
    2: { unfold wp_or_panic in Hf. destruct (rw_finish (Z.of_nat (e_0 e)) start) as [[[] s']| | |]; [by rewrite Hf|done..]. }
    unfold rw_finish. apply wpp_seq. apply wpp_lock; [done|]. vq_simpl. apply wpp_seq. eapply wpp_put_info; [exact Hi|]. apply wpp_seq. unfold free_desc. apply wpp_seq. eapply wpp_run; [done|].
    cbv zeta. vq_simpl. rewrite (proj2 (Z.eqb_neq nf 0)) by lia. apply wpp_seq. change NQUEUE with (S (S 6)).
    eapply wpp_walk_next; [exact H0|done|]. cbn [d_next]. eapply wpp_walk_next; [exact H1|done|]. cbn [d_next]. eapply wpp_walk_end; [exact H2|done|].
    apply wpp_seq. eapply wpp_put_desc; [exact H2|]. apply wpp_seq. apply wpp_seq. eapply wpp_run; [done|]. vq_simpl. eapply wpp_put_desc; [by rewrite list_lookup_insert_eq|].
    eapply wpp_run; [done|]. eapply wpp_run; [done|]. vq_simpl. rewrite list_insert_insert_eq.
    rewrite (u16_small (nf + 1)), (u16_small (nf + 1 + 1)), u16_small by lia. replace (nf + 1 + 1 + 1) with (Z.of_nat (length l) + 4) by lia. done.
  - cbn [linked]. split; [done|]. eexists. split; [rewrite list_lookup_insert_ne by done; exact H0|]. split; [done|]. cbn [d_next]. split; [done|].
    eexists. split; [rewrite list_lookup_insert_ne by done; exact H1|]. split; [by destruct w|]. cbn [d_next]. split; [done|]. eexists. split; [by rewrite list_lookup_insert_eq|]. split; [done|].
    cbn [d_next]. apply (linked_frame ds); [done|]. intros y Hy. rewrite list_lookup_insert_ne; [done|]. intros E. by rewrite <-E in Hy.
  - by rewrite length_insert.
  - intros d Hd. rewrite list_lookup_insert_ne; [done|]. unfold e_ds in Hd. set_solver.
Qed.
End submit.

(** ** The invariant does not depend on the order of the requests *)

#[global] Instance concat_ds_perm : Proper ((≡ₚ) ==> (≡ₚ)) (fun es => concat (e_ds <$> es)).
Proof.
  intros es es' H. induction H as [|e es es' _ IH|e e' es|es1 es2 es3 _ IH1 _ IH2]; cbn [fmap list_fmap concat] in *.
  - done.
  - by rewrite IH.
  - rewrite !app_assoc. apply Permutation_app_tail. apply Permutation_app_comm.
  - by rewrite IH1.
Qed.

(** The parts of the invariant that depend on all requests together. *)
Lemma inv_regroup c m l es es' :
  7%nat :: l ++ concat (e_ds <$> es) ≡ₚ seq 0 8 /\ NoDup (e_b <$> es) /\ (forall b, b ∉ (e_b <$> es) -> k_bufs (c_st c) !! b = None /\ k_frames (c_st c) !! b = None /\ (m : calls) !! b = None) -> es ≡ₚ es' ->
  7%nat :: l ++ concat (e_ds <$> es') ≡ₚ seq 0 8 /\ NoDup (e_b <$> es') /\ (forall b, b ∉ (e_b <$> es') -> k_bufs (c_st c) !! b = None /\ k_frames (c_st c) !! b = None /\ m !! b = None).
Proof.
  intros (H1 & H2 & H3) E. split; [by rewrite <-(concat_ds_perm _ _ E)|]. split; [by rewrite <-E|]. intros b Hb. apply H3. by rewrite E.
Qed.

(** Distinct requests share nothing. *)
Lemma entries_disjoint l es e e' : 7%nat :: l ++ concat (e_ds <$> es) ≡ₚ seq 0 8 -> NoDup (e_b <$> es) -> e :: e' :: [] ⊆+ es -> e_b e <> e_b e' /\ (forall d, d ∈ e_ds e -> d ∉ e_ds e') /\ e_0 e <> e_0 e'.
Proof.
  intros Hp Hb [k Hk]%submseteq_Permutation. rewrite Hk in Hb. cbn [fmap list_fmap app] in Hb. apply perm_nodup in Hp. rewrite (concat_ds_perm _ _ Hk) in Hp.
  cbn [fmap list_fmap concat app] in Hp. apply NoDup_cons in Hp as [_ (_ & _ & Hp)%NoDup_app]. apply NoDup_app in Hp as (_ & Hp & _).
  assert (forall d, d ∈ e_ds e -> d ∉ e_ds e') as Hd. { intros d H1 H2. apply (Hp d H1), elem_of_app. by left. }
  split; [|split; [exact Hd|]].
  - intros E. rewrite E in Hb. apply NoDup_cons in Hb as [Hb _]. apply Hb. by left.
  - intros E. apply (Hd (e_0 e)); [left|rewrite E; left].
Qed.

(** ** One request changes, the others do not *)

Lemma entries_others l es e rest e' : 7%nat :: l ++ concat (e_ds <$> es) ≡ₚ seq 0 8 -> NoDup (e_b <$> es) -> es ≡ₚ e :: rest -> e' ∈ rest ->
  e_b e <> e_b e' /\ (forall d, d ∈ e_ds e -> d ∉ e_ds e') /\ e_0 e <> e_0 e'.
Proof.
  intros Hp Hb He Hin. eapply entries_disjoint; [exact Hp|exact Hb|]. rewrite He. apply submseteq_skip. by apply singleton_submseteq_l.
Qed.

Lemma request_at_eok ph s m e : eok ph s m e -> exists x, k_bufs s !! e_b e = Some x /\
  request_at (q_desc (k_vq s)) (Z.of_nat (e_0 e)) = Some (e_b e, e_b e, negb (is_write x), e_0 e).
Proof.
  intros (x & i & H1 & _ & _ & H4 & _). exists x. split; [done|]. unfold req_desc in H4. rewrite !Forall_cons in H4. destruct H4 as (D0 & D1 & D2 & _). cbn [fst snd] in *.
  unfold request_at. rewrite Nat2Z.id, D0. cbn. rewrite Nat2Z.id, D1. cbn. destruct (is_write x); cbn; rewrite Nat2Z.id, D2; done.
Qed.

(** The device takes a request. *)
Lemma take_inv s seen taken D h m P T U Dn l : inv (mkCfg s seen taken D) m P T U Dn l -> seen <> q_avail_idx (k_vq s) -> q_avail (k_vq s) !! Z.to_nat (seen mod Z.of_nat NQUEUE) = Some h ->
  exists e P', P = e :: P' /\ inv (mkCfg s (u16 (seen + 1)) (taken ++ [h]) D) m P' (T ++ [e]) U Dn l.
Proof.
  intros H Hne Hh. pose proof (inv_count _ _ _ _ _ _ _ H) as Hc. rewrite !length_app in Hc. destruct H as [H1 H2 H3 H4 H5 H6 H7 H8 H9 H10 H11 H12 H13 H14 H15]. vq_simpl.
  destruct P as [|e P]. { exfalso. apply Hne. apply (ring_empty _ _ _ _ H13); [cbn; lia|done]. }
  exists e, P. split; [done|]. apply vring_pop in H13 as [Hr H13]. rewrite Hh in Hr. injection Hr as ->.
  destruct (inv_regroup (mkCfg s seen taken D) m l _ (P ++ (T ++ [e]) ++ U ++ Dn) (conj H6 (conj H7 H8))) as (H6' & H7' & H8'); [cbn [app]; rewrite <-!app_assoc; cbn [app]; solve_Permutation|].
  apply Forall_cons in H9 as [He H9]. constructor; vq_simpl; try done.
  - apply Forall_app. split; [done|]. by apply Forall_singleton.
  - rewrite fmap_app. by rewrite H14.
Qed.

Section device.
Context (serve : virtio_blk_req_hdr -> list Z -> Disk -> list Z * Z * Disk).
(** The device reads and writes sectors and reports success. *)
Hypothesis serve_in : forall h data D, h_type h = VIRTIO_BLK_T_IN -> serve h data D = (D (h_sector h), VIRTIO_BLK_S_OK, D).
Hypothesis serve_out : forall h data D, h_type h = VIRTIO_BLK_T_OUT -> serve h data D = (data, VIRTIO_BLK_S_OK, disk_write D (h_sector h) data).

(** The effect of a request on the sectors. *)
Lemma serve_inv s seen t1 h t2 D a b wr i hdr x data status D' inf m P T U Dn l :
  inv (mkCfg s seen (t1 ++ h :: t2) D) m P T U Dn l ->
  request_at (q_desc (k_vq s)) h = Some (a, b, wr, i) -> k_hdrs s !! a = Some hdr -> k_bufs s !! b = Some x -> q_info (k_vq s) !! i = Some inf -> serve hdr (b_data x) D = (data, status, D') ->
  exists m' T' e, astep (mkA D m) [] (mkA D' m') /\
  inv (mkCfg (mkD (k_lk s)
                  (with_info <[i := mkInfo status (i_done inf) (i_buf inf)]>
                     (with_used (u16 (q_used_idx (k_vq s) + 1)) (<[Z.to_nat (q_used_idx (k_vq s) mod Z.of_nat NQUEUE) := h]> (q_used (k_vq s))) (k_vq s)))
                  (<[b := if (wr : bool) then with_data data x else x]> (k_bufs s)) (k_hdrs s) (k_frames s))
           seen (t1 ++ t2) D') m' P T' (U ++ [e]) Dn l.
Proof.
  intros H Hreq Hh Hx Hi Hs. pose proof (inv_count _ _ _ _ _ _ _ H) as Hc. rewrite !length_app in Hc. destruct H as [H1 H2 H3 H4 H5 H6 H7 H8 H9 H10 H11 H12 H13 H14 H15]. vq_simpl.
  symmetry in H14. apply fmap_app_inv in H14 as (T1 & T2' & Et1 & Et2 & ->). symmetry in Et2. apply fmap_cons_inv in Et2 as (e & T2 & -> & Et2 & ->). subst t1 t2.
  apply Forall_app in H10 as [HT1 [He HT2]%Forall_cons].
  destruct (request_at_eok _ _ _ _ He) as (x' & Hx' & Er). cbn in Hreq. rewrite Er in Hreq. injection Hreq as <- <- <- <-. rewrite Hx in Hx'. injection Hx' as <-.
  destruct He as (x0 & i0 & B1 & B2 & B3 & B4 & B5 & B6 & B7 & _ & B8). rewrite Hx in B1. injection B1 as <-. rewrite Hh in B2. injection B2 as ->. rewrite Hi in B5. injection B5 as <-.
  set (x1 := if negb (is_write x) then with_data data x else x). assert (P ++ (T1 ++ e :: T2) ++ U ++ Dn ≡ₚ e :: (P ++ T1 ++ T2 ++ U ++ Dn)) as Ee by (change (e :: T2) with ([e] ++ T2); change (e :: P ++ T1 ++ T2 ++ U ++ Dn) with ([e] ++ P ++ T1 ++ T2 ++ U ++ Dn); solve_Permutation).
  assert (is_write x1 = is_write x /\ b_block_no x1 = b_block_no x /\ b_sem x1 = b_sem x) as (X1 & X2 & X3) by (unfold x1; by destruct (negb (is_write x))).
  assert (status = 0 /\ exists m', astep (mkA D m) [] (mkA D' m') /\ m' !! e_b e = Some (is_write x, b_block_no x, b_data x, Some (b_data x1)) /\ forall b, b <> e_b e -> m' !! b = m !! b) as (-> & m' & Hm & Hm1 & Hm2).
  { destruct (is_write x) eqn:Ew; cbn in Hs; unfold x1; cbn [negb].
    - rewrite serve_out in Hs by done. injection Hs as <- <- <-. split; [done|]. eexists. split; [by eapply astep_write|]. split; [by rewrite lookup_insert_eq|]. intros b Hb. by rewrite lookup_insert_ne.
    - rewrite serve_in in Hs by done. injection Hs as <- <- <-. split; [done|]. eexists. split; [by eapply astep_read|]. split; [by rewrite lookup_insert_eq|]. intros b Hb. by rewrite lookup_insert_ne. }
  exists m', (T1 ++ T2), e. split; [done|].
  assert (forall ph L, Forall (eok ph s m) L -> (forall e', e' ∈ L -> e' ∈ P ++ T1 ++ T2 ++ U ++ Dn) -> Forall (eok ph (mkD (k_lk s)
    (with_info <[e_0 e := mkInfo 0 (i_done inf) (i_buf inf)]> (with_used (u16 (q_used_idx (k_vq s) + 1)) (<[Z.to_nat (q_used_idx (k_vq s) mod Z.of_nat NQUEUE) := Z.of_nat (e_0 e)]> (q_used (k_vq s))) (k_vq s)))
    (<[e_b e := x1]> (k_bufs s)) (k_hdrs s) (k_frames s)) m') L) as Hrest.
  { intros ph L HL Hin. rewrite Forall_forall in *. intros e' He'. destruct (entries_others _ _ _ _ e' H6 H7 Ee (Hin _ He')) as (Nb & _ & N0).
    apply (eok_frame ph s _ m); vq_simpl; [by apply HL|by rewrite lookup_insert_ne|done|done|by apply Hm2|done|by rewrite list_lookup_insert_ne]. }
  assert (P ++ (T1 ++ e :: T2) ++ U ++ Dn ≡ₚ P ++ (T1 ++ T2) ++ (U ++ [e]) ++ Dn) as Eg by (change (e :: T2) with ([e] ++ T2); solve_Permutation).
  destruct (inv_regroup (mkCfg s seen [] D) m l _ _ (conj H6 (conj H7 H8)) Eg) as (H6' & H7' & H8').
  constructor; vq_simpl; try done.
  - by rewrite length_insert.
  - intros b Hb. destruct (H8' b Hb) as (A1 & A2 & A3). assert (b <> e_b e) as Hbe. { intros ->. apply Hb. rewrite <-Eg. rewrite Ee. by left. } rewrite lookup_insert_ne by done. by rewrite Hm2.
  - apply Hrest; [done|]. set_solver.
  - apply Hrest; [by apply Forall_app|]. set_solver.
  - apply Forall_app. split; [apply Hrest; [done|set_solver]|]. apply Forall_singleton. pose proof (lookup_lt_Some _ _ _ Hi). exists x1, (mkInfo 0 (i_done inf) (i_buf inf)). vq_simpl.
    rewrite lookup_insert_eq, list_lookup_insert_eq, X1, X2, X3 by done. repeat (split; [done|]). by exists (b_data x).
  - apply Hrest; [done|]. set_solver.
  - by rewrite fmap_app.
  - apply vring_push; [done|]. lia.
Qed.
End device.

(** ** The interrupt handler *)

Abbreviation unlocked s := (mkD false (k_vq s) (k_bufs s) (k_hdrs s) (k_frames s)).
(** A turn of its loop. *)
Lemma intr_turn n s seen taken D m P T e U Dn l : inv (mkCfg (unlocked s) seen taken D) m P T (e :: U) Dn l ->
  exists s', intr_loop (S n) s = intr_loop n s' /\ k_frames s' = k_frames s /\ inv (mkCfg (unlocked s') seen taken D) m P T U (Dn ++ [e]) l.
Proof.
  intros H. pose proof (inv_count _ _ _ _ _ _ _ H) as Hc. rewrite !length_app in Hc. destruct H as [H1 H2 H3 H4 H5 H6 H7 H8 H9 H10 H11 H12 H13 H14 H15]. vq_simpl.
  assert (q_last_used (k_vq s) <> q_used_idx (k_vq s)) as Hne. { intros E. apply (ring_empty _ _ _ _ H15) in E; [done|lia]. }
  apply vring_pop in H15 as [Hr H15]. apply Forall_cons in H11 as [He H11]. destruct He as (x & i & B1 & B2 & B3 & B4 & B5 & B6 & B7 & B8 & B9). vq_simpl.
  destruct s as [lk [ds ai av ui us fh nf lu info] bufs hdrs fr]. vq_simpl.
  exists (mkD lk (mkVq ds ai av ui us fh nf (u16 (lu + 1)) (<[e_0 e := mkInfo (i_status i) (i_done i) None]> info)) (<[e_b e := with_sem Z.succ x]> bufs) hdrs fr). split.
  { cbn [intr_loop]. set (s0 := mkD _ _ _ _ _). rewrite (bind_ret (gets k_vq) _ s0 (k_vq s0) s0) by done. subst s0. vq_simpl. rewrite (proj2 (Z.eqb_neq lu ui)) by done.
    rewrite (bind_ret _ _ _ (Z.of_nat (e_0 e)) (mkD lk (mkVq ds ai av ui us fh nf lu info) bufs hdrs fr)) by (by rewrite Hr).
    rewrite (bind_ret (get_info _) _ _ i (mkD lk (mkVq ds ai av ui us fh nf lu info) bufs hdrs fr)) by (unfold get_info, mbind, M_bind, gets; cbn; by rewrite Nat2Z.id, B5).
    replace (negb (i_status i =? 0)) with false by (by rewrite B8). cbn iota. rewrite B7. rewrite (bind_ret (some_or_ub _) _ _ (e_b e) (mkD lk (mkVq ds ai av ui us fh nf lu info) bufs hdrs fr)) by done.
    rewrite (bind_ret (post_buf_sem _) _ _ tt (mkD lk (mkVq ds ai av ui us fh nf lu info) (<[e_b e := with_sem Z.succ x]> bufs) hdrs fr)) by (unfold post_buf_sem; rewrite (bind_ret _ _ _ bufs (mkD lk (mkVq ds ai av ui us fh nf lu info) bufs hdrs fr)) by done; rewrite B1; done).
    rewrite (bind_ret (put_info _ _) _ _ tt (mkD lk (mkVq ds ai av ui us fh nf lu (<[e_0 e := mkInfo (i_status i) (i_done i) None]> info)) (<[e_b e := with_sem Z.succ x]> bufs) hdrs fr)); [done|].
    unfold put_info, get_info, mbind, M_bind, gets. cbn. by rewrite Nat2Z.id, B5. }
  split; [done|].
  assert (P ++ T ++ (e :: U) ++ Dn ≡ₚ e :: (P ++ T ++ U ++ Dn)) as Ee by (change (e :: U) with ([e] ++ U); change (e :: P ++ T ++ U ++ Dn) with ([e] ++ P ++ T ++ U ++ Dn); solve_Permutation).
  assert (forall ph L, Forall (eok ph (mkD false (mkVq ds ai av ui us fh nf lu info) bufs hdrs fr) m) L -> (forall e', e' ∈ L -> e' ∈ P ++ T ++ U ++ Dn) ->
    Forall (eok ph (mkD false (mkVq ds ai av ui us fh nf (u16 (lu + 1)) (<[e_0 e := mkInfo (i_status i) (i_done i) None]> info)) (<[e_b e := with_sem Z.succ x]> bufs) hdrs fr) m) L) as Hrest.
  { intros ph L HL Hin. rewrite Forall_forall in *. intros e' He'. destruct (entries_others _ _ _ _ e' H6 H7 Ee (Hin _ He')) as (Nb & _ & N0).
    eapply (eok_frame ph); [by apply HL|vq_simpl..]; [by rewrite lookup_insert_ne|done|done|done|done|by rewrite list_lookup_insert_ne]. }
  assert (P ++ T ++ (e :: U) ++ Dn ≡ₚ P ++ T ++ U ++ (Dn ++ [e])) as Eg by (change (e :: U) with ([e] ++ U); solve_Permutation).
  destruct (inv_regroup (mkCfg (mkD false (mkVq ds ai av ui us fh nf lu info) bufs hdrs fr) seen [] D) m l _ _ (conj H6 (conj H7 H8)) Eg) as (H6' & H7' & H8'). vq_simpl.
  constructor; vq_simpl; try done.
  - by rewrite length_insert.
  - intros b Hb. destruct (H8' b Hb) as (A1 & A2 & A3). rewrite lookup_insert_ne; [done|]. intros <-. apply Hb. rewrite <-Eg, Ee. by left.
  - apply Hrest; [done|]. set_solver.
  - apply Hrest; [done|]. set_solver.
  - apply Hrest; [done|]. set_solver.
  - apply Forall_app. split; [apply Hrest; [done|set_solver]|]. apply Forall_singleton. pose proof (lookup_lt_Some _ _ _ B5). exists (with_sem Z.succ x), (mkInfo (i_status i) (i_done i) None). vq_simpl.
    rewrite lookup_insert_eq, list_lookup_insert_eq by done. do 5 (split; [done|]). split; [cbn; lia|]. done.
Qed.

(** All requests that the device has finished are posted. *)
Lemma intr_inv s seen taken D m P T U Dn l : inv (mkCfg s seen taken D) m P T U Dn l ->
  exists s' Dn', virtio_blk_intr s = Ret (tt, s') /\ k_frames s' = k_frames s /\ inv (mkCfg s' seen taken D) m P T [] Dn' l.
Proof.
  intros H. assert (forall n s, (length U <= n)%nat -> inv (mkCfg (unlocked s) seen taken D) m P T U Dn l ->
    exists s' Dn', intr_loop n s = Ret (tt, s') /\ k_frames s' = k_frames s /\ inv (mkCfg (unlocked s') seen taken D) m P T [] Dn' l) as Hloop.
  { clear s H. revert Dn. induction U as [|e U IH]; intros Dn n s Hn H.
    - exists s, Dn. split; [|by split]. pose proof (inv_used _ _ _ _ _ _ _ H) as Hr. vq_simpl. assert (q_last_used (k_vq s) = q_used_idx (k_vq s)) as E by (apply (ring_empty _ _ _ _ Hr); [cbn; lia|done]).
      destruct n; cbn [intr_loop]; unfold mbind, M_bind, gets; rewrite E, Z.eqb_refl; done.
    - destruct n as [|n]; [cbn in Hn; lia|]. destruct (intr_turn n _ _ _ _ _ _ _ _ _ _ _ H) as (s' & -> & <- & H'). apply (IH (Dn ++ [e]) n s'); [cbn in Hn; lia|done]. }
  pose proof (inv_count _ _ _ _ _ _ _ H) as Hc. rewrite !length_app in Hc. pose proof (inv_lk _ _ _ _ _ _ _ H) as Hlk. vq_simpl.
  destruct (Hloop NQUEUE (mkD true (k_vq s) (k_bufs s) (k_hdrs s) (k_frames s))) as (s' & Dn' & Hr & Hfr & H'); [unfold NQUEUE; lia|vq_simpl; destruct s; cbn in Hlk; by subst|].
  exists (unlocked s'), Dn'. split; [|by split]. unfold virtio_blk_intr. rewrite (bind_ret lock_disk _ s tt (mkD true (k_vq s) (k_bufs s) (k_hdrs s) (k_frames s))).
  - by rewrite (bind_ret _ _ _ tt s' Hr).
  - unfold lock_disk, mbind, M_bind, gets. by rewrite Hlk.
Qed.
