(* ===== verification/VirtioProps.v ===== *)
(** * The block device as an array of sectors *)

From Stdlib Require Import ZArith Lia.
From stdpp Require Import base tactics numbers gmap list.
From S2P Require Import Prelude FsDefs Virtio VirtioProofs VirtioSteps.

Local Open Scope Z_scope.

(** A new call: with room for it, it is waiting afterwards; with two calls
    waiting it panics. *)
Lemma call_inv s seen taken D m P T U Dn l b x : inv (mkCfg s seen taken D) m P T U Dn l -> k_bufs s !! b = None ->
  let r := rw_submit b (mkD (k_lk s) (k_vq s) (<[b := x]> (k_bufs s)) (k_hdrs s) (k_frames s)) in
  if decide (length (P ++ T ++ U ++ Dn) < 2)%nat then
    exists d0 s' e l', r = Ret (d0, s') /\
    inv (mkCfg (mkD (k_lk s') (k_vq s') (k_bufs s') (k_hdrs s') (<[b := d0]> (k_frames s'))) seen taken D)
      (<[b := (is_write x, b_block_no x, b_data x, None)]> m) (P ++ [e]) T U Dn l'
  else r = Panic.
Proof.
  intros H Hb. pose proof (inv_count _ _ _ _ _ _ _ H) as Hc. destruct H as [H1 H2 H3 H4 H5 H6 H7 H8 H9 H10 H11 H12 H13 H14 H15]. vq_simpl.
  assert (b ∉ (e_b <$> (P ++ T ++ U ++ Dn))) as Hbn.
  { intros (e & -> & He)%list_elem_of_fmap. rewrite !elem_of_app in He. rewrite Forall_forall in *.
    assert (exists ph, eok ph s m e) as [ph (y & i & Hy & _)] by (destruct He as [?|[?|[?|?]]]; [exists Wait|exists Wait|exists Used|exists Done]; auto). congruence. }
  destruct s as [lk [ds ai av ui us fh nf lu info] bufs hdrs fr]. vq_simpl. subst lk. destruct (decide _) as [Hlt|Hge].
  - destruct l as [|x0 [|x1 [|x2 l]]]; [cbn in Hc; lia..|]. set (e := mkE b x0 x1 x2).
    assert (NoDup (x0 :: x1 :: x2 :: l)) as Hnd by (apply perm_nodup in H6; apply NoDup_cons in H6 as [_ (H6 & _ & _)%NoDup_app]; exact H6).
    assert (x0 < 8)%nat as Hx0 by (apply (perm_lt _ _ x0 H6); right; left).
    destruct (lookup_lt_is_Some_2 info x0) as [i Hi]; [destruct H2 as [_ ->]; exact Hx0|].
    pose proof (rw_submit_run ds ai av ui us fh nf lu info (<[b := x]> bufs) hdrs fr b x e l i ltac:(by rewrite lookup_insert_eq) H3 Hnd eq_refl ltac:(cbn [length] in H5; lia) ltac:(cbn [length] in Hc; lia) Hi) as Hr.
    unfold wp_or_panic in Hr. destruct (rw_submit b _) as [[d0 s']| | |]; [|done..]. destruct Hr as (-> & ds' & fh' & -> & Hl & Hreq & Hlen & Hds).
    eexists (Z.of_nat x0), _, e, l. split; [reflexivity|]. vq_simpl. rewrite insert_insert_eq.
    assert ((P ++ [e]) ++ T ++ U ++ Dn ≡ₚ e :: (P ++ T ++ U ++ Dn)) as Ee by (change (e :: P ++ T ++ U ++ Dn) with ([e] ++ P ++ T ++ U ++ Dn); solve_Permutation).
    assert (7%nat :: l ++ concat (e_ds <$> ((P ++ [e]) ++ T ++ U ++ Dn)) ≡ₚ seq 0 8) as H6'.
    { rewrite <-H6. rewrite (concat_ds_perm _ _ Ee). cbn [fmap list_fmap concat app e_ds e_0 e_1 e_2 e]. apply perm_skip. by rewrite <-!Permutation_middle. }
    assert (NoDup (e_b <$> ((P ++ [e]) ++ T ++ U ++ Dn))) as H7' by (rewrite Ee; cbn [fmap list_fmap e_b e]; by apply NoDup_cons).
    assert (forall ph L, Forall (eok ph (mkD false (mkVq ds ai av ui us fh nf lu info) bufs hdrs fr) m) L -> (forall e', e' ∈ L -> e' ∈ P ++ T ++ U ++ Dn) ->
      Forall (eok ph (mkD false (mkVq ds' (u16 (ai + 1)) (<[Z.to_nat (ai mod Z.of_nat NQUEUE) := Z.of_nat x0]> av) ui us fh' (Z.of_nat (length l) + 1) lu (<[x0 := mkInfo (i_status i) (i_done i) (Some b)]> info))
        (<[b := with_sem (fun _ => 0) x]> bufs) (<[b := mkHdr (if is_write x then VIRTIO_BLK_T_OUT else VIRTIO_BLK_T_IN) 0 (b_block_no x)]> hdrs) (<[b := Z.of_nat x0]> fr))
        (<[b := (is_write x, b_block_no x, b_data x, None)]> m)) L) as Hrest.
    { intros ph L HL Hin. rewrite Forall_forall in *. intros e' He'. destruct (entries_others _ _ _ _ e' H6' H7' Ee (Hin _ He')) as (Nb & Nd & N0). cbn [e_b e_0 e] in Nb, N0.
      eapply (eok_frame ph); [by apply HL|vq_simpl..]; [by rewrite lookup_insert_ne..| |by rewrite list_lookup_insert_ne]. intros d Hd. apply Hds. intros Hd'. by apply (Nd d). }
    constructor; vq_simpl; try done.
    + rewrite length_insert. split; [rewrite Hlen|]; by apply H2.
    + destruct H4 as (d & Hd & Hn). exists d. split; [|done]. rewrite Hds; [done|]. intros Hin. apply perm_nodup in H6'. apply NoDup_cons in H6' as [H6' _]. apply H6', elem_of_app. right.
      eapply elem_concat_ds; [|exact Hin]. rewrite Ee. by left.
    + intros b' Hb'. rewrite Ee in Hb'. cbn [fmap list_fmap e_b e] in Hb'. apply not_elem_of_cons in Hb' as [Hne Hb']. rewrite !lookup_insert_ne by done. by apply H8.
    + apply Forall_app. split; [apply Hrest; [done|set_solver]|]. apply Forall_singleton. exists (with_sem (fun _ => 0) x), (mkInfo (i_status i) (i_done i) (Some b)). vq_simpl. cbn [e_b e_0 e].
      rewrite !lookup_insert_eq, list_lookup_insert_eq by (by eapply lookup_lt_Some). done.
    + apply Hrest; [done|]. set_solver.
    + apply Hrest; [done|]. set_solver.
    + apply Hrest; [done|]. set_solver.
    + apply (vring_push _ _ _ _ e H13). rewrite length_app in Hlt. lia.
  - destruct l as [|y [|y' l]]; [cbn in Hc; lia| |cbn in Hc; lia]. destruct H4 as (z & Hz & Hzn). assert (NoDup [7%nat; y]) as Hnd.
    { apply perm_nodup in H6. rewrite NoDup_cons in H6. destruct H6 as [H6 _]. apply NoDup_cons. split; [|apply NoDup_singleton]. intros E7%list_elem_of_singleton. apply H6, elem_of_app. left. by apply list_elem_of_singleton. }
    destruct H3 as (E & d & Hd & Hn & E7). apply (rw_submit_panics ds ai av ui us fh nf lu info _ hdrs fr b x y z d); [by rewrite lookup_insert_eq| |done|done|done| |done].
    + cbn [linked]. split; [done|]. exists d. done.
    + intros ->. apply NoDup_cons in Hnd as [Hnd _]. apply Hnd. by left.
Qed.

(** A call returns with the answer of its request. *)
Lemma return_inv s seen taken D m P T U Dn l b d0 x : inv (mkCfg s seen taken D) m P T U Dn l -> k_frames s !! b = Some d0 -> k_bufs s !! b = Some x -> 0 < b_sem x ->
  exists s' Dn' l', rw_finish d0 (mkD (k_lk s) (k_vq s) (<[b := with_sem Z.pred x]> (k_bufs s)) (k_hdrs s) (k_frames s)) = Ret (tt, s') /\
    astep (mkA D m) [EReturn b (b_data x)] (mkA D (delete b m)) /\
    inv (mkCfg (mkD (k_lk s') (k_vq s') (delete b (k_bufs s')) (delete b (k_hdrs s')) (delete b (k_frames s'))) seen taken D) (delete b m) P T U Dn' l'.
Proof.
  intros H Hf Hx Hsem. pose proof (inv_count _ _ _ _ _ _ _ H) as Hc. destruct H as [H1 H2 H3 H4 H5 H6 H7 H8 H9 H10 H11 H12 H13 H14 H15]. vq_simpl.
  assert (b ∈ (e_b <$> (P ++ T ++ U ++ Dn))) as Hb. { destruct (decide (b ∈ (e_b <$> (P ++ T ++ U ++ Dn)))) as [|Hn]; [done|]. destruct (H8 b Hn) as [E _]. congruence. }
  apply list_elem_of_fmap in Hb as (e & -> & He). assert (e ∈ Dn) as HeD.
  { rewrite !elem_of_app in He. rewrite Forall_forall in *. destruct He as [He|[He|[He|He]]]; [apply H9 in He|apply H10 in He|apply H11 in He|done];
      destruct He as (y & i & B1 & _ & _ & _ & _ & B6 & _); rewrite Hx in B1; injection B1 as <-; lia. }
  apply list_elem_of_split in HeD as (D1 & D2 & ->). apply Forall_app in H12 as [HD1 [Hok HD2]%Forall_cons].
  destruct Hok as (y & i & B1 & B2 & B3 & B4 & B5 & B6 & _ & _ & dat & B9). rewrite Hx in B1. injection B1 as <-. rewrite Hf in B3. injection B3 as ->.
  assert (P ++ T ++ U ++ (D1 ++ e :: D2) ≡ₚ e :: (P ++ T ++ U ++ D1 ++ D2)) as Ee by (change (e :: D2) with ([e] ++ D2); change (e :: P ++ T ++ U ++ D1 ++ D2) with ([e] ++ P ++ T ++ U ++ D1 ++ D2); solve_Permutation).
  assert (7%nat :: (e_0 e :: e_1 e :: e_2 e :: l) ++ concat (e_ds <$> (P ++ T ++ U ++ D1 ++ D2)) ≡ₚ seq 0 8) as H6'.
  { rewrite <-H6. rewrite (concat_ds_perm _ _ Ee). cbn [fmap list_fmap concat app e_ds]. apply perm_skip. by rewrite <-!Permutation_middle. }
  assert (NoDup (e_0 e :: e_1 e :: e_2 e :: l)) as Hnd by (apply perm_nodup in H6'; apply NoDup_cons in H6' as [_ (H6' & _ & _)%NoDup_app]; exact H6').
  assert (length l < 5)%nat as Hl5 by (rewrite Ee in Hc; cbn [length] in Hc; lia).
  destruct s as [lk [ds ai av ui us fh nf lu info] bufs hdrs fr]. vq_simpl. subst lk.
  destruct (rw_finish_run ds ai av ui us fh nf lu info (<[e_b e := with_sem Z.pred x]> bufs) hdrs fr _ e l i H3 Hnd B4 H5 Hl5 B5) as (ds' & Hr & Hl & Hlen & Hds).
  eexists _, (D1 ++ D2), (e_0 e :: e_1 e :: e_2 e :: l). split; [exact Hr|]. split; [by eapply astep_return|]. vq_simpl. rewrite delete_insert_eq.
  assert (forall ph L, Forall (eok ph (mkD false (mkVq ds ai av ui us fh nf lu info) bufs hdrs fr) m) L -> (forall e', e' ∈ L -> e' ∈ P ++ T ++ U ++ D1 ++ D2) ->
    Forall (eok ph (mkD false (mkVq ds' ai av ui us (Z.of_nat (e_0 e)) (Z.of_nat (length l) + 4) lu (<[e_0 e := mkInfo (i_status i) 0 (i_buf i)]> info)) (delete (e_b e) bufs) (delete (e_b e) hdrs) (delete (e_b e) fr)) (delete (e_b e) m)) L) as Hrest.
  { intros ph L HL Hin. rewrite Forall_forall in *. intros e' He'. destruct (entries_others _ _ _ _ e' H6 H7 Ee (Hin _ He')) as (Nb & Nd & N0).
    eapply (eok_frame ph); [by apply HL|vq_simpl..]; [by rewrite lookup_delete_ne..| |by rewrite list_lookup_insert_ne]. intros d Hd. apply Hds. intros Hd'. by apply (Nd d). }
  constructor; vq_simpl; try done.
  - rewrite length_insert. split; [rewrite Hlen|]; by apply H2.
  - destruct H4 as (d & Hd & Hn). exists d. split; [|done]. rewrite Hds; [done|]. intros Hin. apply perm_nodup in H6. apply NoDup_cons in H6 as [H6 _]. apply H6, elem_of_app. right.
    eapply elem_concat_ds; [|exact Hin]. rewrite Ee. by left.
  - cbn [length]. lia.
  - rewrite Ee in H7. by apply NoDup_cons in H7 as [_ H7].
  - intros b Hb. destruct (decide (b = e_b e)) as [->|Hne]; [by rewrite !lookup_delete_eq|]. rewrite !lookup_delete_ne by done. apply H8. rewrite Ee. cbn [fmap list_fmap]. by apply not_elem_of_cons.
  - apply Hrest; [done|]. set_solver.
  - apply Hrest; [done|]. set_solver.
  - apply Hrest; [done|]. set_solver.
  - apply Hrest; [by apply Forall_app|]. set_solver.
Qed.

(** ** The start *)

Definition dstate0 : dstate := mkD false virtq_zero ∅ ∅ ∅.
(** After [virtq_init]. *)
Definition dstate1 : dstate := Eval vm_compute in match virtq_init dstate0 with Ret (_, s) => s | _ => dstate0 end.
Lemma virtq_init_run : virtq_init dstate0 = Ret (tt, dstate1).
Proof. vm_compute. reflexivity. Qed.
Lemma init_inv D : inv (mkCfg dstate1 0 [] D) ∅ [] [] [] [] (seq 0 7).
Proof.
  constructor; try done.
  - repeat (split; [reflexivity|]; eexists; split; [reflexivity|]; split; [reflexivity|]). reflexivity.
  - eexists. split; [reflexivity|done].
  - cbn [fmap list_fmap concat app]. rewrite app_nil_r. exact (Permutation_cons_append (seq 0 7) 7%nat).
  - apply NoDup_nil_2.
Qed.

(** ** What holds after any run *)

(** The device is a parameter that answers every request with success; what the
    handler does with another status is in [intr_bad_status]. *)
Section device.
Context (serve : virtio_blk_req_hdr -> list Z -> Disk -> list Z * Z * Disk).
Hypothesis serve_in : forall h data D, h_type h = VIRTIO_BLK_T_IN -> serve h data D = (D (h_sector h), VIRTIO_BLK_S_OK, D).
Hypothesis serve_out : forall h data D, h_type h = VIRTIO_BLK_T_OUT -> serve h data D = (data, VIRTIO_BLK_S_OK, disk_write D (h_sector h) data).

Lemma step_inv c tr c' m P T U Dn l : inv c m P T U Dn l -> step serve c tr c' ->
  exists m' P' T' U' Dn' l', inv c' m' P' T' U' Dn' l' /\ (astep (mkA (c_disk c) m) tr (mkA (c_disk c') m') \/ (tr = [] /\ c_disk c' = c_disk c /\ m' = m)).
Proof.
  intros H Hst. destruct Hst as [b x s s' d0 seen taken D Hb Hr|s seen taken D h Hne Hh|s seen t1 h t2 D a b wr i hdr x data status D' inf Hreq Hh Hx Hi Hs|s s' seen taken D Hr|b d0 x s s' seen taken D Hf Hx Hsem Hr].
  - pose proof (call_inv _ _ _ _ _ _ _ _ _ _ b x H Hb) as Hc. cbv zeta in Hc. rewrite Hr in Hc. destruct (decide _); [|done]. destruct Hc as (d0' & s'' & e & l' & [= <- <-] & Hi).
    eexists _, _, _, _, _, _. split; [exact Hi|]. left. apply astep_call. apply (inv_dom _ _ _ _ _ _ _ H). intros (e' & -> & He)%list_elem_of_fmap.
    assert (exists ph, eok ph s m e') as [ph (y & i & Hy & _)].
    { destruct H as [_ _ _ _ _ _ _ _ H9 H10 H11 H12 _ _ _]. vq_simpl. rewrite !elem_of_app in He. rewrite Forall_forall in *. destruct He as [?|[?|[?|?]]]; [exists Wait|exists Wait|exists Used|exists Done]; auto. }
    congruence.
  - destruct (take_inv _ _ _ _ _ _ _ _ _ _ _ H Hne Hh) as (e & P' & -> & Hi). eexists _, _, _, _, _, _. split; [exact Hi|]. by right.
  - destruct (serve_inv serve serve_in serve_out _ _ _ _ _ _ _ _ _ _ _ _ _ _ _ _ _ _ _ _ _ _ H Hreq Hh Hx Hi Hs) as (m' & T' & e & Ha & Hi'). eexists _, _, _, _, _, _. split; [exact Hi'|]. by left.
  - destruct (intr_inv _ _ _ _ _ _ _ _ _ _ H) as (s'' & Dn' & Hr' & _ & Hi). rewrite Hr in Hr'. injection Hr' as <-. eexists _, _, _, _, _, _. split; [exact Hi|]. by right.
  - destruct (return_inv _ _ _ _ _ _ _ _ _ _ _ _ _ H Hf Hx Hsem) as (s'' & Dn' & l' & Hr' & Ha & Hi). rewrite Hr in Hr'. injection Hr' as <-. eexists _, _, _, _, _, _. split; [exact Hi|]. by left.
Qed.

Lemma run_inv D tr c : run serve (mkCfg dstate1 0 [] D) tr c -> exists m P T U Dn l, inv c m P T U Dn l /\ arun (mkA D ∅) tr (mkA (c_disk c) m).
Proof.
  intros H. remember (mkCfg dstate1 0 [] D) as c0 eqn:E0. induction H as [c|c tr c' tr' c'' _ IH Hst].
  - subst c. exists ∅, [], [], [], [], (seq 0 7). split; [apply init_inv|]. constructor.
  - destruct (IH E0) as (m & P & T & U & Dn & l & Hi & Ha). destruct (step_inv _ _ _ _ _ _ _ _ _ Hi Hst) as (m' & P' & T' & U' & Dn' & l' & Hi' & Hs).
    exists m', P', T', U', Dn', l'. split; [done|]. destruct Hs as [Hs|(-> & E & ->)]; [by eapply arun_step|]. rewrite app_nil_r, E. done.
Qed.

(** C37: the driver and a device that serves every request and reports success implement an array of sectors: whatever the interleaving of calls, device and
    interrupts, the calls and returns that callers of [virtio_blk_rw] see are
    those of a run in which each request takes effect at one moment between its
    call and its return, a read returning the sector and a write replacing it. *)
Theorem virtio_linearizable D tr c : run serve (mkCfg dstate1 0 [] D) tr c -> exists a, arun (mkA D ∅) tr a /\ a_disk a = c_disk c.
Proof. intros (m & P & T & U & Dn & l & _ & Ha)%run_inv. by exists (mkA (c_disk c) m). Qed.

Lemma frames_size s seen taken D m P T U Dn l : inv (mkCfg s seen taken D) m P T U Dn l -> size (k_frames s) = length (P ++ T ++ U ++ Dn).
Proof.
  intros H. rewrite <-(length_fmap e_b), <-(size_list_to_set (C := gset nat)) by apply (inv_bs _ _ _ _ _ _ _ H). rewrite <-(size_dom (D := gset nat)). f_equal. apply set_eq. intros b.
  rewrite elem_of_dom, elem_of_list_to_set. split.
  - intros [d0 Hd]. destruct (decide (b ∈ (e_b <$> (P ++ T ++ U ++ Dn)))) as [|Hn]; [done|]. destruct (inv_dom _ _ _ _ _ _ _ H b Hn) as (_ & E & _). vq_simpl. congruence.
  - intros (e & -> & He)%list_elem_of_fmap. destruct H as [_ _ _ _ _ _ _ _ H9 H10 H11 H12 _ _ _]. vq_simpl. rewrite !elem_of_app in He. rewrite Forall_forall in *.
    destruct He as [He|[He|[He|He]]]; [apply H9 in He|apply H10 in He|apply H11 in He|apply H12 in He]; destruct He as (y & i & _ & _ & B3 & _); by rewrite B3.
Qed.

(** C38: [virtio_blk_rw] takes three descriptors of eight per request: after any run with such a device, with fewer than two calls waiting a further one
    is submitted, and with two calls waiting the third stops the kernel. *)
Theorem third_request_panics D tr c b x : run serve (mkCfg dstate1 0 [] D) tr c -> k_bufs (c_st c) !! b = None ->
  let s := c_st c in
  let r := rw_submit b (mkD (k_lk s) (k_vq s) (<[b := x]> (k_bufs s)) (k_hdrs s) (k_frames s)) in
  (size (k_frames s) <= 2)%nat /\ (if decide (size (k_frames s) < 2)%nat then exists d0 s', r = Ret (d0, s') else r = Panic).
Proof.
  intros (m & P & T & U & Dn & l & H & _)%run_inv Hb. destruct c as [s seen taken D']. pose proof (inv_count _ _ _ _ _ _ _ H) as Hc. cbv zeta. cbn [c_st] in *. rewrite (frames_size _ _ _ _ _ _ _ _ _ _ H).
  pose proof (call_inv _ _ _ _ _ _ _ _ _ _ b x H Hb) as Hr. cbv zeta in Hr. split; [lia|]. destruct (decide _); [|done]. destruct Hr as (d0 & s' & _ & _ & Hr & _). by exists d0, s'.
Qed.

(** The test of the status comes before anything else is done for the request. *)
Lemma intr_bad_status s d0 i : k_lk s = false -> q_last_used (k_vq s) <> q_used_idx (k_vq s) -> q_used (k_vq s) !! Z.to_nat (q_last_used (k_vq s) mod Z.of_nat NQUEUE) = Some d0 ->
  q_info (k_vq s) !! Z.to_nat d0 = Some i -> i_status i <> VIRTIO_BLK_S_OK -> virtio_blk_intr s = Panic.
Proof.
  intros Hl Hne Hu Hi Hs. apply Z.eqb_neq in Hne, Hs. change VIRTIO_BLK_S_OK with 0 in Hs. 
  unfold virtio_blk_intr. change (intr_loop NQUEUE) with (intr_loop (S 7)). cbn [intr_loop].
  unfold lock_disk, get_info, some_or_ub, mbind, M_bind, gets, modify. rewrite Hl. vq_simpl. rewrite Hne, Hu.
  cbn. rewrite Hi. cbn. by rewrite Hs.
Qed.

(** C39: with a device that reports success for every request, as [serve] does, the interrupt handler returns after
    any run, and once the device has finished every request it has woken every
    caller; a caller that was woken finishes without panic.  With any device, and
    in any state in which the lock is free, the handler stops the kernel when the
    next request that the device has used has a status that is not success. *)
Theorem intr_wakes_callers D tr c : run serve (mkCfg dstate1 0 [] D) tr c ->
  (exists s', virtio_blk_intr (c_st c) = Ret (tt, s') /\ k_frames s' = k_frames (c_st c) /\
     (c_seen c = q_avail_idx (k_vq (c_st c)) -> c_taken c = [] -> forall b d0, k_frames s' !! b = Some d0 -> exists x, k_bufs s' !! b = Some x /\ b_sem x = 1)) /\
  (forall b d0 x, k_frames (c_st c) !! b = Some d0 -> k_bufs (c_st c) !! b = Some x -> 0 < b_sem x ->
     exists s', rw_finish d0 (mkD (k_lk (c_st c)) (k_vq (c_st c)) (<[b := with_sem Z.pred x]> (k_bufs (c_st c))) (k_hdrs (c_st c)) (k_frames (c_st c))) = Ret (tt, s')) /\
  (forall s d0 i, k_lk s = false -> q_last_used (k_vq s) <> q_used_idx (k_vq s) -> q_used (k_vq s) !! Z.to_nat (q_last_used (k_vq s) mod Z.of_nat NQUEUE) = Some d0 ->
     q_info (k_vq s) !! Z.to_nat d0 = Some i -> i_status i <> VIRTIO_BLK_S_OK -> virtio_blk_intr s = Panic).
Proof.
  intros (m & P & T & U & Dn & l & H & _)%run_inv. destruct c as [s seen taken D']. pose proof (inv_count _ _ _ _ _ _ _ H) as Hc. rewrite !length_app in Hc. cbn [c_st c_seen c_taken] in *. split; [|split].
  - destruct (intr_inv _ _ _ _ _ _ _ _ _ _ H) as (s' & Dn' & Hr & Hfr & H'). exists s'. split; [done|]. split; [done|]. intros Hs -> b d0 Hb.
    assert (P = []) as -> by (apply (ring_empty _ _ _ _ (inv_avail _ _ _ _ _ _ _ H)); [lia|done]).
    assert (T = []) as ->. { pose proof (inv_taken _ _ _ _ _ _ _ H) as E. vq_simpl. by destruct T. }
    assert (b ∈ (e_b <$> Dn')) as Hin. { destruct (decide (b ∈ (e_b <$> Dn'))) as [|Hn]; [done|]. destruct (inv_dom _ _ _ _ _ _ _ H' b Hn) as (_ & E & _). vq_simpl. congruence. }
    apply list_elem_of_fmap in Hin as (e & -> & He). pose proof (inv_D _ _ _ _ _ _ _ H') as HD. rewrite Forall_forall in HD. destruct (HD e He) as (x & i & B1 & _ & _ & _ & _ & B6 & _). vq_simpl.
    exists x. done.
  - intros b d0 x Hf Hx Hsem. destruct (return_inv _ _ _ _ _ _ _ _ _ _ _ _ _ H Hf Hx Hsem) as (s' & _ & _ & Hr & _). by exists s'.
  - intros s0 d0 i. apply intr_bad_status.
Qed.
End device.

(** ** A read of a block *)

Definition serve_array (h : virtio_blk_req_hdr) (data : list Z) (D : Disk) : list Z * Z * Disk :=
  if h_type h =? VIRTIO_BLK_T_IN then (D (h_sector h), VIRTIO_BLK_S_OK, D) else (data, VIRTIO_BLK_S_OK, disk_write D (h_sector h) data).
Lemma serve_array_in h data D : h_type h = VIRTIO_BLK_T_IN -> serve_array h data D = (D (h_sector h), VIRTIO_BLK_S_OK, D).
Proof. unfold serve_array. by intros ->. Qed.
Lemma serve_array_out h data D : h_type h = VIRTIO_BLK_T_OUT -> serve_array h data D = (data, VIRTIO_BLK_S_OK, disk_write D (h_sector h) data).
Proof. unfold serve_array. by intros ->. Qed.

Definition submitted (b : nat) (x : Buf) (s : dstate) : dstate :=
  match rw_submit b (mkD (k_lk s) (k_vq s) (<[b := x]> (k_bufs s)) (k_hdrs s) (k_frames s)) with
  | Ret (d0, s') => mkD (k_lk s') (k_vq s') (k_bufs s') (k_hdrs s') (<[b := d0]> (k_frames s'))
  | _ => s
  end.
Definition demo_disk : Disk := fun s => [s; 17].
Definition demo_read : Buf := sd_read_buf 3 [].
(** One call, two calls. *)
Definition demo1 : dstate := Eval vm_compute in submitted 0 demo_read dstate1.
Definition demo2 : dstate := Eval vm_compute in submitted 1 demo_read demo1.

Lemma demo_run1 : run serve_array (mkCfg dstate1 0 [] demo_disk) [ECall 0 false 133123 []] (mkCfg demo1 0 [] demo_disk).
Proof.
  eapply (run_step _ _ [] _ [_]); [constructor|].
  assert (rw_submit 0 (mkD (k_lk dstate1) (k_vq dstate1) (<[0%nat := demo_read]> (k_bufs dstate1)) (k_hdrs dstate1) (k_frames dstate1)) = Ret (0, mkD false (k_vq demo1) (k_bufs demo1) (k_hdrs demo1) ∅)) as E by (vm_compute; reflexivity).
  exact (step_call serve_array 0 demo_read dstate1 _ 0 0 [] demo_disk eq_refl E).
Qed.
Lemma demo_run2 : run serve_array (mkCfg dstate1 0 [] demo_disk) [ECall 0 false 133123 []; ECall 1 false 133123 []] (mkCfg demo2 0 [] demo_disk).
Proof.
  eapply (run_step _ _ [_] _ [_]); [exact demo_run1|].
  assert (rw_submit 1 (mkD (k_lk demo1) (k_vq demo1) (<[1%nat := demo_read]> (k_bufs demo1)) (k_hdrs demo1) (k_frames demo1)) = Ret (3, mkD false (k_vq demo2) (k_bufs demo2) (k_hdrs demo2) (k_frames demo1))) as E by (vm_compute; reflexivity).
  exact (step_call serve_array 1 demo_read demo1 _ 3 0 [] demo_disk eq_refl E).
Qed.

Lemma third_request_panics_witness : (size (k_frames demo2) <= 2)%nat /\
  rw_submit 2 (mkD (k_lk demo2) (k_vq demo2) (<[2%nat := demo_read]> (k_bufs demo2)) (k_hdrs demo2) (k_frames demo2)) = Panic.
Proof.
  pose proof (third_request_panics serve_array serve_array_in serve_array_out demo_disk _ _ 2 demo_read demo_run2 eq_refl) as H. exact H.
Defined.

(** The device answers and the handler wakes the caller. *)
Definition demo_answer : list Z := [133123; 17].
Definition demo3 : dstate := Eval vm_compute in
  mkD (k_lk demo1)
    (with_info <[0%nat := mkInfo 0 0 (Some 0%nat)]> (with_used (u16 (q_used_idx (k_vq demo1) + 1)) (<[Z.to_nat (q_used_idx (k_vq demo1) mod Z.of_nat NQUEUE) := 0]> (q_used (k_vq demo1))) (k_vq demo1)))
    (<[0%nat := with_data demo_answer (with_sem (fun _ => 0) demo_read)]> (k_bufs demo1)) (k_hdrs demo1) (k_frames demo1).
Definition demo4 : dstate := Eval vm_compute in match virtio_blk_intr demo3 with Ret (_, s) => s | _ => demo3 end.

Lemma demo_run3 : run serve_array (mkCfg dstate1 0 [] demo_disk) [ECall 0 false 133123 []] (mkCfg demo3 1 [] demo_disk).
Proof.
  eapply (run_step _ _ [_] _ []); [eapply (run_step _ _ [_] _ []); [exact demo_run1|exact (step_take serve_array demo1 0 [] demo_disk 0 ltac:(discriminate) eq_refl)]|].
  exact (step_serve serve_array demo1 1 [] 0 [] demo_disk 0 0 true 0 (mkHdr 0 0 133123) (with_sem (fun _ => 0) demo_read) demo_answer 0 demo_disk (mkInfo 0 0 (Some 0%nat)) eq_refl eq_refl eq_refl eq_refl eq_refl).
Qed.
Lemma demo_run4 : run serve_array (mkCfg dstate1 0 [] demo_disk) [ECall 0 false 133123 []] (mkCfg demo4 1 [] demo_disk).
Proof.
  assert (virtio_blk_intr demo3 = Ret (tt, demo4)) as E by (vm_compute; reflexivity).
  eapply (run_step _ _ [_] _ []); [exact demo_run3|exact (step_intr serve_array _ _ _ _ _ E)].
Qed.
Lemma demo_run5 : exists c, run serve_array (mkCfg dstate1 0 [] demo_disk) [ECall 0 false 133123 []; EReturn 0 demo_answer] c.
Proof.
  destruct (rw_finish 0 (mkD (k_lk demo4) (k_vq demo4) (<[0%nat := with_sem Z.pred (with_data demo_answer (with_sem (fun _ => 1) demo_read))]> (k_bufs demo4)) (k_hdrs demo4) (k_frames demo4))) as [[[] s']| | |] eqn:E;
    [|vm_compute in E; discriminate E..].
  eexists. eapply (run_step _ _ [_] _ [_]); [exact demo_run4|].
  exact (step_return serve_array 0 0 (with_data demo_answer (with_sem (fun _ => 1) demo_read)) demo4 s' 1 [] demo_disk eq_refl eq_refl eq_refl E).
Qed.

Lemma virtio_linearizable_witness : exists a, arun (mkA demo_disk ∅) [ECall 0 false 133123 []; EReturn 0 demo_answer] a.
Proof.
  destruct demo_run5 as [c Hr]. destruct (virtio_linearizable serve_array serve_array_in serve_array_out demo_disk _ _ Hr) as (a & Ha & _). exists a. exact Ha.
Defined.
Lemma intr_wakes_callers_witness : exists s' x, virtio_blk_intr demo3 = Ret (tt, s') /\ k_bufs s' !! 0%nat = Some x /\ b_sem x = 1.
Proof.
  destruct (intr_wakes_callers serve_array serve_array_in serve_array_out demo_disk _ _ demo_run3) as [(s' & Hr & Hf & Hw) _].
  destruct (Hw eq_refl eq_refl 0%nat 0) as (x & Hx & Hs); [rewrite Hf; reflexivity|]. exists s', x. repeat split; assumption.
Defined.
