(* ===== verification/VirtioInit.v ===== *)
(** * Setting up the block device: [virtio_init] of [driver/virtio_blk.c]

    The registers of the device are its answer to the writes so far, [reg]; the
    state has the writes, in order, and the disk.  [desc], [avail] and [used] are
    the physical addresses of the pages of the queue. *)

From Stdlib Require Import ZArith Lia.
From stdpp Require Import base tactics numbers gmap list.
From S2P Require Import Prelude FsDefs Virtio VirtioProofs VirtioSteps VirtioProps.

Local Open Scope Z_scope.

(** Offsets of the registers from [VIRTIO0]. *)
Definition VIRTIO_REG_MAGICVALUE : Z := 0.
Definition VIRTIO_REG_VERSION : Z := 4.
Definition VIRTIO_REG_DEVICE_ID : Z := 8.
Definition VIRTIO_REG_DEVICE_FEATURES : Z := 16.
Definition VIRTIO_REG_DEVICE_FEATURES_SEL : Z := 20.
Definition VIRTIO_REG_DRIVER_FEATURES : Z := 32.
Definition VIRTIO_REG_DRIVER_FEATURES_SEL : Z := 36.
Definition VIRTIO_REG_QUEUE_SEL : Z := 48.
Definition VIRTIO_REG_QUEUE_NUM_MAX : Z := 52.
Definition VIRTIO_REG_QUEUE_NUM : Z := 56.
Definition VIRTIO_REG_QUEUE_READY : Z := 68.
Definition VIRTIO_REG_STATUS : Z := 112.
Definition VIRTIO_REG_QUEUE_DESC_LOW : Z := 128.
Definition VIRTIO_REG_QUEUE_DESC_HIGH : Z := 132.
Definition VIRTIO_REG_QUEUE_DRIVER_LOW : Z := 144.
Definition VIRTIO_REG_QUEUE_DRIVER_HIGH : Z := 148.
Definition VIRTIO_REG_QUEUE_DEVICE_LOW : Z := 160.
Definition VIRTIO_REG_QUEUE_DEVICE_HIGH : Z := 164.
Definition VIRTIO_MAGIC : Z := 1953655158.
Definition DEV_STATUS_ACKNOWLEDGE : Z := 1.
Definition DEV_STATUS_DRIVER : Z := 2.
Definition DEV_STATUS_DRIVER_OK : Z := 4.
Definition DEV_STATUS_FEATURES_OK : Z := 8.
(** [VIRTIO_BLK_F_SEG_MAX] to [VIRTIO_RING_F_EVENT_IDX], in the order they are
    cleared. *)
Definition refused_features : list Z := [2; 4; 5; 6; 9; 10; 11; 27; 28; 29].

Record vstate : Type := mkV { v_writes : list (Z * Z); v_disk : dstate }.
Abbreviation VM := (M vstate).

Section init.
Context (reg : list (Z * Z) -> Z -> Z) (desc avail used : Z).

Definition REG (r : Z) : VM Z := s ← gets v_writes; mret (u32 (reg s r)).
Definition SET_REG (r v : Z) : VM unit := modify (fun s => mkV (v_writes s ++ [(r, v)]) (v_disk s)).
Definition LO (a : Z) : Z := u32 a.
Definition HI (a : Z) : Z := u32 (Z.shiftr a 32).

Definition virtio_init : VM unit :=
  m ← REG VIRTIO_REG_MAGICVALUE;
  v ← REG VIRTIO_REG_VERSION;
  d ← REG VIRTIO_REG_DEVICE_ID;
  if negb (m =? VIRTIO_MAGIC) || negb (v =? 2) || negb (d =? 2) then panic else
  SET_REG VIRTIO_REG_STATUS 0;;
  let status := DEV_STATUS_ACKNOWLEDGE in
  SET_REG VIRTIO_REG_STATUS status;;
  let status := Z.lor status DEV_STATUS_DRIVER in
  SET_REG VIRTIO_REG_STATUS status;;
  SET_REG VIRTIO_REG_DEVICE_FEATURES_SEL 0;;
  SET_REG VIRTIO_REG_DRIVER_FEATURES_SEL 0;;
  features ← REG VIRTIO_REG_DEVICE_FEATURES;
  let features := foldl (fun f b => Z.land f (u32 (Z.lnot (Z.shiftl 1 b)))) features refused_features in
  SET_REG VIRTIO_REG_DRIVER_FEATURES features;;
  let status := Z.lor status DEV_STATUS_FEATURES_OK in
  SET_REG VIRTIO_REG_STATUS status;;
  status ← REG VIRTIO_REG_STATUS;
  if Z.land status DEV_STATUS_FEATURES_OK =? 0 then panic else
  zoom v_disk (fun k s => mkV (v_writes s) k) virtq_init;;
  qmax ← REG VIRTIO_REG_QUEUE_NUM_MAX;
  if i32 qmax <? Z.of_nat NQUEUE then panic else
  SET_REG VIRTIO_REG_QUEUE_SEL 0;;
  SET_REG VIRTIO_REG_QUEUE_NUM (Z.of_nat NQUEUE);;
  SET_REG VIRTIO_REG_QUEUE_DESC_LOW (LO desc);;
  SET_REG VIRTIO_REG_QUEUE_DESC_HIGH (HI desc);;
  SET_REG VIRTIO_REG_QUEUE_DRIVER_LOW (LO avail);;
  SET_REG VIRTIO_REG_QUEUE_DRIVER_HIGH (HI avail);;
  SET_REG VIRTIO_REG_QUEUE_DEVICE_LOW (LO used);;
  SET_REG VIRTIO_REG_QUEUE_DEVICE_HIGH (HI used);;
  SET_REG VIRTIO_REG_QUEUE_READY 1;;
  SET_REG VIRTIO_REG_STATUS (Z.lor status DEV_STATUS_DRIVER_OK);;
  zoom v_disk (fun k s => mkV (v_writes s) k) unlock_disk.

(** The features that are accepted are those offered, without the refused ones. *)
Lemma features_masked (f : Z) (l : list Z) i : 0 <= f < 2 ^ 32 -> Forall (fun b => 0 <= b < 32) l -> 0 <= i < 32 ->
  Z.testbit (foldl (fun f b => Z.land f (u32 (Z.lnot (Z.shiftl 1 b)))) f l) i = Z.testbit f i && negb (bool_decide (i ∈ l)).
Proof.
  revert f. induction l as [|b l IH] using rev_ind; intros f Hf Hl Hi; cbn [foldl]; [by rewrite andb_true_r|].
  apply Forall_app in Hl as [Hl [Hb _]%Forall_cons]. rewrite foldl_app. cbn [foldl]. rewrite Z.land_spec, IH by done. rewrite <-andb_assoc. f_equal.
  unfold u32. rewrite Z.mod_pow2_bits_low by lia. rewrite Z.lnot_spec by lia. rewrite Z.shiftl_1_l. rewrite Z.pow2_bits_eqb by lia.
  destruct (Z.eqb_spec b i) as [->|Hne].
  - rewrite andb_false_r. symmetry. apply negb_false_iff, bool_decide_eq_true, elem_of_app. right. left.
  - rewrite andb_true_r. f_equal. apply bool_decide_ext. rewrite elem_of_app, list_elem_of_singleton. naive_solver.
Qed.

(** [virtio_init] hands the device a consistent queue: when it returns, the disk
    is as [virtq_init] leaves it, the device was given eight descriptors and the
    addresses of the queue before it was told that the queue and the driver are
    ready, and no refused feature was accepted. *)
Lemma virtio_init_hands_over s (lk : bool) : v_disk s = mkD lk virtq_zero ∅ ∅ ∅ ->
  wp_or_panic virtio_init (fun _ s' => v_disk s' = dstate1 /\ exists pre f st,
    v_writes s' = pre ++ [(VIRTIO_REG_QUEUE_SEL, 0); (VIRTIO_REG_QUEUE_NUM, 8); (VIRTIO_REG_QUEUE_DESC_LOW, LO desc); (VIRTIO_REG_QUEUE_DESC_HIGH, HI desc);
      (VIRTIO_REG_QUEUE_DRIVER_LOW, LO avail); (VIRTIO_REG_QUEUE_DRIVER_HIGH, HI avail); (VIRTIO_REG_QUEUE_DEVICE_LOW, LO used); (VIRTIO_REG_QUEUE_DEVICE_HIGH, HI used);
      (VIRTIO_REG_QUEUE_READY, 1); (VIRTIO_REG_STATUS, Z.lor st DEV_STATUS_DRIVER_OK)] /\
    (VIRTIO_REG_DRIVER_FEATURES, f) ∈ pre /\ Z.land st DEV_STATUS_FEATURES_OK <> 0 /\ forall i, i ∈ refused_features -> Z.testbit f i = false) True s.
Proof.
  intros Hd. unfold virtio_init. do 3 (apply wpp_seq; eapply wpp_run; [done|]). destruct (_ || _); [done|]. do 5 (apply wpp_seq; eapply wpp_run; [done|]).
  apply wpp_seq; eapply wpp_run; [done|]. set (f0 := u32 _). set (f := foldl _ _ _). do 2 (apply wpp_seq; eapply wpp_run; [done|]). apply wpp_seq; eapply wpp_run; [done|].
  set (st := u32 _). destruct (Z.eqb_spec (Z.land st DEV_STATUS_FEATURES_OK) 0) as [|Hst]; [done|]. apply wpp_seq.
  eapply wpp_run.
  { unfold zoom. cbn [v_disk]. rewrite Hd. assert (virtq_init (mkD lk virtq_zero ∅ ∅ ∅) = Ret (tt, mkD lk (k_vq dstate1) ∅ ∅ ∅)) as -> by (destruct lk; vm_compute; reflexivity). reflexivity. }
  apply wpp_seq; eapply wpp_run; [done|]. destruct (_ <? _); [done|]. do 10 (apply wpp_seq; eapply wpp_run; [done|]). eapply wpp_run; [done|]. split; [done|].
  cbn [v_writes]. rewrite <-!app_assoc. cbn [app]. eexists (_ ++ [_; _; _; _; _; (_, f); _]), f, st. rewrite <-app_assoc. split; [reflexivity|]. split; [|split; [done|]].
  - apply elem_of_app. right. do 5 right. left.
  - intros i Hi. unfold f. rewrite features_masked; [by rewrite bool_decide_true, andb_false_r|apply u32_range| |].
    + unfold refused_features. repeat constructor; lia.
    + unfold refused_features in Hi. rewrite !elem_of_cons in Hi. rewrite elem_of_nil in Hi. lia.
Qed.
End init.
