(* ===== verification/RbTree.v ===== *)
(** * Red-black trees: [common/rbtree.c]

    One definition per function, on a memory of nodes with parent pointers.  The
    word [__rb_parent_color] is kept as the code has it: the address of the
    parent with the colour in its lowest bit.  A pointer that is not the address
    of a node (NULL among them) cannot be followed.

    The second half of the loops of [__rb_insert_fix] and [__rb_erase_fix] is the
    first one with left and right exchanged; the model has one half, with the
    side as a parameter. *)

From Stdlib Require Import ZArith Lia.
From stdpp Require Import base tactics numbers gmap list.
From S2P Require Import Prelude.

Local Open Scope Z_scope.

Record rb_node_ : Type := mkRb { __rb_parent_color : Z; rb_right : Z; rb_left : Z }.
Record rbst : Type := mkRbst { rb_nodes : gmap Z rb_node_; rb_root : Z }.
Abbreviation RM := (M rbst).

Definition RB_RED : Z := 0.
Definition RB_BLACK : Z := 1.
Definition __rb_parent (pc : Z) : Z := Z.ldiff pc 3.
Definition __rb_color (pc : Z) : Z := Z.land pc 1.

Inductive side : Type := L | R.
#[global] Instance side_dec : EqDecision side.
Proof. solve_decision. Defined.
Definition other (d : side) : side := match d with L => R | R => L end.

Definition load (p : Z) : RM rb_node_ := fun s => some_or_ub (rb_nodes s !! p) s.
Definition store (p : Z) (n : rb_node_) : RM unit := modify (fun s => mkRbst (<[p := n]> (rb_nodes s)) (rb_root s)).
Definition set_root (p : Z) : RM unit := modify (fun s => mkRbst (rb_nodes s) p).

(** [p->rb_left], [p->rb_right] and their assignments. *)
Definition kid (d : side) (n : rb_node_) : Z := match d with L => rb_left n | R => rb_right n end.
Definition with_kid (d : side) (q : Z) (n : rb_node_) : rb_node_ :=
  match d with L => mkRb (__rb_parent_color n) (rb_right n) q | R => mkRb (__rb_parent_color n) q (rb_left n) end.
Definition get_kid (d : side) (p : Z) : RM Z := n ← load p; mret (kid d n).
Definition set_kid (d : side) (p q : Z) : RM unit := n ← load p; store p (with_kid d q n).
Definition get_pc (p : Z) : RM Z := n ← load p; mret (__rb_parent_color n).
Definition set_pc (p pc : Z) : RM unit := n ← load p; store p (mkRb pc (rb_right n) (rb_left n)).

Definition rb_parent (p : Z) : RM Z := pc ← get_pc p; mret (__rb_parent pc).
Definition rb_is_red (p : Z) : RM bool := pc ← get_pc p; mret (__rb_color pc =? 0).
Definition rb_is_black (p : Z) : RM bool := pc ← get_pc p; mret (negb (__rb_color pc =? 0)).
Definition rb_set_black (p : Z) : RM unit := pc ← get_pc p; set_pc p (Z.lor pc RB_BLACK).
Definition rb_red_parent (p : Z) : RM Z := get_pc p.
Definition rb_set_parent (p q : Z) : RM unit := pc ← get_pc p; set_pc p (Z.lor (__rb_color pc) q).
Definition rb_set_parent_color (p q color : Z) : RM unit := set_pc p (Z.lor q color).

(** [if (p) f(p);] *)
Definition unless_null (p : Z) (m : RM unit) : RM unit := if p =? 0 then mret tt else m.

Definition __rb_change_child (old new parent : Z) : RM unit :=
  if negb (parent =? 0) then
    l ← get_kid L parent;
    if l =? old then set_kid L parent new else set_kid R parent new
  else set_root new.

Definition __rb_rotate_set_parents (old new color : Z) : RM unit :=
  parent ← rb_parent old;
  pc ← get_pc old;
  set_pc new pc;;
  rb_set_parent_color old new color;;
  __rb_change_child old new parent.

(** [tmp && rb_is_red(tmp)], [!tmp || rb_is_black(tmp)]. *)
Definition is_red_node (p : Z) : RM bool := if p =? 0 then mret false else rb_is_red p.
Definition black_or_null (p : Z) : RM bool := if p =? 0 then mret true else rb_is_black p.

(** Cases 2 and 3 of [__rb_insert_fix]; [d] is the side of [parent] under
    [gparent]. *)
Definition insert_rotate (d : side) (node parent gparent : Z) : RM unit :=
  tmp ← get_kid (other d) parent;
  r ← (if node =? tmp then
         tmp ← get_kid d node;
         set_kid (other d) parent tmp;;
         unless_null tmp (rb_set_parent_color tmp parent RB_BLACK);;
         set_kid d node parent;;
         rb_set_parent_color parent node RB_RED;;
         tmp ← get_kid (other d) node;
         mret (node, tmp)
       else mret (parent, tmp));
  let '(parent, tmp) := (r : Z * Z) in
  set_kid d gparent tmp;;
  unless_null tmp (rb_set_parent_color tmp gparent RB_BLACK);;
  set_kid (other d) parent gparent;;
  __rb_rotate_set_parents gparent parent RB_RED.

(** The loop of [__rb_insert_fix]; [n] bounds its turns. *)
Fixpoint insert_fix_loop (n : nat) (node parent : Z) : RM unit :=
  match n with
  | O => block
  | S n' =>
      if parent =? 0 then rb_set_parent_color node 0 RB_BLACK;; set_root node else
      black ← rb_is_black parent;
      if (black : bool) then mret tt else
      gparent ← rb_red_parent parent;
      r ← get_kid R gparent;
      let d := if negb (parent =? r) then L else R in
      tmp ← get_kid (other d) gparent;
      red ← is_red_node tmp;
      if (red : bool) then
        rb_set_parent_color tmp gparent RB_BLACK;;
        rb_set_parent_color parent gparent RB_BLACK;;
        gp ← rb_parent gparent;
        rb_set_parent_color gparent gp RB_RED;;
        insert_fix_loop n' gparent gp
      else insert_rotate d node parent gparent
  end.
Definition __rb_insert_fix (n : nat) (node : Z) : RM unit := parent ← rb_red_parent node; insert_fix_loop n node parent.

Section cmp.
(** The comparison that the caller gives. *)
Context (cmp : Z -> Z -> bool).

(** The descent of [_rb_insert]: false is the result -1. *)
Fixpoint insert_descend (n : nat) (node nw : Z) : RM bool :=
  match n with
  | O => block
  | S n' =>
      let go d :=
        next ← get_kid d nw;
        if next =? 0 then set_kid d nw node;; set_pc node nw;; mret true else insert_descend n' node next in
      if cmp node nw then go L else if cmp nw node then go R else mret false
  end.

(** The height of a tree is below its number of nodes. *)
Definition fuel : RM nat := gets (fun s => S (size (rb_nodes s))).

Definition _rb_insert (node : Z) : RM Z :=
  n ← fuel;
  nw ← gets rb_root;
  store node (mkRb 0 0 0);;
  done ← (if nw =? 0 then mret true else insert_descend n node nw);
  if (done : bool) then __rb_insert_fix n node;; mret 0 else mret (-1).

Fixpoint lookup_descend (n : nat) (node nw : Z) : RM Z :=
  match n with
  | O => block
  | S n' =>
      if nw =? 0 then mret 0 else
      if cmp node nw then next ← get_kid L nw; lookup_descend n' node next
      else if cmp nw node then next ← get_kid R nw; lookup_descend n' node next
      else mret nw
  end.
Definition _rb_lookup (node : Z) : RM Z := n ← fuel; nw ← gets rb_root; lookup_descend n node nw.
End cmp.

Fixpoint first_descend (n : nat) (p : Z) : RM Z :=
  match n with
  | O => block
  | S n' => l ← get_kid L p; if l =? 0 then mret p else first_descend n' l
  end.
Definition _rb_first : RM Z :=
  n ← fuel; r ← gets rb_root; if r =? 0 then mret 0 else first_descend n r.

(** ** Removal *)

(** The loop that finds the successor: its parent and itself. *)
Fixpoint find_successor (n : nat) (parent successor : Z) : RM (Z * Z) :=
  match n with
  | O => block
  | S n' => tmp ← get_kid L successor; if tmp =? 0 then mret (parent, successor) else find_successor n' successor tmp
  end.

Definition __rb_erase (node : Z) : RM Z :=
  n ← fuel;
  x ← load node;
  let child := rb_right x in
  let tmp := rb_left x in
  if tmp =? 0 then
    let pc := __rb_parent_color x in
    let parent := __rb_parent pc in
    __rb_change_child node child parent;;
    if negb (child =? 0) then set_pc child pc;; mret 0
    else mret (if __rb_color pc =? 0 then 0 else parent)
  else if child =? 0 then
    let pc := __rb_parent_color x in
    set_pc tmp pc;;
    __rb_change_child node tmp (__rb_parent pc);;
    mret 0
  else
    tmp ← get_kid L child;
    r ← (if tmp =? 0 then
           child2 ← get_kid R child;
           mret (child, child, child2)
         else
           ps ← find_successor n child tmp;
           let '(parent, successor) := (ps : Z * Z) in
           child2 ← get_kid R successor;
           set_kid L parent child2;;
           set_kid R successor child;;
           rb_set_parent child successor;;
           mret (parent, successor, child2));
    let '(parent, successor, child2) := (r : Z * Z * Z) in
    tmp ← get_kid L node;
    set_kid L successor tmp;;
    rb_set_parent tmp successor;;
    pc ← get_pc node;
    __rb_change_child node successor (__rb_parent pc);;
    if negb (child2 =? 0) then
      set_pc successor pc;;
      rb_set_parent_color child2 parent RB_BLACK;;
      mret 0
    else
      pc2 ← get_pc successor;
      set_pc successor pc;;
      mret (if __rb_color pc2 =? 0 then 0 else parent).

(** One half of the body of [__rb_erase_fix], for the sibling on side [d] of
    [parent]; the result is the next [node] and [parent] when the loop goes on. *)
Definition erase_fix_turn (d : side) (parent : Z) : RM (option (Z * Z)) :=
  sibling ← get_kid d parent;
  red ← rb_is_red sibling;
  sibling ← (if (red : bool) then
               tmp1 ← get_kid (other d) sibling;
               set_kid d parent tmp1;;
               rb_set_parent_color tmp1 parent RB_BLACK;;
               set_kid (other d) sibling parent;;
               __rb_rotate_set_parents parent sibling RB_RED;;
               mret tmp1
             else mret sibling);
  tmp1 ← get_kid d sibling;
  b1 ← black_or_null tmp1;
  tmp2 ← get_kid (other d) sibling;
  b2 ← (if (b1 : bool) then black_or_null tmp2 else mret false);
  if (b2 : bool) then
    rb_set_parent_color sibling parent RB_RED;;
    pred ← rb_is_red parent;
    if (pred : bool) then rb_set_black parent;; mret None else
    gp ← rb_parent parent;
    mret (if negb (gp =? 0) then Some (parent, gp) else None)
  else
  st ← (if (b1 : bool) then
          tmp1 ← get_kid d tmp2;
          set_kid (other d) sibling tmp1;;
          unless_null tmp1 (rb_set_parent_color tmp1 sibling RB_BLACK);;
          set_kid d tmp2 sibling;;
          set_kid d parent tmp2;;
          mret (tmp2, sibling)
        else mret (sibling, tmp1));
  let '(sibling, tmp1) := (st : Z * Z) in
  tmp2 ← get_kid (other d) sibling;
  set_kid d parent tmp2;;
  unless_null tmp2 (rb_set_parent tmp2 parent);;
  set_kid (other d) sibling parent;;
  rb_set_parent_color tmp1 sibling RB_BLACK;;
  __rb_rotate_set_parents parent sibling RB_BLACK;;
  mret None.

Fixpoint erase_fix_loop (n : nat) (node parent : Z) : RM unit :=
  match n with
  | O => block
  | S n' =>
      sibling ← get_kid R parent;
      r ← erase_fix_turn (if negb (node =? sibling) then R else L) parent;
      match r with Some (node, parent) => erase_fix_loop n' node parent | None => mret tt end
  end.
Definition __rb_erase_fix (n : nat) (parent : Z) : RM unit := erase_fix_loop n 0 parent.

Definition _rb_erase (node : Z) : RM unit :=
  n ← fuel;
  rebalance ← __rb_erase node;
  if negb (rebalance =? 0) then __rb_erase_fix n rebalance else mret tt.
