(* ===== verification/RbTreeSpec.v ===== *)
(** * Red-black trees as data: the functional insertion *)

From Stdlib Require Import ZArith Lia Sorting.Sorted.
From stdpp Require Import base tactics numbers list.
From S2P Require Import Prelude RbTree.

Local Open Scope Z_scope.

(** ** Trees and contexts *)

(** The colour is true for black. *)
Inductive rbt : Type := E | T (black : bool) (l : rbt) (a : Z) (r : rbt).

Fixpoint inorder (t : rbt) : list Z := match t with E => [] | T _ l a r => inorder l ++ a :: inorder r end.
Definition ptr (t : rbt) : Z := match t with E => 0 | T _ _ a _ => a end.
Definition is_red (t : rbt) : bool := match t with T b _ _ _ => negb b | E => false end.
Definition blacken (t : rbt) : rbt := match t with T _ l a r => T true l a r | E => E end.

(** A node with [t] on side [d] and [s] on the other one. *)
Definition mk (d : side) (b : bool) (t : rbt) (a : Z) (s : rbt) : rbt := match d with L => T b t a s | R => T b s a t end.

(** The way from a place in a tree up to the root. *)
Record frame : Type := mkF { f_side : side; f_black : bool; f_addr : Z; f_sub : rbt }.
Definition fill (t : rbt) (f : frame) : rbt := mk (f_side f) (f_black f) t (f_addr f) (f_sub f).
Definition plug (t : rbt) (k : list frame) : rbt := foldl fill t k.

Definition before (f : frame) : list Z := match f_side f with L => [] | R => inorder (f_sub f) ++ [f_addr f] end.
Definition after (f : frame) : list Z := match f_side f with L => f_addr f :: inorder (f_sub f) | R => [] end.

Lemma inorder_mk d b t a s : inorder (mk d b t a s) = match d with L => inorder t ++ a :: inorder s | R => inorder s ++ a :: inorder t end.
Proof. by destruct d. Qed.
Lemma inorder_fill t f : inorder (fill t f) = before f ++ inorder t ++ after f.
Proof. unfold fill, before, after. rewrite inorder_mk. destruct (f_side f); [done|]. rewrite app_nil_r. by rewrite <-app_assoc. Qed.
Lemma inorder_blacken t : inorder (blacken t) = inorder t.
Proof. by destruct t. Qed.

(** Only the nodes of the focus matter for the nodes of the whole. *)
Lemma inorder_plug t t' k : inorder t = inorder t' -> inorder (plug t k) = inorder (plug t' k).
Proof. revert t t'. induction k as [|f k IH]; intros t t' H; cbn; [done|]. apply IH. by rewrite !inorder_fill, H. Qed.

Lemma inorder_plug_in k : exists l r, forall t, inorder (plug t k) = l ++ inorder t ++ r.
Proof.
  induction k as [|f k (l & r & H)]; [exists [], []; intros t; cbn; by rewrite app_nil_r|].
  exists (l ++ before f), (after f ++ r). intros t. cbn. rewrite H, inorder_fill. by rewrite !app_assoc.
Qed.

(** ** Repairing a red node under a red parent *)

(** Cases 2 and 3: [f1] is the frame of the parent, [f2] that of the grandparent. *)
Definition rotate (t : rbt) (f1 f2 : frame) : rbt :=
  let d := f_side f2 in
  if decide (f_side f1 = d) then
    mk d (f_black f2) t (f_addr f1) (mk d false (blacken (f_sub f1)) (f_addr f2) (f_sub f2))
  else match t with
    | E => E
    | T _ l x r =>
        let '(td, to) := match d with L => (l, r) | R => (r, l) end in
        mk d (f_black f2) (mk d false (f_sub f1) (f_addr f1) (blacken td)) x (mk d false (blacken to) (f_addr f2) (f_sub f2))
    end.

Fixpoint fix_up (t : rbt) (k : list frame) {struct k} : rbt :=
  match k with
  | [] => blacken t
  | f1 :: k1 =>
      if f_black f1 then plug t k else
      match k1 with
      | [] => plug t k
      | f2 :: k2 =>
          if is_red (f_sub f2)
          then fix_up (mk (f_side f2) false (mk (f_side f1) true t (f_addr f1) (f_sub f1)) (f_addr f2) (blacken (f_sub f2))) k2
          else plug (rotate t f1 f2) k2
      end
  end.

Lemma inorder_rotate t f1 f2 : is_red t = true -> inorder (rotate t f1 f2) = inorder (plug t [f1; f2]).
Proof.
  intros H. destruct t as [|b l x r]; [done|]. destruct f1 as [d1 b1 p s], f2 as [d2 b2 g u]. unfold rotate. cbn.
  destruct d1, d2; cbn; case_decide; try done; cbn; rewrite ?inorder_blacken, <-?app_assoc; cbn; rewrite <-?app_assoc; done.
Qed.

Lemma list_ind2 {A} (P : list A -> Prop) : P [] -> (forall x, P [x]) -> (forall x y l, P l -> P (x :: y :: l)) -> forall l, P l.
Proof.
  intros H0 H1 H2. assert (forall l, P l /\ forall x, P (x :: l)) as H; [|intros l; apply H].
  induction l as [|x l [IH1 IH2]]; split; auto.
Qed.

Lemma inorder_fix_up t k : is_red t = true -> inorder (fix_up t k) = inorder (plug t k).
Proof.
  revert t. induction k as [|f1|f1 f2 k IH] using list_ind2; intros t H; cbn [fix_up].
  - apply inorder_blacken.
  - by destruct (f_black f1).
  - destruct (f_black f1); [done|]. destruct (is_red (f_sub f2)) eqn:E.
    + rewrite IH by (by destruct (f_side f2)). cbn. apply inorder_plug. unfold fill.
      destruct (f_side f1), (f_side f2); cbn; rewrite inorder_blacken; done.
    + cbn. rewrite (inorder_plug _ (plug t [f1; f2])); [done|]. by apply inorder_rotate.
Qed.

(** ** Balance *)

(** Every way down has [n] black nodes, and no red node has a red child. *)
Fixpoint rbh (n : nat) (t : rbt) : Prop :=
  match t with
  | E => n = 0%nat
  | T true l _ r => exists m, n = S m /\ rbh m l /\ rbh m r
  | T false l _ r => rbh n l /\ rbh n r /\ is_red l = false /\ is_red r = false
  end.

(** The same for a context whose place takes a tree of black height [n]. *)
Fixpoint rbh_ctx (n : nat) (k : list frame) : Prop :=
  match k with
  | [] => True
  | f :: k' =>
      rbh n (f_sub f) /\
      if f_black f then rbh_ctx (S n) k'
      else is_red (f_sub f) = false /\ (exists f' k2, k' = f' :: k2 /\ f_black f' = true) /\ rbh_ctx n k'
  end.

Definition balanced (t : rbt) : Prop := is_red t = false /\ exists n, rbh n t.

Lemma rbh_mk n d b t a s : rbh n (mk d b t a s) <->
  if b then exists m, n = S m /\ rbh m t /\ rbh m s else rbh n t /\ rbh n s /\ is_red t = false /\ is_red s = false.
Proof. destruct d, b; cbn; naive_solver. Qed.
Lemma is_red_mk d b t a s : is_red (mk d b t a s) = negb b.
Proof. by destruct d. Qed.
Lemma rbh_blacken_red n t : rbh n t -> is_red t = true -> rbh (S n) (blacken t).
Proof. destruct t as [|[] l a r]; try done. cbn. intros (H1 & H2 & _) _. by exists n. Qed.
Lemma blacken_black t : is_red t = false -> blacken t = t.
Proof. by destruct t as [|[] l a r]. Qed.
Lemma is_red_blacken t : is_red (blacken t) = false.
Proof. by destruct t. Qed.

(** A context is closed by a tree that does not put red under red. *)
Lemma plug_balanced n t k : rbh n t -> rbh_ctx n k -> (is_red t = true -> exists f k', k = f :: k' /\ f_black f = true) -> balanced (plug t k).
Proof.
  revert n t. induction k as [|f k IH]; intros n t Ht Hk Hr; cbn.
  - split; [|by exists n]. destruct (is_red t); [|done]. destruct Hr as (? & ? & ? & _); [done|done].
  - destruct Hk as [Hs Hk]. destruct (f_black f) eqn:Eb.
    + apply (IH (S n)); [|done|]; unfold fill; rewrite Eb.
      * apply rbh_mk. by exists n.
      * by rewrite is_red_mk.
    + destruct Hk as (H1 & H2 & Hk). apply (IH n); [|done|done]. unfold fill. rewrite Eb. apply rbh_mk. split_and!; try done.
      destruct (is_red t); [|done]. destruct Hr as (f' & k' & [= <- <-] & E); [done|congruence].
Qed.

Lemma fix_up_balanced n t k : is_red t = true -> rbh n t -> rbh_ctx n k -> balanced (fix_up t k).
Proof.
  revert n t. induction k as [|f1|f1 f2 k IH] using list_ind2; intros n t Hr Ht Hk; cbn [fix_up].
  - split; [apply is_red_blacken|]. exists (S n). by apply rbh_blacken_red.
  - destruct (f_black f1) eqn:E1.
    + apply (plug_balanced n); [done|done|]. intros _. by exists f1, [].
    + cbn in Hk. rewrite E1 in Hk. destruct Hk as (_ & _ & (? & ? & ? & _) & _). done.
  - destruct (f_black f1) eqn:E1; [apply (plug_balanced n); [done|done|]; intros _; by exists f1, (f2 :: k)|].
    cbn in Hk. rewrite E1 in Hk. destruct Hk as (Hs1 & Hb1 & (f' & k2 & [= <- <-] & E2) & Hs2 & Hk). rewrite E2 in Hk.
    destruct (is_red (f_sub f2)) eqn:Eu.
    + apply (IH (S n)); [by rewrite is_red_mk| |done]. apply rbh_mk. split; [apply rbh_mk; by exists n|]. split; [by apply rbh_blacken_red|].
      split; [by rewrite is_red_mk|apply is_red_blacken].
    + assert (rbh (S n) (rotate t f1 f2) /\ is_red (rotate t f1 f2) = false) as [H1 H2].
      { unfold rotate. rewrite E2. destruct (decide _) as [D|D].
        - rewrite is_red_mk, blacken_black by done. split; [|done]. apply rbh_mk. exists n. split; [done|]. split; [done|]. by apply rbh_mk.
        - destruct t as [|[] l x r]; try done. cbn in Ht. destruct Ht as (H1 & H2 & H3 & H4).
          destruct (f_side f2); rewrite is_red_mk, !blacken_black by done; (split; [|done]); apply rbh_mk; exists n; (split; [done|]); by rewrite !rbh_mk. }
      apply (plug_balanced (S n)); [done|done|]. by rewrite H2.
Qed.

(** ** The place of a new node *)

Section cmp.
Context (cmp : Z -> Z -> bool).

Fixpoint descend (x : Z) (t : rbt) (k : list frame) : option (list frame) :=
  match t with
  | E => Some k
  | T b l a r =>
      if cmp x a then descend x l (mkF L b a r :: k)
      else if cmp a x then descend x r (mkF R b a l :: k)
      else None
  end.

(** Insertion into a sorted list: what a tree stands for. *)
Fixpoint ins (x : Z) (l : list Z) : option (list Z) :=
  match l with
  | [] => Some [x]
  | m :: l' => if cmp x m then Some (x :: l) else if cmp m x then cons m <$> ins x l' else None
  end.

Definition lt (x y : Z) : Prop := cmp x y = true.
Context (cmp_irrefl : forall x, cmp x x = false) (cmp_trans : forall x y z, lt x y -> lt y z -> lt x z).
Context (cmp_cotrans : forall x y z, lt x z -> lt x y \/ lt y z).

Lemma cmp_asym x y : lt x y -> cmp y x = false.
Proof using All. intros H. destruct (cmp y x) eqn:E1; [|done]. pose proof (cmp_trans _ _ _ H E1) as H2. unfold lt in H2. by rewrite cmp_irrefl in H2. Qed.

Lemma ins_left x a l r : lt x a -> ins x (l ++ a :: r) = (fun l' => l' ++ a :: r) <$> ins x l.
Proof using All.
  intros H. induction l as [|m l IH]; cbn; [by rewrite H|]. destruct (cmp x m); [done|]. destruct (cmp m x); [|done]. rewrite IH. by destruct (ins x l).
Qed.

Lemma ins_right x a l r : Forall (fun m => lt m a) l -> cmp x a = false -> ins x (l ++ a :: r) = (fun r' => l ++ r') <$> ins x (a :: r).
Proof using All.
  intros Hl Ha. induction Hl as [|m l Hm Hl IH]; [change ([] ++ a :: r) with (a :: r); by destruct (ins x (a :: r))|].
  assert (lt m x) as Hmx by (destruct (cmp_cotrans m x a Hm) as [?|Hx]; [done|unfold lt in Hx; congruence]).
  change ((m :: l) ++ a :: r) with (m :: (l ++ a :: r)).
  assert (ins x (m :: (l ++ a :: r)) = cons m <$> ins x (l ++ a :: r)) as -> by (cbn; rewrite (cmp_asym _ _ Hmx); unfold lt in Hmx; by rewrite Hmx).
  rewrite IH. by destruct (ins x (a :: r)).
Qed.

Definition sorted (t : rbt) : Prop := StronglySorted lt (inorder t).

Lemma sorted_node b l a r : sorted (T b l a r) -> sorted l /\ sorted r /\ Forall (fun m => lt m a) (inorder l) /\ Forall (lt a) (inorder r).
Proof using Type.
  unfold sorted. cbn. induction (inorder l) as [|m xs IH]; cbn; intros H; apply StronglySorted_inv in H as [H1 H2].
  - split; [constructor|]. split; [done|]. split; [constructor|done].
  - destruct (IH H1) as (H3 & H4 & H5 & H6). apply Forall_app in H2 as [H2 H7]. apply Forall_cons in H7 as [H7 _].
    split_and!; try done; by constructor.
Qed.

(** The place that the descent finds is the one of the sorted list. *)
Lemma descend_ins x t k : sorted t ->
  match descend x t k with
  | Some k' => exists k1, k' = k1 ++ k /\ plug E k1 = t /\ ins x (inorder t) = Some (inorder (plug (T false E x E) k1))
  | None => ins x (inorder t) = None
  end.
Proof using All.
  revert k. induction t as [|b l IHl a r IHr]; intros k Hs; [exists []; by cbn|].
  destruct (sorted_node _ _ _ _ Hs) as (Hl & Hr & Hla & Har). cbn [descend inorder]. destruct (cmp x a) eqn:E1; [|destruct (cmp a x) eqn:E2].
  - rewrite (ins_left x a) by done. specialize (IHl (mkF L b a r :: k) Hl). destruct (descend x l _) as [k'|].
    + destruct IHl as (k1 & -> & H1 & H2). exists (k1 ++ [mkF L b a r]). rewrite <-app_assoc. split; [done|]. unfold plug in *. rewrite !foldl_app, H1. split; [done|].
      rewrite H2. done.
    + by rewrite IHl.
  - rewrite (ins_right x a) by done. cbn [ins]. rewrite E1, E2. specialize (IHr (mkF R b a l :: k) Hr). destruct (descend x r _) as [k'|].
    + destruct IHr as (k1 & -> & H1 & H2). exists (k1 ++ [mkF R b a l]). rewrite <-app_assoc. split; [done|]. unfold plug in *. rewrite !foldl_app, H1. split; [done|].
      rewrite H2. done.
    + by rewrite IHr.
  - rewrite (ins_right x a) by done. cbn [ins]. by rewrite E1, E2.
Qed.

(** Sortedness and the balance of the context. *)
Lemma ins_sorted x l l' : StronglySorted lt l -> ins x l = Some l' -> StronglySorted lt l' /\ l' ≡ₚ x :: l.
Proof using All.
  revert l'. induction l as [|m l IH]; intros l' Hs; cbn; [intros [= <-]; by repeat constructor|].
  destruct (cmp x m) eqn:E1.
  - intros [= <-]. split; [|done]. constructor; [done|]. apply StronglySorted_inv in Hs as [_ Hm]. constructor; [done|].
    eapply Forall_impl; [exact Hm|]. intros y. by apply cmp_trans.
  - destruct (cmp m x) eqn:E2; [|done]. apply StronglySorted_inv in Hs as [Hs Hm]. destruct (ins x l) as [l2|] eqn:Ei; [|done]. intros [= <-].
    destruct (IH l2 Hs eq_refl) as [H1 H2]. split; [|rewrite H2; constructor]. constructor; [done|]. rewrite H2. by constructor.
Qed.

Lemma descend_ctx n x t k k' : rbh n t -> rbh_ctx n k -> (is_red t = true -> exists f k2, k = f :: k2 /\ f_black f = true) ->
  descend x t k = Some k' -> rbh_ctx 0 k'.
Proof using Type.
  revert n k. induction t as [|b l IHl a r IHr]; intros n k Ht Hk Hr; cbn [descend].
  - intros [= <-]. cbn in Ht. by subst.
  - destruct b; cbn in Ht, Hr.
    + destruct Ht as (m & -> & H1 & H2). destruct (cmp x a); [apply (IHl m); cbn; try done; intros _; by eexists _, _|].
      destruct (cmp a x); [|done]. apply (IHr m); cbn; try done. intros _; by eexists _, _.
    + destruct Ht as (H1 & H2 & H3 & H4). specialize (Hr eq_refl). destruct (cmp x a); [apply (IHl n); cbn; try done; by rewrite H3|].
      destruct (cmp a x); [|done]. apply (IHr n); cbn; try done; by rewrite H4.
Qed.
End cmp.
