(* ===== verification/RbTreeProofs.v ===== *)
(** * The nodes in memory represent the tree *)

From Stdlib Require Import ZArith Lia Sorting.Sorted.
From stdpp Require Import base tactics numbers gmap list fin_maps fin_sets.
From S2P Require Import Prelude RbTree RbTreeSpec.

Local Open Scope Z_scope.

(** ** The word with the parent and the colour *)

Definition bit (b : bool) : Z := if b then 1 else 0.
(** NULL or the address of a node. *)
Definition word (q : Z) : Prop := 0 <= q /\ q mod 4 = 0.
Definition aligned (q : Z) : Prop := 0 < q /\ q mod 4 = 0.

Lemma aligned_word q : aligned q -> word q.
Proof. unfold aligned, word. lia. Qed.

Lemma lor_bit q b : word q -> Z.lor q (bit b) = q + bit b.
Proof.
  intros [H0 Hq]. pose proof (Z.add_lor_land q (bit b)) as E. assert (Z.land q (bit b) = 0) as E2; [|lia].
  destruct b; [|apply Z.land_0_r]. cbn. change 1 with (Z.ones 1). rewrite Z.land_ones by lia. change (2 ^ 1) with 2.
  rewrite (Z.div_mod q 4) by lia. rewrite Hq. replace (4 * (q / 4) + 0) with (q / 4 * 2 * 2) by lia. apply Z.mod_mul. lia.
Qed.
Lemma parent_bit q b : word q -> __rb_parent (q + bit b) = q.
Proof.
  intros [H0 Hq]. unfold __rb_parent. change 3 with (Z.ones 2). rewrite Z.ldiff_ones_r by lia. rewrite Z.shiftl_mul_pow2, Z.shiftr_div_pow2 by lia.
  change (2 ^ 2) with 4. pose proof (Z.div_mod q 4 ltac:(lia)) as E. rewrite Hq in E. destruct b; cbn.
  - replace (q + 1) with (1 + q / 4 * 4) by lia. rewrite Z.div_add by lia. change (1 / 4) with 0. lia.
  - rewrite Z.add_0_r. lia.
Qed.
Lemma color_bit q b : word q -> (__rb_color (q + bit b) =? 0) = negb b.
Proof.
  intros [H0 Hq]. unfold __rb_color. change 1 with (Z.ones 1) at 1. rewrite Z.land_ones by lia. change (2 ^ 1) with 2.
  pose proof (Z.div_mod q 4 ltac:(lia)) as E. rewrite Hq in E. destruct b; cbn.
  - replace (q + 1) with (1 + q / 4 * 2 * 2) by lia. rewrite Z.mod_add by lia. done.
  - replace (q + 0) with (0 + q / 4 * 2 * 2) by lia. rewrite Z.mod_add by lia. done.
Qed.

(** ** Nodes *)

(** A node with child [x] on side [d] and [y] on the other one. *)
Definition nd (d : side) (pc x y : Z) : rb_node_ := match d with L => mkRb pc y x | R => mkRb pc x y end.
Definition with_pc (pc : Z) (n : rb_node_) : rb_node_ := mkRb pc (rb_right n) (rb_left n).

Lemma kid_same d pc x y : kid d (nd d pc x y) = x.
Proof. by destruct d. Qed.
Lemma kid_other d pc x y : kid (other d) (nd d pc x y) = y.
Proof. by destruct d. Qed.
Lemma with_kid_same d pc x y z : with_kid d z (nd d pc x y) = nd d pc z y.
Proof. by destruct d. Qed.
Lemma with_kid_other d pc x y z : with_kid (other d) z (nd d pc x y) = nd d pc x z.
Proof. by destruct d. Qed.
Lemma with_pc_nd d pc pc' x y : with_pc pc' (nd d pc x y) = nd d pc' x y.
Proof. by destruct d. Qed.
Lemma pc_nd d pc x y : __rb_parent_color (nd d pc x y) = pc.
Proof. by destruct d. Qed.
Lemma nd_other d pc x y : nd (other d) pc x y = nd d pc y x.
Proof. by destruct d. Qed.
Lemma other_other d : other (other d) = d.
Proof. by destruct d. Qed.
Lemma other_ne d e : d <> e -> d = other e.
Proof. by destruct d, e. Qed.

Create Rewrite HintDb rb.
#[export] Hint Rewrite kid_same kid_other with_kid_same with_kid_other with_pc_nd pc_nd nd_other other_other : rb.

(** ** Representation *)

Abbreviation nmap := (gmap Z rb_node_).

(** The contents of the nodes of a tree whose root has the parent [q]. *)
Fixpoint cells (q : Z) (t : rbt) : list (Z * rb_node_) :=
  match t with
  | E => []
  | T b l a r => (a, mkRb (q + bit b) (ptr r) (ptr l)) :: cells a l ++ cells a r
  end.

Definition up (k : list frame) : Z := match k with [] => 0 | f :: _ => f_addr f end.
(** The nodes of a context that points to [x]. *)
Fixpoint cells_ctx (k : list frame) (x : Z) : list (Z * rb_node_) :=
  match k with
  | [] => []
  | f :: k' => (f_addr f, nd (f_side f) (up k' + bit (f_black f)) x (ptr (f_sub f))) :: cells (f_addr f) (f_sub f) ++ cells_ctx k' (f_addr f)
  end.
Definition addrs_ctx (k : list frame) : list Z := k ≫= fun f => f_addr f :: inorder (f_sub f).
Fixpoint rootp (x : Z) (k : list frame) : Z := match k with [] => x | f :: k' => rootp (f_addr f) k' end.

Definition holds (h : nmap) (c : Z * rb_node_) : Prop := h !! c.1 = Some c.2.
Abbreviation has h C := (Forall (holds h) C).

Lemma cells_addr q t : (cells q t).*1 ≡ₚ inorder t.
Proof. revert q. induction t as [|b l IHl a r IHr]; intros q; [done|]. cbn. rewrite fmap_app, IHl, IHr. by rewrite Permutation_middle. Qed.
Lemma cells_ctx_addr k x : (cells_ctx k x).*1 ≡ₚ addrs_ctx k.
Proof. revert x. induction k as [|f k IH]; intros x; [done|]. cbn. constructor. by rewrite fmap_app, IH, cells_addr. Qed.

(** Memory that differs only in the nodes of [X]. *)
Definition agree (X : list Z) (h h' : nmap) : Prop := forall a, a ∉ X -> h' !! a = h !! a.

Lemma agree_insert a n h : agree [a] h (<[a := n]> h).
Proof. intros b Hb. apply lookup_insert_ne. set_solver. Qed.
Lemma has_agree X h h' C : agree X h h' -> has h C -> (forall a, a ∈ C.*1 -> a ∉ X) -> has h' C.
Proof.
  intros Ha H Hd. rewrite Forall_forall in H |- *. intros c Hc. unfold holds. rewrite Ha; [by apply H|]. apply Hd. by apply list_elem_of_fmap_2.
Qed.
Lemma has_cells X h h' q t : agree X h h' -> has h (cells q t) -> (forall a, a ∈ inorder t -> a ∉ X) -> has h' (cells q t).
Proof. intros Ha H Hd. eapply has_agree; [done|done|]. intros a. rewrite cells_addr. apply Hd. Qed.
Lemma has_ctx X h h' k x : agree X h h' -> has h (cells_ctx k x) -> (forall a, a ∈ addrs_ctx k -> a ∉ X) -> has h' (cells_ctx k x).
Proof. intros Ha H Hd. eapply has_agree; [done|done|]. intros a. rewrite cells_ctx_addr. apply Hd. Qed.

Lemma ptr_in t : ptr t = 0 \/ ptr t ∈ inorder t.
Proof. destruct t as [|b l a r]; [by left|]. right. cbn. set_solver. Qed.
Lemma up_in k : up k = 0 \/ up k ∈ addrs_ctx k.
Proof. destruct k as [|f k]; [by left|]. right. cbn. left. Qed.

(** ** Primitives *)

Definition put (p : Z) (n : rb_node_) (s : rbst) : rbst := mkRbst (<[p := n]> (rb_nodes s)) (rb_root s).

Lemma wp_load_node p n s (Q : rb_node_ -> rbst -> Prop) : rb_nodes s !! p = Some n -> Q n s -> wp (load p) Q s.
Proof. intros H HQ. unfold wp, load. by rewrite H. Qed.
Lemma wp_get_kid d p n s (Q : Z -> rbst -> Prop) : rb_nodes s !! p = Some n -> Q (kid d n) s -> wp (get_kid d p) Q s.
Proof. intros H HQ. unfold get_kid. wp_prim. eapply wp_load_node; [done|]. by wp_prims. Qed.
Lemma wp_set_kid d p q n s (Q : unit -> rbst -> Prop) : rb_nodes s !! p = Some n -> Q tt (put p (with_kid d q n) s) -> wp (set_kid d p q) Q s.
Proof. intros H HQ. unfold set_kid, store. wp_prim. eapply wp_load_node; [done|]. by wp_prims. Qed.
Lemma wp_get_pc p n s (Q : Z -> rbst -> Prop) : rb_nodes s !! p = Some n -> Q (__rb_parent_color n) s -> wp (get_pc p) Q s.
Proof. intros H HQ. unfold get_pc. wp_prim. eapply wp_load_node; [done|]. by wp_prims. Qed.
Lemma wp_set_pc p pc n s (Q : unit -> rbst -> Prop) : rb_nodes s !! p = Some n -> Q tt (put p (with_pc pc n) s) -> wp (set_pc p pc) Q s.
Proof. intros H HQ. unfold set_pc, store. wp_prim. eapply wp_load_node; [done|]. by wp_prims. Qed.

(** [if (tmp) rb_set_parent_color(tmp, p, RB_BLACK);] on the root of a subtree. *)
Lemma wp_recolor q q' t s (Q : unit -> rbst -> Prop) :
  has (rb_nodes s) (cells q t) -> (0 ∉ inorder t) -> NoDup (inorder t) -> word q' ->
  (forall h', agree [ptr t] (rb_nodes s) h' -> has h' (cells q' (blacken t)) -> Q tt (mkRbst h' (rb_root s))) ->
  wp (unless_null (ptr t) (rb_set_parent_color (ptr t) q' RB_BLACK)) Q s.
Proof.
  intros H H0 Hnd Hw HQ. unfold unless_null, rb_set_parent_color. destruct t as [|b l a r]; cbn [ptr].
  - wp_prims. destruct s. by apply HQ.
  - cbn in H0, Hnd. rewrite (proj2 (Z.eqb_neq a 0)) by set_solver. cbn in H. apply Forall_cons in H as [Ha Hlr]. eapply wp_set_pc; [exact Ha|]. apply HQ.
    + apply agree_insert.
    + cbn. change RB_BLACK with (bit true). rewrite lor_bit by done. constructor; [apply lookup_insert_eq|].
      eapply has_agree; [apply agree_insert|done|]. intros x. rewrite fmap_app, !cells_addr. intros Hx.
      apply NoDup_app in Hnd as (H1 & H2 & H3). apply NoDup_cons in H3 as [H3 _]. apply elem_of_app in Hx. set_solver.
Qed.

(** [__rb_change_child] in a context. *)
Lemma wp_change_child k x y s (Q : unit -> rbst -> Prop) :
  has (rb_nodes s) (cells_ctx k x) -> rb_root s = rootp x k -> (x ∉ addrs_ctx k) -> x <> 0 -> NoDup (addrs_ctx k) -> (0 ∉ addrs_ctx k) ->
  (forall h', agree [up k] (rb_nodes s) h' -> has h' (cells_ctx k y) -> Q tt (mkRbst h' (rootp y k))) ->
  wp (__rb_change_child x y (up k)) Q s.
Proof.
  intros H Hr Hx Hx0 Hnd H0 HQ. unfold __rb_change_child. destruct k as [|f k]; cbn [up].
  - unfold set_root. cbn. wp_prims. apply HQ; [done|constructor].
  - cbn in Hx, Hnd, H0. rewrite (proj2 (Z.eqb_neq (f_addr f) 0)) by set_solver. cbn [negb]. cbn [cells_ctx] in H. apply Forall_cons in H as [Hf Hrest].
    assert (forall n, (forall h', agree [f_addr f] (rb_nodes s) h' -> has h' ((f_addr f, n) :: cells (f_addr f) (f_sub f) ++ cells_ctx k (f_addr f)) -> Q tt (mkRbst h' (rootp y (f :: k)))) ->
      Q tt (put (f_addr f) n s)) as Hput.
    { intros n Hn. unfold put. rewrite Hr. apply Hn; [apply agree_insert|]. constructor; [apply lookup_insert_eq|]. eapply has_agree; [apply agree_insert|exact Hrest|].
      intros a. rewrite fmap_app, cells_addr, cells_ctx_addr. intros Ha ->%list_elem_of_singleton. apply NoDup_cons in Hnd as [Hnd _]. by apply Hnd. }
    wp_prim. eapply wp_get_kid; [exact Hf|]. destruct (f_side f) eqn:Es; cbn [nd kid rb_left].
    + rewrite Z.eqb_refl. eapply wp_set_kid; [exact Hf|]. apply Hput. cbn [snd nd with_kid rb_right rb_left __rb_parent_color]. intros h' Ha Hh. apply HQ; [done|]. cbn [cells_ctx]. by rewrite Es.
    + assert (ptr (f_sub f) <> x) as Hne by (destruct (ptr_in (f_sub f)) as [->|Hin]; [done|set_solver]). rewrite (proj2 (Z.eqb_neq _ _)) by done.
      eapply wp_set_kid; [exact Hf|]. apply Hput. cbn [snd nd with_kid rb_right rb_left __rb_parent_color]. intros h' Ha Hh. apply HQ; [done|]. cbn [cells_ctx]. by rewrite Es.
Qed.

(** ** The loop of [__rb_insert_fix] *)

Record rep (s : rbst) (t : rbt) (k : list frame) : Prop := {
  rp_cells : has (rb_nodes s) (cells (up k) t);
  rp_ctx : has (rb_nodes s) (cells_ctx k (ptr t));
  rp_nodup : NoDup (inorder t ++ addrs_ctx k);
  rp_aligned : Forall aligned (inorder t ++ addrs_ctx k);
  rp_root : rb_root s = rootp (ptr t) k }.

Lemma aligned_zero l : Forall aligned l -> 0 ∉ l.
Proof. intros H Hin. rewrite Forall_forall in H. destruct (H 0 Hin). lia. Qed.
Lemma aligned_up l k : Forall aligned (l ++ addrs_ctx k) -> word (up k).
Proof.
  intros [_ H]%Forall_app. destruct (up_in k) as [->|Hin]; [done|]. apply aligned_word. rewrite Forall_forall in H. by apply H.
Qed.

(** [__rb_rotate_set_parents(g, p, color)]: [p] takes the place of [g] in the
    context, and [g] becomes its child. *)
Lemma wp_rotate_set_parents d k g p b c w x y z s (Q : unit -> rbst -> Prop) :
  rb_nodes s !! g = Some (nd d (up k + bit b) x y) -> rb_nodes s !! p = Some (nd d w z g) -> has (rb_nodes s) (cells_ctx k g) -> rb_root s = rootp g k ->
  NoDup (g :: p :: addrs_ctx k) -> Forall aligned (g :: p :: addrs_ctx k) ->
  (forall h', agree [up k; g; p] (rb_nodes s) h' -> has h' (cells_ctx k p) -> h' !! g = Some (nd d (p + bit c) x y) -> h' !! p = Some (nd d (up k + bit b) z g) ->
     Q tt (mkRbst h' (rootp p k))) ->
  wp (__rb_rotate_set_parents g p (bit c)) Q s.
Proof.
  intros Hg Hp Hk Hroot Hnd Hal HQ. pose proof (aligned_up [g; p] k Hal) as Hwu. pose proof (aligned_zero _ Hal) as H0.
  assert (word p) as Hwp by (apply aligned_word; rewrite !Forall_cons in Hal; apply Hal).
  apply NoDup_cons in Hnd as [Hng Hnd]. apply NoDup_cons in Hnd as [Hnp Hnd].
  unfold __rb_rotate_set_parents, rb_parent, rb_set_parent_color. wp_prim. wp_prim. eapply wp_get_pc; [exact Hg|]. wp_prims. eapply wp_get_pc; [exact Hg|].
  rewrite pc_nd. wp_prim. eapply wp_set_pc; [exact Hp|]. rewrite with_pc_nd. wp_prim.
  assert (g <> p) as Hgp by set_solver.
  eapply wp_set_pc; [cbn; rewrite lookup_insert_ne by done; exact Hg|]. rewrite with_pc_nd, lor_bit, parent_bit by done.
  set (s2 := put g _ _). eapply wp_change_child.
  - unfold s2. cbn. eapply (has_ctx [g; p]); [|exact Hk|set_solver]. intros a Ha. rewrite !lookup_insert_ne by set_solver. done.
  - done.
  - set_solver.
  - set_solver.
  - done.
  - set_solver.
  - intros h' Hag Hh. assert (up k <> g /\ up k <> p) as [Hug Hup] by (destruct (up_in k) as [->|Hin]; set_solver).
    apply HQ; [|done| |].
    + intros a Ha. rewrite Hag by set_solver. cbn. rewrite !lookup_insert_ne by set_solver. done.
    + rewrite Hag by set_solver. cbn. by rewrite lookup_insert_eq.
    + rewrite Hag by set_solver. cbn. rewrite lookup_insert_ne by done. by rewrite lookup_insert_eq.
Qed.

Lemma has_mk h q d b t a s : has h (cells q (mk d b t a s)) <-> h !! a = Some (nd d (q + bit b) (ptr t) (ptr s)) /\ has h (cells a t) /\ has h (cells a s).
Proof. destruct d; cbn; rewrite Forall_cons, Forall_app; unfold holds; cbn; tauto. Qed.
Lemma ptr_mk d b t a s : ptr (mk d b t a s) = a.
Proof. by destruct d. Qed.
Lemma ptr_blacken t : ptr (blacken t) = ptr t.
Proof. by destruct t. Qed.
Lemma inorder_mk_perm d b t a s : inorder (mk d b t a s) ≡ₚ a :: inorder t ++ inorder s.
Proof. destruct d; cbn; rewrite <-Permutation_middle; [done|]. by rewrite (Permutation_app_comm (inorder s)). Qed.
Lemma inorder_plug_perm t k : inorder (plug t k) ≡ₚ inorder t ++ addrs_ctx k.
Proof.
  revert t. induction k as [|f k IH]; intros t; cbn; [by rewrite app_nil_r|]. rewrite IH. unfold fill. rewrite inorder_mk_perm. cbn.
  rewrite <-Permutation_middle, <-app_assoc. done.
Qed.
Lemma addrs_ctx_cons f k : addrs_ctx (f :: k) = f_addr f :: inorder (f_sub f) ++ addrs_ctx k.
Proof. done. Qed.
Lemma ptr_ne x t : x <> 0 -> x ∉ inorder t -> ptr t <> x.
Proof. intros H0 H. destruct (ptr_in t) as [E|Hin]; [congruence|]. by intros <-. Qed.

(** ** Telling addresses apart *)

(** The number of the list of [ls] that has the address. *)
Lemma regions (ls : list (list Z)) : NoDup (concat ls) -> 0 ∉ concat ls ->
  exists reg : Z -> nat, reg 0 = 0%nat /\ forall i l a, ls !! i = Some l -> a ∈ l -> reg a = S i.
Proof.
  induction ls as [|l ls IH]; cbn; intros Hnd H0; [by exists (fun _ => 0%nat)|]. apply NoDup_app in Hnd as (_ & Hd & Hnd). rewrite elem_of_app in H0.
  destruct IH as (reg & R0 & HR); [done|tauto|].
  exists (fun a => if decide (a ∈ l) then 1%nat else match reg a with O => O | S n => S (S n) end). split; [rewrite decide_False, R0 by tauto; done|].
  intros [|i] l' a Hl Ha; cbn in Hl; [injection Hl as ->; by rewrite decide_True|]. rewrite decide_False, (HR i l' a Hl Ha); [done|].
  intros Hal. apply (Hd a Hal). apply list_elem_of_In, in_concat. exists l'. split; apply list_elem_of_In; [by apply list_elem_of_lookup_2 in Hl|done].
Qed.

(** Addresses whose regions differ are different. *)
Ltac regs :=
  repeat match goal with
  | H : _ \/ _ |- _ => destruct H
  | H : ?a ∈ _ :: _ |- _ => apply elem_of_cons in H
  | H : _ ∈ [] |- _ => exfalso; by apply elem_of_nil in H
  | H : ?a ∈ ?l, R : forall a, a ∈ ?l -> ?reg a = _ |- _ => apply R in H
  | H : @eq Z ?a ?b, R : ?reg 0 = 0%nat |- _ => apply (f_equal reg) in H
  end; lia.
Ltac apart := lazymatch goal with |- ?a ∉ _ => intros ?; regs | |- _ <> _ => intros ?; regs | |- forall a, a ∈ _ -> a ∉ _ => intros ? ? ?; regs end.

Lemma red_mk t d : is_red t = true -> exists td x to, t = mk d false td x to.
Proof. destruct t as [|[] l x r]; try done. intros _. destruct d; [by exists l, x, r|by exists r, x, l]. Qed.

(** Everything the two cases of a rotation start from. *)
Section rotate.
Context (s : rbst) (t : rbt) (d1 d : side) (p g : Z) (s1 u : rbt) (b2 : bool) (k : list frame).
Abbreviation f1 := (mkF d1 false p s1).
Abbreviation f2 := (mkF d b2 g u).
Context (H : rep s t (f1 :: f2 :: k)) (Ht : is_red t = true).

Lemma rot_nodup : NoDup (p :: g :: inorder t ++ inorder s1 ++ inorder u ++ addrs_ctx k) /\ Forall aligned (p :: g :: inorder t ++ inorder s1 ++ inorder u ++ addrs_ctx k).
Proof using All.
  assert (inorder t ++ addrs_ctx (f1 :: f2 :: k) ≡ₚ p :: g :: inorder t ++ inorder s1 ++ inorder u ++ addrs_ctx k) as P.
  { rewrite !addrs_ctx_cons. cbn [f_addr f_sub]. rewrite <-!Permutation_middle. done. }
  rewrite <-P. split; [apply (rp_nodup _ _ _ H)|apply (rp_aligned _ _ _ H)].
Qed.

Lemma rot_regs : exists reg : Z -> nat, reg 0 = 0%nat /\ reg p = 1%nat /\ reg g = 2%nat /\ (forall a, a ∈ inorder t -> reg a = 3%nat) /\
  (forall a, a ∈ inorder s1 -> reg a = 4%nat) /\ (forall a, a ∈ inorder u -> reg a = 5%nat) /\ (forall a, a ∈ addrs_ctx k -> reg a = 6%nat) /\
  reg (ptr t) = 3%nat /\ (reg (ptr s1) = 0%nat \/ reg (ptr s1) = 4%nat) /\ (reg (up k) = 0%nat \/ reg (up k) = 6%nat).
Proof using All.
  destruct rot_nodup as [Hnd Hal]. destruct (regions [[p]; [g]; inorder t; inorder s1; inorder u; addrs_ctx k]) as (reg & R0 & HR);
    [cbn; by rewrite app_nil_r|cbn; rewrite app_nil_r; by apply aligned_zero|].
  exists reg. split; [done|]. split; [by apply (HR 0%nat [p]); [|left]|]. split; [by apply (HR 1%nat [g]); [|left]|].
  assert (forall a, a ∈ inorder t -> reg a = 3%nat) as Rt by (intros a; by apply (HR 2%nat)).
  assert (forall a, a ∈ inorder s1 -> reg a = 4%nat) as Rs by (intros a; by apply (HR 3%nat)).
  assert (forall a, a ∈ addrs_ctx k -> reg a = 6%nat) as Rk by (intros a; by apply (HR 5%nat)).
  split_and!; try done; [intros a; by apply (HR 4%nat)| | |].
  - apply Rt. destruct t; [done|]. cbn. apply elem_of_app. right. left.
  - destruct (ptr_in s1) as [->|?]; auto.
  - destruct (up_in k) as [->|?]; auto.
Qed.

Lemma rot_cells : has (rb_nodes s) (cells p t) /\ rb_nodes s !! p = Some (nd d1 g (ptr t) (ptr s1)) /\ has (rb_nodes s) (cells p s1) /\
  rb_nodes s !! g = Some (nd d (up k + bit b2) p (ptr u)) /\ has (rb_nodes s) (cells g u) /\ has (rb_nodes s) (cells_ctx k g) /\ rb_root s = rootp g k.
Proof using All.
  pose proof (rp_ctx _ _ _ H) as Hc. cbn in Hc. rewrite Forall_cons, Forall_app, Forall_cons, Forall_app in Hc. unfold holds in Hc at 1 3. cbn in Hc.
  rewrite Z.add_0_r in Hc. destruct Hc as (H1 & H2 & H3 & H4 & H5). split_and!; try done; [apply (rp_cells _ _ _ H)|apply (rp_root _ _ _ H)].
Qed.

Lemma rot_done s' : has (rb_nodes s') (cells (up k) (rotate t f1 f2)) -> has (rb_nodes s') (cells_ctx k (ptr (rotate t f1 f2))) ->
  rb_root s' = rootp (ptr (rotate t f1 f2)) k -> rep s' (rotate t f1 f2) k.
Proof using All.
  intros H1 H2 H3. assert (inorder (rotate t f1 f2) ++ addrs_ctx k ≡ₚ inorder t ++ addrs_ctx (f1 :: f2 :: k)) as P.
  { rewrite inorder_rotate by done. rewrite inorder_plug_perm, <-app_assoc. cbn. rewrite app_nil_r, <-app_assoc. done. }
  split; try done; rewrite P; apply H.
Qed.

(** Case 3: the node is on the same side as its parent. *)
Lemma rotate_outer_wp : d1 = d -> wp (insert_rotate d (ptr t) p g) (fun _ s' => rep s' (rotate t f1 f2) k) s.
Proof using All.
  intros E1. destruct rot_nodup as [Hnd Hal]. destruct rot_cells as (Ct & Cp & Cs & Cg & Cu & Ck & Hr). rewrite E1 in Cp.
  destruct rot_regs as (reg & R0 & Rp & Rg & Rt & Rs & Ru & Rk & Rpt & Rps & Rup).
  assert (word g) as Hwg by (apply aligned_word; rewrite !Forall_cons in Hal; apply Hal).
  apply NoDup_cons in Hnd as [_ Hnd]. apply NoDup_cons in Hnd as [_ Hnd]. apply NoDup_app in Hnd as (_ & _ & Hnd). apply NoDup_app in Hnd as (Ns & _ & Hnd). apply NoDup_app in Hnd as (_ & _ & Nk).
  assert (p <> g) as Hpg by apart.
  unfold insert_rotate. wp_prim. eapply wp_get_kid; [exact Cp|]. rewrite kid_other.
  rewrite (proj2 (Z.eqb_neq (ptr t) (ptr s1))) by apart. wp_prims.
  eapply wp_set_kid; [exact Cg|]. rewrite with_kid_same. wp_prim. eapply (wp_recolor p g); [|apart|done|done|].
  { cbn. eapply has_cells; [apply agree_insert|exact Cs|apart]. }
  intros h1 A1 C1. wp_prim. eapply wp_set_kid; [cbn; rewrite A1 by apart; cbn; rewrite lookup_insert_ne by done; exact Cp|]. rewrite with_kid_other.
  set (s2 := put p _ _). assert (agree [g; ptr s1; p] (rb_nodes s) (rb_nodes s2)) as A2.
  { intros a Ha. unfold s2. cbn. rewrite !not_elem_of_cons in Ha. rewrite lookup_insert_ne by naive_solver. rewrite A1 by set_solver. cbn. by rewrite lookup_insert_ne by naive_solver. }
  change RB_RED with (bit false). eapply (wp_rotate_set_parents d k g p b2 false g (ptr s1) (ptr u) (ptr t)).
  - unfold s2. cbn. rewrite lookup_insert_ne by done. rewrite A1 by apart. cbn. by rewrite lookup_insert_eq.
  - unfold s2. cbn. by rewrite lookup_insert_eq.
  - eapply has_ctx; [exact A2|exact Ck|apart].
  - exact Hr.
  - constructor; [apart|]. constructor; [apart|done].
  - rewrite !Forall_cons, !Forall_app in Hal. rewrite !Forall_cons. split_and!; apply Hal.
  - intros h3 A3 Hk3 Hg3 Hp3. assert (rotate t f1 f2 = mk d b2 t p (mk d false (blacken s1) g u)) as Erot by (unfold rotate; cbn; by rewrite decide_True).
    apply rot_done; rewrite Erot, ?ptr_mk; cbn; [|done|done]. rewrite !has_mk, ptr_mk, ptr_blacken.
    assert (agree [g; ptr s1; p; up k] (rb_nodes s) h3) as A4.
    { intros a Ha. rewrite !not_elem_of_cons in Ha. rewrite A3 by (rewrite !not_elem_of_cons; naive_solver). apply A2. rewrite !not_elem_of_cons. naive_solver. }
    split; [exact Hp3|]. split; [eapply has_cells; [exact A4|exact Ct|apart]|]. split; [exact Hg3|].
    split; [|eapply has_cells; [exact A4|exact Cu|apart]].
    eapply has_cells; [exact A3| |rewrite inorder_blacken; apart]. unfold s2. cbn.
    eapply has_cells; [apply agree_insert|exact C1|rewrite inorder_blacken; apart].
Qed.

Lemma inner_regs td x to : t = mk d false td x to -> exists reg : Z -> nat, reg 0 = 0%nat /\ reg p = 1%nat /\ reg g = 2%nat /\ reg x = 3%nat /\ (forall a, a ∈ inorder td -> reg a = 4%nat) /\
  (forall a, a ∈ inorder to -> reg a = 5%nat) /\ (forall a, a ∈ inorder s1 -> reg a = 6%nat) /\ (forall a, a ∈ inorder u -> reg a = 7%nat) /\ (forall a, a ∈ addrs_ctx k -> reg a = 8%nat) /\
  (reg (ptr td) = 0%nat \/ reg (ptr td) = 4%nat) /\ (reg (ptr to) = 0%nat \/ reg (ptr to) = 5%nat) /\ (reg (ptr s1) = 0%nat \/ reg (ptr s1) = 6%nat) /\ (reg (up k) = 0%nat \/ reg (up k) = 8%nat) /\
  NoDup (inorder td) /\ NoDup (inorder to) /\ NoDup (addrs_ctx k).
Proof using All.
  intros Et. destruct rot_nodup as [Hnd Hal].
  assert (p :: g :: inorder t ++ inorder s1 ++ inorder u ++ addrs_ctx k ≡ₚ concat [[p]; [g]; [x]; inorder td; inorder to; inorder s1; inorder u; addrs_ctx k]) as P.
  { cbn. rewrite Et, inorder_mk_perm, app_nil_r. cbn. rewrite <-app_assoc. done. }
  rewrite P in Hnd, Hal. destruct (regions _ Hnd (aligned_zero _ Hal)) as (reg & R0 & HR). cbn in Hnd. rewrite app_nil_r in Hnd.
  do 3 apply NoDup_cons in Hnd as [_ Hnd]. apply NoDup_app in Hnd as (N1 & _ & Hnd). apply NoDup_app in Hnd as (N2 & _ & Hnd). apply NoDup_app in Hnd as (_ & _ & Hnd). apply NoDup_app in Hnd as (_ & _ & N3).
  exists reg. split; [done|]. split; [by apply (HR 0%nat [p]); [|left]|]. split; [by apply (HR 1%nat [g]); [|left]|]. split; [by apply (HR 2%nat [x]); [|left]|].
  assert (forall a, a ∈ inorder td -> reg a = 4%nat) as R4 by (intros a; by apply (HR 3%nat)).
  assert (forall a, a ∈ inorder to -> reg a = 5%nat) as R5 by (intros a; by apply (HR 4%nat)).
  assert (forall a, a ∈ inorder s1 -> reg a = 6%nat) as R6 by (intros a; by apply (HR 5%nat)).
  assert (forall a, a ∈ addrs_ctx k -> reg a = 8%nat) as R8 by (intros a; by apply (HR 7%nat)).
  split_and!; try done; [intros a; by apply (HR 6%nat)| | | |].
  - destruct (ptr_in td) as [->|?]; auto.
  - destruct (ptr_in to) as [->|?]; auto.
  - destruct (ptr_in s1) as [->|?]; auto.
  - destruct (up_in k) as [->|?]; auto.
Qed.

(** Case 2: the node is on the other side, and goes above its parent first. *)
Lemma rotate_inner_wp td x to : d1 = other d -> t = mk d false td x to -> wp (insert_rotate d (ptr t) p g) (fun _ s' => rep s' (rotate t f1 f2) k) s.
Proof using All.
  intros E1 Et. destruct (inner_regs td x to Et) as (reg & R0 & Rp & Rg & Rx & Rtd & Rto & Rs & Ru & Rk & Rpd & Rpo & Rps & Rup & Nd & No & Nk).
  destruct rot_nodup as [_ Hal]. destruct rot_cells as (Ct & Cp & Cs & Cg & Cu & Ck & Hr). rewrite E1, nd_other in Cp. rewrite Et in Ct, Cp. rewrite ptr_mk in Cp.
  apply has_mk in Ct as (Cx & Ctd & Cto). cbn in Cx. rewrite Z.add_0_r in Cx.
  rewrite Et, inorder_mk_perm in Hal. rewrite !Forall_cons, !Forall_app, Forall_cons in Hal.
  assert (word g /\ word p /\ word x) as (Hwg & Hwp & Hwx) by (split_and!; apply aligned_word, Hal).
  assert (p <> g /\ p <> x /\ g <> x) as (Hpg & Hpx & Hgx) by (split_and!; apart).
  unfold insert_rotate. rewrite Et, ptr_mk. wp_prim. eapply wp_get_kid; [exact Cp|]. rewrite kid_other, Z.eqb_refl. wp_prim.
  wp_prim. eapply wp_get_kid; [exact Cx|]. rewrite kid_same. wp_prim. eapply wp_set_kid; [exact Cp|]. rewrite with_kid_other.
  wp_prim. eapply (wp_recolor x p); [|apart|done|done|].
  { cbn. eapply has_cells; [apply agree_insert|exact Ctd|apart]. }
  intros h1 A1 C1. wp_prim. eapply wp_set_kid; [cbn; rewrite A1 by apart; cbn; rewrite lookup_insert_ne by done; exact Cx|]. rewrite with_kid_same.
  unfold rb_set_parent_color at 1. wp_prim. eapply wp_set_pc; [cbn; rewrite lookup_insert_ne by done; rewrite A1 by apart; cbn; apply lookup_insert_eq|].
  rewrite with_pc_nd. change RB_RED with (bit false). rewrite lor_bit by done. cbn [bit]. rewrite Z.add_0_r.
  set (s2 := put p _ _). assert (agree [x; ptr td; p] (rb_nodes s) (rb_nodes s2)) as A2.
  { intros a Ha. unfold s2. cbn. rewrite !not_elem_of_cons in Ha. rewrite !lookup_insert_ne by naive_solver. rewrite A1 by (rewrite not_elem_of_cons; naive_solver). cbn. by rewrite lookup_insert_ne by naive_solver. }
  assert (rb_nodes s2 !! x = Some (nd d p p (ptr to))) as Cx2 by (unfold s2; cbn; rewrite lookup_insert_ne by done; apply lookup_insert_eq).
  assert (rb_nodes s2 !! p = Some (nd d x (ptr s1) (ptr td))) as Cp2 by (unfold s2; cbn; apply lookup_insert_eq).
  assert (has (rb_nodes s2) (cells p (blacken td))) as Ctd2.
  { eapply (has_cells [x; p]); [|exact C1|rewrite inorder_blacken; apart]. intros a Ha. rewrite !not_elem_of_cons in Ha. unfold s2. cbn. by rewrite !lookup_insert_ne by naive_solver. }
  wp_prim. eapply wp_get_kid; [exact Cx2|]. rewrite kid_other. wp_prims.
  eapply wp_set_kid; [rewrite A2 by apart; exact Cg|]. rewrite with_kid_same. wp_prim. eapply (wp_recolor x g); [|apart|done|done|].
  { cbn [put rb_nodes]. eapply has_cells; [apply agree_insert| |apart]. eapply has_cells; [exact A2|exact Cto|apart]. }
  cbn [put rb_nodes rb_root]. intros h4 A4 C4. wp_prim. eapply wp_set_kid; [cbn [rb_nodes]; rewrite A4 by apart; rewrite lookup_insert_ne by done; exact Cx2|]. rewrite with_kid_other.
  set (s5 := put x _ _).
  assert (agree [g; ptr to; x] (rb_nodes s2) (rb_nodes s5)) as A5.
  { intros a Ha. unfold s5. cbn [put rb_nodes]. rewrite !not_elem_of_cons in Ha. rewrite lookup_insert_ne by naive_solver. rewrite A4 by (rewrite not_elem_of_cons; naive_solver). by rewrite lookup_insert_ne by naive_solver. }
  assert (rb_nodes s5 !! p = Some (nd d x (ptr s1) (ptr td))) as Cp5 by (rewrite A5 by apart; exact Cp2).
  assert (has (rb_nodes s5) (cells g (blacken to))) as Cto5.
  { unfold s5. cbn [put rb_nodes]. eapply has_cells; [apply agree_insert|exact C4|rewrite inorder_blacken; apart]. }
  eapply (wp_rotate_set_parents d k g x b2 false p (ptr to) (ptr u) p).
  - unfold s5. cbn [put rb_nodes]. rewrite lookup_insert_ne by done. rewrite A4 by apart. apply lookup_insert_eq.
  - unfold s5. cbn [put rb_nodes]. apply lookup_insert_eq.
  - eapply has_ctx; [exact A5| |apart]. eapply has_ctx; [exact A2|exact Ck|apart].
  - exact Hr.
  - constructor; [apart|]. constructor; [apart|done].
  - rewrite !Forall_cons. split_and!; apply Hal.
  - intros h3 A3 Hk3 Hg3 Hx3.
    assert (rotate t f1 f2 = mk d b2 (mk d false s1 p (blacken td)) x (mk d false (blacken to) g u)) as Erot.
    { rewrite Et. unfold rotate. cbn. rewrite decide_False by (rewrite E1; by destruct d). by destruct d. }
    rewrite <-Et. apply rot_done; rewrite Erot, ?ptr_mk; cbn [rb_nodes rb_root]; [|done|done]. rewrite !has_mk, !ptr_mk, !ptr_blacken.
    split; [exact Hx3|]. split; [|split; [exact Hg3|]].
    + split; [rewrite A3 by apart; cbn [bit]; rewrite Z.add_0_r; exact Cp5|]. split; (eapply has_cells; [exact A3| |rewrite ?inorder_blacken; apart]);
        (eapply has_cells; [exact A5| |rewrite ?inorder_blacken; apart]); [|exact Ctd2]. eapply has_cells; [exact A2|exact Cs|apart].
    + split; (eapply has_cells; [exact A3| |rewrite ?inorder_blacken; apart]); [exact Cto5|].
      eapply has_cells; [exact A5| |apart]. eapply has_cells; [exact A2|exact Cu|apart].
Qed.

Lemma rotate_wp : wp (insert_rotate d (ptr t) p g) (fun _ s' => rep s' (rotate t f1 f2) k) s.
Proof using All.
  destruct (decide (d1 = d)) as [E1|E1]; [by apply rotate_outer_wp|]. apply other_ne in E1. destruct (red_mk t d Ht) as (td & x & to & Et).
  by apply (rotate_inner_wp td x to).
Qed.
End rotate.

(** ** The loop *)

Lemma rep_plug s t k f : rep s t (f :: k) <-> rep s (fill t f) k.
Proof.
  assert (inorder (fill t f) ++ addrs_ctx k ≡ₚ inorder t ++ addrs_ctx (f :: k)) as P.
  { unfold fill. rewrite inorder_mk_perm, addrs_ctx_cons. cbn. by rewrite <-Permutation_middle, <-app_assoc. }
  split; intros H.
  - pose proof (rp_cells _ _ _ H) as H1. pose proof (rp_ctx _ _ _ H) as H2. cbn in H1, H2. rewrite Forall_cons, Forall_app in H2. destruct H2 as (H2 & H3 & H4).
    split; unfold fill at 1; rewrite ?ptr_mk.
    + by apply has_mk.
    + done.
    + rewrite P. apply (rp_nodup _ _ _ H).
    + rewrite P. apply (rp_aligned _ _ _ H).
    + apply (rp_root _ _ _ H).
  - pose proof (rp_cells _ _ _ H) as H1. pose proof (rp_ctx _ _ _ H) as H2. unfold fill in H1, H2. apply has_mk in H1 as (H1 & H3 & H4). rewrite ptr_mk in H2.
    split; cbn.
    + done.
    + rewrite Forall_cons, Forall_app. done.
    + rewrite <-P. apply (rp_nodup _ _ _ H).
    + rewrite <-P. apply (rp_aligned _ _ _ H).
    + pose proof (rp_root _ _ _ H) as Hr. unfold fill in Hr. by rewrite ptr_mk in Hr.
Qed.

Lemma rep_plug_all s t k : rep s t k <-> rep s (plug t k) [].
Proof. revert t. induction k as [|f k IH]; intros t; [done|]. cbn. rewrite rep_plug. apply IH. Qed.

(** Case 1: the uncle is red. *)
Lemma recolor_wp s t d1 d p g s1 u b2 k :
  rep s t (mkF d1 false p s1 :: mkF d b2 g u :: k) -> is_red t = true -> is_red u = true ->
  wp (rb_set_parent_color (ptr u) g RB_BLACK;; (rb_set_parent_color p g RB_BLACK;; (gp ← rb_parent g; rb_set_parent_color g gp RB_RED;; mret gp)))
    (fun gp s' => gp = up k /\ rep s' (mk d false (mk d1 true t p s1) g (blacken u)) k) s.
Proof.
  intros H Ht Hu. destruct (rot_nodup _ _ _ _ _ _ _ _ _ _ H Ht) as [Hnd Hal]. destruct (rot_cells _ _ _ _ _ _ _ _ _ _ H Ht) as (Ct & Cp & Cs & Cg & Cu & Ck & Hr).
  destruct (rot_regs _ _ _ _ _ _ _ _ _ _ H Ht) as (reg & R0 & Rp & Rg & Rt & Rs & Ru & Rk & Rpt & Rps & Rup).
  assert (NoDup (inorder u)) as Nu.
  { do 2 apply NoDup_cons in Hnd as [_ Hnd]. apply NoDup_app in Hnd as (_ & _ & Hnd). apply NoDup_app in Hnd as (_ & _ & Hnd). by apply NoDup_app in Hnd as (? & _). }
  assert (word g /\ word (up k)) as [Hwg Hwu].
  { split; [apply aligned_word; rewrite !Forall_cons in Hal; apply Hal|]. apply (aligned_up []). rewrite !Forall_cons, !Forall_app in Hal. apply Hal. }
  assert (ptr u ∈ inorder u) as Rpu by (destruct u; [done|cbn; apply elem_of_app; right; left]). apply Ru in Rpu.
  assert (p <> g) as Hpg by apart. assert (ptr u <> 0) as Hu0 by apart.
  wp_prim. pose proof (wp_recolor g g u s) as Hrec. unfold unless_null in Hrec. rewrite (proj2 (Z.eqb_neq _ _) Hu0) in Hrec. eapply Hrec; [done|apart|done|done|]. clear Hrec.
  intros h1 A1 C1. unfold rb_set_parent_color, rb_parent. wp_prim. eapply wp_set_pc; [cbn; rewrite A1 by apart; exact Cp|]. rewrite with_pc_nd.
  wp_prim. wp_prim. eapply wp_get_pc; [cbn; rewrite lookup_insert_ne by done; rewrite A1 by apart; exact Cg|]. rewrite pc_nd. wp_prims. rewrite parent_bit by done.
  eapply wp_set_pc; [cbn; rewrite lookup_insert_ne by done; rewrite A1 by apart; exact Cg|]. rewrite with_pc_nd.
  change RB_RED with (bit false). change RB_BLACK with (bit true). rewrite !lor_bit by done. wp_prims. split; [done|]. set (s3 := put g _ _).
  assert (agree [g; p; ptr u] (rb_nodes s) (rb_nodes s3)) as A3.
  { intros a Ha. rewrite !not_elem_of_cons in Ha. unfold s3. cbn. rewrite !lookup_insert_ne by naive_solver. apply A1. rewrite not_elem_of_cons. naive_solver. }
  assert (inorder (mk d false (mk d1 true t p s1) g (blacken u)) ++ addrs_ctx k ≡ₚ p :: g :: inorder t ++ inorder s1 ++ inorder u ++ addrs_ctx k) as P.
  { rewrite !inorder_mk_perm, inorder_blacken. cbn. rewrite <-!app_assoc. apply perm_swap. }
  split; rewrite ?P, ?ptr_mk; try done.
  - rewrite !has_mk, ptr_mk, ptr_blacken. split; [unfold s3; cbn; apply lookup_insert_eq|]. split.
    + split; [unfold s3; cbn; rewrite lookup_insert_ne by done; apply lookup_insert_eq|].
      split; (eapply has_cells; [exact A3|eassumption|apart]).
    + eapply (has_cells [g; p]); [|exact C1|rewrite inorder_blacken; apart]. intros a Ha. rewrite !not_elem_of_cons in Ha. unfold s3. cbn. by rewrite !lookup_insert_ne by naive_solver.
  - eapply has_ctx; [exact A3|exact Ck|apart].
Qed.

Lemma is_red_node_wp q t s (Q : bool -> rbst -> Prop) :
  has (rb_nodes s) (cells q t) -> (0 ∉ inorder t) -> word q -> Q (is_red t) s -> wp (is_red_node (ptr t)) Q s.
Proof.
  intros H H0 Hw HQ. unfold is_red_node, rb_is_red. destruct t as [|b l a r]; cbn [ptr is_red] in *; [by wp_prims|].
  rewrite (proj2 (Z.eqb_neq a 0)) by (intros ->; apply H0; cbn; apply elem_of_app; right; left).
  cbn in H. apply Forall_cons in H as [Ha _]. wp_prim. eapply wp_get_pc; [exact Ha|]. wp_prims. cbn. by rewrite color_bit.
Qed.

Lemma insert_fix_wp n : forall t k s, rep s t k -> is_red t = true -> (exists m, rbh_ctx m k) -> (length k < n)%nat ->
  wp (insert_fix_loop n (ptr t) (up k)) (fun _ s' => rep s' (fix_up t k) []) s.
Proof.
  induction n as [|n IH]; intros t k s H Ht [m Hm] Hn; [lia|]. cbn [insert_fix_loop]. pose proof (aligned_zero _ (rp_aligned _ _ _ H)) as H0.
  destruct k as [|f1 k1]; cbn [up].
  - cbn [fix_up]. rewrite Z.eqb_refl. pose proof (rp_cells _ _ _ H) as Hc. cbn in Hc. rewrite app_nil_r in H0.
    assert (ptr t <> 0) as Hp0 by (destruct t as [|b l a r]; [done|]; cbn; intros ->; apply H0; cbn; apply elem_of_app; right; left).
    wp_prim. pose proof (wp_recolor 0 0 t s) as Hrec. unfold unless_null in Hrec. rewrite (proj2 (Z.eqb_neq _ _) Hp0) in Hrec.
    eapply Hrec; [done|done| |done|]; [by pose proof (rp_nodup _ _ _ H) as Hnd; cbn in Hnd; rewrite app_nil_r in Hnd|]. intros h' _ Hh. unfold set_root. wp_prims.
    split; rewrite ?inorder_blacken, ?ptr_blacken; try done; apply H.
  - assert (f_addr f1 <> 0) as Hf0 by (intros E; apply H0; apply elem_of_app; right; rewrite addrs_ctx_cons, E; left).
    rewrite (proj2 (Z.eqb_neq _ _) Hf0). destruct f1 as [d1 b1 p s1]. cbn [f_addr] in *. pose proof (rp_ctx _ _ _ H) as Hc. cbn in Hc. apply Forall_cons in Hc as [Cp _]. unfold holds in Cp. cbn in Cp.
    assert (word (up k1)) as Hwk.
    { apply (aligned_up (inorder t ++ p :: inorder s1)). pose proof (rp_aligned _ _ _ H) as Hal. rewrite addrs_ctx_cons in Hal. cbn in Hal. by rewrite <-app_assoc. }
    unfold rb_is_black. wp_prim. wp_prim. eapply wp_get_pc; [exact Cp|]. rewrite pc_nd. wp_prims. rewrite color_bit, negb_involutive by done. cbn [fix_up f_black].
    destruct b1; [wp_prims; exact (proj1 (rep_plug_all s t _) H)|]. cbn in Hm. destruct Hm as (_ & _ & (f2 & k2 & -> & Eb2) & Hm). cbn in Hm. rewrite Eb2 in Hm. destruct Hm as [_ Hm].
    destruct f2 as [d b2 g u]. cbn [f_black f_addr f_sub f_side] in *. destruct (rot_cells _ _ _ _ _ _ _ _ _ _ H Ht) as (Ct & _ & Cs & Cg & Cu & Ck & Hr).
    destruct (rot_regs _ _ _ _ _ _ _ _ _ _ H Ht) as (reg & R0 & Rp & Rg & Rt & Rs & Ru & Rk & Rpt & Rps & Rup).
    unfold rb_red_parent. wp_prim. eapply wp_get_pc; [exact Cp|]. rewrite pc_nd. cbn [up f_addr bit]. rewrite Z.add_0_r. cbn [up f_addr] in Hwk.
    wp_prim. eapply wp_get_kid; [exact Cg|].
    assert ((if negb (p =? kid R (nd d (up k2 + bit b2) p (ptr u))) then L else R) = d) as ->.
    { destruct d; cbn; [|by rewrite Z.eqb_refl]. rewrite (proj2 (Z.eqb_neq _ _)); [done|]. destruct (ptr_in u); apart. }
    wp_prim. eapply wp_get_kid; [exact Cg|]. rewrite kid_other. wp_prim. eapply is_red_node_wp; [exact Cu|apart|done|].
    destruct (is_red u) eqn:Eu.
    2: { eapply wp_mono; [by apply (rotate_wp s t d1 d p g s1 u b2 k2)|]. intros [] s' H'. exact (proj1 (rep_plug_all s' _ k2) H'). }
    eapply wp_bind_mono; [exact (recolor_wp s t d1 d p g s1 u b2 k2 H Ht Eu)|]. cbn beta. intros [] s' Hrec.
    eapply wp_bind_mono; [exact Hrec|]. clear Hrec. cbn beta. intros [] s2 Hrec.
    eapply wp_bind_mono; [exact Hrec|]. clear Hrec. cbn beta. intros gp s3 Hrec.
    eapply wp_bind_mono; [exact Hrec|]. clear Hrec. cbn beta. intros [] s4 Hrec. apply wp_ret in Hrec as [-> H4].
    pose proof (IH _ k2 s4 H4) as Hloop. rewrite ptr_mk, is_red_mk in Hloop. apply Hloop; [done|by exists (S m)|cbn in Hn; lia].
Qed.
