(* ===== verification/RbTreeProps.v ===== *)
(** * [_rb_insert], [_rb_lookup] and [_rb_first] on sorted, balanced trees *)

From Stdlib Require Import ZArith Lia Sorting.Sorted.
From stdpp Require Import base tactics numbers gmap list fin_maps fin_sets.
From S2P Require Import Prelude RbTree RbTreeSpec RbTreeProofs.

Local Open Scope Z_scope.

Lemma rep_dom s t k a : rep s t k -> a ∈ inorder t ++ addrs_ctx k -> a ∈ dom (rb_nodes s).
Proof.
  intros H Ha. assert (has (rb_nodes s) (cells (up k) t ++ cells_ctx k (ptr t))) as Hc by (apply Forall_app; split; apply H).
  assert (a ∈ (cells (up k) t ++ cells_ctx k (ptr t)).*1) as Hin by (by rewrite fmap_app, cells_addr, cells_ctx_addr).
  apply list_elem_of_fmap in Hin as (c & -> & Hin). rewrite Forall_forall in Hc. apply elem_of_dom. exists c.2. by apply Hc.
Qed.

(** A tree has no more nodes than the memory. *)
Lemma rep_size s t k : rep s t k -> (length (inorder t ++ addrs_ctx k) <= size (rb_nodes s))%nat.
Proof.
  intros H. rewrite <-(size_list_to_set (C := gset Z)) by apply (rp_nodup _ _ _ H). rewrite <-(size_dom (D := gset Z)). apply subseteq_size.
  intros a Ha%elem_of_list_to_set. by eapply rep_dom.
Qed.

Lemma length_ctx k : (length k <= length (addrs_ctx k))%nat.
Proof. induction k as [|f k IH]; [done|]. rewrite addrs_ctx_cons. cbn. rewrite length_app. lia. Qed.

(** Other nodes do not matter. *)
Lemma rep_put s t k x n : rep s t k -> x ∉ inorder t ++ addrs_ctx k -> rep (put x n s) t k.
Proof.
  intros H Hx. rewrite elem_of_app in Hx. split; cbn; [..|apply H].
  - eapply has_cells; [apply agree_insert|apply H|]. intros a Ha ->%list_elem_of_singleton. tauto.
  - eapply has_ctx; [apply agree_insert|apply H|]. intros a Ha ->%list_elem_of_singleton. tauto.
  - apply H.
  - apply H.
Qed.

(** The new node is linked under the last node of the descent. *)
Lemma link_rep s f k x n : rep s E (f :: k) -> rb_nodes s !! x = Some n -> rb_left n = 0 -> rb_right n = 0 -> aligned x -> x ∉ addrs_ctx (f :: k) ->
  wp (set_kid (f_side f) (f_addr f) x;; (set_pc x (f_addr f);; mret true)) (fun b s' => b = true /\ rep s' (T false E x E) (f :: k)) s.
Proof.
  intros H Hx Hl Hr Hal Hn. pose proof (rp_ctx _ _ _ H) as Hc. cbn in Hc. apply Forall_cons in Hc as [Cf Hc]. unfold holds in Cf. cbn in Cf.
  rewrite addrs_ctx_cons, elem_of_cons, elem_of_app in Hn. assert (f_addr f <> x) as Hne by (intros <-; tauto).
  pose proof (rp_nodup _ _ _ H) as Hnd. cbn in Hnd. apply NoDup_cons in Hnd as [Nf Hnd].
  wp_prim. eapply wp_set_kid; [exact Cf|]. rewrite with_kid_same. wp_prim. eapply wp_set_pc; [cbn; rewrite lookup_insert_ne by done; exact Hx|]. wp_prims.
  split; [done|]. unfold with_pc. rewrite Hl, Hr. split.
  - cbn. constructor; [|constructor]. unfold holds. cbn. rewrite lookup_insert_eq. by rewrite Z.add_0_r.
  - cbn. constructor; [unfold holds; cbn; rewrite lookup_insert_ne by done; apply lookup_insert_eq|].
    eapply (has_agree [f_addr f; x]); [|exact Hc|].
    { intros a Ha. rewrite !not_elem_of_cons in Ha. destruct Ha as (Ha1 & Ha2 & _). by rewrite !lookup_insert_ne by congruence. }
    intros a. rewrite fmap_app, cells_addr, cells_ctx_addr. intros Ha. rewrite !not_elem_of_cons. split; [by intros ->|]. split; [|apply not_elem_of_nil].
    intros ->. apply elem_of_app in Ha. tauto.
  - cbn. constructor; [|apply (rp_nodup _ _ _ H)]. change (x ∉ addrs_ctx (f :: k)). rewrite addrs_ctx_cons, elem_of_cons, elem_of_app. tauto.
  - cbn. constructor; [done|apply (rp_aligned _ _ _ H)].
  - apply (rp_root _ _ _ H).
Qed.

Section cmp.
Context (cmp : Z -> Z -> bool).

Lemma insert_descend_wp n : forall t k s x, rep s t k -> t <> E -> (length (inorder t) <= n)%nat -> rb_nodes s !! x = Some (mkRb 0 0 0) -> aligned x -> x ∉ inorder t ++ addrs_ctx k ->
  wp (insert_descend cmp n x (ptr t)) (fun b s' => match descend cmp x t k with Some k' => b = true /\ rep s' (T false E x E) k' | None => b = false /\ s' = s end) s.
Proof.
  induction n as [|n IH]; intros t k s x H Ht Hn Hx Hal Hni.
  { destruct t; [done|]. cbn in Hn. rewrite length_app in Hn. cbn in Hn. lia. }
  destruct t as [|b l a r]; [done|]. cbn [insert_descend descend ptr].
  pose proof (rp_cells _ _ _ H) as Ha. cbn in Ha. apply Forall_cons in Ha as [Ha _]. unfold holds in Ha. cbn in Ha.
  cbn in Hn. rewrite length_app in Hn. cbn in Hn.
  assert (0 ∉ inorder (T b l a r)) as H0 by (intros Hz; apply (aligned_zero _ (rp_aligned _ _ _ H)), elem_of_app; by left).
  assert (forall d t', kid d (mkRb (up k + bit b) (ptr r) (ptr l)) = ptr t' -> fill t' (mkF d b a (match d with L => r | R => l end)) = T b l a r -> (length (inorder t') <= n)%nat ->
    wp (next ← get_kid d a; if next =? 0 then set_kid d a x;; (set_pc x a;; mret true) else insert_descend cmp n x next)
      (fun b' s' => match descend cmp x t' (mkF d b a (match d with L => r | R => l end) :: k) with Some k' => b' = true /\ rep s' (T false E x E) k' | None => b' = false /\ s' = s end) s) as Hgo.
  { intros d t' Ek Efill Hlen. set (f := mkF d b a (match d with L => r | R => l end)) in *. assert (rep s t' (f :: k)) as H' by (apply rep_plug; by rewrite Efill).
    assert (x ∉ inorder t' ++ addrs_ctx (f :: k)) as Hni'.
    { intros Hin. apply Hni. assert (inorder (T b l a r) ++ addrs_ctx k ≡ₚ inorder t' ++ addrs_ctx (f :: k)) as ->; [|done].
      rewrite <-Efill. unfold fill. rewrite inorder_mk_perm, addrs_ctx_cons. cbn. by rewrite <-Permutation_middle, <-app_assoc. }
    wp_prim. eapply wp_get_kid; [exact Ha|]. rewrite Ek. destruct t' as [|b' l' a' r'].
    - cbn [ptr descend]. rewrite Z.eqb_refl. apply (link_rep s f k x _ H' Hx); [done|done|done|done].
    - cbn [ptr]. rewrite (proj2 (Z.eqb_neq a' 0)).
      + apply (IH (T b' l' a' r') (f :: k) s x); done.
      + intros ->. apply H0. rewrite <-Efill. unfold fill. rewrite inorder_mk_perm. right. apply elem_of_app. left. cbn. apply elem_of_app. right. left. }
  destruct (cmp x a); [apply (Hgo L l); [done|done|lia]|]. destruct (cmp a x); [apply (Hgo R r); [done|done|lia]|]. wp_prims. done.
Qed.

Lemma first_descend_wp n : forall t k s, rep s t k -> t <> E -> (length (inorder t) <= n)%nat -> first_descend n (ptr t) s = Ret (default 0 (head (inorder t)), s).
Proof.
  induction n as [|n IH]; intros t k s H Ht Hn; (destruct t as [|b l a r]; [done|]); cbn in Hn; rewrite length_app in Hn; cbn in Hn; [lia|].
  pose proof (rp_cells _ _ _ H) as Ha. cbn in Ha. apply Forall_cons in Ha as [Ha _]. unfold holds in Ha. cbn in Ha. cbn [first_descend ptr].
  assert (get_kid L a s = Ret (ptr l, s)) as Hk by (unfold get_kid, load, some_or_ub, mbind, M_bind; by rewrite Ha).
  unfold mbind at 1, M_bind at 1. rewrite Hk. destruct l as [|b' l' a' r'] eqn:El; [done|]. cbn [ptr]. rewrite <-El in *.
  rewrite (proj2 (Z.eqb_neq a' 0)).
  - replace a' with (ptr l) by (by rewrite El). rewrite (IH l (mkF L b a r :: k)); [|by apply rep_plug|by rewrite El|lia]. do 2 f_equal. cbn.
    rewrite El. cbn. by destruct (inorder l').
  - intros ->. apply (aligned_zero _ (rp_aligned _ _ _ H)). apply elem_of_app. left. cbn. apply elem_of_app. left. rewrite El. cbn. apply elem_of_app. right. left.
Qed.

(** The node that the search of a tree ends at. *)
Fixpoint search (x : Z) (t : rbt) : Z :=
  match t with E => 0 | T _ l a r => if cmp x a then search x l else if cmp a x then search x r else a end.

Lemma lookup_descend_wp n : forall t k s x, rep s t k -> (length (inorder t) < n)%nat -> lookup_descend cmp n x (ptr t) s = Ret (search x t, s).
Proof.
  induction n as [|n IH]; intros t k s x H Hn; [lia|]. destruct t as [|b l a r]; cbn [lookup_descend ptr search]; [by rewrite Z.eqb_refl|].
  cbn in Hn. rewrite length_app in Hn. cbn in Hn. pose proof (rp_cells _ _ _ H) as Ha. cbn in Ha. apply Forall_cons in Ha as [Ha _]. unfold holds in Ha. cbn in Ha.
  rewrite (proj2 (Z.eqb_neq a 0)) by (intros ->; apply (aligned_zero _ (rp_aligned _ _ _ H)), elem_of_app; left; cbn; apply elem_of_app; right; left).
  assert (forall d, get_kid d a s = Ret (kid d (mkRb (up k + bit b) (ptr r) (ptr l)), s)) as Hk by (intros d; unfold get_kid, load, some_or_ub, mbind, M_bind; by rewrite Ha).
  destruct (cmp x a); [|destruct (cmp a x); [|done]]; unfold mbind, M_bind; rewrite Hk; cbn.
  - apply (IH l (mkF L b a r :: k)); [by apply rep_plug|lia].
  - apply (IH r (mkF R b a l :: k)); [by apply rep_plug|lia].
Qed.
End cmp.

(** A descent is no longer than the tree. *)
Lemma descend_size cmp x t k k' : descend cmp x t k = Some k' -> (length k' <= length (inorder t) + length k)%nat.
Proof.
  revert k. induction t as [|b l IHl a r IHr]; intros k; cbn [descend]; [intros [= <-]; cbn; lia|]. cbn [inorder]. rewrite length_app. cbn [length].
  destruct (cmp x a); [intros H%IHl; cbn in H; lia|]. destruct (cmp a x); [intros H%IHr; cbn in H; lia|done].
Qed.

(** ** Properties *)

(** A strict weak order: what the comparison of the caller has to be. *)
Record strict_order (cmp : Z -> Z -> bool) : Prop := {
  so_irrefl : forall x, cmp x x = false;
  so_trans : forall x y z, cmp x y = true -> cmp y z = true -> cmp x z = true;
  so_cotrans : forall x y z, cmp x z = true -> cmp x y = true \/ cmp y z = true }.

(** The tree at the root pointer, sorted and balanced. *)
Definition tree_at (cmp : Z -> Z -> bool) (s : rbst) (t : rbt) : Prop := rep s t [] /\ sorted cmp t /\ balanced t.

Lemma insert_empty cmp s x : rep s E [] -> aligned x ->
  wp (_rb_insert cmp x) (fun r s' => r = 0 /\ rep s' (T true E x E) []) s.
Proof.
  intros H Hal. pose proof (rp_root _ _ _ H) as Hr. cbn in Hr. unfold _rb_insert, fuel, store, __rb_insert_fix, rb_red_parent. wp_prims. rewrite Hr. cbn [Z.eqb]. wp_prims.
  eapply wp_get_pc; [cbn; apply lookup_insert_eq|]. cbn [__rb_parent_color insert_fix_loop Z.eqb]. wp_prims. unfold rb_set_parent_color. eapply wp_set_pc; [cbn; apply lookup_insert_eq|].
  unfold set_root. wp_prims. split; [done|]. split; cbn; try done.
  - constructor; [|constructor]. unfold holds. cbn. by rewrite lookup_insert_eq.
  - constructor; [apply not_elem_of_nil|constructor].
  - by constructor.
Qed.

(** C34: [_rb_insert] returns, and refines insertion into a sorted list: it puts a
    node that is not in the tree at the place its key has in the order of the
    nodes, and the tree is again a red-black tree (no red node under a red one,
    the same number of black nodes on every way down, a black root). When a node
    with an equal key is there it returns -1 and the tree stays as it was. *)
Theorem rb_insert_refines cmp s t x :
  strict_order cmp -> tree_at cmp s t -> aligned x -> x ∉ inorder t ->
  exists r s', _rb_insert cmp x s = Ret (r, s') /\
    match ins cmp x (inorder t) with
    | Some l => r = 0 /\ exists t', tree_at cmp s' t' /\ inorder t' = l
    | None => r = -1 /\ tree_at cmp s' t
    end.
Proof.
  intros [Hirr Htr Hco] (H & Hs & Hb) Hal Hx.
  assert (wp (_rb_insert cmp x) (fun r s' => match ins cmp x (inorder t) with Some l => r = 0 /\ exists t', rep s' t' [] /\ balanced t' /\ inorder t' = l | None => r = -1 /\ rep s' t [] end) s) as Hw.
  { destruct t as [|b l a r] eqn:Et.
    - eapply wp_mono; [by apply insert_empty|]. cbn. intros z s' [-> H']. split; [done|]. exists (T true E x E). split; [done|]. split; [|done]. split; [done|]. by exists 1%nat, 0%nat.
    - rewrite <-Et in *. unfold _rb_insert, fuel, store. wp_prims. change (mkRbst _ _) with (put x (mkRb 0 0 0) s). set (s1 := put x (mkRb 0 0 0) s).
      assert (rep s1 t []) as H1 by (apply rep_put; [done|cbn; by rewrite app_nil_r]). pose proof (rp_root _ _ _ H) as Hr. cbn in Hr.
      assert (ptr t <> 0) as Hp0.
      { rewrite Et. cbn. intros ->. apply (aligned_zero _ (rp_aligned _ _ _ H)), elem_of_app. left. rewrite Et. cbn. apply elem_of_app. right. left. }
      pose proof (rep_size _ _ _ H) as Hsz. rewrite length_app in Hsz. cbn in Hsz.
      rewrite Hr, (proj2 (Z.eqb_neq _ _) Hp0). eapply wp_mono; [apply (insert_descend_wp cmp _ t [] s1 x H1); [by rewrite Et|lia|apply lookup_insert_eq|done|cbn; by rewrite app_nil_r]|].
      intros done s2 Hd. pose proof (descend_ins cmp Hirr Htr Hco x t [] Hs) as Hins. destruct (descend cmp x t []) as [k'|] eqn:Ed.
      + destruct Hins as (k1 & Ek & _ & ->). rewrite app_nil_r in Ek. subst k1. destruct Hd as [-> H2]. unfold __rb_insert_fix, rb_red_parent. wp_prim. wp_prim.
        pose proof (rp_cells _ _ _ H2) as Hc. cbn in Hc. apply Forall_cons in Hc as [Hc _]. unfold holds in Hc. cbn in Hc. rewrite Z.add_0_r in Hc.
        eapply wp_get_pc; [exact Hc|]. cbn [__rb_parent_color]. destruct Hb as [Hblack [m Hm]].
        assert (rbh_ctx 0 k') as Hctx by (eapply (descend_ctx cmp m x t []); [done|done|by rewrite Hblack|done]).
        eapply wp_mono; [apply (insert_fix_wp _ (T false E x E) k' s2 H2); [done|by exists 0%nat|]|].
        { pose proof (descend_size cmp x t [] k' Ed) as Hlen. cbn in Hlen. lia. }
        intros [] s3 H3. wp_prims. split; [done|]. exists (fix_up (T false E x E) k'). split; [done|]. split; [|by apply inorder_fix_up].
        by apply (fix_up_balanced 0).
      + destruct Hd as [-> ->]. rewrite Hins. wp_prims. done. }
  unfold wp in Hw. destruct (_rb_insert cmp x s) as [[z s']| | |]; try done. exists z, s'. split; [done|]. destruct (ins cmp x (inorder t)) as [l|] eqn:Ei.
  - destruct Hw as (-> & t' & H1 & H2 & <-). split; [done|]. exists t'. split; [|done]. split; [done|]. split; [|done]. by apply (ins_sorted cmp Hirr Htr Hco x (inorder t)).
  - destruct Hw as [-> H1]. split; [done|]. done.
Qed.

(** [_rb_first] returns the least node of the tree, or NULL when it is empty,
    and [_rb_lookup] returns a node of equal key exactly when the tree has one;
    neither changes the tree. *)
Theorem rb_first_lookup cmp s t x :
  strict_order cmp -> tree_at cmp s t ->
  _rb_first s = Ret (default 0 (head (inorder t)), s) /\
  exists r, _rb_lookup cmp x s = Ret (r, s) /\
    ((r ∈ inorder t /\ cmp x r = false /\ cmp r x = false) \/ (r = 0 /\ forall m, m ∈ inorder t -> cmp x m = true \/ cmp m x = true)).
Proof.
  intros [Hirr Htr Hco] (H & Hs & _). pose proof (rp_root _ _ _ H) as Hr. cbn in Hr. pose proof (rep_size _ _ _ H) as Hsz. rewrite length_app in Hsz. cbn in Hsz. split.
  - unfold _rb_first, fuel, gets, mbind, M_bind. rewrite Hr. destruct t as [|b l a r] eqn:Et; [done|]. rewrite <-Et in *.
    rewrite (proj2 (Z.eqb_neq (ptr t) 0)); [apply (first_descend_wp _ t []); [done|by rewrite Et|lia]|].
    rewrite Et. cbn. intros ->. apply (aligned_zero _ (rp_aligned _ _ _ H)), elem_of_app. left. rewrite Et. cbn. apply elem_of_app. right. left.
  - exists (search cmp x t). split; [unfold _rb_lookup, fuel, gets, mbind, M_bind; rewrite Hr; apply (lookup_descend_wp cmp _ t []); [done|lia]|].
    clear H Hr Hsz. induction t as [|b l IHl a r IHr]; cbn [search inorder]; [right; split; [done|]; by intros m ?%elem_of_nil|].
    destruct (sorted_node _ _ _ _ _ Hs) as (Hl & Hr & Hla & Har). rewrite Forall_forall in Hla, Har. unfold lt in *. destruct (cmp x a) eqn:E1; [|destruct (cmp a x) eqn:E2].
    + destruct (IHl Hl) as [(H1 & H2)|(H1 & H2)]; [left; split; [apply elem_of_app; by left|done]|]. right. split; [done|].
      intros m [Hm|[->|Hm]%elem_of_cons]%elem_of_app; [by apply H2|by left|]. left. eapply Htr; [exact E1|by apply Har].
    + destruct (IHr Hr) as [(H1 & H2)|(H1 & H2)]; [left; split; [apply elem_of_app; right; by right|done]|]. right. split; [done|].
      intros m [Hm|[->|Hm]%elem_of_cons]%elem_of_app; [|by right|by apply H2]. right. eapply Htr; [by apply Hla|done].
    + left. split; [apply elem_of_app; right; left|done].
Qed.

(** ** A small tree *)

Lemma ltb_order : strict_order Z.ltb.
Proof. split; intros; lia. Qed.

Definition demo_tree : rbt := T true (T false E 8 E) 16 (T false E 32 E).
Definition demo_heap : rbst := mkRbst (list_to_map [(8, mkRb 16 0 0); (16, mkRb 1 32 8); (32, mkRb 16 0 0)]) 16.

Lemma demo_tree_at : tree_at Z.ltb demo_heap demo_tree.
Proof.
  split; [|split; [repeat constructor|split; [done|exists 1%nat, 0%nat; repeat split]]].
  split; [repeat constructor|constructor| | |reflexivity]; cbn.
  - apply (bool_decide_unpack _). vm_compute. done.
  - repeat constructor.
Qed.

Lemma rb_insert_refines_witness : exists r s', _rb_insert Z.ltb 24 demo_heap = Ret (r, s') /\ r = 0 /\ exists t', tree_at Z.ltb s' t' /\ inorder t' = [8; 16; 24; 32].
Proof.
  destruct (rb_insert_refines Z.ltb demo_heap demo_tree 24) as (r & s' & H1 & H2 & H3); [apply ltb_order|apply demo_tree_at|done| |].
  - apply (bool_decide_unpack _). vm_compute. exact I.
  - exists r, s'. split; [exact H1|]. split; [exact H2|exact H3].
Defined.

Lemma rb_first_lookup_witness : _rb_first demo_heap = Ret (8, demo_heap) /\ exists r, _rb_lookup Z.ltb 32 demo_heap = Ret (r, demo_heap).
Proof.
  destruct (rb_first_lookup Z.ltb demo_heap demo_tree 32) as [H1 (r & H2 & _)]; [apply ltb_order|apply demo_tree_at|].
  split; [exact H1|]. exists r. exact H2.
Defined.
