(* ===== verification/File.v ===== *)
(** * Open files and file system calls: [fs/file.c], [fs/pipe.c],
      [kernel/sysfile.c]

    One definition per function, over the inode layer (file [Inode], with any
    block cache) and pipes (file [Pipe]).  The state has the table of files, the
    pipes in memory and the descriptors of the current process.  A pointer to
    [ftable.filelist[i]] is [i + 1], and NULL is 0.  A call runs alone to its
    end.

    Bytes that a call stores in user memory are part of its result, and bytes
    that it reads there are an argument.  [wr] is the result of [user_writeable]
    on the buffer; [user_readable] is always true.  The value -1 stands for the
    result [(u64)-1] of a system call. *)

From Stdlib Require Import ZArith Lia.
From stdpp Require Import base tactics numbers gmap list.
From S2P Require Import Prelude FsDefs Strings Console BlockCache Inode Pipe.

Local Open Scope Z_scope.

Definition NFILE : Z := 65536.
Definition NOFILE : Z := 16.

Inductive ftype : Type := FD_NONE | FD_PIPE | FD_INODE.
#[global] Instance ftype_dec : EqDecision ftype.
Proof. solve_decision. Defined.

(** [struct file]; [f_obj] is the union of [pipe] and [ip]. *)
Record File : Type := mkFile {
  f_type : ftype;
  f_ref : Z;
  f_readable : bool;
  f_writable : bool;
  f_obj : Z;
  f_off : Z }.
(** A file of the table at first: static memory is zero. *)
Definition no_file : File := mkFile FD_NONE 0 false false 0 0.

Record fstate (S : Type) : Type := mkFstate {
  fs_ino : istate S;
  fs_lock : bool;
  fs_files : gmap Z File;
  fs_pipes : gmap Z Pipe;
  fs_openfile : list Z }.
Arguments mkFstate {S}.
Arguments fs_ino {S}.
Arguments fs_lock {S}.
Arguments fs_files {S}.
Arguments fs_pipes {S}.
Arguments fs_openfile {S}.

Definition f_with_ref (n : Z) (f : File) : File := mkFile (f_type f) n (f_readable f) (f_writable f) (f_obj f) (f_off f).
Definition f_with_type (t : ftype) (f : File) : File := mkFile t (f_ref f) (f_readable f) (f_writable f) (f_obj f) (f_off f).
Definition f_with_off (n : Z) (f : File) : File := mkFile (f_type f) (f_ref f) (f_readable f) (f_writable f) (f_obj f) n.

Section file.
Context {S : Type} (bc : BlockCache S) (junk junk_name junk_pipe : list Z) (ctx : Z).
Abbreviation FM := (M (fstate S)).
Abbreviation inode_put := (inode_put bc).
Abbreviation inode_get := (inode_get bc).
Abbreviation inode_read := (inode_read bc).
Abbreviation inode_write := (inode_write bc).

Definition fs_with_ino (i : istate S) (s : fstate S) : fstate S := mkFstate i (fs_lock s) (fs_files s) (fs_pipes s) (fs_openfile s).
Definition fs_with_lock (b : bool) (s : fstate S) : fstate S := mkFstate (fs_ino s) b (fs_files s) (fs_pipes s) (fs_openfile s).
Definition fs_with_files (m : gmap Z File) (s : fstate S) : fstate S := mkFstate (fs_ino s) (fs_lock s) m (fs_pipes s) (fs_openfile s).
Definition fs_with_pipes (m : gmap Z Pipe) (s : fstate S) : fstate S := mkFstate (fs_ino s) (fs_lock s) (fs_files s) m (fs_openfile s).
Definition fs_with_openfile (l : list Z) (s : fstate S) : fstate S := mkFstate (fs_ino s) (fs_lock s) (fs_files s) (fs_pipes s) l.

(** Calls into the inode layer and the block cache. *)
Definition ino {A} : M (istate S) A -> FM A := zoom fs_ino fs_with_ino.
Definition begin_op : FM unit := ino (cache (bc_begin_op bc ctx)).
Definition end_op : FM unit := ino (cache (bc_end_op bc ctx)).

(** A call on the pipe at [p], which goes away with [kfree]. *)
Definition on_pipe {A} (p : Z) (m : PM A) : FM A := fun s =>
  match fs_pipes s !! p with
  | None => UB
  | Some x =>
      match m x with
      | Ret (a, x') => Ret (a, fs_with_pipes (if p_alive x' then <[p := x']> (fs_pipes s) else delete p (fs_pipes s)) s)
      | Panic => Panic
      | Block => Block
      | UB => UB
      end
  end.

Definition acquire_ftable : FM unit := b ← gets fs_lock; if (b : bool) then block else modify (fs_with_lock true).
Definition release_ftable : FM unit := modify (fs_with_lock false).

(** The file at a pointer of the table. *)
Definition file_at (s : fstate S) (f : Z) : File := default no_file (fs_files s !! f).
Definition load_file (f : Z) : FM File := fun s => if bool_decide (1 <= f <= NFILE) then Ret (file_at s f, s) else UB.
Definition store_file (f : Z) (x : File) : FM unit := modify (fun s => fs_with_files (<[f := x]> (fs_files s)) s).

Definition killed : FM bool := gets (fun s => is_killed (fs_ino s)).

(** ** [fs/file.c] *)

Definition init_ftable : FM unit := modify (fs_with_lock false).
Definition init_oftable : FM unit := modify (fs_with_openfile (replicate (Z.to_nat NOFILE) 0)).

Fixpoint file_alloc_loop (n : nat) (i : Z) : FM Z :=
  match n with
  | O => release_ftable;; mret 0
  | Datatypes.S n' =>
      x ← load_file (i + 1);
      if f_ref x =? 0 then store_file (i + 1) (f_with_ref 1 x);; release_ftable;; mret (i + 1)
      else file_alloc_loop n' (i + 1)
  end.
Definition file_alloc : FM Z := acquire_ftable;; file_alloc_loop (Z.to_nat NFILE) 0.

Definition file_dup (f : Z) : FM Z :=
  acquire_ftable;;
  x ← load_file f;
  ASSERT (1 <=? f_ref x);;
  store_file f (f_with_ref (f_ref x + 1) x);;
  release_ftable;;
  mret f.

Definition file_close (f : Z) : FM unit :=
  acquire_ftable;;
  x ← load_file f;
  ASSERT (1 <=? f_ref x);;
  store_file f (f_with_ref (f_ref x - 1) x);;
  if 0 <? f_ref x - 1 then release_ftable else
  now ← load_file f;
  store_file f (f_with_type FD_NONE now);;
  release_ftable;;
  match f_type now with
  | FD_PIPE => on_pipe (f_obj now) (pipe_close (f_writable now))
  | FD_INODE => begin_op;; ino (inode_put ctx (f_obj now));; end_op
  | FD_NONE => mret tt
  end.

(** [file_stat]: the result, and the [struct stat] it fills in. *)
Definition file_stat (f : Z) : FM (Z * option stat) :=
  x ← load_file f;
  match f_type x with
  | FD_INODE =>
      ino (inode_lock (f_obj x));;
      st ← ino (stati (f_obj x));
      ino (inode_unlock (f_obj x));;
      mret (0, Some st)
  | _ => mret (-1, None)
  end.

Definition file_read (f n : Z) : FM (Z * list Z) :=
  x ← load_file f;
  if negb (f_readable x) then mret (-1, []) else
  match f_type x with
  | FD_INODE =>
      ino (inode_lock (f_obj x));;
      r ← ino (inode_read (f_obj x) (f_off x) n);
      (if 0 <? fst r then store_file f (f_with_off (f_off x + fst r) x) else mret tt);;
      ino (inode_unlock (f_obj x));;
      mret r
  | FD_PIPE => k ← killed; on_pipe (f_obj x) (pipe_read k n)
  | FD_NONE => panic
  end.

(** The loop of [file_write] on an inode: the value of [idx] at its end.  [n]
    bounds the turns. *)
Definition maxbytes : Z := (OP_MAX_NUM_BLOCKS - 4) / 2 * BLOCK_SIZE.
Fixpoint file_write_loop (n : nat) (f : Z) (bytes : list Z) (idx : Z) : FM Z :=
  if negb (0 <? Z.of_nat (length bytes)) then mret idx else
  match n with
  | O => block
  | Datatypes.S n' =>
      let len := Z.min (Z.of_nat (length bytes)) maxbytes in
      begin_op;;
      x ← load_file f;
      ino (inode_lock (f_obj x));;
      real_len ← ino (inode_write ctx (f_obj x) (take (Z.to_nat len) bytes) (f_off x));
      (if 0 <? real_len then store_file f (f_with_off (f_off x + real_len) x) else mret tt);;
      ino (inode_unlock (f_obj x));;
      end_op;;
      if real_len <? 0 then mret idx else
      ASSERT (real_len =? len);;
      file_write_loop n' f (drop (Z.to_nat len) bytes) (idx + real_len)
  end.

Definition file_write (f : Z) (bytes : list Z) : FM Z :=
  x ← load_file f;
  if negb (f_writable x) then mret (-1) else
  match f_type x with
  | FD_INODE =>
      idx ← file_write_loop (length bytes) f bytes 0;
      mret (if idx =? Z.of_nat (length bytes) then idx else -1)
  | FD_PIPE => k ← killed; on_pipe (f_obj x) (pipe_write k bytes)
  | FD_NONE => mret 0
  end.

(** ** The rest of [fs/pipe.c] *)

Definition init_read_pipe (f p : Z) : FM unit := x ← load_file f; store_file f (mkFile FD_PIPE (f_ref x) true false p (f_off x)).
Definition init_write_pipe (f p : Z) : FM unit := x ← load_file f; store_file f (mkFile FD_PIPE (f_ref x) false true p (f_off x)).

(** [kalloc(sizeof(Pipe))]: an address that is not NULL and not in use. *)
Definition kalloc_pipe : FM Z := gets (fun s => fresh ({[0]} ∪ dom (fs_pipes s) : gset Z)).

(** The result and the two files. *)
Definition pipe_alloc : FM (Z * Z * Z) :=
  f0 ← file_alloc;
  f1 ← (if f0 =? 0 then mret 0 else file_alloc);
  if (f0 =? 0) || (f1 =? 0) then
    (if negb (f0 =? 0) then file_close f0 else mret tt);;
    (if negb (f1 =? 0) then file_close f1 else mret tt);;
    mret (-1, f0, f1)
  else
    p ← kalloc_pipe;
    modify (fun s => fs_with_pipes (<[p := init_pipe junk_pipe]> (fs_pipes s)) s);;
    init_read_pipe f0 p;;
    init_write_pipe f1 p;;
    mret (0, f0, f1).

(** ** [kernel/sysfile.c] *)

Definition set_openfile (fd f : Z) : FM unit := modify (fun s => fs_with_openfile (<[Z.to_nat fd := f]> (fs_openfile s)) s).

Definition fd2file (fd : Z) : FM Z :=
  if (fd <? 0) || (NOFILE <=? fd) then mret 0 else fun s => some_or_ub (fs_openfile s !! Z.to_nat fd) s.

Fixpoint fdalloc_loop (n : nat) (i f : Z) : FM Z :=
  match n with
  | O => mret (-1)
  | Datatypes.S n' =>
      x ← fd2file i;
      if x =? 0 then set_openfile i f;; mret i else fdalloc_loop n' (i + 1) f
  end.
Definition fdalloc (f : Z) : FM Z := fdalloc_loop (Z.to_nat NOFILE) 0 f.

Definition sys_ioctl (fd request : Z) : FM Z := ASSERT (request =? 21523);; mret 0.
Definition sys_mmap : FM Z := mret 0.
Definition sys_munmap (addr length : Z) : FM Z := mret (u64 (addr + length)).

Definition sys_dup (fd : Z) : FM Z :=
  f ← fd2file fd;
  if f =? 0 then mret (-1) else
  fd ← fdalloc f;
  if fd <? 0 then mret (-1) else
  file_dup f;;
  mret fd.

Definition sys_read (fd size : Z) (wr : bool) : FM (Z * list Z) :=
  f ← fd2file fd;
  if (f =? 0) || (size <=? 0) || negb wr then mret (-1, []) else file_read f size.

Definition sys_write (fd : Z) (bytes : list Z) : FM Z :=
  f ← fd2file fd;
  if (f =? 0) || (Z.of_nat (length bytes) <=? 0) then mret (-1) else file_write f bytes.

(** The loop of [writev]; the total is an unsigned word. *)
Fixpoint writev_loop (f : Z) (iov : list (list Z)) (tot : Z) : FM Z :=
  match iov with
  | [] => mret tot
  | bytes :: iov' => r ← file_write f bytes; writev_loop f iov' (u64 (tot + r))
  end.
Definition sys_writev (fd : Z) (iov : list (list Z)) : FM Z :=
  f ← fd2file fd;
  if (f =? 0) || (Z.of_nat (length iov) <=? 0) then mret (-1) else writev_loop f iov 0.

(** [openfile[fd] = NULL] is outside the array for other descriptors. *)
Definition sys_close (fd : Z) : FM Z :=
  f ← fd2file fd;
  (if (0 <=? fd) && (fd <? NOFILE) then set_openfile fd 0 else ub);;
  file_close f;;
  mret 0.

Definition sys_fstat (fd : Z) (wr : bool) : FM (Z * option stat) :=
  f ← fd2file fd;
  if (f =? 0) || negb wr then mret (-1, None) else file_stat f.

(** [user_strlen(path, maxlen)] on the bytes at [path]; nothing when they end
    before the string does. *)
Fixpoint user_strlen (path : list Z) (maxlen : nat) (i : Z) : option Z :=
  match maxlen with
  | O => Some 0
  | Datatypes.S n => match path with [] => None | c :: path' => if c =? 0 then Some (i + 1) else user_strlen path' n (i + 1) end
  end.
Definition path_ok (path : list Z) : FM bool := n ← some_or_ub (user_strlen path 256 0); mret (negb (n =? 0)).

Definition AT_FDCWD : Z := -100.

Definition sys_newfstatat (dirfd : Z) (path : list Z) (flags : Z) (wr : bool) : FM (Z * option stat) :=
  ok ← path_ok path;
  if negb ok || negb wr then mret (-1, None) else
  if negb (dirfd =? AT_FDCWD) then mret (-1, None) else
  if negb (flags =? 0) then mret (-1, None) else
  begin_op;;
  ip ← ino (namei bc junk path junk_name ctx);
  if ip =? 0 then end_op;; mret (-1, None) else
  ino (inode_lock ip);;
  st ← ino (stati ip);
  ino (inode_unlock ip);;
  ino (inode_put ctx ip);;
  end_op;;
  mret (0, Some st).

(** The loop of [isdirempty]; [n] bounds the turns. *)
Fixpoint isdirempty_loop (n : nat) (dp off : Z) : FM bool :=
  e ← ino (entry_of dp);
  if negb (off <? ie_num_bytes e) then mret true else
  match n with
  | O => block
  | Datatypes.S n' =>
      r ← ino (inode_read dp off DIRENT_SIZE);
      if negb (fst r =? DIRENT_SIZE) then panic else
      if negb (de_inode_no (dirent_of_bytes (snd r)) =? 0) then mret false else
      isdirempty_loop n' dp (off + DIRENT_SIZE)
  end.
Definition isdirempty (dp : Z) : FM bool := e ← ino (entry_of dp); isdirempty_loop (dir_turns (ie_num_bytes e)) dp (2 * DIRENT_SIZE).

Definition DOT : list Z := [46; 0].
Definition DOTDOT : list Z := [46; 46; 0].

Definition set_links (p d : Z) : FM unit :=
  e ← ino (entry_of p);
  ino (set_entry p (mkEntry (ie_type e) (ie_major e) (ie_minor e) (u16 (ie_num_links e + d)) (ie_num_bytes e) (ie_addrs e) (ie_indirect e))).

Definition unlink_bad (dp : Z) : FM Z := ino (inode_unlock dp);; ino (inode_put ctx dp);; end_op;; mret (-1).

Definition sys_unlinkat (fd : Z) (path : list Z) (flag : Z) : FM Z :=
  ASSERT ((fd =? AT_FDCWD) && (flag =? 0));;
  ok ← path_ok path;
  if negb ok then mret (-1) else
  begin_op;;
  '(dp, name) ← ino (nameiparent bc junk path junk_name ctx);
  if dp =? 0 then end_op;; mret (-1) else
  ino (inode_lock dp);;
  d1 ← some_or_ub (buf_strncmp name DOT (Z.to_nat FILE_NAME_MAX_LENGTH));
  d2 ← (if d1 =? 0 then mret 1 else some_or_ub (buf_strncmp name DOTDOT (Z.to_nat FILE_NAME_MAX_LENGTH)));
  if (d1 =? 0) || (d2 =? 0) then unlink_bad dp else
  '(inumber, off) ← ino (inode_lookup bc junk dp name);
  match off with
  | None => unlink_bad dp
  | Some off =>
      if inumber =? 0 then unlink_bad dp else
      ip ← ino (inode_get inumber);
      ino (inode_lock ip);;
      e ← ino (entry_of ip);
      if ie_num_links e <? 1 then panic else
      empty ← (if ie_type e =? INODE_DIRECTORY then isdirempty ip else mret true);
      if negb empty then ino (inode_unlock ip);; ino (inode_put ctx ip);; unlink_bad dp else
      r ← ino (inode_write ctx dp (replicate (Z.to_nat DIRENT_SIZE) 0) off);
      if negb (r =? DIRENT_SIZE) then panic else
      (if ie_type e =? INODE_DIRECTORY then set_links dp (-1);; ino (inode_sync bc ctx dp true) else mret tt);;
      ino (inode_unlock dp);;
      ino (inode_put ctx dp);;
      set_links ip (-1);;
      ino (inode_sync bc ctx ip true);;
      ino (inode_unlock ip);;
      ino (inode_put ctx ip);;
      end_op;;
      mret 0
  end.

Definition create (path : list Z) (type major minor : Z) : FM Z :=
  '(dir, name) ← ino (nameiparent bc junk path junk_name ctx);
  if dir =? 0 then mret 0 else
  ino (inode_lock dir);;
  '(inode_no, _) ← ino (inode_lookup bc junk dir name);
  if negb (inode_no =? 0) then
    ip ← ino (inode_get inode_no);
    ino (inode_unlock dir);;
    ino (inode_put ctx dir);;
    ino (inode_lock ip);;
    e ← ino (entry_of ip);
    if (type =? INODE_REGULAR) && (ie_type e =? INODE_REGULAR) then mret ip else
    ino (inode_unlock ip);;
    ino (inode_put ctx ip);;
    mret 0
  else
  new ← ino (inode_alloc bc ctx type);
  ip ← ino (inode_get new);
  ASSERT (negb (ip =? 0));;
  ino (inode_lock ip);;
  e ← ino (entry_of ip);
  ino (set_entry ip (mkEntry (ie_type e) major minor 1 (ie_num_bytes e) (ie_addrs e) (ie_indirect e)));;
  ino (inode_sync bc ctx ip true);;
  i ← ino (load_ino ip);
  d ← ino (load_ino dir);
  (if type =? INODE_DIRECTORY then
     set_links dir 1;;
     ino (inode_sync bc ctx dir true);;
     ino (inode_insert bc junk ctx ip DOT (i_no i));;
     ino (inode_insert bc junk ctx ip DOTDOT (i_no d));;
     mret tt
   else mret tt);;
  ino (inode_insert bc junk ctx dir name (i_no i));;
  ino (inode_unlock dir);;
  ino (inode_put ctx dir);;
  mret ip.

Definition O_WRONLY : Z := 1.
Definition O_RDWR : Z := 2.
Definition O_CREAT : Z := 64.
Definition has_flag (omode flag : Z) : bool := negb (Z.land omode flag =? 0).

Definition sys_openat (dirfd : Z) (path : list Z) (omode : Z) : FM Z :=
  ok ← path_ok path;
  if negb ok then mret (-1) else
  if negb (dirfd =? AT_FDCWD) then mret (-1) else
  begin_op;;
  ip ← (if has_flag omode O_CREAT then create path INODE_REGULAR 0 0
        else ip ← ino (namei bc junk path junk_name ctx); (if ip =? 0 then mret tt else ino (inode_lock ip));; mret ip);
  if ip =? 0 then end_op;; mret (-1) else
  f ← file_alloc;
  fd ← (if f =? 0 then mret (-1) else fdalloc f);
  if (f =? 0) || (fd <? 0) then
    (if negb (f =? 0) then file_close f else mret tt);;
    ino (inode_unlock ip);;
    ino (inode_put ctx ip);;
    end_op;;
    mret (-1)
  else
  ino (inode_unlock ip);;
  end_op;;
  x ← load_file f;
  store_file f (mkFile FD_INODE (f_ref x) (negb (has_flag omode O_WRONLY)) (has_flag omode O_WRONLY || has_flag omode O_RDWR) ip 0);;
  mret fd.

(** The end of [mkdirat] and [mknodat]. *)
Definition create_close (path : list Z) (type major minor : Z) : FM Z :=
  begin_op;;
  ip ← create path type major minor;
  if ip =? 0 then end_op;; mret (-1) else
  ino (inode_unlock ip);;
  ino (inode_put ctx ip);;
  end_op;;
  mret 0.
Definition sys_mkdirat (dirfd : Z) (path : list Z) (mode : Z) : FM Z :=
  ok ← path_ok path;
  if negb ok then mret (-1) else
  if negb (dirfd =? AT_FDCWD) then mret (-1) else
  if negb (mode =? 0) then mret (-1) else
  create_close path INODE_DIRECTORY 0 0.
(** [ma] and [mi] are [major(dev)] and [minor(dev)]. *)
Definition sys_mknodat (dirfd : Z) (path : list Z) (ma mi : Z) : FM Z :=
  ok ← path_ok path;
  if negb ok then mret (-1) else
  if negb (dirfd =? AT_FDCWD) then mret (-1) else
  create_close path INODE_DEVICE (u16 ma) (u16 mi).

Definition sys_chdir (path : list Z) : FM Z :=
  begin_op;;
  ip ← ino (namei bc junk path junk_name ctx);
  if ip =? 0 then end_op;; mret (-1) else
  ino (inode_lock ip);;
  e ← ino (entry_of ip);
  if negb (ie_type e =? INODE_DIRECTORY) then
    ino (inode_unlock ip);;
    ino (inode_put ctx ip);;
    end_op;;
    mret (-1)
  else
  ino (inode_unlock ip);;
  cwd ← gets (fun s => is_cwd (fs_ino s));
  ino (inode_put ctx cwd);;
  end_op;;
  modify (fun s => fs_with_ino (mkIstate (is_sblock (fs_ino s)) (is_cache (fs_ino s)) (is_lock (fs_ino s)) (is_head (fs_ino s)) (is_inodes (fs_ino s))
    (is_root (fs_ino s)) (is_cons (fs_ino s)) (is_killed (fs_ino s)) ip) s);;
  mret 0.

(** The result and the two descriptors. *)
Definition sys_pipe2 (flags : Z) : FM (Z * Z * Z) :=
  if negb (flags =? 0) then mret (-1, 0, 0) else
  '(r, rf, wf) ← pipe_alloc;
  if r <? 0 then mret (-1, 0, 0) else
  rfd ← fdalloc rf;
  wfd ← fdalloc wf;
  if (rfd <? 0) || (wfd <? 0) then
    (if 0 <=? rfd then set_openfile rfd 0 else mret tt);;
    file_close rf;;
    file_close wf;;
    mret (-1, 0, 0)
  else mret (0, rfd, wfd).
End file.
