(* ===== verification/FileProofs.v ===== *)
(** * Reference counts of open files, pipes through descriptors *)

From Stdlib Require Import ZArith Lia.
From stdpp Require Import base tactics numbers gmap list relations.
From S2P Require Import Prelude FsDefs Strings Console BlockCache Inode Ring Pipe File.

Local Open Scope Z_scope.

(** ** Calls that return *)

(** Whenever [m] returns, [Q] holds of its result: for code that calls into a
    layer whose outcome does not matter here. *)
Definition wlp {S A} (m : M S A) (Q : A -> S -> Prop) (s : S) : Prop := forall a s', m s = Ret (a, s') -> Q a s'.

Section wlp_laws.
Context {S : Type}.

Lemma wlp_ret {A} (a : A) (Q : A -> S -> Prop) s : Q a s -> wlp (mret a) Q s.
Proof. intros H b s' [= <- <-]. done. Qed.
Lemma wlp_bind {A B} (m : M S A) (f : A -> M S B) (Q : B -> S -> Prop) s : wlp m (fun a s' => wlp (f a) Q s') s -> wlp (m ≫= f) Q s.
Proof. intros H b s'. unfold mbind, M_bind. destruct (m s) as [[a s1]| | |] eqn:E; try done. by apply H. Qed.
Lemma wlp_mono {A} (m : M S A) (Q R : A -> S -> Prop) s : wlp m Q s -> (forall a s', Q a s' -> R a s') -> wlp m R s.
Proof. intros H HQ a s' E. by apply HQ, H. Qed.
Lemma wlp_gets {A} (f : S -> A) (Q : A -> S -> Prop) s : Q (f s) s -> wlp (gets f) Q s.
Proof. intros H b s' [= <- <-]. done. Qed.
Lemma wlp_modify (f : S -> S) (Q : unit -> S -> Prop) s : Q tt (f s) -> wlp (modify f) Q s.
Proof. intros H b s' [= <- <-]. done. Qed.
Lemma wlp_ASSERT b (Q : unit -> S -> Prop) s : (b = true -> Q tt s) -> wlp (ASSERT b) Q s.
Proof. unfold ASSERT. destruct b; [intros H; apply wlp_ret; auto|intros _ a s' E; done]. Qed.
Lemma wlp_some {A} (o : option A) (Q : A -> S -> Prop) s : (forall a, o = Some a -> Q a s) -> wlp (some_or_ub o) Q s.
Proof. destruct o as [a|]; [intros H; apply wlp_ret; auto|intros _ a s' E; done]. Qed.
Lemma wlp_stop {A} (m : M S A) (Q : A -> S -> Prop) s : (forall r, m s <> Ret r) -> wlp m Q s.
Proof. intros H a s' E. by destruct (H (a, s')). Qed.
End wlp_laws.

Ltac wlp_prim :=
  lazymatch goal with
  | |- wlp (_ ≫= _) _ _ => apply wlp_bind
  | |- wlp (mret _) _ _ => apply wlp_ret
  | |- wlp (gets _) _ _ => apply wlp_gets
  | |- wlp (modify _) _ _ => apply wlp_modify
  | |- wlp (ASSERT _) _ _ => apply wlp_ASSERT; intros ?
  | |- wlp (some_or_ub _) _ _ => apply wlp_some; intros ? ?
  | |- wlp panic _ _ => apply wlp_stop; done
  | |- wlp block _ _ => apply wlp_stop; done
  | |- wlp ub _ _ => apply wlp_stop; done
  end; cbn beta.
Ltac wlp_prims := repeat wlp_prim.

Section file.
Context {S : Type} (bc : BlockCache S) (junk junk_name junk_pipe : list Z) (ctx : Z).
Abbreviation FM := (M (fstate S)).
Implicit Types s : fstate S.

(** Calls into the other layers change only their part of the state. *)
Lemma wlp_ino {A} (m : M (istate S) A) (Q : A -> fstate S -> Prop) s : (forall a i, Q a (fs_with_ino i s)) -> wlp (ino m) Q s.
Proof. intros H a s'. unfold ino, zoom. destruct (m (fs_ino s)) as [[b i]| | |]; try done. intros [= <- <-]. apply H. Qed.
Lemma wlp_pipe {A} p (m : PM A) (Q : A -> fstate S -> Prop) s : (forall a x, Q a (fs_with_pipes x s)) -> wlp (on_pipe p m) Q s.
Proof.
  intros H a s'. unfold on_pipe. destruct (fs_pipes s !! p) as [x|]; [|done]. destruct (m x) as [[b x']| | |]; try done.
  intros [= <- <-]. apply H.
Qed.

(** ** Reference counts *)

Definition rc s (f : Z) : Z := f_ref (file_at s f).
(** How many descriptors refer to [f]. *)
Definition refs (l : list Z) (f : Z) : Z := Z.of_nat (length (filter (fun g => g = f) l)).
Definition one (f g : Z) : Z := if decide (g = f) then 1 else 0.
Definition is_fp (f : Z) : Prop := 1 <= f <= NFILE.
(** A file that is not open has no type. *)
Definition idle s : Prop := forall f, rc s f = 0 -> f_type (file_at s f) = FD_NONE.

(** [s'] has the counts of [s] changed by [d], and the same descriptors. *)
Record shifted (d : Z -> Z) s s' : Prop := mkShifted {
  sh_open : fs_openfile s' = fs_openfile s;
  sh_rc : forall g, rc s' g = rc s g + d g;
  sh_idle : idle s -> idle s' }.
Definition kept : fstate S -> fstate S -> Prop := shifted (fun _ => 0).

Lemma kept_files s s' : fs_openfile s' = fs_openfile s -> fs_files s' = fs_files s -> kept s s'.
Proof.
  intros Eo Ef. assert (forall g, file_at s' g = file_at s g) as E by (intros g; unfold file_at; by rewrite Ef).
  split; [done|intros g; unfold rc; rewrite E; lia|intros H g; unfold rc; rewrite E; apply H].
Qed.
Lemma kept_refl s : kept s s.
Proof. by apply kept_files. Qed.
Lemma shifted_trans d1 d2 d3 s1 s2 s3 : shifted d1 s1 s2 -> shifted d2 s2 s3 -> (forall g, d3 g = d1 g + d2 g) -> shifted d3 s1 s3.
Proof. intros [E1 H1 I1] [E2 H2 I2] Hd. split; [congruence| |auto]. intros g. rewrite H2, H1, Hd. lia. Qed.
Lemma kept_trans s1 s2 s3 : kept s1 s2 -> kept s2 s3 -> kept s1 s3.
Proof. intros H1 H2. eapply shifted_trans; [apply H1|apply H2|]. intros g. cbn. lia. Qed.
Lemma shifted_kept d s1 s2 s3 : shifted d s1 s2 -> kept s2 s3 -> shifted d s1 s3.
Proof. intros H1 H2. eapply shifted_trans; [done|apply H2|]. intros g. cbn. lia. Qed.
Lemma kept_shifted d s1 s2 s3 : kept s1 s2 -> shifted d s2 s3 -> shifted d s1 s3.
Proof. intros H1 H2. eapply shifted_trans; [apply H1|done|]. intros g. cbn. lia. Qed.
Lemma shifted_back d e s1 s2 s3 : shifted d s1 s2 -> shifted e s2 s3 -> (forall g, d g + e g = 0) -> kept s1 s3.
Proof. intros H1 H2 H. eapply shifted_trans; [done|done|]. intros g. by rewrite H. Qed.

Lemma file_at_store s f x g : file_at (fs_with_files (<[f := x]> (fs_files s)) s) g = if decide (g = f) then x else file_at s g.
Proof. unfold file_at. cbn. case_decide as D; [subst; by rewrite lookup_insert_eq|by rewrite lookup_insert_ne]. Qed.

(** The file [f] is now [x]. *)
Definition now (f : Z) (x : File) s s' : Prop :=
  fs_openfile s' = fs_openfile s /\ forall g, file_at s' g = if decide (g = f) then x else file_at s g.

Lemma now_shifted f x (d : Z) s s' :
  now f x s s' -> f_ref x = rc s f + d -> (f_ref x = 0 -> f_type x = FD_NONE \/ d = 0 /\ f_type x = f_type (file_at s f)) ->
  shifted (fun g => d * one f g) s s'.
Proof.
  intros [Eo E] H Ht. split; [done| |].
  - intros g. unfold rc, one. rewrite E. case_decide; [subst; rewrite H; unfold rc; lia|lia].
  - intros Hi g. unfold rc. rewrite E. case_decide; [|apply Hi]. intros E0. destruct (Ht E0) as [T|[D T]]; [done|].
    rewrite T. apply Hi. lia.
Qed.
Lemma now_kept f x s s' :
  now f x s s' -> f_ref x = rc s f -> (f_ref x = 0 -> f_type x = f_type (file_at s f)) -> kept s s'.
Proof.
  intros H Er Ht. pose proof (now_shifted f x 0 s s' H) as [E1 E2 E3]; [lia|intros E; right; auto|].
  split; [done| |done]. intros g. rewrite E2. lia.
Qed.
Lemma now_store f x s : now f x s (fs_with_files (<[f := x]> (fs_files s)) s).
Proof. split; [done|]. intros g. apply file_at_store. Qed.
Lemma now_again f x y s s1 s2 : now f x s s1 -> now f y s1 s2 -> now f y s s2.
Proof. intros [O1 E1] [O2 E2]. split; [congruence|]. intros g. rewrite E2, E1. by case_decide. Qed.
Lemma now_files f x s s1 s2 : now f x s s1 -> fs_openfile s2 = fs_openfile s1 -> fs_files s2 = fs_files s1 -> now f x s s2.
Proof. intros [O E] Eo Ef. split; [congruence|]. intros g. rewrite <-E. unfold file_at. by rewrite Ef. Qed.
Lemma now_at f x s s' : now f x s s' -> file_at s' f = x.
Proof. intros [_ E]. rewrite E. by rewrite decide_True. Qed.

Lemma wlp_load f s (Q : File -> fstate S -> Prop) : (is_fp f -> Q (file_at s f) s) -> wlp (load_file f) Q s.
Proof. intros H a s'. unfold load_file. case_bool_decide; [|done]. intros [= <- <-]. auto. Qed.
Lemma wlp_store f x s (Q : unit -> fstate S -> Prop) : (forall s', now f x s s' -> Q tt s') -> wlp (store_file f x) Q s.
Proof. intros H. apply wlp_modify, H, now_store. Qed.
Lemma wlp_acquire s (Q : unit -> fstate S -> Prop) : Q tt (fs_with_lock true s) -> wlp acquire_ftable Q s.
Proof. intros H. unfold acquire_ftable. wlp_prims. destruct (fs_lock s); wlp_prims. done. Qed.

(** ** [file.c] *)

Lemma file_alloc_loop_wlp n i s0 s : kept s0 s -> wlp (file_alloc_loop n i) (fun f s' =>
  f = 0 /\ kept s0 s' \/ is_fp f /\ rc s0 f = 0 /\ shifted (one f) s0 s') s.
Proof.
  revert i s. induction n as [|n IH]; intros i s Hk; cbn [file_alloc_loop].
  - unfold release_ftable. wlp_prims. left. split; [done|]. by eapply kept_trans; [|apply (kept_files s)].
  - apply wlp_bind, wlp_load. intros Hf. destruct (f_ref (file_at s (i + 1)) =? 0) eqn:E; [|by apply IH].
    apply wlp_bind, wlp_store. intros s1 H1. unfold release_ftable. wlp_prims. right.
    assert (rc s (i + 1) = 0) as Hr by (unfold rc; lia). split; [done|]. split.
    + rewrite (sh_rc _ _ _ Hk) in Hr. lia.
    + apply (shifted_kept _ _ s1); [|by apply kept_files]. apply (kept_shifted _ _ s); [done|].
      destruct (now_shifted _ _ 1 _ _ H1) as [E1 E2 E3]; [cbn; lia|done|]. split; [done| |done]. intros g. rewrite E2. lia.
Qed.
Lemma file_alloc_wlp s : wlp file_alloc (fun f s' => f = 0 /\ kept s s' \/ is_fp f /\ rc s f = 0 /\ shifted (one f) s s') s.
Proof. unfold file_alloc. apply wlp_bind, wlp_acquire, file_alloc_loop_wlp. by apply kept_files. Qed.

Lemma file_dup_wlp f s : wlp (file_dup f) (fun r s' => r = f /\ shifted (one f) s s') s.
Proof.
  unfold file_dup. apply wlp_bind, wlp_acquire, wlp_bind, wlp_load. intros Hf. apply wlp_bind, wlp_ASSERT. intros Hr.
  apply wlp_bind, wlp_store. intros s1 H1. unfold release_ftable. wlp_prims. split; [done|].
  apply (shifted_kept _ _ s1); [|by apply kept_files]. apply (kept_shifted _ _ (fs_with_lock true s)); [by apply kept_files|].
  destruct (now_shifted _ _ 1 _ _ H1) as [E1 E2 E3]; [done|cbn; lia|]. split; [done| |done]. intros g. rewrite E2. lia.
Qed.

Lemma file_close_wlp f s : wlp (file_close bc ctx f) (fun _ s' => is_fp f /\ 1 <= rc s f /\ shifted (fun g => - one f g) s s') s.
Proof.
  unfold file_close. apply wlp_bind, wlp_acquire, wlp_bind, wlp_load. intros Hf. set (s0 := fs_with_lock true s). apply wlp_bind, wlp_ASSERT. intros Hr.
  assert (kept s s0) as H0 by by apply kept_files. change (f_ref (file_at s0 f)) with (rc s f) in *.
  assert (forall x s', now f x s0 s' -> f_ref x = rc s f - 1 -> (f_ref x = 0 -> f_type x = FD_NONE) ->
    is_fp f /\ 1 <= rc s f /\ shifted (fun g => - one f g) s s') as Done.
  { intros x s' Hn Er Ht. split; [done|]. split; [lia|]. eapply kept_shifted; [done|].
    destruct (now_shifted _ _ (-1) _ _ Hn) as [E1 E2 E3]; [change (rc s0 f) with (rc s f); lia|auto|]. split; [done| |done]. intros g. rewrite E2. lia. }
  apply wlp_bind, wlp_store. intros s1 H1. unfold release_ftable. destruct (0 <? rc s f - 1) eqn:E.
  - wlp_prims. eapply Done; [by eapply now_files|done|cbn; lia].
  - apply wlp_bind, wlp_load. intros _. rewrite (now_at _ _ _ _ H1). apply wlp_bind, wlp_store. intros s2 H2. wlp_prims.
    pose proof (now_again _ _ _ _ _ _ H1 H2) as H3.
    destruct (f_type _); unfold begin_op, end_op.
    + wlp_prims. eapply Done; [by eapply now_files|done|done].
    + apply wlp_pipe. intros _ x. eapply Done; [by eapply now_files|done|done].
    + apply wlp_bind, wlp_ino. intros _ i1. apply wlp_bind, wlp_ino. intros _ i2. apply wlp_ino. intros _ i3.
      eapply Done; [by eapply now_files|done|done].
Qed.

(** ** Calls that leave the counts alone *)

Definition keeps {A} (m : FM A) : Prop := forall s, wlp m (fun _ s' => kept s s') s.

Lemma keeps_bind {A B} (m : FM A) (f : A -> FM B) : keeps m -> (forall a, keeps (f a)) -> keeps (m ≫= f).
Proof.
  intros Hm Hf s. apply wlp_bind. eapply wlp_mono; [apply Hm|]. intros a s1 H1. eapply wlp_mono; [apply Hf|]. intros b s2 H2.
  exact (kept_trans _ _ _ H1 H2).
Qed.
Lemma keeps_ret {A} (a : A) : keeps (mret a).
Proof. intros s. apply wlp_ret, kept_refl. Qed.
Lemma keeps_gets {A} (f : fstate S -> A) : keeps (gets f).
Proof. intros s. apply wlp_gets, kept_refl. Qed.
Lemma keeps_stop {A} (m : FM A) : (forall s r, m s <> Ret r) -> keeps m.
Proof. intros H s. by apply wlp_stop. Qed.
Lemma keeps_ASSERT b : keeps (ASSERT b).
Proof. intros s. apply wlp_ASSERT. intros _. apply kept_refl. Qed.
Lemma keeps_some {A} (o : option A) : keeps (some_or_ub o).
Proof. intros s. apply wlp_some. intros a _. apply kept_refl. Qed.
Lemma keeps_ino {A} (m : M (istate S) A) : keeps (ino m).
Proof. intros s. apply wlp_ino. intros _ i. by apply kept_files. Qed.
Lemma keeps_pipe {A} p (m : PM A) : keeps (on_pipe p m).
Proof. intros s. apply wlp_pipe. intros _ x. by apply kept_files. Qed.
Lemma keeps_load f : keeps (load_file f).
Proof. intros s. apply wlp_load. intros _. apply kept_refl. Qed.
Lemma keeps_fd2file fd : keeps (fd2file fd).
Proof.
  intros s. unfold fd2file. destruct (_ || _); [apply wlp_ret, kept_refl|]. intros a s'.
  destruct (fs_openfile s !! Z.to_nat fd); [intros [= <- <-]; apply kept_refl|done].
Qed.
End file.

(** Decompose a call into its parts. *)
Ltac keeps_step :=
  lazymatch goal with
  | |- keeps (_ ≫= _) => apply keeps_bind; [|intros ?]
  | |- keeps (mret _) => apply keeps_ret
  | |- keeps (gets _) => apply keeps_gets
  | |- keeps (ASSERT _) => apply keeps_ASSERT
  | |- keeps (some_or_ub _) => apply keeps_some
  | |- keeps (ino _) => apply keeps_ino
  | |- keeps (on_pipe _ _) => apply keeps_pipe
  | |- keeps (load_file _) => apply keeps_load
  | |- keeps (fd2file _) => apply keeps_fd2file
  | |- keeps (begin_op _ _) => apply keeps_ino
  | |- keeps (end_op _ _) => apply keeps_ino
  | |- keeps panic => apply keeps_stop; done
  | |- keeps block => apply keeps_stop; done
  | |- keeps ub => apply keeps_stop; done
  | |- keeps (if ?b then _ else _) => destruct b
  | |- keeps (match ?x with _ => _ end) => destruct x
  end.
Ltac keeps := repeat (keeps_step || solve [auto with keeps]).

Create HintDb keeps.

Section calls.
Context {S : Type} (bc : BlockCache S) (junk junk_name junk_pipe : list Z) (ctx : Z).
Implicit Types s : fstate S.

Lemma keeps_file_stat f : keeps (@file_stat S f).
Proof. unfold file_stat. keeps. Qed.

(** The offset of an open file moves. *)
Lemma moved f n s s1 s2 :
  (exists i, s1 = fs_with_ino i s) -> now f (f_with_off n (file_at s f)) s1 s2 -> kept s s2.
Proof.
  intros [i ->] H. apply (kept_trans _ (fs_with_ino i s)); [by apply kept_files|]. by eapply now_kept.
Qed.

Lemma keeps_file_read f n : keeps (file_read bc f n).
Proof.
  intros s. unfold file_read. apply wlp_bind, wlp_load. intros Hf. destruct (negb _); [apply wlp_ret, kept_refl|].
  destruct (f_type _); [by apply wlp_stop|apply wlp_bind, wlp_gets, wlp_pipe; intros _ x; by apply kept_files|].
  apply wlp_bind, wlp_ino. intros _ i1. apply wlp_bind, wlp_ino. intros r i2. apply wlp_bind. destruct (0 <? fst r).
  - apply wlp_store. intros s1 H1. apply wlp_bind, wlp_ino. intros _ i3. apply wlp_ret. eapply kept_trans; [|by apply (kept_files s1)].
    eapply moved; [|done]. by eexists.
  - apply wlp_ret. apply wlp_bind, wlp_ino. intros _ i3. apply wlp_ret. by apply kept_files.
Qed.

Lemma keeps_write_loop n f bytes idx : keeps (file_write_loop bc ctx n f bytes idx).
Proof.
  revert bytes idx. induction n as [|n IH]; intros bytes idx s; cbn [file_write_loop]; (destruct (negb _); [apply wlp_ret, kept_refl|]); [by apply wlp_stop|].
  unfold begin_op, end_op. apply wlp_bind, wlp_ino. intros _ i1. apply wlp_bind, wlp_load. intros Hf. apply wlp_bind, wlp_ino. intros _ i2.
  apply wlp_bind, wlp_ino. intros r i3. apply wlp_bind. eapply wlp_mono with (Q := fun _ s' => kept s s').
  - destruct (0 <? r); [|apply wlp_ret; by apply kept_files]. apply wlp_store. intros s1 H1. eapply moved; [|done]. by eexists.
  - intros ? s1 H1. apply wlp_bind, wlp_ino. intros _ i4. apply wlp_bind, wlp_ino. intros _ i5.
    assert (kept s (fs_with_ino i5 (fs_with_ino i4 s1))) as H2 by (eapply kept_trans; [done|by apply kept_files]).
    destruct (r <? 0); [by apply wlp_ret|]. apply wlp_bind, wlp_ASSERT. intros _. eapply wlp_mono; [apply IH|]. intros ? s2 H3.
    exact (kept_trans _ _ _ H2 H3).
Qed.
#[local] Hint Resolve keeps_write_loop keeps_file_read keeps_file_stat : keeps.

Lemma keeps_file_write f bytes : keeps (file_write bc ctx f bytes).
Proof. unfold file_write, killed. keeps. Qed.
#[local] Hint Resolve keeps_file_write : keeps.

(** ** Descriptors *)

Lemma refs_cons x l g : refs (x :: l) g = one x g + refs l g.
Proof. unfold refs, one. rewrite filter_cons. destruct (decide (x = g)), (decide (g = x)); subst; cbn [length]; try done; lia. Qed.
Lemma refs_insert l i x f g : l !! i = Some x -> refs (<[i := f]> l) g = refs l g + one f g - one x g.
Proof.
  revert i. induction l as [|y l IH]; intros [|i] Hl; try done.
  - injection Hl as ->. cbn [insert list_insert]. rewrite !refs_cons. lia.
  - change (<[Datatypes.S i := f]> (y :: l)) with (y :: <[i := f]> l). rewrite !refs_cons, (IH i Hl). lia.
Qed.
Lemma one_null g : is_fp g -> one 0 g = 0.
Proof. unfold is_fp, one. intros H. rewrite decide_False by lia. done. Qed.

(** Every descriptor is closed or refers to a file of the table, and the count
    of a file is the number of descriptors for it, of this process and, as
    [extra] has it, of the others. *)
Record files_ok (extra : Z -> Z) s : Prop := mkFilesOk {
  fo_len : length (fs_openfile s) = Z.to_nat NOFILE;
  fo_fp : Forall (fun f => f = 0 \/ is_fp f) (fs_openfile s);
  fo_rc : forall f, is_fp f -> rc s f = refs (fs_openfile s) f + extra f;
  fo_idle : idle s }.

Lemma fd2file_wlp fd s (Q : Z -> fstate S -> Prop) :
  Q 0 s -> (forall f, 0 <= fd < NOFILE -> fs_openfile s !! Z.to_nat fd = Some f -> Q f s) -> wlp (fd2file fd) Q s.
Proof.
  intros H0 H. unfold fd2file. destruct (_ || _) eqn:E; [by apply wlp_ret|]. intros a s'.
  destruct (fs_openfile s !! Z.to_nat fd) as [f|] eqn:Ef; [|done]. intros [= <- <-]. apply H; [lia|done].
Qed.

(** [fdalloc f] finds a closed descriptor, unless there is none. *)
Definition fdalloc_post (f : Z) s (fd : Z) s' : Prop :=
  fd = -1 /\ s' = s /\ (forall k, 0 <= k < NOFILE -> fs_openfile s !! Z.to_nat k <> Some 0) \/
  0 <= fd < NOFILE /\ fs_openfile s !! Z.to_nat fd = Some 0 /\ s' = fs_with_openfile (<[Z.to_nat fd := f]> (fs_openfile s)) s.

Lemma fdalloc_loop_wlp n i f s : 0 <= i -> i + Z.of_nat n = NOFILE -> (forall k, 0 <= k < i -> fs_openfile s !! Z.to_nat k <> Some 0) ->
  wlp (fdalloc_loop n i f) (fdalloc_post f s) s.
Proof.
  revert i. induction n as [|n IH]; intros i H0 Hi Hno; cbn [fdalloc_loop].
  { apply wlp_ret. left. split; [done|]. split; [done|]. intros k Hk. apply Hno. lia. }
  assert (0 <= i < NOFILE) as Hr by lia. apply wlp_bind. intros x s' Hx.
  unfold fd2file in Hx. replace ((i <? 0) || (NOFILE <=? i)) with false in Hx by lia.
  destruct (fs_openfile s !! Z.to_nat i) as [y|] eqn:Ey; [|done]. injection Hx as <- <-. destruct (y =? 0) eqn:Ey0.
  - unfold set_openfile. wlp_prims. right. split; [done|]. split; [|done]. rewrite Ey. f_equal. lia.
  - apply IH; [lia|lia|]. intros k Hk. destruct (decide (k = i)) as [->|]; [|apply Hno; lia]. rewrite Ey. intros [= ->]. done.
Qed.
Lemma fdalloc_wlp f s : wlp (fdalloc f) (fdalloc_post f s) s.
Proof. apply fdalloc_loop_wlp; [done|done|lia]. Qed.

(** What the steps of a call do to the counts. *)
Lemma ok_shifted extra d s s' : files_ok extra s -> shifted d s s' -> files_ok (fun g => extra g + d g) s'.
Proof. intros [H1 H2 H3 H4] [E Er Ei]. split; [by rewrite E|by rewrite E| |by apply Ei]. intros f Hf. rewrite E, Er, H3 by done. lia. Qed.
Lemma ok_kept extra s s' : files_ok extra s -> kept s s' -> files_ok extra s'.
Proof. intros H Hk. destruct (ok_shifted _ _ _ _ H Hk) as [H1 H2 H3 H4]. split; try done. intros f Hf. rewrite H3 by done. lia. Qed.
Lemma ok_ext extra extra' s : files_ok extra s -> (forall g, is_fp g -> extra' g = extra g) -> files_ok extra' s.
Proof. intros [H1 H2 H3 H4] E. split; try done. intros f Hf. rewrite E by done. auto. Qed.
(** A descriptor changes from [x] to [f]. *)
Lemma ok_set extra s fd x f :
  files_ok extra s -> fs_openfile s !! Z.to_nat fd = Some x -> f = 0 \/ is_fp f ->
  files_ok (fun g => extra g + one x g - one f g) (fs_with_openfile (<[Z.to_nat fd := f]> (fs_openfile s)) s).
Proof.
  intros [H1 H2 H3 H4] Hx Hf. split; [cbn; by rewrite length_insert|by apply Forall_insert| |done].
  intros g Hg. cbn [fs_openfile fs_with_openfile]. rewrite (refs_insert _ _ x) by done.
  change (rc (fs_with_openfile _ s) g) with (rc s g). rewrite H3 by done. lia.
Qed.

(** Calls that keep the invariant. *)
Abbreviation FM := (M (fstate S)).
Definition safe {A} extra (m : FM A) : Prop := forall s, files_ok extra s -> wlp m (fun _ s' => files_ok extra s') s.

Lemma safe_keeps {A} extra (m : FM A) : keeps m -> safe extra m.
Proof. intros H s Hs a s' E. eapply ok_kept; [done|]. eapply H, E. Qed.
Lemma safe_bind {A B} extra (m : FM A) (f : A -> FM B) : safe extra m -> (forall a, safe extra (f a)) -> safe extra (m ≫= f).
Proof. intros Hm Hf s Hs. apply wlp_bind. eapply wlp_mono; [by apply Hm|]. intros a s1 H1. by apply Hf. Qed.

Lemma sys_dup_safe extra fd : safe extra (@sys_dup S fd).
Proof.
  intros s Hs. unfold sys_dup. apply wlp_bind, fd2file_wlp; [by apply wlp_ret|]. intros f Hfd Hf.
  destruct (f =? 0) eqn:E0; [by apply wlp_ret|].
  assert (f = 0 \/ is_fp f) as Hfp by exact (Forall_lookup_1 _ _ _ _ (fo_fp _ _ Hs) Hf).
  apply wlp_bind. eapply wlp_mono; [apply fdalloc_wlp|]. intros fd' s1 [(-> & -> & _)|(Hr & Hnew & ->)].
  - by apply wlp_ret.
  - replace (fd' <? 0) with false by lia. apply wlp_bind. eapply wlp_mono; [apply file_dup_wlp|]. intros r s2 [-> H2]. apply wlp_ret.
    pose proof (ok_shifted _ _ _ _ (ok_set _ _ _ _ _ Hs Hnew Hfp) H2) as H3. eapply ok_ext; [done|]. intros g Hg. cbn. rewrite one_null by done. lia.
Qed.

Lemma sys_close_safe extra fd : safe extra (sys_close bc ctx fd).
Proof.
  intros s Hs. unfold sys_close. apply wlp_bind, fd2file_wlp.
  - apply wlp_bind. destruct (_ && _); [unfold set_openfile; wlp_prims|by apply wlp_stop]. eapply wlp_mono; [apply file_close_wlp|].
    intros [] s1 (H & _). unfold is_fp in H. lia.
  - intros f Hfd Hf. replace ((0 <=? fd) && (fd <? NOFILE)) with true by lia. apply wlp_bind. unfold set_openfile. wlp_prims.
    eapply wlp_mono; [apply file_close_wlp|]. intros [] s1 (Hfp & _ & H1). apply wlp_ret.
    pose proof (ok_shifted _ _ _ _ (ok_set _ _ _ _ 0 Hs Hf (or_introl eq_refl)) H1) as H3. eapply ok_ext; [done|]. intros g Hg. cbn. rewrite one_null by done. lia.
Qed.

(** A pipe file is initialised. *)
Lemma init_pipe_wlp rd f p s : 1 <= rc s f -> wlp ((if rd : bool then init_read_pipe else init_write_pipe) f p) (fun _ s' => kept s s') s.
Proof. intros H. destruct rd; (apply wlp_bind, wlp_load; intros Hf; apply wlp_store; intros s' Hn; eapply now_kept; [done|done|unfold rc in *; cbn; lia]). Qed.

Lemma pipe_alloc_wlp s : (forall g, is_fp g -> 0 <= rc s g) -> wlp (pipe_alloc bc junk_pipe ctx) (fun '(r, f0, f1) s' =>
  r = -1 /\ kept s s' \/ r = 0 /\ is_fp f0 /\ is_fp f1 /\ shifted (fun g => one f0 g + one f1 g) s s') s.
Proof.
  intros Hpos. unfold pipe_alloc. apply wlp_bind. eapply wlp_mono; [apply file_alloc_wlp|]. intros f0 s1 [[-> H0]|(Hf0 & Hz0 & H0)]; cbn beta.
  - change (0 =? 0) with true. cbn [orb negb]. wlp_prims. change (0 =? 0) with true. cbn [negb]. wlp_prims. by left.
  - replace (f0 =? 0) with false by (unfold is_fp in *; lia). cbn [orb negb]. apply wlp_bind. eapply wlp_mono; [apply file_alloc_wlp|].
    intros f1 s2 [[-> H1]|(Hf1 & Hz1 & H1)]; cbn beta.
    + change (0 =? 0) with true. cbn [orb negb]. apply wlp_bind. eapply wlp_mono; [apply file_close_wlp|]. intros [] s3 (_ & _ & H3). wlp_prims.
      change (0 =? 0) with true. cbn [negb]. wlp_prims. left.
      split; [done|]. eapply shifted_back; [apply (shifted_kept _ _ _ _ H0 H1)|exact H3|]. intros g. cbn. lia.
    + replace (f1 =? 0) with false by (unfold is_fp in *; lia). apply wlp_bind. unfold kalloc_pipe. wlp_prims.
      assert (shifted (fun g => one f0 g + one f1 g) s s2) as H2 by by eapply shifted_trans.
      match goal with |- wlp _ _ ?x => assert (kept s2 x) as Hk by (by apply kept_files); revert Hk; generalize x end. intros s3 H3.
      assert (forall g, rc s3 g = rc s g + one f0 g + one f1 g) as E3. { intros g. rewrite (sh_rc _ _ _ H3), (sh_rc _ _ _ H2). lia. }
      assert (one f0 f0 = 1 /\ one f1 f1 = 1) as [O0 O1] by (unfold one; by rewrite !decide_True by done).
      assert (forall f g, 0 <= one f g) as Op by (intros f g; unfold one; case_decide; lia).
      eapply wlp_mono; [apply (init_pipe_wlp true)|]. { rewrite E3. pose proof (Hpos f0 Hf0). pose proof (Op f1 f0). lia. }
      intros [] s4 H4. cbn beta in H4. apply wlp_bind. eapply wlp_mono; [apply (init_pipe_wlp false)|].
      { rewrite (sh_rc _ _ _ H4), E3. pose proof (Hpos f1 Hf1). pose proof (Op f0 f1). lia. }
      intros [] s5 H5. wlp_prims. right. do 3 (split; [done|]). exact (shifted_kept _ _ _ _ (shifted_kept _ _ _ _ H2 H3) (kept_trans _ _ _ H4 H5)).
Qed.

Lemma ok_pos extra s g : (forall g, 0 <= extra g) -> files_ok extra s -> is_fp g -> 0 <= rc s g.
Proof. intros He Hs Hg. rewrite (fo_rc _ _ Hs g Hg). unfold refs. specialize (He g). lia. Qed.

Lemma sys_pipe2_safe extra flags : (forall g, 0 <= extra g) -> safe extra (sys_pipe2 bc junk_pipe ctx flags).
Proof.
  intros He s Hs. unfold sys_pipe2. destruct (negb _); [by apply wlp_ret|]. apply wlp_bind. eapply wlp_mono; [apply pipe_alloc_wlp|].
  { intros g Hg. by eapply ok_pos. }
  intros [[r f0] f1] s1 [[-> Hk]|(-> & Hf0 & Hf1 & H1)]; [apply wlp_ret; by eapply ok_kept|]. change (0 <? 0) with false. cbn iota.
  pose proof (ok_shifted _ _ _ _ Hs H1) as G1. apply wlp_bind. eapply wlp_mono; [apply fdalloc_wlp|].
  assert (forall s2, files_ok (fun g => extra g + (one f0 g + one f1 g)) s2 ->
    wlp (file_close bc ctx f0;; file_close bc ctx f1;; mret (-1, 0, 0)) (fun _ s' => files_ok extra s') s2) as Undo_alloc.
  { intros s2 G2. apply wlp_bind. eapply wlp_mono; [apply file_close_wlp|]. intros [] s3 (_ & _ & H3).
    apply wlp_bind. eapply wlp_mono; [apply file_close_wlp|]. intros [] s4 (_ & _ & H4). apply wlp_ret.
    eapply ok_ext; [exact (ok_shifted _ _ _ _ (ok_shifted _ _ _ _ G2 H3) H4)|]. intros g Hg. cbn. lia. }
  intros rfd s2 [(-> & -> & Hno)|(Hr & Hnew & ->)]; apply wlp_bind; (eapply wlp_mono; [apply fdalloc_wlp|]).
  - intros wfd s2 [(-> & -> & _)|(Hw & Hnew & ->)]; [by apply wlp_bind, wlp_ret, Undo_alloc|]. by destruct (Hno wfd).
  - pose proof (ok_set _ _ _ _ _ G1 Hnew (or_intror Hf0)) as G2.
    intros wfd s2 [(-> & -> & _)|(Hw & Hnew2 & ->)].
    + replace (rfd <? 0) with false by lia. change (-1 <? 0) with true. replace (0 <=? rfd) with true by lia. cbn [orb].
      apply wlp_bind, wlp_modify, Undo_alloc. eapply ok_ext; [eapply (ok_set _ _ rfd f0 0 G2); [|by left]|].
      * apply list_lookup_insert_eq. rewrite (fo_len _ _ G1). unfold NOFILE in *. lia.
      * intros g Hg. cbn. rewrite one_null by done. lia.
    + replace ((rfd <? 0) || (wfd <? 0)) with false by lia. apply wlp_ret.
      eapply ok_ext; [exact (ok_set _ _ _ _ _ G2 Hnew2 (or_intror Hf1))|]. intros g Hg. cbn. rewrite one_null by done. lia.
Qed.

(** ** Calls that use the inode layer *)

Lemma keeps_path path : keeps (@path_ok S path).
Proof. unfold path_ok. keeps. Qed.
Lemma keeps_links p d : keeps (@set_links S p d).
Proof. unfold set_links. keeps. Qed.
#[local] Hint Resolve keeps_path keeps_links : keeps.

Lemma keeps_create path type major minor : keeps (create bc junk junk_name ctx path type major minor).
Proof. unfold create. keeps. Qed.
Lemma keeps_isdirempty dp : keeps (isdirempty bc dp).
Proof.
  unfold isdirempty. keeps. generalize (2 * DIRENT_SIZE) as off. induction (dir_turns _) as [|n IH]; intros off; cbn [isdirempty_loop]; keeps.
Qed.
#[local] Hint Resolve keeps_create keeps_isdirempty : keeps.

Lemma keeps_unlink_bad dp : keeps (unlink_bad bc ctx dp).
Proof. unfold unlink_bad. keeps. Qed.
Lemma keeps_create_close path type major minor : keeps (create_close bc junk junk_name ctx path type major minor).
Proof. unfold create_close. keeps. Qed.
#[local] Hint Resolve keeps_unlink_bad keeps_create_close : keeps.

Lemma keeps_writev f iov tot : keeps (writev_loop bc ctx f iov tot).
Proof. revert tot. induction iov as [|bytes iov IH]; intros tot; cbn [writev_loop]; keeps. Qed.
Lemma keeps_cwd ip : keeps (modify (fun s : fstate S => fs_with_ino (mkIstate (is_sblock (fs_ino s)) (is_cache (fs_ino s)) (is_lock (fs_ino s)) (is_head (fs_ino s))
  (is_inodes (fs_ino s)) (is_root (fs_ino s)) (is_cons (fs_ino s)) (is_killed (fs_ino s)) ip) s)).
Proof. intros s. apply wlp_modify. by apply kept_files. Qed.
#[local] Hint Resolve keeps_writev keeps_cwd : keeps.

(** One of the file system calls, with the bytes it finds in user memory. *)
Inductive fcall : Type :=
  | Fdup (fd : Z) | Fread (fd size : Z) (wr : bool) | Fwrite (fd : Z) (bytes : list Z) | Fwritev (fd : Z) (iov : list (list Z))
  | Fclose (fd : Z) | Ffstat (fd : Z) (wr : bool) | Fnewfstatat (dirfd : Z) (path : list Z) (flags : Z) (wr : bool)
  | Funlinkat (fd : Z) (path : list Z) (flag : Z) | Fopenat (dirfd : Z) (path : list Z) (omode : Z) | Fmkdirat (dirfd : Z) (path : list Z) (mode : Z)
  | Fmknodat (dirfd : Z) (path : list Z) (ma mi : Z) | Fchdir (path : list Z) | Fpipe2 (flags : Z).

Definition run_fcall (c : fcall) : FM unit :=
  match c with
  | Fdup fd => sys_dup fd;; mret tt
  | Fread fd size wr => sys_read bc fd size wr;; mret tt
  | Fwrite fd bytes => sys_write bc ctx fd bytes;; mret tt
  | Fwritev fd iov => sys_writev bc ctx fd iov;; mret tt
  | Fclose fd => sys_close bc ctx fd;; mret tt
  | Ffstat fd wr => sys_fstat fd wr;; mret tt
  | Fnewfstatat dirfd path flags wr => sys_newfstatat bc junk junk_name ctx dirfd path flags wr;; mret tt
  | Funlinkat fd path flag => sys_unlinkat bc junk junk_name ctx fd path flag;; mret tt
  | Fopenat dirfd path omode => sys_openat bc junk junk_name ctx dirfd path omode;; mret tt
  | Fmkdirat dirfd path mode => sys_mkdirat bc junk junk_name ctx dirfd path mode;; mret tt
  | Fmknodat dirfd path ma mi => sys_mknodat bc junk junk_name ctx dirfd path ma mi;; mret tt
  | Fchdir path => sys_chdir bc junk junk_name ctx path;; mret tt
  | Fpipe2 flags => sys_pipe2 bc junk_pipe ctx flags;; mret tt
  end.

Lemma sys_openat_safe extra dirfd path omode : (forall g, 0 <= extra g) -> safe extra (sys_openat bc junk junk_name ctx dirfd path omode).
Proof.
  intros He. unfold sys_openat. apply safe_bind; [apply safe_keeps; keeps|]. intros ok.
  destruct (negb ok); [apply safe_keeps; keeps|]. destruct (negb _); [apply safe_keeps; keeps|].
  apply safe_bind; [apply safe_keeps; keeps|]. intros _. apply safe_bind; [apply safe_keeps; keeps|]. intros ip.
  destruct (ip =? 0); [apply safe_keeps; keeps|]. intros s Hs. apply wlp_bind. eapply wlp_mono; [apply file_alloc_wlp|].
  intros f s1 [[-> H1]|(Hf & _ & H1)]; cbn beta.
  - change (0 =? 0) with true. cbn [orb negb]. apply wlp_bind, wlp_ret.
    apply (safe_keeps extra); [keeps|by eapply ok_kept].
  - replace (f =? 0) with false by (unfold is_fp in *; lia). cbn [orb negb]. pose proof (ok_shifted _ _ _ _ Hs H1) as G1.
    apply wlp_bind. eapply wlp_mono; [apply fdalloc_wlp|]. intros fd s2 [(-> & -> & _)|(Hr & Hnew & ->)].
    + change (-1 <? 0) with true. apply wlp_bind. eapply wlp_mono; [apply file_close_wlp|]. intros [] s2 (_ & _ & H2).
      eapply (safe_keeps extra); [keeps|]. eapply ok_ext; [exact (ok_shifted _ _ _ _ G1 H2)|]. intros g Hg. cbn. lia.
    + replace (fd <? 0) with false by lia. pose proof (ok_set _ _ _ _ _ G1 Hnew (or_intror Hf)) as G2. unfold end_op.
      apply wlp_bind, wlp_ino. intros _ i1. apply wlp_bind, wlp_ino. intros _ i2. apply wlp_bind, wlp_load. intros _.
      apply wlp_bind, wlp_store. intros s3 H3. apply wlp_ret.
      eapply (ok_kept _ (fs_with_ino i2 (fs_with_ino i1 (fs_with_openfile (<[Z.to_nat fd:=f]> (fs_openfile s1)) s1)))).
      * eapply ok_kept; [|by apply (kept_files (fs_with_openfile (<[Z.to_nat fd:=f]> (fs_openfile s1)) s1))]. eapply ok_ext; [exact G2|]. intros g Hg. cbn. rewrite one_null by done. lia.
      * eapply now_kept; [exact H3|done|]. cbn. intros E. exfalso. pose proof (ok_pos _ _ _ He Hs Hf) as Hp.
        pose proof (sh_rc _ _ _ H1 f) as Ef. unfold one in Ef. rewrite decide_True in Ef by done.
        change (rc s1 f = 0) in E. lia.
Qed.

Lemma fcall_safe extra c : (forall g, 0 <= extra g) -> safe extra (run_fcall c).
Proof.
  intros He. destruct c; cbn [run_fcall]; (apply safe_bind; [|intros ?; apply safe_keeps; keeps]);
    [apply sys_dup_safe| | | |apply sys_close_safe| | | |by apply sys_openat_safe| | | |by apply sys_pipe2_safe]; apply safe_keeps.
  - unfold sys_read. keeps.
  - unfold sys_write. keeps.
  - unfold sys_writev. keeps.
  - unfold sys_fstat. keeps.
  - unfold sys_newfstatat. keeps.
  - unfold sys_unlinkat. keeps.
  - unfold sys_mkdirat. keeps.
  - unfold sys_mknodat. keeps.
  - unfold sys_chdir. keeps.
Qed.

(** Calls of the current process, one after the other. *)
Definition fstep s s' : Prop := exists c, run_fcall c s = Ret (tt, s').
End calls.
