(* ===== verification/FileProps.v ===== *)
(** * Properties of open files and of the file system calls *)

From Stdlib Require Import ZArith Lia.
From stdpp Require Import base tactics numbers gmap list relations.
From S2P Require Import Prelude FsDefs Strings Console BlockCache Inode Ring Pipe File FileProofs Cache CacheClient CacheInst InodeDemo.

Local Open Scope Z_scope.

Section file.
Context {S : Type} (bc : BlockCache S) (junk junk_name junk_pipe : list Z) (ctx : Z).
Implicit Types s : fstate S.

(** ** A pipe through its descriptors *)

(** The state after [file_alloc]. *)
Definition with_file (f : Z) (x : File) s : fstate S := fs_with_lock false (fs_with_files (<[f := x]> (fs_files s)) s).

Lemma file_alloc_loop_ret n i s : wlp (file_alloc_loop n i) (fun f s' => f <> 0 -> rc s f = 0 /\ s' = with_file f (f_with_ref 1 (file_at s f)) s) s.
Proof.
  revert i. induction n as [|n IH]; intros i; cbn [file_alloc_loop].
  - unfold release_ftable. wlp_prims. done.
  - apply wlp_bind, wlp_load. intros Hf. destruct (f_ref (file_at s (i + 1)) =? 0) eqn:E; [|apply IH].
    unfold store_file, release_ftable. wlp_prims. intros _. split; [unfold rc; lia|done].
Qed.
Lemma file_alloc_ret s : wlp file_alloc (fun f s' => f <> 0 -> rc s f = 0 /\ s' = with_file f (f_with_ref 1 (file_at s f)) s) s.
Proof. unfold file_alloc. apply wlp_bind, wlp_acquire. eapply wlp_mono; [apply file_alloc_loop_ret|]. intros f s' H Hf. by destruct (H Hf) as [H1 ->]. Qed.

(** The files [f0] and [f1] are the ends of the empty pipe [p]. *)
Definition pipe_ends (p f0 f1 : Z) s : Prop :=
  fs_pipes s !! p = Some (init_pipe junk_pipe) /\
  (exists n off, file_at s f0 = mkFile FD_PIPE n true false p off) /\ (exists n off, file_at s f1 = mkFile FD_PIPE n false true p off).

Lemma pipe_alloc_ret s : wlp (pipe_alloc bc junk_pipe ctx) (fun '(r, f0, f1) s' =>
  r = -1 \/ r = 0 /\ f0 <> 0 /\ f1 <> 0 /\ f0 <> f1 /\ fs_openfile s' = fs_openfile s /\ exists p, pipe_ends p f0 f1 s') s.
Proof.
  unfold pipe_alloc. apply wlp_bind. eapply wlp_mono; [apply file_alloc_ret|]. intros f0 s1 H0. apply wlp_bind.
  eapply wlp_mono with (Q := fun f1 s2 => f0 <> 0 -> f1 <> 0 -> rc s1 f1 = 0 /\ s2 = with_file f1 (f_with_ref 1 (file_at s1 f1)) s1).
  { destruct (f0 =? 0) eqn:E; [apply wlp_ret; lia|]. eapply wlp_mono; [apply file_alloc_ret|]. auto. }
  intros f1 s2 H1. cbn beta in H0. destruct ((f0 =? 0) || (f1 =? 0)) eqn:E.
  - do 2 (apply wlp_bind; intros ? ? _). apply wlp_ret. by left.
  - destruct (H0 ltac:(lia)) as [Z0 E1], (H1 ltac:(lia) ltac:(lia)) as [Z1 ->]. subst s1.
    assert (f0 <> f1) as Hne. { intros <-. revert Z1. unfold rc. cbn. unfold file_at at 1. cbn. by rewrite lookup_insert_eq. }
    set (p := fresh (({[0]} : gset Z) ∪ dom (fs_pipes s))).
    apply wlp_bind, wlp_gets, wlp_bind, wlp_modify, wlp_bind, wlp_bind, wlp_load. intros _. apply wlp_modify, wlp_bind, wlp_bind, wlp_load. intros _.
    apply wlp_modify, wlp_ret. right. split; [done|]. split; [lia|]. split; [lia|]. split; [done|]. split; [done|].
    exists p. split; [apply lookup_insert_eq|]. split; do 2 eexists.
    + rewrite file_at_store, decide_False, file_at_store, decide_True by done. reflexivity.
    + rewrite file_at_store, decide_True by done. reflexivity.
Qed.

Lemma sys_pipe2_ret s : length (fs_openfile s) = Z.to_nat NOFILE -> wlp (sys_pipe2 bc junk_pipe ctx 0) (fun '(r, rfd, wfd) s' =>
  r = 0 -> 0 <= rfd < NOFILE /\ 0 <= wfd < NOFILE /\ rfd <> wfd /\
  exists p f0 f1, f0 <> 0 /\ f1 <> 0 /\ f0 <> f1 /\ fs_openfile s' !! Z.to_nat rfd = Some f0 /\ fs_openfile s' !! Z.to_nat wfd = Some f1 /\ pipe_ends p f0 f1 s') s.
Proof.
  intros Hlen. unfold sys_pipe2. apply wlp_bind. eapply wlp_mono; [apply pipe_alloc_ret|]. intros [[r f0] f1] s1 [->|(-> & N0 & N1 & Hne & Eo & p & Hp)].
  { by apply wlp_ret. }
  apply wlp_bind. eapply wlp_mono; [apply fdalloc_wlp|]. intros rfd s2 H2. apply wlp_bind. eapply wlp_mono; [apply fdalloc_wlp|]. intros wfd s3 H3.
  destruct ((rfd <? 0) || (wfd <? 0)) eqn:E.
  - do 3 (apply wlp_bind; intros ? ? _). apply wlp_ret. done.
  - apply wlp_ret. intros _. destruct H2 as [(-> & _)|(Hr & Hr0 & ->)]; [done|]. destruct H3 as [(-> & _)|(Hw & Hw0 & ->)]; [lia|]. cbn in Hw0.
    rewrite Eo in *. assert (rfd <> wfd) as Hfd. { intros <-. rewrite list_lookup_insert_eq in Hw0 by (unfold NOFILE in *; lia). congruence. }
    do 3 (split; [done|]). exists p, f0, f1. cbn. rewrite list_lookup_insert_ne by (unfold NOFILE in *; lia).
    rewrite !list_lookup_insert_eq by (rewrite ?length_insert, ?Eo; unfold NOFILE in *; lia). done.
Qed.

(** Bytes through an empty pipe. *)
Lemma pipe_transfer (k1 k2 : bool) bytes n :
  length junk_pipe = Z.to_nat PIPE_SIZE -> Forall is_byte bytes -> (0 < length bytes <= Z.to_nat PIPE_SIZE)%nat ->
  exists p1, pipe_write k1 bytes (init_pipe junk_pipe) = Ret (Z.of_nat (length bytes), p1) /\ p_alive p1 = true /\
    exists p2, pipe_read k2 n p1 = Ret ((Z.of_nat (length (take (Z.to_nat n) bytes)), take (Z.to_nat n) bytes), p2) /\ p_alive p2 = true.
Proof.
  intros Hj Hb Hlen. set (p0 := init_pipe junk_pipe).
  assert (pipe_rep p0 []) as R0. { split; [split; [done|done|intros i x Hx; discriminate Hx]|cbn; lia|reflexivity]. }
  pose proof (write_loop_run bytes k1 (set_sems true 0 0 p0) [] (rep_sems _ _ _ _ _ R0)) as H.
  rewrite decide_True in H by (unfold room; cbn [length]; lia). destruct H as (p1 & E1 & R1 & (_ & L1 & _ & W1 & A1) & _).
  replace ([] ++ (u8 <$> bytes)) with bytes in R1.
  2: { clear -Hb. cbn. induction Hb as [|b l H _ IH]; [done|]. cbn. rewrite <-IH. f_equal. unfold u8, is_byte in *. rewrite Z.mod_small; lia. }
  unfold pipe_write. rewrite (bind_ret _ _ p0 tt (set_sems true 0 0 p0)), (bind_ret _ _ _ _ _ E1) by done. cbn [negb].
  eexists. split; [reflexivity|]. split; [cbn; by rewrite A1|].
  match goal with |- exists _, pipe_read _ _ ?x = _ /\ _ => set (p2 := x) end.
  assert (pipe_rep (set_sems true (p_wlock p2) (p_rlock p2) p2) bytes) as R2 by by do 3 apply rep_sems.
  destruct (read_loop_run (Z.to_nat n) _ _ R2) as (p3 & E3 & _ & (_ & _ & _ & _ & A3) & _).
  unfold pipe_read. rewrite (bind_ret acquire_pipe _ p2 tt (set_sems true (p_wlock p2) (p_rlock p2) p2)) by done.
  rewrite (bind_ret (gets id) _ _ _ _ eq_refl). rewrite (bind_ret _ _ _ true (set_sems true (p_wlock p2) (p_rlock p2) p2)).
  2: { apply wait_data_ok. rewrite (empty_spec _ _ R2), bool_decide_false; [done|]. intros ->. cbn in Hlen. lia. }
  cbn [negb]. rewrite (bind_ret _ _ _ _ _ E3). eexists. split; [reflexivity|]. cbn. rewrite A3. exact A1.
Qed.

Lemma on_pipe_ret {A} p (m : PM A) x a x' s :
  fs_pipes s !! p = Some x -> m x = Ret (a, x') -> p_alive x' = true -> on_pipe p m s = Ret (a, fs_with_pipes (<[p := x']> (fs_pipes s)) s).
Proof. intros Hp Hm Ha. unfold on_pipe. by rewrite Hp, Hm, Ha. Qed.
Lemma fd2file_ret fd f s : 0 <= fd < NOFILE -> fs_openfile s !! Z.to_nat fd = Some f -> fd2file fd s = Ret (f, s).
Proof. intros H Hf. unfold fd2file. replace ((fd <? 0) || (NOFILE <=? fd)) with false by lia. by rewrite Hf. Qed.
Lemma load_ret f s : is_fp f -> load_file f s = Ret (file_at s f, s).
Proof. intros H. unfold load_file. by rewrite bool_decide_true. Qed.

(** C22: [sys_pipe2], [sys_write] and [sys_read]: bytes written to the second
    descriptor of a new pipe, at most 512, come back in order from the first,
    all of them or the [n] oldest. *)
Theorem pipe_round_trip extra s s1 rfd wfd bytes n :
  files_ok extra s -> sys_pipe2 bc junk_pipe ctx 0 s = Ret ((0, rfd, wfd), s1) ->
  (forall g, 0 <= extra g) -> length junk_pipe = Z.to_nat PIPE_SIZE -> Forall is_byte bytes -> (0 < length bytes <= Z.to_nat PIPE_SIZE)%nat -> 0 < n ->
  exists s2 s3, sys_write bc ctx wfd bytes s1 = Ret (Z.of_nat (length bytes), s2) /\
    sys_read bc rfd n true s2 = Ret ((Z.of_nat (length (take (Z.to_nat n) bytes)), take (Z.to_nat n) bytes), s3).
Proof.
  intros Hok Hrun He Hj Hb Hlen Hn.
  destruct (sys_pipe2_ret s (fo_len _ _ Hok) _ _ Hrun eq_refl) as (Hr & Hw & _ & p & f0 & f1 & N0 & N1 & _ & O0 & O1 & Hp & (n0 & o0 & E0) & n1 & o1 & E1).
  pose proof (fo_fp _ _ (sys_pipe2_safe bc junk_pipe ctx extra 0 He s Hok _ _ Hrun)) as Hfp.
  destruct (Forall_lookup_1 _ _ _ _ Hfp O0) as [|F0]; [done|]. destruct (Forall_lookup_1 _ _ _ _ Hfp O1) as [|F1]; [done|].
  destruct (pipe_transfer (is_killed (fs_ino s1)) (is_killed (fs_ino s1)) bytes n Hj Hb Hlen) as (p1 & W & Ha & p2 & R & Ha2).
  pose proof (on_pipe_ret p _ _ _ _ s1 Hp W Ha) as Wr. set (s2 := fs_with_pipes (<[p := p1]> (fs_pipes s1)) s1) in *.
  assert (fs_pipes s2 !! p = Some p1) as Hp2 by apply lookup_insert_eq. pose proof (on_pipe_ret p _ _ _ _ s2 Hp2 R Ha2) as Rd.
  exists s2. eexists. split.
  - unfold sys_write. rewrite (bind_ret _ _ _ _ _ (fd2file_ret _ _ _ Hw O1)). replace ((f1 =? 0) || _) with false by lia.
    unfold file_write. rewrite (bind_ret _ _ _ _ _ (load_ret _ _ F1)), E1. cbn [f_writable f_type f_obj negb]. exact Wr.
  - unfold sys_read. rewrite (bind_ret _ _ _ _ _ (fd2file_ret _ _ s2 Hr O0)). replace ((f0 =? 0) || (n <=? 0) || negb true) with false by (cbn; lia).
    unfold file_read. rewrite (bind_ret _ _ _ _ _ (load_ret _ s2 F0)). change (file_at s2 f0) with (file_at s1 f0). rewrite E0. exact Rd.
Qed.

(** ** Counts *)

Lemma refs_pos l i f : l !! i = Some f -> 1 <= refs l f.
Proof.
  intros H. unfold refs. apply list_elem_of_lookup_2 in H. assert (f ∈ filter (fun g => g = f) l) as Hf by by apply list_elem_of_filter.
  destruct (filter _ l); [by apply not_elem_of_nil in Hf|]. cbn [length]. lia.
Qed.

(** C21: the calls of [sysfile.c] keep the counts of the file table right, on
    every path of each of them: from a state where the count of each file is
    the number of descriptors for it, any sequence of calls that return leads to
    such a state, so that the file of an open descriptor is in use, and a file
    that no descriptor refers to is free and has no type. *)
Theorem files_counted extra s s' :
  (forall g, 0 <= extra g) -> files_ok extra s -> rtc (fstep bc junk junk_name junk_pipe ctx) s s' ->
  files_ok extra s' /\ forall fd f, fs_openfile s' !! fd = Some f -> f <> 0 -> is_fp f /\ 1 <= rc s' f.
Proof.
  intros He Hs Hsteps. assert (files_ok extra s') as Hs'.
  { induction Hsteps as [|s s1 s2 [c Hc] _ IH]; [done|]. apply IH. by eapply fcall_safe. }
  split; [done|]. intros fd f Hf H0. destruct (Forall_lookup_1 _ _ _ _ (fo_fp _ _ Hs') Hf) as [|Hfp]; [done|]. split; [done|].
  rewrite (fo_rc _ _ Hs') by done. pose proof (refs_pos _ _ _ Hf). specialize (He f). lia.
Qed.

(** The table at first. *)
Lemma files_ok_boot s : fs_files s = ∅ -> fs_openfile s = replicate (Z.to_nat NOFILE) 0 -> files_ok (fun _ => 0) s.
Proof.
  intros Ef Eo. assert (forall g, file_at s g = no_file) as E by (intros g; unfold file_at; by rewrite Ef).
  split; [by rewrite Eo|rewrite Eo; apply Forall_replicate; by left| |intros g _; by rewrite E].
  intros f Hf. unfold rc. rewrite E, Eo. change (f_ref no_file) with 0. assert (forall n, refs (replicate n 0) f = 0) as Er; [|by rewrite Er].
  intros n. induction n as [|n IH]; [done|]. cbn [replicate]. by rewrite refs_cons, one_null, IH.
Qed.
End file.

(** ** Over the block cache of [cache.c] *)

Definition fdemo : fstate bcache_state := mkFstate file_state false ∅ ∅ (replicate 16 0).
Definition fdemo_junk : list Z := replicate 512 170.
(** A script of calls. *)
Fixpoint script (l : list fcall) : M (fstate bcache_state) unit :=
  match l with [] => mret tt | c :: l => run_fcall cache_bc [] [] fdemo_junk 5 c;; script l end.
Definition after {A} (m : M (fstate bcache_state) A) : fstate bcache_state := match m fdemo with Ret (_, s) => s | _ => fdemo end.
Definition fdemo_calls : list fcall := [Fpipe2 0; Fdup 1; Fclose 1; Fwrite 2 [104; 105]; Fpipe2 0; Fclose 0].

Lemma script_steps l s s' : script l s = Ret (tt, s') -> rtc (fstep cache_bc [] [] fdemo_junk 5) s s'.
Proof.
  revert s. induction l as [|c l IH]; intros s; cbn [script]; [intros [= ->]; apply rtc_refl|].
  unfold mbind, M_bind. destruct (run_fcall _ _ _ _ _ c s) as [[[] s1]| | |] eqn:E; try done. intros H. eapply rtc_l; [by exists c|auto].
Qed.
Lemma fdemo_ok : files_ok (fun _ => 0) fdemo.
Proof. by apply files_ok_boot. Qed.

Lemma files_counted_witness :
  fs_openfile (after (script fdemo_calls)) = [0; 3; 2; 4; 0; 0; 0; 0; 0; 0; 0; 0; 0; 0; 0; 0] /\ 1 <= rc (after (script fdemo_calls)) 4.
Proof.
  split; [vm_compute; reflexivity|].
  assert (script fdemo_calls fdemo = Ret (tt, after (script fdemo_calls))) as E by (vm_compute; reflexivity).
  apply (files_counted cache_bc [] [] fdemo_junk 5 (fun _ => 0) fdemo (after (script fdemo_calls)) ltac:(lia) fdemo_ok (script_steps _ _ _ E)) with (fd := 3%nat);
    [vm_compute; reflexivity|lia].
Defined.

Lemma pipe_round_trip_witness : exists s2 s3,
  sys_write cache_bc 5 1 [104; 105; 33] (after (sys_pipe2 cache_bc fdemo_junk 5 0)) = Ret (3, s2) /\
  sys_read cache_bc 0 2 true s2 = Ret ((2, [104; 105]), s3).
Proof.
  apply (pipe_round_trip cache_bc fdemo_junk 5 (fun _ => 0) fdemo (after (sys_pipe2 cache_bc fdemo_junk 5 0)) 0 1 [104; 105; 33] 2 fdemo_ok);
    [vm_compute; reflexivity|lia|reflexivity|apply bytes_check; reflexivity|unfold PIPE_SIZE; cbn [length]; lia|lia].
Defined.
