(* ===== verification/Timer.v ===== *)
(** * Timers of a CPU: [kernel/cpu.c]

    The red-black tree [cpus[c].timer] is the sequence of its nodes in order:
    [_rb_first] is the head, [_rb_insert] an ordered insertion with the same
    comparison function and [_rb_erase] a removal.  A timer is found by the
    address of its [struct timer]; nodes are at a fixed offset in it, so that
    comparing nodes is comparing timers. *)

From Stdlib Require Import ZArith Lia.
From stdpp Require Import base tactics numbers gmap list.
From S2P Require Import Prelude BlockCache.

Local Open Scope Z_scope.

Definition NCPU : Z := 4.

(** [struct timer] without its node; [t_handler] stands for the function
    pointer. *)
Record timer : Type := mkTimer {
  t_triggered : bool;
  t_elapse : Z;
  t_key : Z;
  t_handler : Z;
  t_data : Z }.

(** The millisecond clock, the timers in memory, the tree of each CPU and the
    interval last given to [reset_clock] on each CPU. *)
Record tstate : Type := mkTstate {
  t_now : Z;
  t_timers : gmap Z timer;
  t_tree : Z -> list Z;
  t_clock : Z -> Z }.

Abbreviation TM := (M tstate).

Definition t_set_timers (m : gmap Z timer) (s : tstate) : tstate := mkTstate (t_now s) m (t_tree s) (t_clock s).
Definition t_set_tree (c : Z) (l : list Z) (s : tstate) : tstate :=
  mkTstate (t_now s) (t_timers s) (upd c l (t_tree s)) (t_clock s).

Definition load_timer (t : Z) : TM timer := fun s => some_or_ub (t_timers s !! t) s.
Definition store_timer (t : Z) (x : timer) : TM unit := modify (fun s => t_set_timers (<[t := x]> (t_timers s)) s).

(** [reset_clock(interval)] of [driver/clock.c] on CPU [c]. *)
Definition reset_clock (c interval : Z) : TM unit :=
  modify (fun s => mkTstate (t_now s) (t_timers s) (t_tree s) (upd c interval (t_clock s))).

(** [__timer_cmp]: the difference of the [u64] keys is an [i64]. *)
Definition __timer_cmp (l r : Z) : TM bool :=
  x ← load_timer l;
  y ← load_timer r;
  let d := i64 (t_key x - t_key y) in
  mret (if d <? 0 then true else if d =? 0 then l <? r else false).

(** [_rb_insert]: [None] for the result -1. *)
Fixpoint tree_insert (n : Z) (l : list Z) : TM (option (list Z)) :=
  match l with
  | [] => mret (Some [n])
  | m :: l' =>
      lt ← __timer_cmp n m;
      if (lt : bool) then mret (Some (n :: l)) else
      gt ← __timer_cmp m n;
      if (gt : bool) then
        r ← tree_insert n l';
        mret (match r with Some k => Some (m :: k) | None => None end)
      else mret None
  end.

(** [_rb_erase] of a node of the tree. *)
Definition tree_erase (c n : Z) : TM unit :=
  l ← gets (fun s => t_tree s c);
  if bool_decide (n ∈ l) then modify (t_set_tree c (filter (fun m => m <> n) l)) else ub.

Definition __timer_set_clock (c : Z) : TM unit :=
  l ← gets (fun s => t_tree s c);
  match l with
  | [] => reset_clock c 10
  | n :: _ =>
      x ← load_timer n;
      t0 ← gets t_now;
      if t_key x <=? t0 then reset_clock c 0 else reset_clock c (t_key x - t0)
  end.

(** [set_cpu_timer]: the sum is an [u64]. *)
Definition set_cpu_timer (c t : Z) : TM unit :=
  x ← load_timer t;
  now ← gets t_now;
  store_timer t (mkTimer false (t_elapse x) (u64 (now + t_elapse x)) (t_handler x) (t_data x));;
  l ← gets (fun s => t_tree s c);
  r ← tree_insert t l;
  match r with
  | None => panic
  | Some l' => modify (t_set_tree c l');; __timer_set_clock c
  end.

Definition cancel_cpu_timer (c t : Z) : TM unit :=
  x ← load_timer t;
  ASSERT (negb (t_triggered x));;
  tree_erase c t;;
  __timer_set_clock c.

(** ** The timers of a tree *)

(** Every node of the tree is a timer that is set, and appears once. *)
Definition tree_ok (c : Z) (s : tstate) : Prop :=
  NoDup (t_tree s c) /\ forall t, t ∈ t_tree s c -> exists x, t_timers s !! t = Some x /\ t_triggered x = false.

(** Timer [t] belongs to CPU [c]: it is set exactly when it is in its tree. *)
Definition timer_ok (c t : Z) (s : tstate) : Prop :=
  tree_ok c s /\ exists x, t_timers s !! t = Some x /\ (t ∈ t_tree s c <-> t_triggered x = false).

(** What a step on timer [t] of CPU [c] leaves alone. *)
Definition timer_step (c t : Z) (s s' : tstate) : Prop :=
  t_now s' = t_now s /\ (forall d, d <> c -> t_tree s' d = t_tree s d) /\
  (forall u, u <> t -> t_timers s' !! u = t_timers s !! u) /\
  (forall u, u <> t -> u ∈ t_tree s' c <-> u ∈ t_tree s c).

Lemma timer_step_trans c t s1 s2 s3 : timer_step c t s1 s2 -> timer_step c t s2 s3 -> timer_step c t s1 s3.
Proof.
  intros (H1 & H2 & H3 & H4) (K1 & K2 & K3 & K4). split_and!; [congruence| | |].
  - intros d Hd. by rewrite K2, H2.
  - intros u Hu. by rewrite K3, H3.
  - intros u Hu. by rewrite K4, H4.
Qed.

Lemma wp_load_timer t x s (Q : timer -> tstate -> Prop) : t_timers s !! t = Some x -> Q x s -> wp (load_timer t) Q s.
Proof. intros H HQ. unfold wp, load_timer. by rewrite H. Qed.

(** The order on timers that [__timer_cmp] computes. *)
Definition timer_lt (x y : timer) (l r : Z) : bool :=
  let d := i64 (t_key x - t_key y) in if d <? 0 then true else if d =? 0 then l <? r else false.

Lemma timer_cmp_run l r x y s : t_timers s !! l = Some x -> t_timers s !! r = Some y ->
  __timer_cmp l r s = Ret (timer_lt x y l r, s).
Proof. intros Hl Hr. unfold __timer_cmp, mbind, M_bind, load_timer, some_or_ub. rewrite Hl. cbn. by rewrite Hr. Qed.

(** Different nodes are always comparable. *)
Lemma i64_neg d : i64 d = 0 -> i64 (- d) = 0.
Proof.
  unfold i64. intros H. assert ((d + 2 ^ 63) mod 2 ^ 64 = 2 ^ 63) as E by lia.
  pose proof (Z.div_mod (d + 2 ^ 63) (2 ^ 64) ltac:(lia)) as D. rewrite E in D.
  replace (- d + 2 ^ 63) with (2 ^ 63 + (- ((d + 2 ^ 63) / 2 ^ 64)) * 2 ^ 64) by lia.
  rewrite Z.mod_add by lia. rewrite Z.mod_small; lia.
Qed.


Lemma i64_pos_neg d : 0 < i64 d -> i64 (- d) < 0.
Proof.
  unfold i64. intros H. set (m := (d + 2 ^ 63) mod 2 ^ 64) in *.
  pose proof (Z.div_mod (d + 2 ^ 63) (2 ^ 64) ltac:(lia)) as D. fold m in D.
  pose proof (Z.mod_pos_bound (d + 2 ^ 63) (2 ^ 64) eq_refl) as B. fold m in B.
  replace (- d + 2 ^ 63) with ((2 ^ 64 - m) + (- ((d + 2 ^ 63) / 2 ^ 64)) * 2 ^ 64) by lia.
  rewrite Z.mod_add by lia. rewrite Z.mod_small; lia.
Qed.

Lemma timer_lt_total x y l r : l <> r -> timer_lt x y l r = false -> timer_lt y x r l = true.
Proof.
  unfold timer_lt. intros Hne. replace (t_key y - t_key x) with (- (t_key x - t_key y)) by lia. set (d := t_key x - t_key y).
  destruct (Z.ltb_spec (i64 d) 0); [done|]. destruct (Z.eqb_spec (i64 d) 0) as [E|E]; intros H'.
  - rewrite (i64_neg d E). cbn. apply Z.ltb_ge in H'. apply Z.ltb_lt. lia.
  - rewrite (proj2 (Z.ltb_lt (i64 (- d)) 0)); [done|]. apply i64_pos_neg. lia.
Qed.

(** Inserting a node that is not in the tree succeeds. *)
Lemma tree_insert_run n l s :
  is_Some (t_timers s !! n) -> (forall m, m ∈ l -> is_Some (t_timers s !! m)) -> n ∉ l ->
  exists l', tree_insert n l s = Ret (Some l', s) /\ l' ≡ₚ n :: l.
Proof.
  intros [x Hx] Hl Hn. induction l as [|m l IH]; cbn [tree_insert]; [by exists [n]|].
  destruct (Hl m) as [y Hy]; [left|]. rewrite (bind_ret _ _ _ _ _ (timer_cmp_run n m x y s Hx Hy)).
  destruct (timer_lt x y n m) eqn:E; cbn beta iota; [by exists (n :: m :: l)|].
  apply timer_lt_total in E; [|set_solver]. rewrite (bind_ret _ _ _ _ _ (timer_cmp_run m n y x s Hy Hx)), E. cbn beta iota.
  destruct IH as (k & Hk & Pk); [set_solver|set_solver|]. rewrite (bind_ret _ _ _ _ _ Hk). exists (m :: k).
  split; [done|]. rewrite Pk. constructor.
Qed.

Lemma set_clock_wp c s : tree_ok c s ->
  wp (__timer_set_clock c) (fun _ s' => t_now s' = t_now s /\ t_timers s' = t_timers s /\ t_tree s' = t_tree s) s.
Proof.
  intros [_ H]. unfold __timer_set_clock. wp_prim. wp_prim. destruct (t_tree s c) as [|n l] eqn:E; [done|].
  destruct (H n) as (x & Hx & _); [left|]. wp_prim. eapply wp_load_timer; [done|]. wp_prim. wp_prim. by case_match.
Qed.

Lemma cancel_timer_wp c t s : timer_ok c t s -> (exists x, t_timers s !! t = Some x /\ t_triggered x = false) ->
  wp (cancel_cpu_timer c t) (fun _ s' => timer_step c t s s' /\ tree_ok c s' /\ (t ∉ t_tree s' c) /\ t_timers s' = t_timers s) s.
Proof.
  intros [[Hnd Hin] (x' & Hx' & Hiff)] (x & Hx & Ht). simplify_eq. unfold cancel_cpu_timer. wp_prim. eapply wp_load_timer; [done|].
  wp_prim. wp_prim. rewrite Ht. split; [reflexivity|]. unfold tree_erase. wp_prim. wp_prim. wp_prim.
  rewrite bool_decide_true by by apply Hiff. wp_prim.
  assert (forall u, u ∈ filter (fun m => m <> t) (t_tree s c) <-> u <> t /\ u ∈ t_tree s c) as Hf by (intros u; by rewrite list_elem_of_filter).
  set (s1 := t_set_tree c _ s). assert (t_tree s1 c = filter (fun m => m <> t) (t_tree s c)) as E1 by (unfold s1; cbn; by rewrite upd_eq).
  assert (tree_ok c s1) as H1.
  { split; rewrite E1; [by apply NoDup_filter|]. intros u [_ Hu]%Hf. by apply Hin. }
  eapply wp_mono; [by apply set_clock_wp|]. intros _ s2 (E2 & E3 & E4).
  split; [split_and!|split; [|split; [|by rewrite E3]]].
  - by rewrite E2.
  - intros d Hd. rewrite E4. cbn. by rewrite upd_ne.
  - intros u Hu. by rewrite E3.
  - intros u Hu. rewrite E4, E1, Hf. tauto.
  - unfold tree_ok. rewrite E3, E4. apply H1.
  - rewrite E4, E1, Hf. tauto.
Qed.

Lemma set_timer_wp c t s : tree_ok c s -> is_Some (t_timers s !! t) -> t ∉ t_tree s c ->
  wp (set_cpu_timer c t) (fun _ s' => timer_step c t s s' /\ timer_ok c t s' /\ t ∈ t_tree s' c) s.
Proof.
  intros [Hnd Hin] [x Hx] Hn. unfold set_cpu_timer. wp_prim. eapply wp_load_timer; [done|]. unfold store_timer. wp_prims.
  set (x' := mkTimer _ _ _ _ _). set (s1 := t_set_timers _ s).
  destruct (tree_insert_run t (t_tree s c) s1) as (l' & Hr & Pl); [exists x'; apply lookup_insert_eq| |done|].
  { intros m Hm. destruct (Hin m Hm) as (y & Hy & _). exists y. cbn. rewrite lookup_insert_ne; [done|set_solver]. }
  eapply wp_intro; [exact Hr|]. cbn beta iota. wp_prims. set (s2 := t_set_tree c l' s1).
  assert (t_tree s2 c = l') as E2 by (cbn; by rewrite upd_eq).
  assert (tree_ok c s2) as H2.
  { split; rewrite E2, ?Pl; [by constructor|]. intros u Hu. rewrite Pl in Hu. cbn. destruct (decide (u = t)) as [->|Hne].
    - exists x'. by rewrite lookup_insert_eq.
    - rewrite lookup_insert_ne by done. apply Hin. set_solver. }
  eapply wp_mono; [by apply set_clock_wp|]. intros _ s3 (E3 & E4 & E5). split; [split_and!|].
  - by rewrite E3.
  - intros d Hd. rewrite E5. cbn. by rewrite upd_ne.
  - intros u Hu. rewrite E4. cbn. by rewrite lookup_insert_ne.
  - intros u Hu. rewrite E5, E2, Pl. set_solver.
  - split; [|rewrite E5, E2, Pl; left]. split; [unfold tree_ok; rewrite E4, E5; apply H2|]. exists x'.
    rewrite E4, E5, E2. cbn. rewrite lookup_insert_eq. split; [done|]. rewrite Pl. split; [done|]. intros _. left.
Qed.

(** Setting a timer anew, whether it is set or has been triggered. *)
Lemma reset_timer_wp c t x s : timer_ok c t s -> t_timers s !! t = Some x ->
  wp (if negb (t_triggered x) then cancel_cpu_timer c t;; set_cpu_timer c t else set_cpu_timer c t)
    (fun _ s' => timer_step c t s s' /\ timer_ok c t s' /\ t ∈ t_tree s' c) s.
Proof.
  intros Hok Hx. destruct (t_triggered x) eqn:E; cbn [negb].
  - destruct Hok as [Htree (x' & Hx' & Hiff)]. assert (x' = x) as -> by congruence. apply set_timer_wp; [done|by exists x|]. rewrite Hiff. congruence.
  - wp_prim. eapply wp_mono; [apply cancel_timer_wp; [done|by exists x]|]. intros _ s1 (S1 & T1 & N1 & E1).
    eapply wp_mono; [apply set_timer_wp; [done|rewrite E1; by exists x|done]|]. intros _ s2 (S2 & T2 & I2).
    split; [by eapply timer_step_trans|done].
Qed.

(** The timer of another CPU is not affected. *)
Lemma timer_ok_other c d t u s s' :
  timer_step c t s s' -> timer_ok c t s' -> t ∈ t_tree s' c -> d <> c -> u <> t -> timer_ok d u s -> timer_ok d u s'.
Proof.
  intros (_ & Ht & Hm & _) [_ (x & Hx & Hiff)] Hin Hd Hu [[Hnd Htree] (y & Hy & Hy')].
  split; [split|].
  - by rewrite Ht.
  - intros v. rewrite Ht by done. intros Hv. destruct (decide (v = t)) as [->|Hne]; [exists x; split; [done|by apply Hiff]|].
    rewrite Hm by done. auto.
  - exists y. rewrite Hm, Ht by done. done.
Qed.
