(* ===== verification/Sched.v ===== *)
(** * Processes, scheduler and semaphores: [kernel/sched.c], [common/sem.c],
    [kernel/proc.c]

    One definition per function.  A call runs on a CPU [c] until it returns or
    until [sched] switches to another process.  What a process does when it is
    switched to again is its [p_kcontext]: the saved kernel context, as the point
    of the code at which the process called [swtch].  Every such point starts
    with the release of the scheduler lock ([sched] and [proc_entry] do it), so
    that [sched] of the model ends with this release, made on behalf of the
    process switched to.

    Calls of different CPUs interleave between these pieces.  Each piece runs
    with the locks of the data it changes, and gives them back; a lock that the
    same CPU already holds is the outcome [Block], so that a piece that returns
    has no deadlock with itself.

    Lists of processes and of waiters are sequences (file [Lists]).  Semaphores
    are found by identity: the semaphore [childexit] of a process, or another
    one by its address.  The [int] values of semaphores and process numbers are
    not bounded, and the record that a waiter takes with [kalloc] is always there,
    as [kalloc] never returns NULL. *)

From Stdlib Require Import ZArith Lia.
From stdpp Require Import base tactics numbers countable gmap list.
From S2P Require Import Prelude BlockCache Timer.

Local Open Scope Z_scope.

(** ** State *)

Inductive procstate : Type := UNUSED | RUNNABLE | RUNNING | SLEEPING | DEEPSLEEPING | ZOMBIE.
#[global] Instance procstate_dec : EqDecision procstate.
Proof. solve_decision. Defined.

Inductive semid : Type :=
| SChild (p : Z)
| SAddr (a : Z).
#[global] Instance semid_dec : EqDecision semid.
Proof. solve_decision. Defined.
#[global] Program Instance semid_countable : Countable semid :=
  inj_countable' (fun s => match s with SChild p => inl p | SAddr a => inr a end)
    (fun x => match x with inl p => SChild p | inr a => SAddr a end) _.
Next Obligation. by intros []. Qed.

(** What follows the return of [_wait_sem]: nothing ([wait_sem] whose result the
    caller tests), the assertion of [unalertable_wait_sem], or the rest of
    [wait()]. *)
Inductive after_wait : Type := AReturn | AAssert | ACollect.

(** The saved context of a process: it runs (or was preempted in) code of its
    own; it has to start at its entry; it is in [_wait_sem] after [sched], with
    its [WaitData]; it is in [wait()] after [wait_sem]; it called [exit]. *)
Inductive kcont : Type :=
| KRun
| KEntry (entry arg : Z)
| KSem (s : semid) (w : Z) (k : after_wait)
| KCollect
| KDead.

Record Proc : Type := mkProc {
  p_killed : bool;
  p_idle : bool;
  p_pid : Z;
  p_exitcode : Z;
  p_state : procstate;
  p_children : list Z;
  p_parent : Z;
  p_pt : Z;
  p_kstack : Z;
  p_elr : Z;
  p_kcontext : kcont }.

(** [Semaphore]: the sleepers from [sleeplist.next] on. *)
Record Semaphore : Type := mkSem { s_lock : bool; s_val : Z; s_sleep : list Z }.

(** [WaitData]. *)
Record WaitData : Type := mkWait { w_up : bool; w_proc : Z }.

(** The processes in memory, [root_proc], [rq], [sched_lock], [plock],
    [cpus[c].sched], [panic_flag], semaphores, wait records, the PID manager
    (its free list), the pages in use, the timers and the user page table
    register of each CPU. *)
Record kstate : Type := mkKstate {
  k_procs : gmap Z Proc;
  k_root : Z;
  k_rq : list Z;
  k_sched_lock : bool;
  k_plock : bool;
  k_this : Z -> Z;
  k_idle : Z -> Z;
  k_panic : bool;
  k_sems : gmap semid Semaphore;
  k_waits : gmap Z WaitData;
  k_max_pid : Z;
  k_freepid : list Z;
  k_pages : gset Z;
  k_timers : tstate;
  k_ttbr0 : Z -> Z }.

Abbreviation KM := (M kstate).

Definition k_set_procs (m : gmap Z Proc) (s : kstate) : kstate :=
  mkKstate m (k_root s) (k_rq s) (k_sched_lock s) (k_plock s) (k_this s) (k_idle s) (k_panic s) (k_sems s) (k_waits s)
    (k_max_pid s) (k_freepid s) (k_pages s) (k_timers s) (k_ttbr0 s).
Definition k_set_rq (l : list Z) (s : kstate) : kstate :=
  mkKstate (k_procs s) (k_root s) l (k_sched_lock s) (k_plock s) (k_this s) (k_idle s) (k_panic s) (k_sems s) (k_waits s)
    (k_max_pid s) (k_freepid s) (k_pages s) (k_timers s) (k_ttbr0 s).
Definition k_set_sched_lock (b : bool) (s : kstate) : kstate :=
  mkKstate (k_procs s) (k_root s) (k_rq s) b (k_plock s) (k_this s) (k_idle s) (k_panic s) (k_sems s) (k_waits s)
    (k_max_pid s) (k_freepid s) (k_pages s) (k_timers s) (k_ttbr0 s).
Definition k_set_plock (b : bool) (s : kstate) : kstate :=
  mkKstate (k_procs s) (k_root s) (k_rq s) (k_sched_lock s) b (k_this s) (k_idle s) (k_panic s) (k_sems s) (k_waits s)
    (k_max_pid s) (k_freepid s) (k_pages s) (k_timers s) (k_ttbr0 s).
Definition k_set_this (f : Z -> Z) (s : kstate) : kstate :=
  mkKstate (k_procs s) (k_root s) (k_rq s) (k_sched_lock s) (k_plock s) f (k_idle s) (k_panic s) (k_sems s) (k_waits s)
    (k_max_pid s) (k_freepid s) (k_pages s) (k_timers s) (k_ttbr0 s).
Definition k_set_idle (f : Z -> Z) (s : kstate) : kstate :=
  mkKstate (k_procs s) (k_root s) (k_rq s) (k_sched_lock s) (k_plock s) (k_this s) f (k_panic s) (k_sems s) (k_waits s)
    (k_max_pid s) (k_freepid s) (k_pages s) (k_timers s) (k_ttbr0 s).
Definition k_set_sems (m : gmap semid Semaphore) (s : kstate) : kstate :=
  mkKstate (k_procs s) (k_root s) (k_rq s) (k_sched_lock s) (k_plock s) (k_this s) (k_idle s) (k_panic s) m (k_waits s)
    (k_max_pid s) (k_freepid s) (k_pages s) (k_timers s) (k_ttbr0 s).
Definition k_set_waits (m : gmap Z WaitData) (s : kstate) : kstate :=
  mkKstate (k_procs s) (k_root s) (k_rq s) (k_sched_lock s) (k_plock s) (k_this s) (k_idle s) (k_panic s) (k_sems s) m
    (k_max_pid s) (k_freepid s) (k_pages s) (k_timers s) (k_ttbr0 s).
Definition k_set_pids (n : Z) (l : list Z) (s : kstate) : kstate :=
  mkKstate (k_procs s) (k_root s) (k_rq s) (k_sched_lock s) (k_plock s) (k_this s) (k_idle s) (k_panic s) (k_sems s) (k_waits s)
    n l (k_pages s) (k_timers s) (k_ttbr0 s).
Definition k_set_pages (m : gset Z) (s : kstate) : kstate :=
  mkKstate (k_procs s) (k_root s) (k_rq s) (k_sched_lock s) (k_plock s) (k_this s) (k_idle s) (k_panic s) (k_sems s) (k_waits s)
    (k_max_pid s) (k_freepid s) m (k_timers s) (k_ttbr0 s).
Definition k_set_timers (t : tstate) (s : kstate) : kstate :=
  mkKstate (k_procs s) (k_root s) (k_rq s) (k_sched_lock s) (k_plock s) (k_this s) (k_idle s) (k_panic s) (k_sems s) (k_waits s)
    (k_max_pid s) (k_freepid s) (k_pages s) t (k_ttbr0 s).
Definition k_set_ttbr0 (f : Z -> Z) (s : kstate) : kstate :=
  mkKstate (k_procs s) (k_root s) (k_rq s) (k_sched_lock s) (k_plock s) (k_this s) (k_idle s) (k_panic s) (k_sems s) (k_waits s)
    (k_max_pid s) (k_freepid s) (k_pages s) (k_timers s) f.

Definition load_proc (p : Z) : KM Proc := fun s => some_or_ub (k_procs s !! p) s.
Definition upd_proc (p : Z) (f : Proc -> Proc) : KM unit :=
  x ← load_proc p; modify (fun s => k_set_procs (<[p := f x]> (k_procs s)) s).

Definition p_set_state (st : procstate) (x : Proc) : Proc :=
  mkProc (p_killed x) (p_idle x) (p_pid x) (p_exitcode x) st (p_children x) (p_parent x) (p_pt x) (p_kstack x) (p_elr x) (p_kcontext x).
Definition p_set_kcontext (k : kcont) (x : Proc) : Proc :=
  mkProc (p_killed x) (p_idle x) (p_pid x) (p_exitcode x) (p_state x) (p_children x) (p_parent x) (p_pt x) (p_kstack x) (p_elr x) k.
Definition p_set_killed (x : Proc) : Proc :=
  mkProc true (p_idle x) (p_pid x) (p_exitcode x) (p_state x) (p_children x) (p_parent x) (p_pt x) (p_kstack x) (p_elr x) (p_kcontext x).
Definition p_set_exitcode (n : Z) (x : Proc) : Proc :=
  mkProc (p_killed x) (p_idle x) (p_pid x) n (p_state x) (p_children x) (p_parent x) (p_pt x) (p_kstack x) (p_elr x) (p_kcontext x).
Definition p_set_children (l : list Z) (x : Proc) : Proc :=
  mkProc (p_killed x) (p_idle x) (p_pid x) (p_exitcode x) (p_state x) l (p_parent x) (p_pt x) (p_kstack x) (p_elr x) (p_kcontext x).
Definition p_set_parent (q : Z) (x : Proc) : Proc :=
  mkProc (p_killed x) (p_idle x) (p_pid x) (p_exitcode x) (p_state x) (p_children x) q (p_pt x) (p_kstack x) (p_elr x) (p_kcontext x).
Definition p_set_pt (q : Z) (x : Proc) : Proc :=
  mkProc (p_killed x) (p_idle x) (p_pid x) (p_exitcode x) (p_state x) (p_children x) (p_parent x) q (p_kstack x) (p_elr x) (p_kcontext x).

(** ** Scheduler *)

Section kernel.
(** The addresses of [invalid_pt] and of the arrays [sched_timer] and
    [hello_timer], and what a new kernel stack holds in place of the field [elr]
    of the user context. *)
Context (invalid_pt sched_timers junk_elr hello_timers : Z).

(** [&sched_timer[c]]; a [struct timer] has 56 bytes. *)
Definition sched_timer (c : Z) : Z := sched_timers + 56 * c.

Definition acquire_sched_lock : KM unit :=
  b ← gets k_sched_lock; if (b : bool) then block else modify (k_set_sched_lock true).
Definition release_sched_lock : KM unit := modify (k_set_sched_lock false).
Definition acquire_plock : KM unit :=
  b ← gets k_plock; if (b : bool) then block else modify (k_set_plock true).
Definition release_plock : KM unit := modify (k_set_plock false).

Definition thisproc (c : Z) : KM Z := gets (fun s => k_this s c).

Definition is_zombie (p : Z) : KM bool :=
  acquire_sched_lock;;
  x ← load_proc p;
  release_sched_lock;;
  mret (bool_decide (p_state x = ZOMBIE)).
Definition is_unused (p : Z) : KM bool :=
  acquire_sched_lock;;
  x ← load_proc p;
  release_sched_lock;;
  mret (bool_decide (p_state x = UNUSED)).

Definition on_rq (st : procstate) : bool := bool_decide (st = RUNNING \/ st = RUNNABLE).

Definition _activate_proc (p : Z) (onalert : bool) : KM bool :=
  acquire_sched_lock;;
  x ← load_proc p;
  if bool_decide (p_state x = RUNNING \/ p_state x = RUNNABLE \/ p_state x = ZOMBIE \/ (p_state x = DEEPSLEEPING /\ onalert = true)) then
    release_sched_lock;; mret false
  else
  (if bool_decide (p_state x = SLEEPING \/ p_state x = UNUSED \/ (p_state x = DEEPSLEEPING /\ onalert = false)) then
     upd_proc p (p_set_state RUNNABLE);;
     modify (fun s => k_set_rq (p :: k_rq s) s)
   else mret tt);;
  release_sched_lock;;
  mret true.
Definition activate_proc (p : Z) : KM bool := _activate_proc p false.
Definition alert_proc (p : Z) : KM bool := _activate_proc p true.

Definition update_this_state (c : Z) (st : procstate) : KM unit :=
  this ← thisproc c;
  idle ← gets (fun s => k_idle s c);
  x ← load_proc this;
  (if negb (this =? idle) && on_rq (p_state x)
   then modify (fun s => k_set_rq (filter (fun q => q <> this) (k_rq s)) s) else mret tt);;
  upd_proc this (p_set_state st);;
  (if negb (this =? idle) && on_rq st
   then modify (fun s => k_set_rq (k_rq s ++ [this]) s) else mret tt).

(** The search loop of [pick_next]. *)
Fixpoint first_runnable (l : list Z) : KM (option Z) :=
  match l with
  | [] => mret None
  | p :: l' => x ← load_proc p; if bool_decide (p_state x = RUNNABLE) then mret (Some p) else first_runnable l'
  end.

Definition pick_next (c : Z) : KM Z :=
  panicked ← gets k_panic;
  idle ← gets (fun s => k_idle s c);
  if (panicked : bool) then mret idle else
  l ← gets k_rq;
  r ← first_runnable l;
  mret (default idle r).

Definition timers {A} : TM A -> KM A := zoom k_timers k_set_timers.

Definition update_this_proc (c p : Z) : KM unit :=
  modify (fun s => k_set_this (upd c p (k_this s)) s);;
  t ← timers (load_timer (sched_timer c));
  (if negb (t_triggered t) then timers (cancel_cpu_timer c (sched_timer c)) else mret tt);;
  timers (set_cpu_timer c (sched_timer c)).

(** [attach_pgdir(&p->pgdir)] on CPU [c]. *)
Definition attach (c p : Z) : KM unit :=
  x ← load_proc p;
  modify (fun s => k_set_ttbr0 (upd c (if p_pt x =? 0 then invalid_pt else p_pt x) (k_ttbr0 s)) s).

Definition sched (c : Z) (st : procstate) : KM unit :=
  this ← thisproc c;
  x ← load_proc this;
  ASSERT (bool_decide (p_state x = RUNNING));;
  if p_killed x && negb (bool_decide (st = ZOMBIE)) then release_sched_lock else
  update_this_state c st;;
  next ← pick_next c;
  update_this_proc c next;;
  y ← load_proc next;
  ASSERT (bool_decide (p_state y = RUNNABLE));;
  upd_proc next (p_set_state RUNNING);;
  (if negb (next =? this) then attach c next else mret tt);;
  release_sched_lock.

Definition yield (c : Z) : KM unit := acquire_sched_lock;; sched c RUNNABLE.

(** [timer_handler], the handler of [sched_timer[c]]. *)
Definition timer_handler (c t : Z) : KM unit :=
  x ← timers (load_timer t);
  timers (store_timer t (mkTimer (t_triggered x) (t_elapse x) (t_key x) (t_handler x) 0));;
  acquire_sched_lock;;
  sched c RUNNABLE.

(** [&hello_timer[c]] and its handler [hello]. *)
Definition hello_timer (c : Z) : Z := hello_timers + 56 * c.
Definition hello (c t : Z) : KM unit :=
  x ← timers (load_timer t);
  timers (store_timer t (mkTimer (t_triggered x) (t_elapse x) (t_key x) (t_handler x) (t_data x + 1)));;
  timers (set_cpu_timer c (hello_timer c)).

(** A turn of the loop of [timer_clock_handler]: false ends the loop.  The
    function pointers are [H_SCHED] for [timer_handler] and [H_HELLO] for
    [hello]; after [timer_handler] another process may have the CPU, and the loop
    goes on when this one has it again. *)
Definition H_SCHED : Z := 1.
Definition H_HELLO : Z := 2.
Definition timer_clock_turn (c : Z) : KM bool :=
  l ← gets (fun s => t_tree (k_timers s) c);
  match l with
  | [] => mret false
  | t :: _ =>
      x ← timers (load_timer t);
      now ← gets (fun s => t_now (k_timers s));
      if now <? t_key x then mret false else
      timers (cancel_cpu_timer c t);;
      y ← timers (load_timer t);
      timers (store_timer t (mkTimer true (t_elapse y) (t_key y) (t_handler y) (t_data y)));;
      (if t_handler y =? H_SCHED then timer_handler c t else if t_handler y =? H_HELLO then hello c t else ub);;
      mret true
  end.

(** The part of [set_cpu_on] that sets the timer of the CPU. *)
Definition set_cpu_on (c : Z) : KM unit :=
  x ← timers (load_timer (hello_timer c));
  timers (store_timer (hello_timer c) (mkTimer (t_triggered x) 5000 (t_key x) H_HELLO (t_data x)));;
  timers (set_cpu_timer c (hello_timer c)).

(** ** Semaphores *)

Definition load_sem (i : semid) : KM Semaphore := fun s => some_or_ub (k_sems s !! i) s.
Definition store_sem (i : semid) (x : Semaphore) : KM unit := modify (fun s => k_set_sems (<[i := x]> (k_sems s)) s).

Definition init_sem (i : semid) (val : Z) : KM unit := store_sem i (mkSem false val []).

Definition _lock_sem (i : semid) : KM unit :=
  x ← load_sem i; if s_lock x then block else store_sem i (mkSem true (s_val x) (s_sleep x)).
Definition _unlock_sem (i : semid) : KM unit :=
  x ← load_sem i; store_sem i (mkSem false (s_val x) (s_sleep x)).

Definition _get_sem (i : semid) : KM bool :=
  x ← load_sem i;
  if 0 <? s_val x then store_sem i (mkSem (s_lock x) (s_val x - 1) (s_sleep x));; mret true else mret false.
Definition get_sem (i : semid) : KM bool := _lock_sem i;; r ← _get_sem i; _unlock_sem i;; mret r.
Definition _query_sem (i : semid) : KM Z := x ← load_sem i; mret (s_val x).

Definition get_all_sem (i : semid) : KM Z :=
  _lock_sem i;;
  x ← load_sem i;
  ret ← (if 0 <? s_val x then store_sem i (mkSem (s_lock x) 0 (s_sleep x));; mret (s_val x) else mret 0);
  _unlock_sem i;;
  mret ret.

Definition load_wait (w : Z) : KM WaitData := fun s => some_or_ub (k_waits s !! w) s.
Definition store_wait (w : Z) (x : WaitData) : KM unit := modify (fun s => k_set_waits (<[w := x]> (k_waits s)) s).

Definition _post_sem (i : semid) : KM unit :=
  x ← load_sem i;
  store_sem i (mkSem (s_lock x) (s_val x + 1) (s_sleep x));;
  if s_val x + 1 <=? 0 then
    match last (s_sleep x) with
    | None => panic
    | Some w =>
        y ← load_wait w;
        store_wait w (mkWait true (w_proc y));;
        store_sem i (mkSem (s_lock x) (s_val x + 1) (filter (fun v => v <> w) (s_sleep x)));;
        activate_proc (w_proc y);;
        mret tt
    end
  else mret tt.
Definition post_sem (i : semid) : KM unit := _lock_sem i;; _post_sem i;; _unlock_sem i.

(** The loop of [post_all_sem]; [n] bounds its turns. *)
Fixpoint post_all_loop (n : nat) (i : semid) (ret : Z) : KM Z :=
  match n with
  | O => block
  | S n' =>
      _post_sem i;;
      got ← _get_sem i;
      if (got : bool) then mret (ret + 1) else post_all_loop n' i (ret + 1)
  end.
(** A turn takes a sleeper off the list or leaves a positive value. *)
Definition post_all_sem (i : semid) : KM Z :=
  _lock_sem i;;
  x ← load_sem i;
  ret ← post_all_loop (S (length (s_sleep x))) i (-1);
  _unlock_sem i;;
  mret ret.

(** [kalloc(sizeof(WaitData))], [kalloc(sizeof(Proc))], [kalloc_page()]:
    addresses that are not NULL and not in use. *)
Definition kalloc_wait : KM Z := gets (fun s => fresh ({[0]} ∪ dom (k_waits s) : gset Z)).
Definition kalloc_proc : KM Z := gets (fun s => fresh ({[0]} ∪ dom (k_procs s) : gset Z)).
Definition alloc_page : KM Z :=
  p ← gets (fun s => fresh ({[0]} ∪ k_pages s));
  modify (fun s => k_set_pages ({[p]} ∪ k_pages s) s);;
  mret p.
Definition free_page (p : Z) : KM unit := modify (fun s => k_set_pages (k_pages s ∖ {[p]}) s).

(** What the caller of [_wait_sem] does with its result. *)
Definition wait_return (c : Z) (k : after_wait) (ret : bool) : KM unit :=
  this ← thisproc c;
  match k with
  | AReturn => upd_proc this (p_set_kcontext KRun)
  | AAssert => ASSERT ret;; upd_proc this (p_set_kcontext KRun)
  | ACollect => upd_proc this (p_set_kcontext (if ret then KCollect else KRun))
  end.

(** [_wait_sem] up to [sched]; the lock of the semaphore is held. *)
Definition _wait_sem (c : Z) (i : semid) (alertable : bool) (k : after_wait) : KM unit :=
  x ← load_sem i;
  store_sem i (mkSem (s_lock x) (s_val x - 1) (s_sleep x));;
  if 0 <=? s_val x - 1 then _unlock_sem i;; wait_return c k true else
  w ← kalloc_wait;
  this ← thisproc c;
  store_wait w (mkWait false this);;
  store_sem i (mkSem (s_lock x) (s_val x - 1) (w :: s_sleep x));;
  acquire_sched_lock;;
  _unlock_sem i;;
  upd_proc this (p_set_kcontext (KSem i w k));;
  sched c (if alertable then SLEEPING else DEEPSLEEPING).

(** [_wait_sem] after [sched]. *)
Definition wait_resume (c : Z) (i : semid) (w : Z) (k : after_wait) : KM unit :=
  _lock_sem i;;
  y ← load_wait w;
  (if negb (w_up y) then
     x ← load_sem i;
     store_sem i (mkSem (s_lock x) (s_val x + 1) (filter (fun v => v <> w) (s_sleep x)));;
     ASSERT (s_val x + 1 <=? 0)
   else mret tt);;
  _unlock_sem i;;
  modify (fun s => k_set_waits (delete w (k_waits s)) s);;
  wait_return c k (w_up y).

Definition wait_sem (c : Z) (i : semid) : KM unit := _lock_sem i;; _wait_sem c i true AReturn.
Definition unalertable_wait_sem (c : Z) (i : semid) : KM unit := _lock_sem i;; _wait_sem c i false AAssert.

(** ** Process identifiers *)

Definition get_pid : KM Z :=
  l ← gets k_freepid;
  match l with
  | [] => modify (fun s => k_set_pids (k_max_pid s + 1) [] s);; gets k_max_pid
  | pid :: l' => modify (fun s => k_set_pids (k_max_pid s) l' s);; mret pid
  end.
Definition reuse_pid (pid : Z) : KM unit := modify (fun s => k_set_pids (k_max_pid s) (pid :: k_freepid s) s).

(** ** Processes *)

(** [init_proc]. *)
Definition init_proc (p : Z) : KM unit :=
  acquire_plock;;
  pid ← get_pid;
  init_sem (SChild p) 0;;
  kstack ← alloc_page;
  pt ← alloc_page;
  modify (fun s => k_set_procs (<[p := mkProc false false pid 0 UNUSED [] 0 pt kstack junk_elr KRun]> (k_procs s)) s);;
  release_plock.

Definition create_proc : KM Z := p ← kalloc_proc; init_proc p;; mret p.

Definition add_child (p q : Z) : KM unit := upd_proc p (fun x => p_set_children (q :: p_children x) x).

Definition set_parent_to_this (c p : Z) : KM unit :=
  acquire_plock;;
  this ← thisproc c;
  upd_proc p (p_set_parent this);;
  add_child this p;;
  release_plock.

Definition start_proc (p entry arg : Z) : KM Z :=
  acquire_plock;;
  x ← load_proc p;
  root ← gets k_root;
  (if p_parent x =? 0 then upd_proc p (p_set_parent root);; add_child root p else mret tt);;
  release_plock;;
  upd_proc p (p_set_kcontext (KEntry entry arg));;
  activate_proc p;;
  mret (p_pid x).

(** [wait()] up to the end of [wait_sem]; the result when it returns here. *)
Definition wait_begin (c : Z) : KM (option Z) :=
  this ← thisproc c;
  acquire_plock;;
  x ← load_proc this;
  release_plock;;
  match p_children x with
  | [] => mret (Some (-1))
  | _ => _lock_sem (SChild this);; _wait_sem c (SChild this) true ACollect;; mret None
  end.

(** The search for a zombie in [wait()]. *)
Fixpoint find_zombie (l : list Z) : KM (option Z) :=
  match l with
  | [] => mret None
  | q :: l' => x ← load_proc q; if bool_decide (p_state x = ZOMBIE) then mret (Some q) else find_zombie l'
  end.

(** [wait()] after [wait_sem]: the result and the exit code. *)
Definition wait_collect (c : Z) : KM (Z * option Z) :=
  this ← thisproc c;
  upd_proc this (p_set_kcontext KRun);;
  acquire_plock;;
  acquire_sched_lock;;
  x ← load_proc this;
  r ← find_zombie (p_children x);
  match r with
  | Some z =>
      y ← load_proc z;
      ASSERT (bool_decide (p_state y = ZOMBIE));;
      upd_proc this (fun x => p_set_children (filter (fun q => q <> z) (p_children x)) x);;
      modify (fun s => k_set_rq (filter (fun q => q <> z) (k_rq s)) s);;
      free_page (p_kstack y);;
      reuse_pid (p_pid y);;
      modify (fun s => k_set_procs (delete z (k_procs s)) s);;
      modify (fun s => k_set_sems (delete (SChild z) (k_sems s)) s);;
      release_sched_lock;;
      release_plock;;
      mret (p_pid y, Some (p_exitcode y))
  | None => release_sched_lock;; release_plock;; mret (-1, None)
  end.

(** The loop of [exit] over the children: the number of zombies. *)
Fixpoint reparent (l : list Z) (root : Z) (times : nat) : KM nat :=
  match l with
  | [] => mret times
  | q :: l' =>
      upd_proc q (p_set_parent root);;
      y ← load_proc q;
      reparent l' root (if bool_decide (p_state y = ZOMBIE) then S times else times)
  end.

(** [for (int i = 0; i < times; i++) post_sem(...)]. *)
Fixpoint post_times (n : nat) (i : semid) : KM unit :=
  match n with O => mret tt | S n' => post_sem i;; post_times n' i end.

(** [free_pgdir(&p->pgdir)], for the root table. *)
Definition free_pt (p : Z) : KM unit :=
  x ← load_proc p;
  if p_pt x =? 0 then mret tt else free_page (p_pt x);; upd_proc p (p_set_pt 0).

(** [exit]; [_merge_list(&root_proc.children, this->children.next)] puts the
    list before the children that [root_proc] has. *)
Definition exit (c code : Z) : KM unit :=
  acquire_plock;;
  acquire_sched_lock;;
  this ← thisproc c;
  root ← gets k_root;
  upd_proc this (p_set_exitcode code);;
  x ← load_proc this;
  times ← reparent (p_children x) root 0;
  (if bool_decide (p_children x = []) then mret tt else
   upd_proc root (fun y => p_set_children (p_children x ++ p_children y) y);;
   upd_proc this (p_set_children []);;
   release_sched_lock;;
   post_times times (SChild root);;
   acquire_sched_lock);;
  free_pt this;;
  release_sched_lock;;
  y ← load_proc this;
  post_sem (SChild (p_parent y));;
  acquire_sched_lock;;
  release_plock;;
  upd_proc this (p_set_kcontext KDead);;
  sched c ZOMBIE.

(** [find_proc]; [n] bounds the depth of the tree. *)
Fixpoint find_proc (n : nat) (pid current : Z) : KM (option Z) :=
  match n with
  | O => block
  | S n' =>
      x ← load_proc current;
      unused ← (if p_pid x =? pid then is_unused current else mret true);
      if negb unused then mret (Some current) else
      (fix search (l : list Z) : KM (option Z) :=
         match l with
         | [] => mret None
         | q :: l' =>
             temp ← find_proc n' pid q;
             match temp with Some r => mret (Some r) | None => search l' end
         end) (p_children x)
  end.

Definition kill (pid : Z) : KM Z :=
  acquire_plock;;
  root ← gets k_root;
  n ← gets (fun s => size (k_procs s));
  r ← find_proc n pid root;
  release_plock;;
  match r with
  | Some t =>
      x ← load_proc t;
      if Z.shiftr (p_elr x) 48 =? 0 then
        upd_proc t p_set_killed;; alert_proc t;; mret 0
      else mret (-1)
  | None => mret (-1)
  end.

(** The loops of [init_sched] over the CPUs.  A process from [kalloc] has the
    fields of [junk], whatever the memory holds. *)
Definition ALL_CPUS : list Z := [0; 1; 2; 3].
Fixpoint init_timers (l : list Z) : KM unit :=
  match l with
  | [] => mret tt
  | i :: l' => timers (store_timer (sched_timer i) (mkTimer true 5 0 H_SCHED i));; init_timers l'
  end.
Fixpoint init_cpus (junk : Proc) (l : list Z) : KM unit :=
  match l with
  | [] => mret tt
  | i :: l' =>
      p ← kalloc_proc;
      modify (fun s => k_set_procs (<[p := mkProc (p_killed junk) true (p_pid junk) (p_exitcode junk) RUNNING (p_children junk) (p_parent junk) (p_pt junk) (p_kstack junk) (p_elr junk) (p_kcontext junk)]> (k_procs s)) s);;
      modify (fun s => k_set_idle (upd i p (k_idle s)) (k_set_this (upd i p (k_this s)) s));;
      init_cpus junk l'
  end.
Definition init_sched (junk : Proc) : KM unit :=
  modify (fun s => k_set_rq [] (k_set_sched_lock false s));;
  init_timers ALL_CPUS;;
  init_cpus junk ALL_CPUS.

(** [init_kproc]; [kernel_entry] is an address. *)
Definition init_kproc (kernel_entry : Z) : KM unit :=
  root ← gets k_root;
  modify (fun s => k_set_pids 0 [] (k_set_plock false s));;
  init_proc root;;
  upd_proc root (p_set_parent root);;
  start_proc root kernel_entry 123456;;
  mret tt.

(** What the process of CPU [c] does when it has been switched to. *)
Definition resume (c : Z) : KM unit :=
  this ← thisproc c;
  x ← load_proc this;
  match p_kcontext x with
  | KRun => mret tt
  | KEntry _ _ => upd_proc this (p_set_kcontext KRun)
  | KSem i w k => wait_resume c i w k
  | KCollect => wait_collect c;; mret tt
  | KDead => panic
  end.
End kernel.
