(* ===== verification/SchedProofs.v ===== *)
(** * The scheduler: its invariant, and what its operations do

    [sched_ok] is the invariant of the run queue and of the CPUs.  The processes
    are also described by [obs], which forgets the difference between running
    and runnable and keeps what semaphores and the process tree depend on;
    every operation is characterised by its effect on [obs]. *)

From Stdlib Require Import ZArith Lia.
From stdpp Require Import base tactics numbers gmap list.
From S2P Require Import Prelude BlockCache Timer Sched.

Local Open Scope Z_scope.

(** ** The visible part of a process *)

Inductive kind : Type := Ready | Asleep | Zombie | Unused.
#[global] Instance kind_dec : EqDecision kind.
Proof. solve_decision. Defined.

Definition kind_of (st : procstate) : kind :=
  match st with RUNNABLE | RUNNING => Ready | SLEEPING | DEEPSLEEPING => Asleep | ZOMBIE => Zombie | UNUSED => Unused end.

Record pview : Type := mkPv {
  v_idle : bool;
  v_pid : Z;
  v_kind : kind;
  v_children : list Z;
  v_parent : Z;
  v_kcontext : kcont;
  v_exitcode : Z }.

Definition view_proc (x : Proc) : pview :=
  mkPv (p_idle x) (p_pid x) (kind_of (p_state x)) (p_children x) (p_parent x) (p_kcontext x) (p_exitcode x).
Definition obs (s : kstate) : gmap Z pview := view_proc <$> k_procs s.

Definition v_set_kind (k : kind) (v : pview) : pview := mkPv (v_idle v) (v_pid v) k (v_children v) (v_parent v) (v_kcontext v) (v_exitcode v).
Definition v_set_kcontext (k : kcont) (v : pview) : pview := mkPv (v_idle v) (v_pid v) (v_kind v) (v_children v) (v_parent v) k (v_exitcode v).
Definition v_set_children (l : list Z) (v : pview) : pview := mkPv (v_idle v) (v_pid v) (v_kind v) l (v_parent v) (v_kcontext v) (v_exitcode v).
Definition v_set_parent (q : Z) (v : pview) : pview := mkPv (v_idle v) (v_pid v) (v_kind v) (v_children v) q (v_kcontext v) (v_exitcode v).

Lemma obs_lookup s p v : obs s !! p = Some v <-> exists x, k_procs s !! p = Some x /\ view_proc x = v.
Proof. unfold obs. rewrite lookup_fmap, fmap_Some. split; intros (x & H1 & H2); exists x; done. Qed.

Lemma obs_insert s p x : obs (k_set_procs (<[p := x]> (k_procs s)) s) = <[p := view_proc x]> (obs s).
Proof. unfold obs. cbn. by rewrite fmap_insert. Qed.

Definition cpu (c : Z) : Prop := 0 <= c < NCPU.

(** What the operations of the scheduler leave alone. *)
Definition same_kernel (s s' : kstate) : Prop :=
  k_root s' = k_root s /\ k_plock s' = k_plock s /\ k_idle s' = k_idle s /\ k_panic s' = k_panic s /\
  k_sems s' = k_sems s /\ k_waits s' = k_waits s /\ k_max_pid s' = k_max_pid s /\ k_freepid s' = k_freepid s /\
  k_pages s' = k_pages s.

Lemma same_kernel_refl s : same_kernel s s.
Proof. done. Qed.
Lemma same_kernel_trans s1 s2 s3 : same_kernel s1 s2 -> same_kernel s2 s3 -> same_kernel s1 s3.
Proof. unfold same_kernel. intuition congruence. Qed.

Section sched.
Context (invalid_pt sched_timers : Z).
Abbreviation sched_timer := (sched_timer sched_timers).

(** ** The invariant *)

Record sched_ok (s : kstate) : Prop := {
  so_nodup : NoDup (k_rq s);
  so_rq : forall p, p ∈ k_rq s <-> exists x, k_procs s !! p = Some x /\ p_idle x = false /\ on_rq (p_state x) = true;
  so_this : forall c, cpu c -> exists x, k_procs s !! k_this s c = Some x /\ p_state x = RUNNING;
  so_running : forall p x, k_procs s !! p = Some x -> p_state x = RUNNING -> exists c, cpu c /\ k_this s c = p;
  so_inj : forall c d, cpu c -> cpu d -> k_this s c = k_this s d -> c = d;
  so_idle : forall c, cpu c -> exists x, k_procs s !! k_idle s c = Some x /\ p_idle x = true /\ on_rq (p_state x) = true;
  so_own : forall c x, cpu c -> k_procs s !! k_this s c = Some x -> p_idle x = true -> k_this s c = k_idle s c;
  so_idle_inj : forall c d, cpu c -> cpu d -> k_idle s c = k_idle s d -> c = d;
  so_timer : forall c, cpu c -> timer_ok c (sched_timer c) (k_timers s) }.

(** Only the fields that [sched_ok] mentions matter. *)
Lemma sched_ok_ext s s' :
  sched_ok s -> k_rq s' = k_rq s -> k_procs s' = k_procs s -> k_this s' = k_this s -> k_idle s' = k_idle s ->
  k_timers s' = k_timers s -> sched_ok s'.
Proof. intros [] E1 E2 E3 E4 E5. split; rewrite ?E1, ?E2, ?E3, ?E4, ?E5; done. Qed.

(** A change of a process that keeps its state. *)
Lemma sched_ok_upd s p x y :
  sched_ok s -> k_procs s !! p = Some x -> p_state y = p_state x -> p_idle y = p_idle x ->
  sched_ok (k_set_procs (<[p := y]> (k_procs s)) s).
Proof.
  intros [] Hp Es Ei.
  assert (forall q z, <[p := y]> (k_procs s) !! q = Some z -> exists z', k_procs s !! q = Some z' /\ p_state z' = p_state z /\ p_idle z' = p_idle z) as H.
  { intros q z. destruct (decide (q = p)) as [->|Hne]; [rewrite lookup_insert_eq; intros [= <-]; by exists x|].
    rewrite lookup_insert_ne by done. intros Hq. by exists z. }
  assert (forall q z, k_procs s !! q = Some z -> exists z', <[p := y]> (k_procs s) !! q = Some z' /\ p_state z' = p_state z /\ p_idle z' = p_idle z) as K.
  { intros q z Hq. destruct (decide (q = p)) as [->|Hne]; [rewrite lookup_insert_eq; exists y; simplify_eq; done|].
    rewrite lookup_insert_ne by done. by exists z. }
  split; cbn; try done.
  - intros q. rewrite so_rq0. split.
    + intros (z & Hz & H1 & H2). destruct (K q z Hz) as (z' & ? & E1 & E2). exists z'. rewrite E1, E2. done.
    + intros (z & Hz & H1 & H2). destruct (H q z Hz) as (z' & ? & E1 & E2). exists z'. rewrite E1, E2. done.
  - intros c Hc. destruct (so_this0 c Hc) as (z & Hz & Hs). destruct (K _ z Hz) as (z' & ? & E1 & E2). exists z'. by rewrite E1.
  - intros q z Hq Hs. destruct (H q z Hq) as (z' & Hz' & E1 & E2). apply (so_running0 q z'); [done|congruence].
  - intros c Hc. destruct (so_idle0 c Hc) as (z & Hz & H1 & H2). destruct (K _ z Hz) as (z' & ? & E1 & E2). exists z'. by rewrite E1, E2.
  - intros c z Hc Hz Hi. destruct (H _ z Hz) as (z' & Hz' & E1 & E2). apply (so_own0 c z'); [done|done|congruence].
Qed.

(** ** Primitives *)

Lemma wp_load_proc p x s (Q : Proc -> kstate -> Prop) : k_procs s !! p = Some x -> Q x s -> wp (load_proc p) Q s.
Proof. intros H HQ. unfold wp, load_proc. by rewrite H. Qed.

Lemma wp_upd_proc p f x s (Q : unit -> kstate -> Prop) :
  k_procs s !! p = Some x -> Q tt (k_set_procs (<[p := f x]> (k_procs s)) s) -> wp (upd_proc p f) Q s.
Proof. intros H HQ. unfold upd_proc. wp_prim. eapply wp_load_proc; [done|]. by wp_prim. Qed.

Lemma wp_acquire_sched s (Q : unit -> kstate -> Prop) :
  k_sched_lock s = false -> Q tt (k_set_sched_lock true s) -> wp acquire_sched_lock Q s.
Proof. intros H HQ. unfold acquire_sched_lock. wp_prims. by rewrite H. Qed.

Lemma wp_acquire_plock s (Q : unit -> kstate -> Prop) :
  k_plock s = false -> Q tt (k_set_plock true s) -> wp acquire_plock Q s.
Proof. intros H HQ. unfold acquire_plock. wp_prims. by rewrite H. Qed.

(** ** Waking a process *)

(** Does [_activate_proc] wake a process in this state? *)
Definition wakes (st : procstate) (onalert : bool) : bool :=
  match st with SLEEPING | UNUSED => true | DEEPSLEEPING => negb onalert | _ => false end.

Lemma activate_wp p onalert x s :
  sched_ok s -> k_sched_lock s = false -> k_procs s !! p = Some x -> p_idle x = false ->
  wp (_activate_proc p onalert) (fun r s' => r = wakes (p_state x) onalert /\ sched_ok s' /\ k_sched_lock s' = false /\
    same_kernel s s' /\ k_this s' = k_this s /\
    k_procs s' = if wakes (p_state x) onalert then <[p := p_set_state RUNNABLE x]> (k_procs s) else k_procs s) s.
Proof.
  intros Hok Hl Hp Hi. unfold _activate_proc. wp_prim. apply wp_acquire_sched; [done|]. wp_prim. eapply wp_load_proc; [done|].
  destruct (wakes (p_state x) onalert) eqn:Hw.
  - rewrite bool_decide_false by (destruct (p_state x), onalert; cbn in Hw; naive_solver).
    rewrite bool_decide_true by (destruct (p_state x), onalert; cbn in Hw; naive_solver).
    assert (on_rq (p_state x) = false) as Hq by (destruct (p_state x), onalert; done).
    unfold release_sched_lock. wp_prim. wp_prim. eapply wp_upd_proc; [done|]. wp_prims. cbn.
    split; [done|]. split; [|done]. destruct Hok. split; cbn; try done.
    + constructor; [|done]. rewrite so_rq0. intros (y & Hy & _ & Hr). simplify_eq. congruence.
    + intros q. rewrite elem_of_cons, so_rq0. destruct (decide (q = p)) as [->|Hne].
      * rewrite lookup_insert_eq. split; [|by left]. intros _. eexists. split; [done|]. done.
      * rewrite lookup_insert_ne by done. split; [intros [?|?]; done|by right].
    + intros c Hc. destruct (so_this0 c Hc) as (y & Hy & Hs). destruct (decide (k_this s c = p)) as [E|Hne].
      * rewrite E in Hy. simplify_eq. rewrite Hs in Hq. done.
      * exists y. by rewrite lookup_insert_ne.
    + intros q y. destruct (decide (q = p)) as [->|Hne]; [rewrite lookup_insert_eq; by intros [= <-]|].
      rewrite lookup_insert_ne by done. apply so_running0.
    + intros c Hc. destruct (so_idle0 c Hc) as (y & Hy & Hs & Hs'). destruct (decide (k_idle s c = p)) as [E|Hne].
      * rewrite E in Hy. simplify_eq. congruence.
      * exists y. by rewrite lookup_insert_ne.
    + intros c y Hc. destruct (decide (k_this s c = p)) as [E|Hne].
      * rewrite E, lookup_insert_eq. intros [= <-]. cbn. congruence.
      * rewrite lookup_insert_ne by done. by apply so_own0.
  - rewrite bool_decide_true by (destruct (p_state x), onalert; cbn in Hw; naive_solver).
    unfold release_sched_lock. wp_prims. cbn. split; [done|]. split; [|done]. by eapply sched_ok_ext.
Qed.

(** ** Choosing the next process *)

Definition runnable (m : gmap Z Proc) (p : Z) : bool :=
  match m !! p with Some x => bool_decide (p_state x = RUNNABLE) | None => false end.

Fixpoint first_ready (m : gmap Z Proc) (l : list Z) : option Z :=
  match l with [] => None | p :: l' => if runnable m p then Some p else first_ready m l' end.

Lemma first_runnable_run l s : (forall p, p ∈ l -> is_Some (k_procs s !! p)) ->
  first_runnable l s = Ret (first_ready (k_procs s) l, s).
Proof.
  induction l as [|p l IH]; intros H; [done|]. cbn [first_runnable first_ready]. destruct (H p) as [x Hx]; [left|].
  unfold mbind, M_bind, load_proc, some_or_ub, runnable. rewrite Hx. cbn. case_bool_decide; [done|].
  apply IH. intros q Hq. apply H. by right.
Qed.

Lemma first_ready_Some m l p : first_ready m l = Some p -> p ∈ l /\ exists x, m !! p = Some x /\ p_state x = RUNNABLE.
Proof.
  induction l as [|q l IH]; [done|]. cbn [first_ready]. unfold runnable. destruct (m !! q) as [x|] eqn:E.
  - case_bool_decide; [intros [= ->]; split; [left|by exists x]|]. intros H1%IH. split; [right|]; apply H1.
  - intros H%IH. split; [right|]; apply H.
Qed.

(** The process that runs next on CPU [c]. *)
Definition next_proc (s : kstate) (c : Z) : Z :=
  if k_panic s then k_idle s c else default (k_idle s c) (first_ready (k_procs s) (k_rq s)).

Lemma pick_next_run c s : (forall p, p ∈ k_rq s -> is_Some (k_procs s !! p)) ->
  pick_next c s = Ret (next_proc s c, s).
Proof.
  intros H. unfold pick_next, next_proc. unfold gets, mbind at 1 2 3, M_bind. destruct (k_panic s); [done|].
  unfold mbind, M_bind. by rewrite first_runnable_run.
Qed.

(** ** Switching *)

Definition requeue (c : Z) (st : procstate) (s : kstate) : list Z :=
  if k_this s c =? k_idle s c then k_rq s
  else filter (fun q => q <> k_this s c) (k_rq s) ++ (if on_rq st then [k_this s c] else []).

(** The state after [update_this_state]. *)
Definition updated (c : Z) (st : procstate) (x : Proc) (s : kstate) : kstate :=
  k_set_rq (requeue c st s) (k_set_procs (<[k_this s c := p_set_state st x]> (k_procs s)) s).

Lemma update_this_state_wp c st x s (Q : unit -> kstate -> Prop) :
  k_procs s !! k_this s c = Some x -> p_state x = RUNNING -> Q tt (updated c st x s) -> wp (update_this_state c st) Q s.
Proof.
  intros Hx Hs HQ. unfold update_this_state, thisproc. wp_prims. eapply wp_load_proc; [done|]. rewrite Hs. change (on_rq RUNNING) with true.
  unfold updated, requeue in HQ. destruct (k_this s c =? k_idle s c); cbn [negb andb] in *; wp_prims.
  - eapply wp_upd_proc; [done|]. wp_prims. by destruct s.
  - eapply wp_upd_proc; [done|]. destruct (on_rq st); wp_prims; [done|]. cbn. by rewrite app_nil_r in HQ.
Qed.

Section switch.
Context (c : Z) (st : procstate) (x : Proc) (s : kstate).
Context (Hok : sched_ok s) (Hc : cpu c) (Hx : k_procs s !! k_this s c = Some x).
Context (Hst : st <> RUNNING) (Hidle : k_this s c = k_idle s c -> st = RUNNABLE).

Lemma this_running : p_state x = RUNNING.
Proof. destruct (so_this s Hok c Hc) as (y & Hy & Hs). congruence. Qed.

Lemma this_not_idle : k_this s c <> k_idle s c -> p_idle x = false.
Proof. intros H. destruct (p_idle x) eqn:E; [|done]. by destruct H; apply (so_own s Hok c x). Qed.

Lemma this_idle : k_this s c = k_idle s c -> p_idle x = true.
Proof. intros E. destruct (so_idle s Hok c Hc) as (y & Hy & Hi & _). rewrite <-E in Hy. congruence. Qed.

Lemma requeue_elem p : p ∈ requeue c st s <-> if decide (p = k_this s c) then p_idle x = false /\ on_rq st = true else p ∈ k_rq s.
Proof.
  unfold requeue. destruct (Z.eqb_spec (k_this s c) (k_idle s c)) as [E|E].
  - case_decide as D; [|done]. subst p. rewrite (so_rq s Hok). rewrite (this_idle E). split; [|by intros []].
    intros (y & Hy & Hi & _). rewrite Hx in Hy. pose proof (this_idle E). congruence.
  - rewrite elem_of_app, list_elem_of_filter. case_decide as D; [subst p|].
    + rewrite (this_not_idle E). destruct (on_rq st); set_solver.
    + destruct (on_rq st); set_solver.
Qed.

Lemma requeue_nodup : NoDup (requeue c st s).
Proof.
  pose proof (so_nodup s Hok) as H. unfold requeue. case_match; [done|]. apply NoDup_app. split_and!.
  - by apply NoDup_filter.
  - intros p [Hp _]%list_elem_of_filter. destruct (on_rq st); set_solver.
  - destruct (on_rq st); [apply NoDup_singleton|constructor].
Qed.

(** The idle process of a CPU that runs another one is runnable. *)
Lemma idle_runnable : k_this s c <> k_idle s c -> exists y, k_procs s !! k_idle s c = Some y /\ p_idle y = true /\ p_state y = RUNNABLE.
Proof.
  intros Hne. destruct (so_idle s Hok c Hc) as (y & Hy & Hi & Hr). exists y. split_and!; [done|done|].
  destruct (p_state y) eqn:E; try done. destruct (so_running s Hok _ y Hy E) as (d & Hd & Ed).
  rewrite <-Ed in Hy. pose proof (so_own s Hok d y Hd Hy Hi) as Eo.
  assert (d = c) as -> by (apply (so_idle_inj s Hok); congruence). congruence.
Qed.

Abbreviation s1 := (updated c st x s).

Lemma updated_lookup p y : k_procs s1 !! p = Some y ->
  (p = k_this s c /\ y = p_set_state st x) \/ (p <> k_this s c /\ k_procs s !! p = Some y).
Proof.
  cbn. destruct (decide (p = k_this s c)) as [->|Hne]; [rewrite lookup_insert_eq; left; split; congruence|].
  rewrite lookup_insert_ne by done. by right.
Qed.

(** The next process is runnable, and the idle process or on the queue. *)
Lemma next_runnable : exists y, k_procs s1 !! next_proc s1 c = Some y /\ p_state y = RUNNABLE /\
  (next_proc s1 c = k_idle s c \/ next_proc s1 c ∈ k_rq s1 /\ p_idle y = false).
Proof.
  assert (exists y, k_procs s1 !! k_idle s c = Some y /\ p_state y = RUNNABLE) as (y & Hy & Hs).
  { cbn. destruct (decide (k_this s c = k_idle s c)) as [E|E].
    - rewrite <-E, lookup_insert_eq. eexists. split; [done|]. cbn. by apply Hidle.
    - destruct (idle_runnable E) as (y & Hy & _ & Hr). exists y. by rewrite lookup_insert_ne. }
  unfold next_proc. destruct (k_panic s1); [exists y; by auto|].
  destruct (first_ready (k_procs s1) (k_rq s1)) as [n|] eqn:En; cbn [default from_option]; [|exists y; by auto].
  apply first_ready_Some in En as (Hn & z & Hz & Hr). exists z. split_and!; [done|done|]. right. split; [done|].
  change (k_rq s1) with (requeue c st s) in Hn. apply requeue_elem in Hn. destruct (updated_lookup n z Hz) as [[-> ->]|[Hne Hz']].
  - rewrite decide_True in Hn by done. apply Hn.
  - rewrite decide_False in Hn by done. apply (so_rq s Hok) in Hn as (z' & Hz2 & Hi & _). simplify_eq. done.
Qed.

(** The state after the switch. *)
Definition switched (n : Z) (y : Proc) (t : tstate) (f : Z -> Z) : kstate :=
  k_set_sched_lock false (k_set_ttbr0 f (k_set_procs (<[n := p_set_state RUNNING y]> (k_procs s1))
    (k_set_timers t (k_set_this (upd c n (k_this s)) s1)))).

Lemma switched_ok n y t f :
  k_procs s1 !! n = Some y -> p_state y = RUNNABLE -> (n = k_idle s c \/ n ∈ k_rq s1 /\ p_idle y = false) ->
  (forall d, cpu d -> timer_ok d (sched_timer d) t) -> sched_ok (switched n y t f).
Proof.
  intros Hy Hs Hn Ht.
  assert (forall p z, <[n := p_set_state RUNNING y]> (k_procs s1) !! p = Some z ->
    exists z', k_procs s1 !! p = Some z' /\ p_idle z = p_idle z' /\ on_rq (p_state z) = on_rq (p_state z') /\
      (p_state z = RUNNING -> p = n \/ p <> k_this s c /\ k_procs s !! p = Some z)) as HL.
  { intros p z. destruct (decide (p = n)) as [->|Hne]; [rewrite lookup_insert_eq; intros [= <-]; exists y; rewrite Hs; auto|].
    rewrite lookup_insert_ne by done. intros Hz. exists z. split_and!; [done|done|done|]. intros Hr. right.
    destruct (updated_lookup p z Hz) as [[-> ->]|?]; [|done]. by cbn in Hr. }
  assert (forall p z, k_procs s1 !! p = Some z -> exists z', <[n := p_set_state RUNNING y]> (k_procs s1) !! p = Some z' /\
    p_idle z' = p_idle z /\ on_rq (p_state z') = on_rq (p_state z)) as HK.
  { intros p z Hz. destruct (decide (p = n)) as [->|Hne].
    - rewrite lookup_insert_eq. simplify_eq. eexists. split; [done|]. by rewrite Hs.
    - rewrite lookup_insert_ne by done. by exists z. }
  assert (forall d, cpu d -> d <> c -> k_this s d <> k_this s c /\ k_this s d <> n) as Hd.
  { intros d Hdc Hne. assert (k_this s d <> k_this s c) as H1 by (intros E; by apply Hne, (so_inj s Hok)). split; [done|].
    intros E. destruct (so_this s Hok d Hdc) as (z & Hz & Hzr). destruct (updated_lookup n y Hy) as [[-> _]|[_ Hy']]; [done|].
    rewrite E in Hz. congruence. }
  split; cbn; try done.
  - apply requeue_nodup.
  - intros p. rewrite requeue_elem. split.
    + intros Hp. assert (exists z, k_procs s1 !! p = Some z /\ p_idle z = false /\ on_rq (p_state z) = true) as (z & Hz & H1 & H2).
      { cbn. case_decide as D; [subst p; rewrite lookup_insert_eq; by eexists|]. rewrite lookup_insert_ne by done. by apply (so_rq s Hok). }
      destruct (HK p z Hz) as (z2 & Hz2 & E1 & E2). exists z2. by rewrite E1, E2.
    + intros (z & Hz & H1 & H2). destruct (HL p z Hz) as (z' & Hz' & E1 & E2 & _). rewrite E1, E2 in *.
      destruct (updated_lookup p z' Hz') as [[-> ->]|[Hne Hz2]]; [by rewrite decide_True|].
      rewrite decide_False by done. apply (so_rq s Hok). by exists z'.
  - intros d Hdc. unfold upd. destruct (Z.eqb_spec d c) as [->|Hne]; [rewrite lookup_insert_eq; by eexists|].
    destruct (Hd d Hdc Hne) as [H1 H2]. rewrite !lookup_insert_ne by done. by apply (so_this s Hok).
  - intros p z Hz Hr. destruct (HL p z Hz) as (z' & _ & _ & _ & [->|[Hne Hz']]%(fun H => H Hr)).
    + exists c. by rewrite upd_eq.
    + destruct (so_running s Hok p z Hz' Hr) as (d & Hdc & <-). exists d. split; [done|]. rewrite upd_ne; [done|]. by intros ->.
  - intros d e Hdc Hec. unfold upd. destruct (Z.eqb_spec d c) as [->|Hne], (Z.eqb_spec e c) as [->|Hne']; [done| | |by apply (so_inj s Hok)].
    + intros E. by destruct (Hd e Hec Hne') as [_ []].
    + intros E. by destruct (Hd d Hdc Hne) as [_ []].
  - intros d Hdc. destruct (so_idle s Hok d Hdc) as (z & Hz & H1 & H2).
    assert (exists z', k_procs s1 !! k_idle s d = Some z' /\ p_idle z' = true /\ on_rq (p_state z') = true) as (z' & Hz' & E1 & E2).
    { cbn. destruct (decide (k_this s c = k_idle s d)) as [E|E].
      - rewrite <-E, lookup_insert_eq. eexists. split; [done|]. rewrite <-E in Hz. simplify_eq. cbn. split; [done|].
        rewrite Hidle; [done|]. by apply (so_own s Hok c x).
      - rewrite lookup_insert_ne by done. by exists z. }
    destruct (HK _ _ Hz') as (z2 & Hz2 & E3 & E4). exists z2. by rewrite E3, E4.
  - intros d z Hdc. unfold upd. destruct (Z.eqb_spec d c) as [->|Hne].
    + rewrite lookup_insert_eq. intros [= <-] Hi. cbn in Hi. destruct Hn as [->|[_ Hn]]; [done|congruence].
    + destruct (Hd d Hdc Hne) as [H1 H2]. rewrite !lookup_insert_ne by done. by apply (so_own s Hok).
  - apply (so_idle_inj s Hok).
Qed.
End switch.

(** ** [sched] *)

Lemma sched_timer_inj c d : d <> c -> sched_timer d <> sched_timer c.
Proof. unfold Sched.sched_timer. lia. Qed.

Lemma update_this_proc_wp c n s (Q : unit -> kstate -> Prop) :
  cpu c -> (forall d, cpu d -> timer_ok d (sched_timer d) (k_timers s)) ->
  (forall t, (forall d, cpu d -> timer_ok d (sched_timer d) t) -> Q tt (k_set_timers t (k_set_this (upd c n (k_this s)) s))) ->
  wp (update_this_proc sched_timers c n) Q s.
Proof.
  intros Hc Ht HQ. pose proof (Ht c Hc) as Hok. destruct Hok as [_ (x & Hx & _)].
  unfold update_this_proc. wp_prims. set (s0 := k_set_this _ s). unfold timers at 1. apply wp_zoom. cbn [k_timers s0 k_set_this].
  eapply wp_load_timer; [done|]. change (k_set_timers (k_timers s) s0) with s0.
  pose proof (reset_timer_wp c (sched_timer c) x (k_timers s) (Ht c Hc) Hx) as Hr.
  assert (wp (if negb (t_triggered x) then cancel_cpu_timer c (sched_timer c);; set_cpu_timer c (sched_timer c)
              else set_cpu_timer c (sched_timer c)) (fun a t => Q a (k_set_timers t s0)) (k_timers s)) as Hr'.
  { eapply wp_mono; [exact Hr|]. intros [] t (S1 & T1 & I1). apply HQ. intros d Hd. destruct (decide (d = c)) as [->|Hne]; [done|].
    eapply timer_ok_other; try done; [by apply sched_timer_inj|by apply Ht]. }
  unfold timers. destruct (t_triggered x); cbn [negb] in *.
  - wp_prim. wp_prim. apply wp_zoom. exact Hr'.
  - wp_prim. apply wp_zoom. apply wp_bind in Hr'. eapply wp_mono; [exact Hr'|]. intros [] t H2. apply wp_zoom. exact H2.
Qed.

(** What [sched] does when the process was not killed. *)
Definition dispatched (c : Z) (st : procstate) (x : Proc) (s s' : kstate) : Prop :=
  let n := next_proc (updated c st x s) c in
  exists y, k_procs (updated c st x s) !! n = Some y /\ p_state y = RUNNABLE /\
    k_procs s' = <[n := p_set_state RUNNING y]> (<[k_this s c := p_set_state st x]> (k_procs s)) /\
    k_this s' = upd c n (k_this s) /\ k_rq s' = requeue c st s.

Lemma sched_wp c st x s :
  sched_ok s -> cpu c -> k_procs s !! k_this s c = Some x -> st <> RUNNING -> (k_this s c = k_idle s c -> st = RUNNABLE) ->
  wp (sched invalid_pt sched_timers c st) (fun _ s' => sched_ok s' /\ k_sched_lock s' = false /\ same_kernel s s' /\
    if p_killed x && negb (bool_decide (st = ZOMBIE)) then k_procs s' = k_procs s /\ k_this s' = k_this s /\ k_rq s' = k_rq s
    else dispatched c st x s s') s.
Proof.
  intros Hok Hc Hx Hst Hidle. pose proof (this_running c x s Hok Hc Hx) as Hrun.
  unfold sched, thisproc. wp_prims. eapply wp_load_proc; [done|]. wp_prim. wp_prim. rewrite bool_decide_true by done. split; [done|].
  destruct (p_killed x && negb (bool_decide (st = ZOMBIE))).
  { unfold release_sched_lock. wp_prims. split; [by eapply sched_ok_ext|]. split; [done|]. split; [done|done]. }
  wp_prim. apply (update_this_state_wp c st x s); [done|done|].
  destruct (next_runnable c st x s Hok Hc Hx Hst Hidle) as (y & Hy & Hys & Hn). set (n := next_proc (updated c st x s) c) in *.
  wp_prim. eapply wp_intro; [apply pick_next_run|].
  { intros p Hp. cbn in Hp. apply (requeue_elem c st x s Hok Hc Hx Hst Hidle) in Hp. cbn. case_decide as D; [subst p; rewrite lookup_insert_eq; by eexists|].
    rewrite lookup_insert_ne by done. apply (so_rq s Hok) in Hp as (z & Hz & _). by exists z. }
  wp_prim. apply update_this_proc_wp; [done|apply (so_timer s Hok)|]. intros t Ht. fold n.
  wp_prim. eapply wp_load_proc; [exact Hy|]. wp_prim. wp_prim. rewrite Hys. split; [done|].
  wp_prim. eapply wp_upd_proc; [exact Hy|]. set (s2 := k_set_procs _ _).
  assert (forall f, sched_ok (k_set_sched_lock false (k_set_ttbr0 f s2))) as Hfin.
  { intros f. exact (switched_ok c st x s Hok Hc Hx Hst Hidle n y t f Hy Hys Hn Ht). }
  assert (forall f, same_kernel s (k_set_sched_lock false (k_set_ttbr0 f s2)) /\ dispatched c st x s (k_set_sched_lock false (k_set_ttbr0 f s2))) as Hd.
  { intros f. split; [done|]. exists y. done. }
  destruct (n =? k_this s c); cbn [negb].
  - unfold release_sched_lock. wp_prims. specialize (Hfin (k_ttbr0 s2)). specialize (Hd (k_ttbr0 s2)). split; [exact Hfin|]. split; [done|]. exact Hd.
  - unfold attach, release_sched_lock. wp_prim. wp_prim. eapply wp_load_proc; [cbn; by rewrite lookup_insert_eq|]. wp_prims. split; [apply Hfin|]. split; [done|]. apply Hd.
Qed.

Lemma obs_dispatched c st x s s' : k_procs s !! k_this s c = Some x -> dispatched c st x s s' ->
  obs s' = <[k_this s c := v_set_kind (kind_of st) (view_proc x)]> (obs s).
Proof.
  intros Hx (y & Hy & Hr & E & _). unfold obs. rewrite E, !fmap_insert.
  rewrite insert_id; [done|]. cbn in Hy. destruct (decide (next_proc (updated c st x s) c = k_this s c)) as [En|En].
  - rewrite En in *. rewrite lookup_insert_eq in Hy. injection Hy as <-. rewrite lookup_insert_eq. cbn in Hr. subst st. done.
  - rewrite lookup_insert_ne in Hy by done. rewrite lookup_insert_ne, lookup_fmap, Hy by done. cbn. f_equal. unfold view_proc. cbn. by rewrite Hr.
Qed.
End sched.
