(* ===== verification/SemProofs.v ===== *)
(** * Semaphores: no lost wake-up, and what waiting and posting do

    [sem_ok] relates the value of a semaphore, its list of sleepers, their wait
    records and the processes: a process sleeps only while its record is on the
    list of the semaphore, and a process that was posted is ready to run. *)

From Stdlib Require Import ZArith Lia.
From stdpp Require Import base tactics numbers gmap list.
From S2P Require Import Prelude BlockCache Timer Sched SchedProofs.

Local Open Scope Z_scope.

Abbreviation omap := (gmap Z pview).
Abbreviation smap := (gmap semid Semaphore).
Abbreviation wmap := (gmap Z WaitData).

(** ** The invariant *)

Record sem_ok (O : omap) (S : smap) (W : wmap) : Prop := {
  sm_nodup : forall i x, S !! i = Some x -> NoDup (s_sleep x);
  sm_val : forall i x, S !! i = Some x -> s_sleep x = [] /\ 0 <= s_val x \/ s_val x = - Z.of_nat (length (s_sleep x));
  sm_sleep : forall i x w, S !! i = Some x -> w ∈ s_sleep x ->
    exists p v k, W !! w = Some (mkWait false p) /\ O !! p = Some v /\ v_kcontext v = KSem i w k;
  sm_ctx : forall p v i w k, O !! p = Some v -> v_kcontext v = KSem i w k ->
    v_idle v = false /\ exists x y, S !! i = Some x /\ W !! w = Some y /\ w_proc y = p /\ (w_up y = false -> w ∈ s_sleep x) /\
      (v_kind v = Ready \/ v_kind v = Asleep /\ w_up y = false);
  sm_asleep : forall p v, O !! p = Some v -> v_kind v = Asleep -> exists i w k, v_kcontext v = KSem i w k }.

(** The lock of a semaphore does not matter. *)
Definition sem_locked (b : bool) (x : Semaphore) : Semaphore := mkSem b (s_val x) (s_sleep x).

(** ** A semaphore without sleepers *)

Lemma sem_ok_val O S W i x x' :
  sem_ok O S W -> S !! i = Some x -> s_sleep x' = s_sleep x -> s_val x' = s_val x \/ s_sleep x = [] /\ 0 <= s_val x' ->
  sem_ok O (<[i := x']> S) W.
Proof.
  intros [] Hx Es Hv. split; try done.
  - intros j y. destruct (decide (j = i)) as [->|Hne]; [rewrite lookup_insert_eq; intros [= <-]; rewrite Es; eauto|].
    rewrite lookup_insert_ne by done. eauto.
  - intros j y. destruct (decide (j = i)) as [->|Hne]; [rewrite lookup_insert_eq; intros [= <-]|rewrite lookup_insert_ne by done; eauto].
    rewrite Es. destruct Hv as [->|[Hs Hv]]; [eauto|]. left. done.
  - intros j y w. destruct (decide (j = i)) as [->|Hne]; [rewrite lookup_insert_eq; intros [= <-]; rewrite Es; eauto|].
    rewrite lookup_insert_ne by done. eauto.
  - intros p v j w k Hp Hk. destruct (sm_ctx0 p v j w k Hp Hk) as (Hi & y & z & Hy & Hz & H1 & H2 & H3). split; [done|].
    destruct (decide (j = i)) as [->|Hne].
    + simplify_eq. exists x', z. rewrite lookup_insert_eq, Es. done.
    + exists y, z. by rewrite lookup_insert_ne.
Qed.

(** A change of a process that is not in [_wait_sem] before or after. *)
Lemma sem_ok_proc O S W p v v' :
  sem_ok O S W -> O !! p = Some v -> (forall i w k, v_kcontext v <> KSem i w k) -> (forall i w k, v_kcontext v' <> KSem i w k) ->
  v_kind v' <> Asleep -> sem_ok (<[p := v']> O) S W.
Proof.
  intros [] Hp Hk Hk' Hs. split; try done.
  - intros i x w Hx Hw. destruct (sm_sleep0 i x w Hx Hw) as (q & u & k & H1 & H2 & H3). exists q, u, k.
    rewrite lookup_insert_ne; [done|]. intros ->. simplify_eq. by apply Hk in H3.
  - intros q u i w k. destruct (decide (q = p)) as [->|Hne].
    + rewrite lookup_insert_eq. intros [= <-] H. by apply Hk' in H.
    + rewrite lookup_insert_ne by done. eauto.
  - intros q u. destruct (decide (q = p)) as [->|Hne]; [rewrite lookup_insert_eq; by intros [= <-]|].
    rewrite lookup_insert_ne by done. eauto.
Qed.

(** ** Posting *)

(** The last sleeper [w], of process [p], is woken. *)
Definition woken (i : semid) (x : Semaphore) (l : list Z) (w p : Z) (v : pview) (O : omap) (S : smap) (W : wmap) : Prop :=
  s_sleep x = l ++ [w] /\ W !! w = Some (mkWait false p) /\ O !! p = Some v.

Lemma sem_ok_woken O S W i x l w p v b :
  sem_ok O S W -> S !! i = Some x -> woken i x l w p v O S W ->
  sem_ok (<[p := v_set_kind Ready v]> O) (<[i := mkSem b (s_val x + 1) l]> S) (<[w := mkWait true p]> W).
Proof.
  intros H Hx (Es & Hw & Hp). pose proof (sm_nodup _ _ _ H i x Hx) as Hnd. rewrite Es in Hnd.
  apply NoDup_app in Hnd as (Hnd & Hl & _). assert (w ∉ l) as Hwl by (intros Hin; apply (Hl w Hin); left).
  destruct (sm_sleep _ _ _ H i x w Hx) as (p' & v' & k & Hw' & Hp' & Hk); [rewrite Es; set_solver|]. simplify_eq.
  destruct H. split.
  - intros j y. destruct (decide (j = i)) as [->|Hne]; [rewrite lookup_insert_eq; intros [= <-]; done|].
    rewrite lookup_insert_ne by done. eauto.
  - intros j y. destruct (decide (j = i)) as [->|Hne]; [rewrite lookup_insert_eq; intros [= <-]; cbn|rewrite lookup_insert_ne by done; eauto].
    destruct (sm_val0 i x Hx) as [[E _]|E]; rewrite Es in E; [by destruct l|]. right. rewrite E, length_app. cbn. lia.
  - intros j y u Hj Hu. assert (u <> w /\ exists y', S !! j = Some y' /\ u ∈ s_sleep y') as (Hne & y' & Hy' & Hu').
    { destruct (decide (j = i)) as [->|Hne].
      - rewrite lookup_insert_eq in Hj. simplify_eq. cbn in Hu. split; [congruence|]. exists x. rewrite Es. set_solver.
      - rewrite lookup_insert_ne in Hj by done. split; [|by exists y]. intros ->.
        destruct (sm_sleep0 j y w Hj Hu) as (q & z & k' & Hq & Hz & Ek). simplify_eq. congruence. }
    destruct (sm_sleep0 j y' u Hy' Hu') as (q & z & k' & Hq & Hz & Ek). exists q. rewrite lookup_insert_ne by done.
    destruct (decide (q = p)) as [->|Hqp].
    + exists (v_set_kind Ready v), k'. rewrite lookup_insert_eq. simplify_eq. done.
    + exists z, k'. by rewrite lookup_insert_ne.
  - intros q z j u k'. destruct (decide (q = p)) as [->|Hqp].
    + rewrite lookup_insert_eq. intros [= <-]. cbn. rewrite Hk. intros [= <- <- <-].
      destruct (sm_ctx0 p v i w k Hp Hk) as (Hi & _). split; [done|]. exists (mkSem b (s_val x + 1) l), (mkWait true p).
      rewrite !lookup_insert_eq. split_and!; try done. by left.
    + rewrite lookup_insert_ne by done. intros Hq Hk'. destruct (sm_ctx0 q z j u k' Hq Hk') as (Hi & y & t & Hy & Ht & Et & Hup & Hkd).
      assert (u <> w) as Huw by (intros ->; simplify_eq; done). split; [done|]. destruct (decide (j = i)) as [->|Hne].
      * simplify_eq. exists (mkSem b (s_val x + 1) l), t. rewrite lookup_insert_eq, lookup_insert_ne by done. split_and!; try done. cbn.
        intros Hu%Hup. rewrite Es in Hu. set_solver.
      * exists y, t. by rewrite !lookup_insert_ne by done.
  - intros q z. destruct (decide (q = p)) as [->|Hqp]; [rewrite lookup_insert_eq; by intros [= <-]|].
    rewrite lookup_insert_ne by done. eauto.
Qed.

(** What [post_sem] does. *)
Definition posted (i : semid) (x : Semaphore) (s s' : kstate) : Prop :=
  if s_val x + 1 <=? 0 then exists l w p v, woken i x l w p v (obs s) (k_sems s) (k_waits s) /\
    obs s' = <[p := v_set_kind Ready v]> (obs s) /\ k_sems s' = <[i := mkSem false (s_val x + 1) l]> (k_sems s) /\
    k_waits s' = <[w := mkWait true p]> (k_waits s)
  else obs s' = obs s /\ k_sems s' = <[i := mkSem false (s_val x + 1) (s_sleep x)]> (k_sems s) /\ k_waits s' = k_waits s.

(** Everything else is as before. *)
Definition same_procs (s s' : kstate) : Prop :=
  k_root s' = k_root s /\ k_plock s' = k_plock s /\ k_idle s' = k_idle s /\ k_panic s' = k_panic s /\
  k_max_pid s' = k_max_pid s /\ k_freepid s' = k_freepid s.

Lemma same_procs_kernel s s' : same_kernel s s' -> same_procs s s'.
Proof. unfold same_kernel, same_procs. tauto. Qed.
Lemma same_procs_trans s1 s2 s3 : same_procs s1 s2 -> same_procs s2 s3 -> same_procs s1 s3.
Proof. unfold same_procs. intuition congruence. Qed.

Lemma filter_last (l : list Z) w : NoDup (l ++ [w]) -> filter (fun v => v <> w) (l ++ [w]) = l.
Proof.
  intros (_ & H & _)%NoDup_app. rewrite filter_app. cbn. rewrite decide_False by congruence. rewrite app_nil_r.
  induction l as [|v l IH]; [done|]. cbn. rewrite decide_True.
  - f_equal. apply IH. intros x Hx. apply H. by right.
  - intros ->. by apply (H w); left.
Qed.

Section sem.
Context (invalid_pt sched_timers : Z).
Abbreviation sched_ok := (sched_ok sched_timers).

(** ** Primitives *)

Lemma wp_load_sem i x s (Q : Semaphore -> kstate -> Prop) : k_sems s !! i = Some x -> Q x s -> wp (load_sem i) Q s.
Proof. intros H HQ. unfold wp, load_sem. by rewrite H. Qed.
Lemma wp_load_wait w y s (Q : WaitData -> kstate -> Prop) : k_waits s !! w = Some y -> Q y s -> wp (load_wait w) Q s.
Proof. intros H HQ. unfold wp, load_wait. by rewrite H. Qed.
Lemma wp_lock_sem i x s (Q : unit -> kstate -> Prop) :
  k_sems s !! i = Some x -> s_lock x = false -> Q tt (k_set_sems (<[i := sem_locked true x]> (k_sems s)) s) -> wp (_lock_sem i) Q s.
Proof. intros H Hl HQ. unfold _lock_sem, store_sem. wp_prim. eapply wp_load_sem; [done|]. rewrite Hl. by wp_prims. Qed.
Lemma wp_unlock_sem i x s (Q : unit -> kstate -> Prop) :
  k_sems s !! i = Some x -> Q tt (k_set_sems (<[i := sem_locked false x]> (k_sems s)) s) -> wp (_unlock_sem i) Q s.
Proof. intros H HQ. unfold _unlock_sem, store_sem. wp_prim. eapply wp_load_sem; [done|]. by wp_prims. Qed.

Lemma sched_ok_sems m s : sched_ok s -> sched_ok (k_set_sems m s).
Proof. intros H. by eapply sched_ok_ext. Qed.
Lemma sched_ok_waits m s : sched_ok s -> sched_ok (k_set_waits m s).
Proof. intros H. by eapply sched_ok_ext. Qed.

Lemma post_sem_wp i x s :
  sched_ok s -> sem_ok (obs s) (k_sems s) (k_waits s) -> k_sched_lock s = false -> k_sems s !! i = Some x -> s_lock x = false ->
  wp (post_sem i) (fun _ s' => sched_ok s' /\ k_sched_lock s' = false /\ same_procs s s' /\ k_this s' = k_this s /\ posted i x s s') s.
Proof.
  intros Hok Hsem Hl Hx Hlk. unfold post_sem, _post_sem, store_sem, store_wait. wp_prim. eapply wp_lock_sem; [done|done|].
  wp_prim. wp_prim. eapply wp_load_sem; [apply lookup_insert_eq|]. wp_prims. cbn [sem_locked s_lock s_val s_sleep]. unfold posted.
  destruct (Z.leb_spec (s_val x + 1) 0) as [Hle|Hgt].
  - destruct (sm_val _ _ _ Hsem i x Hx) as [[_ Hv]|Hv]; [lia|].
    destruct (s_sleep x) as [|u l0] eqn:Es; [cbn in Hv; lia|].
    destruct (exists_last (l := u :: l0)) as (l & w & El); [done|]. rewrite El in Es |- *. rewrite last_snoc.
    destruct (sm_sleep _ _ _ Hsem i x w Hx) as (p & v & k & Hw & Hp & Hk); [rewrite Es; set_solver|].
    pose proof Hp as Hp'. apply obs_lookup in Hp' as (P & HP & Ev).
    destruct (sm_ctx _ _ _ Hsem p v i w k Hp Hk) as (Hi & _).
    wp_prim. eapply wp_load_wait; [exact Hw|]. wp_prims. cbn [w_proc].
    rewrite filter_last by (pose proof (sm_nodup _ _ _ Hsem i x Hx) as Hn; by rewrite Es in Hn).
    eapply wp_mono; [apply (activate_wp sched_timers p false P)|].
    + by eapply (sched_ok_ext _ s).
    + done.
    + exact HP.
    + rewrite <-Ev in Hi. done.
    + intros r s1 (_ & Hok1 & Hl1 & (E1 & E2 & E3 & E4 & E5 & E6 & E7 & E8 & E9) & Et & Epr). wp_prims. cbn in E5, E6, Epr.
      eapply wp_unlock_sem; [rewrite E5; apply lookup_insert_eq|]. rewrite E5. cbn [sem_locked s_lock s_val s_sleep].
      split; [by apply sched_ok_sems|]. split; [done|]. split; [done|]. split; [done|].
      exists l, w, p, v. split; [done|]. split_and!.
      * unfold obs. cbn. rewrite Epr. fold (obs s). destruct (wakes (p_state P) false) eqn:Hwk; [by rewrite fmap_insert, <-Ev|].
        symmetry. apply insert_id. rewrite lookup_fmap, HP. cbn [fmap option_fmap option_map]. f_equal. rewrite <-Ev.
        destruct (sm_ctx _ _ _ Hsem p v i w k Hp Hk) as (_ & xx & yy & _ & _ & _ & _ & Hkd). rewrite <-Ev in Hkd. cbn in Hkd.
        unfold view_proc, v_set_kind. cbn. destruct (p_state P); cbn in *; try done; destruct Hkd as [?|[? _]]; done.
      * cbn. by rewrite !insert_insert_eq.
      * cbn. by rewrite E6.
  - wp_prims. eapply wp_unlock_sem; [apply lookup_insert_eq|]. split; [by repeat apply sched_ok_sems|]. split; [done|]. split; [done|].
    split; [done|]. split; [done|]. cbn. split; [|done]. by rewrite !insert_insert_eq.
Qed.

Lemma sem_ok_posted i x s s' : sem_ok (obs s) (k_sems s) (k_waits s) -> k_sems s !! i = Some x -> posted i x s s' ->
  sem_ok (obs s') (k_sems s') (k_waits s').
Proof.
  unfold posted. intros H Hx. destruct (Z.leb_spec (s_val x + 1) 0).
  - intros (l & w & p & v & Hw & -> & -> & ->). by eapply sem_ok_woken.
  - intros (-> & -> & ->). eapply sem_ok_val; [done|done|done|]. right. cbn.
    destruct (sm_val _ _ _ H i x Hx) as [[? ?]|E]; [split; [done|lia]|]. destruct (s_sleep x); [split; [done|lia]|cbn in E; lia].
Qed.

(** ** Waiting *)

(** The context of a process after [_wait_sem] has returned. *)
Definition after_cont (k : after_wait) (ret : bool) : kcont :=
  match k with ACollect => if ret then KCollect else KRun | _ => KRun end.

(** What [wait_sem] does: it takes a unit, or it sleeps (a killed process does
    not leave the CPU). *)
Definition waited (i : semid) (k : after_wait) (x : Semaphore) (this : Z) (P : Proc) (s s' : kstate) : Prop :=
  if 0 <=? s_val x - 1 then
    obs s' = <[this := v_set_kcontext (after_cont k true) (view_proc P)]> (obs s) /\
    k_sems s' = <[i := mkSem false (s_val x - 1) (s_sleep x)]> (k_sems s) /\ k_waits s' = k_waits s
  else exists w, k_waits s !! w = None /\
    obs s' = <[this := v_set_kind (if p_killed P then Ready else Asleep) (v_set_kcontext (KSem i w k) (view_proc P))]> (obs s) /\
    k_sems s' = <[i := mkSem false (s_val x - 1) (w :: s_sleep x)]> (k_sems s) /\
    k_waits s' = <[w := mkWait false this]> (k_waits s).

Lemma wait_return_wp c k ret P s (Q : unit -> kstate -> Prop) :
  k_procs s !! k_this s c = Some P -> (k = AAssert -> ret = true) ->
  Q tt (k_set_procs (<[k_this s c := p_set_kcontext (after_cont k ret) P]> (k_procs s)) s) -> wp (wait_return c k ret) Q s.
Proof.
  intros HP Hk HQ. unfold wait_return, thisproc. wp_prims. destruct k; cbn in HQ.
  - by eapply wp_upd_proc.
  - wp_prims. split; [auto|]. by eapply wp_upd_proc.
  - by eapply wp_upd_proc.
Qed.

Lemma wait_sem_wp c i (al : bool) k x P s :
  sched_ok s -> sem_ok (obs s) (k_sems s) (k_waits s) -> k_sched_lock s = false -> cpu c -> k_procs s !! k_this s c = Some P ->
  p_idle P = false -> k_sems s !! i = Some x -> s_lock x = false ->
  wp (_lock_sem i;; _wait_sem invalid_pt sched_timers c i al k) (fun _ s' => sched_ok s' /\ k_sched_lock s' = false /\ same_procs s s' /\
    waited i k x (k_this s c) P s s') s.
Proof.
  intros Hok Hsem Hl Hc HP Hi Hx Hlk. unfold _wait_sem, store_sem, store_wait. wp_prim. eapply wp_lock_sem; [done|done|].
  wp_prim. eapply wp_load_sem; [apply lookup_insert_eq|]. wp_prims. cbn [sem_locked s_lock s_val s_sleep]. unfold waited.
  destruct (Z.leb_spec 0 (s_val x - 1)) as [Hv|Hv].
  - wp_prim. eapply wp_unlock_sem; [apply lookup_insert_eq|]. cbn [sem_locked s_lock s_val s_sleep].
    apply (wait_return_wp c k true P); [exact HP|done|].
    split; [|split; [done|split; [done|split; [|split; [cbn; by rewrite !insert_insert_eq|done]]]]].
    + apply (sched_ok_upd _ _ _ P); [by repeat apply sched_ok_sems|exact HP|done|done].
    + rewrite obs_insert. done.
  - unfold kalloc_wait, thisproc. wp_prims. set (w := fresh _).
    assert (k_waits s !! w = None) as Hw.
    { pose proof (is_fresh ({[0]} ∪ dom (k_waits s) : gset Z)) as Hf. fold w in Hf. apply not_elem_of_dom. set_solver. }
    apply wp_acquire_sched; [done|]. wp_prim. eapply wp_unlock_sem; [apply lookup_insert_eq|]. cbn [sem_locked s_lock s_val s_sleep].
    wp_prim. eapply wp_upd_proc; [exact HP|]. set (s1 := k_set_procs _ _).
    assert (sched_ok s1) as Hok1.
    { apply (sched_ok_upd _ _ _ P); [|exact HP|done|done]. by eapply (sched_ok_ext _ s). }
    pose proof (so_idle _ s Hok c Hc) as (I & HI & Hii & _).
    assert (k_this s c <> k_idle s c) as Hne by (intros E; rewrite <-E in HI; congruence).
    assert (k_procs s1 !! k_this s1 c = Some (p_set_kcontext (KSem i w k) P)) as HP1 by (cbn; apply lookup_insert_eq).
    eapply wp_mono; [apply (sched_wp invalid_pt sched_timers c _ _ s1 Hok1 Hc HP1)|].
    + by destruct al.
    + intros E. by destruct Hne.
    + intros [] s2 (Hok2 & Hl2 & Hk2 & Hd). split; [done|]. split; [done|]. split; [by apply (same_procs_kernel s1)|].
      exists w. split; [done|]. destruct Hk2 as (_ & _ & _ & _ & E5 & E6 & _). rewrite E5, E6. cbn [s1 k_set_procs k_sems k_waits k_set_sems k_set_waits k_set_sched_lock].
      rewrite !insert_insert_eq. split; [|done]. cbn [p_killed p_set_kcontext] in Hd. destruct (p_killed P); cbn [andb] in Hd.
      * rewrite (bool_decide_false (_ = ZOMBIE)) in Hd by (by destruct al). cbn [negb] in Hd. destruct Hd as (E & _ & _).
        unfold obs. rewrite E. cbn. rewrite fmap_insert. f_equal. unfold view_proc. cbn. f_equal.
        by rewrite (this_running _ c P s Hok Hc HP).
      * rewrite (obs_dispatched _ _ _ _ _ HP1 Hd). unfold s1. rewrite obs_insert. cbn [k_this k_set_procs k_set_sems k_set_waits k_set_sched_lock].
        rewrite insert_insert_eq. f_equal. by destruct al.
Qed.

(** Blocking keeps the invariant. *)
Lemma sem_ok_blocked O S W i x w k p v kd b :
  sem_ok O S W -> S !! i = Some x -> s_val x - 1 < 0 -> W !! w = None -> O !! p = Some v -> v_idle v = false ->
  (forall j u k', v_kcontext v <> KSem j u k') -> kd = Ready \/ kd = Asleep ->
  sem_ok (<[p := v_set_kind kd (v_set_kcontext (KSem i w k) v)]> O) (<[i := mkSem b (s_val x - 1) (w :: s_sleep x)]> S)
    (<[w := mkWait false p]> W).
Proof.
  intros H Hx Hv Hw Hp Hi Hk Hkd.
  assert (forall j y, S !! j = Some y -> w ∉ s_sleep y) as Hfresh.
  { intros j y Hy Hin. destruct (sm_sleep _ _ _ H j y w Hy Hin) as (q & z & k' & Hq & _). congruence. }
  destruct H. split.
  - intros j y. destruct (decide (j = i)) as [->|Hne]; [rewrite lookup_insert_eq; intros [= <-]; constructor; eauto|].
    rewrite lookup_insert_ne by done. eauto.
  - intros j y. destruct (decide (j = i)) as [->|Hne]; [rewrite lookup_insert_eq; intros [= <-]; cbn|rewrite lookup_insert_ne by done; eauto].
    right. destruct (sm_val0 i x Hx) as [[-> ?]|E]; cbn [length]; lia.
  - intros j y u Hj Hu. assert (j = i /\ u = w \/ u <> w /\ exists y', S !! j = Some y' /\ u ∈ s_sleep y') as [[-> ->]|(Hne & y' & Hy' & Hu')].
    { destruct (decide (j = i)) as [->|Hne].
      - rewrite lookup_insert_eq in Hj. simplify_eq. cbn in Hu. destruct (decide (u = w)) as [->|Hne]; [by left|right].
        split; [done|]. exists x. split; [done|]. set_solver.
      - rewrite lookup_insert_ne in Hj by done. right. split; [|by exists y]. intros ->. by apply (Hfresh j y). }
    + exists p. do 2 eexists. rewrite !lookup_insert_eq. done.
    + destruct (sm_sleep0 j y' u Hy' Hu') as (q & z & k' & Hq & Hz & Ek). exists q, z, k'. rewrite lookup_insert_ne by done.
      split; [done|]. rewrite lookup_insert_ne; [done|]. intros ->. simplify_eq. by apply Hk in Ek.
  - intros q z j u k'. destruct (decide (q = p)) as [->|Hqp].
    + rewrite lookup_insert_eq. intros [= <-]. cbn. intros [= <- <- <-]. split; [done|].
      exists (mkSem b (s_val x - 1) (w :: s_sleep x)), (mkWait false p). rewrite !lookup_insert_eq. split_and!; try done; [intros _; left|].
      destruct Hkd as [->| ->]; [by left|by right].
    + rewrite lookup_insert_ne by done. intros Hq Hk'. destruct (sm_ctx0 q z j u k' Hq Hk') as (Hiz & y & t & Hy & Ht & Et & Hup & Hkz).
      assert (u <> w) as Huw by (intros ->; congruence). split; [done|]. destruct (decide (j = i)) as [->|Hne].
      * simplify_eq. exists (mkSem b (s_val x - 1) (w :: s_sleep x)), t. rewrite lookup_insert_eq, lookup_insert_ne by done.
        split_and!; try done. cbn. intros Hu%Hup. by right.
      * exists y, t. by rewrite !lookup_insert_ne by done.
  - intros q z. destruct (decide (q = p)) as [->|Hqp]; [rewrite lookup_insert_eq; intros [= <-]; cbn; eauto|].
    rewrite lookup_insert_ne by done. eauto.
Qed.

Lemma sem_ok_waited i k x p P s s' :
  sem_ok (obs s) (k_sems s) (k_waits s) -> k_sems s !! i = Some x -> k_procs s !! p = Some P -> p_idle P = false ->
  (forall j u k', p_kcontext P <> KSem j u k') -> kind_of (p_state P) = Ready -> waited i k x p P s s' ->
  sem_ok (obs s') (k_sems s') (k_waits s').
Proof.
  unfold waited. intros H Hx HP Hi Hk Hr. assert (obs s !! p = Some (view_proc P)) as Hp by (apply obs_lookup; eauto).
  destruct (Z.leb_spec 0 (s_val x - 1)).
  - intros (-> & -> & ->). eapply sem_ok_proc; [|done|done| |].
    + eapply sem_ok_val; [done|done|done|]. right. cbn. split; [|done].
      destruct (sm_val _ _ _ H i x Hx) as [[? ?]|E]; [done|]. destruct (s_sleep x); [done|cbn in E; lia].
    + cbn. by destruct k.
    + cbn. by rewrite Hr.
  - intros (w & Hw & -> & -> & ->). eapply sem_ok_blocked; try done. destruct (p_killed P); auto.
Qed.

(** ** Returning from the wait *)

Definition resumed (i : semid) (w : Z) (k : after_wait) (x : Semaphore) (y : WaitData) (this : Z) (P : Proc) (s s' : kstate) : Prop :=
  obs s' = <[this := v_set_kcontext (after_cont k (w_up y)) (view_proc P)]> (obs s) /\
  k_sems s' = <[i := mkSem false (if w_up y then s_val x else s_val x + 1)
                       (if w_up y then s_sleep x else filter (fun v => v <> w) (s_sleep x))]> (k_sems s) /\
  k_waits s' = delete w (k_waits s).

Lemma sleeper_val O S W i x w : sem_ok O S W -> S !! i = Some x -> w ∈ s_sleep x ->
  s_val x + 1 <= 0 /\ s_val x + 1 = - Z.of_nat (length (filter (fun v => v <> w) (s_sleep x))).
Proof.
  intros H Hx Hw. pose proof (front_perm _ w (sm_nodup _ _ _ H i x Hx) Hw) as Hp. apply Permutation_length in Hp. cbn [length] in Hp.
  destruct (sm_val _ _ _ H i x Hx) as [[E _]|E]; [rewrite E in Hw; by apply elem_of_nil in Hw|]. lia.
Qed.

Lemma wait_resume_wp c i w k x y P s :
  sched_ok s -> sem_ok (obs s) (k_sems s) (k_waits s) -> k_procs s !! k_this s c = Some P -> p_kcontext P = KSem i w k ->
  k_sems s !! i = Some x -> s_lock x = false -> k_waits s !! w = Some y -> (k = AAssert -> w_up y = true) ->
  wp (wait_resume c i w k) (fun _ s' => sched_ok s' /\ k_sched_lock s' = k_sched_lock s /\ same_procs s s' /\ k_this s' = k_this s /\
    resumed i w k x y (k_this s c) P s s') s.
Proof.
  intros Hok Hsem HP Hk Hx Hlk Hy Hka. assert (obs s !! k_this s c = Some (view_proc P)) as Hp by (apply obs_lookup; eauto).
  destruct (sm_ctx _ _ _ Hsem _ _ i w k Hp Hk) as (_ & x' & y' & Hx' & Hy' & _ & Hup & _). simplify_eq.
  unfold wait_resume, store_sem, resumed. wp_prim. eapply wp_lock_sem; [done|done|]. wp_prim. eapply wp_load_wait; [exact Hy|].
  destruct (w_up y) eqn:Eu; cbn [negb].
  - wp_prim. wp_prim. wp_prim. eapply wp_unlock_sem; [apply lookup_insert_eq|]. wp_prims.
    apply (wait_return_wp c k true P); [exact HP|done|]. split; [|split; [done|split; [done|split; [done|split; [|split; [|done]]]]]].
    + apply (sched_ok_upd _ _ _ P); [|exact HP|done|done]. by eapply (sched_ok_ext _ s).
    + by rewrite obs_insert.
    + cbn. by rewrite insert_insert_eq.
  - wp_prim. wp_prim. eapply wp_load_sem; [apply lookup_insert_eq|]. wp_prims. cbn [sem_locked s_lock s_val s_sleep].
    destruct (sleeper_val _ _ _ i x w Hsem Hx (Hup eq_refl)) as [Hle _]. split; [by apply Z.leb_le|].
    wp_prim. eapply wp_unlock_sem; [apply lookup_insert_eq|]. wp_prims.
    apply (wait_return_wp c k false P); [exact HP|intros E; by apply Hka in E|]. split; [|split; [done|split; [done|split; [done|split; [|split; [|done]]]]]].
    + apply (sched_ok_upd _ _ _ P); [|exact HP|done|done]. by eapply (sched_ok_ext _ s).
    + by rewrite obs_insert.
    + cbn. by rewrite !insert_insert_eq.
Qed.

Lemma sem_ok_resumed i w k x y p P s s' :
  sem_ok (obs s) (k_sems s) (k_waits s) -> k_procs s !! p = Some P -> p_kcontext P = KSem i w k -> kind_of (p_state P) = Ready ->
  k_sems s !! i = Some x -> k_waits s !! w = Some y -> resumed i w k x y p P s s' -> sem_ok (obs s') (k_sems s') (k_waits s').
Proof.
  intros H HP Hk Hr Hx Hy (-> & -> & ->). assert (obs s !! p = Some (view_proc P)) as Hp by (apply obs_lookup; eauto).
  destruct (sm_ctx _ _ _ H _ _ i w k Hp Hk) as (_ & x' & y' & Hx' & Hy' & Ey & Hup & _). simplify_eq.
  set (x2 := mkSem _ _ _).
  assert (forall u, u ∈ s_sleep x2 <-> u <> w /\ u ∈ s_sleep x) as Hx2.
  { intros u. cbn. destruct (w_up y) eqn:Eu; [|by rewrite list_elem_of_filter]. split; [|by intros []]. intros Hu. split; [|done].
    intros ->. destruct (sm_sleep _ _ _ H i x w Hx Hu) as (q & z & k' & Hq & _). simplify_eq. }
  assert (forall q z j u k', obs s !! q = Some z -> v_kcontext z = KSem j u k' -> q <> w_proc y -> u <> w) as Hne.
  { intros q z j u k' Hq Ek Hqp ->. destruct (sm_ctx _ _ _ H q z j w k' Hq Ek) as (_ & x' & y' & _ & Hy' & E & _). congruence. }
  split.
  - intros j z. destruct (decide (j = i)) as [->|Hj]; [rewrite lookup_insert_eq; intros [= <-]|rewrite lookup_insert_ne by done; apply H].
    cbn. pose proof (sm_nodup _ _ _ H i x Hx). destruct (w_up y); [done|by apply NoDup_filter].
  - intros j z. destruct (decide (j = i)) as [->|Hj]; [rewrite lookup_insert_eq; intros [= <-]|rewrite lookup_insert_ne by done; apply H].
    cbn. destruct (w_up y); [by apply (sm_val _ _ _ H i)|]. right. by apply (sleeper_val _ _ _ i x w H Hx), Hup.
  - intros j z u Hz Hu. assert (u <> w /\ exists z', k_sems s !! j = Some z' /\ u ∈ s_sleep z') as (Huw & z' & Hz' & Hu').
    { destruct (decide (j = i)) as [->|Hj]; [rewrite lookup_insert_eq in Hz; injection Hz as <-; apply Hx2 in Hu as [? ?]; eauto|].
      rewrite lookup_insert_ne in Hz by done. split; [|eauto]. intros ->.
      destruct (sm_sleep _ _ _ H j z w Hz Hu) as (q & t & k' & Hq & Ht & Ek). simplify_eq. cbn in Hp, Ht, Ek. rewrite Hp in Ht. injection Ht as <-. cbn in Ek. congruence. }
    destruct (sm_sleep _ _ _ H j z' u Hz' Hu') as (q & t & k' & Hq & Ht & Ek). exists q, t, k'.
    rewrite lookup_delete_ne by done. split; [done|]. rewrite lookup_insert_ne; [done|]. intros <-. rewrite Hp in Ht. simplify_eq. cbn in Ek. congruence.
  - intros q z j u k'. destruct (decide (q = w_proc y)) as [->|Hq].
    + rewrite lookup_insert_eq. intros [= <-]. cbn. by destruct k, (w_up y).
    + rewrite lookup_insert_ne by done. intros Hq' Ek. pose proof (Hne q z j u k' Hq' Ek Hq) as Huw.
      destruct (sm_ctx _ _ _ H q z j u k' Hq' Ek) as (Hi & x' & y' & Hx' & Hy' & E & Hup' & Hkd). split; [done|].
      destruct (decide (j = i)) as [->|Hj].
      * simplify_eq. exists x2, y'. rewrite lookup_insert_eq, lookup_delete_ne by done. split_and!; try done. intros Hu. apply Hx2. auto.
      * exists x', y'. by rewrite lookup_insert_ne, lookup_delete_ne by done.
  - intros q z. destruct (decide (q = w_proc y)) as [->|Hq]; [rewrite lookup_insert_eq; intros [= <-]; cbn; by rewrite Hr|].
    rewrite lookup_insert_ne by done. apply H.
Qed.
End sem.
