(* ===== verification/ProcProofs.v ===== *)
(** * The process tree: parents, children, zombies and process identifiers

    [tree_ok] is the invariant of the tree and of the accounting that [wait] and
    [exit] rely on: the units of the semaphore [childexit] of a process, together
    with the unit it may have taken in [wait], are as many as its zombie
    children.  [debt] is the difference while [exit] is under way. *)

From Stdlib Require Import ZArith Lia.
From stdpp Require Import base tactics numbers gmap list.
From S2P Require Import Prelude BlockCache Timer Sched SchedProofs SemProofs.

Local Open Scope Z_scope.

(** ** Counting zombies *)

Definition is_zomb (O : omap) (q : Z) : bool :=
  match O !! q with Some v => bool_decide (v_kind v = Zombie) | None => false end.
Definition zombies (O : omap) (l : list Z) : Z := foldr (fun q n => (if is_zomb O q then 1 else 0) + n) 0 l.

Lemma zombies_app O l k : zombies O (l ++ k) = zombies O l + zombies O k.
Proof. induction l as [|q l IH]; [done|]. cbn [app zombies foldr] in *. fold (zombies O l). fold (zombies O (l ++ k)). lia. Qed.

Lemma zombies_ext O O' l : (forall q, q ∈ l -> is_zomb O' q = is_zomb O q) -> zombies O' l = zombies O l.
Proof.
  induction l as [|q l IH]; intros H; [done|]. cbn [zombies foldr]. fold (zombies O l). fold (zombies O' l).
  rewrite IH by (intros r Hr; apply H; by right). by rewrite (H q) by left.
Qed.

Lemma zombies_perm O l k : l ≡ₚ k -> zombies O l = zombies O k.
Proof. unfold zombies. induction 1; cbn in *; lia. Qed.

Lemma zombies_nonneg O l : 0 <= zombies O l.
Proof. induction l as [|q l IH]; cbn; [done|]. fold (zombies O l). destruct (is_zomb O q); lia. Qed.

Lemma zombies_pos O l : 0 < zombies O l -> exists q, q ∈ l /\ is_zomb O q = true.
Proof.
  induction l as [|q l IH]; [done|]. cbn [zombies foldr]. fold (zombies O l). destruct (is_zomb O q) eqn:E.
  - intros _. exists q. split; [left|done].
  - intros H. destruct IH as (r & Hr & Er); [lia|]. exists r. split; [by right|done].
Qed.

(** A unit that the process has taken from its semaphore but not used yet. *)
Definition pend (W : wmap) (p : Z) (v : pview) : Z :=
  match v_kcontext v with
  | KCollect => 1
  | KSem i w _ => if bool_decide (i = SChild p) then match W !! w with Some y => if w_up y then 1 else 0 | None => 0 end else 0
  | _ => 0
  end.

Definition tokens (x : Semaphore) (W : wmap) (p : Z) (v : pview) : Z := Z.max 0 (s_val x) + pend W p v.

(** ** The invariant *)

(** A process waits for its children only in [wait], and only there. *)
Definition own_ok (p : Z) (v : pview) : Prop :=
  forall i w k, v_kcontext v = KSem i w k -> (k = ACollect /\ i = SChild p) \/ (k <> ACollect /\ exists a, i = SAddr a).

Definition live (k : kind) : Prop := k = Ready \/ k = Asleep.

Record tree_ok (root : Z) (debt : Z -> Z) (O : omap) (S : smap) (W : wmap) : Prop := {
  to_root : exists v, O !! root = Some v /\ v_idle v = false /\ live (v_kind v);
  to_zero : O !! 0 = None;
  to_nodup : forall p v, O !! p = Some v -> NoDup (v_children v);
  to_child : forall p v q, O !! p = Some v -> q ∈ v_children v ->
    q <> root /\ q <> p /\ exists u, O !! q = Some u /\ v_parent u = p /\ v_idle u = false;
  to_parent : forall q u, O !! q = Some u -> v_idle u = false -> q <> root -> v_parent u <> 0 ->
    exists v, O !! v_parent u = Some v /\ q ∈ v_children v;
  to_started : forall q u, O !! q = Some u -> v_idle u = false -> q <> root -> v_kind u <> Unused -> v_parent u <> 0;
  to_leaf : forall p v, O !! p = Some v -> v_children v <> [] -> v_idle v = false /\ live (v_kind v);
  to_zombie : forall p v, O !! p = Some v -> v_kind v = Zombie -> v_idle v = false /\ p <> root /\ v_kcontext v = KDead;
  to_unused : forall p v, O !! p = Some v -> v_kind v = Unused -> v_kcontext v = KRun;
  to_idle : forall p v, O !! p = Some v -> v_idle v = true -> v_kcontext v = KRun;
  to_sem : forall p v, O !! p = Some v -> v_idle v = false -> is_Some (S !! SChild p);
  to_dom : forall p, is_Some (S !! SChild p) -> is_Some (O !! p);
  to_own : forall p v, O !! p = Some v -> own_ok p v;
  to_count : forall p v x, O !! p = Some v -> v_idle v = false -> v_kind v <> Zombie -> S !! SChild p = Some x ->
    zombies O (v_children v) = tokens x W p v + debt p }.

(** Changes that keep the shape of the tree. *)
Definition same_tree (v v' : pview) : Prop :=
  v_idle v' = v_idle v /\ v_children v' = v_children v /\ v_parent v' = v_parent v /\
  (v_kind v' = v_kind v \/ live (v_kind v) /\ live (v_kind v')).

Lemma live_iff v v' : same_tree v v' -> (v_kind v' = Zombie <-> v_kind v = Zombie) /\ (v_kind v' = Unused <-> v_kind v = Unused).
Proof.
  intros (_ & _ & _ & [->|[[H1|H1] [H2|H2]]]); [done| | | |]; rewrite H1, H2; done.
Qed.

Lemma tree_ok_change root debt debt' O O' S S' W W' :
  tree_ok root debt O S W ->
  (forall p, is_Some (O !! p) <-> is_Some (O' !! p)) -> (forall p, is_Some (S !! SChild p) <-> is_Some (S' !! SChild p)) ->
  (forall p v v', O !! p = Some v -> O' !! p = Some v' -> same_tree v v' /\ own_ok p v' /\
     (v_kind v = Zombie \/ v_kind v = Unused \/ v_idle v = true -> v_kcontext v' = v_kcontext v) /\
     forall x x', v_idle v = false -> v_kind v <> Zombie -> S !! SChild p = Some x -> S' !! SChild p = Some x' ->
       tokens x' W' p v' + debt' p = tokens x W p v + debt p) ->
  tree_ok root debt' O' S' W'.
Proof.
  intros H HO HS Hc.
  assert (forall p v', O' !! p = Some v' -> exists v, O !! p = Some v) as Hback.
  { intros p v' Hv'. destruct (proj2 (HO p)) as [v Hv]; [by exists v'|]. by exists v. }
  assert (forall q, is_zomb O' q = is_zomb O q) as Hz.
  { intros q. unfold is_zomb. destruct (O' !! q) as [v'|] eqn:E'.
    - destruct (Hback q v' E') as [v Hv]. rewrite Hv. destruct (Hc q v v' Hv E') as (T & _). destruct (live_iff v v' T) as [Hz _].
      by apply bool_decide_ext.
    - destruct (O !! q) as [v|] eqn:E; [|done]. destruct (proj1 (HO q)) as [v' Hv']; [by exists v|]. congruence. }
  assert (forall q u, O !! q = Some u -> exists u', O' !! q = Some u' /\ same_tree u u') as Hfw.
  { intros q u Hu. destruct (proj1 (HO q)) as [u' Hu']; [by exists u|]. exists u'. split; [done|]. by apply (Hc q). }
  split.
  - destruct (to_root _ _ _ _ _ H) as (v & Hv & Hi & Hk). destruct (Hfw _ _ Hv) as (v' & Hv' & E1 & E2 & E3 & Ek).
    exists v'. rewrite E1. split; [done|]. split; [done|]. destruct Ek as [->|[_ ?]]; done.
  - destruct (O' !! 0) as [v'|] eqn:E; [|done]. destruct (Hback 0 v' E) as [v Hv]. rewrite (to_zero _ _ _ _ _ H) in Hv. done.
  - intros p v' Hv'. destruct (Hback p v' Hv') as [v Hv]. destruct (Hc p v v' Hv Hv') as ((_ & -> & _) & _). by apply (to_nodup _ _ _ _ _ H p).
  - intros p v' q Hv' Hq. destruct (Hback p v' Hv') as [v Hv]. destruct (Hc p v v' Hv Hv') as ((_ & Ech & _) & _). rewrite Ech in Hq.
    destruct (to_child _ _ _ _ _ H p v q Hv Hq) as (H1 & H2 & u & Hu & Ep & Ei). split; [done|]. split; [done|].
    destruct (Hfw _ _ Hu) as (u' & Hu' & E1 & E2 & E3 & _). exists u'. by rewrite E1, E3.
  - intros q u' Hu' Hi Hr Hp. destruct (Hback q u' Hu') as [u Hu]. destruct (Hc q u u' Hu Hu') as ((E1 & _ & E3 & _) & _).
    rewrite E1 in Hi. rewrite E3 in Hp |- *. destruct (to_parent _ _ _ _ _ H q u Hu Hi Hr Hp) as (v & Hv & Hin).
    destruct (Hfw _ _ Hv) as (v' & Hv' & _ & E2 & _). exists v'. by rewrite E2.
  - intros q u' Hu' Hi Hr Hk. destruct (Hback q u' Hu') as [u Hu]. destruct (Hc q u u' Hu Hu') as (T & _).
    destruct (live_iff u u' T) as [_ Hun]. destruct T as (E1 & _ & E3 & _). rewrite E3. rewrite E1 in Hi.
    apply (to_started _ _ _ _ _ H q u); try done. by rewrite <-Hun.
  - intros p v' Hv' Hch. destruct (Hback p v' Hv') as [v Hv]. destruct (Hc p v v' Hv Hv') as ((E1 & E2 & _ & Ek) & _).
    rewrite E2 in Hch. rewrite E1. destruct (to_leaf _ _ _ _ _ H p v Hv Hch). split; [done|]. destruct Ek as [->|[_ ?]]; done.
  - intros p v' Hv' Hk. destruct (Hback p v' Hv') as [v Hv]. destruct (Hc p v v' Hv Hv') as (T & _ & Ex & _).
    destruct (live_iff v v' T) as [Hzz _]. apply Hzz in Hk. destruct T as (E1 & _). rewrite E1, Ex by auto. by apply (to_zombie _ _ _ _ _ H p v).
  - intros p v' Hv' Hk. destruct (Hback p v' Hv') as [v Hv]. destruct (Hc p v v' Hv Hv') as (T & _ & Ex & _).
    destruct (live_iff v v' T) as [_ Hun]. apply Hun in Hk. rewrite Ex by auto. by apply (to_unused _ _ _ _ _ H p v).
  - intros p v' Hv' Hk. destruct (Hback p v' Hv') as [v Hv]. destruct (Hc p v v' Hv Hv') as ((E1 & _) & _ & Ex & _).
    rewrite E1 in Hk. rewrite Ex by auto. by apply (to_idle _ _ _ _ _ H p v).
  - intros p v' Hv' Hi. destruct (Hback p v' Hv') as [v Hv]. destruct (Hc p v v' Hv Hv') as ((E1 & _) & _). rewrite E1 in Hi.
    apply HS. by apply (to_sem _ _ _ _ _ H p v).
  - intros p Hp. apply HO, (to_dom _ _ _ _ _ H), HS, Hp.
  - intros p v' Hv'. destruct (Hback p v' Hv') as [v Hv]. by apply (Hc p v v' Hv Hv').
  - intros p v' x' Hv' Hi Hk Hx'. destruct (Hback p v' Hv') as [v Hv]. destruct (Hc p v v' Hv Hv') as (T & _ & _ & Ht).
    destruct (live_iff v v' T) as [Hzz _]. destruct T as (E1 & E2 & _). destruct (proj2 (HS p)) as [x Hx]; [by exists x'|].
    rewrite E2, (zombies_ext O O') by auto. rewrite E1 in Hi. rewrite (Ht x x') by (try done; by rewrite <-Hzz).
    apply (to_count _ _ _ _ _ H); try done. by rewrite <-Hzz.
Qed.

(** ** Semaphore operations keep the tree *)

Lemma insert_dom {K A} `{Countable K} (m : gmap K A) i x j : is_Some (m !! i) -> is_Some (m !! j) <-> is_Some (<[i := x]> m !! j).
Proof. intros Hi. destruct (decide (j = i)) as [->|Hne]; [rewrite lookup_insert_eq; split; eauto|by rewrite lookup_insert_ne]. Qed.

Lemma same_tree_refl v : same_tree v v.
Proof. split_and!; try done. by left. Qed.

(** The wait record of another process. *)
Lemma pend_other O S W W' p v :
  sem_ok O S W -> O !! p = Some v -> (forall w y, W !! w = Some y -> w_proc y = p -> W' !! w = Some y) -> pend W' p v = pend W p v.
Proof.
  intros H Hp HW. unfold pend. destruct (v_kcontext v) as [| |i w k| |] eqn:E; try done. case_bool_decide; [|done].
  destruct (sm_ctx _ _ _ H p v i w k Hp E) as (_ & x & y & _ & Hy & Ey & _). by rewrite Hy, (HW w y Hy Ey).
Qed.

(** A step of process [p] on semaphore [i] and on its own wait record. *)
Lemma tree_ok_step root debt debt' O S W W' i x' p v v' :
  tree_ok root debt O S W -> sem_ok O S W -> O !! p = Some v -> is_Some (S !! i) ->
  same_tree v v' -> own_ok p v' -> (v_kind v = Zombie \/ v_kind v = Unused \/ v_idle v = true -> v_kcontext v' = v_kcontext v) ->
  (forall q, i = SChild q -> q = p) -> (forall w y, W !! w = Some y -> w_proc y <> p -> W' !! w = Some y) ->
  (forall q, q <> p -> debt' q = debt q) ->
  (forall x, v_idle v = false -> v_kind v <> Zombie -> S !! SChild p = Some x ->
     tokens (if decide (i = SChild p) then x' else x) W' p v' + debt' p = tokens x W p v + debt p) ->
  tree_ok root debt' (<[p := v']> O) (<[i := x']> S) W'.
Proof.
  intros H Hsem Hp Hi T Hown Hctx Hip HW Hd Ht. eapply tree_ok_change; [exact H| | |].
  - intros q. apply insert_dom. by exists v.
  - intros q. by apply insert_dom.
  - intros q u u' Hu Hu'. destruct (decide (q = p)) as [->|Hne].
    + rewrite lookup_insert_eq in Hu'. simplify_eq. split; [done|]. split; [done|]. split; [done|].
      intros x x2 Hi' Hk Hx Hx2. rewrite <-(Ht x) by done. f_equal. f_equal. case_decide as D.
      * subst i. rewrite lookup_insert_eq in Hx2. congruence.
      * rewrite lookup_insert_ne in Hx2 by done. congruence.
    + rewrite lookup_insert_ne in Hu' by done. simplify_eq. split; [apply same_tree_refl|]. split; [by apply (to_own _ _ _ _ _ H q)|].
      split; [done|]. intros x x2 Hi' Hk Hx Hx2. rewrite lookup_insert_ne in Hx2 by (intros E; by apply Hne, Hip). simplify_eq.
      unfold tokens. rewrite Hd by done. f_equal. f_equal. apply (pend_other O S W); [done|done|].
      intros w y Hy Ey. apply HW; congruence.
Qed.

Lemma tree_ok_posted root debt i x s s' :
  tree_ok root debt (obs s) (k_sems s) (k_waits s) -> sem_ok (obs s) (k_sems s) (k_waits s) -> k_sems s !! i = Some x ->
  posted i x s s' ->
  tree_ok root (fun q => debt q - (if decide (i = SChild q) then 1 else 0)) (obs s') (k_sems s') (k_waits s').
Proof.
  unfold posted. intros H Hsem Hx. destruct (Z.leb_spec (s_val x + 1) 0) as [Hle|Hgt].
  - intros (l & w & p & v & (Es & Hw & Hp) & -> & -> & ->).
    destruct (sm_sleep _ _ _ Hsem i x w Hx) as (p' & v2 & k & Hw' & Hp' & Hk); [rewrite Es; set_solver|]. simplify_eq.
    destruct (sm_ctx _ _ _ Hsem p v i w k Hp Hk) as (Hidle & x' & y & _ & _ & _ & _ & Hkd).
    pose proof (to_own _ _ _ _ _ H p v Hp) as Ho. assert (forall q, i = SChild q -> q = p) as Hip.
    { intros q ->. destruct (Ho _ _ _ Hk) as [[_ E]|[_ [a E]]]; congruence. }
    apply (tree_ok_step root debt _ _ _ (k_waits s) _ i _ p v); try done.
    + split_and!; try done. right. split; [|by left]. destruct Hkd as [?|[? _]]; [by left|by right].
    + intros u z Hu Hz. rewrite lookup_insert_ne; [done|]. intros ->. simplify_eq.
    + intros q Hq. case_decide as D; [|lia]. by apply Hip in D.
    + intros x0 _ _ Hx0. unfold tokens, pend. cbn [v_kcontext v_set_kind]. rewrite Hk. case_decide as D.
      * subst i. rewrite bool_decide_true by done. rewrite lookup_insert_eq, Hw. simplify_eq. cbn. lia.
      * rewrite bool_decide_false by done. lia.
  - intros (-> & -> & ->). eapply tree_ok_change; [exact H|done|intros q; apply insert_dom; by exists x|].
    intros p v v' Hv Hv'. simplify_eq. split; [apply same_tree_refl|]. split; [by apply (to_own _ _ _ _ _ H p)|]. split; [done|].
    intros y y' _ _ Hy Hy'. unfold tokens. case_decide as D.
    + subst i. rewrite lookup_insert_eq in Hy'. simplify_eq. cbn. lia.
    + rewrite lookup_insert_ne in Hy' by done. simplify_eq. lia.
Qed.

(** A running process outside [_wait_sem]. *)
Definition is_running (s : kstate) (c : Z) (P : Proc) : Prop :=
  cpu c /\ k_procs s !! k_this s c = Some P /\ p_state P = RUNNING /\ p_idle P = false.

Lemma tree_ok_waited root debt i k x p P s s' :
  tree_ok root debt (obs s) (k_sems s) (k_waits s) -> sem_ok (obs s) (k_sems s) (k_waits s) -> k_sems s !! i = Some x ->
  k_procs s !! p = Some P -> p_state P = RUNNING -> p_kcontext P = KRun -> p_idle P = false ->
  (k = ACollect /\ i = SChild p \/ k <> ACollect /\ exists a, i = SAddr a) -> waited i k x p P s s' ->
  tree_ok root debt (obs s') (k_sems s') (k_waits s').
Proof.
  unfold waited. intros H Hsem Hx HP Hs Hk Hi Hik. assert (obs s !! p = Some (view_proc P)) as Hp by (apply obs_lookup; eauto).
  assert (forall q, i = SChild q -> q = p) as Hip by (intros q ->; destruct Hik as [[_ ?]|[_ [? ?]]]; congruence).
  assert (v_kind (view_proc P) = Ready) as Hkd by (cbn; by rewrite Hs).
  destruct (Z.leb_spec 0 (s_val x - 1)).
  - intros (-> & -> & ->). apply (tree_ok_step root debt _ _ _ (k_waits s) _ i _ p (view_proc P)); try done.
    + split_and!; try done. by left.
    + intros j w k'. cbn. by destruct k.
    + rewrite Hkd. cbn. rewrite Hi. naive_solver.
    + intros x0 _ _ Hx0. unfold tokens, pend. cbn. rewrite Hk. case_decide as D.
      * subst i. simplify_eq. cbn. destruct Hik as [[-> _]|[_ [a ?]]]; [cbn; lia|done].
      * destruct k; [done|done|]. cbn. destruct Hik as [[_ ?]|[? _]]; [done|done].
  - intros (w & Hw & -> & -> & ->). apply (tree_ok_step root debt _ _ _ (k_waits s) _ i _ p (view_proc P)); try done.
    + split_and!; try done. right. split; [by left|]. cbn. destruct (p_killed P); [by left|by right].
    + intros j u k'. cbn. intros [= <- <- <-]. done.
    + rewrite Hkd. cbn. rewrite Hi. naive_solver.
    + intros u y Hy _. rewrite lookup_insert_ne; [done|]. congruence.
    + intros x0 _ _ Hx0. unfold tokens, pend. cbn. rewrite Hk. rewrite lookup_insert_eq. cbn. case_decide as D.
      * subst i. simplify_eq. rewrite bool_decide_true by done. cbn. lia.
      * by rewrite bool_decide_false by done.
Qed.

Lemma tree_ok_resumed root debt i w k x y p P s s' :
  tree_ok root debt (obs s) (k_sems s) (k_waits s) -> sem_ok (obs s) (k_sems s) (k_waits s) -> k_sems s !! i = Some x ->
  k_procs s !! p = Some P -> p_state P = RUNNING -> p_kcontext P = KSem i w k -> k_waits s !! w = Some y -> resumed i w k x y p P s s' ->
  tree_ok root debt (obs s') (k_sems s') (k_waits s').
Proof.
  intros H Hsem Hx HP Hs Hk Hy (-> & -> & ->). assert (obs s !! p = Some (view_proc P)) as Hp by (apply obs_lookup; eauto).
  assert (v_kind (view_proc P) = Ready) as Hkd by (cbn; by rewrite Hs).
  destruct (sm_ctx _ _ _ Hsem p _ i w k Hp Hk) as (Hidle & x' & y' & Hx' & Hy' & Ey & Hup & _). simplify_eq.
  pose proof (to_own _ _ _ _ _ H _ _ Hp _ _ _ Hk) as Hik.
  apply (tree_ok_step root debt _ _ _ (k_waits s) _ i _ (w_proc y) (view_proc P)); try done.
  - split_and!; try done. by left.
  - intros j u k'. cbn. by destruct k, (w_up y).
  - rewrite Hkd, Hidle. by intros [?|[?|?]].
  - intros q ->. destruct Hik as [[_ ?]|[_ [a ?]]]; congruence.
  - intros u z Hu Hz. rewrite lookup_delete_ne; [done|]. congruence.
  - intros x0 _ _ Hx0. unfold tokens, pend. cbn. rewrite Hk, Hy. destruct Hik as [[-> ->]|[Hka [a ->]]].
    + rewrite decide_True, bool_decide_true by done. simplify_eq. cbn. destruct (w_up y) eqn:E; cbn; [lia|].
      destruct (sleeper_val _ _ _ _ _ w Hsem Hx (Hup eq_refl)). lia.
    + rewrite decide_False, bool_decide_false by done. by destruct k, (w_up y).
Qed.

(** ** Process identifiers *)

Record pid_ok (O : omap) (max : Z) (free : list Z) : Prop := {
  pk_range : forall p v, O !! p = Some v -> v_idle v = false -> 1 <= v_pid v <= max /\ v_pid v ∉ free;
  pk_inj : forall p q v u, O !! p = Some v -> O !! q = Some u -> v_idle v = false -> v_idle u = false -> v_pid v = v_pid u -> p = q;
  pk_nodup : NoDup free;
  pk_free : forall n, n ∈ free -> 1 <= n <= max;
  pk_max : 0 <= max }.

Lemma pid_ok_change O O' max free :
  pid_ok O max free ->
  (forall p v', O' !! p = Some v' -> exists v, O !! p = Some v /\ v_idle v = v_idle v' /\ v_pid v = v_pid v') -> pid_ok O' max free.
Proof.
  intros [] H. split; try done.
  - intros p v' Hv Hi. destruct (H p v' Hv) as (v & Hp & E1 & <-). apply (pk_range0 p); congruence.
  - intros p q v' u' Hv Hu Hi Hj E. destruct (H p v' Hv) as (v & Hp & E1 & E2), (H q u' Hu) as (u & Hq & E3 & E4).
    apply (pk_inj0 p q v u); congruence.
Qed.

Lemma pid_ok_upd O max free p v v' :
  pid_ok O max free -> O !! p = Some v -> v_idle v' = v_idle v -> v_pid v' = v_pid v -> pid_ok (<[p := v']> O) max free.
Proof.
  intros H Hp E1 E2. apply (pid_ok_change O); [done|]. intros q u. destruct (decide (q = p)) as [->|Hne].
  - rewrite lookup_insert_eq. intros [= <-]. by exists v.
  - rewrite lookup_insert_ne by done. by exists u.
Qed.

(** ** The invariant of the kernel *)

Definition unlocked (S : smap) : Prop := forall i x, S !! i = Some x -> s_lock x = false.

Lemma unlocked_insert S i x : unlocked S -> s_lock x = false -> unlocked (<[i := x]> S).
Proof.
  intros H Hx j y. destruct (decide (j = i)) as [->|Hne]; [rewrite lookup_insert_eq; congruence|]. rewrite lookup_insert_ne by done. apply H.
Qed.

Section kernel_inv.
Context (invalid_pt sched_timers : Z).
Abbreviation sched_ok := (sched_ok sched_timers).

Record kinv (s : kstate) : Prop := {
  ki_sched : sched_ok s;
  ki_sem : sem_ok (obs s) (k_sems s) (k_waits s);
  ki_tree : tree_ok (k_root s) (fun _ => 0) (obs s) (k_sems s) (k_waits s);
  ki_pid : pid_ok (obs s) (k_max_pid s) (k_freepid s);
  ki_lock : k_sched_lock s = false;
  ki_plock : k_plock s = false;
  ki_unlocked : unlocked (k_sems s) }.

Lemma obs_proc s p P : k_procs s !! p = Some P -> obs s !! p = Some (view_proc P).
Proof. intros H. apply obs_lookup. eauto. Qed.

(** Nothing that the invariant depends on has changed. *)
Lemma kinv_ext s s' : kinv s -> sched_ok s' -> k_sched_lock s' = false -> same_kernel s s' -> obs s' = obs s -> kinv s'.
Proof.
  intros [] Hok Hl (E1 & E2 & E3 & E4 & E5 & E6 & E7 & E8 & _) Eo.
  split; rewrite ?Eo, ?E1, ?E2, ?E5, ?E6, ?E7, ?E8; done.
Qed.

(** [yield]. *)
Lemma yield_kinv c P s : kinv s -> cpu c -> k_procs s !! k_this s c = Some P ->
  wp (yield invalid_pt sched_timers c) (fun _ s' => kinv s') s.
Proof.
  intros H Hc HP. pose proof (ki_sched s H) as Hok. pose proof (this_running _ c P s Hok Hc HP) as Hr.
  unfold yield. wp_prim. apply wp_acquire_sched; [apply H|]. set (s0 := k_set_sched_lock true s).
  assert (sched_ok s0) as Hok0 by (by eapply sched_ok_ext).
  eapply wp_mono; [apply (sched_wp invalid_pt sched_timers c RUNNABLE P s0 Hok0 Hc HP); done|].
  intros [] s' (Hok' & Hl & Hk & Hd). apply (kinv_ext s); [done|done|done|done|].
  destruct (p_killed P && _).
  - destruct Hd as (E & _). unfold obs. by rewrite E.
  - rewrite (obs_dispatched c RUNNABLE P s0 s' HP Hd). apply insert_id. change (obs s0) with (obs s). rewrite (obs_proc s _ P) by done.
    f_equal. unfold view_proc, v_set_kind. cbn. by rewrite Hr.
Qed.

(** [post_sem] on a semaphore of the system. *)
Lemma post_kinv a x s : kinv s -> k_sems s !! SAddr a = Some x -> wp (post_sem (SAddr a)) (fun _ s' => kinv s') s.
Proof.
  intros H Hx. eapply wp_mono; [apply (post_sem_wp sched_timers (SAddr a) x); [apply H|apply H|apply H|done|by apply (ki_unlocked s H (SAddr a))]|].
  intros [] s' (Hok & Hl & (E1 & E2 & E3 & E4 & E5 & E6) & Et & Hp). split.
  - done.
  - by eapply sem_ok_posted; [apply H| |].
  - rewrite E1. eapply tree_ok_change; [eapply (tree_ok_posted _ _ _ x s s'); [apply H|apply H|done|done]|done|done|].
    intros p v v' Hv Hv'. simplify_eq. split; [apply same_tree_refl|]. split; [by eapply to_own, Hv; eapply (tree_ok_posted _ _ _ x s s'); [apply H|apply H|done|done]|].
    split; [done|]. intros y y' _ _ Hy Hy'. simplify_eq. rewrite decide_False by done. lia.
  - rewrite E5, E6. unfold posted in Hp. pose proof (ki_pid s H) as Hpid. case_match.
    + destruct Hp as (l & w & p & v & (_ & _ & Hv) & -> & _). by eapply pid_ok_upd.
    + destruct Hp as (-> & _). done.
  - done.
  - rewrite E2. apply H.
  - pose proof (ki_unlocked s H) as Hu. unfold posted in Hp. case_match.
    + destruct Hp as (l & w & p & v & _ & _ & -> & _). by apply unlocked_insert.
    + destruct Hp as (_ & -> & _). by apply unlocked_insert.
Qed.

(** [wait_sem], [unalertable_wait_sem], and [wait()] when there are children. *)
Lemma wait_kinv c i al k x P s :
  kinv s -> is_running s c P -> p_kcontext P = KRun -> k_sems s !! i = Some x ->
  (k = ACollect /\ i = SChild (k_this s c) \/ k <> ACollect /\ exists a, i = SAddr a) ->
  wp (_lock_sem i;; _wait_sem invalid_pt sched_timers c i al k) (fun _ s' => kinv s' /\ waited i k x (k_this s c) P s s') s.
Proof.
  intros H (Hc & HP & Hs & Hi) Hk Hx Hik.
  eapply wp_mono; [apply (wait_sem_wp invalid_pt sched_timers c i al k x P); try done; [apply H|apply H|apply H|by apply (ki_unlocked s H i)]|].
  intros [] s' (Hok & Hl & (E1 & E2 & E3 & E4 & E5 & E6) & Hw). split; [|done]. split.
  - done.
  - eapply (sem_ok_waited i k x); try done; [apply H|by rewrite Hk|by rewrite Hs].
  - rewrite E1. eapply (tree_ok_waited _ _ i k x); try done; [apply H|apply H].
  - rewrite E5, E6. pose proof (ki_pid s H) as Hpid. unfold waited in Hw. pose proof (obs_proc s _ P HP) as Ho. case_match.
    + destruct Hw as (-> & _). by eapply pid_ok_upd.
    + destruct Hw as (w & _ & -> & _). by eapply pid_ok_upd.
  - done.
  - rewrite E2. apply H.
  - pose proof (ki_unlocked s H) as Hu. unfold waited in Hw. case_match.
    + destruct Hw as (_ & -> & _). by apply unlocked_insert.
    + destruct Hw as (w & _ & _ & -> & _). by apply unlocked_insert.
Qed.

(** The end of a wait, when the process runs again. *)
Lemma resume_sem_kinv c i w k P s :
  kinv s -> cpu c -> k_procs s !! k_this s c = Some P -> p_kcontext P = KSem i w k ->
  (k = AAssert -> exists y, k_waits s !! w = Some y /\ w_up y = true) ->
  wp (wait_resume c i w k) (fun _ s' => kinv s') s.
Proof.
  intros H Hc HP Hk Hka. pose proof (this_running _ c P s (ki_sched s H) Hc HP) as Hs.
  destruct (sm_ctx _ _ _ (ki_sem s H) _ _ i w k (obs_proc s _ P HP) Hk) as (Hidle & x & y & Hx & Hy & Ey & Hup & _).
  eapply wp_mono; [apply (wait_resume_wp sched_timers c i w k x y P); try done; [apply H|apply H|by apply (ki_unlocked s H i)|]|].
  { intros E. destruct (Hka E) as (y' & Hy' & ?). congruence. }
  intros [] s' (Hok & Hl & (E1 & E2 & E3 & E4 & E5 & E6) & Et & Hr). split.
  - done.
  - eapply (sem_ok_resumed i w k x y); try done; [apply H|by rewrite Hs].
  - rewrite E1. eapply (tree_ok_resumed _ _ i w k x y); try done; [apply H|apply H].
  - rewrite E5, E6. destruct Hr as (-> & _). eapply pid_ok_upd; [apply H|by apply obs_proc|done|done].
  - rewrite Hl. apply H.
  - rewrite E2. apply H.
  - destruct Hr as (_ & -> & _). apply unlocked_insert; [apply H|done].
Qed.
End kernel_inv.
