(* ===== verification/ProcLife.v ===== *)
(** * The life of a process: creation, start, exit and collection *)

From Stdlib Require Import ZArith Lia.
From stdpp Require Import base tactics numbers gmap list.
From S2P Require Import Prelude BlockCache Timer Sched SchedProofs SemProofs ProcProofs.

Local Open Scope Z_scope.

(** ** Removing a zombie *)

(** The processes after [wait()] of [t] has taken the zombie [z]. *)
Definition taken (t z : Z) (v : pview) (O : omap) : omap :=
  delete z (<[t := v_set_children (filter (fun q => q <> z) (v_children v)) (v_set_kcontext KRun v)]> O).

Lemma taken_lookup t z v O p u : z <> t -> taken t z v O !! p = Some u <->
  p <> z /\ (p = t /\ u = v_set_children (filter (fun q => q <> z) (v_children v)) (v_set_kcontext KRun v) \/ p <> t /\ O !! p = Some u).
Proof.
  intros Hz. unfold taken. destruct (decide (p = z)) as [->|Hpz]; [rewrite lookup_delete_eq; naive_solver|].
  rewrite lookup_delete_ne by done. destruct (decide (p = t)) as [->|Hpt]; [rewrite lookup_insert_eq; naive_solver|].
  rewrite lookup_insert_ne by done. naive_solver.
Qed.

Section take.
Context (root : Z) (O : omap) (S : smap) (W : wmap).
Context (H : tree_ok root (fun _ => 0) O S W) (t z : Z) (v u : pview).
Context (Ht : O !! t = Some v) (Hk : v_kcontext v = KCollect) (Hlive : live (v_kind v)) (Hi : v_idle v = false).
Context (Hzc : z ∈ v_children v) (Hz : O !! z = Some u) (Huz : v_kind u = Zombie).

Lemma take_ne : z <> t.
Proof using All. intros ->. assert (v = u) as -> by congruence. destruct Hlive; congruence. Qed.

Lemma take_parent : v_parent u = t /\ z <> root.
Proof using All. destruct (to_child _ _ _ _ _ H t v z Ht Hzc) as (H1 & _ & u' & Hu' & E & _). split; congruence. Qed.

Lemma take_childless : v_children u = [].
Proof using All.
  destruct (v_children u) as [|q l] eqn:E; [done|]. destruct (to_leaf _ _ _ _ _ H z u Hz) as [_ [E2|E2]]; [by rewrite E| |]; congruence.
Qed.

(** Nobody else has [z] as a child. *)
Lemma take_unique p w : O !! p = Some w -> z ∈ v_children w -> p = t.
Proof using All. intros Hp Hin. destruct (to_child _ _ _ _ _ H p w z Hp Hin) as (_ & _ & u' & Hu' & E & _). destruct take_parent. congruence. Qed.

Lemma take_zomb q : q <> z -> is_zomb (taken t z v O) q = is_zomb O q.
Proof using All.
  intros Hq. pose proof take_ne as Hne. unfold is_zomb, taken. rewrite lookup_delete_ne by done.
  destruct (decide (q = t)) as [->|Hqt]; [|by rewrite lookup_insert_ne]. by rewrite lookup_insert_eq, Ht.
Qed.

Lemma tree_ok_taken : tree_ok root (fun _ => 0) (taken t z v O) (delete (SChild z) S) W.
Proof using All.
  pose proof take_ne as Hne. pose proof take_parent as [Hpar Hroot]. pose proof (fun p w => taken_lookup t z v O p w Hne) as L.
  set (v' := v_set_children _ _) in *.
  assert (forall p w, taken t z v O !! p = Some w -> exists w0, p <> z /\ O !! p = Some w0 /\ v_idle w = v_idle w0 /\
    v_parent w = v_parent w0 /\ v_kind w = v_kind w0 /\ (forall q, q ∈ v_children w <-> q <> z /\ q ∈ v_children w0) /\ NoDup (v_children w) /\
    (p <> t -> w = w0)) as B.
  { intros p w Hw. apply L in Hw as (Hpz & [[-> ->]|[Hpt Hw]]).
    - exists v. split_and!; try done; [|apply NoDup_filter, (to_nodup _ _ _ _ _ H t v Ht)]. intros q. cbn. by rewrite list_elem_of_filter.
    - exists w. split_and!; try done; [|by apply (to_nodup _ _ _ _ _ H p)]. intros q. split; [|by intros []]. intros Hq. split; [|done].
      intros ->. by apply Hpt, (take_unique p w). }
  assert (forall p w0, p <> z -> O !! p = Some w0 -> exists w, taken t z v O !! p = Some w /\ v_idle w = v_idle w0 /\
    v_parent w = v_parent w0 /\ v_kind w = v_kind w0 /\ (forall q, q <> z -> q ∈ v_children w0 -> q ∈ v_children w)) as F.
  { intros p w0 Hpz Hw. destruct (decide (p = t)) as [->|Hpt].
    - exists v'. split; [apply L; auto|]. assert (w0 = v) as -> by congruence. split_and!; try done. intros q H1 H2. cbn. by rewrite list_elem_of_filter.
    - exists w0. split; [apply L; auto|]. done. }
  split.
  - destruct (to_root _ _ _ _ _ H) as (r & Hr & H1 & H2). destruct (F root r) as (r' & Hr' & E1 & _ & E3 & _); [done|done|].
    exists r'. rewrite E1, E3. done.
  - destruct (taken t z v O !! 0) as [w|] eqn:E; [|done]. destruct (B 0 w E) as (w0 & _ & Hw0 & _). by rewrite (to_zero _ _ _ _ _ H) in Hw0.
  - intros p w Hw. by destruct (B p w Hw) as (w0 & _ & _ & _ & _ & _ & _ & Hnd & _).
  - intros p w q Hw Hq. destruct (B p w Hw) as (w0 & Hpz & Hw0 & _ & _ & _ & Hch & _). destruct (proj1 (Hch q) Hq) as [Hqz Hq0].
    destruct (to_child _ _ _ _ _ H p w0 q Hw0 Hq0) as (H1 & H2 & x & Hx & H3 & H4). split; [done|]. split; [done|].
    destruct (F q x Hqz Hx) as (x' & Hx' & E1 & E2 & _). exists x'. by rewrite E1, E2.
  - intros q w Hw Hiw Hqr Hqp. destruct (B q w Hw) as (w0 & Hqz & Hw0 & E1 & E2 & _). rewrite E1 in Hiw. rewrite E2 in Hqp |- *.
    destruct (to_parent _ _ _ _ _ H q w0 Hw0 Hiw Hqr Hqp) as (x & Hx & Hin). destruct (F (v_parent w0) x) as (x' & Hx' & _ & _ & _ & Hch); [|done|].
    { intros E. rewrite E, Hz in Hx. injection Hx as <-. rewrite take_childless in Hin. by apply elem_of_nil in Hin. }
    exists x'. split; [done|]. by apply Hch.
  - intros q w Hw Hiw Hqr Hku. destruct (B q w Hw) as (w0 & Hqz & Hw0 & E1 & E2 & E3 & _). rewrite E2. rewrite E1 in Hiw. rewrite E3 in Hku.
    by apply (to_started _ _ _ _ _ H q w0).
  - intros p w Hw Hch. destruct (B p w Hw) as (w0 & Hpz & Hw0 & E1 & E2 & E3 & Hc & _). rewrite E1, E3. apply (to_leaf _ _ _ _ _ H p w0 Hw0).
    destruct (v_children w) as [|q l]; [done|]. destruct (Hc q) as [Hq _]. destruct Hq as [_ Hq]; [left|]. intros E. rewrite E in Hq. by apply elem_of_nil in Hq.
  - intros p w Hw Hkz. destruct (B p w Hw) as (w0 & Hpz & Hw0 & E1 & E2 & E3 & _ & _ & Esame). rewrite E1. rewrite E3 in Hkz.
    destruct (decide (p = t)) as [->|Hpt]; [assert (w0 = v) as -> by congruence; destruct Hlive; congruence|].
    rewrite Esame by done. by apply (to_zombie _ _ _ _ _ H p w0).
  - intros p w Hw Hku. apply L in Hw as (Hpz & [[-> ->]|[Hpt Hw]]); [done|]. by apply (to_unused _ _ _ _ _ H p w).
  - intros p w Hw Hki. apply L in Hw as (Hpz & [[-> ->]|[Hpt Hw]]); [done|]. by apply (to_idle _ _ _ _ _ H p w).
  - intros p w Hw Hiw. destruct (B p w Hw) as (w0 & Hpz & Hw0 & E1 & _). rewrite lookup_delete_ne by congruence.
    apply (to_sem _ _ _ _ _ H p w0 Hw0). congruence.
  - intros p Hp. destruct (decide (p = z)) as [->|Hpz]; [rewrite lookup_delete_eq in Hp; by destruct Hp|].
    rewrite lookup_delete_ne in Hp by congruence. destruct (to_dom _ _ _ _ _ H p Hp) as [w0 Hw0]. destruct (F p w0 Hpz Hw0) as (w & Hw & _). by exists w.
  - intros p w Hw. apply L in Hw as (Hpz & [[-> ->]|[Hpt Hw]]); [by intros i k' w'|]. by apply (to_own _ _ _ _ _ H p w).
  - intros p w x Hw Hiw Hkz Hx. destruct (decide (p = z)) as [->|Hpz]; [apply L in Hw; naive_solver|].
    rewrite lookup_delete_ne in Hx by congruence. apply L in Hw as (_ & [[-> ->]|[Hpt Hw]]).
    + pose proof (to_count _ _ _ _ _ H t v x Ht Hi) as Hc. rewrite (zombies_ext O) by (intros q; cbn; rewrite list_elem_of_filter; intros [? _]; by apply take_zomb).
      pose proof (front_perm (v_children v) z (to_nodup _ _ _ _ _ H t v Ht) Hzc) as Hp. apply (zombies_perm O) in Hp.
      cbn [zombies foldr] in Hp. fold (zombies O (filter (fun r => r <> z) (v_children v))) in Hp.
      assert (is_zomb O z = true) as Ez by (unfold is_zomb; rewrite Hz, Huz; done). rewrite Ez in Hp.
      assert (v_kind v <> Zombie) as Hnz by (destruct Hlive; congruence). specialize (Hc Hnz Hx).
      unfold tokens, pend in *. rewrite Hk in Hc. cbn [v' v_set_children v_set_kcontext v_kcontext v_children]. lia.
    + rewrite (zombies_ext O); [by apply (to_count _ _ _ _ _ H)|]. intros q Hq. apply take_zomb. intros ->. by apply Hpt, (take_unique p w).
Qed.
End take.

Lemma sem_ok_delete O S W z u :
  sem_ok O S W -> O !! z = Some u -> (forall i w k, v_kcontext u <> KSem i w k) ->
  (forall p v i w k, O !! p = Some v -> v_kcontext v = KSem i w k -> i <> SChild z) ->
  sem_ok (delete z O) (delete (SChild z) S) W.
Proof.
  intros H Hz Hu Hno. split.
  - intros i x [_ Hx]%lookup_delete_Some. by apply (sm_nodup _ _ _ H i).
  - intros i x [_ Hx]%lookup_delete_Some. by apply (sm_val _ _ _ H i).
  - intros i x w [_ Hx]%lookup_delete_Some Hw. destruct (sm_sleep _ _ _ H i x w Hx Hw) as (p & v & k & H1 & H2 & H3). exists p, v, k.
    rewrite lookup_delete_ne; [done|]. intros <-. simplify_eq. by apply Hu in H3.
  - intros p v i w k [_ Hp]%lookup_delete_Some Hk. destruct (sm_ctx _ _ _ H p v i w k Hp Hk) as (H1 & x & y & Hx & H2). split; [done|].
    exists x, y. rewrite lookup_delete_ne; [done|]. intros E. by apply (Hno p v i w k Hp Hk).
  - intros p v [_ Hp]%lookup_delete_Some. by apply (sm_asleep _ _ _ H p).
Qed.

Lemma pid_ok_delete O max free z u :
  pid_ok O max free -> O !! z = Some u -> v_idle u = false -> pid_ok (delete z O) max (v_pid u :: free).
Proof.
  intros H Hz Hi. destruct (pk_range _ _ _ H z u Hz Hi) as [Hr Hnf]. split.
  - intros p v [Hne Hp]%lookup_delete_Some Hv. destruct (pk_range _ _ _ H p v Hp Hv). split; [done|]. rewrite not_elem_of_cons. split; [|done].
    intros E. by apply Hne, eq_sym, (pk_inj _ _ _ H p z v u).
  - intros p q v w [_ Hp]%lookup_delete_Some [_ Hq]%lookup_delete_Some. by apply (pk_inj _ _ _ H).
  - constructor; [done|apply (pk_nodup _ _ _ H)].
  - intros n [->|Hn]%elem_of_cons; [done|by apply (pk_free _ _ _ H)].
  - apply (pk_max _ _ _ H).
Qed.

Section life.
Context (invalid_pt sched_timers junk_elr : Z).
Abbreviation sched_ok := (sched_ok sched_timers).
Abbreviation kinv := (kinv sched_timers).

Lemma filter_notin (l : list Z) z : z ∉ l -> filter (fun q => q <> z) l = l.
Proof.
  induction l as [|q l IH]; intros H; [done|]. apply not_elem_of_cons in H as [Hq Hl]. rewrite filter_cons_True by congruence. by rewrite IH.
Qed.

(** A zombie is not known to the scheduler. *)
Lemma sched_ok_delete s z x :
  sched_ok s -> k_procs s !! z = Some x -> p_state x = ZOMBIE ->
  k_rq s = filter (fun q => q <> z) (k_rq s) /\ sched_ok (k_set_procs (delete z (k_procs s)) s).
Proof.
  intros H Hz Hs.
  assert (z ∉ k_rq s) as Hn by (rewrite (so_rq _ s H); intros (y & Hy & _ & Hr); simplify_eq; by rewrite Hs in Hr).
  assert (forall c, cpu c -> k_this s c <> z) as Ht by (intros c Hc <-; destruct (so_this _ s H c Hc) as (y & Hy & Hr); congruence).
  assert (forall c, cpu c -> k_idle s c <> z) as Hi by (intros c Hc <-; destruct (so_idle _ s H c Hc) as (y & Hy & _ & Hr); simplify_eq; by rewrite Hs in Hr).
  split; [by rewrite filter_notin|]. split; cbn; [apply (so_nodup _ s H)| | | |apply (so_inj _ s H)| | |apply (so_idle_inj _ s H)|apply (so_timer _ s H)].
  - intros p. rewrite (so_rq _ s H). split; intros (y & Hy & H2).
    + exists y. rewrite lookup_delete_ne; [done|]. intros <-. simplify_eq. rewrite Hs in H2. by destruct H2.
    + apply lookup_delete_Some in Hy as [_ Hy]. by exists y.
  - intros c Hc. destruct (so_this _ s H c Hc) as (y & Hy & Hr). exists y. by rewrite lookup_delete_ne by (symmetry; auto).
  - intros p y [_ Hy]%lookup_delete_Some. by apply (so_running _ s H).
  - intros c Hc. destruct (so_idle _ s H c Hc) as (y & Hy & Hr). exists y. by rewrite lookup_delete_ne by (symmetry; auto).
  - intros c y Hc [_ Hy]%lookup_delete_Some. by apply (so_own _ s H).
Qed.

Lemma find_zombie_run l s : (forall q, q ∈ l -> is_Some (k_procs s !! q)) ->
  exists r, find_zombie l s = Ret (r, s) /\
    match r with
    | Some z => z ∈ l /\ exists x, k_procs s !! z = Some x /\ p_state x = ZOMBIE
    | None => forall q x, q ∈ l -> k_procs s !! q = Some x -> p_state x <> ZOMBIE
    end.
Proof.
  induction l as [|q l IH]; intros H; [exists None; split; [done|]; intros q x Hq; by apply elem_of_nil in Hq|].
  destruct (H q) as [x Hx]; [left|]. cbn [find_zombie]. unfold mbind, M_bind, load_proc, some_or_ub. rewrite Hx. cbn. case_bool_decide as E.
  - exists (Some q). split; [done|]. split; [left|]. by exists x.
  - destruct IH as (r & Hr & Hs); [intros p Hp; apply H; by right|]. exists r. split; [exact Hr|]. destruct r as [z|].
    + destruct Hs as [Hz ?]. split; [by right|done].
    + intros p y [->|Hp]%elem_of_cons Hy; [congruence|]. eauto.
Qed.

(** [wait()] after it has been notified finds a zombie, returns its identifier
    and its exit code, and removes it. *)
Definition collected (t z : Z) (Z_ : Proc) (s s' : kstate) : Prop :=
  k_procs s !! z = Some Z_ /\ p_state Z_ = ZOMBIE /\ p_parent Z_ = t /\ k_procs s' !! z = None /\
  k_freepid s' = p_pid Z_ :: k_freepid s.

Lemma collect_kinv c P s :
  kinv s -> is_running s c P -> p_kcontext P = KCollect ->
  wp (wait_collect c) (fun r s' => kinv s' /\ exists z x, collected (k_this s c) z x s s' /\ r = (p_pid x, Some (p_exitcode x))) s.
Proof.
  intros H (Hc & HP & Hs & Hi) Hk. pose proof (ki_sched _ s H) as Hok. pose proof (ki_tree _ s H) as Htree. set (t := k_this s c) in *.
  pose proof (obs_proc s t P HP) as Ho. assert (live (v_kind (view_proc P))) as Hl by (left; cbn; by rewrite Hs).
  assert (forall q, q ∈ p_children P -> is_Some (k_procs s !! q)) as Hch.
  { intros q Hq. destruct (to_child _ _ _ _ _ Htree t _ q Ho Hq) as (_ & _ & u & Hu & _). apply obs_lookup in Hu as (x & Hx & _). by exists x. }
  unfold wait_collect, thisproc. wp_prim. wp_prim. fold t. wp_prim. eapply wp_upd_proc; [exact HP|]. set (P1 := p_set_kcontext KRun P).
  wp_prim. apply wp_acquire_plock; [apply H|]. wp_prim. apply wp_acquire_sched; [apply H|].
  wp_prim. eapply wp_load_proc; [apply lookup_insert_eq|]. set (s1 := k_set_sched_lock true _).
  assert (forall q, q ∈ p_children P -> is_Some (k_procs s1 !! q)) as Hch1 by (intros q Hq; apply insert_dom; [by exists P|auto]).
  destruct (find_zombie_run (p_children P) s1 Hch1) as (r & Hr & Hrs).
  wp_prim. eapply wp_intro; [exact Hr|]. destruct r as [z|].
  2: { exfalso. destruct (to_sem _ _ _ _ _ Htree t _ Ho Hi) as [x Hx].
    assert (0 < zombies (obs s) (p_children P)) as Hpos.
    { pose proof (to_count _ _ _ _ _ Htree t (view_proc P) x Ho Hi) as Hcnt.
      assert (v_kind (view_proc P) <> Zombie) as Hnz by (cbn; by rewrite Hs). specialize (Hcnt Hnz Hx).
      unfold tokens, pend in Hcnt. cbn [v_kcontext v_children view_proc] in Hcnt. rewrite Hk in Hcnt. lia. }
    apply zombies_pos in Hpos as (q & Hq & Hz). unfold is_zomb in Hz. destruct (obs s !! q) as [u|] eqn:Eu; [|done].
    apply bool_decide_eq_true in Hz. apply obs_lookup in Eu as (y & Hy & <-). cbn in Hz.
    apply (Hrs q (if decide (q = t) then P1 else y) Hq).
    - cbn. case_decide as D; [subst q; by rewrite lookup_insert_eq|by rewrite lookup_insert_ne].
    - case_decide as D; [subst q; simplify_eq; by rewrite Hs in Hz|]. by destruct (p_state y). }
  destruct Hrs as [Hz (y & Hy & Hys)].
  assert (z <> t) as Hzt by (intros ->; cbn in Hy; rewrite lookup_insert_eq in Hy; simplify_eq; cbn in Hys; congruence).
  cbn in Hy. rewrite lookup_insert_ne in Hy by done. pose proof (obs_proc s z y Hy) as Hoz.
  assert (v_kind (view_proc y) = Zombie) as Hkz by (cbn; by rewrite Hys).
  destruct (to_child _ _ _ _ _ Htree t _ z Ho Hz) as (_ & _ & u & Hu & Hpar & Hzi). rewrite Hoz in Hu. injection Hu as <-.
  unfold free_page, reuse_pid, release_sched_lock, release_plock. wp_prim. eapply wp_load_proc; [cbn; by rewrite lookup_insert_ne|].
  wp_prim. wp_prim. rewrite Hys. split; [done|]. wp_prim. eapply wp_upd_proc; [apply lookup_insert_eq|].
  set (s2 := k_set_procs _ s1). wp_prims. set (s3 := k_set_plock false _).
  set (P2 := p_set_children (filter (fun q => q <> z) (p_children P1)) P1) in *.
  assert (k_procs s3 = delete z (<[t := P2]> (k_procs s))) as Ep by (cbn; by rewrite insert_insert_eq).
  assert (sched_ok s3) as Hok3.
  { assert (sched_ok (k_set_procs (<[t := P2]> (k_procs s)) s)) as Hok2 by (by eapply sched_ok_upd).
    assert (k_procs (k_set_procs (<[t := P2]> (k_procs s)) s) !! z = Some y) as Hy2 by (cbn; by rewrite lookup_insert_ne).
    destruct (sched_ok_delete _ z y Hok2 Hy2 Hys) as [Erq Hdel]. eapply sched_ok_ext; [exact Hdel|exact (eq_sym Erq)|exact Ep|done|done|done]. }
  assert (obs s3 = taken t z (view_proc P) (obs s)) as Eo by (unfold obs, taken; by rewrite Ep, fmap_delete, fmap_insert).
  split; [|exists z, y; split; [|done]; split_and!; try done; rewrite Ep; by rewrite lookup_delete_eq].
  split; rewrite ?Eo; try done.
  - unfold taken. eapply (sem_ok_delete _ _ _ z (view_proc y)).
    + eapply sem_ok_proc; [apply H|exact Ho|cbn; by rewrite Hk|done|cbn; by rewrite Hs].
    + by rewrite lookup_insert_ne.
    + destruct (to_zombie _ _ _ _ _ Htree z _ Hoz Hkz) as (_ & _ & Ed). intros i w k. by rewrite Ed.
    + intros p v i w k Hp Hkp ->. destruct (decide (p = t)) as [->|Hne]; [rewrite lookup_insert_eq in Hp; simplify_eq; done|].
      rewrite lookup_insert_ne in Hp by done. destruct (to_own _ _ _ _ _ Htree p v Hp _ _ _ Hkp) as [[_ E]|[_ [a E]]]; [|done].
      injection E as <-. rewrite Hoz in Hp. injection Hp as <-. destruct (to_zombie _ _ _ _ _ Htree z _ Hoz Hkz) as (_ & _ & Ed). congruence.
  - by apply (tree_ok_taken _ _ _ _ Htree t z _ (view_proc y)).
  - apply (pid_ok_delete _ _ _ z (view_proc y)); [|by rewrite lookup_insert_ne|done]. eapply pid_ok_upd; [apply H|exact Ho|done|done].
  - intros i x Hx. change (delete (SChild z) (k_sems s) !! i = Some x) in Hx. apply lookup_delete_Some in Hx as [_ Hx]. by apply (ki_unlocked _ s H i).
Qed.
End life.
