(* ===== verification/ProcExit.v ===== *)
(** * [exit]: the children go to [root_proc], the parent is notified *)

From Stdlib Require Import ZArith Lia.
From stdpp Require Import base tactics numbers gmap list.
From S2P Require Import Prelude BlockCache Timer Sched SchedProofs SemProofs ProcProofs.

Local Open Scope Z_scope.

(** ** Changes that the invariants do not see *)

Lemma fmap_eq_Some {A B} (f : A -> B) (a b : option A) x : f <$> a = f <$> b -> a = Some x -> exists y, b = Some y /\ f y = f x.
Proof. intros E ->. cbn in E. destruct b as [y|]; [|done]. injection E as E. by exists y. Qed.

(** The same contexts and kinds of state. *)
Definition sem_view (v : pview) : bool * kind * kcont := (v_idle v, v_kind v, v_kcontext v).

Lemma sem_ok_same O O' S W : sem_ok O S W -> (forall p, sem_view <$> O' !! p = sem_view <$> O !! p) -> sem_ok O' S W.
Proof.
  intros H E.
  assert (forall p v, O' !! p = Some v -> exists u, O !! p = Some u /\ v_idle u = v_idle v /\ v_kind u = v_kind v /\ v_kcontext u = v_kcontext v) as B.
  { intros p v Hv. destruct (fmap_eq_Some _ _ _ _ (E p) Hv) as (u & Hu & Eu). exists u. unfold sem_view in Eu. by simplify_eq. }
  split; [apply (sm_nodup _ _ _ H)|apply (sm_val _ _ _ H)| | |].
  - intros i x w Hx Hw. destruct (sm_sleep _ _ _ H i x w Hx Hw) as (p & v & k & H1 & H2 & H3).
    destruct (fmap_eq_Some _ _ _ _ (eq_sym (E p)) H2) as (u & Hu & Eu). unfold sem_view in Eu. simplify_eq. exists p, u, k. split_and!; congruence.
  - intros p v i w k Hv Hk. destruct (B p v Hv) as (u & Hu & <- & <- & Ek). apply (sm_ctx _ _ _ H p u i w k); congruence.
  - intros p v Hv Hk. destruct (B p v Hv) as (u & Hu & _ & E2 & <-). apply (sm_asleep _ _ _ H p u); congruence.
Qed.

Lemma sched_ok_same tm s m : sched_ok tm s ->
  (forall p, (fun x => (p_state x, p_idle x)) <$> m !! p = (fun x => (p_state x, p_idle x)) <$> k_procs s !! p) -> sched_ok tm (k_set_procs m s).
Proof.
  intros H E.
  assert (forall p x, m !! p = Some x -> exists y, k_procs s !! p = Some y /\ p_state y = p_state x /\ p_idle y = p_idle x) as B.
  { intros p x Hx. destruct (fmap_eq_Some _ _ _ _ (E p) Hx) as (y & Hy & Ey). exists y. by simplify_eq. }
  assert (forall p x, k_procs s !! p = Some x -> exists y, m !! p = Some y /\ p_state y = p_state x /\ p_idle y = p_idle x) as F.
  { intros p x Hx. destruct (fmap_eq_Some _ _ _ _ (eq_sym (E p)) Hx) as (y & Hy & Ey). exists y. by simplify_eq. }
  split; cbn; [apply (so_nodup _ s H)| | | |apply (so_inj _ s H)| | |apply (so_idle_inj _ s H)|apply (so_timer _ s H)].
  - intros p. rewrite (so_rq _ s H). split; intros (x & Hx & H1 & H2).
    + destruct (F p x Hx) as (y & Hy & E1 & E2). exists y. by rewrite E1, E2.
    + destruct (B p x Hx) as (y & Hy & E1 & E2). exists y. by rewrite E1, E2.
  - intros c Hc. destruct (so_this _ s H c Hc) as (x & Hx & H1). destruct (F _ x Hx) as (y & Hy & E1 & E2). exists y. by rewrite E1.
  - intros p x Hx Hr. destruct (B p x Hx) as (y & Hy & E1 & E2). apply (so_running _ s H p y); congruence.
  - intros c Hc. destruct (so_idle _ s H c Hc) as (x & Hx & H1 & H2). destruct (F _ x Hx) as (y & Hy & E1 & E2). exists y. by rewrite E1, E2.
  - intros c x Hc Hx Hi. destruct (B _ x Hx) as (y & Hy & E1 & E2). apply (so_own _ s H c y); congruence.
Qed.

(** ** Handing the children over *)

(** The processes after [root_proc] has adopted the children of [t]. *)
Definition adopted (root t : Z) (v r : pview) (O O' : omap) : Prop :=
  O' !! t = Some (v_set_children [] v) /\ O' !! root = Some (v_set_children (v_children v ++ v_children r) r) /\
  (forall p, p <> t -> p <> root -> O' !! p = if decide (p ∈ v_children v) then v_set_parent root <$> O !! p else O !! p).

Section adopt.
Context (root t : Z) (v r : pview) (O O' : omap) (S : smap) (W : wmap).
Context (H : tree_ok root (fun _ => 0) O S W) (Ht : O !! t = Some v) (Hr : O !! root = Some r) (Hne : t <> root) (HA : adopted root t v r O O').
Context (Hl : live (v_kind v)) (Hi : v_idle v = false).

(** The part of a process that does not change, and its parent. *)
Lemma adopted_view p u' : O' !! p = Some u' -> exists u, O !! p = Some u /\ v_idle u' = v_idle u /\ v_kind u' = v_kind u /\
  v_kcontext u' = v_kcontext u /\ v_pid u' = v_pid u /\ v_exitcode u' = v_exitcode u /\
  v_parent u' = (if decide (p ∈ v_children v) then root else v_parent u) /\
  v_children u' = (if decide (p = t) then [] else if decide (p = root) then v_children v ++ v_children u else v_children u).
Proof using All.
  destruct HA as (H1 & H2 & H3). intros Hu'.
  assert (forall q, q ∈ v_children v -> q <> root /\ q <> t) as Hq by (intros q Hq; by destruct (to_child _ _ _ _ _ H t v q Ht Hq) as (? & ? & _)).
  destruct (decide (p = t)) as [->|Hpt].
  - exists v. rewrite H1 in Hu'. injection Hu' as <-. split_and!; try done. cbn. case_decide as D; [by apply Hq in D as []|done].
  - destruct (decide (p = root)) as [->|Hpr].
    + exists r. rewrite H2 in Hu'. injection Hu' as <-. split_and!; try done. cbn. case_decide as D; [by apply Hq in D as []|done].
    + rewrite H3 in Hu' by done. case_decide as D; [|exists u'; done]. destruct (O !! p) as [u|]; [|done]. injection Hu' as <-. exists u. done.
Qed.

Lemma adopted_dom p u : O !! p = Some u -> is_Some (O' !! p).
Proof using All.
  destruct HA as (H1 & H2 & H3). intros Hu. destruct (decide (p = t)) as [->|Hpt]; [by eexists|]. destruct (decide (p = root)) as [->|Hpr]; [by eexists|].
  rewrite H3, Hu by done. case_decide; by eexists.
Qed.

Lemma adopted_zomb q : is_zomb O' q = is_zomb O q.
Proof using All.
  unfold is_zomb. destruct (O' !! q) as [u'|] eqn:E'.
  - destruct (adopted_view q u' E') as (u & Hu & _ & Ek & _). by rewrite Hu, Ek.
  - destruct (O !! q) as [u|] eqn:E; [|done]. apply adopted_dom in E as [? ?]. congruence.
Qed.

Lemma adopted_same p : sem_view <$> O' !! p = sem_view <$> O !! p.
Proof using All.
  destruct (O' !! p) as [u'|] eqn:E'.
  - destruct (adopted_view p u' E') as (u & Hu & E1 & E2 & E3 & _). rewrite Hu. unfold sem_view. cbn. by rewrite E1, E2, E3.
  - destruct (O !! p) as [u|] eqn:E; [|done]. apply adopted_dom in E as [? ?]. congruence.
Qed.

Lemma adopted_disjoint p u q : O !! p = Some u -> q ∈ v_children u -> q ∈ v_children v -> p = t.
Proof using All.
  intros Hp Hq Hqv. destruct (to_child _ _ _ _ _ H p u q Hp Hq) as (_ & _ & x & Hx & <- & _).
  destruct (to_child _ _ _ _ _ H t v q Ht Hqv) as (_ & _ & y & Hy & <- & _). congruence.
Qed.

(** The units that the posts to [root_proc] still have to add, and those that
    die with [t]. *)
Definition adoption_debt (n : Z) (p : Z) : Z := if decide (p = root) then n else if decide (p = t) then - zombies O (v_children v) else 0.

Lemma tree_ok_adopted : tree_ok root (adoption_debt (zombies O (v_children v))) O' S W.
Proof using All.
  destruct (to_root _ _ _ _ _ H) as (r' & Hr' & Hri & Hrl). assert (r' = r) as -> by congruence.
  assert (forall p u', O' !! p = Some u' -> p <> t -> p <> root -> exists u, O !! p = Some u /\ v_children u' = v_children u) as Hother.
  { intros p u' Hu' H1 H2. destruct (adopted_view p u' Hu') as (u & Hu & _ & _ & _ & _ & _ & _ & Ec). rewrite !decide_False in Ec by done. by exists u. }
  split.
  - destruct HA as (_ & H2 & _). eexists. split; [exact H2|]. done.
  - destruct (O' !! 0) as [u'|] eqn:E; [|done]. destruct (adopted_view _ _ E) as (u & Hu & _). by rewrite (to_zero _ _ _ _ _ H) in Hu.
  - intros p u' Hu'. destruct (adopted_view _ _ Hu') as (u & Hu & _ & _ & _ & _ & _ & _ & ->). case_decide; [constructor|].
    case_decide as D; [|by apply (to_nodup _ _ _ _ _ H p)]. subst p. apply NoDup_app. split; [by apply (to_nodup _ _ _ _ _ H t)|].
    split; [|by apply (to_nodup _ _ _ _ _ H root)]. intros q Hq Hq'. by apply Hne, eq_sym, (adopted_disjoint root u q).
  - intros p u' q Hu' Hq. destruct (adopted_view _ _ Hu') as (u & Hu & _ & _ & _ & _ & _ & _ & Ec). rewrite Ec in Hq.
    assert (exists p0 u0, O !! p0 = Some u0 /\ q ∈ v_children u0 /\ (p0 = t /\ p = root \/ p0 = p /\ p <> t)) as (p0 & u0 & Hp0 & Hq0 & Hcase).
    { case_decide as D1; [by apply elem_of_nil in Hq|]. case_decide as D2; [|exists p, u; auto].
      subst p. apply elem_of_app in Hq as [Hq|Hq]; [exists t, v; auto|]. exists root, u. auto. }
    destruct (to_child _ _ _ _ _ H p0 u0 q Hp0 Hq0) as (H1 & H2 & x & Hx & H3 & H4). destruct (adopted_dom q x Hx) as [x' Hx'].
    destruct (adopted_view q x' Hx') as (x0 & Hx0 & E1 & _ & _ & _ & _ & E2 & _). assert (x0 = x) as -> by congruence.
    assert (v_parent x' = p) as Ep.
    { rewrite E2. destruct Hcase as [[-> ->]|[-> Hpt]]; case_decide as D; try done; [congruence|].
      exfalso. by apply Hpt, (adopted_disjoint p u0 q). }
    split; [done|]. split; [|exists x'; split; [done|]; split; [done|congruence]].
    destruct Hcase as [[-> ->]|[-> _]]; [done|done].
  - intros q u' Hu' Hiu Hqr Hqp. destruct (adopted_view _ _ Hu') as (u & Hu & E1 & _ & _ & _ & _ & Ep & _). rewrite Ep in Hqp |- *. rewrite E1 in Hiu. case_decide as D.
    + destruct HA as (_ & H2 & _). eexists. split; [exact H2|]. cbn. apply elem_of_app. by left.
    + destruct (to_parent _ _ _ _ _ H q u Hu Hiu Hqr Hqp) as (x & Hx & Hin). destruct (adopted_dom _ x Hx) as [x' Hx']. exists x'. split; [done|].
      destruct (adopted_view _ _ Hx') as (x0 & Hx0 & _ & _ & _ & _ & _ & _ & ->). assert (x0 = x) as -> by congruence.
      case_decide as D1; [rewrite D1 in Hx; assert (x = v) as -> by congruence; done|]. case_decide; [|done]. apply elem_of_app. by right.
  - intros q u' Hu' Hiu Hqr Hku. destruct (adopted_view _ _ Hu') as (u & Hu & E1 & E2 & _ & _ & _ & -> & _). rewrite E1 in Hiu. rewrite E2 in Hku.
    case_decide; [|by apply (to_started _ _ _ _ _ H q u)]. intros ->. by rewrite (to_zero _ _ _ _ _ H) in Hr.
  - intros p u' Hu' Hch. destruct (adopted_view _ _ Hu') as (u & Hu & -> & -> & _ & _ & _ & _ & Ec).
    destruct (decide (p = t)) as [->|Hpt]; [by rewrite Ec in Hch|]. destruct (decide (p = root)) as [->|Hpr]; [by assert (u = r) as -> by congruence|].
    rewrite Ec in Hch. by apply (to_leaf _ _ _ _ _ H p u).
  - intros p u' Hu'. destruct (adopted_view _ _ Hu') as (u & Hu & -> & -> & -> & _). by apply (to_zombie _ _ _ _ _ H p u).
  - intros p u' Hu'. destruct (adopted_view _ _ Hu') as (u & Hu & _ & -> & -> & _). by apply (to_unused _ _ _ _ _ H p u).
  - intros p u' Hu'. destruct (adopted_view _ _ Hu') as (u & Hu & -> & _ & -> & _). by apply (to_idle _ _ _ _ _ H p u).
  - intros p u' Hu'. destruct (adopted_view _ _ Hu') as (u & Hu & -> & _). by apply (to_sem _ _ _ _ _ H p u).
  - intros p Hp. destruct (to_dom _ _ _ _ _ H p Hp) as [u Hu]. by eapply adopted_dom.
  - intros p u' Hu'. destruct (adopted_view _ _ Hu') as (u & Hu & _ & _ & E3 & _). unfold own_ok. rewrite E3. by apply (to_own _ _ _ _ _ H p u).
  - intros p u' x Hu' Hiu Hku Hx. destruct (adopted_view _ _ Hu') as (u & Hu & E1 & E2 & E3 & _ & _ & _ & Ec). rewrite E1 in Hiu. rewrite E2 in Hku.
    pose proof (to_count _ _ _ _ _ H p u x Hu Hiu Hku Hx) as Hcnt. unfold tokens, pend in *. rewrite E3, Ec.
    rewrite (zombies_ext O O') by (intros; apply adopted_zomb). destruct (decide (p = t)) as [->|Hpt].
    + unfold adoption_debt. rewrite decide_False, decide_True by done. assert (u = v) as -> by congruence. cbn [zombies foldr]. lia.
    + unfold adoption_debt. case_decide as D; [|by rewrite decide_False]. subst p. rewrite zombies_app. lia.
Qed.
End adopt.

(** ** The end of [exit] *)

(** The last step pays the unit that the parent already has. *)
Lemma tree_ok_died root debt O S W t v :
  tree_ok root debt O S W -> O !! t = Some v -> v_idle v = false -> t <> root -> v_children v = [] -> live (v_kind v) -> v_kcontext v = KRun ->
  debt (v_parent v) = -1 -> (forall p, p <> t -> p <> v_parent v -> debt p = 0) ->
  tree_ok root (fun _ => 0) (<[t := v_set_kind Zombie (v_set_kcontext KDead v)]> O) S W.
Proof.
  intros H Ht Hi Hne Hch Hl Hk Hd1 Hd0. set (v' := v_set_kind Zombie (v_set_kcontext KDead v)).
  assert (v_parent v <> 0) as Hp0 by (apply (to_started _ _ _ _ _ H t v Ht Hi Hne); destruct Hl; congruence).
  destruct (to_parent _ _ _ _ _ H t v Ht Hi Hne Hp0) as (w & Hw & Hin). set (par := v_parent v) in *.
  assert (t <> par) as Htp by (intros E; destruct (to_child _ _ _ _ _ H par w t Hw Hin); tauto).
  assert (forall p u', <[t := v']> O !! p = Some u' -> exists u, O !! p = Some u /\ v_idle u' = v_idle u /\ v_parent u' = v_parent u /\
    v_children u' = v_children u /\ (p <> t -> u' = u) /\ (p = t -> u' = v')) as B.
  { intros p u'. destruct (decide (p = t)) as [->|Hpt]; [rewrite lookup_insert_eq; intros [= <-]; exists v; done|].
    rewrite lookup_insert_ne by done. intros Hu. by exists u'. }
  assert (forall p u, O !! p = Some u -> exists u', <[t := v']> O !! p = Some u' /\ v_idle u' = v_idle u /\ v_parent u' = v_parent u /\ v_children u' = v_children u) as F.
  { intros p u Hu. destruct (decide (p = t)) as [->|Hpt]; [rewrite lookup_insert_eq; exists v'; simplify_eq; done|].
    rewrite lookup_insert_ne by done. by exists u. }
  split.
  - destruct (to_root _ _ _ _ _ H) as (r & Hr & H1 & H2). exists r. by rewrite lookup_insert_ne.
  - destruct (<[t := v']> O !! 0) eqn:E; [|done]. destruct (B _ _ E) as (u & Hu & _). by rewrite (to_zero _ _ _ _ _ H) in Hu.
  - intros p u' Hu'. destruct (B _ _ Hu') as (u & Hu & _ & _ & -> & _). by apply (to_nodup _ _ _ _ _ H p).
  - intros p u' q Hu' Hq. destruct (B _ _ Hu') as (u & Hu & _ & _ & Ec & _). rewrite Ec in Hq.
    destruct (to_child _ _ _ _ _ H p u q Hu Hq) as (H1 & H2 & x & Hx & H3 & H4). split; [done|]. split; [done|].
    destruct (F q x Hx) as (x' & Hx' & E1 & E2 & _). exists x'. by rewrite E1, E2.
  - intros q u' Hu' Hiu Hqr Hqp. destruct (B _ _ Hu') as (u & Hu & E1 & E2 & _). rewrite E1 in Hiu. rewrite E2 in Hqp |- *.
    destruct (to_parent _ _ _ _ _ H q u Hu Hiu Hqr Hqp) as (x & Hx & Hqx). destruct (F _ x Hx) as (x' & Hx' & _ & _ & Ec). exists x'. by rewrite Ec.
  - intros q u' Hu' Hiu Hqr Hku. destruct (B _ _ Hu') as (u & Hu & E1 & E2 & _ & Eo & Et). rewrite E2. rewrite E1 in Hiu.
    destruct (decide (q = t)) as [->|Hqt]; [by assert (u = v) as -> by congruence|]. rewrite Eo in Hku by done. by apply (to_started _ _ _ _ _ H q u).
  - intros p u' Hu' Hcu. destruct (B _ _ Hu') as (u & Hu & E1 & _ & Ec & Eo & _). rewrite Ec in Hcu.
    destruct (decide (p = t)) as [->|Hpt]; [congruence|]. rewrite Eo by done. by apply (to_leaf _ _ _ _ _ H p u).
  - intros p u' Hu' Hku. destruct (B _ _ Hu') as (u & Hu & E1 & _ & Ec & Eo & Et).
    destruct (decide (p = t)) as [->|Hpt]; [by rewrite Et|]. rewrite Eo in Hku |- * by done. by apply (to_zombie _ _ _ _ _ H p u).
  - intros p u' Hu' Hku. destruct (B _ _ Hu') as (u & Hu & E1 & _ & Ec & Eo & Et).
    destruct (decide (p = t)) as [->|Hpt]; [by rewrite Et in Hku|]. rewrite Eo in Hku |- * by done. by apply (to_unused _ _ _ _ _ H p u).
  - intros p u' Hu' Hiu. destruct (B _ _ Hu') as (u & Hu & E1 & _ & Ec & Eo & Et).
    destruct (decide (p = t)) as [->|Hpt]; [congruence|]. rewrite Eo in Hiu |- * by done. by apply (to_idle _ _ _ _ _ H p u).
  - intros p u' Hu' Hiu. destruct (B _ _ Hu') as (u & Hu & E1 & _). rewrite E1 in Hiu. by apply (to_sem _ _ _ _ _ H p u).
  - intros p Hp. destruct (to_dom _ _ _ _ _ H p Hp) as [u Hu]. destruct (F p u Hu) as (u' & Hu' & _). by exists u'.
  - intros p u' Hu'. destruct (B _ _ Hu') as (u & Hu & _ & _ & _ & Eo & Et).
    destruct (decide (p = t)) as [->|Hpt]; [by rewrite Et|]. rewrite Eo by done. by apply (to_own _ _ _ _ _ H p u).
  - intros p u' x Hu' Hiu Hku Hx. destruct (B _ _ Hu') as (u & Hu & E1 & _ & _ & Eo & Et).
    destruct (decide (p = t)) as [->|Hpt]; [by rewrite Et in Hku|]. rewrite Eo in Hiu, Hku |- * by done. clear u' Hu' E1 Eo Et.
    pose proof (to_count _ _ _ _ _ H p u x Hu Hiu Hku Hx) as Hcnt.
    assert (forall q, q <> t -> is_zomb (<[t := v']> O) q = is_zomb O q) as Hz by (intros q Hq; unfold is_zomb; by rewrite lookup_insert_ne).
    destruct (decide (p = par)) as [->|Hpp].
    + assert (u = w) as -> by congruence. pose proof (front_perm (v_children w) t (to_nodup _ _ _ _ _ H par w Hw) Hin) as Hp.
      rewrite <-(zombies_perm O _ _ Hp) in Hcnt. rewrite <-(zombies_perm _ _ _ Hp). cbn [zombies foldr] in *.
      fold (zombies O (filter (fun r => r <> t) (v_children w))) in Hcnt. fold (zombies (<[t := v']> O) (filter (fun r => r <> t) (v_children w))).
      rewrite (zombies_ext O (<[t := v']> O)) by (intros q; rewrite list_elem_of_filter; intros [Hq _]; by apply Hz).
      assert (is_zomb O t = false) as E1 by (unfold is_zomb; rewrite Ht; destruct Hl as [->| ->]; done). rewrite E1 in Hcnt.
      assert (is_zomb (<[t := v']> O) t = true) as E2 by (unfold is_zomb; by rewrite lookup_insert_eq). rewrite E2. lia.
    + rewrite (zombies_ext O (<[t := v']> O)); [rewrite Hcnt, Hd0 by done; lia|]. intros q Hq. apply Hz. intros ->.
      destruct (to_child _ _ _ _ _ H p u t Hu Hq) as (_ & _ & x' & Hx' & E & _). by simplify_eq.
Qed.

(** ** The whole of [exit] *)

Section exit.
Context (invalid_pt sched_timers : Z).
Abbreviation sched_ok := (sched_ok sched_timers).
Abbreviation kinv := (kinv sched_timers).

(** The invariant between two pieces of [exit]: [plock] is held, the scheduler
    lock is not. *)
Record kmid (debt : Z -> Z) (s : kstate) : Prop := {
  km_sched : sched_ok s;
  km_sem : sem_ok (obs s) (k_sems s) (k_waits s);
  km_tree : tree_ok (k_root s) debt (obs s) (k_sems s) (k_waits s);
  km_pid : pid_ok (obs s) (k_max_pid s) (k_freepid s);
  km_lock : k_sched_lock s = false;
  km_plock : k_plock s = true;
  km_unlocked : unlocked (k_sems s) }.

Lemma tree_ok_debt root debt debt' O S W : tree_ok root debt O S W -> (forall p, debt' p = debt p) -> tree_ok root debt' O S W.
Proof.
  intros H E. eapply tree_ok_change; [exact H|done|done|]. intros p v v' Hv Hv'. simplify_eq. split; [apply same_tree_refl|].
  split; [by apply (to_own _ _ _ _ _ H p)|]. split; [done|]. intros x x' _ _ Hx Hx'. simplify_eq. by rewrite E.
Qed.
Lemma kmid_debt debt debt' s : kmid debt s -> (forall p, debt' p = debt p) -> kmid debt' s.
Proof. intros [] E. split; try done. by eapply tree_ok_debt. Qed.

Lemma kmid_relock debt s s' : kmid debt s -> s' = k_set_sched_lock false s -> kmid debt s'.
Proof. intros H ->. split; [eapply sched_ok_ext; [apply (km_sched _ _ H)|done..]|apply (km_sem _ _ H)|apply (km_tree _ _ H)|apply (km_pid _ _ H)|done|apply (km_plock _ _ H)|apply (km_unlocked _ _ H)]. Qed.

(** What the posts of [exit] leave alone: the processes that are not asleep. *)
Definition awake_same (s s' : kstate) : Prop :=
  k_root s' = k_root s /\ k_this s' = k_this s /\ (forall p v, obs s !! p = Some v -> v_kind v <> Asleep -> obs s' !! p = Some v) /\
  (forall i, is_Some (k_sems s !! i) -> is_Some (k_sems s' !! i)).

Lemma awake_same_trans s1 s2 s3 : awake_same s1 s2 -> awake_same s2 s3 -> awake_same s1 s3.
Proof. intros (A1 & A2 & A3 & A4) (B1 & B2 & B3 & B4). split; [congruence|]. split; [congruence|]. split; [intros p v H1 H2; apply B3; [by apply A3|done]|auto]. Qed.

(** A post to the semaphore of [q] gives the parent [q] a unit. *)
Lemma post_kmid debt q s : kmid debt s -> is_Some (k_sems s !! SChild q) ->
  wp (post_sem (SChild q)) (fun _ s' => kmid (fun p => debt p - (if decide (SChild q = SChild p) then 1 else 0)) s' /\ awake_same s s') s.
Proof.
  intros H [x Hx]. pose proof (km_unlocked _ s H) as Hu.
  eapply wp_mono; [apply (post_sem_wp sched_timers (SChild q) x); [apply H|apply H|apply H|done|by apply (Hu (SChild q))]|].
  intros [] s' (Hok & Hl & (E1 & E2 & E3 & E4 & E5 & E6) & Et & Hp). split; [split|].
  - done.
  - by eapply sem_ok_posted; [apply H| |].
  - rewrite E1. eapply (tree_ok_posted _ _ _ x s s'); [apply H|apply H|exact Hx|exact Hp].
  - rewrite E5, E6. unfold posted in Hp. pose proof (km_pid _ s H) as Hpid. case_match.
    + destruct Hp as (l & w & p & v & (_ & _ & Hv) & -> & _). by eapply pid_ok_upd.
    + destruct Hp as (-> & _). done.
  - done.
  - rewrite E2. apply H.
  - unfold posted in Hp. case_match; [destruct Hp as (l & w & p & v & _ & _ & -> & _)|destruct Hp as (_ & -> & _)]; by apply unlocked_insert.
  - split; [done|]. split; [done|]. unfold posted in Hp. case_match.
    + destruct Hp as (l & w & p & v & (El & Hw & Hv) & -> & -> & _). split.
      * intros r u Hr Hk. destruct (decide (r = p)) as [->|Hne]; [|by rewrite lookup_insert_ne]. rewrite lookup_insert_eq. assert (u = v) as -> by congruence. f_equal.
        destruct (sm_sleep _ _ _ (km_sem _ s H) (SChild q) x w Hx) as (p' & v2 & k & Hw' & Hp' & Hkc); [rewrite El; set_solver|].
        assert (p' = p) as -> by congruence. assert (v2 = v) as -> by congruence.
        destruct (sm_ctx _ _ _ (km_sem _ s H) _ v _ w k Hv Hkc) as (_ & x' & y & _ & _ & _ & _ & [Hrd|[Ha _]]); [|done].
        destruct v. cbn in *. by subst.
      * intros i Hi. apply insert_dom; [by exists x|done].
    + destruct Hp as (-> & -> & _). split; [done|]. intros i Hi. apply insert_dom; [by exists x|done].
Qed.

Lemma post_times_kmid n q debt s : kmid debt s -> is_Some (k_sems s !! SChild q) ->
  wp (post_times n (SChild q)) (fun _ s' => kmid (fun p => debt p - (if decide (p = q) then Z.of_nat n else 0)) s' /\ awake_same s s') s.
Proof.
  revert debt s. induction n as [|n IH]; intros debt s H Hq; cbn [post_times].
  - wp_prims. split; [|done]. eapply kmid_debt; [exact H|]. intros p. cbn. case_decide; lia.
  - wp_prim. eapply wp_mono; [by apply post_kmid|]. intros [] s1 (H1 & S1). cbn.
    eapply wp_mono; [apply IH; [exact H1|by apply S1]|]. intros [] s2 (H2 & S2). cbn. split; [|by eapply awake_same_trans].
    eapply kmid_debt; [exact H2|]. intros p. cbn. destruct (decide (p = q)) as [->|Hne]; [rewrite decide_True by done; lia|].
    rewrite decide_False by congruence. lia.
Qed.

(** [reparent] sets the parent of each child and counts the zombies. *)
Lemma reparent_run root l n s : (forall q, q ∈ l -> is_Some (k_procs s !! q)) ->
  exists n' m, reparent l root n s = Ret (n', k_set_procs m s) /\ Z.of_nat n' = Z.of_nat n + zombies (obs s) l /\
    forall p, m !! p = if decide (p ∈ l) then p_set_parent root <$> k_procs s !! p else k_procs s !! p.
Proof.
  revert n s. induction l as [|q l IH]; intros n s Hl.
  - exists n, (k_procs s). split; [by destruct s|]. split; [cbn; lia|]. intros p. rewrite decide_False; [done|]. by intros ?%elem_of_nil.
  - destruct (Hl q) as [x Hx]; [left|]. set (s1 := k_set_procs (<[q := p_set_parent root x]> (k_procs s)) s).
    destruct (IH (if bool_decide (p_state x = ZOMBIE) then S n else n) s1) as (n' & m & Hr & En & Em).
    { intros p Hp. apply insert_dom; [by exists x|]. apply Hl. by right. }
    exists n', m. split; [|split].
    + cbn [reparent]. unfold upd_proc, mbind, M_bind, modify, load_proc, some_or_ub. rewrite Hx. cbn -[reparent]. rewrite lookup_insert_eq. cbn -[reparent].
      exact Hr.
    + cbn [zombies foldr]. fold (zombies (obs s) l). rewrite (zombies_ext (obs s)) in En.
      * assert (is_zomb (obs s) q = bool_decide (p_state x = ZOMBIE)) as ->.
        { unfold is_zomb. rewrite (obs_proc s q x Hx). cbn. apply bool_decide_ext. by destruct (p_state x). }
        case_bool_decide; lia.
      * intros p _. unfold s1, is_zomb. rewrite obs_insert. destruct (decide (p = q)) as [->|Hne]; [|by rewrite lookup_insert_ne].
        by rewrite lookup_insert_eq, (obs_proc s q x Hx).
    + intros p. rewrite Em. cbn. destruct (decide (p = q)) as [->|Hne].
      * rewrite lookup_insert_eq, Hx. rewrite (decide_True (P := q ∈ q :: l)) by left. by destruct (decide (q ∈ l)).
      * rewrite lookup_insert_ne by done. apply decide_ext. rewrite elem_of_cons. naive_solver.
Qed.

(** The parent of a started process is alive and has a semaphore. *)
Lemma parent_sem root debt O S W t v :
  tree_ok root debt O S W -> O !! t = Some v -> v_idle v = false -> t <> root -> v_kind v <> Unused -> is_Some (S !! SChild (v_parent v)).
Proof.
  intros H Ht Hi Hne Hk. pose proof (to_started _ _ _ _ _ H t v Ht Hi Hne Hk) as Hp.
  destruct (to_parent _ _ _ _ _ H t v Ht Hi Hne Hp) as (w & Hw & Hin). apply (to_sem _ _ _ _ _ H _ w Hw).
  apply (to_leaf _ _ _ _ _ H _ w Hw). intros E. rewrite E in Hin. by apply elem_of_nil in Hin.
Qed.

Lemma this_ready c s v : sched_ok s -> cpu c -> obs s !! k_this s c = Some v -> v_kind v = Ready.
Proof. intros H Hc Hv. destruct (so_this _ s H c Hc) as (x & Hx & Hr). rewrite (obs_proc s _ x Hx) in Hv. injection Hv as <-. cbn. by rewrite Hr. Qed.

(** [free_pgdir] changes nothing that the invariant depends on. *)
Lemma free_pt_kmid t x debt s (Q : unit -> kstate -> Prop) :
  kmid debt (k_set_sched_lock false s) -> k_procs s !! t = Some x ->
  (forall s', kmid debt (k_set_sched_lock false s') -> k_sched_lock s' = k_sched_lock s -> k_this s' = k_this s -> k_root s' = k_root s ->
     obs s' = obs s -> k_sems s' = k_sems s -> Q tt s') -> wp (free_pt t) Q s.
Proof.
  intros H Hx HQ. unfold free_pt, free_page. wp_prim. eapply wp_load_proc; [exact Hx|]. destruct (p_pt x =? 0); [wp_prims; by apply HQ|].
  wp_prims. eapply wp_upd_proc; [exact Hx|]. set (s' := k_set_procs _ _).
  assert (obs s' = obs s) as Eo.
  { unfold obs. cbn. rewrite fmap_insert. apply insert_id. by rewrite lookup_fmap, Hx. }
  apply HQ; try done. split; change (obs (k_set_sched_lock false s')) with (obs s'); rewrite ?Eo;
    [|apply (km_sem _ _ H)|apply (km_tree _ _ H)|apply (km_pid _ _ H)|done|apply (km_plock _ _ H)|apply (km_unlocked _ _ H)].
  pose proof (km_sched _ _ H) as Hok. eapply (sched_ok_upd _ (k_set_pages (k_pages s ∖ {[p_pt x]}) (k_set_sched_lock false s)) t x);
    [by eapply sched_ok_ext|done|done|done].
Qed.

Definition died (v : pview) : pview := v_set_kind Zombie (v_set_kcontext KDead v).

Lemma sched_zombie_kinv c v debt s :
  kmid debt (k_set_sched_lock false s) -> cpu c -> obs s !! k_this s c = Some v -> v_idle v = false -> k_this s c <> k_root s ->
  v_children v = [] -> v_kcontext v = KRun -> debt (v_parent v) = -1 -> (forall p, p <> k_this s c -> p <> v_parent v -> debt p = 0) ->
  wp (release_plock;; (upd_proc (k_this s c) (p_set_kcontext KDead);; sched invalid_pt sched_timers c ZOMBIE))
    (fun _ s' => kinv s' /\ k_root s' = k_root s /\ obs s' = <[k_this s c := died v]> (obs s)) s.
Proof.
  intros H Hc Hv Hi Hne Hch Hk Hd1 Hd0. set (t := k_this s c) in *. pose proof (km_sched _ _ H) as Hok.
  pose proof (this_ready c _ v Hok Hc Hv) as Hrd. destruct (proj1 (obs_lookup s t v) Hv) as (x & Hx & Ev).
  unfold release_plock. wp_prims. eapply wp_upd_proc; [exact Hx|]. set (s1 := k_set_procs _ _).
  assert (sched_ok s1) as Hok1.
  { eapply (sched_ok_upd _ (k_set_plock false s) t x); [|exact Hx|done|done]. by eapply sched_ok_ext. }
  assert (k_procs s1 !! k_this s1 c = Some (p_set_kcontext KDead x)) as Hx1 by apply lookup_insert_eq.
  eapply wp_mono; [apply (sched_wp invalid_pt sched_timers c ZOMBIE _ s1 Hok1 Hc Hx1); [done|]|].
  { intros E. exfalso. destruct (so_idle _ _ Hok c Hc) as (y & Hy & Hyi & _). change (k_this s c = k_idle s c) in E. cbn in Hy.
    rewrite <-E in Hy. fold t in Hy. assert (y = x) as -> by congruence. rewrite <-Ev in Hi. cbn in Hi. congruence. }
  intros [] s' (Hok' & Hl' & (E1 & E2 & E3 & E4 & E5 & E6 & E7 & E8 & _) & Hd). rewrite andb_false_r in Hd.
  assert (obs s' = <[t := died v]> (obs s)) as Eo.
  { rewrite (obs_dispatched c ZOMBIE _ s1 s' Hx1 Hd). unfold s1. unfold obs. cbn. rewrite fmap_insert, insert_insert_eq. f_equal. by rewrite <-Ev. }
  split; [|done]. split; rewrite ?Eo, ?E1, ?E2, ?E5, ?E6, ?E7, ?E8; try done.
  - apply sem_ok_proc with (v := v); [apply H|done|by rewrite Hk|done|done].
  - apply (tree_ok_died _ debt); try done; [apply H|by left].
  - eapply pid_ok_upd; [apply H|exact Hv|done|done].
  - apply H.
Qed.

(** [exit] after the children have been handed over. *)
Lemma exit_tail_wp c v debt s :
  kmid debt (k_set_sched_lock false s) -> k_sched_lock s = true -> cpu c -> obs s !! k_this s c = Some v -> v_idle v = false ->
  k_this s c <> k_root s -> v_children v = [] -> v_kcontext v = KRun -> (forall p, p <> k_this s c -> debt p = 0) ->
  wp (free_pt (k_this s c);; (release_sched_lock;; (y ← load_proc (k_this s c); post_sem (SChild (p_parent y));;
      (acquire_sched_lock;; (release_plock;; (upd_proc (k_this s c) (p_set_kcontext KDead);; sched invalid_pt sched_timers c ZOMBIE))))))
    (fun _ s' => kinv s' /\ k_root s' = k_root s /\ obs s' !! k_this s c = Some (died v)) s.
Proof.
  intros H Hl Hc Hv Hi Hne Hch Hk Hd. set (t := k_this s c) in *. destruct (proj1 (obs_lookup s t v) Hv) as (x & Hx & Ev).
  wp_prim. eapply free_pt_kmid; [exact H|exact Hx|]. intros s1 H1 _ Et1 Er1 Eo1 Es1. unfold release_sched_lock. wp_prims.
  rewrite <-Eo1 in Hv. destruct (proj1 (obs_lookup s1 t v) Hv) as (x1 & Hx1 & Ev1). eapply wp_load_proc; [exact Hx1|].
  assert (p_parent x1 = v_parent v) as -> by (by rewrite <-Ev1).
  set (s2 := k_set_sched_lock false s1) in *. change (obs s2 !! t = Some v) in Hv.
  assert (v_kind v = Ready) as Hrd by (apply (this_ready c s2); [apply H1|done|cbn; by rewrite Et1]).
  wp_prim. eapply wp_mono; [apply (post_kmid debt); [exact H1|]|].
  { eapply parent_sem; [apply H1|exact Hv|done|cbn; by rewrite Er1|by rewrite Hrd]. }
  cbn beta. intros _ s3 (H3 & Er3 & Et3 & Ea3 & _). change (k_this s3 = k_this s1) in Et3. change (k_root s3 = k_root s1) in Er3. rewrite Et1 in Et3. rewrite Er1 in Er3.
  assert (obs s3 !! t = Some v) as Hv3 by (apply Ea3; [done|by rewrite Hrd]).
  wp_prim. apply wp_acquire_sched; [apply H3|]. set (s4 := k_set_sched_lock true s3).
  assert (t <> v_parent v) as Htp.
  { intros E. assert (v_parent v <> 0) as Hp0 by (apply (to_started _ _ _ _ _ (km_tree _ _ H3) t v Hv3 Hi); [by rewrite Er3|by rewrite Hrd]).
    destruct (to_parent _ _ _ _ _ (km_tree _ _ H3) t v Hv3 Hi) as (w & Hw & Hin); [by rewrite Er3|done|].
    destruct (to_child _ _ _ _ _ (km_tree _ _ H3) _ w t Hw Hin) as (_ & Hn & _). done. }
  assert (t = k_this s4 c) as Et4 by (cbn; by rewrite Et3). rewrite Et4.
  eapply wp_mono; [eapply (sched_zombie_kinv c v _ s4)|].
  - eapply kmid_relock; [exact H3|]. done.
  - done.
  - cbn. by rewrite Et3.
  - done.
  - cbn. by rewrite Et3, Er3.
  - done.
  - done.
  - cbn beta. rewrite decide_True by done. rewrite Hd; [lia|done].
  - intros p H5 H6. cbn in H5. rewrite Et3 in H5. cbn beta. rewrite decide_False by congruence. rewrite Hd by done. lia.
  - cbn. rewrite Et3, Er3. intros [] s5 (H5 & E5 & ->). split; [done|]. split; [done|]. apply lookup_insert_eq.
Qed.

Definition v_set_exitcode (n : Z) (v : pview) : pview := mkPv (v_idle v) (v_pid v) (v_kind v) (v_children v) (v_parent v) (v_kcontext v) n.

(** The state after the locks have been taken and the exit code set. *)
Definition entered (c code : Z) (P : Proc) (s : kstate) : kstate :=
  k_set_procs (<[k_this s c := p_set_exitcode code P]> (k_procs s)) (k_set_sched_lock true (k_set_plock true s)).

Lemma entered_kmid c code P s : kinv s -> is_running s c P -> p_kcontext P = KRun ->
  kmid (fun _ => 0) (k_set_sched_lock false (entered c code P s)) /\ obs (entered c code P s) = <[k_this s c := v_set_exitcode code (view_proc P)]> (obs s).
Proof.
  intros H (Hc & HP & Hs & Hi) Hk. assert (obs (entered c code P s) = <[k_this s c := v_set_exitcode code (view_proc P)]> (obs s)) as Eo.
  { unfold obs, entered. cbn. by rewrite fmap_insert. }
  pose proof (obs_proc s _ P HP) as Ho. split; [|done]. split;
    try change (obs (k_set_sched_lock false (entered c code P s))) with (obs (entered c code P s)); rewrite ?Eo; try done.
  - eapply (sched_ok_upd _ (k_set_sched_lock false (k_set_plock true s)) (k_this s c) P); [|done|done|done]. eapply sched_ok_ext; [apply H|done..].
  - eapply sem_ok_same; [apply H|]. intros p. destruct (decide (p = k_this s c)) as [->|Hne]; [rewrite lookup_insert_eq, Ho; done|by rewrite lookup_insert_ne].
  - eapply tree_ok_change; [apply H|intros p; apply insert_dom; by eexists|done|]. intros p v v' Hv Hv'.
    assert (same_tree v v' /\ v_kcontext v' = v_kcontext v) as [T Ek].
    { destruct (decide (p = k_this s c)) as [->|Hne].
      - rewrite lookup_insert_eq in Hv'. rewrite Ho in Hv. simplify_eq. split; [|done]. split_and!; try done. by left.
      - rewrite lookup_insert_ne in Hv' by done. simplify_eq. split; [apply same_tree_refl|done]. }
    split; [done|]. split; [unfold own_ok; rewrite Ek; by apply (to_own _ _ _ _ _ (ki_tree _ s H) p v)|]. split; [done|].
    intros x x' _ _ Hx Hx'. unfold tokens, pend. rewrite Ek. cbn in Hx'. by simplify_eq.
  - eapply pid_ok_upd; [apply H|exact Ho|done|done].
  - apply H.
Qed.

Lemma adopted_obs s t P root R m s' :
  (forall p, m !! p = if decide (p ∈ p_children P) then p_set_parent root <$> k_procs s !! p else k_procs s !! p) -> t <> root ->
  k_procs s' = <[t := p_set_children [] P]> (<[root := p_set_children (p_children P ++ p_children R) R]> m) ->
  adopted root t (view_proc P) (view_proc R) (obs s) (obs s').
Proof.
  intros Em Hne E. unfold obs. rewrite E, !fmap_insert. split; [by rewrite lookup_insert_eq|]. split; [by rewrite lookup_insert_ne, lookup_insert_eq|].
  intros p Hpt Hpr. rewrite !lookup_insert_ne, !lookup_fmap, Em by done. change (v_children (view_proc P)) with (p_children P).
  destruct (decide (p ∈ p_children P)); by destruct (k_procs s !! p).
Qed.

Lemma adopted_kmid root t v r n s s' :
  kmid (fun _ => 0) (k_set_sched_lock false s) -> root = k_root s -> obs s !! t = Some v -> obs s !! root = Some r -> t <> root ->
  v_kind v = Ready -> v_idle v = false -> Z.of_nat n = Z.of_nat 0 + zombies (obs s) (v_children v) ->
  adopted root t v r (obs s) (obs s') -> sched_ok s' -> k_root s' = k_root s -> k_sems s' = k_sems s -> k_waits s' = k_waits s ->
  k_max_pid s' = k_max_pid s -> k_freepid s' = k_freepid s -> k_sched_lock s' = false -> k_plock s' = k_plock s ->
  kmid (adoption_debt root t v (obs s) (Z.of_nat n)) s'.
Proof.
  intros H Eroot Hv Hr Hne Hk Hi En HA Hok E1 E2 E3 E4 E5 E6 E7. pose proof (km_tree _ _ H) as HT. cbn in HT. change (obs (k_set_sched_lock false s)) with (obs s) in HT.
  rewrite <-Eroot in HT. assert (live (v_kind v)) as Hl by (by left).
  split; rewrite ?E1, ?E2, ?E3, ?E4, ?E5, ?E7; try done.
  - eapply sem_ok_same; [apply H|]. by apply (adopted_same root t v r (obs s) (obs s') _ _ HT).
  - rewrite <-Eroot. eapply tree_ok_debt; [by apply (tree_ok_adopted root t v r (obs s))|]. intros p. unfold adoption_debt. by rewrite En.
  - eapply pid_ok_change; [apply H|]. intros p u' Hu'.
    destruct (adopted_view root t v r (obs s) (obs s') _ _ HT Hv Hr Hne HA Hl Hi p u' Hu') as (u & Hu & Eu1 & _ & _ & Eu2 & _). by exists u.
  - apply H.
  - apply H.
Qed.

Lemma exit_kinv c code P s : kinv s -> is_running s c P -> p_kcontext P = KRun -> k_this s c <> k_root s ->
  wp (exit invalid_pt sched_timers c code) (fun _ s' => kinv s' /\ k_root s' = k_root s /\
    obs s' !! k_this s c = Some (died (v_set_children [] (v_set_exitcode code (view_proc P))))) s.
Proof.
  intros H HR Hk Hne. destruct (entered_kmid c code P s H HR Hk) as [H1 Eo1]. destruct HR as (Hc & HP & Hs & Hi).
  unfold exit, thisproc. wp_prim. apply wp_acquire_plock; [apply H|]. wp_prim. apply wp_acquire_sched; [apply H|]. wp_prims.
  eapply wp_upd_proc; [exact HP|]. set (t := k_this s c) in *. change (k_set_procs _ _) with (entered c code P s). set (s1 := entered c code P s) in *.
  set (P1 := p_set_exitcode code P) in *. assert (k_procs s1 !! t = Some P1) as HP1 by apply lookup_insert_eq.
  wp_prim. eapply wp_load_proc; [exact HP1|]. change (p_children P1) with (p_children P).
  assert (forall q, q ∈ p_children P -> is_Some (k_procs s1 !! q)) as Hch.
  { intros q Hq. destruct (to_child _ _ _ _ _ (ki_tree _ s H) t _ q (obs_proc s t P HP) Hq) as (_ & _ & u & Hu & _).
    apply obs_lookup in Hu as (x & Hx & _). apply insert_dom; [by exists P|by exists x]. }
  destruct (reparent_run (k_root s) (p_children P) 0 s1 Hch) as (n & m & Hrun & En & Em).
  wp_prim. eapply wp_intro; [exact Hrun|]. set (v1 := v_set_exitcode code (view_proc P)) in *.
  assert (obs s1 !! t = Some v1) as Hv1 by (rewrite Eo1; apply lookup_insert_eq).
  wp_prim. case_bool_decide as E.
  - assert (k_set_procs m s1 = s1) as ->.
    { transitivity (k_set_procs (k_procs s1) s1); [|done]. f_equal. apply map_eq. intros p. rewrite Em, decide_False; [done|]. rewrite E. by intros ?%elem_of_nil. }
    wp_prim. eapply wp_mono; [eapply (exit_tail_wp c v1 _ s1 H1); try done|].
    intros [] s' (H' & Er & Eo). split; [done|]. split; [done|]. change (k_this s1 c) with t in Eo. rewrite Eo.
    unfold v1. do 2 f_equal. unfold v_set_children, v_set_exitcode, view_proc. cbn. by rewrite E.
  - destruct (to_root _ _ _ _ _ (km_tree _ _ H1)) as (r & Hr & _). change (obs s1 !! k_root s = Some r) in Hr.
    destruct (proj1 (obs_lookup s1 _ r) Hr) as (R & HR & Er).
    assert (forall q, q ∈ p_children P -> q <> k_root s /\ q <> t) as Hq.
    { intros q Hq. by destruct (to_child _ _ _ _ _ (ki_tree _ s H) t _ q (obs_proc s t P HP) Hq) as (? & ? & _). }
    assert (m !! k_root s = Some R) as HmR by (rewrite Em, decide_False; [done|]; by intros [? _]%Hq).
    assert (m !! t = Some P1) as HmP by (rewrite Em, decide_False; [done|]; by intros [_ ?]%Hq).
    wp_prim. eapply wp_upd_proc; [exact HmR|]. wp_prim. eapply wp_upd_proc; [cbn; rewrite lookup_insert_ne by done; exact HmP|].
    set (s2 := k_set_procs _ _). unfold release_sched_lock. wp_prim. wp_prim. set (s3 := k_set_sched_lock false s2).
    assert (adopted (k_root s) t v1 r (obs s1) (obs s3)) as HA.
    { rewrite <-Er. by apply (adopted_obs s1 t P1 (k_root s) R m). }
    assert (sched_ok s3) as Hok3.
    { apply (sched_ok_same _ (k_set_sched_lock false s1) (k_procs s3) (km_sched _ _ H1)). intros p. change (k_procs (k_set_sched_lock false s1)) with (k_procs s1).
      change (k_procs s3) with (<[t := p_set_children [] P1]> (<[k_root s := p_set_children (p_children P1 ++ p_children R) R]> m)).
      destruct (decide (p = t)) as [->|Hpt]; [by rewrite lookup_insert_eq, HP1|]. rewrite lookup_insert_ne by done.
      destruct (decide (p = k_root s)) as [->|Hpr]; [by rewrite lookup_insert_eq, HR|]. rewrite lookup_insert_ne, Em by done.
      destruct (decide (p ∈ p_children P)); by destruct (k_procs s1 !! p). }
    assert (v_kind v1 = Ready) as Hrd by (cbn; by rewrite Hs).
    assert (kmid (adoption_debt (k_root s) t v1 (obs s1) (Z.of_nat n)) s3) as H3.
    { by apply (adopted_kmid (k_root s) t v1 r n s1 s3 H1 eq_refl Hv1 Hr Hne Hrd Hi En HA Hok3). }
    destruct (to_root _ _ _ _ _ (km_tree _ _ H3)) as (r3 & Hr3 & Hri & _). change (obs s3 !! k_root s = Some r3) in Hr3.
    wp_prim. eapply wp_mono; [apply (post_times_kmid n (k_root s) _ s3 H3); by apply (to_sem _ _ _ _ _ (km_tree _ _ H3) _ r3)|].
    cbn beta. intros _ s4 (H4 & Er4 & Et4 & Ea4 & _). change (k_root s4 = k_root s) in Er4. change (k_this s4 = k_this s) in Et4.
    apply wp_acquire_sched; [apply H4|]. set (s5 := k_set_sched_lock true s4).
    assert (t = k_this s5 c) as Et5 by (cbn; by rewrite Et4). change (k_this (k_set_sched_lock true (k_set_plock true s)) c) with t. rewrite Et5.
    eapply wp_mono; [apply (exit_tail_wp c (v_set_children [] v1) _ s5 (kmid_relock _ s4 _ H4 eq_refl))|]; try done.
    + rewrite <-Et5. apply Ea4; [apply HA|]. cbn. by rewrite Hs.
    + rewrite <-Et5. cbn. by rewrite Er4.
    + rewrite <-Et5. intros p Hp. cbn beta. unfold adoption_debt. destruct (decide (p = k_root s)); [lia|]. by rewrite decide_False.
    + intros [] s' (H' & Er' & Eo). split; [done|]. split; [|done]. rewrite Er'. exact Er4.
Qed.
End exit.
