(* ===== verification/ProcNew.v ===== *)
(** * New processes, [kill], and the entry of a process *)

From Stdlib Require Import ZArith Lia.
From stdpp Require Import base tactics numbers gmap list fin_maps fin_sets.
From S2P Require Import Prelude BlockCache Timer Sched SchedProofs SemProofs ProcProofs ProcExit.

Local Open Scope Z_scope.

(** ** A process that is not in the tree yet *)

Definition new_view (pid : Z) : pview := mkPv false pid Unused [] 0 KRun 0.

Lemma sem_ok_new O S W p v i x :
  sem_ok O S W -> O !! p = None -> S !! i = None -> (forall j w k, v_kcontext v <> KSem j w k) -> v_kind v <> Asleep ->
  s_sleep x = [] -> 0 <= s_val x -> sem_ok (<[p := v]> O) (<[i := x]> S) W.
Proof.
  intros H Hp Hi Hk Ha Hs Hv. split.
  - intros j y [[<- <-]|[_ Hy]]%lookup_insert_Some; [rewrite Hs; constructor|by apply (sm_nodup _ _ _ H j)].
  - intros j y [[<- <-]|[_ Hy]]%lookup_insert_Some; [by left|by apply (sm_val _ _ _ H j)].
  - intros j y w [[<- <-]|[_ Hy]]%lookup_insert_Some Hw; [rewrite Hs in Hw; by apply elem_of_nil in Hw|].
    destruct (sm_sleep _ _ _ H j y w Hy Hw) as (q & u & k & H1 & H2 & H3). exists q, u, k. rewrite lookup_insert_ne; [done|]. intros <-. congruence.
  - intros q u j w k [[<- <-]|[_ Hq]]%lookup_insert_Some Hkc; [by apply Hk in Hkc|].
    destruct (sm_ctx _ _ _ H q u j w k Hq Hkc) as (H1 & y & z & Hy & H2). split; [done|]. exists y, z.
    rewrite lookup_insert_ne; [done|]. intros <-. congruence.
  - intros q u [[<- <-]|[_ Hq]]%lookup_insert_Some Hkd; [done|by apply (sm_asleep _ _ _ H q)].
Qed.

Lemma tree_ok_new root O S W p pid :
  tree_ok root (fun _ => 0) O S W -> O !! p = None -> p <> 0 ->
  tree_ok root (fun _ => 0) (<[p := new_view pid]> O) (<[SChild p := mkSem false 0 []]> S) W.
Proof.
  intros H Hp H0. assert (forall q u, O !! q = Some u -> q <> p) as Hne by (intros q u Hq ->; congruence). split.
  - destruct (to_root _ _ _ _ _ H) as (r & Hr & H1). exists r. rewrite lookup_insert_ne; [done|]. symmetry. by eapply Hne.
  - rewrite lookup_insert_ne by done. apply (to_zero _ _ _ _ _ H).
  - intros q u [[<- <-]|[_ Hq]]%lookup_insert_Some; [constructor|by apply (to_nodup _ _ _ _ _ H q)].
  - intros q u c [[<- <-]|[_ Hq]]%lookup_insert_Some Hc; [by apply elem_of_nil in Hc|].
    destruct (to_child _ _ _ _ _ H q u c Hq Hc) as (H1 & H2 & x & Hx & H3). split; [done|]. split; [done|]. exists x.
    rewrite lookup_insert_ne; [done|]. symmetry. by eapply Hne.
  - intros q u [[<- <-]|[_ Hq]]%lookup_insert_Some Hi Hr Hpar; [done|].
    destruct (to_parent _ _ _ _ _ H q u Hq Hi Hr Hpar) as (x & Hx & Hin). exists x. rewrite lookup_insert_ne; [done|]. symmetry. by eapply Hne.
  - intros q u [[<- <-]|[_ Hq]]%lookup_insert_Some; [done|by apply (to_started _ _ _ _ _ H q u)].
  - intros q u [[<- <-]|[_ Hq]]%lookup_insert_Some; [done|by apply (to_leaf _ _ _ _ _ H q u)].
  - intros q u [[<- <-]|[_ Hq]]%lookup_insert_Some; [done|by apply (to_zombie _ _ _ _ _ H q u)].
  - intros q u [[<- <-]|[_ Hq]]%lookup_insert_Some; [done|by apply (to_unused _ _ _ _ _ H q u)].
  - intros q u [[<- <-]|[_ Hq]]%lookup_insert_Some; [done|by apply (to_idle _ _ _ _ _ H q u)].
  - intros q u [[<- <-]|[Hn Hq]]%lookup_insert_Some Hi; [rewrite lookup_insert_eq; by eexists|].
    rewrite lookup_insert_ne by congruence. by apply (to_sem _ _ _ _ _ H q u).
  - intros q Hq. destruct (decide (p = q)) as [->|Hn]; [rewrite lookup_insert_eq; by eexists|].
    rewrite lookup_insert_ne by done. rewrite lookup_insert_ne in Hq by congruence. by apply (to_dom _ _ _ _ _ H).
  - intros q u [[<- <-]|[_ Hq]]%lookup_insert_Some; [done|by apply (to_own _ _ _ _ _ H q u)].
  - intros q u x [[<- <-]|[Hn Hq]]%lookup_insert_Some Hi Hk Hx; [rewrite lookup_insert_eq in Hx; by injection Hx as <-|].
    rewrite lookup_insert_ne in Hx by congruence. rewrite (zombies_ext O); [by apply (to_count _ _ _ _ _ H)|].
    intros c Hc. destruct (to_child _ _ _ _ _ H q u c Hq Hc) as (_ & _ & y & Hy & _). unfold is_zomb. rewrite lookup_insert_ne; [done|]. symmetry. by eapply Hne.
Qed.

(** [p] becomes a child of [t]. *)
Definition attached (p t : Z) (u v : pview) (O : omap) : omap := <[t := v_set_children (p :: v_children v) v]> (<[p := v_set_parent t u]> O).

Section attach.
Context (root : Z) (O : omap) (S : smap) (W : wmap) (H : tree_ok root (fun _ => 0) O S W).
Context (p t : Z) (u v : pview) (Hp : O !! p = Some u) (Ht : O !! t = Some v).
Context (Hu : v_kind u = Unused) (Hpar : v_parent u = 0) (Hui : v_idle u = false) (Hpr : p <> root) (Hv : live (v_kind v)) (Hvi : v_idle v = false).

Lemma attach_ne : p <> t.
Proof using All. intros ->. assert (u = v) as -> by congruence. destruct Hv; congruence. Qed.

Lemma attach_lookup q w : attached p t u v O !! q = Some w -> exists w0, O !! q = Some w0 /\ sem_view w = sem_view w0 /\ v_pid w = v_pid w0 /\
  v_parent w = (if decide (q = p) then t else v_parent w0) /\ v_children w = (if decide (q = t) then p :: v_children w0 else v_children w0).
Proof using All.
  pose proof attach_ne as Hne. unfold attached. intros [[<- <-]|[H1 [[<- <-]|[H2 Hq]]%lookup_insert_Some]]%lookup_insert_Some.
  - exists v. rewrite decide_False, decide_True by done. done.
  - exists u. rewrite decide_True, decide_False by done. done.
  - exists w. rewrite !decide_False by done. done.
Qed.

Lemma attach_dom q w0 : O !! q = Some w0 -> is_Some (attached p t u v O !! q).
Proof using All. intros Hq. apply insert_dom; [apply insert_dom; [by exists u|by exists v]|]. apply insert_dom; [by exists u|by exists w0]. Qed.

Lemma attach_orphan q w : O !! q = Some w -> p ∉ v_children w.
Proof using All.
  intros Hq Hin. destruct (to_child _ _ _ _ _ H q w p Hq Hin) as (_ & _ & x & Hx & E & _). assert (x = u) as -> by congruence.
  rewrite Hpar in E. subst q. by rewrite (to_zero _ _ _ _ _ H) in Hq.
Qed.

Lemma attach_zomb q : is_zomb (attached p t u v O) q = is_zomb O q.
Proof using All.
  unfold is_zomb. destruct (attached p t u v O !! q) as [w|] eqn:E.
  - destruct (attach_lookup q w E) as (w0 & Hw0 & Es & _). unfold sem_view in Es. injection Es as _ Ek _. by rewrite Hw0, Ek.
  - destruct (O !! q) as [w0|] eqn:E0; [|done]. apply attach_dom in E0 as [? ?]. congruence.
Qed.

Lemma attach_same q : sem_view <$> attached p t u v O !! q = sem_view <$> O !! q.
Proof using All.
  destruct (attached p t u v O !! q) as [w|] eqn:E.
  - destruct (attach_lookup q w E) as (w0 & -> & Es & _). cbn. by f_equal.
  - destruct (O !! q) as [w0|] eqn:E0; [|done]. apply attach_dom in E0 as [? ?]. congruence.
Qed.

Lemma tree_ok_attached : tree_ok root (fun _ => 0) (attached p t u v O) S W.
Proof using All.
  pose proof attach_ne as Hne. assert (t <> 0) as Ht0 by (intros ->; by rewrite (to_zero _ _ _ _ _ H) in Ht).
  assert (forall q w, attached p t u v O !! q = Some w -> exists w0, O !! q = Some w0 /\ v_idle w = v_idle w0 /\ v_kind w = v_kind w0 /\ v_kcontext w = v_kcontext w0 /\
    v_parent w = (if decide (q = p) then t else v_parent w0) /\ v_children w = (if decide (q = t) then p :: v_children w0 else v_children w0)) as B.
  { intros q w Hw. destruct (attach_lookup q w Hw) as (w0 & H1 & E & _ & H2 & H3). unfold sem_view in E. injection E as E1 E2 E3. by exists w0. }
  split.
  - destruct (to_root _ _ _ _ _ H) as (r & Hr & H1 & H2). destruct (attach_dom root r Hr) as [r' Hr']. exists r'.
    destruct (B _ _ Hr') as (r0 & Hr0 & -> & -> & _). assert (r0 = r) as -> by congruence. done.
  - destruct (attached p t u v O !! 0) eqn:E; [|done]. destruct (B _ _ E) as (w0 & Hw0 & _). by rewrite (to_zero _ _ _ _ _ H) in Hw0.
  - intros q w Hw. destruct (B _ _ Hw) as (w0 & Hw0 & _ & _ & _ & _ & ->). case_decide; [|by apply (to_nodup _ _ _ _ _ H q)].
    constructor; [by eapply attach_orphan|by apply (to_nodup _ _ _ _ _ H q)].
  - intros q w c Hw Hc. destruct (B _ _ Hw) as (w0 & Hw0 & _ & _ & _ & _ & Ec). rewrite Ec in Hc.
    assert (q = t /\ c = p \/ c ∈ v_children w0) as [[-> ->]|Hc0] by (case_decide; [apply elem_of_cons in Hc|]; naive_solver).
    + split; [done|]. split; [done|]. destruct (attach_dom p u Hp) as [x Hx]. exists x. destruct (B _ _ Hx) as (x0 & Hx0 & -> & _ & _ & -> & _).
      rewrite decide_True by done. assert (x0 = u) as -> by congruence. done.
    + destruct (to_child _ _ _ _ _ H q w0 c Hw0 Hc0) as (H1 & H2 & x0 & Hx0 & H3 & H4). split; [done|]. split; [done|].
      destruct (attach_dom c x0 Hx0) as [x Hx]. exists x. destruct (B _ _ Hx) as (x1 & Hx1 & -> & _ & _ & -> & _). assert (x1 = x0) as -> by congruence.
      rewrite decide_False; [done|]. intros ->. by apply (attach_orphan q w0).
  - intros q w Hw Hi Hr Hpp. destruct (B _ _ Hw) as (w0 & Hw0 & E1 & _ & _ & Ep & _). rewrite E1 in Hi. rewrite Ep in Hpp |- *.
    destruct (decide (q = p)) as [->|Hqp].
    + destruct (attach_dom t v Ht) as [x Hx]. exists x. split; [done|]. destruct (B _ _ Hx) as (x0 & Hx0 & _ & _ & _ & _ & ->).
      rewrite decide_True by done. left.
    + destruct (to_parent _ _ _ _ _ H q w0 Hw0 Hi Hr Hpp) as (x0 & Hx0 & Hin). destruct (attach_dom _ x0 Hx0) as [x Hx]. exists x. split; [done|].
      destruct (B _ _ Hx) as (x1 & Hx1 & _ & _ & _ & _ & ->). assert (x1 = x0) as -> by congruence. case_decide; [by right|done].
  - intros q w Hw Hi Hr Hk. destruct (B _ _ Hw) as (w0 & Hw0 & E1 & E2 & _ & -> & _). case_decide; [done|]. rewrite E1 in Hi. rewrite E2 in Hk.
    by apply (to_started _ _ _ _ _ H q w0).
  - intros q w Hw Hc. destruct (B _ _ Hw) as (w0 & Hw0 & -> & -> & _ & _ & Ec). rewrite Ec in Hc.
    destruct (decide (q = t)) as [->|Hqt]; [by assert (w0 = v) as -> by congruence|]. by apply (to_leaf _ _ _ _ _ H q w0).
  - intros q w Hw. destruct (B _ _ Hw) as (w0 & Hw0 & -> & -> & -> & _). by apply (to_zombie _ _ _ _ _ H q w0).
  - intros q w Hw. destruct (B _ _ Hw) as (w0 & Hw0 & _ & -> & -> & _). by apply (to_unused _ _ _ _ _ H q w0).
  - intros q w Hw. destruct (B _ _ Hw) as (w0 & Hw0 & -> & _ & -> & _). by apply (to_idle _ _ _ _ _ H q w0).
  - intros q w Hw. destruct (B _ _ Hw) as (w0 & Hw0 & -> & _). by apply (to_sem _ _ _ _ _ H q w0).
  - intros q Hq. destruct (to_dom _ _ _ _ _ H q Hq) as [w0 Hw0]. by eapply attach_dom.
  - intros q w Hw. destruct (B _ _ Hw) as (w0 & Hw0 & _ & _ & Ek & _). unfold own_ok. rewrite Ek. by apply (to_own _ _ _ _ _ H q w0).
  - intros q w x Hw Hi Hk Hx. destruct (B _ _ Hw) as (w0 & Hw0 & E1 & E2 & E3 & _ & Ec). rewrite E1 in Hi. rewrite E2 in Hk.
    rewrite (zombies_ext O) by (intros; apply attach_zomb). unfold tokens, pend. rewrite E3, Ec.
    assert (zombies O (if decide (q = t) then p :: v_children w0 else v_children w0) = zombies O (v_children w0)) as ->.
    { case_decide; [|done]. cbn [zombies foldr]. fold (zombies O (v_children w0)). unfold is_zomb. by rewrite Hp, Hu. }
    by apply (to_count _ _ _ _ _ H q w0 x).
Qed.
End attach.

(** A process of the tree starts. *)
Lemma tree_ok_started root O S W p u e a :
  tree_ok root (fun _ => 0) O S W -> O !! p = Some u -> v_kind u = Unused -> v_idle u = false -> v_parent u <> 0 -> p <> root ->
  tree_ok root (fun _ => 0) (<[p := v_set_kind Ready (v_set_kcontext (KEntry e a) u)]> O) S W.
Proof.
  intros H Hp Hu Hi Hpar Hpr. set (u' := v_set_kind Ready _).
  assert (forall q w, <[p := u']> O !! q = Some w -> exists w0, O !! q = Some w0 /\ v_idle w = v_idle w0 /\ v_parent w = v_parent w0 /\ v_children w = v_children w0 /\
    (q = p -> w = u' /\ w0 = u) /\ (q <> p -> w = w0)) as B.
  { intros q w [[<- <-]|[Hn Hq]]%lookup_insert_Some; [exists u; naive_solver|exists w; naive_solver]. }
  assert (forall q w0, O !! q = Some w0 -> exists w, <[p := u']> O !! q = Some w /\ v_idle w = v_idle w0 /\ v_parent w = v_parent w0 /\ v_children w = v_children w0) as F.
  { intros q w0 Hq. destruct (decide (q = p)) as [->|Hn]; [rewrite lookup_insert_eq; exists u'; simplify_eq; done|]. exists w0. by rewrite lookup_insert_ne. }
  assert (v_children u = []) as Hcu.
  { destruct (v_children u) eqn:E; [done|]. destruct (to_leaf _ _ _ _ _ H p u Hp) as [_ [?|?]]; congruence. }
  assert (forall q, is_zomb (<[p := u']> O) q = is_zomb O q) as Hz.
  { intros q. unfold is_zomb. destruct (decide (q = p)) as [->|Hn]; [by rewrite lookup_insert_eq, Hp, Hu|by rewrite lookup_insert_ne]. }
  split.
  - destruct (to_root _ _ _ _ _ H) as (r & Hr & H1). exists r. by rewrite lookup_insert_ne.
  - destruct (<[p := u']> O !! 0) eqn:E; [|done]. destruct (B _ _ E) as (w0 & Hw0 & _). by rewrite (to_zero _ _ _ _ _ H) in Hw0.
  - intros q w Hw. destruct (B _ _ Hw) as (w0 & Hw0 & _ & _ & -> & _). by apply (to_nodup _ _ _ _ _ H q).
  - intros q w c Hw Hc. destruct (B _ _ Hw) as (w0 & Hw0 & _ & _ & Ec & _). rewrite Ec in Hc.
    destruct (to_child _ _ _ _ _ H q w0 c Hw0 Hc) as (H1 & H2 & x0 & Hx0 & H3 & H4). split; [done|]. split; [done|].
    destruct (F c x0 Hx0) as (x & Hx & E1 & E2 & _). exists x. by rewrite E1, E2.
  - intros q w Hw Hiw Hr Hpp. destruct (B _ _ Hw) as (w0 & Hw0 & E1 & E2 & _). rewrite E1 in Hiw. rewrite E2 in Hpp |- *.
    destruct (to_parent _ _ _ _ _ H q w0 Hw0 Hiw Hr Hpp) as (x0 & Hx0 & Hin). destruct (F _ x0 Hx0) as (x & Hx & _ & _ & Ec). exists x. by rewrite Ec.
  - intros q w Hw Hiw Hr Hk. destruct (B _ _ Hw) as (w0 & Hw0 & E1 & -> & _ & Ep & En).
    destruct (decide (q = p)) as [->|Hn]; [by destruct Ep as [_ ->]|]. rewrite En in Hk, Hiw by done. by apply (to_started _ _ _ _ _ H q w0).
  - intros q w Hw Hc. destruct (B _ _ Hw) as (w0 & Hw0 & _ & _ & Ec & Ep & En). rewrite Ec in Hc.
    destruct (decide (q = p)) as [->|Hn]; [by destruct Ep as [_ ->]|]. rewrite En by done. by apply (to_leaf _ _ _ _ _ H q w0).
  - intros q w Hw Hk. destruct (B _ _ Hw) as (w0 & Hw0 & _ & _ & _ & Ep & En).
    destruct (decide (q = p)) as [->|Hn]; [by destruct Ep as [-> _]|]. rewrite En in * by done. by apply (to_zombie _ _ _ _ _ H q w0).
  - intros q w Hw Hk. destruct (B _ _ Hw) as (w0 & Hw0 & _ & _ & _ & Ep & En).
    destruct (decide (q = p)) as [->|Hn]; [by destruct Ep as [-> _]|]. rewrite En in * by done. by apply (to_unused _ _ _ _ _ H q w0).
  - intros q w Hw Hk. destruct (B _ _ Hw) as (w0 & Hw0 & E1 & _ & _ & Ep & En). rewrite E1 in Hk.
    destruct (decide (q = p)) as [->|Hn]; [destruct Ep as [_ ->]; congruence|]. rewrite En by done. by apply (to_idle _ _ _ _ _ H q w0).
  - intros q w Hw Hk. destruct (B _ _ Hw) as (w0 & Hw0 & E1 & _). rewrite E1 in Hk. by apply (to_sem _ _ _ _ _ H q w0).
  - intros q Hq. destruct (to_dom _ _ _ _ _ H q Hq) as [w0 Hw0]. destruct (F q w0 Hw0) as (w & Hw & _). by exists w.
  - intros q w Hw. destruct (B _ _ Hw) as (w0 & Hw0 & _ & _ & _ & Ep & En).
    destruct (decide (q = p)) as [->|Hn]; [by destruct Ep as [-> _]|]. rewrite En by done. by apply (to_own _ _ _ _ _ H q w0).
  - intros q w x Hw Hiw Hk Hx. rewrite (zombies_ext O) by auto. destruct (B _ _ Hw) as (w0 & Hw0 & _ & _ & _ & Ep & En).
    destruct (decide (q = p)) as [->|Hn].
    + destruct Ep as [-> ->]; [done|]. pose proof (to_count _ _ _ _ _ H p u x Hp Hi) as Hcnt. rewrite Hu in Hcnt. specialize (Hcnt ltac:(done) Hx).
      unfold tokens, pend in *. rewrite (to_unused _ _ _ _ _ H p u Hp Hu) in Hcnt. exact Hcnt.
    + rewrite En in * by done. by apply (to_count _ _ _ _ _ H q w0 x).
Qed.

Lemma pid_ok_new O max free p pid max' free' :
  pid_ok O max free -> O !! p = None ->
  (free = [] /\ pid = max + 1 /\ max' = max + 1 /\ free' = [] \/ free = pid :: free' /\ max' = max) ->
  pid_ok (<[p := new_view pid]> O) max' free'.
Proof.
  intros H Hp Hc. pose proof (pk_max _ _ _ H) as Hm.
  assert (max <= max' /\ (1 <= pid <= max') /\ (pid ∉ free') /\ NoDup free' /\ (forall n, n ∈ free' -> n ∈ free)) as (H1 & H2 & H3 & H4 & H5).
  { destruct Hc as [(-> & -> & -> & ->)|[-> ->]].
    - split_and!; try lia; [by intros ?%elem_of_nil|constructor|done].
    - pose proof (pk_nodup _ _ _ H) as [Hn Hnd]%NoDup_cons. assert (1 <= pid <= max) by (apply (pk_free _ _ _ H); left). split_and!; try done; try lia. intros n ?; by right. }
  assert (forall q v, O !! q = Some v -> v_idle v = false -> v_pid v <> pid) as Hfresh.
  { intros q v Hq Hi. destruct (pk_range _ _ _ H q v Hq Hi) as [Hr Hn]. destruct Hc as [(-> & -> & _)|[-> _]]; [lia|]. intros E. apply Hn. rewrite E. left. }
  split.
  - intros q v [[<- <-]|[_ Hq]]%lookup_insert_Some Hi; [done|]. destruct (pk_range _ _ _ H q v Hq Hi) as [Hr Hn]. split; [lia|]. intros Hin. by apply Hn, H5.
  - intros q r v w [[<- <-]|[_ Hq]]%lookup_insert_Some [[<- <-]|[_ Hr]]%lookup_insert_Some Hi Hj E; [done| | |by apply (pk_inj _ _ _ H q r v w)].
    + by destruct (Hfresh r w Hr Hj).
    + by destruct (Hfresh q v Hq Hi).
  - done.
  - intros n Hn. pose proof (pk_free _ _ _ H n (H5 n Hn)). lia.
  - lia.
Qed.

Section new.
Context (invalid_pt sched_timers junk_elr : Z).
Abbreviation sched_ok := (sched_ok sched_timers).
Abbreviation kinv := (kinv sched_timers).

Lemma sched_ok_new s p x : sched_ok s -> k_procs s !! p = None -> p_state x = UNUSED -> p_idle x = false ->
  sched_ok (k_set_procs (<[p := x]> (k_procs s)) s).
Proof.
  intros H Hp Hs Hi. assert (forall q y, k_procs s !! q = Some y -> <[p := x]> (k_procs s) !! q = Some y) as K.
  { intros q y Hq. rewrite lookup_insert_ne; [done|]. intros <-. congruence. }
  split; cbn; [apply (so_nodup _ s H)| | | |apply (so_inj _ s H)| | |apply (so_idle_inj _ s H)|apply (so_timer _ s H)].
  - intros q. rewrite (so_rq _ s H). split; intros (y & Hy & H2); [exists y; auto|].
    apply lookup_insert_Some in Hy as [[<- <-]|[_ Hy]]; [rewrite Hs in H2; by destruct H2|by exists y].
  - intros c Hc. destruct (so_this _ s H c Hc) as (y & Hy & H2). exists y. auto.
  - intros q y [[<- <-]|[_ Hy]]%lookup_insert_Some Hr; [congruence|by apply (so_running _ s H q y)].
  - intros c Hc. destruct (so_idle _ s H c Hc) as (y & Hy & H2). exists y. auto.
  - intros c y Hc [[E <-]|[_ Hy]]%lookup_insert_Some Hyi; [congruence|by apply (so_own _ s H c y)].
Qed.

(** What [create_proc] returns: a process of its own identifier, outside the tree. *)
Definition created (p : Z) (s s' : kstate) : Prop :=
  p <> 0 /\ k_procs s !! p = None /\ exists pid, obs s' = <[p := new_view pid]> (obs s) /\
  (forall q v, obs s !! q = Some v -> v_idle v = false -> v_pid v <> pid).

Lemma create_kinv s : kinv s ->
  wp (create_proc junk_elr) (fun p s' => kinv s' /\ created p s s' /\ k_this s' = k_this s /\ k_root s' = k_root s) s.
Proof.
  intros H. unfold create_proc, kalloc_proc, init_proc, get_pid, init_sem, store_sem, alloc_page, release_plock. wp_prims.
  set (p := fresh _). assert (p ∉ {[0]} ∪ dom (k_procs s)) as Hf by apply is_fresh.
  apply not_elem_of_union in Hf as [H0 Hd]. rewrite not_elem_of_singleton in H0. apply not_elem_of_dom in Hd.
  assert (obs s !! p = None) as Ho by (unfold obs; by rewrite lookup_fmap, Hd).
  assert (k_sems s !! SChild p = None) as Hs0.
  { destruct (k_sems s !! SChild p) eqn:E; [|done]. destruct (to_dom _ _ _ _ _ (ki_tree _ s H) p) as [? ?]; [by eexists|]. congruence. }
  apply wp_acquire_plock; [apply H|].
  set (R := fun (pid : Z) (s1 : kstate) => exists max' free', s1 = k_set_pids max' free' (k_set_plock true s) /\
    (k_freepid s = [] /\ pid = k_max_pid s + 1 /\ max' = k_max_pid s + 1 /\ free' = [] \/ k_freepid s = pid :: free' /\ max' = k_max_pid s)).
  wp_prim. eapply (wp_mono _ R); [unfold R; wp_prim; wp_prim; destruct (k_freepid s) as [|pid l] eqn:E; cbn; rewrite E; wp_prims|].
  { eexists _, _. split; [done|]. left. done. }
  { eexists _, _. split; [done|]. by right. }
  intros pid s1 (max' & free' & -> & Hpid). wp_prims. set (x := mkProc _ _ _ _ _ _ _ _ _ _ _). set (s2 := k_set_plock false _).
  assert (obs s2 = <[p := new_view pid]> (obs s)) as Eo by (unfold obs; cbn; by rewrite fmap_insert).
  split; [|split; [|done]].
  - split; rewrite ?Eo; try done.
    + eapply (sched_ok_ext _ (k_set_procs (<[p := x]> (k_procs s)) s)); [by apply sched_ok_new; [apply H| | |]|done..].
    + cbn. apply sem_ok_new; [apply H|done..].
    + cbn. apply tree_ok_new; [apply H|done..].
    + cbn. eapply pid_ok_new; [apply H|done|done].
    + apply H.
    + cbn. apply unlocked_insert; [apply H|done].
  - split; [done|]. split; [done|]. exists pid. split; [done|]. intros q v Hq Hi E.
    destruct (pk_range _ _ _ (ki_pid _ s H) q v Hq Hi) as [Hr Hn]. destruct Hpid as [(_ & -> & _)|[E2 _]]; [lia|]. apply Hn. rewrite E2, E. left.
Qed.

(** Linking a new process to its parent. *)
Lemma attach_state s p t P T s' :
  kinv s -> k_procs s !! p = Some P -> k_procs s !! t = Some T -> p_state P = UNUSED -> p_parent P = 0 -> p_idle P = false -> p <> k_root s ->
  live (kind_of (p_state T)) -> p_idle T = false ->
  k_procs s' = <[t := p_set_children (p :: p_children T) T]> (<[p := p_set_parent t P]> (k_procs s)) ->
  s' = k_set_procs (k_procs s') s -> kinv s'.
Proof.
  intros H HP HT Hs Hpar Hi Hpr Hl HTi E ->. set (m := k_procs s') in *. set (s2 := k_set_procs m s).
  pose proof (obs_proc s p P HP) as Hop. pose proof (obs_proc s t T HT) as Hot.
  assert (v_kind (view_proc P) = Unused) as Hu by (cbn; by rewrite Hs).
  assert (obs s2 = attached p t (view_proc P) (view_proc T) (obs s)) as Eo by (unfold obs, s2, attached; cbn; by rewrite E, !fmap_insert).
  assert (p <> t) as Hne by (by apply (attach_ne _ _ _ _ (ki_tree _ s H) p t _ _ Hop Hot)).
  split; rewrite ?Eo; try apply H.
  - apply sched_ok_same; [apply H|]. intros q. rewrite E. destruct (decide (q = t)) as [->|Hqt]; [by rewrite lookup_insert_eq, HT|].
    rewrite lookup_insert_ne by done. destruct (decide (q = p)) as [->|Hqp]; [by rewrite lookup_insert_eq, HP|]. by rewrite lookup_insert_ne.
  - eapply sem_ok_same; [apply H|]. by apply (attach_same _ _ _ _ (ki_tree _ s H)).
  - by apply (tree_ok_attached _ _ _ _ (ki_tree _ s H)).
  - eapply pid_ok_change; [apply H|]. intros q w Hw.
    destruct (attach_lookup _ _ _ _ (ki_tree _ s H) p t _ _ Hop Hot Hu Hpar Hi Hpr Hl HTi q w Hw) as (w0 & Hw0 & Es & Ep & _).
    injection Es as E1 _ _. by exists w0.
Qed.

Lemma set_parent_kinv c p P T s :
  kinv s -> is_running s c T -> k_procs s !! p = Some P -> p_state P = UNUSED -> p_parent P = 0 -> p_idle P = false -> p <> k_root s ->
  wp (set_parent_to_this c p) (fun _ s' => kinv s' /\ k_this s' = k_this s /\ k_root s' = k_root s /\ k_procs s' !! p = Some (p_set_parent (k_this s c) P)) s.
Proof.
  intros H (Hc & HT & HTs & HTi) HP Hs Hpar Hi Hpr. unfold set_parent_to_this, thisproc, add_child, release_plock.
  assert (p <> k_this s c) as Hne by (intros ->; simplify_eq; congruence).
  wp_prim. apply wp_acquire_plock; [apply H|]. wp_prims. eapply wp_upd_proc; [exact HP|]. wp_prim. eapply wp_upd_proc; [cbn; by rewrite lookup_insert_ne|].
  wp_prims. set (s' := k_set_plock false _). split; [|split; [done|]; split; [done|cbn; by rewrite lookup_insert_ne, lookup_insert_eq]].
  eapply (attach_state s p (k_this s c) P T s'); try done; [left; by rewrite HTs|].
  unfold s'. cbn. unfold k_set_procs, k_set_plock. cbn. by rewrite (ki_plock _ s H).
Qed.

Lemma start_tail_wp p P e a s :
  kinv s -> k_procs s !! p = Some P -> p_state P = UNUSED -> p_parent P <> 0 -> p_idle P = false -> p <> k_root s ->
  wp (upd_proc p (p_set_kcontext (KEntry e a));; (activate_proc p;; mret (p_pid P))) (fun r s' => kinv s' /\ k_this s' = k_this s /\ k_root s' = k_root s /\
    r = p_pid P /\ k_procs s' = <[p := p_set_state RUNNABLE (p_set_kcontext (KEntry e a) P)]> (k_procs s)) s.
Proof.
  intros H HP Hs Hpar Hi Hpr. wp_prim. eapply wp_upd_proc; [exact HP|]. set (P1 := p_set_kcontext (KEntry e a) P). set (s1 := k_set_procs _ s).
  assert (sched_ok s1) as Hok1 by (eapply sched_ok_upd; [apply H|exact HP|done|done]).
  assert (k_procs s1 !! p = Some P1) as HP1 by apply lookup_insert_eq.
  wp_prim. eapply wp_mono; [apply (activate_wp sched_timers p false P1 s1 Hok1 (ki_lock _ s H) HP1 Hi)|].
  assert (wakes (p_state P1) false = true) as -> by (cbn; by rewrite Hs).
  intros r s2 (_ & Hok2 & Hl2 & (E1 & E2 & E3 & E4 & E5 & E6 & E7 & E8 & _) & Et & Ep). wp_prims.
  pose proof (obs_proc s p P HP) as Ho.
  assert (obs s2 = <[p := v_set_kind Ready (v_set_kcontext (KEntry e a) (view_proc P))]> (obs s)) as Eo.
  { unfold obs. rewrite Ep. cbn. by rewrite !fmap_insert, insert_insert_eq. }
  assert (v_kind (view_proc P) = Unused) as Hu by (cbn; by rewrite Hs).
  split; [|split; [done|]; split; [done|]; split; [done|]; rewrite Ep; cbn; by rewrite insert_insert_eq].
  split; rewrite ?Eo, ?E1, ?E2, ?E5, ?E6, ?E7, ?E8; try done; cbn -[obs].
  - apply sem_ok_proc with (v := view_proc P); [apply H|done| |done|done]. rewrite (to_unused _ _ _ _ _ (ki_tree _ s H) p _ Ho Hu). done.
  - apply tree_ok_started; [apply H|done..].
  - eapply pid_ok_upd; [apply H|exact Ho|done|done].
  - apply H.
  - apply H.
Qed.

(** [start_proc] on a process that has a parent. *)
Lemma start_child_wp p P e a s :
  kinv s -> k_procs s !! p = Some P -> p_state P = UNUSED -> p_parent P <> 0 -> p_idle P = false -> p <> k_root s ->
  wp (start_proc p e a) (fun r s' => kinv s' /\ k_this s' = k_this s /\ k_root s' = k_root s /\
    r = p_pid P /\ k_procs s' = <[p := p_set_state RUNNABLE (p_set_kcontext (KEntry e a) P)]> (k_procs s)) s.
Proof.
  intros H HP Hs Hpar Hi Hpr. unfold start_proc, add_child, release_plock. wp_prim. apply wp_acquire_plock; [apply H|].
  wp_prim. eapply wp_load_proc; [exact HP|]. wp_prim. wp_prim. wp_prim. rewrite (proj2 (Z.eqb_neq _ 0) Hpar). wp_prim. wp_prim. wp_prim. set (s1 := k_set_plock false _).
  assert (s1 = s) as -> by (unfold s1, k_set_plock; destruct s; cbn; f_equal; symmetry; apply (ki_plock _ _ H)).
  by apply (start_tail_wp p P e a s H).
Qed.

(** [start_proc]: the process becomes runnable, as a child of [root_proc] if it
    has no parent yet. *)
Lemma start_kinv p P e a s :
  kinv s -> k_procs s !! p = Some P -> p_state P = UNUSED -> p_idle P = false -> p <> k_root s ->
  wp (start_proc p e a) (fun r s' => kinv s' /\ k_this s' = k_this s /\ k_root s' = k_root s /\
    r = p_pid P /\ exists P', k_procs s' !! p = Some P' /\ p_state P' = RUNNABLE /\ p_kcontext P' = KEntry e a /\
      p_parent P' = (if p_parent P =? 0 then k_root s else p_parent P)) s.
Proof.
  intros H HP Hs Hi Hpr. destruct (decide (p_parent P = 0)) as [E0|E0].
  2: { rewrite (proj2 (Z.eqb_neq _ 0) E0). eapply wp_mono; [by apply (start_child_wp p P e a s H)|]. intros r s' (H1 & H2 & H3 & H4 & Ep).
    split_and!; try done. eexists. by rewrite Ep, lookup_insert_eq. }
  unfold start_proc, add_child, release_plock. wp_prim. apply wp_acquire_plock; [apply H|].
  wp_prim. eapply wp_load_proc; [exact HP|]. wp_prim. wp_prim. change (k_root (k_set_plock true s)) with (k_root s).
  destruct (to_root _ _ _ _ _ (ki_tree _ s H)) as (r & Hr & Hri & Hrl). destruct (proj1 (obs_lookup s _ r) Hr) as (R & HR & <-).
  wp_prim. rewrite (proj2 (Z.eqb_eq _ 0) E0).
  wp_prim. eapply wp_upd_proc; [exact HP|]. eapply wp_upd_proc; [cbn; by rewrite lookup_insert_ne|]. wp_prim. wp_prim.
  set (s1 := k_set_plock false _).
  assert (kinv s1) as H1.
  { eapply (attach_state s p (k_root s) P R s1); try done. unfold s1, k_set_procs, k_set_plock. cbn. by rewrite (ki_plock _ s H). }
  eapply wp_mono; [apply (start_tail_wp p (p_set_parent (k_root s) P) e a s1 H1); try done|].
  - cbn. by rewrite lookup_insert_ne, lookup_insert_eq by done.
  - cbn. intros E. rewrite E in Hr. by rewrite (to_zero _ _ _ _ _ (ki_tree _ s H)) in Hr.
  - intros q s' (G1 & G2 & G3 & G4 & Ep). split_and!; try done. eexists. by rewrite Ep, lookup_insert_eq.
Qed.

(** The first instructions of a process ([proc_entry]). *)
Lemma entry_kinv c e a P s :
  kinv s -> is_running s c P -> p_kcontext P = KEntry e a ->
  wp (upd_proc (k_this s c) (p_set_kcontext KRun)) (fun _ s' => kinv s') s.
Proof.
  intros H (Hc & HP & Hs & Hi) Hk. eapply wp_upd_proc; [exact HP|]. set (s1 := k_set_procs _ s). pose proof (obs_proc s _ P HP) as Ho.
  assert (obs s1 = <[k_this s c := v_set_kcontext KRun (view_proc P)]> (obs s)) as Eo by (unfold obs; cbn; by rewrite fmap_insert).
  assert (v_kind (view_proc P) = Ready) as Hrd by (cbn; by rewrite Hs).
  split; rewrite ?Eo; try apply H.
  - eapply sched_ok_upd; [apply H|exact HP|done|done].
  - apply sem_ok_proc with (v := view_proc P); [apply H|done|cbn; by rewrite Hk|done|cbn; by rewrite Hs].
  - eapply tree_ok_change; [apply H|intros p; apply insert_dom; by eexists|done|]. intros p v v' Hv Hv'.
    destruct (decide (p = k_this s c)) as [->|Hne].
    + rewrite lookup_insert_eq in Hv'. rewrite Ho in Hv. injection Hv as <-. injection Hv' as <-. split; [split_and!; try done; by left|]. split; [done|].
      split; [rewrite Hrd; cbn; rewrite Hi; naive_solver|]. intros x x' _ _ Hx Hx'. change (k_sems s1) with (k_sems s) in Hx'. assert (x' = x) as -> by congruence.
      unfold tokens, pend. cbn. by rewrite Hk.
    + rewrite lookup_insert_ne in Hv' by done. assert (v' = v) as -> by congruence. split; [apply same_tree_refl|].
      split; [by apply (to_own _ _ _ _ _ (ki_tree _ s H) p)|]. split; [done|]. intros x x' _ _ Hx Hx'. change (k_sems s1) with (k_sems s) in Hx'. by assert (x' = x) as -> by congruence.
  - eapply pid_ok_upd; [apply H|exact Ho|done|done].
Qed.
End new.
