(* ===== verification/ProcKill.v ===== *)
(** * [kill]: the search in the process tree ends, and finds a started process *)

From Stdlib Require Import ZArith Lia.
From stdpp Require Import base tactics numbers gmap list fin_maps fin_sets.
From S2P Require Import Prelude BlockCache Timer Sched SchedProofs SemProofs ProcProofs.

Local Open Scope Z_scope.

(** ** Paths of the tree *)

(** [l] is a way from its head up to the root. *)
Inductive path (root : Z) (O : omap) : list Z -> Prop :=
| path_root : path root O [root]
| path_child p v q l : path root O (p :: l) -> O !! p = Some v -> q ∈ v_children v -> path root O (q :: p :: l).

Section path.
Context (root : Z) (debt : Z -> Z) (O : omap) (S : smap) (W : wmap) (H : tree_ok root debt O S W).

Lemma path_dom l q : path root O l -> q ∈ l -> exists v, O !! q = Some v /\ v_idle v = false.
Proof using All.
  induction 1 as [|p v r l Hl IH Hp Hr]; intros Hq.
  - apply list_elem_of_singleton in Hq as ->. destruct (to_root _ _ _ _ _ H) as (v & Hv & Hi & _). by exists v.
  - apply elem_of_cons in Hq as [->|Hq]; [|by apply IH].
    destruct (to_child _ _ _ _ _ H p v r Hp Hr) as (_ & _ & u & Hu & _ & Hi). by exists u.
Qed.

Lemma path_suffix a l : path root O (a ++ l) -> l <> [] -> path root O l.
Proof using Type.
  induction a as [|x a IH]; intros Hp Hl; [done|]. apply IH; [|done]. cbn in Hp. inversion Hp as [E|p v q l' Hl' Hv Hq]; [|by subst].
  destruct a; [|done]. by destruct l.
Qed.

(** There is one way up. *)
Lemma path_unique q l k : path root O (q :: l) -> path root O (q :: k) -> l = k.
Proof using All.
  revert q k. induction l as [|p l IH]; intros q k Hl Hk.
  - inversion Hl as [E|]; subst. inversion Hk as [|p v q' k' _ Hv Hq]; [done|]. subst. by destruct (to_child _ _ _ _ _ H p v _ Hv Hq).
  - inversion Hl as [|p' v q' l' Hp Hv Hq]; subst. destruct (to_child _ _ _ _ _ H p v q Hv Hq) as (Hr & _ & u & Hu & E & _).
    inversion Hk as [E2|p2 v2 q2 k' Hp2 Hv2 Hq2]; subst; [done|].
    destruct (to_child _ _ _ _ _ H p2 v2 q Hv2 Hq2) as (_ & _ & u2 & Hu2 & E2 & _). assert (u2 = u) as -> by congruence.
    subst p2. f_equal. by apply (IH (v_parent u)).
Qed.

Lemma path_nodup l : path root O l -> NoDup l.
Proof using All.
  induction 1 as [|p v q l Hl IH Hp Hq]; [apply NoDup_singleton|]. constructor; [|done]. intros (a & b & E)%list_elem_of_split.
  assert (path root O (q :: b)) as Hb by (apply (path_suffix a); [by rewrite <-E|done]).
  assert (path root O (q :: p :: l)) as Hc by (by econstructor). pose proof (path_unique q _ _ Hb Hc) as ->.
  apply (f_equal length) in E. rewrite length_app in E. cbn in E. lia.
Qed.

Lemma path_length l : path root O l -> (length l <= size O)%nat.
Proof using All.
  intros Hl. rewrite <-(size_list_to_set (C := gset Z) l) by (by eapply path_nodup). rewrite <-(size_dom (D := gset Z) O). apply subseteq_size.
  intros q Hq%elem_of_list_to_set. apply elem_of_dom. destruct (path_dom l q Hl Hq) as (v & Hv & _). by exists v.
Qed.
End path.

(** ** Alerting a sleeper *)

Lemma sem_ok_alerted O S W p v : sem_ok O S W -> O !! p = Some v -> v_kind v = Asleep -> sem_ok (<[p := v_set_kind Ready v]> O) S W.
Proof.
  intros H Hp Hk. split; [apply (sm_nodup _ _ _ H)|apply (sm_val _ _ _ H)| | |].
  - intros i x w Hx Hw. destruct (sm_sleep _ _ _ H i x w Hx Hw) as (q & u & k & H1 & H2 & H3).
    destruct (decide (q = p)) as [->|Hne]; [|exists q, u, k; by rewrite lookup_insert_ne]. assert (u = v) as -> by congruence.
    exists p, (v_set_kind Ready v), k. by rewrite lookup_insert_eq.
  - intros q u i w k [[<- <-]|[_ Hq]]%lookup_insert_Some Hkc; [|by apply (sm_ctx _ _ _ H q u i w k)].
    destruct (sm_ctx _ _ _ H p v i w k Hp Hkc) as (H1 & x & y & H2 & H3 & H4 & H5 & _). split; [done|]. exists x, y. split_and!; try done. by left.
  - intros q u [[<- <-]|[_ Hq]]%lookup_insert_Some; [done|]. by apply (sm_asleep _ _ _ H q).
Qed.

(** ** The search *)

Section kill.
Context (sched_timers : Z).
Abbreviation kinv := (kinv sched_timers).

(** A process that [kill] may hit: started, in the tree, with this identifier. *)
Definition target (s : kstate) (pid t : Z) : Prop :=
  exists x, k_procs s !! t = Some x /\ p_pid x = pid /\ p_state x <> UNUSED /\ p_idle x = false.

(** [q] is reached from the head of [l]. *)
Definition below (s : kstate) (l : list Z) (q : Z) : Prop := exists k, path (k_root s) (obs s) (q :: k) /\ exists a, q :: k = a ++ l.

Lemma is_unused_run p x s : k_procs s !! p = Some x -> k_sched_lock s = false -> is_unused p s = Ret (bool_decide (p_state x = UNUSED), s).
Proof.
  intros Hp Hl. unfold is_unused, acquire_sched_lock, release_sched_lock, load_proc, some_or_ub, mbind, M_bind, gets, modify, mret, M_ret.
  rewrite Hl. cbn. rewrite Hp. do 2 f_equal. destruct s. cbn in *. by subst.
Qed.

Lemma below_children s l p x q : k_procs s !! p = Some x -> below s (p :: l) q -> q = p \/ exists c, c ∈ p_children x /\ below s (c :: p :: l) q.
Proof.
  intros Hp (k & Hk & a & E). destruct a as [|b a] using rev_ind; [left; by injection E|]. clear IHa. right. rewrite <-app_assoc in E. cbn in E.
  assert (path (k_root s) (obs s) (b :: p :: l)) as Hb by (apply (path_suffix _ _ a); [by rewrite <-E|done]).
  exists b. split; [|exists k; split; [done|by exists a]].
  inversion Hb as [|p' v q' l' Hp' Hv Hq]; subst. rewrite (obs_proc s p x Hp) in Hv. by injection Hv as <-.
Qed.

Lemma find_proc_run n pid s : forall p l,
  tree_ok (k_root s) (fun _ => 0) (obs s) (k_sems s) (k_waits s) -> k_sched_lock s = false ->
  path (k_root s) (obs s) (p :: l) -> (size (k_procs s) <= length l + n)%nat ->
  exists r, find_proc n pid p s = Ret (r, s) /\
    match r with Some t => target s pid t | None => forall q, below s (p :: l) q -> ~ target s pid q end.
Proof.
  induction n as [|n IH]; intros p l HT Hl Hp Hn.
  { pose proof (path_length _ _ _ _ _ HT (p :: l) Hp) as Hlen. unfold obs in Hlen. rewrite map_size_fmap in Hlen. cbn in Hlen. lia. }
  destruct (path_dom _ _ _ _ _ HT (p :: l) p Hp) as (v & Hv & Hi); [left|]. destruct (proj1 (obs_lookup s p v) Hv) as (x & Hx & <-).
  assert (load_proc p s = Ret (x, s)) as Hload by (unfold load_proc, some_or_ub; by rewrite Hx).
  assert (forall cs, (forall c, c ∈ cs -> c ∈ p_children x) ->
    exists r, (fix search (l : list Z) : KM (option Z) := match l with [] => mret None | q :: l' =>
      temp ← find_proc n pid q; match temp with Some r => mret (Some r) | None => search l' end end) cs s = Ret (r, s) /\
    match r with Some t => target s pid t | None => forall c q, c ∈ cs -> below s (c :: p :: l) q -> ~ target s pid q end) as Hsearch.
  { induction cs as [|c cs IHc]; intros Hcs; [exists None; split; [done|]; by intros c q ?%elem_of_nil|].
    destruct (IH c (p :: l)) as (r & Hr & Hrs); [done|done|econstructor; [done|exact Hv|cbn; apply Hcs; left]|cbn; lia|].
    destruct r as [t|]; [exists (Some t); split; [unfold mbind, M_bind; by rewrite Hr|done]|].
    destruct IHc as (r & Hr2 & Hrs2); [intros d Hd; apply Hcs; by right|]. exists r. split; [unfold mbind, M_bind; rewrite Hr; exact Hr2|].
    destruct r; [done|]. intros d q [->|Hd]%elem_of_cons; [apply Hrs|by apply Hrs2]. }
  destruct (Hsearch (p_children x)) as (r & Hr & Hrs); [done|].
  cbn [find_proc]. unfold mbind at 1, M_bind at 1. rewrite Hload.
  destruct (Z.eqb_spec (p_pid x) pid) as [E|E].
  - unfold mbind at 1, M_bind at 1. rewrite (is_unused_run p x s Hx Hl). case_bool_decide as Eu; cbn [negb].
    + exists r. split; [exact Hr|]. destruct r; [done|]. intros q Hq. destruct (below_children s l p x q Hx Hq) as [->|(c & Hc & Hb)]; [|by apply (Hrs c)].
      intros (y & Hy & _ & Hn' & _). simplify_eq.
    + exists (Some p). split; [done|]. by exists x.
  - exists r. split; [exact Hr|]. destruct r; [done|]. intros q Hq. destruct (below_children s l p x q Hx Hq) as [->|(c & Hc & Hb)]; [|by apply (Hrs c)].
    intros (y & Hy & Hpid & _). simplify_eq.
Qed.

Lemma plock_same s : kinv s -> k_set_plock false (k_set_plock true s) = s.
Proof. intros H. destruct s. unfold k_set_plock. cbn. f_equal. symmetry. apply (ki_plock _ _ H). Qed.

(** The process after the flag is set: it is awake unless its sleep is
    unalertable. *)
Definition marked (x : Proc) : Proc :=
  p_set_state (match p_state x with SLEEPING => RUNNABLE | st => st end) (p_set_killed x).

(** Setting the flag and waking the target. *)
Lemma kill_target_wp t x s : kinv s -> k_procs s !! t = Some x -> p_state x <> UNUSED -> p_idle x = false ->
  wp (upd_proc t p_set_killed;; (alert_proc t;; mret 0)) (fun r s' => kinv s' /\ k_this s' = k_this s /\ k_root s' = k_root s /\ r = 0 /\
    k_procs s' = <[t := marked x]> (k_procs s)) s.
Proof.
  intros H Hx Hs Hi. wp_prim. eapply wp_upd_proc; [exact Hx|]. set (s1 := k_set_procs _ s). set (x1 := p_set_killed x).
  assert (sched_ok sched_timers s1) as Hok1 by (eapply sched_ok_upd; [apply H|exact Hx|done|done]).
  assert (k_procs s1 !! t = Some x1) as Hx1 by apply lookup_insert_eq.
  assert (obs s1 = obs s) as Eo1 by (unfold obs; cbn; rewrite fmap_insert; apply insert_id; by rewrite lookup_fmap, Hx).
  wp_prim. eapply wp_mono; [apply (activate_wp sched_timers t true x1 s1 Hok1 (ki_lock _ s H) Hx1 Hi)|].
  intros r s2 (_ & Hok2 & Hl2 & (E1 & E2 & E3 & E4 & E5 & E6 & E7 & E8 & E9) & Et & Ep). wp_prims.
  change (p_state x1) with (p_state x) in Ep. destruct (wakes (p_state x) true) eqn:Hw.
  - assert (p_state x = SLEEPING) as Hsl by (destruct (p_state x); done).
    assert (v_kind (view_proc x) = Asleep) as Ha by (cbn; by rewrite Hsl). pose proof (obs_proc s t x Hx) as Ho.
    assert (obs s2 = <[t := v_set_kind Ready (view_proc x)]> (obs s)) as Eo by (unfold obs; rewrite Ep; cbn; by rewrite !fmap_insert, insert_insert_eq).
    split; [|split; [done|]; split; [done|]; split; [done|]; rewrite Ep; cbn; unfold marked; by rewrite insert_insert_eq, Hsl].
    split; rewrite ?Eo, ?E1, ?E2, ?E5, ?E6, ?E7, ?E8; try done; cbn -[obs].
    + apply sem_ok_alerted; [apply H|done|done].
    + eapply tree_ok_change; [apply H|intros p; apply insert_dom; by eexists|done|]. intros p v v' Hv Hv'.
      assert (same_tree v v' /\ v_kcontext v' = v_kcontext v) as [T Ek].
      { apply lookup_insert_Some in Hv' as [[<- <-]|[_ Hv']]; [|assert (v' = v) as -> by congruence; split; [apply same_tree_refl|done]].
        rewrite Ho in Hv. injection Hv as <-. split; [|done]. split_and!; try done. right. split; [by right|by left]. }
      split; [done|]. split; [unfold own_ok; rewrite Ek; by apply (to_own _ _ _ _ _ (ki_tree _ s H) p v)|]. split; [done|].
      intros y y' _ _ Hy Hy'. assert (y' = y) as -> by congruence. unfold tokens, pend. by rewrite Ek.
    + eapply pid_ok_upd; [apply H|exact Ho|done|done].
    + apply H.
    + apply H.
  - split; [|split; [done|]; split; [done|]; split; [done|]; rewrite Ep; cbn; f_equal; unfold x1, marked; destruct x as [? ? ? ? []]; done].
    apply (kinv_ext _ s); [done|done|done|split_and!; done|]. rewrite <-Eo1. unfold obs. by rewrite Ep.
Qed.

(** [kill]: 0 when a started process of the tree has this identifier and runs in
    user space, and then it is marked and no other process changes; else -1. *)
Definition killed (pid : Z) (s : kstate) (r : Z) (s' : kstate) : Prop :=
  r = 0 /\ (exists t x, target s pid t /\ k_procs s !! t = Some x /\ Z.shiftr (p_elr x) 48 = 0 /\ k_procs s' = <[t := marked x]> (k_procs s)) \/
  r = -1 /\ s' = s /\ forall t, below s [k_root s] t -> target s pid t -> exists x, k_procs s !! t = Some x /\ Z.shiftr (p_elr x) 48 <> 0.

Lemma target_unique s pid t u : kinv s -> target s pid t -> target s pid u -> t = u.
Proof.
  intros H (x & Hx & E1 & _ & Hi) (y & Hy & E2 & _ & Hj).
  apply (pk_inj _ _ _ (ki_pid _ s H) t u (view_proc x) (view_proc y)); [by apply obs_proc|by apply obs_proc|done|done|cbn; congruence].
Qed.

Lemma kill_kinv pid s : kinv s -> wp (kill pid) (fun r s' => kinv s' /\ k_this s' = k_this s /\ k_root s' = k_root s /\ killed pid s r s') s.
Proof.
  intros H. unfold kill, release_plock. wp_prim. apply wp_acquire_plock; [apply H|]. wp_prims. set (s0 := k_set_plock true s).
  destruct (find_proc_run (size (k_procs s0)) pid s0 (k_root s0) []) as (r & Hr & Hrs); [apply H|apply H|constructor|cbn; lia|].
  eapply wp_intro; [exact Hr|]. wp_prims. unfold s0. rewrite plock_same by done. destruct r as [t|].
  - destruct Hrs as (x & Hx & Hpid & Hs & Hi). wp_prim. eapply wp_load_proc; [exact Hx|]. destruct (Z.eqb_spec (Z.shiftr (p_elr x) 48) 0) as [E|E].
    + eapply wp_mono; [by apply (kill_target_wp t x s)|]. intros r s' (H1 & H2 & H3 & -> & H4). split_and!; try done. left. split; [done|].
      exists t, x. split; [by exists x|done].
    + wp_prims. split_and!; try done. right. split; [done|]. split; [done|]. intros u _ Hu.
      assert (u = t) as -> by (eapply target_unique; [done|exact Hu|by exists x]). by exists x.
  - wp_prims. split_and!; try done. right. split; [done|]. split; [done|]. intros u Hb Hu. by destruct (Hrs u Hb).
Qed.
End kill.
