(* ===== verification/Kernel.v ===== *)
(** * Interleaved kernel calls: the invariant of every reachable state

    A [call] is a piece of kernel code that runs without a switch of process in
    its middle; the calls of all CPUs interleave.  [enabled] says when the code
    makes the call: on the process that runs on the CPU, outside another call. *)

From Stdlib Require Import ZArith Lia.
From stdpp Require Import base tactics numbers gmap list fin_maps fin_sets relations.
From S2P Require Import Prelude BlockCache Timer Sched SchedProofs SemProofs ProcProofs ProcLife ProcExit ProcNew ProcKill.

Local Open Scope Z_scope.

Inductive call : Type :=
| CYield (c : Z)
| CWaitSem (c a : Z)
| CUnalertableWaitSem (c a : Z)
| CPostSem (a : Z)
| CInitSem (a val : Z)
| CCreate
| CSetParent (c p : Z)
| CStart (p entry arg : Z)
| CWait (c : Z)
| CExit (c code : Z)
| CKill (pid : Z)
| CResume (c : Z).

Section kernel.
Context (invalid_pt sched_timers junk_elr : Z).
Abbreviation kinv := (kinv sched_timers).
Abbreviation exit := (exit invalid_pt sched_timers).

Definition run_call (k : call) : KM unit :=
  match k with
  | CYield c => yield invalid_pt sched_timers c
  | CWaitSem c a => wait_sem invalid_pt sched_timers c (SAddr a)
  | CUnalertableWaitSem c a => unalertable_wait_sem invalid_pt sched_timers c (SAddr a)
  | CPostSem a => post_sem (SAddr a)
  | CInitSem a val => init_sem (SAddr a) val
  | CCreate => create_proc junk_elr;; mret tt
  | CSetParent c p => set_parent_to_this c p
  | CStart p e arg => start_proc p e arg;; mret tt
  | CWait c => wait_begin invalid_pt sched_timers c;; mret tt
  | CExit c code => exit c code
  | CKill pid => kill pid;; mret tt
  | CResume c => resume c
  end.

(** A process runs code of its own on CPU [c]. *)
Definition in_code (s : kstate) (c : Z) (P : Proc) : Prop := is_running s c P /\ p_kcontext P = KRun.

(** A process that [create_proc] returned and that was not started. *)
Definition is_new (s : kstate) (p : Z) (P : Proc) : Prop :=
  k_procs s !! p = Some P /\ p_state P = UNUSED /\ p_idle P = false /\ p <> k_root s.

Definition enabled (s : kstate) (k : call) : Prop :=
  match k with
  | CYield c => cpu c
  | CWaitSem c a | CUnalertableWaitSem c a => (exists P, in_code s c P) /\ is_Some (k_sems s !! SAddr a)
  | CPostSem a => is_Some (k_sems s !! SAddr a)
  | CInitSem a val => k_sems s !! SAddr a = None /\ 0 <= val
  | CCreate | CKill _ => True
  | CSetParent c p => (exists T, in_code s c T) /\ exists P, is_new s p P /\ p_parent P = 0
  | CStart p _ _ => exists P, is_new s p P
  | CWait c => exists P, in_code s c P
  | CExit c _ => (exists P, in_code s c P) /\ k_this s c <> k_root s
  | CResume c => exists P, is_running s c P /\ p_kcontext P <> KDead
  end.

(** A process goes on in [unalertable_wait_sem] although nobody has given it a
    unit: the case that the assertion of [sem.h] excludes. *)
Definition unwoken (s : kstate) (k : call) : Prop :=
  match k with
  | CResume c => exists P i w y, is_running s c P /\ p_kcontext P = KSem i w AAssert /\ k_waits s !! w = Some y /\ w_up y = false
  | _ => False
  end.

Definition kstep (s s' : kstate) : Prop := exists k, enabled s k /\ run_call k s = Ret (tt, s').

(** ** Every call keeps the invariant *)

Lemma sem_ok_init O S W a x : sem_ok O S W -> S !! SAddr a = None -> s_sleep x = [] -> 0 <= s_val x -> sem_ok O (<[SAddr a := x]> S) W.
Proof.
  intros H Ha Hs Hv. split; [..|apply (sm_asleep _ _ _ H)].
  - intros j y [[<- <-]|[_ Hy]]%lookup_insert_Some; [rewrite Hs; constructor|by apply (sm_nodup _ _ _ H j)].
  - intros j y [[<- <-]|[_ Hy]]%lookup_insert_Some; [by left|by apply (sm_val _ _ _ H j)].
  - intros j y w [[<- <-]|[_ Hy]]%lookup_insert_Some Hw; [rewrite Hs in Hw; by apply elem_of_nil in Hw|by apply (sm_sleep _ _ _ H j y w)].
  - intros q u j w k Hq Hkc. destruct (sm_ctx _ _ _ H q u j w k Hq Hkc) as (H1 & y & z & Hy & H2). split; [done|]. exists y, z.
    rewrite lookup_insert_ne; [done|]. intros <-. congruence.
Qed.

Lemma init_kinv a val s : kinv s -> k_sems s !! SAddr a = None -> 0 <= val -> wp (init_sem (SAddr a) val) (fun _ s' => kinv s') s.
Proof.
  intros H Ha Hv. unfold init_sem, store_sem. wp_prims. set (s' := k_set_sems _ s).
  split; try apply H.
  - apply sched_ok_sems, H.
  - apply sem_ok_init; [apply H|done..].
  - change (obs s') with (obs s). change (k_root s') with (k_root s). change (k_waits s') with (k_waits s). cbn [s' k_sems k_set_sems].
    eapply tree_ok_change; [apply H|done|intros p; by rewrite lookup_insert_ne|]. intros p v v' Hv1 Hv2. assert (v' = v) as -> by congruence.
    split; [apply same_tree_refl|]. split; [by apply (to_own _ _ _ _ _ (ki_tree _ s H) p)|]. split; [done|].
    intros x x' _ _ Hx Hx'. rewrite lookup_insert_ne in Hx' by done. by assert (x' = x) as -> by congruence.
  - apply unlocked_insert; [apply H|done].
Qed.

Lemma wait_begin_kinv c P s : kinv s -> in_code s c P -> wp (wait_begin invalid_pt sched_timers c) (fun r s' => kinv s' /\
  (p_children P = [] /\ r = Some (-1) \/ p_children P <> [] /\ r = None)) s.
Proof.
  intros H [HR Hk]. pose proof HR as (Hc & HP & Hs & Hi). unfold wait_begin, thisproc, release_plock. wp_prims.
  apply wp_acquire_plock; [apply H|]. wp_prim. eapply wp_load_proc; [exact HP|]. wp_prims. rewrite (plock_same sched_timers) by done.
  destruct (p_children P) as [|q l] eqn:E; [wp_prims; split; [done|by left]|].
  destruct (to_sem _ _ _ _ _ (ki_tree _ s H) _ _ (obs_proc s _ P HP) Hi) as [x Hx].
  pose proof (wait_kinv invalid_pt sched_timers c (SChild (k_this s c)) true ACollect x P s H HR Hk Hx (or_introl (conj eq_refl eq_refl))) as Hw.
  apply wp_bind in Hw. wp_prim. eapply wp_mono; [exact Hw|]. cbn beta. intros [] s1 Hw1. wp_prim. eapply wp_mono; [exact Hw1|].
  intros [] s2 [H2 _]. wp_prims. split; [done|]. by right.
Qed.

Lemma unwoken_resume_panics c i w y m P s :
  k_procs s !! k_this s c = Some P -> p_kcontext P = KSem i w AAssert -> k_sems s !! i = Some m -> s_lock m = false -> s_val m < 0 ->
  k_waits s !! w = Some y -> w_up y = false -> resume c s = Panic.
Proof.
  intros HP Hk Hm Hl Hv Hw Hup. unfold resume, thisproc, wait_resume, _lock_sem, _unlock_sem, wait_return, load_proc, load_sem, load_wait, store_sem, some_or_ub.
  unfold mbind, M_bind, gets, modify, mret, M_ret. rewrite HP. cbn -[Z.leb]. rewrite Hk, Hm. cbn -[Z.leb]. rewrite Hl. cbn -[Z.leb]. rewrite Hw, Hup. cbn -[Z.leb].
  rewrite lookup_insert_eq. cbn -[Z.leb]. rewrite (proj2 (Z.leb_le (s_val m + 1) 0)) by lia. cbn -[Z.leb]. rewrite lookup_insert_eq. done.
Qed.

Lemma unwoken_panics k s : kinv s -> unwoken s k -> run_call k s = Panic.
Proof.
  intros H. destruct k as [| | | | | | | | | | |c]; try done. intros (P & i & w & y & (Hc & HP & _) & Hk & Hw & Hup).
  destruct (sm_ctx _ _ _ (ki_sem _ s H) _ _ i w AAssert (obs_proc s _ P HP) Hk) as (_ & x & y' & Hx & Hy & _ & Hs & _).
  assert (y' = y) as -> by congruence. specialize (Hs Hup). eapply unwoken_resume_panics; [done|done|exact Hx|by eapply (ki_unlocked _ s H)| |done|done].
  destruct (sm_val _ _ _ (ki_sem _ s H) i x Hx) as [[E _]|E]; [rewrite E in Hs; by apply elem_of_nil in Hs|]. destruct (s_sleep x); [by apply elem_of_nil in Hs|cbn in E; lia].
Qed.

Lemma unwoken_dec k s : enabled s k -> unwoken s k \/ ~ unwoken s k.
Proof.
  destruct k as [| | | | | | | | | | |c]; try (intros; right; tauto). intros (P & HR & _).
  destruct (p_kcontext P) as [| |i w [| |]| |] eqn:E; [..|destruct (k_waits s !! w) as [[[] q]|] eqn:Hw| | |];
    try (right; intros (P' & i' & w' & y' & (_ & HP' & _) & E' & Hy' & Hu); destruct HR as (_ & HP & _); assert (P' = P) as -> by congruence; rewrite E in E'; simplify_eq; rewrite Hw in Hy'; by simplify_eq).
  left. by exists P, i, w, (mkWait false q).
Qed.

Lemma resume_kinv c s : kinv s -> enabled s (CResume c) -> ~ unwoken s (CResume c) -> wp (resume c) (fun _ s' => kinv s') s.
Proof.
  intros H (P & HR & Hd) Hup. pose proof HR as (Hc & HP & Hs & Hi). unfold resume, thisproc. wp_prims. eapply wp_load_proc; [exact HP|].
  destruct (p_kcontext P) as [|e a|i w k| |] eqn:E; [by wp_prims|by eapply entry_kinv| | |done].
  - eapply resume_sem_kinv; [done|done|exact HP|exact E|]. intros ->.
    destruct (sm_ctx _ _ _ (ki_sem _ s H) _ _ i w AAssert (obs_proc s _ P HP) E) as (_ & x & y & _ & Hy & _). exists y. split; [done|].
    destruct (w_up y) eqn:Eu; [done|]. destruct Hup. by exists P, i, w, y.
  - wp_prim. eapply wp_mono; [eapply collect_kinv; [done|exact HR|done]|]. intros r s' [H' _]. by wp_prims.
Qed.

Lemma call_kinv k s : kinv s -> enabled s k -> ~ unwoken s k -> wp (run_call k) (fun _ s' => kinv s') s.
Proof.
  intros H He Hu. destruct k as [c|c a|c a|a|a val| |c p|p e arg|c|c code|pid|c]; cbn [run_call enabled] in *.
  - destruct (so_this _ s (ki_sched _ s H) c He) as (P & HP & _). by eapply yield_kinv.
  - destruct He as [(P & HR & Hk) [x Hx]]. unfold wait_sem. eapply wp_mono; [apply (wait_kinv _ _ c (SAddr a) true AReturn x P s H HR Hk Hx); right; eauto|]. by intros [] s' [? _].
  - destruct He as [(P & HR & Hk) [x Hx]]. unfold unalertable_wait_sem. eapply wp_mono; [apply (wait_kinv _ _ c (SAddr a) false AAssert x P s H HR Hk Hx); right; eauto|]. by intros [] s' [? _].
  - destruct He as [x Hx]. by eapply post_kinv.
  - destruct He. by apply init_kinv.
  - wp_prim. eapply wp_mono; [by apply create_kinv|]. intros p s' [H' _]. by wp_prims.
  - destruct He as [(T & HT & _) (P & (HP & Hs & Hi & Hr) & Hpar)]. eapply wp_mono; [by eapply set_parent_kinv|]. by intros [] s' [? _].
  - destruct He as (P & HP & Hs & Hi & Hr). wp_prim. eapply wp_mono; [by apply (start_kinv sched_timers p P)|]. intros r s' [H' _]. by wp_prims.
  - destruct He as (P & HP). wp_prim. eapply wp_mono; [by eapply wait_begin_kinv|]. intros r s' [H' _]. by wp_prims.
  - destruct He as [(P & HR & Hk) Hr]. eapply wp_mono; [by eapply exit_kinv|]. by intros [] s' [? _].
  - wp_prim. eapply wp_mono; [by apply kill_kinv|]. intros r s' [H' _]. by wp_prims.
  - by apply resume_kinv.
Qed.

Lemma reachable_kinv s s' : kinv s -> rtc kstep s s' -> kinv s'.
Proof.
  intros H Hr. induction Hr as [|s1 s2 s3 (k & He & Hk) _ IH]; [done|]. apply IH.
  destruct (unwoken_dec k s1 He) as [Hu|Hu]; [by rewrite (unwoken_panics k s1 H Hu) in Hk|]. pose proof (call_kinv k s1 H He Hu) as Hw.
  unfold wp in Hw. by rewrite Hk in Hw.
Qed.
End kernel.
