(* ===== verification/KernelProps.v ===== *)
(** * The properties of processes, scheduler and semaphores *)

From Stdlib Require Import ZArith Lia.
From stdpp Require Import base tactics numbers gmap list fin_maps fin_sets relations.
From S2P Require Import Prelude BlockCache Timer Sched SchedProofs SemProofs ProcProofs ProcLife ProcExit ProcNew ProcKill Kernel.

Local Open Scope Z_scope.

(** ** Round robin *)

(** How many runnable processes the run queue has before [p]. *)
Fixpoint rank (m : gmap Z Proc) (p : Z) (l : list Z) : nat :=
  match l with
  | [] => 0
  | q :: l' => if decide (q = p) then 0 else (if runnable m q then 1 else 0) + rank m p l'
  end%nat.

Lemma rank_app m p l k : p ∈ l -> rank m p (l ++ k) = rank m p l.
Proof.
  induction l as [|q l IH]; intros H; [by apply elem_of_nil in H|]. cbn. case_decide; [done|]. f_equal. apply IH. apply elem_of_cons in H as [->|]; done.
Qed.

Lemma rank_ext m m' p l : (forall q, q ∈ l -> runnable m' q = runnable m q) -> rank m' p l = rank m p l.
Proof.
  induction l as [|q l IH]; intros H; [done|]. cbn. case_decide; [done|]. rewrite (H q) by left. f_equal. apply IH. intros r Hr. apply H. by right.
Qed.

Lemma rank_filter m p t l : t <> p -> runnable m t = false -> rank m p (filter (fun q => q <> t) l) = rank m p l.
Proof.
  intros Hne Ht. induction l as [|q l IH]; [done|]. destruct (decide (q = t)) as [->|Hq].
  - rewrite filter_cons_False by (intros Hn; by apply Hn). cbn. by rewrite decide_False, Ht by done.
  - rewrite filter_cons_True by done. cbn. by rewrite IH.
Qed.

Lemma first_ready_rank m p l : p ∈ l -> runnable m p = true -> NoDup l ->
  exists q, first_ready m l = Some q /\ (rank m p l = 0%nat -> q = p) /\
    forall n x, rank m p l = S n -> p_state x = RUNNING -> q <> p /\ rank (<[q := x]> m) p l = n.
Proof.
  intros Hp Hr. induction l as [|q l IH]; intros Hnd; [by apply elem_of_nil in Hp|]. apply NoDup_cons in Hnd as [Hq Hnd]. cbn [rank first_ready].
  destruct (decide (q = p)) as [->|Hne]; [exists p; rewrite Hr; split; [done|]; split; [done|]; intros; lia|].
  apply elem_of_cons in Hp as [->|Hp]; [done|]. destruct (runnable m q) eqn:Eq.
  - exists q. split; [done|]. split; [cbn; lia|]. intros n x E Hx. split; [done|]. cbn in E. injection E as E.
    assert (runnable (<[q := x]> m) q = false) as -> by (unfold runnable; rewrite lookup_insert_eq; by rewrite Hx).
    cbn. rewrite <-E. apply rank_ext. intros r Hrl. unfold runnable. rewrite lookup_insert_ne; [done|]. intros <-. done.
  - destruct (IH Hp Hnd) as (r & H1 & H2 & H3). exists r. split; [done|]. split; [done|]. intros n x E Hx. cbn in E. destruct (H3 n x E Hx) as [H4 H5]. split; [done|].
    destruct (decide (q = r)) as [->|Hqr].
    + apply first_ready_Some in H1 as [_ (y & Hy & Hys)]. unfold runnable in Eq. rewrite Hy, Hys in Eq. done.
    + assert (runnable (<[r := x]> m) q = false) as -> by (unfold runnable in *; rewrite lookup_insert_ne by done; done). exact H5.
Qed.

Section props.
Context (invalid_pt sched_timers junk_elr : Z).
Abbreviation kinv := (kinv sched_timers).
Abbreviation yield := (yield invalid_pt sched_timers).
Abbreviation kstep := (kstep invalid_pt sched_timers junk_elr).
Abbreviation run_call := (run_call invalid_pt sched_timers junk_elr).

Definition runs_fair (s : kstate) : Prop := k_panic s = false /\ forall p x, k_procs s !! p = Some x -> p_killed x = false.

Lemma yield_rank c p x s : kinv s -> runs_fair s -> cpu c -> k_procs s !! p = Some x -> p_state x = RUNNABLE -> p_idle x = false ->
  wp (yield c) (fun _ s' => kinv s' /\ runs_fair s' /\ (rank (k_procs s) p (k_rq s) = 0%nat -> k_this s' c = p) /\
    forall n, rank (k_procs s) p (k_rq s) = S n -> k_procs s' !! p = Some x /\ rank (k_procs s') p (k_rq s') = n) s.
Proof.
  intros H [Hpan Hkill] Hc Hp Hs Hi. pose proof (ki_sched _ s H) as Hok. destruct (so_this _ s Hok c Hc) as (P & HP & HPs).
  pose proof (yield_kinv invalid_pt sched_timers c P s H Hc HP) as Hinv. unfold Sched.yield in *. apply wp_bind in Hinv. wp_prim.
  revert Hinv. unfold acquire_sched_lock, mbind, M_bind, gets, modify, wp at 1 3. rewrite (ki_lock _ s H). set (s0 := k_set_sched_lock true s). intros Hinv.
  assert (sched_ok sched_timers s0) as Hok0 by (by eapply sched_ok_ext).
  pose proof (sched_wp invalid_pt sched_timers c RUNNABLE P s0 Hok0 Hc HP ltac:(done) ltac:(done)) as Hsch. unfold wp in *.
  destruct (sched invalid_pt sched_timers c RUNNABLE s0) as [[[] s']| | |]; try done. destruct Hsch as (_ & _ & Hsk & Hd). split; [exact Hinv|].
  rewrite (Hkill _ P HP) in Hd. cbn [andb] in Hd. destruct Hd as (y & Hy & Hys & Ep & Et & Er).
  set (t := k_this s0 c) in *. set (m1 := <[t := p_set_state RUNNABLE P]> (k_procs s0)) in *.
  assert (p <> t) as Hpt by (intros ->; change (k_procs s0) with (k_procs s) in *; unfold t in Hp; cbn in Hp; simplify_eq; congruence).
  set (l1 := requeue c RUNNABLE s0) in *.
  assert (runnable (k_procs s) t = false) as Hnr by (unfold runnable; change (k_procs s !! t) with (k_procs s !! k_this s c); rewrite HP, HPs; done).
  assert (p ∈ k_rq s) as Hin by (apply (so_rq _ s Hok); exists x; by rewrite Hs).
  assert (p ∈ filter (fun q => q <> t) (k_rq s)) as Hinf by (by apply list_elem_of_filter).
  assert (p ∈ l1) as Hin1.
  { apply (requeue_elem sched_timers c RUNNABLE P s0 Hok0 Hc HP); [done|done|]. fold t. by rewrite decide_False. }
  assert (rank m1 p l1 = rank (k_procs s) p (k_rq s)) as Erank.
  { assert (forall q, q <> t -> runnable m1 q = runnable (k_procs s) q) as Hext by (intros q Hq; unfold runnable, m1; by rewrite lookup_insert_ne).
    unfold l1, requeue. fold t. destruct (Z.eqb_spec t (k_idle s0 c)) as [E|E].
    - apply rank_ext. intros q Hq. apply Hext. intros ->. apply (so_rq _ s0 Hok0) in Hq as (z & Hz & Hzi & _).
      destruct (so_idle _ s0 Hok0 c Hc) as (z' & Hz' & Hzi' & _). rewrite <-E in Hz'. congruence.
    - rewrite rank_app by done. rewrite (rank_ext (k_procs s)); [by apply rank_filter|]. intros q [Hq _]%list_elem_of_filter. by apply Hext. }
  assert (m1 !! p = Some x) as Hp1 by (unfold m1; by rewrite lookup_insert_ne).
  destruct (first_ready_rank m1 p l1 Hin1) as (q & Hq & H0 & HS);
    [by unfold runnable; rewrite Hp1, Hs|exact (requeue_nodup sched_timers c RUNNABLE P s0 Hok0 Hc HP ltac:(done) ltac:(done))|].
  assert (next_proc (updated c RUNNABLE P s0) c = q) as En.
  { unfold next_proc. change (k_panic (updated c RUNNABLE P s0)) with (k_panic s). rewrite Hpan.
    change (first_ready _ _) with (first_ready m1 l1). by rewrite Hq. }
  rewrite En in *. change (m1 !! q = Some y) in Hy. split; [|split].
  - destruct Hsk as (_ & _ & _ & E4 & _). split; [by rewrite E4|]. intros r z. rewrite Ep.
    intros [[<- <-]|[_ [[<- <-]|[_ Hr]]%lookup_insert_Some]]%lookup_insert_Some; [|exact (Hkill t P HP)|by apply (Hkill r z)].
    cbn. apply lookup_insert_Some in Hy as [[<- <-]|[_ Hy]]; [exact (Hkill t P HP)|by apply (Hkill q y)].
  - intros E0. rewrite Et. rewrite <-Erank in E0. apply H0 in E0. by rewrite upd_eq.
  - intros n E1. rewrite <-Erank in E1. destruct (HS n (p_set_state RUNNING y) E1 eq_refl) as [Hqp Hn]. rewrite Ep, Er. split; [|exact Hn].
    rewrite lookup_insert_ne by done. exact Hp1.
Qed.

(** Yields on the CPUs [cs], one after the other. *)
Fixpoint yields (cs : list Z) : KM unit :=
  match cs with [] => mret tt | c :: cs' => yield c;; yields cs' end.

Lemma yields_rank cs p x s : kinv s -> runs_fair s -> Forall cpu cs -> k_procs s !! p = Some x -> p_state x = RUNNABLE -> p_idle x = false ->
  rank (k_procs s) p (k_rq s) = length cs ->
  wp (yields cs) (fun _ s' => kinv s' /\ runs_fair s' /\ k_procs s' !! p = Some x /\ rank (k_procs s') p (k_rq s') = 0%nat) s.
Proof.
  revert s. induction cs as [|c cs IH]; intros s H Hf Hcs Hp Hs Hi E; cbn [yields].
  - wp_prims. done.
  - apply Forall_cons in Hcs as [Hc Hcs]. wp_prim. eapply wp_mono; [by apply (yield_rank c p x s)|].
    intros [] s1 (H1 & Hf1 & _ & HS). destruct (HS (length cs) E) as [Hp1 E1]. by apply IH.
Qed.

(** ** Kernel calls that run one after the other *)

Definition in_codeb (s : kstate) (c : Z) : bool :=
  bool_decide (0 <= c < NCPU) &&
  match k_procs s !! k_this s c with
  | Some P => bool_decide (p_state P = RUNNING) && negb (p_idle P) && match p_kcontext P with KRun => true | _ => false end
  | None => false
  end.
Definition is_newb (s : kstate) (p : Z) (orphan : bool) : bool :=
  match k_procs s !! p with
  | Some P => bool_decide (p_state P = UNUSED) && negb (p_idle P) && bool_decide (p <> k_root s) && implb orphan (p_parent P =? 0)
  | None => false
  end.
Definition resumableb (s : kstate) (c : Z) : bool :=
  bool_decide (0 <= c < NCPU) &&
  match k_procs s !! k_this s c with
  | Some P => bool_decide (p_state P = RUNNING) && negb (p_idle P) && match p_kcontext P with KDead => false | _ => true end
  | None => false
  end.

(** The guard of a call, as a test. *)
Definition enabledb (s : kstate) (k : call) : bool :=
  match k with
  | CYield c => bool_decide (0 <= c < NCPU)
  | CWaitSem c a | CUnalertableWaitSem c a => in_codeb s c && bool_decide (is_Some (k_sems s !! SAddr a))
  | CPostSem a => bool_decide (is_Some (k_sems s !! SAddr a))
  | CInitSem a val => bool_decide (k_sems s !! SAddr a = None) && (0 <=? val)
  | CCreate | CKill _ => true
  | CSetParent c p => in_codeb s c && is_newb s p true
  | CStart p _ _ => is_newb s p false
  | CWait c => in_codeb s c
  | CExit c _ => in_codeb s c && bool_decide (k_this s c <> k_root s)
  | CResume c => resumableb s c
  end.

Lemma in_codeb_spec s c : in_codeb s c = true -> exists P, in_code s c P.
Proof.
  unfold in_codeb. intros [Hc H]%andb_true_iff. apply bool_decide_eq_true in Hc. destruct (k_procs s !! k_this s c) as [P|] eqn:E; [|done].
  apply andb_true_iff in H as [[H1%bool_decide_eq_true H2%negb_true_iff]%andb_true_iff H3]. exists P. split; [done|]. by destruct (p_kcontext P).
Qed.
Lemma is_newb_spec s p o : is_newb s p o = true -> exists P, is_new s p P /\ (o = true -> p_parent P = 0).
Proof.
  unfold is_newb. destruct (k_procs s !! p) as [P|] eqn:E; [|done].
  intros [[[H1%bool_decide_eq_true H2%negb_true_iff]%andb_true_iff H3%bool_decide_eq_true]%andb_true_iff H4]%andb_true_iff. exists P. split; [done|].
  intros ->. cbn in H4. by apply Z.eqb_eq.
Qed.

Lemma enabledb_spec s k : enabledb s k = true -> enabled s k.
Proof.
  destruct k; cbn [enabledb enabled].
  - by intros H%bool_decide_eq_true.
  - by intros [H1%in_codeb_spec H2%bool_decide_eq_true]%andb_true_iff.
  - by intros [H1%in_codeb_spec H2%bool_decide_eq_true]%andb_true_iff.
  - by intros H%bool_decide_eq_true.
  - intros [H1%bool_decide_eq_true H2%Z.leb_le]%andb_true_iff. done.
  - done.
  - intros [H1%in_codeb_spec (P & HP & H2)%is_newb_spec]%andb_true_iff. split; [done|]. exists P. auto.
  - intros (P & HP & _)%is_newb_spec. by exists P.
  - apply in_codeb_spec.
  - by intros [H1%in_codeb_spec H2%bool_decide_eq_true]%andb_true_iff.
  - done.
  - unfold resumableb. intros [Hc H]%andb_true_iff. apply bool_decide_eq_true in Hc. destruct (k_procs s !! k_this s c) as [P|] eqn:E; [|done].
    apply andb_true_iff in H as [[H1%bool_decide_eq_true H2%negb_true_iff]%andb_true_iff H3]. exists P. split; [done|]. by destruct (p_kcontext P).
Qed.

Fixpoint run_script (ks : list call) (s : kstate) : option kstate :=
  match ks with
  | [] => Some s
  | k :: ks' => if enabledb s k then match run_call k s with Ret (_, s') => run_script ks' s' | _ => None end else None
  end.

Lemma run_script_steps ks s s' : run_script ks s = Some s' -> rtc kstep s s'.
Proof.
  revert s. induction ks as [|k ks IH]; intros s; cbn [run_script]; [intros [= ->]; constructor|].
  destruct (enabledb s k) eqn:E; [|done]. destruct (run_call k s) as [[[] s1]| | |] eqn:Er; try done. intros Hs.
  econstructor; [|by apply IH]. exists k. split; [by apply enabledb_spec|done].
Qed.

(** ** Properties *)

(** C8: from a state of the kernel invariant, after any interleaving of calls on
    any CPUs, a call that the code can make never reads a freed or absent object
    and never waits for a lock that its own CPU holds.  It panics exactly when it
    lets a process go on in [unalertable_wait_sem] that has not got its unit,
    which the code asserts not to happen; otherwise it returns, and the invariant
    holds again. *)
Theorem kernel_calls_return s s' k :
  kinv s -> rtc kstep s s' -> enabled s' k ->
  (unwoken s' k -> run_call k s' = Panic) /\ (~ unwoken s' k -> exists s2, run_call k s' = Ret (tt, s2) /\ kinv s2).
Proof.
  intros H Hr He. pose proof (reachable_kinv _ _ _ s s' H Hr) as H'. split; [by apply unwoken_panics|]. intros Hu.
  pose proof (call_kinv invalid_pt sched_timers junk_elr k s' H' He Hu) as Hw. unfold wp in Hw.
  destruct (run_call k s') as [[[] s2]| | |]; try done. by exists s2.
Qed.

(** C10: no wake-up is lost. In every reachable state a process that sleeps is
    registered, by the record of its own wait, in the list of the semaphore it
    waits for, and that semaphore has exactly as many missing units as sleepers:
    a unit that is there has no sleeper beside it. *)
Theorem sleeper_is_registered s s' p x :
  kinv s -> rtc kstep s s' -> k_procs s' !! p = Some x -> p_state x = SLEEPING \/ p_state x = DEEPSLEEPING ->
  exists i w k m, p_kcontext x = KSem i w k /\ k_sems s' !! i = Some m /\ w ∈ s_sleep m /\ k_waits s' !! w = Some (mkWait false p) /\
    s_val m = - Z.of_nat (length (s_sleep m)).
Proof.
  intros H Hr Hp Hs. pose proof (ki_sem _ _ (reachable_kinv _ _ _ s s' H Hr)) as Hsem. pose proof (obs_proc s' p x Hp) as Ho.
  assert (v_kind (view_proc x) = Asleep) as Ha by (cbn; destruct Hs as [->| ->]; done).
  destruct (sm_asleep _ _ _ Hsem p _ Ho Ha) as (i & w & k & Hk).
  destruct (sm_ctx _ _ _ Hsem p _ i w k Ho Hk) as (_ & m & [up q] & Hm & Hw & Eq & Hin & [Hr'|[_ Hup]]); [congruence|]. cbn in Eq, Hup. subst.
  exists i, w, k, m. split_and!; try done; [by apply Hin|]. destruct (sm_val _ _ _ Hsem i m Hm) as [[E _]|E]; [|done].
  specialize (Hin eq_refl). rewrite E in Hin. by apply elem_of_nil in Hin.
Qed.

(** C9: [wait()] that was notified always finds a zombie among the children: it
    returns the identifier and the exit code of one and removes it. *)
Theorem wait_finds_zombie c P s :
  kinv s -> is_running s c P -> p_kcontext P = KCollect ->
  exists z x s', wait_collect c s = Ret ((p_pid x, Some (p_exitcode x)), s') /\ kinv s' /\
    k_procs s !! z = Some x /\ p_state x = ZOMBIE /\ p_parent x = k_this s c /\ k_procs s' !! z = None /\ k_freepid s' = p_pid x :: k_freepid s.
Proof.
  intros H HR Hk. pose proof (collect_kinv sched_timers c P s H HR Hk) as Hw. unfold wp in Hw.
  destruct (wait_collect c s) as [[r s']| | |]; try done. destruct Hw as (H' & z & x & (H1 & H2 & H3 & H4 & H5) & ->). by exists z, x, s'.
Qed.

(** [exit] of a process other than [root_proc] returns no more to it: the
    process is a zombie without children, with its exit code and its parent, and
    the invariant holds, by which the parent has a unit to collect it. *)
Theorem exit_leaves_zombie c code P s :
  kinv s -> in_code s c P -> k_this s c <> k_root s ->
  exists s' x, exit invalid_pt sched_timers c code s = Ret (tt, s') /\ kinv s' /\ k_procs s' !! k_this s c = Some x /\
    p_state x = ZOMBIE /\ p_exitcode x = code /\ p_children x = [] /\ p_parent x = p_parent P /\ p_pid x = p_pid P.
Proof.
  intros H [HR Hk] Hne. pose proof (exit_kinv invalid_pt sched_timers c code P s H HR Hk Hne) as Hw. unfold wp in Hw.
  destruct (exit invalid_pt sched_timers c code s) as [[[] s']| | |]; try done. destruct Hw as (H' & _ & Ho). apply obs_lookup in Ho as (x & Hx & Ev).
  exists s', x. split; [done|]. split; [done|]. split; [done|]. unfold died, v_set_kind, v_set_kcontext, v_set_children, v_set_exitcode, view_proc in Ev. cbn in Ev.
  injection Ev as _ E1 E2 E3 E4 _ E5. split_and!; try done. by destruct (p_state x).
Qed.

(** C12: [kill] always returns: the search of the process tree ends.  The result
    is 0 when a started process of the tree has the identifier and a user
    program counter, and then that process is marked, and awake unless its sleep
    is unalertable, and no other process has changed; else it is -1 and nothing
    has changed. *)
Theorem kill_returns pid s : kinv s -> exists r s', kill pid s = Ret (r, s') /\ kinv s' /\ killed pid s r s'.
Proof.
  intros H. pose proof (kill_kinv sched_timers pid s H) as Hw. unfold wp in Hw. destruct (kill pid s) as [[r s']| | |]; try done.
  destruct Hw as (H1 & _ & _ & H2). by exists r, s'.
Qed.

(** C11: round robin. When no process is killed and the kernel has not panicked, a
    runnable process that has [n] runnable processes before it on the run queue
    gets the CPU of the [n+1]-th yield, on whichever CPUs the yields are. *)
Theorem yields_round_robin cs c p x s :
  kinv s -> runs_fair s -> Forall cpu cs -> cpu c -> k_procs s !! p = Some x -> p_state x = RUNNABLE -> p_idle x = false ->
  rank (k_procs s) p (k_rq s) = length cs -> exists s', yields (cs ++ [c]) s = Ret (tt, s') /\ k_this s' c = p.
Proof.
  intros H Hf Hcs Hc Hp Hs Hi E. assert (wp (yields (cs ++ [c])) (fun _ s' => k_this s' c = p) s) as Hw.
  { assert (forall Q s, wp (yields cs) (fun _ s1 => wp (yield c) Q s1) s -> wp (yields (cs ++ [c])) Q s) as Happ.
    { clear. induction cs as [|d cs IH]; intros Q s Hw; cbn [yields app] in *.
      - apply wp_ret in Hw. wp_prim. eapply wp_mono; [exact Hw|]. intros [] s' HQ. by wp_prims.
      - apply (proj1 (wp_bind _ _ _ _)) in Hw. wp_prim. eapply wp_mono; [exact Hw|]. intros [] s'. apply IH. }
    apply Happ. eapply wp_mono; [by apply (yields_rank cs p x s)|]. intros [] s1 (H1 & Hf1 & Hp1 & E1).
    eapply wp_mono; [by apply (yield_rank c p x s1)|]. intros [] s2 (_ & _ & Hz & _). by apply Hz. }
  unfold wp in Hw. destruct (yields (cs ++ [c]) s) as [[[] s']| | |]; try done. by exists s'.
Qed.

(** C13: a killed process cannot be made to wait by [unalertable_wait_sem]: [sched]
    gives the CPU back at once, and the assertion on the result stops the
    kernel. *)
Theorem killed_wait_panics c a m P s :
  kinv s -> in_code s c P -> p_killed P = true -> k_sems s !! SAddr a = Some m -> s_val m <= 0 ->
  (unalertable_wait_sem invalid_pt sched_timers c (SAddr a);; resume c) s = Panic.
Proof.
  intros H [(Hc & HP & Hs & Hi) Hk] Hkl Hm Hv. pose proof (ki_unlocked _ s H (SAddr a) m Hm) as Hl.
  assert (wp (unalertable_wait_sem invalid_pt sched_timers c (SAddr a)) (fun _ s' => resume c s' = Panic) s) as Hw.
  2: { unfold wp in Hw. unfold mbind, M_bind. by destruct (unalertable_wait_sem _ _ _ _ s) as [[[] s']| | |]. }
  unfold unalertable_wait_sem, _wait_sem, store_sem, store_wait, kalloc_wait, thisproc. wp_prim. eapply wp_lock_sem; [done|done|].
  wp_prim. eapply wp_load_sem; [apply lookup_insert_eq|]. wp_prims. cbn [sem_locked s_val s_lock s_sleep].
  rewrite (proj2 (Z.leb_gt 0 (s_val m - 1))) by lia. wp_prims. apply wp_acquire_sched; [apply H|]. wp_prim. eapply wp_unlock_sem; [apply lookup_insert_eq|].
  wp_prim. eapply wp_upd_proc; [exact HP|]. unfold sched, thisproc. wp_prims. eapply wp_load_proc; [apply lookup_insert_eq|]. wp_prim. wp_prim.
  cbn [p_state p_killed p_set_kcontext]. rewrite Hs, Hkl. split; [done|]. cbn [andb negb]. unfold release_sched_lock. wp_prims.
  eapply (unwoken_resume_panics c (SAddr a) _ (mkWait false (k_this s c)) (mkSem false (s_val m - 1) _)).
  - apply lookup_insert_eq.
  - done.
  - apply lookup_insert_eq.
  - done.
  - cbn. lia.
  - apply lookup_insert_eq.
  - done.
Qed.
End props.

(** ** A boot *)

Definition no_timers : tstate := mkTstate 0 ∅ (fun _ => []) (fun _ => 0).
Definition junk_proc : Proc := mkProc false false 0 0 UNUSED [] 0 0 0 0 KRun.
(** Memory before [init_sched]: [root_proc] is at 5000, the timers at 1000. *)
Definition boot0 : kstate :=
  mkKstate ∅ 5000 [] false false (fun _ => 0) (fun _ => 0) false ∅ ∅ 0 [] ∅ no_timers (fun _ => 0).
Definition boot : KM unit := init_sched 1000 junk_proc;; init_kproc 77 88.
Definition run_state (m : KM unit) (s : kstate) : kstate := match m s with Ret (_, s') => s' | _ => s end.
Definition booted : kstate := run_state boot boot0.

Definition idle_proc : Proc := mkProc false true 0 0 RUNNING [] 0 0 0 0 KRun.
Definition root_proc : Proc := mkProc false false 1 0 RUNNABLE [] 5000 2 1 77 (KEntry 88 123456).
Definition boot_procs : gmap Z Proc := <[5000 := root_proc]> (<[1 := idle_proc]> (<[2 := idle_proc]> (<[3 := idle_proc]> (<[4 := idle_proc]> ∅)))).

Lemma booted_procs : k_procs booted = boot_procs.
Proof. vm_compute. reflexivity. Qed.

Lemma boot_lookup p x : boot_procs !! p = Some x -> p = 5000 /\ x = root_proc \/ 1 <= p <= 4 /\ x = idle_proc.
Proof.
  unfold boot_procs. intros H. repeat (apply lookup_insert_Some in H as [[<- <-]|[_ H]]; [by auto with lia|]). by rewrite lookup_empty in H.
Qed.

Lemma cpu_cases c : cpu c -> c = 0 \/ c = 1 \/ c = 2 \/ c = 3.
Proof. unfold cpu, NCPU. lia. Qed.

(** What [sched_ok] needs of CPU [c]. *)
Definition boot_cpu (s : kstate) (c : Z) : Prop := k_this s c = c + 1 /\ k_idle s c = c + 1 /\ boot_procs !! (c + 1) = Some idle_proc /\
  t_tree (k_timers s) c = [] /\ exists t, t_timers (k_timers s) !! (1000 + 56 * c) = Some t /\ t_triggered t = true.

Lemma booted_cpu c : cpu c -> boot_cpu booted c.
Proof. intros [->|[->|[->| ->]]]%cpu_cases; split_and!; try (vm_compute; reflexivity); eexists; split; vm_compute; reflexivity. Qed.

Lemma boot_sched s : k_procs s = boot_procs -> k_rq s = [5000] -> (forall c, cpu c -> boot_cpu s c) -> sched_ok 1000 s.
Proof.
  intros E Eq H. split; rewrite ?E, ?Eq.
  - apply NoDup_singleton.
  - intros p. rewrite list_elem_of_singleton. split; [intros ->; by exists root_proc|]. intros (x & Hx & Hi & _).
    apply boot_lookup in Hx as [[-> _]|[_ ->]]; done.
  - intros c Hc. destruct (H c Hc) as (-> & _ & Hp & _). by exists idle_proc.
  - intros p x Hx Hr. apply boot_lookup in Hx as [[_ ->]|[Hp _]]; [done|]. assert (cpu (p - 1)) as Hc by (unfold cpu, NCPU; lia).
    exists (p - 1). split; [done|]. destruct (H _ Hc) as (-> & _). lia.
  - intros c d Hc Hd. destruct (H c Hc) as (-> & _), (H d Hd) as (-> & _). lia.
  - intros c Hc. destruct (H c Hc) as (_ & -> & Hp & _). by exists idle_proc.
  - intros c x Hc _ _. destruct (H c Hc) as (-> & -> & _). done.
  - intros c d Hc Hd. destruct (H c Hc) as (_ & -> & _), (H d Hd) as (_ & -> & _). lia.
  - intros c Hc. destruct (H c Hc) as (_ & _ & _ & Ht & t & H1 & H2). split.
    + split; [by rewrite Ht; constructor|]. intros n. rewrite Ht. by intros ?%elem_of_nil.
    + exists t. split; [exact H1|]. rewrite Ht, H2. split; [by intros ?%elem_of_nil|done].
Qed.

Lemma boot_kinv s : sched_ok 1000 s -> k_procs s = boot_procs -> k_sems s = {[SChild 5000 := mkSem false 0 []]} -> k_max_pid s = 1 -> k_freepid s = [] ->
  k_root s = 5000 -> k_sched_lock s = false -> k_plock s = false -> kinv 1000 s.
Proof.
  intros Hok Ep Es Em Ef Er Hl1 Hl2.
  assert (forall p v, obs s !! p = Some v -> p = 5000 /\ v = view_proc root_proc \/ 1 <= p <= 4 /\ v = view_proc idle_proc) as L.
  { intros p v (x & Hx & <-)%obs_lookup. rewrite Ep in Hx. apply boot_lookup in Hx as [[-> ->]|[? ->]]; auto. }
  assert (obs s !! 5000 = Some (view_proc root_proc)) as Hroot by (apply obs_proc; by rewrite Ep).
  split; [done|rewrite Es|rewrite Es, Er|rewrite Em, Ef|done|done|rewrite Es].
  - split.
    + intros i x [<- <-]%lookup_singleton_Some. constructor.
    + intros i x [<- <-]%lookup_singleton_Some. by left.
    + intros i x w [<- <-]%lookup_singleton_Some ?%elem_of_nil. done.
    + intros p v i w k [[-> ->]|[_ ->]]%L; done.
    + intros p v [[-> ->]|[_ ->]]%L; done.
  - split.
    + exists (view_proc root_proc). split; [exact Hroot|]. split; [done|]. by left.
    + destruct (obs s !! 0) as [v|] eqn:E; [|done]. apply L in E as [[? _]|[? _]]; lia.
    + intros p v [[-> ->]|[_ ->]]%L; constructor.
    + intros p v q [[-> ->]|[_ ->]]%L ?%elem_of_nil; done.
    + intros q u [[-> ->]|[_ ->]]%L; done.
    + intros q u [[-> ->]|[_ ->]]%L; done.
    + intros q u [[-> ->]|[_ ->]]%L; done.
    + intros q u [[-> ->]|[_ ->]]%L; done.
    + intros q u [[-> ->]|[_ ->]]%L; done.
    + intros q u [[-> ->]|[_ ->]]%L; done.
    + intros q u [[-> ->]|[_ ->]]%L; [|done]. intros _. by eexists.
    + intros p [x [E <-]%lookup_singleton_Some]. injection E as <-. eexists. exact Hroot.
    + intros q u [[-> ->]|[_ ->]]%L; done.
    + intros q u x [[-> ->]|[_ ->]]%L Hi Hk Hx; [|done]. rewrite lookup_singleton_eq in Hx. by injection Hx as <-.
  - split.
    + intros q u [[-> ->]|[_ ->]]%L; [|done]. intros _. split; [vm_compute; done|]. apply not_elem_of_nil.
    + intros p q v u [[-> ->]|[_ ->]]%L [[-> ->]|[_ ->]]%L; done.
    + constructor.
    + by intros n ?%elem_of_nil.
    + done.
  - intros i x [<- <-]%lookup_singleton_Some. done.
Qed.

(** The state that [init_sched] and [init_kproc] build satisfies the invariant. *)
Lemma booted_kinv : kinv 1000 booted.
Proof.
  apply boot_kinv; [|vm_compute; reflexivity..]. apply boot_sched; [apply booted_procs|vm_compute; reflexivity|apply booted_cpu].
Qed.

(** ** Scenarios *)

Abbreviation demo_script := (run_script 9000 1000 77).
Definition demo (ks : list call) : kstate := default booted (demo_script ks booted).

Lemma demo_reach ks : bool_decide (is_Some (demo_script ks booted)) = true -> rtc (kstep 9000 1000 77) booted (demo ks).
Proof. intros H%bool_decide_eq_true. apply (run_script_steps _ _ _ ks). unfold demo. by destruct H as [s ->]. Qed.

(** [root_proc] runs on CPU 0 and starts two children, the second of which is
    given to it by [start_proc]. *)
Definition two_children : list call := [CYield 0; CResume 0; CCreate; CSetParent 0 5001; CStart 5001 99 7; CCreate; CStart 5002 99 8].
(** It waits; the child runs. *)
Definition root_waits : list call := two_children ++ [CWait 0; CResume 0].
(** The child ends with code 42. *)
Definition child_exits : list call := root_waits ++ [CExit 0 42; CResume 0].
(** The child is killed, then runs on CPU 1. *)
Definition child_killed : list call := two_children ++ [CInitSem 300 0; CKill 3; CYield 1; CResume 1].

Definition demo_this (ks : list call) (c : Z) : Proc := default idle_proc (k_procs (demo ks) !! k_this (demo ks) c).

Lemma demo_kinv ks : bool_decide (is_Some (demo_script ks booted)) = true -> kinv 1000 (demo ks).
Proof. intros H. eapply reachable_kinv; [apply booted_kinv|by apply demo_reach]. Qed.

Lemma demo_in_code ks c : in_codeb (demo ks) c = true -> in_code (demo ks) c (demo_this ks c).
Proof. intros (P & (Hc & HP & H1) & H2)%in_codeb_spec. unfold demo_this. rewrite HP. done. Qed.

Lemma kernel_calls_return_witness : exists s2, run_call 9000 1000 77 (CExit 0 42) (demo root_waits) = Ret (tt, s2) /\ kinv 1000 s2.
Proof.
  apply (kernel_calls_return 9000 1000 77 booted (demo root_waits) (CExit 0 42)); [apply booted_kinv|apply demo_reach; vm_compute; reflexivity| |exact id].
  apply enabledb_spec. vm_compute. reflexivity.
Defined.

Lemma sleeper_is_registered_witness : exists i w m, k_sems (demo root_waits) !! i = Some m /\ w ∈ s_sleep m /\ s_val m = - Z.of_nat (length (s_sleep m)).
Proof.
  destruct (sleeper_is_registered 9000 1000 77 booted (demo root_waits) 5000
    (mkProc false false 1 0 SLEEPING [5002; 5001] 5000 2 1 77 (KSem (SChild 5000) 1 ACollect)))
    as (i & w & k & m & H1 & H2 & H3 & H4 & H5); [apply booted_kinv|apply demo_reach; vm_compute; reflexivity|vm_compute; reflexivity|by left|].
  exists i, w, m. split; [exact H2|]. split; [exact H3|exact H5].
Defined.

Lemma wait_finds_zombie_witness : exists z x s', wait_collect 0 (demo child_exits) = Ret ((p_pid x, Some (p_exitcode x)), s') /\
  k_procs (demo child_exits) !! z = Some x /\ k_procs s' !! z = None.
Proof.
  destruct (wait_finds_zombie 1000 0 (demo_this child_exits 0) (demo child_exits)) as (z & x & s' & H1 & _ & H2 & _ & _ & H3 & _).
  - apply demo_kinv. vm_compute. reflexivity.
  - split; [unfold cpu, NCPU; lia|]. split; [vm_compute; reflexivity|]. split; vm_compute; reflexivity.
  - vm_compute. reflexivity.
  - exists z, x, s'. split; [exact H1|]. split; [exact H2|exact H3].
Defined.

Lemma exit_leaves_zombie_witness : exists s' x, exit 9000 1000 0 42 (demo root_waits) = Ret (tt, s') /\
  k_procs s' !! k_this (demo root_waits) 0 = Some x /\ p_state x = ZOMBIE /\ p_exitcode x = 42.
Proof.
  destruct (exit_leaves_zombie 9000 1000 0 42 (demo_this root_waits 0) (demo root_waits)) as (s' & x & H1 & _ & H2 & H3 & H4 & _).
  - apply demo_kinv. vm_compute. reflexivity.
  - apply demo_in_code. vm_compute. reflexivity.
  - vm_compute. discriminate.
  - exists s', x. split; [exact H1|]. split; [exact H2|]. split; [exact H3|exact H4].
Defined.

Lemma kill_returns_witness : exists r s', kill 3 (demo two_children) = Ret (r, s') /\ killed 3 (demo two_children) r s'.
Proof.
  destruct (kill_returns 1000 3 (demo two_children)) as (r & s' & H1 & _ & H2); [apply demo_kinv; vm_compute; reflexivity|].
  exists r, s'. split; [exact H1|exact H2].
Defined.

(** [root_proc] and two runnable children: CPU 1 takes the first, CPU 2 the second. *)
Lemma yields_round_robin_witness : exists s', yields 9000 1000 [1; 2] (demo two_children) = Ret (tt, s') /\ k_this s' 2 = 5001.
Proof.
  apply (yields_round_robin 9000 1000 [1] 2 5001 (mkProc false false 2 0 RUNNABLE [] 5000 4 3 77 (KEntry 99 7)) (demo two_children)).
  - apply demo_kinv. vm_compute. reflexivity.
  - split; [vm_compute; reflexivity|]. assert (map_Forall (fun _ x => p_killed x = false) (k_procs (demo two_children))) as H; [|exact H].
    apply (bool_decide_eq_true _). vm_compute. reflexivity.
  - constructor; [unfold cpu, NCPU; lia|constructor].
  - unfold cpu, NCPU. lia.
  - vm_compute. reflexivity.
  - reflexivity.
  - reflexivity.
  - vm_compute. reflexivity.
Defined.

Lemma killed_wait_panics_witness : (unalertable_wait_sem 9000 1000 1 (SAddr 300);; resume 1) (demo child_killed) = Panic.
Proof.
  apply (killed_wait_panics 9000 1000 1 300 (mkSem false 0 []) (demo_this child_killed 1) (demo child_killed)).
  - apply demo_kinv. vm_compute. reflexivity.
  - apply demo_in_code. vm_compute. reflexivity.
  - vm_compute. reflexivity.
  - vm_compute. reflexivity.
  - cbn. lia.
Defined.
