(* ===== verification/ForkCall.v ===== *)
(** * [fork] of [kernel/proc.c]

    The call works on all parts of the kernel: the process tree (file [Sched]),
    the pages and tables (files [Mem], [PageTable], [Fork]), the open files (file
    [File]) and the user contexts.  [w_fs] has the descriptors and the working
    directory of the process that calls; those of other processes are in
    [w_openfile] and [w_cwd].  Kernel stacks are pages of the process model.
    [kalloc] does not return NULL here. *)

From Stdlib Require Import ZArith Lia.
From stdpp Require Import base tactics numbers gmap list.
From S2P Require Import Prelude BlockCache Mem PageTable Paging Fork Inode Pipe File Timer Sched.

Local Open Scope Z_scope.

Record UserContext : Type := mkUctx {
  u_spsr : Z;
  u_elr : Z;
  u_lr : Z;
  u_sp : Z;
  u_x : list Z }.

Record world (S : Type) : Type := mkWorld {
  w_k : kstate;
  w_mem : kmem;
  w_fs : fstate S;
  w_ucontext : gmap Z UserContext;
  w_openfile : gmap Z (list Z);
  w_cwd : gmap Z Z }.
Arguments mkWorld {S}.
Arguments w_k {S}.
Arguments w_mem {S}.
Arguments w_fs {S}.
Arguments w_ucontext {S}.
Arguments w_openfile {S}.
Arguments w_cwd {S}.

Definition p_set_elr (e : Z) (x : Proc) : Proc :=
  mkProc (p_killed x) (p_idle x) (p_pid x) (p_exitcode x) (p_state x) (p_children x) (p_parent x) (p_pt x) (p_kstack x) e (p_kcontext x).

Section fork.
(** [junk_elr] and [junk_ctx] are what a new kernel stack holds, [trap_return] is
    an address. *)
Context {S : Type} (junk_elr : Z) (junk_ctx : UserContext) (trap_return : Z).
Abbreviation WM := (M (world S)).

Definition w_set_k (k : kstate) (w : world S) : world S := mkWorld k (w_mem w) (w_fs w) (w_ucontext w) (w_openfile w) (w_cwd w).
Definition w_set_mem (m : kmem) (w : world S) : world S := mkWorld (w_k w) m (w_fs w) (w_ucontext w) (w_openfile w) (w_cwd w).
Definition w_set_fs (f : fstate S) (w : world S) : world S := mkWorld (w_k w) (w_mem w) f (w_ucontext w) (w_openfile w) (w_cwd w).
Definition w_set_ucontext (m : gmap Z UserContext) (w : world S) : world S := mkWorld (w_k w) (w_mem w) (w_fs w) m (w_openfile w) (w_cwd w).
Definition w_set_openfile (m : gmap Z (list Z)) (w : world S) : world S := mkWorld (w_k w) (w_mem w) (w_fs w) (w_ucontext w) m (w_cwd w).
Definition w_set_cwd (m : gmap Z Z) (w : world S) : world S := mkWorld (w_k w) (w_mem w) (w_fs w) (w_ucontext w) (w_openfile w) m.

Definition on_k {A} : M kstate A -> WM A := zoom w_k w_set_k.
Definition on_fs {A} : M (fstate S) A -> WM A := zoom w_fs w_set_fs.

(** [create_proc]; [init_proc] clears the table of files. *)
Definition fork_create : WM Z :=
  p ← on_k (create_proc junk_elr);
  modify (fun w => w_set_ucontext (<[p := junk_ctx]> (w_ucontext w)) w);;
  modify (fun w => w_set_openfile (<[p := replicate (Z.to_nat NOFILE) 0]> (w_openfile w)) w);;
  modify (fun w => w_set_cwd (<[p := 0]> (w_cwd w)) w);;
  mret p.

(** The new directory [temp], filled from the table [pt]: its table. *)
Definition fork_dir (pt : Z) : WM Z := fun w =>
  match fork_memory pt (mkVm (w_mem w) 0 []) with
  | Ret (_, s) => Ret (vm_pt s, w_set_mem (vm_mem s) w)
  | Panic => Panic
  | Block => Block
  | UB => UB
  end.

(** [memmove(child->ucontext, parent->ucontext, ...)] and [x[0] = 0]. *)
Definition fork_ucontext (parent child : Z) : WM unit :=
  m ← gets w_ucontext;
  u ← some_or_ub (m !! parent);
  modify (fun w => w_set_ucontext (<[child := mkUctx (u_spsr u) (u_elr u) (u_lr u) (u_sp u) (<[0%nat := 0]> (u_x u))]> (w_ucontext w)) w);;
  on_k (upd_proc child (p_set_elr (u_elr u))).

(** The loop over the descriptors [l] of the parent from number [i] on. *)
Fixpoint fork_files (child : Z) (l : list Z) (i : nat) : WM unit :=
  match l with
  | [] => mret tt
  | f :: l' =>
      (if f =? 0 then mret tt else
       g ← on_fs (file_dup f);
       modify (fun w => w_set_openfile (alter (fun t => <[i := g]> t) child (w_openfile w)) w));;
      fork_files child l' (Datatypes.S i)
  end.

Definition fork (c : Z) : WM Z :=
  child ← fork_create;
  parent ← on_k (thisproc c);
  if child =? 0 then mret (-1) else
  x ← on_k (load_proc parent);
  pt ← fork_dir (p_pt x);
  on_k (upd_proc child (p_set_pt pt));;
  on_k (upd_proc child (p_set_parent parent));;
  fork_ucontext parent child;;
  l ← gets (fun w => fs_openfile (w_fs w));
  fork_files child l 0;;
  cwd ← on_fs (ino (cwd ← gets is_cwd; inode_share cwd));
  modify (fun w => w_set_cwd (<[child := cwd]> (w_cwd w)) w);;
  y ← on_k (load_proc child);
  on_k (acquire_plock;; add_child parent child;; release_plock);;
  on_k (start_proc child trap_return 0);;
  mret (p_pid y).
End fork.
