(* ===== verification/ForkProps.v ===== *)
(** * [fork] makes a child with a copy of everything *)

From Stdlib Require Import ZArith Lia.
From stdpp Require Import base tactics numbers gmap list.
From S2P Require Import Prelude FsDefs Console BlockCache Mem PageTable Paging PagingProofs PagingDemo Fork ForkProofs Inode Pipe File FileProofs Timer Sched SchedProofs SemProofs ProcProofs ProcNew Kernel KernelProps ForkCall.

Local Open Scope Z_scope.

Lemma wp_both {S A} (m : M S A) (Q R : A -> S -> Prop) s : wp m Q s -> wp m R s -> wp m (fun a s' => Q a s' /\ R a s') s.
Proof. unfold wp. by destruct (m s) as [[a s']| | |]. Qed.

(** ** The process tree *)

Section tree.
Context (sched_timers junk_elr : Z).
Abbreviation kinv := (kinv sched_timers).

(** A process that [create_proc] made. *)
Definition blank (P : Proc) : Prop :=
  p_state P = UNUSED /\ p_parent P = 0 /\ p_idle P = false /\ p_killed P = false /\ p_children P = [].
(** No other process has its number. *)
Definition new_pid (s : kstate) (pid : Z) : Prop := forall q Q, k_procs s !! q = Some Q -> p_idle Q = false -> p_pid Q <> pid.

(** What neither the creation nor the start of a process changes. *)
Definition k_rest (s s' : kstate) : Prop :=
  k_waits s' = k_waits s /\ k_timers s' = k_timers s /\ k_ttbr0 s' = k_ttbr0 s /\ k_idle s' = k_idle s /\ k_panic s' = k_panic s.

Lemma create_exact s : kinv s ->
  wp (create_proc junk_elr) (fun p s' => kinv s' /\ k_this s' = k_this s /\ k_root s' = k_root s /\ p <> 0 /\ k_procs s !! p = None /\
    (exists P, k_procs s' = <[p := P]> (k_procs s) /\ blank P /\ new_pid s (p_pid P)) /\
    k_rq s' = k_rq s /\ k_sems s' = <[SChild p := mkSem false 0 []]> (k_sems s) /\ k_rest s s') s.
Proof.
  intros H. eapply wp_mono; [apply (wp_both _ _ (fun p s' => (exists P, k_procs s' = <[p := P]> (k_procs s) /\ blank P) /\
    k_rq s' = k_rq s /\ k_sems s' = <[SChild p := mkSem false 0 []]> (k_sems s) /\ k_rest s s') _ (create_kinv sched_timers junk_elr s H))|].
  - unfold create_proc, kalloc_proc, init_proc, get_pid, init_sem, store_sem, alloc_page, release_plock. wp_prims. apply wp_acquire_plock; [apply H|]. wp_prims.
    destruct (k_freepid _); wp_prims; (split; [eexists; (split; [reflexivity|done])|done]).
  - intros p s' [(H1 & (H0 & Hp & pid & Eo & Hpid) & Ht & Hr) [(P & EP & HB) HO]]. split_and!; try apply HO; try done. exists P. split; [done|]. split; [done|].
    intros q Q HQ Hi. assert (p_pid P = pid) as ->.
    { assert (obs s' !! p = Some (view_proc P)) as E by (apply obs_proc; by rewrite EP, lookup_insert_eq). rewrite Eo, lookup_insert_eq in E. by apply (f_equal (fun o => default 0 (v_pid <$> o))) in E. }
    by apply (Hpid q (view_proc Q)); [apply obs_proc|].
Qed.

(** Fields that the scheduler does not look at. *)
Lemma kinv_pt_elr p P pt e s : kinv s -> k_procs s !! p = Some P -> kinv (k_set_procs (<[p := p_set_elr e (p_set_pt pt P)]> (k_procs s)) s).
Proof.
  intros H HP. apply (kinv_ext _ s); [done|eapply sched_ok_upd; [apply H|exact HP|done|done]|apply H|done|].
  unfold obs. cbn. rewrite fmap_insert. apply insert_id. by rewrite lookup_fmap, HP.
Qed.

(** The child gets its table, its context and its parent, and is started. *)
Definition forked_proc (t pt e trap_return : Z) (P : Proc) : Proc :=
  p_set_state RUNNABLE (p_set_kcontext (KEntry trap_return 0) (p_set_elr e (p_set_parent t (p_set_pt pt P)))).

Lemma start_rest p P e a s :
  k_plock s = false -> k_sched_lock s = false -> k_procs s !! p = Some P -> p_state P = UNUSED -> p_parent P <> 0 ->
  wp (start_proc p e a) (fun _ s' => k_rq s' = p :: k_rq s /\ k_sems s' = k_sems s /\ k_rest s s') s.
Proof.
  intros Hpl Hsl HP Hs Hpar. unfold start_proc, release_plock. wp_prim. apply wp_acquire_plock; [done|]. wp_prim. eapply wp_load_proc; [exact HP|].
  wp_prims. rewrite (proj2 (Z.eqb_neq _ 0) Hpar). wp_prims. eapply wp_upd_proc; [exact HP|]. unfold activate_proc, _activate_proc, release_sched_lock. wp_prims.
  apply wp_acquire_sched; [done|]. wp_prim. eapply wp_load_proc; [apply lookup_insert_eq|]. cbn [p_state p_set_kcontext]. rewrite Hs.
  rewrite bool_decide_false by naive_solver. rewrite bool_decide_true by naive_solver. wp_prims. eapply wp_upd_proc; [apply lookup_insert_eq|]. by wp_prims.
Qed.

Lemma fork_link_wp c p P T pt e trap_return s s1 :
  kinv s -> is_running s c T -> k_procs s !! p = Some P -> blank P -> p <> k_root s ->
  s1 = k_set_procs (<[p := p_set_elr e (p_set_parent (k_this s c) (p_set_pt pt P))]> (k_procs s)) s ->
  wp (acquire_plock;; add_child (k_this s c) p;; release_plock) (fun _ s2 =>
    wp (start_proc p trap_return 0) (fun _ s3 => kinv s3 /\ k_this s3 = k_this s /\ k_root s3 = k_root s /\
      k_procs s3 = <[p := forked_proc (k_this s c) pt e trap_return P]> (<[k_this s c := p_set_children (p :: p_children T) T]> (k_procs s)) /\
      k_rq s3 = p :: k_rq s /\ k_sems s3 = k_sems s /\ k_rest s s3) s2) s1.
Proof.
  intros H (Hc & HT & HTs & HTi) HP (Hs & Hpar & Hi & _ & _) Hpr ->. assert (p <> k_this s c) as Hne by (intros ->; simplify_eq; congruence).
  set (P' := p_set_elr e (p_set_pt pt P)). pose proof (kinv_pt_elr p P pt e s H HP) as H'. set (s0 := k_set_procs _ s) in H'.
  unfold add_child, release_plock. wp_prim. apply wp_acquire_plock; [apply H|]. wp_prim. eapply wp_upd_proc; [cbn; rewrite lookup_insert_ne by done; exact HT|]. wp_prim.
  set (s2 := k_set_plock false _).
  assert (k_procs s2 = <[k_this s c := p_set_children (p :: p_children T) T]> (<[p := p_set_parent (k_this s c) P']> (k_procs s0))) as E2
    by (cbn; by rewrite insert_insert_eq).
  assert (kinv s2) as H2.
  { eapply (attach_state sched_timers s0 p (k_this s c) P' T s2); try done; [by cbn; rewrite lookup_insert_eq|by cbn; rewrite lookup_insert_ne|left; by rewrite HTs|].
    unfold s2, s0, k_set_procs, k_set_plock. cbn. by rewrite (ki_plock _ s H). }
  assert (k_this s c <> 0) as H0. { intros E. pose proof (obs_proc s _ _ HT) as Ho. rewrite E, (to_zero _ _ _ _ _ (ki_tree _ s H)) in Ho. done. }
  assert (k_procs s2 !! p = Some (p_set_parent (k_this s c) P')) as Hp2 by (rewrite E2, lookup_insert_ne, lookup_insert_eq by done; done).
  eapply wp_mono; [apply wp_both; [by apply (start_child_wp sched_timers p (p_set_parent (k_this s c) P') trap_return 0 s2 H2)|by apply (start_rest p (p_set_parent (k_this s c) P')); [apply H2|apply H2|..]]|].
  intros r s3 [(G1 & G2 & G3 & _ & E3) (R1 & R2 & R3)]. split_and!; try done. rewrite E3, E2. cbn. rewrite (insert_insert_ne _ p (k_this s c)) by done. 
  rewrite !insert_insert_eq, insert_insert_ne by done. done.
Qed.
End tree.

(** ** Open files *)

Section files.
Context {S : Type}.
Implicit Types (fs : fstate S) (w : world S).

(** The files after one more reference for every descriptor of [l]. *)
Record dupped (l : list Z) fs fs' : Prop := {
  du_files : forall f, f <> 0 -> file_at fs' f = f_with_ref (f_ref (file_at fs f) + refs l f) (file_at fs f);
  du_rest : fs' = fs_with_files (fs_files fs') fs }.

(** The descriptors of [l] are NULL or open files. *)
Definition all_open (l : list Z) fs : Prop := forall f, f ∈ l -> f <> 0 -> is_fp f /\ 1 <= f_ref (file_at fs f).

Lemma file_dup_run f fs : fs_lock fs = false -> is_fp f -> 1 <= f_ref (file_at fs f) ->
  file_dup f fs = Ret (f, fs_with_files (<[f := f_with_ref (f_ref (file_at fs f) + 1) (file_at fs f)]> (fs_files fs)) fs).
Proof.
  intros Hl Hf Hr. destruct fs as [i b m ps o]. cbn in Hl. subst b. unfold file_dup, acquire_ftable, load_file, store_file, release_ftable, mbind, M_bind, gets, modify. cbn.
  rewrite bool_decide_eq_true_2 by exact Hf. unfold file_at in *. cbn in *. unfold ASSERT. by rewrite (proj2 (Z.leb_le _ _) Hr).
Qed.

Lemma file_at_insert f g x fs : file_at (fs_with_files (<[f := x]> (fs_files fs)) fs) g = if decide (g = f) then x else file_at fs g.
Proof. unfold file_at. cbn. rewrite lookup_insert. repeat case_decide; done || congruence. Qed.

Lemma f_with_ref_id f : f_with_ref (f_ref f) f = f.
Proof. by destruct f. Qed.

Lemma refs_of_cons g l f : refs (g :: l) f = refs l f + (if decide (f = g) then 1 else 0).
Proof. unfold refs. rewrite filter_cons. repeat case_decide; try congruence; cbn [length]; lia. Qed.

Lemma fork_files_wp child l : forall a w, fs_lock (w_fs w) = false -> all_open l (w_fs w) -> w_openfile w !! child = Some (a ++ replicate (length l) 0) ->
  wp (fork_files child l (length a)) (fun _ w' => exists fs', dupped l (w_fs w) fs' /\ w' = w_set_openfile (<[child := a ++ l]> (w_openfile w)) (w_set_fs fs' w)) w.
Proof.
  induction l as [|f l IH]; intros a w Hlock Hop Ht.
  - cbn [fork_files]. wp_prim. exists (w_fs w). split; [split; [|by destruct (w_fs w)]|].
    + intros f _. unfold refs. cbn. by rewrite Z.add_0_r, f_with_ref_id.
    + destruct w. cbn in *. by rewrite insert_id.
  - assert (all_open l (w_fs w)) as Hop' by (intros g Hg; apply Hop; by right). cbn [fork_files replicate length] in *. wp_prim.
    destruct (Z.eqb_spec f 0) as [->|Hf].
    + wp_prim. specialize (IH (a ++ [0]) w Hlock Hop'). rewrite length_app, Nat.add_comm in IH. cbn [length Nat.add] in IH. rewrite <-app_assoc in IH.
      eapply wp_mono; [by apply IH|]. cbn beta. intros [] w' (fs' & [D1 D2] & ->). exists fs'. rewrite <-app_assoc. split; [|done]. split; [|done].
      intros g Hg. rewrite refs_of_cons, decide_False, Z.add_0_r by done. by apply D1.
    + destruct (Hop f ltac:(left) Hf) as [Hfp Hr]. wp_prim. apply wp_zoom. unfold wp at 1. rewrite (file_dup_run f) by done. wp_prim.
      set (x := f_with_ref _ _). set (w1 := w_set_openfile _ _).
      specialize (IH (a ++ [f]) w1). rewrite length_app, Nat.add_comm in IH. cbn [length Nat.add] in IH.
      eapply wp_mono; [apply IH|].
      * done.
      * intros g Hg Hg0. destruct (Hop' g Hg Hg0) as [G1 G2]. split; [done|]. cbn [w1 w_set_openfile w_set_fs w_fs]. rewrite file_at_insert. case_decide; [subst; cbn; lia|done].
      * cbn [w1 w_set_openfile w_set_fs w_fs w_openfile]. rewrite lookup_alter_eq, Ht. cbn. rewrite insert_app_r_alt, Nat.sub_diag by lia. cbn. by rewrite <-app_assoc.
      * intros [] w' (fs' & [D1 D2] & ->). exists fs'. split; [split|].
        -- intros g Hg. rewrite D1 by done. cbn [w1 w_set_openfile w_set_fs w_fs]. rewrite file_at_insert, refs_of_cons. destruct (decide (g = f)) as [->|]; [|by rewrite Z.add_0_r].
           unfold x. unfold f_with_ref. cbn. f_equal. lia.
        -- rewrite D2. cbn. by destruct (w_fs w).
        -- unfold w1, w_set_openfile, w_set_fs. cbn. f_equal. rewrite <-app_assoc. apply map_eq. intros k. rewrite !lookup_insert. case_decide; [done|]. by rewrite lookup_alter_ne.
Qed.
End files.

(** ** The call *)

Section fork.
Context {S : Type} (sched_timers junk_elr : Z) (junk_ctx : UserContext) (trap_return : Z).
Implicit Types w : world S.

(** When [fork] can be called on CPU [c] by process [T] with user context [u]. *)
Record can_fork (c : Z) (T : Proc) (u : UserContext) (own : gmap Z (nat * Z)) (r : Z) (F L : list Z) w : Prop := {
  cf_k : kinv sched_timers (w_k w);
  cf_this : in_code (w_k w) c T;
  cf_pt : p_pt T = kpage r;
  cf_mem : forkable own r F L (w_mem w);
  cf_ctx : w_ucontext w !! k_this (w_k w) c = Some u;
  cf_lock : fs_lock (w_fs w) = false;
  cf_files : all_open (fs_openfile (w_fs w)) (w_fs w);
  cf_nofile : length (fs_openfile (w_fs w)) = Z.to_nat NOFILE;
  cf_cwd : is_Some (is_inodes (fs_ino (w_fs w)) !! is_cwd (fs_ino (w_fs w))) }.

(** [p] is a new runnable child of [t] that starts at [trap_return]. *)
Record new_child (p t pid : Z) (T C : Proc) (s s' : kstate) : Prop := {
  nc_new : k_procs s !! p = None /\ p <> 0;
  nc_procs : k_procs s' = <[p := C]> (<[t := p_set_children (p :: p_children T) T]> (k_procs s));
  nc_pid : p_pid C = pid /\ new_pid s pid;
  nc_state : p_state C = RUNNABLE /\ p_kcontext C = KEntry trap_return 0 /\ p_parent C = t /\ p_killed C = false /\ p_children C = [] }.

(** The user context of the child: that of the parent, with result 0. *)
Definition child_ctx (u : UserContext) : UserContext := mkUctx (u_spsr u) (u_elr u) (u_lr u) (u_sp u) (<[0%nat := 0]> (u_x u)).

(** The descriptors of the child are those of the parent, and the working
    directory is the same inode; both are counted.  Other tables, the content of
    files, pipes and the block cache do not change. *)
Record child_files (p : Z) w w' : Prop := {
  ch_table : w_openfile w' = <[p := fs_openfile (w_fs w)]> (w_openfile w);
  ch_refs : forall f, f <> 0 -> file_at (w_fs w') f = f_with_ref (f_ref (file_at (w_fs w) f) + refs (fs_openfile (w_fs w)) f) (file_at (w_fs w) f);
  ch_cwd : w_cwd w' = <[p := is_cwd (fs_ino (w_fs w))]> (w_cwd w);
  ch_rest : exists i, is_inodes (fs_ino (w_fs w)) !! is_cwd (fs_ino (w_fs w)) = Some i /\
    w_fs w' = fs_with_files (fs_files (w_fs w')) (fs_with_ino (is_with_inodes (is_head (fs_ino (w_fs w)))
      (<[is_cwd (fs_ino (w_fs w)) := i_with_rc (i_rc i + 1) i]> (is_inodes (fs_ino (w_fs w)))) (fs_ino (w_fs w))) (w_fs w)) }.

(** Of the processes, the scheduler and the semaphores only these change. *)
Record only_child (p : Z) (s s' : kstate) : Prop := {
  oc_rq : k_rq s' = p :: k_rq s;
  oc_sems : k_sems s' = <[SChild p := mkSem false 0 []]> (k_sems s);
  oc_rest : k_this s' = k_this s /\ k_root s' = k_root s /\ k_rest s s' }.

Lemma inode_share_wp p i (Q : Z -> istate S -> Prop) s :
  is_inodes s !! p = Some i -> Q p (is_with_inodes (is_head s) (<[p := i_with_rc (i_rc i + 1) i]> (is_inodes s)) s) -> wp (inode_share p) Q s.
Proof. intros Hi HQ. unfold inode_share, load_ino, store_ino, wp, mbind, M_bind, modify, some_or_ub. by rewrite Hi. Qed.

Lemma fork_dir_wp pt (Q : Z -> world S -> Prop) w :
  wp (fork_memory pt) (fun _ s => Q (vm_pt s) (w_set_mem (vm_mem s) w)) (mkVm (w_mem w) 0 []) -> wp (fork_dir pt) Q w.
Proof. unfold wp, fork_dir. by destruct (fork_memory pt _) as [[[] s]| | |]. Qed.

(** What [fork] leaves behind, with child [p]: the child is runnable, a child of
    the caller, and starts at [trap_return] with the user context of the caller
    except for the result 0.  Its address space has, at every user address, a
    private copy of the page of the caller with the same bytes, and no page where
    the caller has none; the space of the caller and all pages in use are as
    before.  It has the descriptors of the caller, each counted once more, and its
    working directory.  No other process, context or table of descriptors, no
    pipe, no inode and no block of the cache changes; the run queue has the child
    in front, and the child has a semaphore. *)
Record duplicated (c : Z) (T : Proc) (u : UserContext) (own : gmap Z (nat * Z)) (r : Z) (F : list Z) (p pid : Z) w w' : Prop := {
  dp_k : kinv sched_timers (w_k w') /\ only_child p (w_k w) (w_k w');
  dp_ctx : w_ucontext w' = <[p := child_ctx u]> (w_ucontext w);
  dp_child : exists C r', new_child p (k_this (w_k w) c) pid T C (w_k w) (w_k w') /\ p_elr C = u_elr u /\ p_pt C = kpage r' /\ forked own r F (w_mem w) r' (w_mem w');
  dp_files : child_files p w w' }.

Lemma fork_wp c T u own r F L w :
  can_fork c T u own r F L w -> wp (fork junk_elr junk_ctx trap_return c) (fun pid w' => exists p, duplicated c T u own r F p pid w w') w.
Proof.
  intros [Hk HT Hpt Hm Hctx Hlock Hop Hno [i Hi]]. pose proof HT as [HR _]. pose proof HR as (Hc & HT' & HTs & HTi).
  set (t := k_this (w_k w) c) in *.
  unfold fork, fork_create, on_k. wp_prims. apply wp_zoom. eapply wp_mono; [by apply (create_exact sched_timers junk_elr)|].
  intros p k1 (H1 & Et & Er & Hp0 & Hpn & (P & E1 & HB & Hpid) & Q1 & Q2 & Q3). wp_prims. apply wp_zoom. unfold thisproc. wp_prims.
  assert (p <> t) as Hpt' by congruence.
  assert (p <> k_root (w_k w)) as Hpr.
  { intros ->. destruct (to_root _ _ _ _ _ (ki_tree _ _ Hk)) as (x & Hx & _). destruct (proj1 (obs_lookup _ _ _) Hx) as (X & HX & _). congruence. }
  rewrite (proj2 (Z.eqb_neq p 0) Hp0). wp_prims. apply wp_zoom. destruct w as [k m fs uc oft cw]. cbn in *. subst t. rewrite Et.
  eapply wp_load_proc; [rewrite E1, lookup_insert_ne by done; exact HT'|]. cbn beta.
  wp_prim. apply fork_dir_wp. rewrite Hpt. eapply wp_mono; [by apply (fork_memory_forked own r F L)|]. cbn. intros _ vs (r' & -> & Hfk).
  wp_prim. apply wp_zoom. eapply wp_upd_proc; [cbn; by rewrite E1, lookup_insert_eq|].
  wp_prim. apply wp_zoom. eapply wp_upd_proc; [cbn; by rewrite lookup_insert_eq|].
  unfold fork_ucontext, on_k. wp_prims. cbn. rewrite lookup_insert_ne, Hctx by done. wp_prims. apply wp_zoom. eapply wp_upd_proc; [cbn; by rewrite lookup_insert_eq|].
  wp_prims. cbn. eapply wp_mono; [apply (fork_files_wp p _ []); cbn; [done|done|by rewrite lookup_insert_eq, Hno]|].
  cbn. intros [] _ (fs' & [D1 D2] & ->). wp_prims. unfold on_fs, ino. apply wp_zoom. cbn. apply wp_zoom. wp_prims.
  rewrite D2. cbn. eapply inode_share_wp; [exact Hi|]. wp_prims. cbn. apply wp_zoom. eapply wp_load_proc; [cbn; by rewrite lookup_insert_eq|]. cbn.
  wp_prim. apply wp_zoom. cbn. rewrite <-Et.
  eapply wp_mono; [apply (fork_link_wp sched_timers c p P T (kpage r') (u_elr u) trap_return k1);
    [done| |by rewrite E1, lookup_insert_eq|done|by rewrite Er|unfold k_set_procs; cbn; by rewrite !insert_insert_eq]|].
  { split; [done|]. rewrite Et, E1, lookup_insert_ne by done. done. }
  cbn beta. intros [] k2 Hw. wp_prim. apply wp_zoom. eapply wp_mono; [exact Hw|]. intros pid k3 (H3 & Et3 & Er3 & E3 & Z1 & Z2 & Z3). rewrite Et in *. wp_prim. cbn.
  exists p. split; cbn [w_k w_mem w_ucontext w_set_k w_set_cwd w_set_openfile w_set_fs w_set_ucontext w_set_mem]; [|apply insert_insert_eq| |].
  - split; [done|]. split; [by rewrite Z1, Q1|by rewrite Z2, Q2|]. unfold k_rest in *. split; [done|]. split; [by rewrite Er3|]. intuition congruence.
  - exists (forked_proc (k_this k c) (kpage r') (u_elr u) trap_return P), r'. split_and!; try done.
    destruct HB as (B1 & B2 & B3 & B4 & B5). split; [done| |split; [done|exact Hpid]|done].
    rewrite E3, E1. by rewrite (insert_insert_ne _ (k_this k c) p), insert_insert_eq by done.
  - split; cbn.
    + apply insert_insert_eq.
    + exact D1.
    + apply insert_insert_eq.
    + by exists i.
Qed.
End fork.

(** ** A process that forks *)

Lemma demo_forkable : forkable vm_demo_own 9 free_pages [0] vm_demo_mem.
Proof.
  split; [apply vm_demo_inv| | |unfold free_pages; cbn [length]; rewrite length_seqZ; lia].
  - intros va Hva [_ ->]%demo_valid; [|done]. split; [vm_compute; discriminate..|]. exists 13, (demo_page 7). split; [vm_compute; reflexivity|].
    split; [unfold page_no; rewrite NPAGES_eq; lia|]. split; [apply not_free; lia|]. split; [rewrite demo_table by lia; reflexivity|reflexivity].
  - intros va Hva [E _]%demo_valid; [|done]. rewrite E. left.
Qed.

(** [root_proc] runs on CPU 0 with this memory, has file 1 open twice, and is in
    the system call [clone]. *)
Definition fork_calls : list call := [CYield 0; CResume 0].
Definition fork_proc : Proc := p_set_elr 64 (p_set_pt (kpage 9) (demo_this fork_calls 0)).
Definition fork_k : kstate := k_set_procs (<[5000 := fork_proc]> (k_procs (demo fork_calls))) (demo fork_calls).
Definition fork_fs : fstate unit :=
  mkFstate (mkIstate (mkSuperBlock 0 0 0 0 0 0 0) tt false [] {[ 700 := mkInode 1 1 1 true zero_entry ]} 700 (mkConsole false 0 [] 0 0 0 []) false 700)
    false {[ 1 := mkFile FD_INODE 2 true true 700 0 ]} ∅ ([1; 1] ++ replicate 14 0).
Definition fork_ctx : UserContext := mkUctx 0 64 0 4096 (17 :: replicate 7 0 ++ 220 :: replicate 9 0).
Definition fork_world : world unit := mkWorld fork_k vm_demo_mem fork_fs {[ 5000 := fork_ctx ]} ∅ ∅.

Lemma fork_files_open : all_open (fs_openfile fork_fs) fork_fs.
Proof.
  assert (Forall (fun f => f = 0 \/ f = 1) (fs_openfile fork_fs)) as H by (repeat (constructor; [lia|]); constructor).
  intros f Hf Hf0. rewrite Forall_forall in H. destruct (H f Hf) as [->| ->]; [done|]. split; [unfold is_fp, NFILE; lia|]. by vm_compute.
Qed.

Lemma fork_world_ok : can_fork 1000 0 fork_proc fork_ctx vm_demo_own 9 free_pages [0] fork_world.
Proof.
  assert (in_code (demo fork_calls) 0 (demo_this fork_calls 0)) as HC by (apply demo_in_code; vm_compute; reflexivity).
  assert (k_this (demo fork_calls) 0 = 5000) as Et by (vm_compute; reflexivity).
  assert (kinv 1000 (demo fork_calls)) as HK by (apply demo_kinv; vm_compute; reflexivity).
  unfold fork_world, fork_k, fork_proc. revert HC Et HK. generalize (demo_this fork_calls 0) (demo fork_calls). intros P d [(Hc & HP & Hs & Hi) Hk] Et HK.
  rewrite Et in HP. split; cbn [w_k w_mem w_fs w_ucontext k_this k_set_procs]; rewrite ?Et.
  - by apply (kinv_pt_elr 1000 5000).
  - split; [|exact Hk]. split; [exact Hc|]. split; [cbn; rewrite Et; apply lookup_insert_eq|done].
  - reflexivity.
  - apply demo_forkable.
  - reflexivity.
  - reflexivity.
  - apply fork_files_open.
  - reflexivity.
  - eexists. reflexivity.
Qed.
