(* ===== verification/Switch.v ===== *)
(** * Entry of traps and switch of contexts: [aarch64/trap.S], [aarch64/swtch.S]

    The instructions of the two files on a small part of AArch64: the general
    registers, the stack pointers, the registers of an exception, and memory as
    64-bit words at their addresses.  A pair store or load through [sp] needs a
    stack pointer that is a multiple of 16.  [trap_global_handler] and [proc_entry]
    are compiled C code here, known by the calling convention: [x19] to [x29] and
    [sp] come back as they were. *)

From Stdlib Require Import ZArith Lia.
From stdpp Require Import base tactics numbers gmap list.
From S2P Require Import Prelude BlockCache Mem PageTable Paging Fork Inode Pipe File Timer Sched ForkCall.

Local Open Scope Z_scope.

(** ** The machine *)

(** [SP] is the stack pointer of the kernel; that of the user is [SP_EL0]. *)
Inductive reg : Type := X (n : nat) | SP | SP_EL0 | SPSR_EL1 | ELR_EL1 | PC | PSTATE.
#[export] Instance reg_eq_dec : EqDecision reg.
Proof. solve_decision. Defined.

Record cpu : Type := mkCpu {
  c_reg : reg -> Z;
  c_mem : gmap Z Z }.
Abbreviation CM := (M cpu).

Definition rget (r : reg) : CM Z := gets (fun m => c_reg m r).
Definition rset (r : reg) (v : Z) : CM unit := modify (fun m => mkCpu (fun r' => if decide (r' = r) then v else c_reg m r') (c_mem m)).
Definition load_word (a : Z) : CM Z := fun m => some_or_ub (c_mem m !! a) m.
Definition store_word (a v : Z) : CM unit :=
  load_word a;;
  modify (fun m => mkCpu (c_reg m) (<[a := v]> (c_mem m))).

(** [PUSHP a b] is [stp a, b, [sp, #-0x10]!] and [POPP a b] is
    [ldp a, b, [sp], #0x10], as the macros of both files have it. *)
Inductive instr : Type :=
| PUSHP (a b : reg)
| POPP (a b : reg)
| MOV (d s : reg)
| MRS (d s : reg)
| MSR (d s : reg)
| STR (s b : reg)
| BL (f next : Z)
| RET
| ERET.

Definition step (i : instr) : CM unit :=
  match i with
  | PUSHP a b =>
      sp ← rget SP;
      if negb (sp mod 16 =? 0) then ub else
      va ← rget a;
      vb ← rget b;
      store_word (u64 (sp - 16)) va;;
      store_word (u64 (sp - 16) + 8) vb;;
      rset SP (u64 (sp - 16))
  | POPP a b =>
      sp ← rget SP;
      if negb (sp mod 16 =? 0) then ub else
      va ← load_word sp;
      vb ← load_word (sp + 8);
      rset a va;;
      rset b vb;;
      rset SP (u64 (sp + 16))
  | MOV d s | MRS d s | MSR d s => v ← rget s; rset d v
  | STR s b => v ← rget s; a ← rget b; store_word a v
  | BL f next => rset (X 30) next;; rset PC f
  | RET => v ← rget (X 30); rset PC v
  | ERET => pc ← rget ELR_EL1; ps ← rget SPSR_EL1; rset PC pc;; rset PSTATE ps
  end.
Definition exec (l : list instr) : CM unit := for_each l step.

(** What the processor does at an exception before the first instruction: the
    address and the state of the interrupted program go to their registers,
    interrupts are masked. *)
Definition EL1h_masked : Z := 965.
Definition take_exception (vector : Z) : CM unit :=
  pc ← rget PC;
  ps ← rget PSTATE;
  rset ELR_EL1 pc;;
  rset SPSR_EL1 ps;;
  rset PC vector;;
  rset PSTATE EL1h_masked.

(** ** The code *)

Definition trap_entry (trap_global_handler trap_return : Z) : list instr :=
  [ PUSHP (X 16) (X 17); PUSHP (X 14) (X 15); PUSHP (X 12) (X 13);
    PUSHP (X 10) (X 11); PUSHP (X 8) (X 9); PUSHP (X 6) (X 7);
    PUSHP (X 4) (X 5); PUSHP (X 2) (X 3); PUSHP (X 0) (X 1);
    MRS (X 1) SP_EL0;
    PUSHP (X 30) (X 1);
    MRS (X 0) SPSR_EL1;
    MRS (X 1) ELR_EL1;
    PUSHP (X 0) (X 1);
    MOV (X 0) SP;
    BL trap_global_handler trap_return ].

Definition trap_return : list instr :=
  [ POPP (X 0) (X 1);
    MSR SPSR_EL1 (X 0);
    MSR ELR_EL1 (X 1);
    POPP (X 30) (X 1);
    MSR SP_EL0 (X 1);
    POPP (X 0) (X 1); POPP (X 2) (X 3); POPP (X 4) (X 5);
    POPP (X 6) (X 7); POPP (X 8) (X 9); POPP (X 10) (X 11);
    POPP (X 12) (X 13); POPP (X 14) (X 15); POPP (X 16) (X 17);
    ERET ].

Definition swtch : list instr :=
  [ PUSHP (X 28) (X 29); PUSHP (X 26) (X 27); PUSHP (X 24) (X 25);
    PUSHP (X 22) (X 23); PUSHP (X 20) (X 21); PUSHP (X 1) (X 19);
    PUSHP (X 30) (X 0);
    MOV (X 2) SP;
    STR (X 2) (X 1);
    MOV SP (X 0);
    POPP (X 30) (X 0); POPP (X 1) (X 19); POPP (X 20) (X 21);
    POPP (X 22) (X 23); POPP (X 24) (X 25); POPP (X 26) (X 27);
    POPP (X 28) (X 29);
    RET ].

(** ** The structures of [proc.h] in memory *)

Record KernelContext : Type := mkKctx {
  kc_lr : Z;
  kc_x0 : Z;
  kc_x1 : Z;
  kc_x : list Z }.

Definition uwords (u : UserContext) : list Z := [u_spsr u; u_elr u; u_lr u; u_sp u] ++ u_x u.
Definition kwords (k : KernelContext) : list Z := [kc_lr k; kc_x0 k; kc_x1 k] ++ kc_x k.

(** The words [l] are in memory from address [a] on. *)
Definition words (a : Z) (l : list Z) (m : gmap Z Z) : Prop :=
  forall i v, l !! i = Some v -> m !! (a + 8 * Z.of_nat i) = Some v.

(** The [n] words from [a] on are in memory, with any content. *)
Definition mapped (a : Z) (n : nat) (m : gmap Z Z) : Prop := forall i, (i < n)%nat -> is_Some (m !! (a + 8 * Z.of_nat i)).

(** The values of registers in order. *)
Definition xregs (first n : nat) (m : cpu) : list Z := (fun i => c_reg m (X i)) <$> seq first n.

(** The frame of a trap, and the context of a switch, for the registers of [m]. *)
Definition user_context (m : cpu) : UserContext := mkUctx (c_reg m PSTATE) (c_reg m PC) (c_reg m (X 30)) (c_reg m SP_EL0) (xregs 0 18 m).
Definition kernel_context (m : cpu) : KernelContext := mkKctx (c_reg m (X 30)) (c_reg m (X 0)) (c_reg m (X 1)) (xregs 19 11 m).

(** ** Sequences of pushes and pops *)

Definition flat (l : list (reg * reg)) : list reg := concat ((fun p => [p.1; p.2]) <$> l).
Definition pushes (l : list (reg * reg)) : list instr := (fun p => PUSHP p.1 p.2) <$> l.
Definition pops (l : list (reg * reg)) : list instr := (fun p => POPP p.1 p.2) <$> l.

Lemma flat_app l l' : flat (l ++ l') = flat l ++ flat l'.
Proof. unfold flat. by rewrite fmap_app, concat_app. Qed.
Lemma length_flat l : length (flat l) = (2 * length l)%nat.
Proof. induction l as [|p l IH]; [done|]. unfold flat in *. cbn. rewrite IH. lia. Qed.
Lemma elem_of_flat r l : r ∈ flat l <-> exists p, p ∈ l /\ (r = p.1 \/ r = p.2).
Proof. induction l as [|p l IH]; [set_solver|]. change (flat (p :: l)) with (p.1 :: p.2 :: flat l). rewrite !elem_of_cons, IH. set_solver. Qed.

Lemma exec_app l l' (Q : unit -> cpu -> Prop) m : wp (exec l) (fun _ => wp (exec l') Q) m -> wp (exec (l ++ l')) Q m.
Proof.
  unfold exec. revert m. induction l as [|i l IH]; intros m; [done|]. cbn [for_each app]. intros H. rewrite wp_bind in H |- *.
  eapply wp_mono; [exact H|]. intros ? ? H'. by apply IH.
Qed.
Lemma exec_cons i l (Q : unit -> cpu -> Prop) m : wp (step i) (fun _ => wp (exec l) Q) m -> wp (exec (i :: l)) Q m.
Proof. intros H. unfold exec. cbn [for_each]. by apply wp_bind. Qed.

Lemma words_cat a l l' m : words a (l ++ l') m <-> words a l m /\ words (a + 8 * Z.of_nat (length l)) l' m.
Proof.
  split.
  - intros H. split; intros i v Hi.
    + apply H. by apply lookup_app_l_Some.
    + specialize (H (length l + i)%nat v). rewrite lookup_app_r, Nat.add_comm, Nat.add_sub in H by lia. rewrite <-(H Hi). f_equal. lia.
  - intros [H1 H2] i v [Hi|[Hl Hi]]%lookup_app_Some; [by apply H1|]. rewrite <-(H2 _ _ Hi). f_equal. lia.
Qed.
Lemma words_head a v l m : words a (v :: l) m -> m !! a = Some v.
Proof. intros H. specialize (H 0%nat v eq_refl). cbn in H. by rewrite Z.add_0_r in H. Qed.
Lemma words_frame a l m m' : words a l m -> (forall b, a <= b < a + 8 * Z.of_nat (length l) -> m' !! b = m !! b) -> words a l m'.
Proof. intros H Hf i v Hi. rewrite Hf; [by apply H|]. apply lookup_lt_Some in Hi. lia. Qed.
Lemma words_mapped a l m : words a l m -> mapped a (length l) m.
Proof. intros H i [v Hi]%lookup_lt_is_Some_2. exists v. by apply H. Qed.

Lemma wp_store_word a v (Q : unit -> cpu -> Prop) m :
  is_Some (c_mem m !! a) -> Q tt (mkCpu (c_reg m) (<[a := v]> (c_mem m))) -> wp (store_word a v) Q m.
Proof. intros [w Hw] HQ. unfold store_word. apply wp_bind. unfold wp, load_word. rewrite Hw. exact HQ. Qed.
Lemma wp_load_word a v (Q : Z -> cpu -> Prop) m : c_mem m !! a = Some v -> Q v m -> wp (load_word a) Q m.
Proof. intros Hv HQ. unfold wp, load_word. by rewrite Hv. Qed.
Lemma wp_rset r v (Q : unit -> cpu -> Prop) m :
  Q tt (mkCpu (fun r' => if decide (r' = r) then v else c_reg m r') (c_mem m)) -> wp (rset r v) Q m.
Proof. done. Qed.

(** The effect of pushes: the words [ws] are below the old stack pointer, and no
    other register or word changes. *)
Record stacked (m : cpu) (ws : list Z) (m' : cpu) : Prop := {
  sk_sp : c_reg m' SP = c_reg m SP - 8 * Z.of_nat (length ws);
  sk_words : words (c_reg m' SP) ws (c_mem m');
  sk_mem : forall a, a < c_reg m' SP \/ c_reg m SP <= a -> c_mem m' !! a = c_mem m !! a;
  sk_mapped : forall a, is_Some (c_mem m !! a) -> is_Some (c_mem m' !! a) }.
Record pushed (m : cpu) (ws : list Z) (m' : cpu) : Prop := {
  pu_stack : stacked m ws m';
  pu_regs : forall r, r <> SP -> c_reg m' r = c_reg m r }.

Lemma stacked_trans m ws m' ws' m'' : stacked m ws m' -> stacked m' ws' m'' -> stacked m (ws' ++ ws) m''.
Proof.
  intros [S1 W1 M1 P1] [S2 W2 M2 P2]. split.
  - rewrite S2, S1, length_app. lia.
  - apply words_cat. split; [done|]. replace (c_reg m'' SP + 8 * Z.of_nat (length ws')) with (c_reg m' SP) by lia.
    apply (words_frame _ _ (c_mem m')); [done|]. intros b Hb. apply M2. lia.
  - intros a Ha. rewrite M2 by lia. apply M1. lia.
  - auto.
Qed.
Lemma stacked_same m0 m ws m' : c_reg m0 SP = c_reg m SP -> c_mem m0 = c_mem m -> stacked m ws m' -> stacked m0 ws m'.
Proof. intros E1 E2 [H1 H2 H3 H4]. split; by rewrite ?E1, ?E2. Qed.

Lemma pushp_wp a b m :
  a <> SP -> b <> SP -> c_reg m SP mod 16 = 0 -> 16 <= c_reg m SP < 2 ^ 64 -> mapped (c_reg m SP - 16) 2 (c_mem m) ->
  wp (step (PUSHP a b)) (fun _ => pushed m [c_reg m a; c_reg m b]) m.
Proof.
  intros Ha Hb Hal Hsp Hm. cbn [step]. unfold rget. wp_prims. rewrite Hal. cbn. rewrite (u64_small (c_reg m SP - 16)) by lia. wp_prims.
  apply wp_store_word; [specialize (Hm 0%nat); cbn in Hm; rewrite Z.add_0_r in Hm; apply Hm; lia|]. wp_prim.
  apply wp_store_word; [cbn; apply lookup_insert_is_Some'; right; apply (Hm 1%nat); lia|]. apply wp_rset. cbn.
  split; [split|]; cbn; rewrite ?(decide_True (P := SP = SP)) by done; [done|..].
  - intros [|[|i]] v [=<-]; cbn; [rewrite Z.add_0_r, lookup_insert_ne, lookup_insert_eq by lia; done|by rewrite lookup_insert_eq].
  - intros x Hx. rewrite !lookup_insert_ne by lia. done.
  - intros x Hx. apply lookup_insert_is_Some'. right. apply lookup_insert_is_Some'. by right.
  - intros r Hr. by rewrite decide_False.
Qed.

Lemma pushes_wp l m :
  (SP ∉ flat l) -> c_reg m SP mod 16 = 0 -> 16 * Z.of_nat (length l) <= c_reg m SP < 2 ^ 64 ->
  mapped (c_reg m SP - 16 * Z.of_nat (length l)) (2 * length l) (c_mem m) ->
  wp (exec (pushes l)) (fun _ => pushed m (c_reg m <$> flat (reverse l))) m.
Proof.
  revert m. induction l as [|[a b] l IH]; intros m Hn Hal Hsp Hm.
  - apply wp_ret. split; [split|]; cbn; [lia| |done..]. by intros i v Hi.
  - assert (a <> SP /\ b <> SP /\ SP ∉ flat l) as (Ha & Hb & Hn'). { split_and!; intros E; apply Hn; subst; cbn; set_solver. }
    cbn [length] in *. apply exec_cons. eapply wp_mono; [apply pushp_wp; try done; [lia|]|].
    + intros i Hi. specialize (Hm (2 * length l + i)%nat ltac:(lia)). replace (c_reg m SP - 16 + 8 * Z.of_nat i) with
        (c_reg m SP - 16 * Z.of_nat (S (length l)) + 8 * Z.of_nat (2 * length l + i)) by lia. done.
    + intros [] m1 [H1 HR1]. pose proof (sk_sp _ _ _ H1) as E1. cbn in E1. eapply wp_mono; [apply IH; [done|rewrite E1; Z.div_mod_to_equations; lia|lia|]|].
      * intros i Hi. apply (sk_mapped _ _ _ H1). specialize (Hm i ltac:(lia)).
        replace (c_reg m1 SP - 16 * Z.of_nat (length l)) with (c_reg m SP - 16 * Z.of_nat (S (length l))) by lia. done.
      * intros [] m2 [H2 HR2]. split; [|intros r Hr; by rewrite HR2, HR1].
        rewrite reverse_cons, flat_app, fmap_app. change (c_reg m <$> flat [(a, b)]) with [c_reg m a; c_reg m b]. eapply stacked_trans; [exact H1|].
        replace (c_reg m <$> flat (reverse l)) with (c_reg m1 <$> flat (reverse l)); [done|].
        apply list_fmap_ext. intros i r Hr. apply HR1. intros ->. apply Hn'. apply list_elem_of_lookup_2 in Hr.
        apply elem_of_flat. apply elem_of_flat in Hr as (p & Hp & Hr). exists p. by rewrite elem_of_reverse in Hp.
Qed.

Record popped (m : cpu) (rs : list reg) (ws : list Z) (m' : cpu) : Prop := {
  po_sp : c_reg m' SP = c_reg m SP + 8 * Z.of_nat (length ws);
  po_regs : forall r, r <> SP -> (r ∉ rs) -> c_reg m' r = c_reg m r;
  po_vals : c_reg m' <$> rs = ws;
  po_mem : c_mem m' = c_mem m }.

Lemma popp_wp a b va vb m :
  NoDup [SP; a; b] -> c_reg m SP mod 16 = 0 -> 0 <= c_reg m SP < 2 ^ 64 - 16 -> words (c_reg m SP) [va; vb] (c_mem m) ->
  wp (step (POPP a b)) (fun _ => popped m [a; b] [va; vb]) m.
Proof.
  intros Hn Hal Hsp Hw. assert (SP <> a /\ SP <> b /\ a <> b) as (N1 & N2 & N3). { rewrite !NoDup_cons in Hn. set_solver. }
  cbn [step]. unfold rget. wp_prims. rewrite Hal. cbn. wp_prims.
  apply (wp_load_word _ va); [exact (words_head _ _ _ _ Hw)|]. wp_prims. apply (wp_load_word _ vb); [exact (Hw 1%nat vb eq_refl)|].
  wp_prims. apply wp_rset. wp_prims. apply wp_rset, wp_rset. split; cbn; [rewrite u64_small by (cbn; lia); done| | |done].
  - intros r Hr Hab. rewrite !decide_False by set_solver. done.
  - repeat case_decide; congruence.
Qed.

Lemma pops_wp l ws m :
  NoDup (SP :: flat l) -> length ws = (2 * length l)%nat -> c_reg m SP mod 16 = 0 -> 0 <= c_reg m SP -> c_reg m SP + 16 * Z.of_nat (length l) < 2 ^ 64 ->
  words (c_reg m SP) ws (c_mem m) -> wp (exec (pops l)) (fun _ => popped m (flat l) ws) m.
Proof.
  revert m ws. induction l as [|[a b] l IH]; intros m ws Hn Hl Hal H0 Hsp Hw.
  - destruct ws; [|done]. apply wp_ret. split; cbn; [lia|done..].
  - destruct ws as [|va [|vb ws]]; [cbn in Hl; lia..|]. cbn [length] in *. change (flat ((a, b) :: l)) with ([a; b] ++ flat l) in *.
    apply (words_cat _ [va; vb]) in Hw as [W1 W2]. cbn in W2. rewrite app_comm_cons in Hn. apply NoDup_app in Hn as (N1 & N2 & N3).
    apply exec_cons. eapply wp_mono; [by apply popp_wp; [|..|exact W1]; try done; lia|]. intros [] m1 [S1 R1 V1 M1]. cbn in S1.
    eapply wp_mono; [apply (IH m1 ws)|].
    + constructor; [apply N2; set_solver|done].
    + lia.
    + rewrite S1. Z.div_mod_to_equations. lia.
    + lia.
    + lia.
    + by rewrite S1, M1.
    + intros [] m2 [S2 R2 V2 M2]. split; [rewrite S2, S1; cbn [length]; lia| | |by rewrite M2, M1].
      * intros r Hr Hni. rewrite R2, R1 by set_solver. done.
      * rewrite fmap_app, V2. change (va :: vb :: ws) with ([va; vb] ++ ws). f_equal. rewrite <-V1. apply list_fmap_ext.
        intros i r Hr%list_elem_of_lookup_2. apply R2; [intros ->; apply NoDup_cons in N1 as [N1 _]; by apply N1|]. apply N2. set_solver.
Qed.

(** ** Traps *)

(** There is room for [n] words below the stack pointer. *)
Record room (n : nat) (m : cpu) : Prop := {
  ro_align : c_reg m SP mod 16 = 0;
  ro_range : 8 * Z.of_nat n <= c_reg m SP < 2 ^ 64;
  ro_mapped : mapped (c_reg m SP - 8 * Z.of_nat n) n (c_mem m) }.

(** A function called in state [m] has returned, by the calling convention. *)
Record returned (m m' : cpu) : Prop := {
  rt_pc : c_reg m' PC = c_reg m (X 30);
  rt_sp : c_reg m' SP = c_reg m SP;
  rt_saved : xregs 19 11 m' = xregs 19 11 m }.

Lemma pushes_room l n m :
  (SP ∉ flat l) -> n = (2 * length l)%nat -> room n m -> wp (exec (pushes l)) (fun _ => pushed m (c_reg m <$> flat (reverse l))) m.
Proof.
  intros Hn -> [H1 H2 H3]. apply pushes_wp; [done|done|lia|].
  intros i Hi. replace (16 * Z.of_nat (length l)) with (8 * Z.of_nat (2 * length l)) by lia. by apply H3.
Qed.

Lemma room_stacked n k m ws m' : room n m -> stacked m ws m' -> length ws = (2 * k)%nat -> (2 * k <= n)%nat -> room (n - 2 * k) m'.
Proof.
  intros [H1 H2 H3] [S _ _ P] Hl Hk. split.
  - rewrite S. Z.div_mod_to_equations. lia.
  - lia.
  - intros i Hi. apply P. replace (c_reg m' SP - 8 * Z.of_nat (n - 2 * k)) with (c_reg m SP - 8 * Z.of_nat n) by lia. apply H3. lia.
Qed.

Lemma room_sub n k m : (k <= n)%nat -> room n m -> room k m.
Proof.
  intros Hk [H1 H2 H3]. split; [done|lia|]. intros i Hi.
  replace (c_reg m SP - 8 * Z.of_nat k + 8 * Z.of_nat i) with (c_reg m SP - 8 * Z.of_nat n + 8 * Z.of_nat (n - k + i)) by lia. apply H3. lia.
Qed.

(** A move between registers, as [MOV], [MRS] and [MSR] make it. *)
Definition moved (d s : reg) (m : cpu) : cpu := mkCpu (fun r => if decide (r = d) then c_reg m s else c_reg m r) (c_mem m).
Lemma moved_ne d s r m : r <> d -> c_reg (moved d s m) r = c_reg m r.
Proof. intros H. cbn. by rewrite decide_False. Qed.
Lemma exec_mov d s i l (Q : unit -> cpu -> Prop) m :
  i = MOV d s \/ i = MRS d s \/ i = MSR d s -> wp (exec l) Q (moved d s m) -> wp (exec (i :: l)) Q m.
Proof. intros Hi H. apply exec_cons. destruct Hi as [->|[->| ->]]; exact H. Qed.
Lemma exec_pushp a b l n (Q : unit -> cpu -> Prop) m :
  a <> SP -> b <> SP -> (2 <= n)%nat -> room n m -> (forall m', pushed m [c_reg m a; c_reg m b] m' -> wp (exec l) Q m') -> wp (exec (PUSHP a b :: l)) Q m.
Proof.
  intros Ha Hb Hn Hr H. apply exec_cons. destruct (room_sub _ 2 _ Hn Hr) as [H1 H2 H3].
  eapply wp_mono; [apply pushp_wp; [done|done|done|lia|exact H3]|]. intros []. exact H.
Qed.
Lemma room_same n m m' : c_reg m' SP = c_reg m SP -> c_mem m' = c_mem m -> room n m -> room n m'.
Proof. intros E1 E2 [H1 H2 H3]. split; by rewrite ?E1, ?E2. Qed.

(** The state at the call of [trap_global_handler]. *)
Record trapped (h tr : Z) (m m' : cpu) : Prop := {
  td_pc : c_reg m' PC = h;
  td_lr : c_reg m' (X 30) = tr;
  td_sp : c_reg m' SP = c_reg m SP - 176;
  td_x0 : c_reg m' (X 0) = c_reg m SP - 176;
  td_frame : words (c_reg m SP - 176) (uwords (user_context m)) (c_mem m');
  td_mem : forall a, a < c_reg m SP - 176 \/ c_reg m SP <= a -> c_mem m' !! a = c_mem m !! a;
  td_saved : xregs 19 11 m' = xregs 19 11 m }.

Lemma trap_entry_wp vector h tr m :
  room 22 m -> wp (take_exception vector;; exec (trap_entry h tr)) (fun _ => trapped h tr m) m.
Proof.
  intros Hr. unfold take_exception, rget. wp_prims. apply wp_rset. wp_prims. apply wp_rset. wp_prims. apply wp_rset, wp_rset.
  set (m0 := mkCpu _ _). assert (room 22 m0) as R0 by by apply (room_same _ m).
  change (trap_entry h tr) with (pushes [(X 16, X 17); (X 14, X 15); (X 12, X 13); (X 10, X 11); (X 8, X 9); (X 6, X 7); (X 4, X 5); (X 2, X 3); (X 0, X 1)] ++
    [MRS (X 1) SP_EL0; PUSHP (X 30) (X 1); MRS (X 0) SPSR_EL1; MRS (X 1) ELR_EL1; PUSHP (X 0) (X 1); MOV (X 0) SP; BL h tr]).
  apply exec_app. eapply wp_mono; [apply (pushes_room _ 18); [set_solver|done|by apply (room_sub 22); [lia|]]|].
  intros [] m1 [P1 G1]. pose proof (room_stacked _ 9 _ _ _ R0 P1 eq_refl ltac:(lia)) as R1.
  eapply exec_mov; [by eauto|]. eapply (exec_pushp _ _ _ 4); [done|done|lia|by apply (room_same _ m1)|]. intros m2 [P2 G2].
  apply (stacked_same m1) in P2; [|done..]. pose proof (room_stacked 4 1 _ _ _ R1 P2 eq_refl ltac:(lia)) as R2.
  do 2 (eapply exec_mov; [by eauto|]). eapply (exec_pushp _ _ _ 2); [done|done|lia|by apply (room_same _ m2)|]. intros m3 [P3 G3].
  apply (stacked_same m2) in P3; [|done..]. pose proof (stacked_trans _ _ _ _ _ (stacked_trans _ _ _ _ _ P1 P2) P3) as [S W F _].
  eapply exec_mov; [by eauto|]. apply exec_cons. cbn [step]. wp_prims. apply wp_rset, wp_rset, wp_ret.
  assert (c_reg m2 SPSR_EL1 = c_reg m PSTATE) as E1 by (rewrite G2 by done; exact (G1 SPSR_EL1 ltac:(done))).
  assert (c_reg m2 ELR_EL1 = c_reg m PC) as E2 by (rewrite G2 by done; exact (G1 ELR_EL1 ltac:(done))).
  pose proof (G1 (X 30) ltac:(done) : _ = c_reg m (X 30)) as E3. pose proof (G1 SP_EL0 ltac:(done) : _ = c_reg m SP_EL0) as E4.
  assert (forall n, (2 <= n)%nat -> c_reg m3 (X n) = c_reg m (X n)) as E5.
  { intros n Hn. rewrite G3 by done. cbn. rewrite !decide_False by (intros [=]; lia). rewrite G2 by done. cbn. rewrite decide_False by (intros [=]; lia). by apply G1. }
  change (words (c_reg m3 SP) ([c_reg m2 SPSR_EL1; c_reg m2 ELR_EL1; c_reg m1 (X 30); c_reg m1 SP_EL0] ++ xregs 0 18 m) (c_mem m3)) in W.
  rewrite E1, E2, E3, E4 in W. change (c_reg m3 SP = c_reg m SP - 176) in S. rewrite S in W, F.
  split; [done|done|exact S|exact S|exact W|exact F|].
  apply list_fmap_ext. intros i n Hi. apply lookup_seq in Hi as [-> Hi]. cbn. rewrite !decide_False by (intros [=]; lia). apply E5. lia.
Qed.

Lemma exec_popp a b va vb ws l (Q : unit -> cpu -> Prop) m :
  NoDup [SP; a; b] -> c_reg m SP mod 16 = 0 -> 0 <= c_reg m SP < 2 ^ 64 - 16 -> words (c_reg m SP) (va :: vb :: ws) (c_mem m) ->
  (forall m', popped m [a; b] [va; vb] m' -> c_reg m' SP mod 16 = 0 -> words (c_reg m' SP) ws (c_mem m') -> wp (exec l) Q m') -> wp (exec (POPP a b :: l)) Q m.
Proof.
  intros Hn Hal Hsp [W1 W2]%(words_cat _ [va; vb]) H. apply exec_cons. eapply wp_mono; [by apply popp_wp|]. intros [] m' Hp.
  pose proof Hp as [S _ _ M]. cbn in S. apply H; [done|rewrite S; Z.div_mod_to_equations; lia|]. rewrite S, M. exact W2.
Qed.

Lemma NoDup_regs (l : list reg) : bool_decide (NoDup l) = true -> NoDup l.
Proof. apply bool_decide_eq_true. Qed.
Lemma notin_regs (r : reg) (l : list reg) : bool_decide (r ∈ l) = false -> r ∉ l.
Proof. apply bool_decide_eq_false. Qed.
Lemma xregs_ext first n m m' : (forall i, (first <= i < first + n)%nat -> c_reg m' (X i) = c_reg m (X i)) -> xregs first n m' = xregs first n m.
Proof. intros H. apply list_fmap_ext. intros j i Hi. apply lookup_seq in Hi as [-> Hi]. apply H. lia. Qed.
(** A general register above those of a list of pairs. *)
Lemma notin_flat n l : Forall (fun p => forall i, n <= i -> p.1 <> X i /\ p.2 <> X i)%nat l -> forall i, (n <= i)%nat -> X i ∉ flat l.
Proof. rewrite Forall_forall. intros H i Hi (p & Hp & Hr)%elem_of_flat. destruct (H p Hp i Hi). naive_solver. Qed.

(** The state after [trap_return] with the frame [u]. *)
Record resumed (u : UserContext) (m m' : cpu) : Prop := {
  re_user : user_context m' = u;
  re_sp : c_reg m' SP = c_reg m SP + 176;
  re_mem : c_mem m' = c_mem m;
  re_saved : xregs 18 12 m' = xregs 18 12 m }.

Lemma trap_return_wp u m :
  length (u_x u) = 18%nat -> c_reg m SP mod 16 = 0 -> 0 <= c_reg m SP < 2 ^ 64 - 176 -> words (c_reg m SP) (uwords u) (c_mem m) ->
  wp (exec trap_return) (fun _ => resumed u m) m.
Proof.
  intros Hl Hal Hsp Hw. destruct u as [spsr elr lr sp x]. cbn in Hl. unfold trap_return, uwords in *. cbn [u_spsr u_elr u_lr u_sp u_x app] in *.
  eapply exec_popp; [by apply NoDup_regs|done|lia|exact Hw|]. intros m1 [S1 R1 [=V1 V1'] M1] A1 W1. cbn [length] in S1.
  do 2 (eapply exec_mov; [by eauto|]). eapply exec_popp; [by apply NoDup_regs|done|rewrite !moved_ne by done; lia|exact W1|]. intros m2 [S2 R2 [=V2 V2'] M2] A2 W2. rewrite !moved_ne in S2 by done. cbn [length] in S2.
  eapply exec_mov; [by eauto|]. change (POPP (X 0) (X 1) :: _) with
    (pops [(X 0, X 1); (X 2, X 3); (X 4, X 5); (X 6, X 7); (X 8, X 9); (X 10, X 11); (X 12, X 13); (X 14, X 15); (X 16, X 17)] ++ [ERET]).
  apply exec_app. eapply wp_mono; [apply (pops_wp _ x); [by apply NoDup_regs|done|done|rewrite !moved_ne by done; cbn [length]; lia..|exact W2]|].
  intros [] m3 [S3 R3 V3 M3]. apply exec_cons. cbn [step]. unfold rget. wp_prims. apply wp_rset. wp_prims. apply wp_rset, wp_ret.
  split; cbn [c_reg c_mem].
  - unfold user_context. cbn [c_reg]. rewrite !(R3 ELR_EL1), !(R3 SPSR_EL1), (R3 SP_EL0), (R3 (X 30)), !moved_ne by (done || by apply notin_regs).
    rewrite (R2 ELR_EL1), (R2 SPSR_EL1) by (done || by apply notin_regs). cbn. by subst.
  - change (c_reg m3 SP = c_reg m SP + 176). rewrite S3, moved_ne, Hl by done. lia.
  - rewrite M3. cbn. by rewrite M2, <-M1.
  - apply xregs_ext. intros i Hi. change (c_reg m3 (X i) = c_reg m (X i)). rewrite R3, moved_ne; [| |done|].
    + assert (i <> 0 /\ i <> 1 /\ i <> 30)%nat as (N0 & N1 & N30) by lia. rewrite R2, !moved_ne, R1; [done|done| |done..|]; rewrite !not_elem_of_cons, elem_of_nil; naive_solver.
    + done.
    + apply (notin_flat 18); [|lia]. repeat constructor; cbn; intros [=]; lia.
Qed.

(** C17: a trap saves the interrupted program and gives it back.  On a kernel
    stack with room for the frame, [trap_entry] calls [trap_global_handler] with
    the address of a [UserContext] that holds the state of the program: status,
    address, [lr], stack pointer, [x0] to [x17]; nothing else of memory changes.
    When the handler returns, whatever context [u] it has left in the frame is the
    state the program goes on with, [x19] to [x29] are those of the interrupted
    program and the kernel stack is as before.  [x18] is what the handler left. *)
Theorem trap_saves_restores vector h tr m :
  room 22 m ->
  exists m1, (take_exception vector;; exec (trap_entry h tr)) m = Ret (tt, m1) /\ trapped h tr m m1 /\
    forall m2 u, returned m1 m2 -> length (u_x u) = 18%nat -> words (c_reg m SP - 176) (uwords u) (c_mem m2) ->
    exists m3, exec trap_return m2 = Ret (tt, m3) /\ user_context m3 = u /\ c_reg m3 SP = c_reg m SP /\ c_mem m3 = c_mem m2 /\
      xregs 19 11 m3 = xregs 19 11 m /\ c_reg m3 (X 18) = c_reg m2 (X 18).
Proof.
  intros Hr. destruct (wp_run _ _ _ (trap_entry_wp vector h tr m Hr)) as ([] & m1 & E & H1). exists m1. split; [done|]. split; [done|].
  intros m2 u [Hpc Hsp Hsv] Hl Hw. pose proof (td_sp _ _ _ _ H1) as Es. rewrite Es in Hsp. destruct Hr as [A R _].
  destruct (wp_run _ _ _ (trap_return_wp u m2 Hl ltac:(rewrite Hsp; Z.div_mod_to_equations; lia) ltac:(lia) ltac:(by rewrite Hsp))) as ([] & m3 & E3 & [U3 S3 M3 [=V18 V3]]).
  exists m3. split_and!; try done; [lia|]. rewrite <-(td_saved _ _ _ _ H1), <-Hsv. unfold xregs. cbn. congruence.
Qed.

(** ** Switches *)

(** [swtch(new, slot)] can run: there is room on the stack, [slot] is a word
    outside of it, and the context [k] is at [new], apart from both. *)
Record switch_ok (new slot : Z) (k : KernelContext) (m : cpu) : Prop := {
  so_room : room 14 m;
  so_x0 : c_reg m (X 0) = new;
  so_x1 : c_reg m (X 1) = slot;
  so_slot : is_Some (c_mem m !! slot) /\ (slot < c_reg m SP - 112 \/ c_reg m SP <= slot);
  so_new : new mod 16 = 0 /\ 0 <= new < 2 ^ 64 - 112;
  so_words : words new (kwords k) (c_mem m) /\ length (kc_x k) = 11%nat;
  so_apart : (new + 112 <= c_reg m SP - 112 \/ c_reg m SP <= new) /\ (slot < new \/ new + 112 <= slot) }.

Record switched (new slot : Z) (k : KernelContext) (m m' : cpu) : Prop := {
  sw_ctx : kernel_context m' = k;
  sw_pc : c_reg m' PC = kc_lr k;
  sw_sp : c_reg m' SP = new + 112;
  sw_slot : c_mem m' !! slot = Some (c_reg m SP - 112);
  sw_saved : words (c_reg m SP - 112) (kwords (kernel_context m)) (c_mem m');
  sw_mem : forall a, a < c_reg m SP - 112 \/ c_reg m SP <= a -> a <> slot -> c_mem m' !! a = c_mem m !! a }.

Lemma swtch_wp new slot k m : switch_ok new slot k m -> wp (exec swtch) (fun _ => switched new slot k m) m.
Proof.
  intros [Hr H0 H1 [Hs Hs'] [Hal Hn] [Hw Hl] [Hd Hd']].
  change swtch with (pushes [(X 28, X 29); (X 26, X 27); (X 24, X 25); (X 22, X 23); (X 20, X 21); (X 1, X 19); (X 30, X 0)] ++
    [MOV (X 2) SP; STR (X 2) (X 1); MOV SP (X 0)] ++
    pops [(X 30, X 0); (X 1, X 19); (X 20, X 21); (X 22, X 23); (X 24, X 25); (X 26, X 27); (X 28, X 29)] ++ [RET]).
  apply exec_app. eapply wp_mono; [apply (pushes_room _ 14); [by apply notin_regs|done|done]|]. intros [] m1 [[S1 W1 M1 P1] R1].
  change (c_reg m1 SP = c_reg m SP - 112) in S1. change (words (c_reg m1 SP) (kwords (kernel_context m)) (c_mem m1)) in W1. rewrite S1 in W1, M1.
  cbn [app]. eapply exec_mov; [by eauto|]. apply exec_cons. cbn [step]. unfold rget. wp_prims. rewrite moved_ne, R1, H1 by done.
  apply wp_store_word; [by apply P1|]. eapply exec_mov; [by eauto|]. set (m2 := moved SP (X 0) _).
  assert (c_reg m2 SP = new) as S2. { subst m2. cbn. rewrite <-H0. by apply R1. }
  assert (c_mem m2 = <[slot := c_reg m SP - 112]> (c_mem m1)) as M2. { subst m2. cbn. rewrite S1. done. }
  assert (words new (kwords k) (c_mem m2)) as W2.
  { apply (words_frame _ _ (c_mem m)); [done|]. cbn [length kwords app]. rewrite Hl. intros b Hb. rewrite M2, lookup_insert_ne by lia. apply M1. lia. }
  apply exec_app. eapply wp_mono; [apply (pops_wp _ (kwords k)); [by apply NoDup_regs|cbn; by rewrite Hl|by rewrite S2|by rewrite S2; lia|rewrite S2; cbn [length]; lia|by rewrite S2]|].
  intros [] m3 [S3 R3 V3 M3]. apply exec_cons. cbn [step]. unfold rget. wp_prims. apply wp_rset, wp_ret.
  destruct k as [lr x0 x1 x]. cbn [kwords app kc_lr kc_x0 kc_x1 kc_x length] in *. rewrite Hl, S2 in S3. injection V3 as V30 V0 V1 Vx.
  split; cbn [c_mem].
  - unfold kernel_context. cbn. by subst.
  - done.
  - change (c_reg m3 SP = new + 112). rewrite S3. lia.
  - rewrite M3, M2. by rewrite lookup_insert_eq.
  - rewrite M3, M2. apply (words_frame _ _ (c_mem m1)); [done|]. cbn. intros b Hb. apply lookup_insert_ne. lia.
  - intros a Ha Ha'. rewrite M3, M2, lookup_insert_ne by done. by apply M1.
Qed.

(** C16: [swtch(new, slot)] loads the context at [new]: it returns to the [lr] of
    that context, with its registers, on the stack above it, and writes nothing
    but its own context below the stack pointer and the address of it to [slot].
    Whenever a later [swtch], on any stack, is given that address and the words of
    the context are still there, it returns from the first call: to the same
    address, with the same stack pointer and the same [x19] to [x29]. *)
Theorem swtch_returns new slot k m :
  switch_ok new slot k m ->
  exists m', exec swtch m = Ret (tt, m') /\ switched new slot k m m' /\
    forall slot2 m2, switch_ok (c_reg m SP - 112) slot2 (kernel_context m) m2 ->
    exists m3, exec swtch m2 = Ret (tt, m3) /\ returned m m3 /\ c_mem m3 !! slot2 = Some (c_reg m2 SP - 112).
Proof.
  intros H. destruct (wp_run _ _ _ (swtch_wp _ _ _ _ H)) as ([] & m' & E & H1). exists m'. split; [done|]. split; [done|].
  intros slot2 m2 H2. destruct (wp_run _ _ _ (swtch_wp _ _ _ _ H2)) as ([] & m3 & E3 & [C P S L _ _]). exists m3. split; [done|]. split; [|done].
  split; [done|lia|]. exact (f_equal kc_x C).
Qed.

(** [init_proc] puts the two contexts of a process at the top of its kernel
    stack, [start_proc] writes the first three fields of one of them. *)
Definition kcontext_of (kstack : Z) : Z := kstack + PAGE_SIZE - 16 - 112 - 176.
Definition ucontext_of (kstack : Z) : Z := kstack + PAGE_SIZE - 16 - 176.
Definition start_kcontext (proc_entry entry arg : Z) (k : KernelContext) : KernelContext := mkKctx proc_entry entry arg (kc_x k).

(** What [proc_entry] does when it returns: [set_return_addr] makes it return to
    its first argument, and the second is the result. *)
Record entered (m m' : cpu) : Prop := {
  en_pc : c_reg m' PC = c_reg m (X 0);
  en_x0 : c_reg m' (X 0) = c_reg m (X 1);
  en_sp : c_reg m' SP = c_reg m SP;
  en_saved : xregs 19 11 m' = xregs 19 11 m }.

(** C18: the first switch to a process that [start_proc] was given
    [trap_return] for.  [swtch] goes to [proc_entry] on the stack that begins at
    the user context; when [proc_entry] is done, [trap_return] starts the program
    in the user context [u] with the kernel stack empty up to its last 16 bytes.
    [x19] to [x29] of the program are the words that the new page for the
    stack happened to hold: neither [fork] nor [start_proc] sets them. *)
Theorem new_process_starts kstack proc_entry tr arg slot k u m :
  switch_ok (kcontext_of kstack) slot (start_kcontext proc_entry tr arg k) m ->
  0 <= kstack -> kstack mod PAGE_SIZE = 0 -> kstack + PAGE_SIZE <= 2 ^ 64 -> length (u_x u) = 18%nat ->
  exists m1, exec swtch m = Ret (tt, m1) /\ switched (kcontext_of kstack) slot (start_kcontext proc_entry tr arg k) m m1 /\
    c_reg m1 PC = proc_entry /\ c_reg m1 (X 0) = tr /\ c_reg m1 (X 1) = arg /\
    forall m2, entered m1 m2 -> words (ucontext_of kstack) (uwords u) (c_mem m2) -> c_reg m2 PC = tr /\
    exists m3, exec trap_return m2 = Ret (tt, m3) /\ user_context m3 = u /\ c_reg m3 SP = kstack + PAGE_SIZE - 16 /\ xregs 19 11 m3 = kc_x k.
Proof.
  intros H Hk Ha Ht Hl. destruct (wp_run _ _ _ (swtch_wp _ _ _ _ H)) as ([] & m1 & E & HS). pose proof HS as [C P S _ _ _]. exists m1.
  pose proof (f_equal kc_x C : xregs 19 11 m1 = kc_x k) as C4. pose proof (f_equal kc_x0 C : c_reg m1 (X 0) = tr) as C2. pose proof (f_equal kc_x1 C : c_reg m1 (X 1) = arg) as C3.
  split_and!; [done..|]. intros m2 [Ep E0 Es Ev] Hw. split; [congruence|]. unfold kcontext_of, ucontext_of, PAGE_SIZE in *.
  assert (c_reg m2 SP = kstack + 4096 - 16 - 176) as S2 by lia. rewrite <-S2 in Hw.
  destruct (wp_run _ _ _ (trap_return_wp u m2 Hl ltac:(rewrite S2; Z.div_mod_to_equations; lia) ltac:(lia) Hw)) as ([] & m3 & E3 & [U3 S3 M3 [=V18 V3]]).
  exists m3. split_and!; [done|done|lia|]. rewrite <-C4, <-Ev. unfold xregs. cbn. congruence.
Qed.

(** ** A machine *)

(** Memory up to 8192; the word at [8 * i] is [i]. *)
Definition demo_words : gmap Z Z := list_to_map ((fun i => (8 * Z.of_nat i, Z.of_nat i)) <$> seq 0 1024).
Definition demo_cpu (sp x0 x1 : Z) (m : gmap Z Z) : cpu :=
  mkCpu (fun r => match r with SP => sp | X 0 => x0 | X 1 => x1 | X n => 100 + Z.of_nat n | SP_EL0 => 4096 | PC => 64 | _ => 0 end) m.
Definition demo_kctx : KernelContext := mkKctx 986 987 988 (seqZ 989 11).

Lemma mapped_check a n m : forallb (fun i => bool_decide (is_Some (m !! (a + 8 * Z.of_nat i)))) (seq 0 n) = true -> mapped a n m.
Proof. rewrite forallb_forall. intros H i Hi. eapply bool_decide_eq_true, H, in_seq. lia. Qed.
Lemma words_check a l m : forallb (fun i => bool_decide (m !! (a + 8 * Z.of_nat i) = l !! i)) (seq 0 (length l)) = true -> words a l m.
Proof. rewrite forallb_forall. intros H i v Hi. rewrite <-Hi. eapply bool_decide_eq_true, H, in_seq. apply lookup_lt_Some in Hi. lia. Qed.
Lemma demo_room n x0 x1 : (n <= 14)%nat \/ n = 22%nat -> room n (demo_cpu 2048 x0 x1 demo_words).
Proof.
  intros Hn. apply (room_sub 22); [lia|]. split; [reflexivity|cbn; lia|]. apply mapped_check. vm_compute. reflexivity.
Qed.
Lemma demo_switch : switch_ok (kcontext_of 4096) 8 demo_kctx (demo_cpu 2048 (kcontext_of 4096) 8 demo_words).
Proof.
  split; [apply demo_room; lia|done|done| | | |]; unfold kcontext_of, PAGE_SIZE; cbn [demo_cpu c_reg c_mem].
  - split; [by exists 1|lia].
  - split; [done|lia].
  - split; [apply words_check; vm_compute; reflexivity|done].
  - lia.
Qed.

Lemma trap_saves_restores_witness : exists m1 m3, (take_exception 128;; exec (trap_entry 256 512)) (demo_cpu 2048 7 8 demo_words) = Ret (tt, m1) /\
  exec trap_return (moved PC (X 30) m1) = Ret (tt, m3) /\ user_context m3 = user_context (demo_cpu 2048 7 8 demo_words).
Proof.
  destruct (trap_saves_restores 128 256 512 (demo_cpu 2048 7 8 demo_words)) as (m1 & E & H & G); [apply demo_room; lia|].
  destruct (G (moved PC (X 30) m1) (user_context (demo_cpu 2048 7 8 demo_words))) as (m3 & E3 & U & _); [split; reflexivity|reflexivity|exact (td_frame _ _ _ _ H)|].
  exists m1, m3. split; [exact E|]. split; [exact E3|exact U].
Defined.

Lemma swtch_returns_witness : exists m' m3, exec swtch (demo_cpu 2048 (kcontext_of 4096) 8 demo_words) = Ret (tt, m') /\
  exec swtch (demo_cpu 3072 1936 16 (c_mem m')) = Ret (tt, m3) /\ returned (demo_cpu 2048 (kcontext_of 4096) 8 demo_words) m3.
Proof.
  destruct (swtch_returns _ _ _ _ demo_switch) as (m' & E & [_ _ _ _ W M] & G).
  destruct (G 16 (demo_cpu 3072 1936 16 (c_mem m'))) as (m3 & E3 & R & _); [|exists m', m3; split; [exact E|]; split; [exact E3|exact R]].
  cbn [demo_cpu c_reg] in M. assert (mapped 2960 14 demo_words) as H by (apply mapped_check; vm_compute; reflexivity).
  split; [split| | | | | |]; cbn [demo_cpu c_reg c_mem].
  - done.
  - lia.
  - intros i Hi. cbn. rewrite M by lia. by apply H.
  - done.
  - done.
  - split; [rewrite M by lia; by exists 2|lia].
  - split; [done|lia].
  - split; [exact W|done].
  - lia.
Defined.

(** [proc_entry] has returned to [trap_return], and the words above the context are
    the user context. *)
Definition demo_uctx : UserContext := mkUctx 1000 1001 1002 1003 (seqZ 1004 18).
Lemma new_process_starts_witness : exists m1 m3, exec swtch (demo_cpu 2048 (kcontext_of 4096) 8 demo_words) = Ret (tt, m1) /\ c_reg m1 PC = 986 /\
  exec trap_return (moved (X 0) (X 1) (moved PC (X 0) m1)) = Ret (tt, m3) /\ user_context m3 = demo_uctx /\ xregs 19 11 m3 = seqZ 989 11.
Proof.
  destruct (new_process_starts 4096 986 987 988 8 demo_kctx demo_uctx _ demo_switch) as (m1 & H1 & [_ _ _ _ _ M] & H2 & H3 & H4 & G);
    [lia|reflexivity|unfold PAGE_SIZE; lia|reflexivity|].
  cbn [demo_cpu c_reg c_mem] in M. destruct (G (moved (X 0) (X 1) (moved PC (X 0) m1))) as (_ & m3 & E3 & U & _ & V).
  - split; reflexivity.
  - apply (words_frame _ _ demo_words); [apply words_check; vm_compute; reflexivity|]. unfold ucontext_of, PAGE_SIZE. cbn. intros b Hb. apply M; lia.
  - exists m1, m3. split; [exact H1|]. split; [exact H2|]. split; [exact E3|]. split; [exact U|exact V].
Defined.
