(* ===== verification/Trap.v ===== *)
(** * Traps and system calls: [aarch64/trap.c], [kernel/syscall.c], [kernel/sysproc.c], [driver/interrupt.c]

    The handlers run on the state of file [ForkCall]: all parts of the kernel.
    [w_ucontext] has the trap frame of each process; [p_elr], which [kill] reads
    through [ucontext], is the address in it.

    A handler may lose the CPU on its way, in [yield], [wait] or [exit].  Such a
    call ends here with [None] or [false], and what follows runs when the process
    is switched to again; a handler that has come to its end gives its result or
    [true].  The entries of [syscall_table] that other files register, the
    handlers of interrupts and the handler of page faults (file [Paging]) are
    parameters, as is what the registers of the exception hold.  Messages and the
    end-of-interrupt write to the controller are left out. *)

From Stdlib Require Import ZArith Lia.
From stdpp Require Import base tactics numbers gmap list.
From S2P Require Import Prelude FsDefs Console BlockCache Mem PageTable Paging PagingDemo Fork ForkProofs Inode Pipe File Timer Sched SchedProofs SemProofs ProcProofs ProcExit Kernel KernelProps ForkCall ForkProps.

Local Open Scope Z_scope.

(** The numbers of [syscallno.h] that [sysproc.c] uses. *)
Definition NR_SYSCALL : Z := 512.
Definition SYS_yield : Z := 124.
Definition SYS_pstat : Z := 500.
Definition SYS_clone : Z := 220.
Definition SYS_myexit : Z := 457.
Definition SYS_myyield : Z := 459.
Definition SYS_exit : Z := 93.
Definition SYS_sigprocmask : Z := 135.
Definition SYS_wait4 : Z := 260.
Definition SYS_exit_group : Z := 94.

(** [trap.h] and [trap.c]. *)
Definition ESR_EC_SHIFT : Z := 26.
Definition ESR_ISS_MASK : Z := 16777215.
Definition ESR_IR_MASK : Z := 33554432.
Definition ESR_EC_UNKNOWN : Z := 0.
Definition ESR_EC_SVC64 : Z := 21.
Definition ESR_EC_IABORT_EL0 : Z := 32.
Definition ESR_EC_IABORT_EL1 : Z := 33.
Definition ESR_EC_DABORT_EL0 : Z := 36.
Definition ESR_EC_DABORT_EL1 : Z := 37.
Definition SPSR_EL1_DAIF_MASK : Z := 15.

Definition NUM_IRQ_TYPES : Z := 64.

Section trap.
Context {S : Type} (invalid_pt sched_timers junk_elr : Z) (junk_ctx : UserContext) (trap_return : Z).
Abbreviation WM := (M (world S)).

Definition on_mem {A} : M kmem A -> WM A := zoom w_mem w_set_mem.

(** ** System calls *)

(** Arguments [x0] to [x5], on CPU [c]. *)
Abbreviation handler := (Z -> list Z -> WM (option Z)).
Definition arg (i : nat) (l : list Z) : Z := nth i l 0.

Definition sys_gettid : handler := fun c _ =>
  t ← on_k (thisproc c);
  x ← on_k (load_proc t);
  mret (Some (u64 (p_pid x))).
Definition sys_set_tid_address : handler := sys_gettid.
Definition sys_sigprocmask : handler := fun _ _ => mret (Some 0).
Definition sys_rt_sigprocmask : handler := fun _ _ => mret (Some 0).

(** [sched] returns here only when it has chosen the same process. *)
Definition sys_yield : handler := fun c _ =>
  t ← on_k (thisproc c);
  on_k (yield invalid_pt sched_timers c);;
  t' ← on_k (thisproc c);
  mret (if t' =? t then Some 0 else None).
Definition sys_myyield : handler := sys_yield.

Definition sys_pstat : handler := fun _ _ => n ← on_mem left_page_cnt; mret (Some n).

Definition sys_clone : handler := fun c l =>
  if negb (i32 (arg 0 l) =? 17) then mret (Some (u64 (-1))) else
  pid ← fork junk_elr junk_ctx trap_return c;
  mret (Some (u64 pid)).

Definition sys_exit : handler := fun c l => on_k (exit invalid_pt sched_timers c (i32 (arg 0 l)));; mret None.
Definition sys_myexit : handler := sys_exit.
Definition sys_exit_group : handler := sys_exit.

(** Arguments it does not know end in an endless loop. *)
Definition sys_wait4 : handler := fun c l =>
  if negb (i32 (arg 0 l) =? -1) || negb (arg 2 l =? 0) || negb (i32 (arg 1 l) =? 0) || negb (arg 3 l =? 0) then block else
  r ← on_k (wait_begin invalid_pt sched_timers c);
  mret (u64 <$> r).

(** [syscall_table] after [init_syscall]; [others] are the entries of other files
    and those of [sysproc.c] that work on the memory of one process, [sbrk] and
    [execve].  Three numbers are those of the C library. *)
Context (SYS_gettid SYS_set_tid_address SYS_rt_sigprocmask : Z) (others : gmap Z handler).
Definition syscall_table : gmap Z handler :=
  <[SYS_clone := sys_clone]> (<[SYS_wait4 := sys_wait4]> (<[SYS_exit := sys_exit]> (<[SYS_exit_group := sys_exit_group]>
  (<[SYS_myexit := sys_myexit]> (<[SYS_yield := sys_yield]> (<[SYS_myyield := sys_myyield]> (<[SYS_pstat := sys_pstat]>
  (<[SYS_sigprocmask := sys_sigprocmask]> (<[SYS_rt_sigprocmask := sys_rt_sigprocmask]>
  (<[SYS_gettid := sys_gettid]> (<[SYS_set_tid_address := sys_set_tid_address]> others))))))))))).

Definition load_ctx (t : Z) : WM UserContext := m ← gets w_ucontext; some_or_ub (m !! t).
(** [context->x[0] = ret]. *)
Definition with_x0 (v : Z) (u : UserContext) : UserContext := mkUctx (u_spsr u) (u_elr u) (u_lr u) (u_sp u) (<[0%nat := v]> (u_x u)).
Definition set_x0 (t v : Z) : WM unit := modify (fun w => w_set_ucontext (alter (with_x0 v) t (w_ucontext w)) w).

(** [context] is the frame of process [t]. *)
Definition syscall_entry (c t : Z) : WM bool :=
  u ← load_ctx t;
  id ← some_or_ub (u_x u !! 8%nat);
  if NR_SYSCALL <=? id then panic else
  match syscall_table !! id with
  | None => mret true
  | Some h =>
      r ← h c (take 6 (u_x u));
      match r with
      | Some v => set_x0 t v;; mret true
      | None => mret false
      end
  end.

(** ** Interrupts *)

(** An entry of [int_handler] that nothing has set is [default_handler], which
    panics. *)
Abbreviation InterruptHandler := (Z -> Z -> WM bool).
Definition set_interrupt_handler (type : Z) (h : InterruptHandler) (int_handler : gmap Z InterruptHandler) : gmap Z InterruptHandler :=
  <[type := h]> int_handler.
Definition interrupt_global_handler (int_handler : gmap Z InterruptHandler) (c iar : Z) : WM bool :=
  let intid := Z.land iar 1023 in
  if intid =? 1023 then mret true else
  if NUM_IRQ_TYPES <=? intid then ub else
  match int_handler !! intid with
  | Some h => h c intid
  | None => panic
  end.

(** ** Traps *)

Context (int_handler : gmap Z InterruptHandler) (pgfault : Z -> WM unit).

(** [thisproc()->ucontext = context]. *)
Definition trap_begin (c : Z) (context : UserContext) : WM Z :=
  t ← on_k (thisproc c);
  modify (fun w => w_set_ucontext (<[t := context]> (w_ucontext w)) w);;
  on_k (upd_proc t (p_set_elr (u_elr context)));;
  mret t.

(** The last test, of the process that handled the trap. *)
Definition trap_end (c t : Z) : WM unit :=
  this ← on_k (thisproc c);
  x ← on_k (load_proc this);
  u ← load_ctx t;
  if p_killed x && (Z.land (u_spsr u) SPSR_EL1_DAIF_MASK =? 0) then on_k (exit invalid_pt sched_timers c (-1)) else mret tt.

Definition trap_global_handler (c esr iar : Z) (context : UserContext) : WM unit :=
  t ← trap_begin c context;
  let ec := Z.shiftr esr ESR_EC_SHIFT in
  let iss := Z.land esr ESR_ISS_MASK in
  let ir := Z.land esr ESR_IR_MASK in
  r ← (if ec =? ESR_EC_UNKNOWN then
         if negb (ir =? 0) then panic else interrupt_global_handler int_handler c iar
       else if ec =? ESR_EC_SVC64 then syscall_entry c t
       else if (ec =? ESR_EC_IABORT_EL0) || (ec =? ESR_EC_IABORT_EL1) || (ec =? ESR_EC_DABORT_EL0) || (ec =? ESR_EC_DABORT_EL1) then
         pgfault iss;; mret true
       else panic : WM bool);
  if r : bool then trap_end c t else mret tt.

(** ** What a system call does *)

(** The state when the handler of process [T] on CPU [c] has its context. *)
Definition began (c : Z) (T : Proc) (u : UserContext) (w : world S) : world S :=
  w_set_k (k_set_procs (<[k_this (w_k w) c := p_set_elr (u_elr u) T]> (k_procs (w_k w))) (w_k w))
    (w_set_ucontext (<[k_this (w_k w) c := u]> (w_ucontext w)) w).

Lemma svc_wp c T u esr iar h id (Q : unit -> world S -> Prop) w :
  k_procs (w_k w) !! k_this (w_k w) c = Some T -> Z.shiftr esr ESR_EC_SHIFT = ESR_EC_SVC64 ->
  u_x u !! 8%nat = Some id -> id < NR_SYSCALL -> syscall_table !! id = Some h ->
  wp (h c (take 6 (u_x u))) (fun r w1 =>
    match r with
    | Some v => wp (trap_end c (k_this (w_k w) c)) Q (w_set_ucontext (alter (with_x0 v) (k_this (w_k w) c) (w_ucontext w1)) w1)
    | None => Q tt w1
    end) (began c T u w) ->
  wp (trap_global_handler c esr iar u) Q w.
Proof.
  intros HT He Hid Hlt Ht H. unfold trap_global_handler, trap_begin, on_k. wp_prims. apply wp_zoom. unfold thisproc. wp_prims. apply wp_zoom.
  eapply wp_upd_proc; [exact HT|]. wp_prims. rewrite He.
  change (ESR_EC_SVC64 =? ESR_EC_UNKNOWN) with false. change (ESR_EC_SVC64 =? ESR_EC_SVC64) with true. cbv iota. unfold syscall_entry, load_ctx. wp_prims.
  cbn [w_ucontext w_set_k w_set_ucontext]. rewrite lookup_insert_eq. apply wp_some_or_ub. exists u. split; [done|].
  wp_prim. apply wp_some_or_ub. exists id. split; [done|]. rewrite (proj2 (Z.leb_gt NR_SYSCALL id) Hlt), Ht.
  wp_prim. change (w_set_k _ _) with (began c T u w). eapply wp_mono; [exact H|]. intros [v|] w1 H1; [|by wp_prims]. unfold set_x0. by wp_prims.
Qed.

Lemma trap_end_goes_on c P u w :
  k_procs (w_k w) !! k_this (w_k w) c = Some P -> p_killed P = false -> w_ucontext w !! k_this (w_k w) c = Some u ->
  wp (trap_end c (k_this (w_k w) c)) (fun _ w' => w' = w) w.
Proof.
  intros HP Hk Hu. unfold trap_end, on_k, load_ctx, thisproc. wp_prims. apply wp_zoom. wp_prims. apply wp_zoom. eapply wp_load_proc; [exact HP|]. wp_prims.
  apply wp_some_or_ub. exists u. split; [exact Hu|]. rewrite Hk. cbn [andb]. wp_prim. by destruct w.
Qed.

(** C14: the system call [clone] returns twice.  A process that traps with [svc],
    the number of [clone] in [x8] and 17 in [x0] gets the number of the new child
    in [x0] of its trap frame; the child has the same frame with 0 in [x0].  The
    frame has [x0] to [x17], [lr], [sp], the address and the status; what the child
    has in [x18] to [x29] is not part of it.  The child is runnable, a child of the
    caller, and starts at [trap_return].  Its address space has, at every user
    address, a private copy of the page of the caller with the same bytes, and no
    page where the caller has none; the space of the caller and all pages in use
    are as before.  It has the descriptors of the caller, each counted once more,
    and its working directory.  Other processes, frames and tables of descriptors,
    pipes, inodes other than the count of the working directory, and the block
    cache are as before; the child is at the front of the run queue and has a new
    semaphore.  The invariant of the processes holds after the call. *)
Theorem clone_returns_twice c T u esr iar x0 own r F L w :
  let t := k_this (w_k w) c in let T' := p_set_elr (u_elr u) T in
  k_procs (w_k w) !! t = Some T -> p_killed T = false -> can_fork sched_timers c T' u own r F L (began c T u w) ->
  Z.shiftr esr ESR_EC_SHIFT = ESR_EC_SVC64 -> u_x u !! 8%nat = Some SYS_clone -> u_x u !! 0%nat = Some x0 -> i32 x0 = 17 ->
  exists w' w1 p pid, trap_global_handler c esr iar u w = Ret (tt, w') /\ duplicated sched_timers trap_return c T' u own r F p pid (began c T u w) w1 /\
    w' = w_set_ucontext (<[t := with_x0 (u64 pid) u]> (<[p := with_x0 0 u]> (w_ucontext w))) w1.
Proof.
  intros t T' HT Hkl Hf He H8 H0 Hx.
  enough (wp (trap_global_handler c esr iar u) (fun _ w' => exists w1 p pid, duplicated sched_timers trap_return c T' u own r F p pid (began c T u w) w1 /\
    w' = w_set_ucontext (<[t := with_x0 (u64 pid) u]> (<[p := with_x0 0 u]> (w_ucontext w))) w1) w) as W.
  { destruct (wp_run _ _ _ W) as ([] & w' & E & w1 & p & pid & H). by exists w', w1, p, pid. }
  eapply svc_wp; [exact HT|exact He|exact H8|by vm_compute|apply lookup_insert_eq|]. unfold sys_clone.
  replace (arg 0 (take 6 (u_x u))) with x0 by (destruct (u_x u); [done|]; cbn in *; congruence). rewrite Hx. cbn [negb Z.eqb Pos.eqb]. wp_prim.
  eapply wp_mono; [by eapply fork_wp|]. intros pid w1 (p & D). wp_prim. pose proof D as [[_ [_ _ (Et & _)]] Hc (C & r' & [[Hn _] Hp _ _] & _) _].
  change (k_this (w_k (began c T u w))) with (k_this (w_k w)) in *. assert (p <> t) as Hpt.
  { intros ->. cbn in Hn. rewrite lookup_insert_eq in Hn. done. }
  assert (w_ucontext w1 !! t = Some u) as Hu. { rewrite Hc, lookup_insert_ne by done. apply lookup_insert_eq. }
  set (w2 := w_set_ucontext _ w1). assert (w_ucontext w2 !! t = Some (with_x0 (u64 pid) u)) as Hu2. { cbn. fold t. by rewrite lookup_alter_eq, Hu. }
  eapply wp_mono.
  - rewrite <-Et. change (k_this (w_k w1)) with (k_this (w_k w2)). eapply (trap_end_goes_on c); [|shelve|cbn [w_k w2 w_set_ucontext]; rewrite Et; exact Hu2].
    cbn [w_k w2 w_set_ucontext]. rewrite Hp, Et, lookup_insert_ne, lookup_insert_eq by done. reflexivity.
    Unshelve. exact Hkl.
  - intros [] w' ->. exists w1, p, pid. split; [done|]. unfold w2. f_equal. fold t. apply map_eq. intros q. rewrite Hc. cbn [began w_ucontext w_set_k w_set_ucontext]. fold t.
    rewrite lookup_alter, !lookup_insert. repeat (case_decide; try congruence); done.
Qed.

(** C15: a killed process does not go back to its program.  When a trap from user
    mode is a registered system call that returns, and the process is marked
    killed by then, the handler ends in [exit(-1)]: the process is a zombie with
    that code, and the invariant of the processes holds. *)
Theorem killed_trap_exits c T u esr iar id h w :
  let t := k_this (w_k w) c in
  k_procs (w_k w) !! t = Some T -> Z.shiftr esr ESR_EC_SHIFT = ESR_EC_SVC64 ->
  u_x u !! 8%nat = Some id -> id < NR_SYSCALL -> syscall_table !! id = Some h ->
  wp (h c (take 6 (u_x u))) (fun res w1 => is_Some res /\ kinv sched_timers (w_k w1) /\ k_this (w_k w1) c = t /\ t <> k_root (w_k w1) /\
    exists P u1, in_code (w_k w1) c P /\ p_killed P = true /\ w_ucontext w1 !! t = Some u1 /\ Z.land (u_spsr u1) SPSR_EL1_DAIF_MASK = 0) (began c T u w) ->
  exists w' x, trap_global_handler c esr iar u w = Ret (tt, w') /\ kinv sched_timers (w_k w') /\
    k_procs (w_k w') !! t = Some x /\ p_state x = ZOMBIE /\ p_exitcode x = -1.
Proof.
  intros t HT He Hid Hlt Hh H.
  enough (wp (trap_global_handler c esr iar u) (fun _ w' => kinv sched_timers (w_k w') /\ exists x, k_procs (w_k w') !! t = Some x /\ p_state x = ZOMBIE /\ p_exitcode x = -1) w) as W.
  { destruct (wp_run _ _ _ W) as ([] & w' & E & K & x & Hx). by exists w', x. }
  eapply svc_wp; try done. eapply wp_mono; [exact H|]. intros res w1 ([v ->] & K1 & Et & Hr & P & u1 & [HR HP] & Hk & Hu & Hm). fold t.
  unfold trap_end, on_k, load_ctx, thisproc. wp_prims. apply wp_zoom. wp_prims. apply wp_zoom. pose proof HR as (_ & HP' & _).
  eapply wp_load_proc; [exact HP'|]. wp_prims. apply wp_some_or_ub. exists (with_x0 v u1). split; [cbn; by rewrite lookup_alter_eq, Hu|].
  rewrite Hk. change (u_spsr (with_x0 v u1)) with (u_spsr u1). rewrite Hm. cbn [andb Z.eqb]. apply wp_zoom. cbn [w_k w_set_k w_set_ucontext].
  eapply wp_mono; [apply (exit_kinv invalid_pt sched_timers c (-1) P); [done|done|done|by rewrite Et]|].
  intros [] k' (K' & _ & Ho). split; [done|]. rewrite Et in Ho. apply obs_lookup in Ho as (x & Hx & Ev). exists x. split; [done|].
  unfold died, v_set_kind, v_set_kcontext, v_set_children, v_set_exitcode, view_proc in Ev. cbn in Ev. injection Ev as _ _ E2 _ _ _ E5. split; [by destruct (p_state x)|done].
Qed.
End trap.

(** ** Processes that trap *)

Abbreviation demo_trap := (trap_global_handler (S := unit) 9000 1000 77 fork_ctx 500 178 96 135 ∅ ∅ (fun _ => mret tt)).
Definition SVC : Z := Z.shiftl ESR_EC_SVC64 ESR_EC_SHIFT.

(** The process of [fork_world] before it traps. *)
Definition clone_proc : Proc := p_set_pt (kpage 9) (demo_this fork_calls 0).
Definition clone_world : world unit :=
  mkWorld (k_set_procs (<[5000 := clone_proc]> (k_procs (demo fork_calls))) (demo fork_calls)) vm_demo_mem fork_fs ∅ ∅ ∅.
Lemma clone_this : k_this (w_k clone_world) 0 = 5000.
Proof. vm_compute. reflexivity. Qed.
Lemma clone_began : began 0 clone_proc fork_ctx clone_world = fork_world.
Proof.
  unfold began. rewrite clone_this. unfold fork_world, fork_k, fork_proc, clone_world, clone_proc. generalize (demo_this fork_calls 0) (demo fork_calls). intros P d.
  unfold w_set_k, w_set_ucontext, k_set_procs. cbn. by rewrite insert_insert_eq.
Qed.
Lemma clone_returns_twice_witness : exists w' p pid, demo_trap 0 SVC 0 fork_ctx clone_world = Ret (tt, w') /\
  w_ucontext w' = <[5000 := with_x0 (u64 pid) fork_ctx]> {[ p := with_x0 0 fork_ctx ]}.
Proof.
  destruct (clone_returns_twice 9000 1000 77 fork_ctx 500 178 96 135 ∅ ∅ (fun _ => mret tt) 0 clone_proc fork_ctx SVC 0 17 vm_demo_own 9 free_pages [0] clone_world) as (w' & w1 & p & pid & E & _ & H1).
  - rewrite clone_this. apply lookup_insert_eq.
  - vm_compute. reflexivity.
  - rewrite clone_began. exact fork_world_ok.
  - reflexivity.
  - reflexivity.
  - reflexivity.
  - reflexivity.
  - rewrite clone_this in H1. exists w', p, pid. split; [exact E|]. rewrite H1. reflexivity.
Defined.

(** The killed child on CPU 1 asks for its number. *)
Definition gettid_ctx : UserContext := mkUctx 0 64 0 4096 (replicate 8 0 ++ 178 :: replicate 9 0).
Definition killed_world : world unit := mkWorld (demo child_killed) vm_demo_mem fork_fs ∅ ∅ ∅.

Lemma killed_k : w_k killed_world = demo child_killed.
Proof. unfold killed_world. cbn [w_k]. reflexivity. Qed.
Lemma gettid_wp c P u w k : w_k w = k -> kinv 1000 k -> in_code k c P -> p_killed P = true -> k_this k c <> k_root k -> u_spsr u = 0 ->
  wp (sys_gettid (S := unit) c (take 6 (u_x u))) (fun res w1 => is_Some res /\ kinv 1000 (w_k w1) /\ k_this (w_k w1) c = k_this (w_k w) c /\ k_this (w_k w) c <> k_root (w_k w1) /\
    exists P u1, in_code (w_k w1) c P /\ p_killed P = true /\ w_ucontext w1 !! k_this (w_k w) c = Some u1 /\ Z.land (u_spsr u1) SPSR_EL1_DAIF_MASK = 0) (began c P u w).
Proof.
  intros <- K [(Hc & HP & Hs & Hi) Hk] Hkl Hr Hu. unfold sys_gettid, on_k, thisproc. wp_prims. apply wp_zoom. wp_prims. apply wp_zoom.
  eapply wp_load_proc; [apply lookup_insert_eq|]. wp_prims. split; [by eexists|]. split.
  - pose proof (kinv_pt_elr 1000 _ P (p_pt P) (u_elr u) _ K HP) as K'. by replace (p_set_pt (p_pt P) P) with P in K' by by destruct P.
  - split; [done|]. split; [done|]. exists (p_set_elr (u_elr u) P), u. split; [|split; [done|split; [apply lookup_insert_eq|by rewrite Hu]]].
    split; [|done]. split; [done|]. split; [apply lookup_insert_eq|done].
Qed.

Lemma killed_trap_exits_witness : exists w' x, demo_trap 1 SVC 0 gettid_ctx killed_world = Ret (tt, w') /\
  k_procs (w_k w') !! k_this (demo child_killed) 1 = Some x /\ p_state x = ZOMBIE /\ p_exitcode x = -1.
Proof.
  assert (in_code (demo child_killed) 1 (demo_this child_killed 1)) as HC by (apply demo_in_code; vm_compute; reflexivity).
  destruct (killed_trap_exits 9000 1000 77 fork_ctx 500 178 96 135 ∅ ∅ (fun _ => mret tt) 1 (demo_this child_killed 1) gettid_ctx SVC 0 178 sys_gettid killed_world) as (w' & x & E & _ & H1 & H2 & H3).
  - rewrite killed_k. exact (proj1 (proj2 (proj1 HC))).
  - reflexivity.
  - reflexivity.
  - reflexivity.
  - reflexivity.
  - apply (gettid_wp _ _ _ _ (demo child_killed) killed_k); [apply demo_kinv; vm_compute; reflexivity|exact HC|vm_compute; reflexivity|vm_compute; discriminate|reflexivity].
  - rewrite killed_k in H1. exists w', x. split; [exact E|]. split; [exact H1|]. split; [exact H2|exact H3].
Defined.
